(* ===== verification/_CoqProject ===== *)
-Q . S2P
Prelude.v
Json.v
Payload.v
Task.v
Machine.v
Lifecycle.v
Coordinator.v
Store.v
CardDetail.v
CardRequests.v
CardDispatch.v
TaskStore.v
TaskRows.v
OperationResults.v
CardWorkflow.v
Workflow.v
WorkSlot.v
Sweeps.v
Notify.v
Recovery.v
Ask.v
DockerPolicy.v
HostCommands.v
Broker.v
Executor.v
TaskService.v
TriggerRuns.v
SignalTime.v
Signals.v
Triggers.v
CardLaunch.v
TriggerLoop.v
GitGateway.v
ApiGateway.v
Auth.v
AuthRuns.v
