(* ===== verification/Prelude.v ===== *)
(** * A verification development for the boid daemon

    boid is a task orchestrator: a daemon that keeps tasks (judgement cards and
    execution tasks) in SQLite, runs agent hooks for them in sandboxes, and
    moves them through their state machines.  The development models the core
    logic of the daemon, the Go packages internal/orchestrator and internal/api
    and what guards a sandbox (internal/sandbox with its Docker proxy,
    internal/server's executor, internal/gitgateway, internal/apigateway), as executable
    functions and proves what makes each component correct.  Definitions keep
    the names of the source; a name that would clash or that the source spells
    as an inner closure or a loop body is explained where it is defined.

    ** The parts and how they interact

    A task's payload is a JSON object of traits.  Hooks return payload
    patches which are merged into it ([Payload]).  The coordinator selects
    the hooks that fire for an executing task, runs them, folds their patches
    and evaluates the automatic rules of the task's state machine on the
    payload with a lifecycle block derived from the task's action log
    ([Lifecycle], [Machine], [Coordinator]).  Requests to work on a card go
    through the card request ledger, a queue with one execution slot per
    card, drained by an automatic dispatcher, released by reconcile and
    recovery passes and suspended by an operator's force release
    ([CardRequests], [CardDispatch]); humans and the dispatcher launch its
    requests as containers ([CardLaunch]).  Task rows, the action log and external
    identities are tables of one database ([TaskStore], [TaskRows]); a card's
    children and attributes live in a JSON blob of its row ([CardDetail]).
    Every action on a task enters through one handler, which validates it
    against the machine, writes row, log and card blob in a transaction and
    starts the dispatch loop ([CardWorkflow], [Workflow], [WorkSlot]); tasks are
    created, edited and rerun by a service over the stores ([TaskService]); sweeps
    record due wakes and reconcile children ([Sweeps]).  A running agent reports
    progress, success or failure and may ask the user and block for the answer
    ([Notify], [Ask]); the Docker client of its sandbox talks to the engine
    through a proxy that decides what goes through ([DockerPolicy]).  What else
    leaves a sandbox passes the broker, which checks a request against the
    token of the job and runs a host command ([HostCommands]) or hands it to the
    daemon's executor ([Broker], [Executor]); git and HTTP services are reached
    through two gateways that add the credentials ([GitGateway],
    [ApiGateway]).  Browsers and remote command lines are devices, paired with
    one-time codes, and pass the middlewares of the daemon's listeners ([Auth],
    [AuthRuns]); what they asked for and what became of it are receipts
    ([OperationResults]).  When the daemon starts it picks up the work of a
    process that died ([Recovery]).  External events arrive in the signal inbox, which connectors fill and consumers
    claim from ([SignalTime], [Signals]).  Scheduled scripts are trigger runs
    with a single-flight guarantee ([TriggerRuns]), which a loop starts,
    settles and times out ([Triggers], [TriggerLoop]).

    ** Files

    - Prelude: outcomes of a Go call ([outcome]: value, error or panic), loops
      that may fail ([mfold]), string helpers, tactics, the hint databases and
      the generic lemmas.
    - Json: encoding/json as the daemon uses it ([raw], [json],
      [unmarshal_map], [marshal_map], [decode_struct], decoder combinators).
    - Payload: conditions.go, spec_payload.go, awaiting_payload.go.
    - Task: model.go, card.go's CardAttrs, payload_merge.go, the instruction
      types of spec_types.go, readonly.go, actor.go, card_state_actions.go.
      Pointers matter for CloneTaskShallow only, which is modelled on a heap.
    - Machine: machine.go, machine_execution.go, machine_card.go and
      internal/api/machine_select.go.
    - Lifecycle: lifecycle.go.
    - Coordinator: evaluator.go, coordinator.go, types.go.  The hook executor,
      the job waiter and the YAML decoding of a hook's output are the class
      [HookRuntime].
    - Store: the state and error monad of the SQL-backed components with
      [InTxDB] of internal/db/db.go, and the judgements [steps], [returns] and
      [delivers] on what a program of the monad does to the state.
    - CardDetail: the blob operations of card.go.
    - CardRequests: card_request.go, card_force_release_barrier.go and
      CreateAction of store.go on the path the ledger uses.
    - CardDispatch: card_request_dispatch.go, card_request_release.go,
      card_event_ingest.go and the transactional wrappers of repository.go.
    - TaskStore: the task rows, action log, card columns and identities:
      store.go, card.go, task_identity.go.  One database state [WDB] holds the
      rows; the ledger's operations run on its view of it ([on_ledger]).
    - TaskRows: get-or-create, look-ups, listing, deletion and garbage
      collection of store.go, CreateTaskLinkedToCardRequest of repository.go,
      DeleteTask of internal/api/task_service.go.
    - OperationResults: operation_result.go, GCCardRequests of store.go, the
      transaction of TaskGCStore.GC (trigger runs and signals are collected in
      TriggerRuns and Signals), and the receipts of internal/api/web.go.
    - CardWorkflow: internal/api/workflow_card.go, suggestion_accept.go.
    - Workflow: internal/api/workflow_action.go, attrs_set_done.go.
    - WorkSlot: the theorems on a card's single work slot.
    - Sweeps: internal/api/queue_sweep.go, queue.go.
    - Notify: internal/api/task_notify.go and task_wait.go.  The pager, the
      release verifier and fresh question ids are the class [NotifyEnv].
    - Recovery: internal/api/workflow_job.go, the job rows and stale marks of
      internal/dispatcher/store.go, and the steps of buildRuntime in
      internal/server/wire.go that recover.
    - Ask: internal/api/blocking_ask_registry.go, task_ask.go and AnswerTask.
      Channels are references; a call that blocks is part of the state.
    - DockerPolicy: internal/sandbox/dockerproxy: policy.go, and of ledger.go
      and server.go what decides and rewrites a request.
    - HostCommands: internal/sandbox/policy.go, shim_reject.go and the gate and
      secrets of broker.go.
    - Broker: internal/sandbox/broker.go and protocol.go, orchestrator/policy.go.
      The resolver of project references is the class [BrokerEnv].
    - Executor: internal/server/boid_executor.go with its two companions and
      the requests of internal/apiwire/task.go; an operation yields the service
      [call] it makes or the refusal.
    - TaskService: internal/api/task_create.go, task_service.go and
      workflow_replay.go, behavior_resolve.go, base_branch.go.  The
      configuration is the class [TaskServiceEnv]; [with_task_service] puts the
      service behind the interface the workflow is proved against.
    - GitGateway: internal/gitgateway: route.go, registry.go, credentials.go,
      push_observer.go, server.go.
    - ApiGateway: internal/apigateway: route.go, registry.go, discovery.go,
      baseurl.go, credentials.go, redirect.go, server.go; and the decisions of
      internal/sandbox/proxy.go.  net/url is the class [UrlEnv].
    - Auth, AuthRuns: internal/api/auth: store.go, pairing.go,
      session_store.go, bearer_verifier.go, the middlewares, ratelimit.go,
      registry.go; internal/api/device_auth.go, the login and management
      handlers of web.go, authenticateDevice of ws_attach.go.  Hashes, random
      values and net's addresses are the class [AuthEnv].
    - TriggerRuns: trigger_run.go, project_workspace.go, GCTriggerRuns of
      store.go.
    - SignalTime, Signals: signal_store.go, content_size.go and the wrappers of
      repository.go.  [time.Parse] is the class [TimeParser] with one law,
      which a strict RFC 3339 reader is proved to satisfy.
    - Triggers: trigger_validate.go, signal_trigger_derive.go, and
      [time.ParseDuration] of the Go library with its binary64 arithmetic.
    - CardLaunch: internal/api/card_command_launcher.go,
      card_request_auto_dispatch.go and the two loops over them,
      card_commands_validate.go.  Starting a container and the configuration
      are the class [LaunchEnv].
    - TriggerLoop: internal/api/trigger_loop.go, task_wait_registry.go.  The
      dispatcher and the workspace configuration are the class [TriggerEnv].

    ** What the theorems show

    - Ledger ([CardRequests], [CardDispatch]): along every run of the
      operations a card has at most one running request and nothing is folded
      under a request that is not running; a force release holds until a human
      acts; claiming, failing, finishing, attaching, reconciling and
      recovering do exactly what they promise to every row; redelivered events
      are no-ops.
    - Launching ([CardLaunch]): interleaved with automatic steps the launchers
      are runs of the ledger, and [with_dispatcher] puts them behind the
      interface the workflow's theorems are proved against; undisturbed, a
      human's command takes the slot or names who has it and the dispatcher
      starts exactly the oldest request; a failed launch gives the slot back.
    - Dispatch cycle ([Coordinator]): a cycle is all or nothing, its status is
      the one the last report since entering executing demands (a progress note
      in between makes the code forget it, which is a theorem too), its delta
      holds only what its hooks wrote, no exclusive trait is written twice,
      both dispatch modes agree, and for a well-formed task it always returns.
    - Workflow: the loop around the cycles ends by itself and keeps what others
      wrote while the hooks ran; rows keep their types; only a human moves a
      card; an action that does not transition cannot move a task however
      stale its snapshot.  Two theorems state what the code loses: the advance
      overwrites a status written since, and an abort restores the snapshot.
    - Cards: the blob implements the list of children (a refinement), children
      never go back, a card has a single work slot, a "go" hands a child out
      once, a due wake is recorded once.
    - Task rows: the tables stay consistent under creation, update, deletion
      and garbage collection; retried creations converge; deletion leaves no
      trace and touches nothing else (and does nothing by prefix); garbage
      collection takes exactly the ended tasks and what names them.  The foreign
      keys that restrict a delete are checked ([restricted]); that they never
      fail is part of what is proved.
    - Receipts ([OperationResults]): collecting card requests changes nothing a
      reader of receipts sees, and an outcome, once recorded, stays for thirty
      days.
    - Task service ([TaskService]): tasks take the slot of a card one at a time
      however creations and reruns interleave; the service discharges the
      interface of the workflow's theorems; base branches expand by their
      template; a task is read-only unless its behavior says otherwise; payload
      edits are per member.
    - Jobs and recovery ([Recovery]): a job ends once; after a crash interrupted
      tasks run again, unless a container of theirs may still run.  One theorem
      gives the task that is left behind: a card's child whose own request
      holds the slot.
    - Reports and questions ([Notify], [Ask]): a report is recorded once if it
      is within bounds and its claims hold, the last one decides how the task
      ends, waiting returns the first end; the registry stands for calls that
      block, and an answer to the question waited for reaches the agent now or
      at its next ask.  Two theorems state what happens to an answer for another
      question, and when a call that has re-attached is given up.
    - Docker proxy ([DockerPolicy]): if no member of its body is spelled twice,
      no container that reaches beyond the sandbox is forwarded and what is
      forwarded is what was checked; only the sandbox's own resources can be
      named in a path.  Two theorems give bodies that escape: one with two
      spellings of HostConfig, one with another spelling of NetworkingConfig.
    - Broker and executor: whatever a sandboxed process asks for, the one
      service call that results stays within what its token stands for (but for
      the parent of a new task and jobs without a project), and an operation on
      a task that passed the broker is carried out exactly when the task is of
      the workspace; host commands run exactly when their gate permits.  One
      theorem gives what is not confined: the log of a job without a project.
    - Gateways: what is forwarded is exactly what the token grants, with the
      credentials of the token's own namespace and no others; paths stay below
      their service, redirects and dialled addresses within the policy; a push
      is observed as it was sent (spaces of Unicode apart) and replayed
      unchanged; egress follows the allow list.
    - Authentication ([AuthRuns]): who passes over TCP, exactly; a code pairs one
      device, once and in time, and cannot be guessed faster than the limit; a
      revoked device is out and the connections registered for it are closed,
      none of them twice; a token works until its device is revoked; pages need a session
      and repeat their token; codes do not collide.  Two examples show a window
      that opens again and a connection that is not told to close.
    - Triggers ([TriggerRuns], [TriggerLoop]): single flight however ticks,
      manual runs and timeouts interleave, and an outcome recorded once; every
      run in flight is settled; a sweep decides about each trigger by its own
      history; a timeout ends the work before it frees the slot; failures are
      counted across ticks.
    - Signal inbox: no signal is lost before it is settled, the first
      acknowledgement stays, cursors never run
      backwards, redelivery is a no-op, claims take the oldest first, stored
      texts sort as the instants they stand for, and what happens when a
      timestamp leaves the years that can be read back.
    - Machines and lifecycle: the two lifecycles are closed, only the six verbs
      move a card, availability queries agree with [Apply], and the injected
      lifecycle block decides the automatic advance.
    - Payloads and tasks: merges are determined trait by trait, confined to
      what a handler declares, independent of map order and idempotent;
      concurrent sessions survive; parked answers round-trip; clones do not
      alias.

    A statement about what is let through (a route, a grant, a credential, a
    dangerous container, a resource of the sandbox) is made with predicates
    written for the purpose (among them [git_granted], [api_path],
    [redirect_target], [dangerous], [names_resource], [reachable], [admitted]),
    not with the functions that decide it in the code.

    ** Assumptions and bounds

    A SQL statement takes effect as a whole or fails on a constraint and
    changes nothing; other database errors are not modelled.  A transaction is
    one step: SQLite has one connection.  Between two transactions of a
    handler other requests may run; their effect is the function [others] of
    the class [WorkflowEnv], one per such point ([yield_]), and a theorem that
    depends on it asks only that they respect the relation it is about
    ([EnvRel]).  Services a handler calls through an interface (the task
    creator, the card dispatcher) are fields of the same class.  Where an
    ORDER BY leaves ties open the model picks one order, and the definition
    says so.  [time.Now] is a field of the database state that any step may
    change; one operation reads one value.  Identifiers from uuid.New are a
    parameter, and the theorems that need it ask that they are not empty, or
    that fresh ones differ.
    Integers that only count (attempts, exit codes, times) are unbounded.  JSON
    texts are kept as values with one bit for the white space the source's
    byte comparisons see.  The dispatch loop runs on the source's own bound of
    ten cycles, and is proved to need one; [ndigits] has fuel for the twenty
    digits of a year, which a Go time never exceeds.

    ** Not modelled, and why

    The executor's answers are texts printed for a person and are left out, as
    are the flows of OAuth2, which talk to an authorization server, and the parsing of flags in the shim, whose
    requests the broker's theorems take as arbitrary.  Process, network,
    file-system and HTML code (dispatcher and container backend, adapters, web
    UI, command line, server wiring) is I/O around these components and stays
    outside. *)

From Stdlib Require Export Ascii.
From stdpp Require Export base tactics gmap strings list sorting fin_maps.

(** ** Outcomes of a Go call

    A call returns a value, returns a (non-nil) error, or panics.  The error
    type is a parameter: each component lists its own sentinel errors. *)
Inductive outcome (E A : Type) : Type :=
| Ok (a : A)
| Err (e : E)
| Panic.
Arguments Ok {_ _} _.
Arguments Err {_ _} _.
Arguments Panic {_ _}.

#[export] Instance outcome_ret {E} : MRet (outcome E) := fun A a => Ok a.
#[export] Instance outcome_bind {E} : MBind (outcome E) := fun A B f m =>
  match m with Ok a => f a | Err e => Err e | Panic => Panic end.
#[export] Instance outcome_fmap {E} : FMap (outcome E) := fun A B f m =>
  match m with Ok a => Ok (f a) | Err e => Err e | Panic => Panic end.

Definition is_ok {E A} (m : outcome E A) : bool :=
  match m with Ok _ => true | _ => false end.

(** [mfold f a xs]: a Go [for ... range] loop whose body may return early
    with an error or panic. *)
Fixpoint mfold {E A B} (f : A → B → outcome E A) (a : A) (xs : list B) : outcome E A :=
  match xs with
  | [] => Ok a
  | x :: xs => a' ← f a x; mfold f a' xs
  end.

(** ** Go strings *)
Definition str_empty (s : string) : bool := bool_decide (s = "").

(** [strings.Split] at slashes. *)
Fixpoint split_slash (s : string) : list string :=
  match s with
  | EmptyString => [""]
  | String c s =>
      if bool_decide (c = "/"%char) then "" :: split_slash s
      else match split_slash s with
           | [] => [String c ""]
           | p :: ps => String c p :: ps
           end
  end.

Definition is_digit (c : ascii) : bool := let n := N_of_ascii c in (N.leb 48 n && N.leb n 57)%bool.

(** Concatenation of strings. *)
Lemma string_app_assoc (a b c : string) : (a +:+ b) +:+ c = a +:+ (b +:+ c).
Proof. induction a as [|x a IH]; simpl; [done|]. unfold String.app in *. simpl. by rewrite IH. Qed.
Lemma string_app_nil (a : string) : a +:+ "" = a.
Proof. induction a as [|x a IH]; simpl; [done|]. unfold String.app in *. simpl. by rewrite IH. Qed.

(** [strings.CutPrefix] *)
Fixpoint strip_prefix (pre s : string) : option string :=
  match pre, s with
  | EmptyString, _ => Some s
  | String a pre, String b s => if bool_decide (a = b) then strip_prefix pre s else None
  | String _ _, EmptyString => None
  end.
(** [strings.CutSuffix]: what stands before the suffix, if it is there. *)
Fixpoint cut_suffix (sfx s : string) : option string :=
  if bool_decide (s = sfx) then Some ""
  else match s with EmptyString => None | String c s => String c <$> cut_suffix sfx s end.
Definition TrimSuffix (s sfx : string) : string := default s (cut_suffix sfx s).
Definition HasSuffix (s sfx : string) : bool := bool_decide (is_Some (cut_suffix sfx s)).

Lemma string_length_app (a b : string) : String.length (a +:+ b) = (String.length a + String.length b)%nat.
Proof. induction a as [|x a IH]; [done|]. exact (f_equal S IH). Qed.
Lemma app_cancel (t : string) : ∀ p, p +:+ t = t → p = "".
Proof.
  intros p Hp. apply (f_equal String.length) in Hp. destruct p as [|c p]; [done|]. exfalso.
  rewrite string_length_app in Hp. cbn in Hp. lia.
Qed.
Lemma cut_suffix_spec sfx s p : cut_suffix sfx s = Some p ↔ s = p +:+ sfx.
Proof.
  revert p. induction s as [|c s IH]; intros p; cbn; case_bool_decide as He.
  - split; [by intros [= <-]|]. intros Hp. f_equal. symmetry. apply (app_cancel sfx). congruence.
  - split; [done|]. destruct p; [intros; by destruct He|done].
  - split; [by intros [= <-]|]. intros Hp. f_equal. symmetry. apply (app_cancel sfx). congruence.
  - rewrite fmap_Some. setoid_rewrite IH. split.
    + by intros (q & -> & ->).
    + destruct p as [|d p]; [by intros|]. cbn. intros [= <- Hs]. eauto.
Qed.
Lemma string_app_inj sfx p q : p +:+ sfx = q +:+ sfx → p = q.
Proof. intros H%cut_suffix_spec. rewrite (proj2 (cut_suffix_spec sfx (p +:+ sfx) p) eq_refl) in H. by injection H. Qed.
Lemma TrimSuffix_app p sfx : TrimSuffix (p +:+ sfx) sfx = p.
Proof. unfold TrimSuffix. by rewrite (proj2 (cut_suffix_spec sfx (p +:+ sfx) p) eq_refl). Qed.
Lemma HasSuffix_true s sfx : HasSuffix s sfx = true ↔ ∃ p, s = p +:+ sfx.
Proof. unfold HasSuffix. rewrite bool_decide_eq_true. unfold is_Some. by setoid_rewrite cut_suffix_spec. Qed.
Lemma TrimSuffix_none s sfx : HasSuffix s sfx = false → TrimSuffix s sfx = s.
Proof. unfold HasSuffix, TrimSuffix. rewrite bool_decide_eq_false. destruct (cut_suffix sfx s); [|done]. intros H. by destruct H. Qed.

(** A text without slashes is one part. *)
Fixpoint no_slash (s : string) : Prop := match s with EmptyString => True | String c s => c ≠ "/"%char ∧ no_slash s end.

Lemma split_slash_one a : no_slash a → split_slash a = [a].
Proof.
  induction a as [|c a IH]; [done|]. intros [Hc Ha]. cbn. rewrite bool_decide_false by done. by rewrite IH.
Qed.
Lemma split_slash_app a rest : no_slash a → split_slash (a +:+ "/" +:+ rest) = a :: split_slash rest.
Proof.
  induction a as [|c a IH]; [done|]. intros [Hc Ha]. change (String c a +:+ "/" +:+ rest) with (String c (a +:+ "/" +:+ rest)).
  cbn [split_slash]. rewrite bool_decide_false by done. by rewrite IH.
Qed.

Lemma split_slash_inv s a l : split_slash s = a :: l →
  no_slash a ∧ ((l = [] ∧ s = a) ∨ ∃ rest, s = a +:+ "/" +:+ rest ∧ split_slash rest = l).
Proof.
  revert a l. induction s as [|c s IH]; intros a l; cbn [split_slash]; [intros [= <- <-]; split; [done|]; by left|]. case_bool_decide as Hc.
  - intros [= <- <-]. subst c. split; [done|]. right. by exists s.
  - destruct (split_slash s) as [|p ps] eqn:Hs; intros [= <- <-]; [by destruct s as [|c' s]; cbn in Hs; repeat case_match|].
    destruct (IH p ps) as [Hp Hr]; [done|]. split; [done|]. destruct Hr as [[-> ->]|(rest & -> & Hr)]; [by left|]. right. by exists rest.
Qed.
Lemma split_slash_nil_iff s a : split_slash s = [a] ↔ no_slash a ∧ s = a.
Proof.
  split; [|by intros [H ->]; apply split_slash_one]. intros [Ha [[_ ->]|(rest & _ & Hr)]]%split_slash_inv; [done|].
  by destruct rest; cbn in Hr; repeat case_match.
Qed.
Lemma split_slash_cons_iff s a b l : split_slash s = a :: b :: l ↔ no_slash a ∧ ∃ rest, s = a +:+ "/" +:+ rest ∧ split_slash rest = b :: l.
Proof.
  split; [|intros (Ha & rest & -> & Hr); by rewrite split_slash_app, Hr].
  intros [Ha [[H _]|H]]%split_slash_inv; [done|]. by split.
Qed.

Lemma split_slash_inj s t : split_slash s = split_slash t → s = t.
Proof.
  revert t. induction s as [s IH] using (induction_ltof1 _ String.length). intros t Hs.
  destruct (split_slash s) as [|a l] eqn:Hl; [by destruct s; cbn in Hl; repeat case_match|]. symmetry in Hs.
  apply split_slash_inv in Hl as [_ Hl]. apply split_slash_inv in Hs as [_ Ht].
  destruct Hl as [[-> ->]|(r & -> & <-)], Ht as [[H ->]|(r' & -> & H)]; try done.
  - by destruct r'; cbn in H; repeat case_match.
  - by destruct r; cbn in H; repeat case_match.
  - rewrite (IH r) with (t := r'); [done| |done]. unfold ltof. rewrite !string_length_app. cbn. lia.
Qed.

(** [strings.HasSuffix] and [strings.TrimSuffix] for a one-byte suffix. *)
Fixpoint has_suffix_char (c : Ascii.ascii) (s : string) : bool :=
  match s with
  | EmptyString => false
  | String a EmptyString => bool_decide (a = c)
  | String _ s' => has_suffix_char c s'
  end.
Fixpoint trim_suffix_char (c : Ascii.ascii) (s : string) : string :=
  match s with
  | EmptyString => EmptyString
  | String a EmptyString => if bool_decide (a = c) then EmptyString else String a EmptyString
  | String a s' => String a (trim_suffix_char c s')
  end.

(** [strings.Cut s "."]: the part before the first dot, the part after it,
    and whether there was one. *)
Fixpoint cut_dot (s : string) : string * string * bool :=
  match s with
  | EmptyString => (EmptyString, EmptyString, false)
  | String a s' =>
      if bool_decide (a = "."%char) then (EmptyString, s', true)
      else let '(h, t, b) := cut_dot s' in (String a h, t, b)
  end.

(** ** Tactics and hints shared by the components *)
Create HintDb boid.
Create Rewrite HintDb boid_rw.

(** Split a conditional chain in hypothesis or goal and discard the branches
    a contradiction closes. *)
Ltac split_cases :=
  repeat (first [ progress simplify_eq/= | case_match ]); try done.

(** Invert a successful monadic computation. *)
Lemma bind_ok_inv {E A B} (m : outcome E A) (f : A → outcome E B) (b : B) :
  (a ← m; f a) = Ok b → ∃ a, m = Ok a ∧ f a = Ok b.
Proof. destruct m; simpl; intros H; eauto; discriminate H. Qed.

Lemma mfold_app {E A B} (f : A → B → outcome E A) a xs ys :
  mfold f a (xs ++ ys) = (a' ← mfold f a xs; mfold f a' ys).
Proof. revert a; induction xs as [|x xs IH]; intros a; simpl; [done|].
  destruct (f a x); simpl; auto. Qed.

(** An invariant of the loop body is an invariant of the loop. *)
Lemma mfold_inv {E A B} (P : A → Prop) (f : A → B → outcome E A) xs :
  (∀ a x a', x ∈ xs → P a → f a x = Ok a' → P a') →
  ∀ a a', P a → mfold f a xs = Ok a' → P a'.
Proof.
  induction xs as [|x xs IH]; intros Hf a a' HP H; simplify_eq/=; [done|].
  apply bind_ok_inv in H as (a1 & H1 & H2).
  eapply IH; [..|exact H2].
  - intros b y b' Hy. apply Hf. by right.
  - eapply Hf; [|exact HP|exact H1]. by left.
Qed.

(** A loop whose body never fails is a plain left fold. *)
Lemma mfold_total {E A B} (g : A → B → A) (f : A → B → outcome E A) xs :
  (∀ a x, x ∈ xs → f a x = Ok (g a x)) →
  ∀ a, mfold f a xs = Ok (foldl g a xs).
Proof.
  induction xs as [|x xs IH]; intros Hf a; simpl; [done|].
  rewrite Hf; [|by left]. simpl. apply IH. intros b y Hy. apply Hf. by right.
Qed.

(** ** Lists of key/value pairs and finite maps *)

(** A Go loop [for k, v := range m] whose body only reads and writes the
    entry of its own key: the resulting map has a pointwise description, so
    it does not depend on the order in which Go enumerates the map. *)
Lemma foldl_pointwise {A B} (step : gmap string A → string * B → gmap string A)
    (g : string → option A → B → option A) (xs : list (string * B)) :
  (∀ m k v j, step m (k, v) !! j = if decide (j = k) then g k (m !! k) v else m !! j) →
  NoDup xs.*1 →
  ∀ m j, foldl step m xs !! j =
    match (list_to_map xs : gmap string B) !! j with
    | Some v => g j (m !! j) v
    | None => m !! j
    end.
Proof.
  intros Hstep. induction xs as [|[k v] xs IH]; intros Hnd m j; simpl; [by rewrite lookup_empty|].
  apply NoDup_cons in Hnd as [Hk Hnd]. rewrite IH by done. rewrite !Hstep.
  destruct (decide (j = k)) as [->|Hne].
  - by rewrite lookup_insert_eq, not_elem_of_list_to_map_1.
  - by rewrite lookup_insert_ne by done.
Qed.

Lemma list_to_map_perm {A} (xs : list (string * A)) (m : gmap string A) :
  xs ≡ₚ map_to_list m → NoDup xs.*1 ∧ (list_to_map xs : gmap string A) = m.
Proof.
  intros H. assert (NoDup xs.*1) as Hnd by (rewrite H; apply NoDup_fst_map_to_list).
  split; [done|]. rewrite <- (list_to_map_to_list m). by apply list_to_map_proper.
Qed.

Lemma option_list_elem {A} (x : A) (o : option A) : x ∈ option_list o ↔ o = Some x.
Proof. destruct o; simpl; [rewrite list_elem_of_singleton|rewrite elem_of_nil]; naive_solver. Qed.
