(* ===== verification/Json.v ===== *)
(** * JSON values and the part of encoding/json the daemon relies on

    A [json.RawMessage] is modelled by [raw]: empty bytes, bytes that are not
    a JSON text, or a JSON text.  For a JSON text the value is kept, and one
    bit says whether the text is compact (no insignificant white space): the
    source compares raw bytes against the literals "{}", "[]" and "null", and
    a spaced text such as "{ }" fails those comparisons although it decodes
    to the same value.  White space elsewhere, the spelling of string escapes
    and of numbers are not represented.

    [json.Unmarshal] into [map[string]json.RawMessage] is [unmarshal_map]
    (JSON null gives the nil map, the last of several equal keys wins), into a
    struct of string fields [decode_field] (keys compared under the case
    folding of encoding/json, wrongly typed members skipped and reported), into
    nested structs, pointers and slices the [decoder] combinators, and
    [json.Marshal] of a map is [marshal_map] (keys in byte order). *)
From S2P Require Import Prelude.

Inductive json : Type :=
| JNull
| JBool (b : bool)
| JNum (text : string)
| JStr (s : string)
| JArr (items : list json)
| JObj (fields : list (string * json)).

Inductive raw : Type :=
| REmpty
| RBad (bytes : string)
| RText (compact : bool) (v : json).

(** A Go map value: [None] is the nil map. *)
Abbreviation gomap := (option (gmap string json)).

(** The raw bytes of a member value, cut out of a larger text. *)
Definition nested (v : json) : raw := RText true v.

(** ** Comparisons of raw bytes against literals *)
Definition len0 (r : raw) : bool := match r with REmpty => true | _ => false end.
Definition is_lit_null (r : raw) : bool :=
  match r with RText true JNull => true | _ => false end.
Definition is_lit_obj0 (r : raw) : bool :=
  match r with RText true (JObj []) => true | _ => false end.
Definition is_lit_arr0 (r : raw) : bool :=
  match r with RText true (JArr []) => true | _ => false end.
(** The guard [len(p) == 0 || string(p) == "{}" || string(p) == "null"]. *)
Definition blank (r : raw) : bool := len0 r || is_lit_obj0 r || is_lit_null r.

Definition json_is_null (v : json) : bool := match v with JNull => true | _ => false end.
Definition json_is_true (v : json) : bool := match v with JBool true => true | _ => false end.

Definition raw_obj0 : raw := RText true (JObj []).

(** ** Unmarshal into a map *)
Definition fields_map (fs : list (string * json)) : gmap string json :=
  list_to_map (reverse fs).

Definition value_map (v : json) : option gomap :=
  match v with
  | JObj fs => Some (Some (fields_map fs))
  | JNull => Some None
  | _ => None
  end.

(** [None] is the error; [Some None] the nil map. *)
Definition unmarshal_map (r : raw) : option gomap :=
  match r with RText _ v => value_map v | _ => None end.

Definition go_lookup (m : gomap) (k : string) : option json := m ≫= lookup k.

(** Assignment to an entry of a nil map panics. *)
Definition go_set {E} (m : gomap) (k : string) (v : json) : outcome E gomap :=
  match m with Some m => Ok (Some (<[k := v]> m)) | None => Panic end.

(** ** Marshal *)
Definition field_le (a b : string * json) : Prop := String.le a.1 b.1.
#[export] Instance field_le_dec : RelDecision field_le.
Proof. intros a b. unfold field_le. apply _. Defined.
#[export] Instance field_le_total : Total field_le.
Proof. intros a b. unfold field_le. apply (total String.le). Qed.
#[export] Instance field_le_trans : Transitive field_le.
Proof. intros a b c. unfold field_le. apply (transitivity (R := String.le)). Qed.

Definition sorted_fields (m : gmap string json) : list (string * json) :=
  merge_sort field_le (map_to_list m).

Definition obj_of_map (m : gmap string json) : json := JObj (sorted_fields m).
Definition marshal_map (m : gomap) : raw :=
  RText true (match m with Some m => obj_of_map m | None => JNull end).

(** ** Unmarshal into a struct of string fields *)
Definition upper (c : ascii) : ascii :=
  let n := N_of_ascii c in
  if (N.leb 97 n && N.leb n 122)%bool then ascii_of_N (n - 32) else c.

(** The case folding encoding/json applies to keys that are not an exact
    match; U+017F and U+212A are the two non-ASCII runes that fold to ASCII. *)
Fixpoint fold_name (s : string) : string :=
  match s with
  | EmptyString => EmptyString
  | String c s1 =>
      match N_of_ascii c, s1 with
      | 197%N, String c2 s2 =>
          if N.eqb (N_of_ascii c2) 191 then String "S" (fold_name s2)
          else String c (fold_name s1)
      | 226%N, String c2 (String c3 s3) =>
          if (N.eqb (N_of_ascii c2) 132 && N.eqb (N_of_ascii c3) 170)%bool
          then String "K" (fold_name s3)
          else String c (fold_name s1)
      | _, _ => String (upper c) (fold_name s1)
      end
  end.

Definition field_matches (name key : string) : bool :=
  bool_decide (fold_name key = fold_name name).

(** Value of a string field after decoding the members in order, and whether
    every matching member was a string or null. *)
Definition decode_field (name : string) (fs : list (string * json)) : string * bool :=
  foldl (λ '(cur, ok) '(k, v),
           if field_matches name k then
             match v with
             | JStr s => (s, ok)
             | JNull => (cur, ok)
             | _ => (cur, false)
             end
           else (cur, ok)) ("", true) fs.

(** Members of the value a struct is decoded from; [None] when the value is
    neither an object nor null, which is an error that leaves the struct zero. *)
Definition struct_fields (v : json) : option (list (string * json)) :=
  match v with JObj fs => Some fs | JNull => Some [] | _ => None end.

(** [json.Unmarshal] into [struct{...}] of the listed string fields: values
    (also on error) and whether there was no error. *)
Definition decode_struct (names : list string) (v : json) : list string * bool :=
  match struct_fields v with
  | None => ((λ _, "") <$> names, false)
  | Some fs =>
      let vs := (λ n, decode_field n fs) <$> names in
      (vs.*1, forallb (λ x, x.2) vs)
  end.

Definition raw_struct_fields (r : raw) : option (list (string * json)) :=
  match r with RText _ v => struct_fields v | _ => None end.

(** Members a struct writes with [omitempty] on a string field. *)
Definition omitempty (name s : string) : list (string * json) :=
  if str_empty s then [] else [(name, JStr s)].

(** ** Unmarshal into nested structs

    A decoder takes the value a Go variable holds to the value json.Unmarshal
    leaves there and whether it recorded no error (decoding goes on after a
    wrongly typed member, which stays as it was). *)
Definition decoder (A : Type) : Type := A → json → A * bool.

Definition dec_string : decoder string := λ cur v,
  match v with
  | JStr s => (s, true)
  | JNull => (cur, true)
  | _ => (cur, false)
  end.

Definition dec_member {A} (member : A → string → json → A * bool) (acc : A * bool) (kv : string * json)
    : A * bool :=
  let r := member acc.1 kv.1 kv.2 in (r.1, acc.2 && r.2).

(** [member] decodes one member of the object into the struct. *)
Definition dec_struct {A} (member : A → string → json → A * bool) : decoder A := λ cur v,
  match v with
  | JObj fs => foldl (dec_member member) (cur, true) fs
  | JNull => (cur, true)
  | _ => (cur, false)
  end.

(** A pointer is allocated before its target is decoded; null resets it. *)
Definition dec_ptr {A} (zero : A) (d : decoder A) : decoder (option A) := λ cur v,
  match v with
  | JNull => (None, true)
  | _ => let r := d (default zero cur) v in (Some r.1, r.2)
  end.

(** A slice variable: its backing array and its length.  An element is decoded
    into whatever the backing array already holds at its index. *)
Record gslice (A : Type) : Type := { backing : list A; slice_len : nat }.
Arguments backing {A} _.
Arguments slice_len {A} _.
Definition nil_slice {A} : gslice A := {| backing := []; slice_len := 0 |}.
Definition slice_elems {A} (s : gslice A) : list A := take (slice_len s) (backing s).

Definition dec_slice {A} (zero : A) (d : decoder A) : decoder (gslice A) := λ cur v,
  match v with
  | JArr [] | JNull => (nil_slice, true)
  | JArr items =>
      let ds := imap (λ i item, d (default zero (backing cur !! i)) item) items in
      ({| backing := ds.*1 ++ drop (length items) (backing cur); slice_len := length items |},
       forallb snd ds)
  | _ => (cur, false)
  end.

(** ** Lemmas *)
Lemma sorted_fields_perm m : sorted_fields m ≡ₚ map_to_list m.
Proof. apply merge_sort_Permutation. Qed.

Lemma fields_map_lookup_nodup fs : NoDup fs.*1 → fields_map fs = list_to_map fs.
Proof.
  intros H. apply list_to_map_proper.
  - by rewrite reverse_Permutation.
  - apply reverse_Permutation.
Qed.

(** Encoding a map and decoding it again gives the map back. *)
Lemma fields_map_sorted m : fields_map (sorted_fields m) = m.
Proof.
  rewrite fields_map_lookup_nodup.
  - rewrite <- (list_to_map_to_list m) at 2. apply list_to_map_proper.
    + rewrite sorted_fields_perm. apply NoDup_fst_map_to_list.
    + apply sorted_fields_perm.
  - rewrite sorted_fields_perm. apply NoDup_fst_map_to_list.
Qed.

Lemma value_map_obj_of_map m : value_map (obj_of_map m) = Some (Some m).
Proof. simpl. by rewrite fields_map_sorted. Qed.

Lemma unmarshal_marshal m : unmarshal_map (marshal_map m) = Some m.
Proof. destruct m as [m|]; simpl; [by rewrite fields_map_sorted|done]. Qed.

Lemma marshal_not_empty m : len0 (marshal_map m) = false.
Proof. done. Qed.

Lemma sorted_fields_nil m : sorted_fields m = [] ↔ m = ∅.
Proof.
  split; intros H.
  - apply map_to_list_empty_iff. apply Permutation_nil_r.
    by rewrite <- H, sorted_fields_perm.
  - subst. unfold sorted_fields. by rewrite map_to_list_empty.
Qed.

Lemma blank_unmarshal r m : unmarshal_map r = Some (Some m) → blank r = true → m = ∅.
Proof.
  destruct r as [| |[] v]; simpl; try done. destruct v as [| | | | |[]]; simpl; try done.
  intros [= <-] _. reflexivity.
Qed.

Lemma blank_marshal m : blank (marshal_map (Some m)) = true ↔ m = ∅.
Proof.
  unfold blank, marshal_map, obj_of_map. simpl. rewrite orb_false_r.
  rewrite <- sorted_fields_nil. by destruct (sorted_fields m).
Qed.

Lemma value_map_some v m : value_map v = Some (Some m) ↔ ∃ fs, v = JObj fs ∧ m = fields_map fs.
Proof. destruct v; simpl; split; intros H; try destruct H as (? & ? & ?); simplify_eq; eauto. Qed.

#[export] Hint Rewrite value_map_obj_of_map unmarshal_marshal fields_map_sorted : boid_rw.

Lemma sorted_elem m k v : (k, v) ∈ sorted_fields m ↔ m !! k = Some v.
Proof. rewrite sorted_fields_perm. apply elem_of_map_to_list. Qed.

Lemma sorted_nodup m : NoDup (sorted_fields m).
Proof. rewrite sorted_fields_perm. apply NoDup_map_to_list. Qed.

(** ** Names of fields *)

(** Letters in lower case, other than the two some non-ASCII rune folds to. *)
Definition plain_char (c : ascii) : Prop :=
  let n := N_of_ascii c in (97 ≤ n ≤ 122 ∧ n ≠ 107 ∧ n ≠ 115 ∨ n = 95)%N.

Lemma N_of_upper c :
  (97 ≤ N_of_ascii c ≤ 122 ∧ N_of_ascii (upper c) = N_of_ascii c - 32 ∨
   (N_of_ascii c < 97 ∨ 122 < N_of_ascii c) ∧ N_of_ascii (upper c) = N_of_ascii c)%N.
Proof.
  unfold upper. destruct ((97 <=? N_of_ascii c)%N && (N_of_ascii c <=? 122)%N) eqn:E.
  - apply andb_true_iff in E as [?%N.leb_le ?%N.leb_le]. left. split; [done|]. apply N_ascii_embedding. lia.
  - apply andb_false_iff in E as [?%N.leb_gt|?%N.leb_gt]; right; split; auto; lia.
Qed.
Lemma upper_plain c d : plain_char c → upper d = upper c → (N_of_ascii c ≤ N_of_ascii d)%N → d = c.
Proof.
  intros Hc Hu%(f_equal N_of_ascii) Hle. rewrite <- (ascii_N_embedding d), <- (ascii_N_embedding c). f_equal.
  unfold plain_char in Hc. destruct (N_of_upper c), (N_of_upper d); lia.
Qed.
Lemma fold_name_other c n :
  N_of_ascii c ≠ 197%N → N_of_ascii c ≠ 226%N → fold_name (String c n) = String (upper c) (fold_name n).
Proof.
  intros H1 H2. cbn [fold_name]. destruct (N_of_ascii c) as [|p]; [done|].
  do 8 (try destruct p as [p|p|]); done.
Qed.
Lemma fold_name_cases c n :
  fold_name (String c n) = String (upper c) (fold_name n) ∨
  ∃ d n', fold_name (String c n) = String d n' ∧ N_of_ascii d ∈ [83; 75; 197; 226]%N.
Proof.
  destruct (decide (N_of_ascii c = 197%N)) as [E|H1]; [|destruct (decide (N_of_ascii c = 226%N)) as [E|H2]; [|left; by apply fold_name_other]];
    cbn [fold_name]; rewrite E.
  - destruct n as [|c2 n]; [by left|]. right. cbn [fold_name].
    destruct (N.eqb (N_of_ascii c2) 191); do 2 eexists; (split; [done|]); [by left|]. rewrite E. apply list_elem_of_In; cbn; auto.
  - destruct n as [|c2 [|c3 n]]; [by left|by left|]. right.
    destruct (_ && _); do 2 eexists; (split; [done|]); [by right; left|]. rewrite E. apply list_elem_of_In; cbn; auto.
Qed.
Lemma plain_upper c : plain_char c → N_of_ascii (upper c) ∉ [83; 75; 197; 226]%N.
Proof. unfold plain_char. intros Hc. destruct (N_of_upper c); rewrite !not_elem_of_cons; split_and!; try lia; apply not_elem_of_nil. Qed.
(** The first character of a folded name. *)
Lemma fold_name_head c d n k :
  plain_char c → fold_name (String d k) = String (upper c) (fold_name n) → upper d = upper c ∧ fold_name k = fold_name n.
Proof.
  intros Hc%plain_upper Hk. destruct (fold_name_cases d k) as [E|(x & n' & E & Hx)]; rewrite E in Hk; injection Hk as Hd Hn; [done|].
  destruct Hc. by rewrite <- Hd.
Qed.
Fixpoint plain_name (n : string) : Prop := match n with EmptyString => True | String c n => plain_char c ∧ plain_name n end.
Lemma fold_plain c n : plain_char c → fold_name (String c n) = String (upper c) (fold_name n).
Proof. intros Hc. unfold plain_char in Hc. apply fold_name_other; lia. Qed.
(** Of the keys that name a field, the field's own name is the last in byte order. *)
Lemma plain_name_last n : ∀ k, plain_name n → field_matches n k = true → String.le n k → k = n.
Proof.
  induction n as [|c n IH]; intros k Hn Hm%bool_decide_eq_true Hle.
  - destruct k as [|d k]; [done|]. by destruct (fold_name_cases d k) as [E|(x & n' & E & _)]; rewrite E in Hm.
  - destruct Hn as [Hc Hn]. rewrite fold_plain in Hm by done. destruct k as [|d k]; [done|].
    apply fold_name_head in Hm as [Hu Hk]; [|done]. unfold String.le, String.leb in Hle. cbn in Hle. unfold Ascii.compare in Hle.
    destruct (N.compare_spec (N_of_ascii c) (N_of_ascii d)) as [E|E|E]; [| |done].
    + rewrite (upper_plain c d) by (done || lia). f_equal. apply IH; [done|by apply bool_decide_eq_true|done].
    + rewrite (upper_plain c d) in E by (done || lia). lia.
Qed.
