(* ===== verification/Payload.v ===== *)
(** * Task payloads: traits, patches and merges

    Models internal/orchestrator/conditions.go, spec_payload.go,
    awaiting_payload.go and the payload half of payload_merge.go.  A payload
    is a JSON object whose top-level members are traits.  The Go code reads
    it with [json.Unmarshal] into [map[string]json.RawMessage]; loops over
    such a map are folds over its entries, and the theorems show the result
    does not depend on the enumeration order. *)
From S2P Require Import Prelude Json.

Inductive payload_err : Type :=
| ErrUnmarshalPayload
| ErrUnmarshalBase
| ErrUnmarshalPatch
| ErrUnmarshalUpdate
| ErrTraitNotInProduces (key : string)
| ErrReservedChildren
| ErrPayloadInstructions.

(** ** Dotted trait paths (conditions.go) *)
Fixpoint split_dots (s : string) : list string :=
  match s with
  | EmptyString => [EmptyString]
  | String a s' =>
      if bool_decide (a = "."%char) then EmptyString :: split_dots s'
      else match split_dots s' with
           | h :: t => String a h :: t
           | [] => [String a EmptyString]
           end
  end.

Fixpoint TraitBool_at (payload : raw) (path : list string) : bool :=
  match path with
  | [] => false
  | head :: tail =>
      match unmarshal_map payload with
      | None => false
      | Some m =>
          match go_lookup m head with
          | None => false
          | Some v =>
              match tail with
              | [] => json_is_true v
              | _ => TraitBool_at (nested v) tail
              end
          end
      end
  end.
Definition TraitBool (payload : raw) (trait : string) : bool :=
  TraitBool_at payload (split_dots trait).

Fixpoint TraitExists_at (payload : raw) (path : list string) : bool :=
  match path with
  | [] => false
  | head :: tail =>
      match unmarshal_map payload with
      | None => false
      | Some m =>
          match go_lookup m head with
          | None => false
          | Some v =>
              if json_is_null v then false
              else match tail with
                   | [] => true
                   | _ => TraitExists_at (nested v) tail
                   end
          end
      end
  end.
Definition TraitExists (payload : raw) (trait : string) : bool :=
  TraitExists_at payload (split_dots trait).

(** [json.Unmarshal] into a Go string: a string, or null (which leaves ""). *)
Definition unmarshal_string (v : json) : option string :=
  match v with JStr s => Some s | JNull => Some "" | _ => None end.

(** The pair [(s, ok)] of the source as an option. *)
Fixpoint TraitGetString_at (payload : raw) (path : list string) : option string :=
  match path with
  | [] => None
  | head :: tail =>
      match unmarshal_map payload with
      | None => None
      | Some m =>
          match go_lookup m head with
          | None => None
          | Some v =>
              match tail with
              | [] => unmarshal_string v
              | _ => TraitGetString_at (nested v) tail
              end
          end
      end
  end.
Definition TraitGetString (payload : raw) (trait : string) : option string :=
  TraitGetString_at payload (split_dots trait).

(** ** Trait types and merge modes (spec_types.go, spec_payload.go) *)
Definition TraitArtifact : string := "artifact".
Definition TraitVerification : string := "verification".
Definition TraitAwaiting : string := "awaiting".

Definition IsOptional (t : string) : bool := has_suffix_char "?" t.
Definition Base (t : string) : string := trim_suffix_char "?" t.

Inductive MergeMode : Type := MergeModeExclusive | MergeModeShared.

Definition TraitMergeMode (trait : string) : MergeMode :=
  if bool_decide (trait = TraitVerification) then MergeModeShared else MergeModeExclusive.

(** The traits present (non-null) in a payload; [None] is the error. *)
Definition ActiveTraitTypes (r : raw) : option (list string) :=
  if blank r then Some []
  else match unmarshal_map r with
       | None => None
       | Some m => Some (omap (λ '(k, v), if json_is_null v then None else Some k)
                              (map_to_list (default ∅ m)))
       end.

Definition ValidatePayloadPatch (patch : raw) (allowedTraits : list string)
    : outcome payload_err unit :=
  if blank patch then Ok ()
  else match unmarshal_map patch with
       | None => Err ErrUnmarshalPatch
       | Some m =>
           mfold (λ _ '(key, _), if bool_decide (key ∈ allowedTraits) then Ok ()
                                 else Err (ErrTraitNotInProduces key))
                 () (map_to_list (default ∅ m))
       end.

Definition RejectReservedPayloadKeys (payload : raw) : outcome payload_err unit :=
  if blank payload then Ok ()
  else match unmarshal_map payload with
       | None => Ok ()
       | Some m =>
           match go_lookup m "artifact" with
           | None => Ok ()
           | Some artifactRaw =>
               match value_map artifactRaw with
               | None => Ok ()
               | Some artifact =>
                   match go_lookup artifact "children" with
                   | Some _ => Err ErrReservedChildren
                   | None => Ok ()
                   end
               end
           end
       end.

Definition RejectPayloadInstructions (payload : raw) : outcome payload_err unit :=
  if blank payload then Ok ()
  else match unmarshal_map payload with
       | None => Ok ()
       | Some m => match go_lookup m "instructions" with
                   | Some _ => Err ErrPayloadInstructions
                   | None => Ok ()
                   end
       end.

(** ** Merging two member values *)
Definition mergeObjectsShallow (base patch : json) : option json :=
  match value_map base, value_map patch with
  | Some (Some baseObj), Some (Some patchObj) => Some (obj_of_map (patchObj ∪ baseObj))
  | _, _ => None
  end.

(** [mergeClaudeSessions] *)
Abbreviation sessionKey := (string * string)%type.

Definition session_keyOf (item : json) : option sessionKey :=
  match decode_struct ["type"; "name"] item with
  | ([ty; nm], true) => Some (ty, nm)
  | _ => None
  end.

Definition session_items (v : json) : option (list json) :=
  match v with JArr items => Some items | JNull => Some [] | _ => None end.

(** The [order] slice and the [byKey] map after one of the two loops. *)
Definition session_add (acc : list sessionKey * gmap sessionKey json) (item : json)
    : option (list sessionKey * gmap sessionKey json) :=
  match session_keyOf item with
  | None => None
  | Some k =>
      let '(order, byKey) := acc in
      let order' := match byKey !! k with Some _ => order | None => order ++ [k] end in
      Some (order', <[k := item]> byKey)
  end.

Fixpoint session_loop (acc : list sessionKey * gmap sessionKey json) (items : list json)
    : option (list sessionKey * gmap sessionKey json) :=
  match items with
  | [] => Some acc
  | item :: items => acc' ← session_add acc item; session_loop acc' items
  end.

Definition mergeClaudeSessions (existing patch : option json) : option json :=
  match existing, patch with
  | Some existing, Some patch =>
      existingItems ← session_items existing;
      patchItems ← session_items patch;
      acc1 ← session_loop ([], ∅) existingItems;
      acc2 ← session_loop acc1 patchItems;
      Some (JArr (omap (λ k, acc2.2 !! k) acc2.1))
  | _, _ => None
  end.

Definition mergeClaudeCodeArtifact (existing patch : option json) : option json :=
  match existing, patch with
  | Some existing, Some patch =>
      match value_map existing, value_map patch with
      | Some (Some existingObj), Some (Some patchObj) =>
          let patchObj :=
            match mergeClaudeSessions (existingObj !! "sessions") (patchObj !! "sessions") with
            | Some mergedSessions => <["sessions" := mergedSessions]> patchObj
            | None => patchObj
            end in
          Some (obj_of_map (patchObj ∪ existingObj))
      | _, _ => None
      end
  | _, _ => None
  end.

Definition mergeArtifactPatch (existing patch : json) : option json :=
  match value_map existing, value_map patch with
  | Some (Some existingObj), Some (Some patchObj) =>
      let patchObj :=
        match mergeClaudeCodeArtifact (existingObj !! "claude_code") (patchObj !! "claude_code") with
        | Some mergedCC => <["claude_code" := mergedCC]> patchObj
        | None => patchObj
        end in
      Some (obj_of_map (patchObj ∪ existingObj))
  | _, _ => None
  end.

(** ** MergePayloadPatch *)

(** The value one patch entry leaves in [baseMap], given the entry it finds
    there; [None] when the trait is not in [produces] and the entry is dropped. *)
Definition patch_value (handlerID : string) (allowed : option (list string))
    (key : string) (existing : option json) (value : json) : option json :=
  if match allowed with Some l => negb (bool_decide (key ∈ l)) | None => false end
  then None
  else Some match TraitMergeMode key with
  | MergeModeShared =>
      let shared : gmap string json :=
        match existing with
        | Some e =>
            if json_is_null e then ∅
            else match value_map e with Some (Some m) => m | _ => ∅ end
        | None => ∅
        end in
      obj_of_map (<[handlerID := value]> shared)
  | MergeModeExclusive =>
      match existing with
      | Some e =>
          let shallow := match mergeObjectsShallow e value with
                         | Some merged => merged
                         | None => value
                         end in
          if bool_decide (key = TraitArtifact) then
            match mergeArtifactPatch e value with
            | Some merged => merged
            | None => shallow
            end
          else shallow
      | None => value
      end
  end.

Definition patch_entry (handlerID : string) (allowed : option (list string))
    (baseMap : gomap) (kv : string * json) : outcome payload_err gomap :=
  let '(key, value) := kv in
  match patch_value handlerID allowed key (go_lookup baseMap key) value with
  | None => Ok baseMap
  | Some v => go_set baseMap key v
  end.

Definition MergePayloadPatch (base patch : raw) (handlerID : string)
    (allowedTraits : option (list string)) : outcome payload_err raw :=
  if blank patch then Ok (if len0 base then raw_obj0 else base)
  else
    _ ← RejectReservedPayloadKeys patch;
    baseMap ← (if blank base then Ok (Some ∅)
               else match unmarshal_map base with
                    | None => Err ErrUnmarshalBase
                    | Some m => Ok m
                    end);
    patchMap ← match unmarshal_map patch with
               | None => Err ErrUnmarshalPatch
               | Some m => Ok m
               end;
    baseMap ← mfold (patch_entry handlerID allowedTraits) baseMap
                    (map_to_list (default ∅ patchMap));
    Ok (marshal_map baseMap).

Definition FilterPayloadByTraits (payload : raw) (consumes : list string) : raw :=
  if bool_decide (consumes = []) then raw_obj0
  else if blank payload then raw_obj0
  else match unmarshal_map payload with
       | None => raw_obj0
       | Some m =>
           let allowed := Base <$> consumes in
           marshal_map (Some (filter (λ '(key, _), key ∈ allowed) (default ∅ m)))
       end.

(** ** MergePayload *)
Definition merge_value (existing : option json) (value : json) : option json :=
  if json_is_null value then None
  else Some match existing with
            | Some e => match mergeObjectsShallow e value with
                        | Some merged => merged
                        | None => value
                        end
            | None => value
            end.

Definition merge_entry (baseMap : gomap) (kv : string * json) : outcome payload_err gomap :=
  let '(key, value) := kv in
  match merge_value (go_lookup baseMap key) value with
  | None => Ok baseMap
  | Some v => go_set baseMap key v
  end.

Definition MergePayload (base update : raw) : outcome payload_err raw :=
  if blank update then Ok (if len0 base then raw_obj0 else base)
  else if blank base then Ok update
  else
    baseMap ← match unmarshal_map base with
              | None => Err ErrUnmarshalBase
              | Some m => Ok m
              end;
    updateMap ← match unmarshal_map update with
                | None => Err ErrUnmarshalUpdate
                | Some m => Ok m
                end;
    baseMap ← mfold merge_entry baseMap (map_to_list (default ∅ updateMap));
    Ok (marshal_map baseMap).

(** ** The awaiting trait (awaiting_payload.go) *)
Record AwaitingPayload : Type := {
  Question : string;
  QuestionID : string;
  PendingAnswer : string;
  PendingAnswerActor : string;
}.

Definition zero_awaiting : AwaitingPayload :=
  {| Question := ""; QuestionID := ""; PendingAnswer := ""; PendingAnswerActor := "" |}.

(** [json.Unmarshal(raw, &ap)]: the struct (also when it reports an error)
    and whether there was no error. *)
Definition unmarshal_awaiting (v : json) : AwaitingPayload * bool :=
  match decode_struct ["question"; "question_id"; "pending_answer"; "pending_answer_actor"] v with
  | ([q; qid; pa; paa], ok) =>
      ({| Question := q; QuestionID := qid; PendingAnswer := pa; PendingAnswerActor := paa |}, ok)
  | (_, ok) => (zero_awaiting, ok)
  end.

Definition marshal_awaiting (ap : AwaitingPayload) : json :=
  JObj (omitempty "question" (Question ap) ++ omitempty "question_id" (QuestionID ap)
        ++ omitempty "pending_answer" (PendingAnswer ap)
        ++ omitempty "pending_answer_actor" (PendingAnswerActor ap)).

Definition GetAwaitingPayload (payload : raw) : AwaitingPayload :=
  match unmarshal_map payload with
  | None => zero_awaiting
  | Some top =>
      match go_lookup top TraitAwaiting with
      | None => zero_awaiting
      | Some v => if json_is_null v then zero_awaiting else (unmarshal_awaiting v).1
      end
  end.

Definition ClearPendingAnswer (payload : raw) : raw :=
  match unmarshal_map payload with
  | None => payload
  | Some top =>
      match go_lookup top TraitAwaiting with
      | None => payload
      | Some v =>
          if json_is_null v then payload
          else let '(ap, ok) := unmarshal_awaiting v in
               if negb ok then payload
               else if str_empty (PendingAnswer ap) then payload
               else marshal_map (Some (<[TraitAwaiting := marshal_awaiting
                      {| Question := Question ap; QuestionID := QuestionID ap;
                         PendingAnswer := ""; PendingAnswerActor := "" |}]> (default ∅ top)))
      end
  end.

(** Panics on the payload text "null": decoding it sets [top] to the nil map,
    and the assignment below the decode then panics. *)
Definition SetPendingAnswer (payload : raw) (answer actor : string) : outcome payload_err raw :=
  match (if len0 payload then Some (Some ∅) else unmarshal_map payload) with
  | None => Ok payload
  | Some top =>
      let ap := match go_lookup top TraitAwaiting with
                | Some v => if json_is_null v then zero_awaiting else (unmarshal_awaiting v).1
                | None => zero_awaiting
                end in
      let ap := {| Question := Question ap; QuestionID := QuestionID ap;
                   PendingAnswer := answer; PendingAnswerActor := actor |} in
      top ← go_set top TraitAwaiting (marshal_awaiting ap);
      Ok (marshal_map top)
  end.

Definition StripAwaitingTrait (payload : raw) : raw :=
  match unmarshal_map payload with
  | None => payload
  | Some top =>
      match go_lookup top TraitAwaiting with
      | None => payload
      | Some _ => marshal_map (delete TraitAwaiting <$> top)
      end
  end.

(** ** The recursion of the source on dotted paths *)
Lemma split_dots_cut s :
  split_dots s = let '(head, tail, nested) := cut_dot s in
                 if nested then head :: split_dots tail else [head].
Proof.
  induction s as [|a s IH]; simpl; [done|].
  case_bool_decide; [done|]. rewrite IH. destruct (cut_dot s) as [[h t] []]; done.
Qed.

Lemma split_dots_nonempty s : ∃ h t, split_dots s = h :: t.
Proof. rewrite split_dots_cut. destruct (cut_dot s) as [[h t] []]; eauto. Qed.

(** [TraitBool] and [TraitExists] satisfy the equations of the source, which
    recurse on the text after the first dot. *)
Lemma TraitBool_unfold payload trait :
  TraitBool payload trait =
    let '(head, tail, isnested) := cut_dot trait in
    match unmarshal_map payload with
    | None => false
    | Some m =>
        match go_lookup m head with
        | None => false
        | Some v => if isnested then TraitBool (nested v) tail else json_is_true v
        end
    end.
Proof.
  unfold TraitBool. rewrite split_dots_cut. destruct (cut_dot trait) as [[h t] []]; simpl; [|done].
  destruct (unmarshal_map payload) as [m|]; [|done].
  destruct (go_lookup m h) as [v|]; [|done].
  destruct (split_dots_nonempty t) as (h' & t' & ->). done.
Qed.

Lemma TraitExists_unfold payload trait :
  TraitExists payload trait =
    let '(head, tail, isnested) := cut_dot trait in
    match unmarshal_map payload with
    | None => false
    | Some m =>
        match go_lookup m head with
        | None => false
        | Some v => if json_is_null v then false
                    else if isnested then TraitExists (nested v) tail else true
        end
    end.
Proof.
  unfold TraitExists. rewrite split_dots_cut. destruct (cut_dot trait) as [[h t] []]; simpl; [|done].
  destruct (unmarshal_map payload) as [m|]; [|done].
  destruct (go_lookup m h) as [v|]; [|done]. destruct (json_is_null v); [done|].
  destruct (split_dots_nonempty t) as (h' & t' & ->). done.
Qed.

(** A path read through [TraitExists] is monotone: if a nested member exists,
    so does every prefix of its path. *)
Lemma TraitExists_at_prefix payload path k :
  path ≠ [] → TraitExists_at payload (path ++ [k]) = true → TraitExists_at payload path = true.
Proof.
  revert payload. induction path as [|h path IH]; intros payload Hne; [done|].
  simpl. destruct (unmarshal_map payload) as [m|]; [|done].
  destruct (go_lookup m h) as [v|]; [|done]. destruct (json_is_null v); [done|].
  destruct path as [|h2 path]; [done|]. by apply IH.
Qed.

(** ** Loops over decoded maps *)
Definition set_entry (g : string → option json → json → option json)
    (m : gmap string json) (kv : string * json) : gmap string json :=
  match g kv.1 (m !! kv.1) kv.2 with Some v => <[kv.1 := v]> m | None => m end.

Lemma set_entry_lookup g m k v j :
  set_entry g m (k, v) !! j =
    if decide (j = k) then (match g k (m !! k) v with Some x => Some x | None => m !! k end)
    else m !! j.
Proof.
  unfold set_entry; simpl. destruct (g k (m !! k) v).
  - destruct (decide (j = k)) as [->|]; [by rewrite lookup_insert_eq|by rewrite lookup_insert_ne].
  - by destruct (decide (j = k)) as [->|].
Qed.

Lemma patch_loop_total hid al xs m :
  mfold (patch_entry hid al) (Some m) xs = Ok (Some (foldl (set_entry (patch_value hid al)) m xs)).
Proof.
  revert m; induction xs as [|[k v] xs IH]; intros m; simpl; [done|].
  unfold set_entry at 2; simpl. destruct (patch_value hid al k (m !! k) v); simpl; apply IH.
Qed.

Lemma merge_loop_total xs m :
  mfold merge_entry (Some m) xs = Ok (Some (foldl (set_entry (λ _, merge_value)) m xs)).
Proof.
  revert m; induction xs as [|[k v] xs IH]; intros m; simpl; [done|].
  unfold set_entry at 2; simpl. destruct (merge_value (m !! k) v); simpl; apply IH.
Qed.

(** The map a merge loop leaves, entry by entry, for any order [xs] in which
    Go enumerates the map [p]. *)
Lemma set_entry_loop_lookup g xs (p m : gmap string json) j :
  xs ≡ₚ map_to_list p →
  foldl (set_entry g) m xs !! j =
    match p !! j with
    | Some v => match g j (m !! j) v with Some x => Some x | None => m !! j end
    | None => m !! j
    end.
Proof.
  intros [Hnd Hp]%list_to_map_perm.
  rewrite (foldl_pointwise _ (λ k o v, match g k o v with Some x => Some x | None => o end));
    [by rewrite Hp|intros; apply set_entry_lookup|done].
Qed.

Lemma set_entry_loop_order g xs ys (p m : gmap string json) :
  xs ≡ₚ map_to_list p → ys ≡ₚ map_to_list p →
  foldl (set_entry g) m xs = foldl (set_entry g) m ys.
Proof. intros Hx Hy. apply map_eq. intros j. by rewrite !set_entry_loop_lookup with (p := p). Qed.

(** Decoding what a value merge produced. *)
Lemma mergeObjectsShallow_lookup b p v :
  mergeObjectsShallow b p = Some v →
  ∃ bm pm, value_map b = Some (Some bm) ∧ value_map p = Some (Some pm) ∧
           value_map v = Some (Some (pm ∪ bm)).
Proof.
  unfold mergeObjectsShallow. intros H. split_cases. eexists _, _. split_and!; [done..|].
  by rewrite fields_map_sorted.
Qed.

(** ** Theorems on MergePayload *)

(** The entry [MergePayload] leaves under a key: an absent or null update
    entry keeps the base entry, two objects are merged one level deep with the
    update's sub-keys winning, anything else is replaced. *)
Definition merged_entry (b u : option json) : option json :=
  match u with
  | None => b
  | Some u =>
      if json_is_null u then b
      else match b with
           | Some b => match value_map b, value_map u with
                       | Some (Some bm), Some (Some um) => Some (obj_of_map (um ∪ bm))
                       | _, _ => Some u
                       end
           | None => Some u
           end
  end.

Lemma merge_value_entry b u :
  match merge_value b u with Some x => Some x | None => b end = merged_entry b (Some u).
Proof.
  unfold merge_value, merged_entry, mergeObjectsShallow. destruct (json_is_null u); [done|].
  destruct b as [b|]; [|done]. destruct (value_map b) as [[]|], (value_map u) as [[]|]; done.
Qed.

Lemma MergePayload_objects base update bm um :
  unmarshal_map base = Some (Some bm) → unmarshal_map update = Some (Some um) →
  blank update = false → blank base = false →
  MergePayload base update =
    Ok (marshal_map (Some (foldl (set_entry (λ _, merge_value)) bm (map_to_list um)))).
Proof.
  intros Hb Hu Hbu Hbb. unfold MergePayload. rewrite Hbu, Hbb, Hb, Hu. simpl.
  by rewrite merge_loop_total.
Qed.

(** The traits a payload holds; the empty text, "null" and "{}" all mean an
    empty payload.  [None]: the text does not decode to an object. *)
Definition decoded (r : raw) : option (gmap string json) :=
  if blank r then Some ∅
  else match unmarshal_map r with Some (Some m) => Some m | _ => None end.

Lemma decoded_marshal m : decoded (marshal_map (Some m)) = Some m.
Proof.
  unfold decoded. destruct (blank (marshal_map (Some m))) eqn:E.
  - by apply blank_marshal in E as ->.
  - by rewrite unmarshal_marshal.
Qed.

Lemma decoded_blank r m : decoded r = Some m → blank r = true → m = ∅.
Proof. unfold decoded. intros H Hb. rewrite Hb in H. by simplify_eq. Qed.

Lemma decoded_unmarshal r m :
  decoded r = Some m → blank r = false → unmarshal_map r = Some (Some m).
Proof. unfold decoded. intros H Hb. rewrite Hb in H. split_cases. Qed.

Lemma decoded_len0_default r m :
  decoded r = Some m → decoded (if len0 r then raw_obj0 else r) = Some m.
Proof. destruct r; simpl; done. Qed.

Lemma MergePayload_spec base update bm um :
  decoded base = Some bm → decoded update = Some um →
  ∃ r rm, MergePayload base update = Ok r ∧ decoded r = Some rm ∧
    ∀ k, rm !! k = if blank base then um !! k else merged_entry (bm !! k) (um !! k).
Proof.
  intros Hb Hu. destruct (blank update) eqn:Eu.
  { apply decoded_blank in Hu as ->; [|done].
    exists (if len0 base then raw_obj0 else base), bm. unfold MergePayload. rewrite Eu.
    split_and!; [done|by apply decoded_len0_default|].
    intros k. rewrite lookup_empty. destruct (blank base) eqn:Eb; [|done].
    by apply decoded_blank in Hb as ->. }
  destruct (blank base) eqn:Eb.
  { exists update, um. unfold MergePayload. by rewrite Eu, Eb. }
  erewrite MergePayload_objects by eauto using decoded_unmarshal.
  eexists _, _. split_and!; [done|apply decoded_marshal|].
  intros k. rewrite set_entry_loop_lookup with (p := um) by done.
  destruct (um !! k) as [u|]; [apply merge_value_entry|done].
Qed.

(** On payloads that hold objects, [MergePayload] succeeds and its result
    is determined trait by trait: onto an empty base it is the update itself;
    otherwise an absent or null update trait keeps the base's, two object
    traits are merged one level deep with the update winning on equal
    sub-keys, and any other update trait replaces the base's.  In particular
    no base trait is ever deleted. *)
Theorem MergePayload_traitwise base update bm um :
  decoded base = Some bm → decoded update = Some um →
  ∃ r rm, MergePayload base update = Ok r ∧ decoded r = Some rm ∧
    ∀ k, rm !! k = if blank base then um !! k else merged_entry (bm !! k) (um !! k).
Proof. apply MergePayload_spec. Qed.

(** A base with one trait and an update that adds another. *)
Definition sample_base : raw := RText true (JObj [("artifact", JObj [("url", JStr "u")]); ("note", JStr "n")]).
Definition sample_update : raw := RText true (JObj [("artifact", JObj [("title", JStr "t")]); ("note", JNull)]).

Lemma MergePayload_traitwise_witness :
  ∃ r rm, MergePayload sample_base sample_update = Ok r ∧ decoded r = Some rm ∧
    rm !! "note" = Some (JStr "n").
Proof.
  destruct (MergePayload_traitwise sample_base sample_update _ _ eq_refl eq_refl) as (r & rm & Hr & Hd & Hk).
  exists r, rm. split; [exact Hr|]. split; [exact Hd|]. rewrite (Hk "note"). vm_compute. reflexivity.
Defined.

(** The result of [MergePayload] does not depend on the order in which Go
    enumerates the update's entries: the merge loop leaves the same map for
    every enumeration. *)
Theorem MergePayload_order_independent (bm um : gmap string json) xs ys :
  xs ≡ₚ map_to_list um → ys ≡ₚ map_to_list um →
  mfold merge_entry (Some bm) xs = mfold merge_entry (Some bm) ys.
Proof. intros Hx Hy. rewrite !merge_loop_total. do 2 f_equal. by apply set_entry_loop_order with um. Qed.

Lemma MergePayload_order_independent_witness :
  mfold merge_entry (Some ∅) [("a", JStr "1"); ("b", JStr "2")] =
  mfold merge_entry (Some ∅) [("b", JStr "2"); ("a", JStr "1")].
Proof.
  apply (MergePayload_order_independent ∅ (list_to_map [("a", JStr "1"); ("b", JStr "2")])).
  - symmetry. apply map_to_list_to_map. apply (bool_decide_unpack _). vm_compute. exact I.
  - rewrite Permutation_swap. symmetry. apply map_to_list_to_map. apply (bool_decide_unpack _). vm_compute. exact I.
Defined.

(** Two values that a reader of the payload cannot tell apart: equal, or
    objects with the same members. *)
Definition entry_equiv (x y : json) : Prop :=
  match value_map x, value_map y with
  | Some a, Some b => a = b
  | None, None => x = y
  | _, _ => False
  end.

#[export] Instance entry_equiv_equivalence : Equivalence entry_equiv.
Proof.
  unfold entry_equiv. split.
  - intros x. by destruct (value_map x).
  - intros x y. by destruct (value_map x), (value_map y).
  - intros x y z. destruct (value_map x), (value_map y), (value_map z); naive_solver.
Qed.

Lemma entry_equiv_object x y m :
  value_map x = Some (Some m) → value_map y = Some (Some m) → entry_equiv x y.
Proof. intros Hx Hy. unfold entry_equiv. by rewrite Hx, Hy. Qed.

Lemma merged_entry_objects b u bm um :
  value_map b = Some (Some bm) → value_map u = Some (Some um) →
  merged_entry (Some b) (Some u) = Some (obj_of_map (um ∪ bm)).
Proof. intros Hb Hu. unfold merged_entry. rewrite Hb, Hu. by destruct u. Qed.

(** Otherwise the update replaces the entry, or is null and leaves it. *)
Lemma merged_entry_other b u :
  (∀ bm um b', b = Some b' → value_map b' = Some (Some bm) → value_map u ≠ Some (Some um)) →
  merged_entry b (Some u) = if json_is_null u then b else Some u.
Proof.
  intros H. unfold merged_entry. destruct (json_is_null u); [done|].
  destruct b as [b|]; [|done]. destruct (value_map b) as [[bm|]|] eqn:Hb; [|done..].
  destruct (value_map u) as [[um|]|] eqn:Hu; [|done..]. by destruct (H bm um b).
Qed.

Lemma merged_entry_idem b u :
  option_Forall2 entry_equiv (merged_entry (merged_entry b u) u) (merged_entry b u).
Proof.
  assert (∀ o, option_Forall2 entry_equiv o o) as Hrefl
    by (intros o; destruct o; constructor; reflexivity).
  destruct u as [u|]; [|apply Hrefl].
  destruct (value_map u) as [[um|]|] eqn:Hu.
  2-3: rewrite !merged_entry_other by (intros; congruence); destruct (json_is_null u); apply Hrefl.
  assert (json_is_null u = false) as Hn by by destruct u.
  destruct b as [b|]; [destruct (value_map b) as [[bm|]|] eqn:Hb|].
  1: erewrite (merged_entry_objects b) by done;
     erewrite merged_entry_objects by (apply value_map_obj_of_map || done);
     rewrite map_union_assoc, map_union_idemp; apply Hrefl.
  all: match goal with |- context [merged_entry (merged_entry ?o _) _] =>
       rewrite (merged_entry_other o u) by (intros; congruence) end; rewrite Hn;
     erewrite merged_entry_objects by done; constructor; apply entry_equiv_object with um;
     rewrite ?value_map_obj_of_map, ?map_union_idemp; done.
Qed.

Lemma merged_entry_some b u x : b = Some x → ∃ y, merged_entry b u = Some y.
Proof. intros ->. unfold merged_entry. repeat case_match; eauto. Qed.

(** Applying the same update twice to a payload that already holds a
    trait is applying it once: re-delivering a payload update changes no
    trait a reader can observe. *)
Theorem MergePayload_idempotent base update bm um r :
  decoded base = Some bm → decoded update = Some um → bm ≠ ∅ →
  MergePayload base update = Ok r →
  ∃ r' rm rm', MergePayload r update = Ok r' ∧ decoded r = Some rm ∧ decoded r' = Some rm' ∧
    ∀ k, option_Forall2 entry_equiv (rm' !! k) (rm !! k).
Proof.
  intros Hb Hu Hne Hr.
  destruct (MergePayload_spec base update bm um Hb Hu) as (r0 & rm & Hr0 & Hd & Hk).
  rewrite Hr in Hr0. injection Hr0 as <-.
  destruct (blank base) eqn:Eb; [by apply decoded_blank in Hb|].
  destruct (MergePayload_spec r update rm um Hd Hu) as (r' & rm' & Hr' & Hd' & Hk').
  exists r', rm, rm'. split_and!; [done..|]. intros k. rewrite Hk'.
  destruct (blank r) eqn:Er; [|rewrite Hk; apply merged_entry_idem].
  apply decoded_blank in Hd as ->; [|done]. destruct Hne. apply map_empty. intros i.
  destruct (bm !! i) eqn:Ei; [|done]. specialize (Hk i).
  destruct (merged_entry_some _ (um !! i) _ Ei) as [y Hy]. by rewrite Hy, lookup_empty in Hk.
Qed.

Lemma MergePayload_idempotent_witness :
  ∃ r r', MergePayload sample_base sample_update = Ok r ∧ MergePayload r sample_update = Ok r'.
Proof.
  destruct (MergePayload sample_base sample_update) as [r| |] eqn:Hr; [|vm_compute in Hr; discriminate Hr..].
  destruct (MergePayload_idempotent sample_base sample_update _ _ r eq_refl eq_refl) as (r' & _ & _ & Hr' & _).
  - intros H. apply (f_equal (lookup "note")) in H. vm_compute in H. discriminate H.
  - exact Hr.
  - exists r, r'. split; [reflexivity|exact Hr'].
Defined.

(** ** Theorems on MergePayloadPatch *)
Definition patch_allowed (allowed : option (list string)) (key : string) : bool :=
  match allowed with Some l => bool_decide (key ∈ l) | None => true end.

Lemma patch_value_None hid al k o v :
  patch_value hid al k o v = None ↔ patch_allowed al k = false.
Proof.
  unfold patch_value, patch_allowed. destruct al as [l|]; simpl; [|done].
  case_bool_decide; simpl; done.
Qed.

Lemma decoded_base base bm :
  decoded base = Some bm →
  (if blank base then Ok (Some ∅)
   else match unmarshal_map base with
        | None => Err ErrUnmarshalBase
        | Some m => Ok m
        end) = (Ok (Some bm) : outcome payload_err gomap).
Proof.
  intros H. destruct (blank base) eqn:E; [by apply decoded_blank in H as ->|].
  by erewrite decoded_unmarshal by done.
Qed.

Lemma MergePayloadPatch_spec base patch hid al bm pm :
  decoded base = Some bm → decoded patch = Some pm →
  RejectReservedPayloadKeys patch = Ok () →
  ∃ r rm, MergePayloadPatch base patch hid al = Ok r ∧ decoded r = Some rm ∧
    ∀ k, rm !! k =
      match pm !! k with
      | Some v => match patch_value hid al k (bm !! k) v with Some x => Some x | None => bm !! k end
      | None => bm !! k
      end.
Proof.
  intros Hb Hp Hrej. unfold MergePayloadPatch. destruct (blank patch) eqn:Ep.
  - apply decoded_blank in Hp as ->; [|done]. eexists _, bm. split_and!; [done| |].
    + by apply decoded_len0_default.
    + intros k. by rewrite lookup_empty.
  - rewrite Hrej. simpl. rewrite decoded_base with (bm := bm) by done. simpl.
    erewrite decoded_unmarshal by done. simpl. rewrite patch_loop_total. simpl.
    eexists _, _. split_and!; [done|apply decoded_marshal|].
    intros k. by apply set_entry_loop_lookup.
Qed.

(** [MergePayloadPatch] confines a handler to what it declared: unless the
    patch writes the reserved [artifact.children] (an error), the call
    succeeds, every trait outside the handler's [produces] and every trait the
    patch does not mention is unchanged, and every allowed trait of the patch
    is written. *)
Theorem MergePayloadPatch_confined base patch hid al bm pm :
  decoded base = Some bm → decoded patch = Some pm →
  RejectReservedPayloadKeys patch = Ok () →
  ∃ r rm, MergePayloadPatch base patch hid al = Ok r ∧ decoded r = Some rm ∧
    (∀ k, pm !! k = None ∨ patch_allowed al k = false → rm !! k = bm !! k) ∧
    (∀ k v, pm !! k = Some v → patch_allowed al k = true → is_Some (rm !! k)).
Proof.
  intros Hb Hp Hrej.
  destruct (MergePayloadPatch_spec base patch hid al bm pm Hb Hp Hrej) as (r & rm & Hr & Hd & Hk).
  exists r, rm. split_and!; [done..| |].
  - intros k [Hpk|Hal]; rewrite Hk; [by rewrite Hpk|].
    destruct (pm !! k) as [v|]; [|done]. by rewrite (proj2 (patch_value_None _ _ _ _ _)).
  - intros k v Hv Hal. rewrite Hk, Hv. destruct (patch_value hid al k (bm !! k) v) eqn:E; [eauto|].
    apply patch_value_None in E. congruence.
Qed.

Lemma MergePayloadPatch_confined_witness :
  ∃ r rm, MergePayloadPatch sample_base (RText true (JObj [("note", JStr "x"); ("artifact", JStr "y")])) "h"
            (Some ["artifact"]) = Ok r ∧ decoded r = Some rm ∧ rm !! "note" = Some (JStr "n").
Proof.
  destruct (MergePayloadPatch_confined sample_base
    (RText true (JObj [("note", JStr "x"); ("artifact", JStr "y")])) "h" (Some ["artifact"]) _ _ eq_refl eq_refl eq_refl)
    as (r & rm & Hr & Hd & Hkeep & _).
  exists r, rm. split; [exact Hr|]. split; [exact Hd|]. rewrite (Hkeep "note"); [vm_compute; reflexivity|].
  right. vm_compute. reflexivity.
Defined.

(** The handlers recorded under the shared trait of a payload. *)
Definition shared_members (o : option json) : gmap string json :=
  match o with
  | Some v => match value_map v with Some (Some m) => m | _ => ∅ end
  | None => ∅
  end.

Lemma patch_value_shared hid al o v :
  patch_allowed al TraitVerification = true →
  patch_value hid al TraitVerification o v = Some (obj_of_map (<[hid := v]> (shared_members o))).
Proof.
  unfold patch_value, patch_allowed, TraitMergeMode. intros Hal.
  rewrite (bool_decide_eq_true_2 (TraitVerification = TraitVerification)) by done.
  destruct al as [l|]; [rewrite Hal; simpl|]; destruct o as [e|]; simpl; try done;
    destruct (json_is_null e) eqn:En; try done; destruct e; done.
Qed.

(** The verification trait is shared between handlers: after two
    different handlers have each patched it, the payload holds both handlers'
    values, whatever other entries were there before. *)
Theorem verification_keeps_every_handler base p1 p2 h1 h2 al1 al2 bm pm1 pm2 v1 v2 r1 r2 :
  h1 ≠ h2 → decoded base = Some bm →
  decoded p1 = Some pm1 → pm1 !! TraitVerification = Some v1 →
  decoded p2 = Some pm2 → pm2 !! TraitVerification = Some v2 →
  patch_allowed al1 TraitVerification = true → patch_allowed al2 TraitVerification = true →
  MergePayloadPatch base p1 h1 al1 = Ok r1 → MergePayloadPatch r1 p2 h2 al2 = Ok r2 →
  ∃ rm, decoded r2 = Some rm ∧
    let members := shared_members (rm !! TraitVerification) in
    members !! h1 = Some v1 ∧ members !! h2 = Some v2 ∧
    ∀ h, h ≠ h1 → h ≠ h2 → members !! h = shared_members (bm !! TraitVerification) !! h.
Proof.
  intros Hne Hb Hp1 Hv1 Hp2 Hv2 Ha1 Ha2 Hr1 Hr2.
  assert (∀ b p h al r, MergePayloadPatch b p h al = Ok r → RejectReservedPayloadKeys p = Ok ()) as Hrej.
  { intros b p h al r. unfold MergePayloadPatch, RejectReservedPayloadKeys.
    destruct (blank p); [done|]. intros H. apply bind_ok_inv in H as ([] & H & _). done. }
  destruct (MergePayloadPatch_spec base p1 h1 al1 bm pm1) as (? & rm1 & E1 & Hd1 & Hk1); eauto.
  rewrite Hr1 in E1. injection E1 as <-.
  destruct (MergePayloadPatch_spec r1 p2 h2 al2 rm1 pm2) as (? & rm2 & E2 & Hd2 & Hk2); eauto.
  rewrite Hr2 in E2. injection E2 as <-.
  exists rm2. split; [done|]. rewrite Hk2, Hv2, patch_value_shared by done.
  rewrite Hk1, Hv1, patch_value_shared by done. simpl. rewrite !fields_map_sorted.
  split_and!; [by simplify_map_eq..|]. intros h Hh1 Hh2. by simplify_map_eq.
Qed.

Lemma verification_keeps_every_handler_witness :
  ∃ r1 r2 rm, MergePayloadPatch REmpty (RText true (JObj [("verification", JStr "ok")])) "lint" None = Ok r1 ∧
    MergePayloadPatch r1 (RText true (JObj [("verification", JStr "bad")])) "test" None = Ok r2 ∧
    decoded r2 = Some rm ∧ shared_members (rm !! TraitVerification) !! "lint" = Some (JStr "ok").
Proof.
  destruct (MergePayloadPatch REmpty (RText true (JObj [("verification", JStr "ok")])) "lint" None) as [r1| |] eqn:H1;
    [|vm_compute in H1; discriminate H1..].
  destruct (MergePayloadPatch r1 (RText true (JObj [("verification", JStr "bad")])) "test" None) as [r2| |] eqn:H2.
  - destruct (verification_keeps_every_handler REmpty (RText true (JObj [("verification", JStr "ok")]))
      (RText true (JObj [("verification", JStr "bad")])) "lint" "test" None None ∅
      (list_to_map [("verification", JStr "ok")]) (list_to_map [("verification", JStr "bad")])
      (JStr "ok") (JStr "bad") r1 r2) as (rm & Hd & Hl & _); try reflexivity; [discriminate|exact H1|exact H2|].
    exists r1, r2, rm. split; [reflexivity|]. split; [exact H2|]. split; [exact Hd|exact Hl].
  - vm_compute in H1. injection H1 as <-. vm_compute in H2. discriminate H2.
  - vm_compute in H1. injection H1 as <-. vm_compute in H2. discriminate H2.
Defined.

(** ** Theorems on mergeClaudeSessions *)

(** The last entry of a session array with the given (type, name) key. *)
Definition session_last (k : sessionKey) (items : list json) : option json :=
  last (filter (λ i, session_keyOf i = Some k) items).

(** The entry under a key in the accumulator of the two loops. *)
Definition acc_wf (acc : list sessionKey * gmap sessionKey json) : Prop :=
  NoDup acc.1 ∧ (∀ k, k ∈ acc.1 ↔ is_Some (acc.2 !! k)) ∧
  ∀ k v, acc.2 !! k = Some v → session_keyOf v = Some k.

Lemma session_add_wf acc item acc' :
  acc_wf acc → session_add acc item = Some acc' → acc_wf acc'.
Proof.
  destruct acc as [order byKey]. intros (Hnd & Hdom & Hkey). unfold session_add.
  destruct (session_keyOf item) as [k|] eqn:Hk; [|done]. intros [= <-]. simpl in *.
  split_and!; simpl.
  - destruct (byKey !! k) eqn:E; [done|]. apply NoDup_app. split_and!; [done| |apply NoDup_singleton].
    intros x Hx ->%list_elem_of_singleton. apply Hdom in Hx as [? ?]. congruence.
  - intros k'. rewrite lookup_insert.
    destruct (byKey !! k) eqn:E; rewrite ?elem_of_app, ?list_elem_of_singleton, Hdom;
      (destruct (decide (k = k')) as [<-|]; [rewrite E|]); naive_solver.
  - intros k' v. rewrite lookup_insert. destruct (decide (k = k')) as [<-|]; [|by apply Hkey].
    by intros [= <-].
Qed.

Lemma session_loop_wf items acc acc' :
  acc_wf acc → session_loop acc items = Some acc' → acc_wf acc'.
Proof.
  revert acc. induction items as [|i items IH]; intros acc Hwf; simpl; [by intros [= <-]|].
  destruct (session_add acc i) as [acc1|] eqn:E; simpl; [|done].
  eauto using session_add_wf.
Qed.

Lemma session_loop_lookup items acc acc' k :
  session_loop acc items = Some acc' →
  acc'.2 !! k = match session_last k items with Some v => Some v | None => acc.2 !! k end.
Proof.
  revert acc. induction items as [|i items IH]; intros acc; simpl; [by intros [= <-]|].
  destruct (session_add acc i) as [acc1|] eqn:E; simpl; [|done]. intros H.
  rewrite (IH _ H). unfold session_last. rewrite filter_cons.
  destruct acc as [order byKey]. unfold session_add in E.
  destruct (session_keyOf i) as [ki|] eqn:Hki; [|done]. injection E as <-. simpl.
  case_decide as Hd.
  - injection Hd as ->. rewrite lookup_insert_eq. rewrite last_cons.
    by destruct (last (filter _ items)).
  - rewrite lookup_insert_ne by congruence. by destruct (last (filter _ items)).
Qed.

Lemma session_last_sound k items v : session_last k items = Some v → v ∈ items ∧ session_keyOf v = Some k.
Proof. intros H%last_Some_elem_of. by apply list_elem_of_filter in H as [? ?]. Qed.

Lemma session_last_omap (order : list sessionKey) (byKey : gmap sessionKey json) k :
  NoDup order → (∀ k v, byKey !! k = Some v → session_keyOf v = Some k) →
  session_last k (omap (λ k, byKey !! k) order) = if decide (k ∈ order) then byKey !! k else None.
Proof.
  intros Hnd Hkey. unfold session_last. induction Hnd as [|k' order Hk' Hnd IH]; csimpl; [done|].
  destruct (byKey !! k') as [v|] eqn:Ev.
  - rewrite filter_cons. pose proof (Hkey _ _ Ev) as Hkv. destruct (decide (k = k')) as [->|Hne].
    + rewrite decide_True by done. rewrite last_cons, IH, decide_False by done.
      by rewrite decide_True by set_solver.
    + rewrite decide_False by congruence. rewrite IH. by do 2 case_decide; set_solver.
  - rewrite IH. destruct (decide (k = k')) as [->|Hne].
    + rewrite decide_False by done. by rewrite decide_True by set_solver.
    + by do 2 case_decide; set_solver.
Qed.

Lemma session_keys_omap (order : list sessionKey) (byKey : gmap sessionKey json) :
  (∀ k v, byKey !! k = Some v → session_keyOf v = Some k) →
  (∀ k, k ∈ order → is_Some (byKey !! k)) →
  omap session_keyOf (omap (λ k, byKey !! k) order) = order.
Proof.
  intros Hkey. induction order as [|k order IH]; intros Hl; csimpl; [done|].
  destruct (Hl k) as [v Hv]; [by left|]. rewrite Hv. csimpl. rewrite (Hkey _ _ Hv). f_equal.
  apply IH. intros k' Hk'. apply Hl. by right.
Qed.

Definition keyed (i : json) : Prop := is_Some (session_keyOf i).

Lemma session_loop_total items acc : Forall keyed items → ∃ acc', session_loop acc items = Some acc'.
Proof.
  intros H. revert acc. induction H as [|i items [k Hk] _ IH]; intros acc; simpl; [by eexists|].
  destruct acc as [order byKey]. unfold session_add. rewrite Hk. simpl. apply IH.
Qed.

Lemma acc_wf_empty : acc_wf ([], ∅).
Proof.
  split_and!; simpl; [constructor| |].
  - intros k. rewrite lookup_empty. split; [by intros ?%not_elem_of_nil|by intros []].
  - intros k v. by rewrite lookup_empty.
Qed.

(** The merge of two arrays of keyed sessions: no two entries share a key, and
    under each key sits the patch's entry if it has one, else the existing one. *)
Lemma mergeClaudeSessions_spec es ps :
  Forall keyed es → Forall keyed ps →
  ∃ rs, mergeClaudeSessions (Some (JArr es)) (Some (JArr ps)) = Some (JArr rs) ∧
    Forall keyed rs ∧ NoDup (omap session_keyOf rs) ∧
    ∀ k, session_last k rs =
           match session_last k ps with Some v => Some v | None => session_last k es end.
Proof.
  intros He Hp.
  destruct (session_loop_total es ([], ∅) He) as [acc1 E1].
  destruct (session_loop_total ps acc1 Hp) as [acc2 E2].
  assert (acc_wf acc2) as (Hnd & Hdom & Hkey) by eauto using session_loop_wf, acc_wf_empty.
  exists (omap (λ k, acc2.2 !! k) acc2.1). simpl. rewrite E1. simpl. rewrite E2. simpl.
  split_and!; [done| | |].
  - apply Forall_forall. intros v (k & _ & Hv)%list_elem_of_omap. exists k. by apply Hkey.
  - rewrite session_keys_omap; [done|done|]. by intros k' ?%Hdom.
  - intros k. rewrite session_last_omap by done.
    pose proof (session_loop_lookup _ _ _ k E2) as L2.
    pose proof (session_loop_lookup _ _ _ k E1) as L1. simpl in L1. rewrite lookup_empty in L1.
    destruct (decide (k ∈ acc2.1)) as [Hk|Hk].
    + rewrite L2, L1. by destruct (session_last k ps), (session_last k es).
    + rewrite Hdom, L2, L1 in Hk.
      destruct (session_last k ps); [by destruct Hk; eauto|].
      destruct (session_last k es); [by destruct Hk; eauto|done].
Qed.

(** Concurrent session writes are not lost: when two patches carry
    sessions with different (type, name) keys, applying them to the existing
    array in either order succeeds and yields the same session under every
    key: the patch's own, or the existing one where neither patch writes. *)
Theorem concurrent_sessions_survive es p1 p2 :
  Forall keyed es → Forall keyed p1 → Forall keyed p2 →
  (∀ k, session_last k p1 = None ∨ session_last k p2 = None) →
  ∃ r1 r2 r12 r21,
    mergeClaudeSessions (Some (JArr es)) (Some (JArr p1)) = Some (JArr r1) ∧
    mergeClaudeSessions (Some (JArr r1)) (Some (JArr p2)) = Some (JArr r12) ∧
    mergeClaudeSessions (Some (JArr es)) (Some (JArr p2)) = Some (JArr r2) ∧
    mergeClaudeSessions (Some (JArr r2)) (Some (JArr p1)) = Some (JArr r21) ∧
    ∀ k, session_last k r12 = session_last k r21 ∧
         session_last k r12 =
           match session_last k p1, session_last k p2 with
           | Some v, _ => Some v
           | None, Some v => Some v
           | None, None => session_last k es
           end.
Proof.
  intros He H1 H2 Hdisj.
  destruct (mergeClaudeSessions_spec es p1) as (r1 & E1 & K1 & _ & L1); [done..|].
  destruct (mergeClaudeSessions_spec es p2) as (r2 & E2 & K2 & _ & L2); [done..|].
  destruct (mergeClaudeSessions_spec r1 p2) as (r12 & E12 & _ & _ & L12); [done..|].
  destruct (mergeClaudeSessions_spec r2 p1) as (r21 & E21 & _ & _ & L21); [done..|].
  exists r1, r2, r12, r21. split_and!; [done..|]. intros k. rewrite L12, L21, L1, L2.
  destruct (Hdisj k) as [-> | ->]; [by destruct (session_last k p2)|by destruct (session_last k p1)].
Qed.

Definition sample_session (type name id : string) : json :=
  JObj [("type", JStr type); ("name", JStr name); ("id", JStr id)].

Lemma concurrent_sessions_survive_witness :
  ∃ r1 r12, mergeClaudeSessions (Some (JArr [])) (Some (JArr [sample_session "main" "a" "1"])) = Some (JArr r1) ∧
    mergeClaudeSessions (Some (JArr r1)) (Some (JArr [sample_session "main" "b" "2"])) = Some (JArr r12).
Proof.
  destruct (concurrent_sessions_survive [] [sample_session "main" "a" "1"] [sample_session "main" "b" "2"])
    as (r1 & r2 & r12 & r21 & H1 & H12 & _).
  - constructor.
  - repeat constructor. vm_compute. eexists. reflexivity.
  - repeat constructor. vm_compute. eexists. reflexivity.
  - intros k. unfold session_last. rewrite !filter_cons, !filter_nil.
    destruct (decide (session_keyOf (sample_session "main" "a" "1") = Some k)) as [E|]; [|left; reflexivity].
    right. rewrite decide_False; [reflexivity|]. rewrite <- E. vm_compute. discriminate.
  - exists r1, r12. split; [exact H1|exact H12].
Defined.

(** ** Theorems on the awaiting trait *)
Lemma unmarshal_marshal_awaiting ap : unmarshal_awaiting (marshal_awaiting ap) = (ap, true).
Proof.
  destruct ap as [q qid pa paa]. unfold marshal_awaiting, omitempty, str_empty. simpl.
  repeat case_bool_decide; subst; vm_compute; reflexivity.
Qed.

Lemma GetAwaitingPayload_marshal m v :
  m !! TraitAwaiting = Some v → json_is_null v = false →
  GetAwaitingPayload (marshal_map (Some m)) = (unmarshal_awaiting v).1.
Proof.
  intros Hm Hn. unfold GetAwaitingPayload. rewrite unmarshal_marshal. simpl. rewrite Hm. by rewrite Hn.
Qed.

Lemma SetPendingAnswer_spec payload answer actor top :
  decoded payload = Some top → payload ≠ RText true JNull →
  SetPendingAnswer payload answer actor =
    Ok (marshal_map (Some (<[TraitAwaiting := marshal_awaiting
      {| Question := Question (GetAwaitingPayload payload);
         QuestionID := QuestionID (GetAwaitingPayload payload);
         PendingAnswer := answer; PendingAnswerActor := actor |}]> top))).
Proof.
  intros Hd Hne. unfold SetPendingAnswer, GetAwaitingPayload.
  destruct payload as [|b|c v]; simpl; [by injection Hd as <-|done|].
  assert (value_map v = Some (Some top)) as ->.
  { unfold decoded, blank in Hd. simpl in Hd. destruct v as [| | | | |[]], c; simpl in *; try done;
      by injection Hd as <-. }
  simpl. by destruct (top !! TraitAwaiting).
Qed.

(** An answer parked for a disconnected agent is the answer it later
    reads: after [SetPendingAnswer] on any decodable payload other than the
    text "null", [GetAwaitingPayload] returns the answer and its actor with the
    question unchanged, every other trait is untouched, [ClearPendingAnswer]
    then removes a non-empty answer and nothing else, and
    [StripAwaitingTrait] removes the trait. *)
Theorem pending_answer_round_trip payload answer actor top :
  decoded payload = Some top → payload ≠ RText true JNull →
  ∃ r, SetPendingAnswer payload answer actor = Ok r ∧
    let before := GetAwaitingPayload payload in
    GetAwaitingPayload r = {| Question := Question before; QuestionID := QuestionID before;
                              PendingAnswer := answer; PendingAnswerActor := actor |} ∧
    (∃ rm, decoded r = Some rm ∧ ∀ k, k ≠ TraitAwaiting → rm !! k = top !! k) ∧
    (answer ≠ "" → GetAwaitingPayload (ClearPendingAnswer r) =
       {| Question := Question before; QuestionID := QuestionID before;
          PendingAnswer := ""; PendingAnswerActor := "" |}) ∧
    decoded (StripAwaitingTrait r) = Some (delete TraitAwaiting top).
Proof.
  intros Hd Hne. rewrite (SetPendingAnswer_spec _ _ _ _ Hd Hne). eexists. split; [done|].
  simpl. set (ap := {| PendingAnswer := answer |}).
  split_and!.
  - erewrite GetAwaitingPayload_marshal by (apply lookup_insert_eq || done).
    by rewrite unmarshal_marshal_awaiting.
  - eexists. split; [apply decoded_marshal|]. intros k Hk. by rewrite lookup_insert_ne.
  - intros Ha. unfold ClearPendingAnswer. rewrite unmarshal_marshal. simpl. rewrite lookup_insert_eq.
    simpl json_is_null. rewrite unmarshal_marshal_awaiting. simpl.
    unfold str_empty. rewrite bool_decide_eq_false_2 by done.
    erewrite GetAwaitingPayload_marshal by (apply lookup_insert_eq || done).
    by rewrite unmarshal_marshal_awaiting.
  - unfold StripAwaitingTrait. rewrite unmarshal_marshal. simpl. rewrite lookup_insert_eq. simpl.
    rewrite decoded_marshal. by rewrite delete_insert_eq.
Qed.

Lemma pending_answer_round_trip_witness :
  ∃ r, SetPendingAnswer sample_base "yes" "human" = Ok r ∧ PendingAnswer (GetAwaitingPayload r) = "yes".
Proof.
  destruct (pending_answer_round_trip sample_base "yes" "human" _ eq_refl) as (r & Hr & Hget & _); [discriminate|].
  exists r. split; [exact Hr|]. rewrite Hget. reflexivity.
Defined.

(** The one payload text on which parking an answer does not work: on
    "null", [SetPendingAnswer] assigns into a nil map and panics. *)
Theorem SetPendingAnswer_null_panics answer actor :
  SetPendingAnswer (RText true JNull) answer actor = Panic.
Proof. done. Qed.
