(* ===== verification/Task.v ===== *)
(** * Tasks, actions and instructions

    Models internal/orchestrator/model.go (task statuses, the tagged union
    Task = Card | ExecutionTask, actions), the instruction types of
    spec_types.go and the instruction half of payload_merge.go.  A
    [TaskStatus] is a Go string type and the rule tables compare it with
    string literals, so it stays a string here; times are integers (UTC
    nanoseconds). *)
From S2P Require Import Prelude Json.

(** ** Statuses *)
Abbreviation TaskStatus := string.
Definition TaskStatusPending : TaskStatus := "pending".
Definition TaskStatusExecuting : TaskStatus := "executing".
Definition TaskStatusAwaiting : TaskStatus := "awaiting".
Definition TaskStatusDone : TaskStatus := "done".
Definition TaskStatusAborted : TaskStatus := "aborted".
Definition TaskStatusParked : TaskStatus := "parked".
Definition TaskStatusWorking : TaskStatus := "working".
Definition TaskStatusDropped : TaskStatus := "dropped".

Definition KnownTaskStatuses : list TaskStatus :=
  [TaskStatusPending; TaskStatusExecuting; TaskStatusAwaiting; TaskStatusDone;
   TaskStatusAborted; TaskStatusParked; TaskStatusWorking; TaskStatusDropped].

Definition ParseTaskStatus (s : string) : option TaskStatus :=
  snd <$> list_find (λ known, known = s) KnownTaskStatuses.

Definition IsTerminalStatus (status : TaskStatus) : bool :=
  bool_decide (status = TaskStatusDone) || bool_decide (status = TaskStatusAborted)
  || bool_decide (status = TaskStatusDropped).

Inductive TaskType : Type := TaskTypeCard | TaskTypeExecution.
#[export] Instance TaskType_eq_dec : EqDecision TaskType.
Proof. solve_decision. Defined.

Definition IsPreDispatchEditableStatus (taskType : TaskType) (status : TaskStatus) : bool :=
  match taskType with
  | TaskTypeCard => bool_decide (status = TaskStatusParked)
  | TaskTypeExecution => bool_decide (status = TaskStatusPending)
  end.

Definition IsInstructionsEditable (taskType : TaskType) (status : TaskStatus) : bool :=
  bool_decide (taskType = TaskTypeExecution) && bool_decide (status = TaskStatusPending).

(** ** Instructions (spec_types.go) *)
Record Instruction : Type := {
  Agent : string;
  IName : string;
  Message : string;
  Model : string;
}.
#[export] Instance Instruction_eq_dec : EqDecision Instruction.
Proof. solve_decision. Defined.

Abbreviation Instructions := (list Instruction).

Definition Active (insts : Instructions) : option Instruction := last insts.

Record RoutedInstruction : Type := {
  RRole : string;
  RAgent : string;
  RName : string;
  RMessage : string;
  RModel : string;
}.

(** ** Tasks and actions (model.go) *)
Record CardAttrs : Type := {
  CTaskID : string;
  Kind : string;
  Urgency : string;
  WakeAt : option Z;
  WakeTaskID : string;
  SuggestionVerb : string;
  Detail : raw;
}.

Record ExecAttrs : Type := {
  Behavior : string;
  Traits : list string;
  Readonly : bool;
  BranchPrefix : string;
  BaseBranch : string;
  Payload : raw;
  TInstructions : Instructions;
  AutoStart : bool;
}.

(** The stored columns of a task; the child counts and [Blocked] are computed
    by list queries and are not part of the row. *)
Record Task : Type := {
  ID : string;
  Type_ : TaskType;
  ProjectID : string;
  WorkspaceID : string;
  RemoteID : string;
  Title : string;
  Description : string;
  Status : TaskStatus;
  Ref : string;
  ParentID : string;
  IdempotencyKey : string;
  CreatedAt : Z;
  UpdatedAt : Z;
  Card : option CardAttrs;
  Exec : option ExecAttrs;
}.

(** "Card is non-nil iff Type == TaskTypeCard; Exec is non-nil iff Type ==
    TaskTypeExecution". *)
Definition task_wf (t : Task) : Prop :=
  match Type_ t with
  | TaskTypeCard => is_Some (Card t) ∧ Exec t = None
  | TaskTypeExecution => Card t = None ∧ is_Some (Exec t)
  end.

Definition set_Status (t : Task) (s : TaskStatus) : Task :=
  {| ID := ID t; Type_ := Type_ t; ProjectID := ProjectID t; WorkspaceID := WorkspaceID t;
     RemoteID := RemoteID t; Title := Title t; Description := Description t; Status := s;
     Ref := Ref t; ParentID := ParentID t; IdempotencyKey := IdempotencyKey t;
     CreatedAt := CreatedAt t; UpdatedAt := UpdatedAt t; Card := Card t; Exec := Exec t |}.

Definition set_ExecPayload (e : ExecAttrs) (p : raw) : ExecAttrs :=
  {| Behavior := Behavior e; Traits := Traits e; Readonly := Readonly e;
     BranchPrefix := BranchPrefix e; BaseBranch := BaseBranch e; Payload := p;
     TInstructions := TInstructions e; AutoStart := AutoStart e |}.

Definition set_Payload (t : Task) (p : raw) : Task :=
  {| ID := ID t; Type_ := Type_ t; ProjectID := ProjectID t; WorkspaceID := WorkspaceID t;
     RemoteID := RemoteID t; Title := Title t; Description := Description t; Status := Status t;
     Ref := Ref t; ParentID := ParentID t; IdempotencyKey := IdempotencyKey t;
     CreatedAt := CreatedAt t; UpdatedAt := UpdatedAt t; Card := Card t;
     Exec := (λ e, set_ExecPayload e p) <$> Exec t |}.

Record Action : Type := {
  AID : string;
  ATaskID : string;
  AType : string;
  APayload : raw;
  AFromStatus : TaskStatus;
  AToStatus : TaskStatus;
  ACreatedAt : Z;
  Actor : string;
}.

(** ** Action types the daemon records itself (card_state_actions.go, card_request.go) *)
Definition ActionTypeCardCreated : string := "created".
Definition ActionTypeCardEdited : string := "edited".
Definition ActionTypeIdentityLinked : string := "identity_linked".
Definition ActionTypeIdentityUnlinked : string := "identity_unlinked".
Definition ActionTypeCommandFinished : string := "command_finished".
Definition ActionTypeCommandFailed : string := "command_failed".
Definition ActionTypeCommandForceReleased : string := "command_force_released".

Definition IsCardStateSelfRecord (actionType : string) : bool :=
  bool_decide (actionType ∈ [ActionTypeCardCreated; ActionTypeCardEdited;
                             ActionTypeIdentityLinked; ActionTypeIdentityUnlinked]).

(** Actors (actor.go). *)
Definition ActorHuman : string := "human".
Definition ActorDaemon : string := "daemon".
Definition ActorTask (taskID : string) : string := "task:" +:+ taskID.

(** [task.Exec.Readonly], false for a card (readonly.go). *)
Definition IsReadonly (t : Task) : bool :=
  match Exec t with Some e => Readonly e | None => false end.

(** ** Pointers: CloneTaskShallow

    [Task.Exec] and [Task.Card] are pointers, so copying a task struct copies
    the pointers.  Cells live in a heap here; the other components work on
    task values, which the separation proved below licenses. *)
Record heap : Type := {
  exec_cells : gmap positive ExecAttrs;
  card_cells : gmap positive CardAttrs;
}.

Record TaskPtrs : Type := {
  p_status : TaskStatus;
  p_exec : option positive;
  p_card : option positive;
}.

Definition alloc_exec (h : heap) (e : ExecAttrs) : heap * positive :=
  let p := fresh (dom (exec_cells h)) in
  ({| exec_cells := <[p := e]> (exec_cells h); card_cells := card_cells h |}, p).
Definition alloc_card (h : heap) (c : CardAttrs) : heap * positive :=
  let p := fresh (dom (card_cells h)) in
  ({| exec_cells := exec_cells h; card_cells := <[p := c]> (card_cells h) |}, p).

Definition CloneTaskShallow (h : heap) (t : TaskPtrs) : heap * TaskPtrs :=
  let '(h1, e') := match p_exec t ≫= (λ p, exec_cells h !! p) with
                   | Some e => let '(h', p) := alloc_exec h e in (h', Some p)
                   | None => (h, p_exec t)
                   end in
  let '(h2, c') := match p_card t ≫= (λ p, card_cells h1 !! p) with
                   | Some c => let '(h', p) := alloc_card h1 c in (h', Some p)
                   | None => (h1, p_card t)
                   end in
  (h2, {| p_status := p_status t; p_exec := e'; p_card := c' |}).

(** What a holder of [t] sees, and a write through its Exec or Card pointer. *)
Definition view (h : heap) (t : TaskPtrs) : option ExecAttrs * option CardAttrs :=
  (p_exec t ≫= (λ p, exec_cells h !! p), p_card t ≫= (λ p, card_cells h !! p)).
Definition write_exec (h : heap) (t : TaskPtrs) (e : ExecAttrs) : heap :=
  match p_exec t with
  | Some p => {| exec_cells := <[p := e]> (exec_cells h); card_cells := card_cells h |}
  | None => h
  end.
Definition write_card (h : heap) (t : TaskPtrs) (c : CardAttrs) : heap :=
  match p_card t with
  | Some p => {| exec_cells := exec_cells h; card_cells := <[p := c]> (card_cells h) |}
  | None => h
  end.
Definition ptrs_valid (h : heap) (t : TaskPtrs) : Prop :=
  (∀ p, p_exec t = Some p → p ∈ dom (exec_cells h)) ∧
  (∀ p, p_card t = Some p → p ∈ dom (card_cells h)).

(** ** Instruction lists (payload_merge.go) *)
Inductive instr_err : Type := ErrUnmarshalInstructions.

Definition unmarshal_instruction (v : json) : Instruction * bool :=
  match decode_struct ["agent"; "name"; "message"; "model"] v with
  | ([a; n; m; mo], ok) => ({| Agent := a; IName := n; Message := m; Model := mo |}, ok)
  | (_, ok) => ({| Agent := ""; IName := ""; Message := ""; Model := "" |}, ok)
  end.

(** [Instructions.UnmarshalJSON]; [None] is the error.  For the legacy map form
    without a "main" entry the source takes whichever entry Go enumerates
    first: [range] is that enumeration. *)
Definition Instructions_UnmarshalJSON
    (range : gmap string json → list (string * json)) (v : json) : option Instructions :=
  match v with
  | JNull => Some []
  | JArr items =>
      let ds := unmarshal_instruction <$> items in
      if forallb snd ds then Some ds.*1 else None
  | JObj fs =>
      let m := fields_map fs in
      if forallb (λ x, (unmarshal_instruction x.2).2) fs then
        match m !! "main" with
        | Some v => Some [(unmarshal_instruction v).1]
        | None => match range m with
                  | (_, v) :: _ => Some [(unmarshal_instruction v).1]
                  | [] => Some []
                  end
        end
      else None
  | _ => None
  end.

Definition mergeInstruction (base override : Instruction) : Instruction :=
  {| Agent := if str_empty (Agent override) then Agent base else Agent override;
     IName := if str_empty (IName override) then IName base else IName override;
     Message := if str_empty (Message override) then Message base else Message override;
     Model := if str_empty (Model override) then Model base else Model override |}.

Definition MergeDefaultInstructions (range : gmap string json → list (string * json))
    (defaultInstruction : option Instruction) (requestInstructions : raw)
    : outcome instr_err Instructions :=
  let base := match defaultInstruction with Some d => [d] | None => [] end in
  if (blank requestInstructions || is_lit_arr0 requestInstructions)%bool then Ok base
  else match requestInstructions with
       | RText _ v =>
           match Instructions_UnmarshalJSON range v with
           | None => Err ErrUnmarshalInstructions
           | Some override =>
               match override, defaultInstruction with
               | [], _ => Ok base
               | [o], Some d => Ok [mergeInstruction d o]
               | _, _ => Ok override
               end
           end
       | _ => Err ErrUnmarshalInstructions
       end.

Definition AppendInstruction (existing : Instructions) (inst : Instruction) : Instructions :=
  existing ++ [inst].

(** The UTF-8 text the source falls back to when a message is empty. *)
Definition defaultInstructionMessage : string := "タスクを実行してください".

Definition resolveMessage (inst : Instruction) : string :=
  if str_empty (Message inst) then defaultInstructionMessage else Message inst.

Definition FilterInstructions (instructions : Instructions) (agent : string)
    : list RoutedInstruction :=
  if str_empty agent then []
  else match last instructions with
       | None => []
       | Some active =>
           if bool_decide (Agent active = agent) then
             [{| RRole := IName active; RAgent := Agent active; RName := IName active;
                 RMessage := resolveMessage active; RModel := Model active |}]
           else []
       end.

Definition CurrentInstructions (task : Task) : list RoutedInstruction :=
  if negb (bool_decide (Status task = TaskStatusExecuting)) then []
  else match Exec task with
       | None => []
       | Some e => match last (TInstructions e) with
                   | None => []
                   | Some active => FilterInstructions (TInstructions e) (Agent active)
                   end
       end.

(** ** Theorems *)
Lemma str_empty_true s : str_empty s = true ↔ s = "".
Proof. unfold str_empty. by rewrite bool_decide_eq_true. Qed.
Lemma str_empty_false s : str_empty s = false ↔ s ≠ "".
Proof. unfold str_empty. by rewrite bool_decide_eq_false. Qed.

Lemma ParseTaskStatus_spec s t : ParseTaskStatus s = Some t ↔ t = s ∧ s ∈ KnownTaskStatuses.
Proof.
  unfold ParseTaskStatus. split.
  - intros ([i x] & (H1 & H2 & _)%list_find_Some & ->)%fmap_Some. simpl in *. subst.
    split; [done|]. by eapply list_elem_of_lookup_2.
  - intros [-> Hin]. destruct (list_find _ KnownTaskStatuses) as [[i x]|] eqn:Hx; simpl.
    + by apply list_find_Some in Hx as (_ & -> & _).
    + apply list_find_None in Hx. rewrite Forall_forall in Hx. by destruct (Hx s).
Qed.

Lemma valid_cell {A} (m : gmap positive A) p :
  p ∈ dom m → ∃ x, m !! p = Some x ∧ p ≠ fresh (dom m).
Proof.
  intros Hp. pose proof (is_fresh (dom m)) as Hf. pose proof Hp as [x Hx]%elem_of_dom.
  exists x. split; [done|]. intros Heq. rewrite <- Heq in Hf. done.
Qed.

(** A clone's Exec and Card structs are its own: writes through the clone's
    pointers leave what the original task sees unchanged, writes through the
    original leave the clone unchanged, and the clone starts with the
    original's contents. *)
Theorem clone_isolates h t h' t' e c :
  ptrs_valid h t → CloneTaskShallow h t = (h', t') →
  view h' t = view h t ∧ view h' t' = view h t ∧
  view (write_card (write_exec h' t' e) t' c) t = view h t ∧
  view (write_card (write_exec h' t e) t c) t' = view h t.
Proof.
  intros [He Hc]. unfold CloneTaskShallow, alloc_exec, alloc_card, view, write_card, write_exec.
  destruct t as [st pe pc], h as [ec cc]. simpl in *.
  destruct pe as [p|]; [destruct (valid_cell ec p) as (x & Hx & Hpx); [by apply He|]|];
    (destruct pc as [q|]; [destruct (valid_cell cc q) as (y & Hy & Hqy); [by apply Hc|]|]);
    simpl; rewrite ?Hx; simpl; rewrite ?Hy; simpl; intros [= <- <-]; simpl;
    by repeat first [ rewrite lookup_insert_eq | rewrite lookup_insert_ne by congruence
                    | rewrite Hx | rewrite Hy ].
Qed.

Definition sample_exec : ExecAttrs :=
  {| Behavior := "dev"; Traits := []; Readonly := false; BranchPrefix := ""; BaseBranch := "main";
     Payload := raw_obj0; TInstructions := []; AutoStart := false |}.
Definition sample_heap : heap := {| exec_cells := {[1%positive := sample_exec]}; card_cells := ∅ |}.
Definition sample_ptrs : TaskPtrs :=
  {| p_status := TaskStatusPending; p_exec := Some 1%positive; p_card := None |}.

Definition sample_card : CardAttrs :=
  {| CTaskID := ""; Kind := ""; Urgency := ""; WakeAt := None; WakeTaskID := ""; SuggestionVerb := ""; Detail := REmpty |}.

Lemma clone_isolates_witness :
  let '(h', t') := CloneTaskShallow sample_heap sample_ptrs in
  view (write_card (write_exec h' t' (set_ExecPayload sample_exec REmpty)) t' sample_card) sample_ptrs =
    view sample_heap sample_ptrs.
Proof.
  destruct (CloneTaskShallow sample_heap sample_ptrs) as [h' t'] eqn:E.
  apply (clone_isolates sample_heap sample_ptrs h' t' (set_ExecPayload sample_exec REmpty) sample_card); [|exact E].
  split; intros p Hp; [|discriminate Hp]. injection Hp as <-. apply elem_of_dom. eexists. reflexivity.
Defined.

Lemma inherit_id (x y : string) : (if str_empty y then x else y) = y ↔ (y = "" → x = "").
Proof. unfold str_empty. case_bool_decide; subst; naive_solver. Qed.

(** Building a new task's instruction list: with no request the behavior's
    default alone is used; a single request entry is merged field by field,
    its non-empty fields winning and its empty ones inherited; several entries
    replace the default; a malformed request is an error. *)
Theorem MergeDefaultInstructions_cases range d items o os :
  unmarshal_instruction <$> items = (λ x, (x, true)) <$> (o :: os) →
  MergeDefaultInstructions range (Some d) REmpty = Ok [d] ∧
  MergeDefaultInstructions range None (RText true (JArr items)) = Ok (o :: os) ∧
  MergeDefaultInstructions range (Some d) (RText true (JArr items)) =
    Ok (match os with [] => [mergeInstruction d o] | _ => o :: os end) ∧
  (∀ bytes, MergeDefaultInstructions range (Some d) (RBad bytes) = Err ErrUnmarshalInstructions) ∧
  (∀ inst, mergeInstruction d inst = inst ↔
     (Agent inst = "" → Agent d = "") ∧ (IName inst = "" → IName d = "") ∧
     (Message inst = "" → Message d = "") ∧ (Model inst = "" → Model d = "")).
Proof.
  intros Hi. assert (∀ l : list Instruction, forallb snd ((λ x, (x, true)) <$> l) = true) as Hall.
  { intros l. induction l; simpl; auto. }
  assert (∀ l : list Instruction, ((λ x, (x, true)) <$> l).*1 = l) as Hfst.
  { intros l. induction l; f_equal/=; auto. }
  assert (items ≠ []) as Hne by by destruct items.
  assert (is_lit_arr0 (RText true (JArr items)) = false) as Hlit by by destruct items.
  split_and!; [done|..].
  - unfold MergeDefaultInstructions. rewrite Hlit. simpl. rewrite Hi, Hall, Hfst. by destruct os.
  - unfold MergeDefaultInstructions. rewrite Hlit. simpl. rewrite Hi, Hall, Hfst. by destruct os.
  - done.
  - intros [a n m mo]. unfold mergeInstruction. simpl. rewrite <- !inherit_id. split.
    + intros H. injection H. auto.
    + intros (H1 & H2 & H3 & H4). by f_equal.
Qed.

Lemma MergeDefaultInstructions_cases_witness :
  MergeDefaultInstructions map_to_list
    (Some {| Agent := "claude-code"; IName := "main"; Message := ""; Model := "" |})
    (RText true (JArr [JObj [("message", JStr "go")]])) =
  Ok [{| Agent := "claude-code"; IName := "main"; Message := "go"; Model := "" |}].
Proof.
  destruct (MergeDefaultInstructions_cases map_to_list
    {| Agent := "claude-code"; IName := "main"; Message := ""; Model := "" |}
    [JObj [("message", JStr "go")]] {| Agent := ""; IName := ""; Message := "go"; Model := "" |} [])
    as (_ & _ & H & _); [vm_compute; reflexivity|]. rewrite H. vm_compute. reflexivity.
Defined.

(** Reopening a task appends an instruction: the history is kept as a
    prefix and the appended entry becomes the active one, the only one routed,
    and only to the agent it addresses; an empty message is replaced by the
    default. *)
Theorem AppendInstruction_routes existing inst agent :
  agent ≠ "" →
  Active (AppendInstruction existing inst) = Some inst ∧
  take (length existing) (AppendInstruction existing inst) = existing ∧
  FilterInstructions (AppendInstruction existing inst) agent =
    (if bool_decide (Agent inst = agent) then
       [{| RRole := IName inst; RAgent := agent; RName := IName inst;
           RMessage := if str_empty (Message inst) then defaultInstructionMessage else Message inst;
           RModel := Model inst |}]
     else []).
Proof.
  intros Hne. unfold Active, AppendInstruction, FilterInstructions, resolveMessage.
  rewrite last_snoc, take_app_length. rewrite (proj2 (str_empty_false agent) Hne).
  split_and!; [done..|]. case_bool_decide; [by subst|done].
Qed.

Lemma AppendInstruction_routes_witness :
  FilterInstructions (AppendInstruction [] {| Agent := "codex"; IName := "main"; Message := ""; Model := "" |}) "codex" =
  [{| RRole := "main"; RAgent := "codex"; RName := "main"; RMessage := defaultInstructionMessage; RModel := "" |}].
Proof.
  destruct (AppendInstruction_routes [] {| Agent := "codex"; IName := "main"; Message := ""; Model := "" |} "codex")
    as (_ & _ & H); [discriminate|]. rewrite H. vm_compute. reflexivity.
Defined.
