(* ===== verification/Machine.v ===== *)
(** * The two state machines

    Models internal/orchestrator/machine.go, machine_execution.go and
    machine_card.go, and internal/api/machine_select.go.  A machine is a list
    of rules; [Apply] takes the first action rule that matches, [AdvanceFull]
    the first condition rule whose condition holds.  Rules keep the strings of
    the source: "*" in [FromStatus] matches any status and "" in [ToStatus]
    leaves the status alone. *)
From S2P Require Import Prelude Json Payload Task.

Record Rule : Type := {
  RuleAction : string;
  FromStatus : string;
  ToStatus : string;
  Condition : option (raw → bool);
  Manual : bool;
  ActionPayloadFn : option (raw → raw);
}.

Record AdvanceOutcome : Type := {
  OTask : Task;
  ActionPayload : option raw;
}.

Record StateMachine : Type := {
  MName : string;
  Rules : list Rule;
}.

Inductive machine_err : Type := ErrNoTransition (action status : string).

(** ** Operations of a machine (machine.go) *)
Definition from_matches (r : Rule) (status : TaskStatus) : bool :=
  bool_decide (FromStatus r = "*") || bool_decide (FromStatus r = status).

Definition action_rule (r : Rule) : bool :=
  match Condition r with None => true | Some _ => false end.

Definition apply_matches (r : Rule) (actionType : string) (status : TaskStatus) : bool :=
  action_rule r && bool_decide (RuleAction r = actionType) && from_matches r status.

Fixpoint apply_rules (rules : list Rule) (task : Task) (actionType : string) : option Task :=
  match rules with
  | [] => None
  | r :: rules =>
      if apply_matches r actionType (Status task) then
        Some (if str_empty (ToStatus r) then task else set_Status task (ToStatus r))
      else apply_rules rules task actionType
  end.

Definition Apply (sm : StateMachine) (task : Task) (action : Action) : outcome machine_err Task :=
  match apply_rules (Rules sm) task (AType action) with
  | Some t => Ok t
  | None => Err (ErrNoTransition (AType action) (Status task))
  end.

Fixpoint advance_rules (rules : list Rule) (task : Task) (payload : raw) : option AdvanceOutcome :=
  match rules with
  | [] => None
  | r :: rules =>
      match Condition r with
      | None => advance_rules rules task payload
      | Some cond =>
          if negb (from_matches r (Status task)) then advance_rules rules task payload
          else if cond payload then
            Some {| OTask := set_Status task (ToStatus r);
                    ActionPayload := (λ f, f payload) <$> ActionPayloadFn r |}
          else advance_rules rules task payload
      end
  end.

Definition AdvanceFull (sm : StateMachine) (task : Task) : option AdvanceOutcome :=
  match Exec task with
  | None => None
  | Some e => advance_rules (Rules sm) task (Payload e)
  end.

Definition Advance (sm : StateMachine) (task : Task) : option Task :=
  OTask <$> AdvanceFull sm task.

Definition available_rule (r : Rule) (status : TaskStatus) : bool :=
  action_rule r && Manual r && from_matches r status
  && negb (str_empty (ToStatus r)) && negb (bool_decide (ToStatus r = status)).

(** The loop of [AvailableActions]; its [seen] set is the set of actions
    already appended. *)
Definition AvailableActions (sm : StateMachine) (status : TaskStatus) : list string :=
  foldl (λ actions r,
           if available_rule r status then
             if bool_decide (RuleAction r ∈ actions) then actions else actions ++ [RuleAction r]
           else actions) [] (Rules sm).

(** [strings.Join(available, ", ")]. *)
Fixpoint join_comma (l : list string) : string :=
  match l with
  | [] => ""
  | [x] => x
  | x :: l => x +:+ ", " +:+ join_comma l
  end.

Definition AvailableActionsHint (sm : StateMachine) (status : TaskStatus) : string :=
  match AvailableActions sm status with
  | [] => "status=" +:+ status +:+ " has no further transitions available"
  | available => "from status=" +:+ status +:+ " you can apply: " +:+ join_comma available
  end.

Definition CanApplyManualAction (sm : StateMachine) (actionType : string) (status : TaskStatus) : bool :=
  existsb (λ r, action_rule r && Manual r && bool_decide (RuleAction r = actionType)
                && from_matches r status) (Rules sm).

Definition CanApplyTransitionAction (sm : StateMachine) (actionType : string) (status : TaskStatus) : bool :=
  existsb (λ r, action_rule r && Manual r && negb (str_empty (ToStatus r))
                && bool_decide (RuleAction r = actionType) && from_matches r status) (Rules sm).

Definition IsManualAction (sm : StateMachine) (actionType : string) : bool :=
  existsb (λ r, bool_decide (RuleAction r = actionType) && Manual r) (Rules sm).

(** ** The execution machine (machine_execution.go) *)
Definition manual (action from to : string) : Rule :=
  {| RuleAction := action; FromStatus := from; ToStatus := to; Condition := None;
     Manual := true; ActionPayloadFn := None |}.
Definition recorded (action from to : string) : Rule :=
  {| RuleAction := action; FromStatus := from; ToStatus := to; Condition := None;
     Manual := false; ActionPayloadFn := None |}.
Definition auto (from to : string) (cond : raw → bool) (fn : option (raw → raw)) : Rule :=
  {| RuleAction := ""; FromStatus := from; ToStatus := to; Condition := Some cond;
     Manual := false; ActionPayloadFn := fn |}.

(** [json.Marshal(map[string]string{"message": msg})]. *)
Definition message_payload (msg : string) : raw := RText true (JObj [("message", JStr msg)]).

Definition CardMachineName : string := "card".
Definition ExecutionMachineName : string := "execution".

Definition NewExecutionMachine : StateMachine :=
  {| MName := ExecutionMachineName;
     Rules :=
       [ manual "start" "pending" "executing";
         manual "done" "executing" "done";
         manual "done" "awaiting" "done";
         manual "fail" "executing" "aborted";
         manual "reopen" "done" "executing";
         manual "reopen" "aborted" "executing";
         manual "ask" "executing" "awaiting";
         manual "answer" "awaiting" "executing";
         manual "abort" "pending" "aborted";
         manual "abort" "executing" "aborted";
         manual "abort" "awaiting" "aborted";
         manual "abort" "done" "aborted";
         manual "abort" "aborted" "aborted";
         recorded "child_dispatched" "*" "";
         recorded "child_closed" "*" "";
         recorded "job_failed" "*" "aborted";
         recorded "progress" "*" "";
         recorded "done_request" "*" "";
         recorded "fail_request" "*" "";
         auto "executing" "aborted"
           (λ p, TraitBool p "lifecycle.executed" && TraitExists p "lifecycle.fail")
           (Some (λ p, message_payload (default "" (TraitGetString p "lifecycle.fail.message"))));
         auto "executing" "done"
           (λ p, TraitBool p "lifecycle.executed" && TraitExists p "lifecycle.done")
           (Some (λ p, message_payload (default "" (TraitGetString p "lifecycle.done.message"))));
         auto "executing" "done" (λ p, TraitBool p "lifecycle.executed") None ] |}.

(** ** The card machine (machine_card.go) *)
Definition cardActiveStatuses : list string := ["parked"; "working"].
Definition cardActiveAndDroppedStatuses : list string := ["parked"; "working"; "dropped"].
Definition cardActiveAndTerminalStatuses : list string := ["parked"; "working"; "done"; "dropped"].

Definition NewCardMachine : StateMachine :=
  {| MName := CardMachineName;
     Rules :=
       [ manual "go" "parked" "working";
         manual "go" "working" "working";
         manual "start" "parked" "working";
         manual "drop" "parked" "dropped";
         manual "complete" "parked" "done";
         manual "park" "working" "parked";
         manual "complete" "working" "done";
         manual "reopen" "done" "parked";
         manual "reopen" "dropped" "parked";
         recorded "wake_due" "*" "";
         recorded "child_dispatched" "*" "";
         recorded "child_closed" "*" "";
         recorded "progress" "*" "";
         recorded "done_request" "*" "";
         recorded "fail_request" "*" "";
         recorded ActionTypeCommandFinished "*" "";
         recorded ActionTypeCommandFailed "*" "";
         recorded ActionTypeCommandForceReleased "*" "";
         recorded ActionTypeCardCreated "*" "";
         recorded ActionTypeCardEdited "*" "";
         recorded ActionTypeIdentityLinked "*" "";
         recorded ActionTypeIdentityUnlinked "*" "" ]
       ++ ((λ status, manual "attrs_set" status "") <$> cardActiveAndDroppedStatuses)
       ++ (action ← ["child_added"; "child_specced"];
           (λ status, manual action status "") <$> cardActiveAndDroppedStatuses)
       ++ ((λ status, manual "child_dropped" status "") <$> cardActiveStatuses)
       ++ (action ← ["noted"; "answered"];
           (λ status, manual action status "") <$> cardActiveAndTerminalStatuses) |}.

(** The keys of the map [deriveCardTransitionActions] builds. *)
Definition deriveCardTransitionActions : list string :=
  omap (λ r, if Manual r && negb (str_empty (ToStatus r)) then Some (RuleAction r) else None)
       (Rules NewCardMachine).

Definition IsCardTransitionAction (actionType : string) : bool :=
  bool_decide (actionType ∈ deriveCardTransitionActions).

Definition legacyCardVerbAliases : list (string * string) :=
  [("working", "start"); ("done", "complete")].

Definition NormalizeCardVerb (verb : string) : string :=
  match list_find (λ kv, kv.1 = verb) legacyCardVerbAliases with
  | Some (_, (_, current)) => current
  | None => verb
  end.

(** ** Machine selection (internal/api/machine_select.go) *)
Definition machineFor (task : Task) : StateMachine :=
  match Type_ task with TaskTypeCard => NewCardMachine | TaskTypeExecution => NewExecutionMachine end.

(** ** General lemmas: what a rule table says about [Apply] *)
Lemma apply_rules_inv rules t a t' :
  apply_rules rules t a = Some t' →
  ∃ r, r ∈ rules ∧ apply_matches r a (Status t) = true ∧
       t' = if str_empty (ToStatus r) then t else set_Status t (ToStatus r).
Proof.
  induction rules as [|r rules IH]; simpl; [done|].
  destruct (apply_matches r a (Status t)) eqn:E.
  - intros [= <-]. exists r. split_and!; [by left|done..].
  - intros H. destruct (IH H) as (r' & Hr & ?). exists r'. split; [by right|done].
Qed.

Lemma apply_rules_complete rules t a r :
  r ∈ rules → apply_matches r a (Status t) = true → is_Some (apply_rules rules t a).
Proof.
  intros Hr E. induction rules as [|r' rules IH]; [by apply not_elem_of_nil in Hr|]. simpl.
  destruct (apply_matches r' a (Status t)) eqn:E'; [eauto|].
  apply elem_of_cons in Hr as [->|Hr]; [congruence|auto].
Qed.

Lemma Apply_Ok sm t a t' :
  Apply sm t a = Ok t' ↔ apply_rules (Rules sm) t (AType a) = Some t'.
Proof. unfold Apply. destruct (apply_rules _ _ _); naive_solver. Qed.

Lemma set_Status_same t : set_Status t (Status t) = t.
Proof. by destruct t. Qed.

Lemma from_matches_spec r s :
  from_matches r s = true ↔ FromStatus r = "*" ∨ FromStatus r = s.
Proof. unfold from_matches. by rewrite orb_true_iff, !bool_decide_eq_true. Qed.

Lemma apply_matches_spec r a s :
  apply_matches r a s = true ↔
  action_rule r = true ∧ RuleAction r = a ∧ (FromStatus r = "*" ∨ FromStatus r = s).
Proof.
  unfold apply_matches. rewrite !andb_true_iff, bool_decide_eq_true, from_matches_spec. tauto.
Qed.

(** Two action rules for the same action that can match the same status lead
    to the same place. *)
Definition compatible (r1 r2 : Rule) : bool :=
  negb (action_rule r1 && action_rule r2 && bool_decide (RuleAction r1 = RuleAction r2)
        && (bool_decide (FromStatus r1 = FromStatus r2) || bool_decide (FromStatus r1 = "*")
            || bool_decide (FromStatus r2 = "*")))
  || bool_decide (ToStatus r1 = ToStatus r2).
Definition deterministic (sm : StateMachine) : bool :=
  forallb (λ r1, forallb (compatible r1) (Rules sm)) (Rules sm).

Lemma deterministic_rule sm t a r :
  deterministic sm = true → r ∈ Rules sm → apply_matches r a (Status t) = true →
  apply_rules (Rules sm) t a =
    Some (if str_empty (ToStatus r) then t else set_Status t (ToStatus r)).
Proof.
  intros Hd Hr Hm. destruct (apply_rules_complete _ t a r Hr Hm) as [t' Ht'].
  rewrite Ht'. destruct (apply_rules_inv _ _ _ _ Ht') as (r' & Hr' & Hm' & ->). do 2 f_equal.
  unfold deterministic in Hd. rewrite forallb_forall in Hd.
  specialize (Hd r' (proj1 (list_elem_of_In _ _) Hr')). rewrite forallb_forall in Hd.
  specialize (Hd r (proj1 (list_elem_of_In _ _) Hr)).
  apply apply_matches_spec in Hm as (A1 & A2 & A3). apply apply_matches_spec in Hm' as (B1 & B2 & B3).
  assert (ToStatus r' = ToStatus r) as ->; [|done].
  unfold compatible in Hd. rewrite A1, B1 in Hd. simpl in Hd.
  repeat case_bool_decide; try done; simpl in *; destruct A3, B3; congruence.
Qed.

Lemma execution_deterministic : deterministic NewExecutionMachine = true.
Proof. vm_compute. reflexivity. Qed.
Lemma card_deterministic : deterministic NewCardMachine = true.
Proof. vm_compute. reflexivity. Qed.

Lemma AvailableActions_elem sm s a :
  a ∈ AvailableActions sm s ↔ ∃ r, r ∈ Rules sm ∧ available_rule r s = true ∧ RuleAction r = a.
Proof.
  unfold AvailableActions.
  assert (∀ rules acc, a ∈ foldl (λ actions r, if available_rule r s then
      if bool_decide (RuleAction r ∈ actions) then actions else actions ++ [RuleAction r]
      else actions) acc rules ↔
    a ∈ acc ∨ ∃ r, r ∈ rules ∧ available_rule r s = true ∧ RuleAction r = a) as H.
  { induction rules as [|r rules IH]; intros acc; simpl.
    - split; [by left|]. intros [?|(r & Hr & _)]; [done|]. by apply not_elem_of_nil in Hr.
    - rewrite IH. setoid_rewrite elem_of_cons. split.
      + intros [Hin|(r' & ? & ?)]; [|naive_solver]. destruct (available_rule r s) eqn:E; [|by left].
        case_bool_decide; [by left|]. apply elem_of_app in Hin as [?| ->%list_elem_of_singleton]; naive_solver.
      + intros [Hin|(r' & [->|Hr'] & Ha & <-)].
        * left. destruct (available_rule r s); [|done]. case_bool_decide; [done|]. apply elem_of_app; by left.
        * left. rewrite Ha. case_bool_decide; [done|]. apply elem_of_app; right. by left.
        * right. eauto. }
  rewrite H. split; [|eauto]. intros [Hin|?]; [by apply not_elem_of_nil in Hin|done].
Qed.

(** Checking a property of every rule of a concrete table by computation. *)
Lemma rules_forall (p : Rule → bool) rules r : forallb p rules = true → r ∈ rules → p r = true.
Proof. intros H Hr. rewrite forallb_forall in H. by apply H, list_elem_of_In. Qed.

(** ** Runs of a machine *)
Inductive sm_step (sm : StateMachine) : Task → Task → Prop :=
| step_apply t a t' : Apply sm t a = Ok t' → sm_step sm t t'
| step_advance t o : AdvanceFull sm t = Some o → sm_step sm t (OTask o).

Definition executionStatuses : list TaskStatus :=
  ["pending"; "executing"; "awaiting"; "done"; "aborted"].

(** Every rule of the table leads to one of the given statuses or nowhere. *)
Definition targets_in (l : list TaskStatus) (r : Rule) : bool :=
  str_empty (ToStatus r) && action_rule r || bool_decide (ToStatus r ∈ l).

Lemma advance_rules_inv rules t p o :
  advance_rules rules t p = Some o → ∃ r, r ∈ rules ∧ action_rule r = false ∧ OTask o = set_Status t (ToStatus r).
Proof.
  induction rules as [|r rules IH]; simpl; [done|].
  destruct (Condition r) as [c|] eqn:Ec.
  - destruct (from_matches r (Status t)); simpl; [destruct (c p)|].
    1: intros [= <-]; exists r; unfold action_rule; rewrite Ec; split_and!; [by left|done..].
    all: intros H; destruct (IH H) as (r' & Hr' & ?); exists r'; split; [by right|done].
  - intros H. destruct (IH H) as (r' & Hr' & ?). exists r'. split; [by right|done].
Qed.

Lemma sm_step_target sm l t t' :
  forallb (targets_in l) (Rules sm) = true → sm_step sm t t' →
  t' = t ∨ ∃ s, s ∈ l ∧ t' = set_Status t s.
Proof.
  intros Hall Hstep. destruct Hstep as [t a t' H|t o H].
  - apply Apply_Ok, apply_rules_inv in H as (r & Hr & _ & ->).
    pose proof (rules_forall _ _ _ Hall Hr) as Hp. unfold targets_in in Hp.
    destruct (str_empty (ToStatus r)) eqn:E; [by left|]. right. simpl in Hp.
    apply bool_decide_eq_true in Hp. eauto.
  - unfold AdvanceFull in H. destruct (Exec t) as [e|]; [|done].
    apply advance_rules_inv in H as (r & Hr & Hc & Ho). rewrite Ho.
    pose proof (rules_forall _ _ _ Hall Hr) as Hp. unfold targets_in in Hp.
    rewrite Hc, andb_false_r in Hp. simpl in Hp. apply bool_decide_eq_true in Hp. right. eauto.
Qed.

Lemma sm_run_status sm l t t' :
  forallb (targets_in l) (Rules sm) = true → Status t ∈ l → rtc (sm_step sm) t t' →
  ∃ s, s ∈ l ∧ t' = set_Status t s.
Proof.
  intros Hall Hin Hrun. revert Hin.
  induction Hrun as [t|t t1 t2 Hstep Hrun IH]; intros Hin.
  - exists (Status t). split; [done|]. by rewrite set_Status_same.
  - destruct (sm_step_target _ _ _ _ Hall Hstep) as [->|(s & Hs & ->)]; [by apply IH|].
    destruct (IH Hs) as (s' & Hs' & ->). exists s'. split; [done|]. by destruct t.
Qed.

(** The two lifecycles are closed and never reach each other: along every
    run of its machine (any actions, any automatic advances) a card stays in
    parked/working/done/dropped and an execution task in
    pending/executing/awaiting/done/aborted, and nothing but the status of the
    task changes. *)
Theorem machine_runs_stay_in_lifecycle t t' :
  Status t ∈ (match Type_ t with TaskTypeCard => cardActiveAndTerminalStatuses
                               | TaskTypeExecution => executionStatuses end) →
  rtc (sm_step (machineFor t)) t t' →
  ∃ s, s ∈ (match Type_ t with TaskTypeCard => cardActiveAndTerminalStatuses
                             | TaskTypeExecution => executionStatuses end) ∧
       t' = set_Status t s.
Proof.
  unfold machineFor. destruct (Type_ t); apply sm_run_status; vm_compute; reflexivity.
Qed.

Definition sample_task (type : TaskType) (status : TaskStatus) (exec : option ExecAttrs) : Task :=
  {| ID := "01234567-task"; Type_ := type; ProjectID := "p"; WorkspaceID := "w"; RemoteID := ""; Title := "t";
     Description := ""; Status := status; Ref := ""; ParentID := ""; IdempotencyKey := ""; CreatedAt := 0%Z;
     UpdatedAt := 0%Z; Card := None; Exec := exec |}.
Definition sample_action (type : string) : Action :=
  {| AID := "a"; ATaskID := "01234567-task"; AType := type; APayload := REmpty; AFromStatus := ""; AToStatus := "";
     ACreatedAt := 0%Z; Actor := ActorHuman |}.

Lemma machine_runs_stay_in_lifecycle_witness :
  ∃ s, s ∈ cardActiveAndTerminalStatuses ∧
    sample_task TaskTypeCard "working" None = set_Status (sample_task TaskTypeCard "parked" None) s.
Proof.
  apply (machine_runs_stay_in_lifecycle (sample_task TaskTypeCard "parked" None)
           (sample_task TaskTypeCard "working" None)).
  - left.
  - apply rtc_once. apply (step_apply _ _ (sample_action "go")). vm_compute. reflexivity.
Defined.

(** The nine edges of the card lifecycle, as tabulated in machine_card.go. *)
Definition card_edges : list (string * TaskStatus * TaskStatus) :=
  [("go", "parked", "working"); ("go", "working", "working"); ("start", "parked", "working");
   ("drop", "parked", "dropped"); ("complete", "parked", "done"); ("park", "working", "parked");
   ("complete", "working", "done"); ("reopen", "done", "parked"); ("reopen", "dropped", "parked")].

(** Only the six card verbs move a card: an action outside
    [IsCardTransitionAction] that the card machine accepts returns the task
    unchanged, and an accepted card verb follows one of the nine edges of the
    documented table.  Refusing the six verbs to non-human actors therefore
    keeps every other actor from changing a card's status. *)
Theorem card_status_moves_only_by_verbs t a t' :
  Apply NewCardMachine t a = Ok t' →
  if IsCardTransitionAction (AType a) then
    ∃ s, (AType a, Status t, s) ∈ card_edges ∧ t' = set_Status t s
  else t' = t.
Proof.
  intros H. apply Apply_Ok, apply_rules_inv in H as (r & Hr & Hm & ->).
  apply apply_matches_spec in Hm as (_ & Ha & Hf). rewrite <- Ha.
  assert (forallb (λ r, if IsCardTransitionAction (RuleAction r) then
      negb (bool_decide (FromStatus r = "*")) && negb (str_empty (ToStatus r)) &&
      bool_decide ((RuleAction r, FromStatus r, ToStatus r) ∈ card_edges)
    else str_empty (ToStatus r)) (Rules NewCardMachine) = true) as Hall by (vm_compute; reflexivity).
  pose proof (rules_forall _ _ _ Hall Hr) as Hp. simpl in Hp.
  destruct (IsCardTransitionAction (RuleAction r)).
  - apply andb_true_iff in Hp as [[Hs He]%andb_true_iff Hin].
    apply negb_true_iff, bool_decide_eq_false in Hs. apply negb_true_iff in He. rewrite He.
    apply bool_decide_eq_true in Hin. destruct Hf as [?|<-]; [done|]. eauto.
  - by rewrite Hp.
Qed.

Lemma card_status_moves_only_by_verbs_witness :
  if IsCardTransitionAction "park" then
    ∃ s, ("park", "working", s) ∈ card_edges ∧
      sample_task TaskTypeCard "parked" None = set_Status (sample_task TaskTypeCard "working" None) s
  else sample_task TaskTypeCard "parked" None = sample_task TaskTypeCard "working" None.
Proof.
  apply (card_status_moves_only_by_verbs (sample_task TaskTypeCard "working" None) (sample_action "park")
           (sample_task TaskTypeCard "parked" None)). vm_compute. reflexivity.
Defined.

(** Every edge of the documented card table is available: from each edge's
    source the verb is accepted and leads to the edge's target. *)
Theorem card_edges_all_apply t a verb s :
  (verb, Status t, s) ∈ card_edges → AType a = verb →
  Apply NewCardMachine t a = Ok (set_Status t s).
Proof.
  intros Hin Ha. apply Apply_Ok. rewrite Ha.
  assert (forallb (λ '(v, f, s), existsb (λ r, bool_decide (RuleAction r = v)
      && bool_decide (FromStatus r = f) && bool_decide (ToStatus r = s) && action_rule r
      && negb (str_empty (ToStatus r))) (Rules NewCardMachine)) card_edges = true) as Hall
    by (vm_compute; reflexivity).
  rewrite forallb_forall in Hall. specialize (Hall _ (proj1 (list_elem_of_In _ _) Hin)). cbv beta iota in Hall.
  apply existsb_exists in Hall as (r & Hr & Hp). rewrite !andb_true_iff, !bool_decide_eq_true in Hp.
  destruct Hp as ((((Hv & Hf) & Hs) & Hact) & He). apply negb_true_iff in He.
  rewrite (deterministic_rule _ _ _ r card_deterministic (proj2 (list_elem_of_In _ _) Hr)).
  - by rewrite He, Hs.
  - apply apply_matches_spec. eauto.
Qed.

Lemma card_edges_all_apply_witness :
  Apply NewCardMachine (sample_task TaskTypeCard "parked" None) (sample_action "go") =
    Ok (set_Status (sample_task TaskTypeCard "parked" None) "working").
Proof.
  apply (card_edges_all_apply (sample_task TaskTypeCard "parked" None) (sample_action "go") "go" "working");
    [left|reflexivity].
Defined.

Lemma available_rule_matches r a s :
  available_rule r s = true → RuleAction r = a →
  apply_matches r a s = true ∧ Manual r = true ∧ ToStatus r ≠ "" ∧ ToStatus r ≠ s.
Proof.
  unfold available_rule, apply_matches. rewrite !andb_true_iff, !negb_true_iff.
  rewrite str_empty_false, bool_decide_eq_false, bool_decide_eq_true. tauto.
Qed.

Lemma machineFor_deterministic t : deterministic (machineFor t) = true.
Proof. unfold machineFor. destruct (Type_ t); [apply card_deterministic|apply execution_deterministic]. Qed.

Lemma CanApplyManualAction_spec sm a s :
  CanApplyManualAction sm a s = true ↔
  ∃ r, r ∈ Rules sm ∧ Manual r = true ∧ apply_matches r a s = true.
Proof.
  unfold CanApplyManualAction. rewrite existsb_exists. setoid_rewrite list_elem_of_In.
  unfold apply_matches. setoid_rewrite andb_true_iff. setoid_rewrite andb_true_iff.
  setoid_rewrite andb_true_iff. naive_solver.
Qed.

Lemma CanApplyTransitionAction_spec sm a s :
  CanApplyTransitionAction sm a s = true ↔
  ∃ r, r ∈ Rules sm ∧ Manual r = true ∧ ToStatus r ≠ "" ∧ apply_matches r a s = true.
Proof.
  unfold CanApplyTransitionAction. rewrite existsb_exists. setoid_rewrite list_elem_of_In.
  unfold apply_matches. setoid_rewrite andb_true_iff. setoid_rewrite andb_true_iff.
  setoid_rewrite andb_true_iff. setoid_rewrite andb_true_iff.
  setoid_rewrite negb_true_iff. setoid_rewrite str_empty_false. naive_solver.
Qed.

(** The action buttons are exactly the actions that do something: for a
    task under its own machine, an action is listed by [AvailableActions] iff
    it is a manual action for the current status that [Apply] accepts and that
    changes the status. *)
Theorem AvailableActions_exact t a :
  AType a ∈ AvailableActions (machineFor t) (Status t) ↔
  CanApplyManualAction (machineFor t) (AType a) (Status t) = true ∧
  ∃ t', Apply (machineFor t) t a = Ok t' ∧ Status t' ≠ Status t.
Proof.
  pose proof (machineFor_deterministic t) as Hdet.
  generalize dependent (machineFor t). intros sm Hdet.
  rewrite AvailableActions_elem, CanApplyManualAction_spec. setoid_rewrite Apply_Ok. split.
  - intros (r & Hr & Ha & Hact). destruct (available_rule_matches _ _ _ Ha Hact) as (Hm & Hman & He & Hs).
    split; [eauto|]. rewrite (deterministic_rule _ _ _ _ Hdet Hr Hm).
    rewrite (proj2 (str_empty_false _) He). eexists. split; [done|]. done.
  - intros [(r & Hr & Hman & Hm) (t' & Ht' & Hs)]. exists r. split; [done|].
    rewrite (deterministic_rule _ _ _ _ Hdet Hr Hm) in Ht'. injection Ht' as <-.
    destruct (str_empty (ToStatus r)) eqn:E; [done|]. simpl in Hs.
    apply apply_matches_spec in Hm as (H1 & H2 & H3). split; [|done].
    unfold available_rule. rewrite H1, Hman, E. simpl.
    rewrite (proj2 (from_matches_spec r (Status t)) H3). by rewrite bool_decide_eq_false_2.
Qed.

(** [CanApplyTransitionAction] predicts [Apply] for the card verbs: for each
    of the six verbs it is true exactly when applying the verb to a card in
    that status succeeds. *)
Theorem CanApplyTransitionAction_predicts t a :
  IsCardTransitionAction (AType a) = true →
  CanApplyTransitionAction NewCardMachine (AType a) (Status t) = is_ok (Apply NewCardMachine t a).
Proof.
  intros Hv. apply eq_true_iff_eq. rewrite CanApplyTransitionAction_spec. split.
  - intros (r & Hr & _ & _ & Hm). destruct (apply_rules_complete _ t _ r Hr Hm) as [t' Ht'].
    unfold Apply. by rewrite Ht'.
  - unfold Apply. destruct (apply_rules _ _ _) as [t'|] eqn:E; [|done]. intros _.
    apply apply_rules_inv in E as (r & Hr & Hm & _). exists r.
    apply apply_matches_spec in Hm as Hm'. destruct Hm' as (_ & Ha & _).
    assert (forallb (λ r, negb (IsCardTransitionAction (RuleAction r)) ||
        (Manual r && negb (str_empty (ToStatus r)))) (Rules NewCardMachine) = true) as Hall
      by (vm_compute; reflexivity).
    pose proof (rules_forall _ _ _ Hall Hr) as Hp. simpl in Hp. rewrite Ha, Hv in Hp. simpl in Hp.
    apply andb_true_iff in Hp as [Hman He]. apply negb_true_iff, str_empty_false in He. done.
Qed.

Lemma CanApplyTransitionAction_predicts_witness :
  CanApplyTransitionAction NewCardMachine "reopen" "parked" =
    is_ok (Apply NewCardMachine (sample_task TaskTypeCard "parked" None) (sample_action "reopen")).
Proof.
  apply (CanApplyTransitionAction_predicts (sample_task TaskTypeCard "parked" None) (sample_action "reopen")).
  vm_compute. reflexivity.
Defined.

(** A verb spelled the retired way is accepted as its current name:
    normalization is idempotent, never yields a retired spelling, leaves every
    other action alone, and the retired spellings themselves are not manual
    actions of the card machine. *)
Theorem NormalizeCardVerb_spec verb :
  NormalizeCardVerb (NormalizeCardVerb verb) = NormalizeCardVerb verb ∧
  (NormalizeCardVerb verb ∉ ["working"; "done"]) ∧
  (verb ∉ ["working"; "done"] → NormalizeCardVerb verb = verb) ∧
  (verb ∈ ["working"; "done"] →
     IsCardTransitionAction (NormalizeCardVerb verb) = true ∧ IsManualAction NewCardMachine verb = false).
Proof.
  assert (verb ∈ ["working"; "done"] ∨ NormalizeCardVerb verb = verb ∧ (verb ∉ ["working"; "done"])) as [H|[H Hn]].
  { destruct (decide (verb ∈ ["working"; "done"])) as [?|Hn]; [by left|right]. split; [|done].
    unfold NormalizeCardVerb, legacyCardVerbAliases. simpl.
    rewrite !decide_False by (simpl; set_solver). done. }
  - apply elem_of_cons in H as [->|H%list_elem_of_singleton]; [|subst];
      (split_and!; [by vm_compute|intros Hc; vm_compute in Hc; set_solver|set_solver|by vm_compute]).
  - rewrite H. by split_and!.
Qed.

(** Terminal execution tasks still offer actions, contrary to the comment on
    [AvailableActions]: a done task can be reopened or aborted and an aborted
    one reopened. *)
Theorem AvailableActions_terminal :
  AvailableActions NewExecutionMachine TaskStatusDone = ["reopen"; "abort"] ∧
  AvailableActions NewExecutionMachine TaskStatusAborted = ["reopen"].
Proof. split; vm_compute; reflexivity. Qed.
