(* ===== verification/Lifecycle.v ===== *)
(** * Lifecycle traits

    Models internal/orchestrator/lifecycle.go: the transient [lifecycle] trait
    derived from a task's action history and injected into its payload before
    the execution machine's automatic rules are evaluated. *)
From S2P Require Import Prelude Json Payload Task Machine.

Record AbortReason : Type := { Code : string; AMessage : string }.
#[export] Instance AbortReason_eq_dec : EqDecision AbortReason.
Proof. solve_decision. Defined.

(** [Done] and [Fail] carry the reported message. *)
Record Lifecycle : Type := {
  Executed : bool;
  Done : option string;
  Fail_ : option string;
  Abort_ : option AbortReason;
}.

(** [doneReportFromPayload] and [failReportFromPayload]: the message of the
    report, "" when the payload is blank or does not decode. *)
Definition reportFromPayload (payload : raw) : string :=
  if blank payload then ""
  else match payload with
       | RText _ v => match decode_struct ["message"] v with ([m], true) => m | _ => "" end
       | _ => ""
       end.
Definition doneReportFromPayload (payload : raw) : string := reportFromPayload payload.
Definition failReportFromPayload (payload : raw) : string := reportFromPayload payload.

(** Decoding into [map[string]string]: every member must be a string or null. *)
Definition string_member (m : gmap string json) (k : string) : string :=
  match m !! k with Some (JStr s) => s | _ => "" end.
Definition string_or_null (v : json) : bool :=
  match v with JStr _ | JNull => true | _ => false end.

Definition abortReasonFromPayload (payload : raw) : AbortReason :=
  if blank payload then {| Code := ""; AMessage := "" |}
  else match payload with
       | RText _ (JObj fs) =>
           if forallb (λ x, string_or_null x.2) fs then
             {| Code := string_member (fields_map fs) "code";
                AMessage := string_member (fields_map fs) "message" |}
           else {| Code := ""; AMessage := "" |}
       | _ => {| Code := ""; AMessage := "" |}
       end.

(** One iteration of the loop over the action history. *)
Definition lifecycle_step (lc : Lifecycle) (a : Action) : Lifecycle :=
  let lc :=
    if bool_decide (AToStatus a = TaskStatusExecuting) then
      {| Executed := Executed lc; Done := None; Fail_ := None; Abort_ := Abort_ lc |}
    else lc in
  let lc :=
    if bool_decide (AType a = "done_request") then
      {| Executed := Executed lc; Done := Some (doneReportFromPayload (APayload a));
         Fail_ := None; Abort_ := Abort_ lc |}
    else if bool_decide (AType a = "fail_request") then
      {| Executed := Executed lc; Done := None;
         Fail_ := Some (failReportFromPayload (APayload a)); Abort_ := Abort_ lc |}
    else lc in
  if bool_decide (AToStatus a = TaskStatusAborted) then
    match Abort_ lc with
    | None => {| Executed := Executed lc; Done := Done lc; Fail_ := Fail_ lc;
                 Abort_ := Some (abortReasonFromPayload (APayload a)) |}
    | Some _ => lc
    end
  else lc.

(** The store: [None] is a nil [LifecycleStore], [Some None] a store whose
    read fails, [Some (Some actions)] the task's actions oldest first. *)
Definition DeriveLifecycle (store : option (option (list Action))) (hookExecuted : bool)
    : outcome unit Lifecycle :=
  let lc := {| Executed := hookExecuted; Done := None; Fail_ := None; Abort_ := None |} in
  match store with
  | None => Ok lc
  | Some None => Err ()
  | Some (Some actions) => Ok (foldl lifecycle_step lc actions)
  end.

(** [json.Marshal(lc)] with the field order and [omitempty] tags of the struct. *)
Definition message_obj (m : string) : json := JObj [("message", JStr m)].
Definition marshal_lifecycle (lc : Lifecycle) : json :=
  JObj ([("executed", JBool (Executed lc))]
        ++ (match Done lc with Some m => [("done", message_obj m)] | None => [] end)
        ++ (match Fail_ lc with Some m => [("fail", message_obj m)] | None => [] end)
        ++ (match Abort_ lc with
            | Some r => [("abort", JObj [("code", JStr (Code r)); ("message", JStr (AMessage r))])]
            | None => [] end)).

Definition injectLifecycle (payload : raw) (lc : Lifecycle) : outcome unit raw :=
  match (if len0 payload || is_lit_null payload then Some (Some ∅) else unmarshal_map payload) with
  | None => Ok payload
  | Some m =>
      m ← go_set m "lifecycle" (marshal_lifecycle lc);
      Ok (marshal_map m)
  end.

(** ** Theorems *)

(** Reading the injected block back through dotted paths. *)
Lemma TraitBool_at_nested m h v tail :
  m !! h = Some v →
  TraitBool_at (marshal_map (Some m)) (h :: tail) =
    match tail with [] => json_is_true v | _ => TraitBool_at (nested v) tail end.
Proof. intros Hm. cbn [TraitBool_at]. rewrite unmarshal_marshal. simpl. by rewrite Hm. Qed.

Lemma TraitExists_at_nested m h v tail :
  m !! h = Some v → json_is_null v = false →
  TraitExists_at (marshal_map (Some m)) (h :: tail) =
    match tail with [] => true | _ => TraitExists_at (nested v) tail end.
Proof. intros Hm Hn. cbn [TraitExists_at]. rewrite unmarshal_marshal. simpl. by rewrite Hm, Hn. Qed.

Lemma TraitGetString_at_nested m h v k tail :
  m !! h = Some v →
  TraitGetString_at (marshal_map (Some m)) (h :: k :: tail) = TraitGetString_at (nested v) (k :: tail).
Proof. intros Hm. cbn [TraitGetString_at]. rewrite unmarshal_marshal. simpl. by rewrite Hm. Qed.

Section injected.
Context (m : gmap string json) (lc : Lifecycle).
Let p : raw := marshal_map (Some (<["lifecycle" := marshal_lifecycle lc]> m)).

Lemma injected_executed : TraitBool p "lifecycle.executed" = Executed lc.
Proof.
  unfold TraitBool, p. change (split_dots "lifecycle.executed") with ["lifecycle"; "executed"].
  erewrite TraitBool_at_nested by apply lookup_insert_eq.
  destruct lc as [[] [d|] [f|] [a|]]; vm_compute; reflexivity.
Qed.

Lemma injected_fail : TraitExists p "lifecycle.fail" = bool_decide (is_Some (Fail_ lc)).
Proof.
  unfold TraitExists, p. change (split_dots "lifecycle.fail") with ["lifecycle"; "fail"].
  erewrite TraitExists_at_nested by (apply lookup_insert_eq || done).
  destruct lc as [[] [d|] [f|] [a|]]; vm_compute; reflexivity.
Qed.

Lemma injected_done : TraitExists p "lifecycle.done" = bool_decide (is_Some (Done lc)).
Proof.
  unfold TraitExists, p. change (split_dots "lifecycle.done") with ["lifecycle"; "done"].
  erewrite TraitExists_at_nested by (apply lookup_insert_eq || done).
  destruct lc as [[] [d|] [f|] [a|]]; vm_compute; reflexivity.
Qed.

Lemma injected_fail_message : TraitGetString p "lifecycle.fail.message" = Fail_ lc.
Proof.
  unfold TraitGetString, p. change (split_dots "lifecycle.fail.message") with ["lifecycle"; "fail"; "message"].
  erewrite TraitGetString_at_nested by apply lookup_insert_eq.
  destruct lc as [[] [d|] [f|] [a|]]; vm_compute; reflexivity.
Qed.

Lemma injected_done_message : TraitGetString p "lifecycle.done.message" = Done lc.
Proof.
  unfold TraitGetString, p. change (split_dots "lifecycle.done.message") with ["lifecycle"; "done"; "message"].
  erewrite TraitGetString_at_nested by apply lookup_insert_eq.
  destruct lc as [[] [d|] [f|] [a|]]; vm_compute; reflexivity.
Qed.
End injected.

(** The payloads the injection accepts: anything that decodes to an object,
    and the empty text or "null". *)
Lemma injectLifecycle_spec payload lc m :
  decoded payload = Some m →
  injectLifecycle payload lc = Ok (marshal_map (Some (<["lifecycle" := marshal_lifecycle lc]> m))).
Proof.
  unfold injectLifecycle, decoded, blank. destruct payload as [|b|c v]; simpl.
  - by intros [= <-].
  - done.
  - destruct v as [| | | | |[]], c; simpl; try done; by intros [= <-].
Qed.

(** The outcome of evaluating the automatic rules on a lifecycle block. *)
Definition lifecycle_outcome (lc : Lifecycle) : option (TaskStatus * option raw) :=
  if Executed lc then
    match Fail_ lc, Done lc with
    | Some msg, _ => Some (TaskStatusAborted, Some (message_payload msg))
    | None, Some msg => Some (TaskStatusDone, Some (message_payload msg))
    | None, None => Some (TaskStatusDone, None)
    end
  else None.

Lemma execution_advance_rules t m lc :
  advance_rules (Rules NewExecutionMachine) t
      (marshal_map (Some (<["lifecycle" := marshal_lifecycle lc]> m))) =
    if bool_decide (Status t = TaskStatusExecuting) then
      (λ o, {| OTask := set_Status t o.1; ActionPayload := o.2 |}) <$> lifecycle_outcome lc
    else None.
Proof.
  cbn -[TraitBool TraitExists TraitGetString marshal_map bool_decide String.eq_dec].
  unfold from_matches. cbn -[TraitBool TraitExists TraitGetString marshal_map bool_decide].
  rewrite injected_executed, injected_fail, injected_done, injected_fail_message, injected_done_message.
  unfold lifecycle_outcome, TaskStatusExecuting.
  rewrite (bool_decide_eq_false_2 ("executing" = "*")) by done. cbn [orb].
  rewrite (bool_decide_ext ("executing" = Status t) (Status t = "executing")) by done.
  destruct (bool_decide (Status t = "executing")); [|done]. cbn [negb].
  destruct (Executed lc), (Fail_ lc), (Done lc); cbn; done.
Qed.

Lemma Exec_set_Payload t e p : Exec t = Some e → Exec (set_Payload t p) = Some (set_ExecPayload e p).
Proof. intros He. unfold set_Payload. simpl. by rewrite He. Qed.

(** What a finished hook does to its task: with the lifecycle block injected
    into a decodable payload, the execution machine advances an executing task
    exactly when the hook ran, to aborted with the reported message if the
    agent reported failure, else to done, carrying the done message when there
    is one; a task in any other status is never advanced. *)
Theorem injected_lifecycle_decides t e lc m :
  Exec t = Some e → decoded (Payload e) = Some m →
  ∃ p, injectLifecycle (Payload e) lc = Ok p ∧
    AdvanceFull NewExecutionMachine (set_Payload t p) =
      if bool_decide (Status t = TaskStatusExecuting) then
        (λ o, {| OTask := set_Status (set_Payload t p) o.1; ActionPayload := o.2 |})
          <$> lifecycle_outcome lc
      else None.
Proof.
  intros He Hd. rewrite (injectLifecycle_spec _ lc _ Hd). eexists. split; [done|].
  unfold AdvanceFull. erewrite Exec_set_Payload by done. cbn [Payload set_ExecPayload].
  by rewrite execution_advance_rules.
Qed.

Lemma injected_lifecycle_decides_witness :
  ∃ p o, AdvanceFull NewExecutionMachine
           (set_Payload (sample_task TaskTypeExecution "executing" (Some sample_exec)) p) = Some o ∧
    Status (OTask o) = TaskStatusDone.
Proof.
  destruct (injected_lifecycle_decides (sample_task TaskTypeExecution "executing" (Some sample_exec)) sample_exec
    {| Executed := true; Done := None; Fail_ := None; Abort_ := None |} _ eq_refl eq_refl) as (p & _ & Ha).
  exists p. eexists. split; [exact Ha|reflexivity].
Defined.

(** The intent that counts, read from the newest action backwards: the last
    done/fail request not followed by another action with to_status executing. *)
Inductive intent : Type := IDone (msg : string) | IFail (msg : string).
Fixpoint last_intent (newest_first : list Action) : option intent :=
  match newest_first with
  | [] => None
  | a :: older =>
      if bool_decide (AType a = "done_request") then Some (IDone (reportFromPayload (APayload a)))
      else if bool_decide (AType a = "fail_request") then Some (IFail (reportFromPayload (APayload a)))
      else if bool_decide (AToStatus a = TaskStatusExecuting) then None
      else last_intent older
  end.

Definition reports (lc : Lifecycle) : option string * option string := (Done lc, Fail_ lc).
Definition intent_reports (i : option intent) : option string * option string :=
  match i with
  | Some (IDone m) => (Some m, None)
  | Some (IFail m) => (None, Some m)
  | None => (None, None)
  end.

Lemma lifecycle_step_reports lc a :
  reports (lifecycle_step lc a) =
    if bool_decide (AType a = "done_request") then (Some (reportFromPayload (APayload a)), None)
    else if bool_decide (AType a = "fail_request") then (None, Some (reportFromPayload (APayload a)))
    else if bool_decide (AToStatus a = TaskStatusExecuting) then (None, None)
    else reports lc.
Proof.
  unfold lifecycle_step, reports.
  destruct (bool_decide (AToStatus a = TaskStatusExecuting)), (bool_decide (AType a = "done_request")),
    (bool_decide (AType a = "fail_request")), (bool_decide (AToStatus a = TaskStatusAborted));
    simpl; destruct (Abort_ lc); done.
Qed.

Lemma lifecycle_fold_executed lc actions : Executed (foldl lifecycle_step lc actions) = Executed lc.
Proof.
  revert lc. induction actions as [|a actions IH]; intros lc; simpl; [done|]. rewrite IH.
  unfold lifecycle_step. repeat case_match; done.
Qed.

Lemma lifecycle_fold_reports lc actions :
  (Done lc, Fail_ lc) = (None, None) →
  reports (foldl lifecycle_step lc actions) = intent_reports (last_intent (reverse actions)).
Proof.
  intros H0. induction actions as [|a actions IH] using rev_ind; [done|].
  rewrite foldl_app, reverse_app, reverse_singleton. simpl. rewrite lifecycle_step_reports.
  repeat case_match; done.
Qed.

(** The lifecycle derived from an action history: [executed] is the hook
    flag; done and fail reflect exactly the last done/fail request, unless some
    other action with to_status executing was logged after it.  So they exclude
    each other, an intent recorded before a reopen does not reach the next
    cycle, and neither does one followed by a progress note. *)
Theorem DeriveLifecycle_last_intent actions hookExecuted :
  ∃ lc, DeriveLifecycle (Some (Some actions)) hookExecuted = Ok lc ∧
    Executed lc = hookExecuted ∧
    (Done lc, Fail_ lc) = intent_reports (last_intent (reverse actions)).
Proof.
  eexists. split; [done|]. split; [by rewrite lifecycle_fold_executed|].
  by apply (lifecycle_fold_reports).
Qed.

(** A reopened task starts clean: requests recorded before the action that
    re-entered executing have no effect, whatever follows it. *)
Theorem reopen_clears_intent before a after hookExecuted lc lc' :
  AToStatus a = TaskStatusExecuting →
  DeriveLifecycle (Some (Some (before ++ a :: after))) hookExecuted = Ok lc →
  DeriveLifecycle (Some (Some (a :: after))) hookExecuted = Ok lc' →
  Done lc = Done lc' ∧ Fail_ lc = Fail_ lc'.
Proof.
  intros Ha [= <-] [= <-].
  assert (∀ l, last_intent (reverse after ++ a :: l) = last_intent (reverse after ++ [a])) as Hl.
  { intros l. induction (reverse after) as [|x l' IH]; simpl.
    - rewrite Ha, (bool_decide_eq_true_2 (TaskStatusExecuting = _)) by done. done.
    - by rewrite IH. }
  pose proof (lifecycle_fold_reports (Build_Lifecycle hookExecuted None None None)
                (before ++ a :: after) eq_refl) as H1.
  pose proof (lifecycle_fold_reports (Build_Lifecycle hookExecuted None None None)
                (a :: after) eq_refl) as H2.
  rewrite reverse_app, reverse_cons, <- app_assoc in H1. rewrite reverse_cons in H2.
  simpl app in H1. rewrite Hl, <- H2 in H1. by injection H1.
Qed.

Definition sample_entry (type to : string) : Action :=
  {| AID := "a"; ATaskID := "01234567-task"; AType := type; APayload := REmpty; AFromStatus := ""; AToStatus := to;
     ACreatedAt := 0%Z; Actor := ActorHuman |}.

Lemma reopen_clears_intent_witness :
  ∃ lc, DeriveLifecycle (Some (Some [sample_entry "fail_request" ""; sample_entry "reopen" "executing"])) true = Ok lc ∧
    Fail_ lc = None.
Proof.
  eexists. split; [reflexivity|].
  destruct (reopen_clears_intent [sample_entry "fail_request" ""] (sample_entry "reopen" "executing") [] true _ _
    eq_refl eq_refl eq_refl) as [_ Hf]. refine (eq_trans Hf _). vm_compute. reflexivity.
Defined.
