(* ===== verification/Coordinator.v ===== *)
(** * Hook evaluation and the dispatch cycle

    Models internal/orchestrator/evaluator.go, coordinator.go, types.go and
    the hook types of spec_types.go: which hooks fire for a task, running them
    (one after another, or all at once for a readonly task), folding their
    payload patches, and the automatic advance that follows.

    Launching a hook and waiting for its job belong to the dispatcher; they
    are the operations of the class [HookRuntime], an oracle per event and per
    job.  Decoding the YAML a hook prints is [payload_patch_of] of the same
    class (gopkg.in/yaml.v3 is not part of the repository). *)
From S2P Require Import Prelude Json Payload Task Machine Lifecycle.

(** ** Hooks (spec_types.go) *)
Inductive HandlerKind : Type := HandlerKindNone | HandlerKindAgent.
#[export] Instance HandlerKind_eq_dec : EqDecision HandlerKind.
Proof. solve_decision. Defined.

(** [Produces]: [None] is a nil slice, which [MergePayloadPatch] reads as "no
    restriction". *)
Record Hook : Type := {
  HookID : string;
  HookName : string;
  HookKind : HandlerKind;
  Consumes : list string;
  Produces : option (list string);
  Requires : list string;
  HookAgent : string;
  Kit : string;
  Command : string;
}.

Record HookFireEvent : Type := {
  EventID : string;
  EvTaskID : string;
  EvProjectID : string;
  EvHook : Hook;
}.

Record JobCompletion : Type := {
  CJobID : string;
  Output : string;
  CExitCode : Z;
}.

Inductive Role : Type := RoleHook.

Record HandlerResult : Type := {
  HID : string;
  HRole : Role;
  HJobID : string;
  ExitCode : Z;
  PayloadPatch : raw;
}.

Record FiredEvent : Type := {
  KitID : string;
  HandlerID : string;
  FJobID : string;
  FKind : string;
  SourceState : string;
  Success : bool;
  FErrCode : option Z;
}.

Record DispatchResult : Type := {
  Results : list HandlerResult;
  FiredEvents : list FiredEvent;
  FinalPayload : raw;
  PayloadDelta : raw;
  NewStatus : TaskStatus;
  DActionPayload : option raw;
}.

Record ReplayResult : Type := {
  RResult : option HandlerResult;
  RFinalPayload : raw;
  RPayloadDelta : raw;
  RNewStatus : TaskStatus;
  RFiredEvents : list FiredEvent;
}.

Inductive coord_err : Type :=
| ErrNoExec
| ErrExecuteHook (id : string)
| ErrWaitHook (id : string)
| ErrHookFailed (id : string) (code : Z)
| ErrExclusiveTrait (key prev writer : string)
| ErrBehaviorNotFound
| ErrHookNotFound
| ErrHookNotMatched.

(** What the coordinator asks of the dispatcher; [None] is an error. *)
Class HookRuntime : Type := {
  ExecuteHook : HookFireEvent → option string;
  WaitForJob : string → option JobCompletion;
  payload_patch_of : string → option raw;
}.

(** A project's behaviors by name, with their hooks; [None] is a nil
    [ProjectMeta]. *)
Abbreviation ProjectMeta := (option (gmap string (list Hook))).

(** ** Evaluator (evaluator.go, planner.go) *)
Definition harnessTypeForAgent (agent : string) : string :=
  if bool_decide (agent = "claude-code") then "claude"
  else if bool_decide (agent = "codex") then "codex"
  else if bool_decide (agent = "opencode") then "opencode"
  else "shell".

Definition extractInstructionAgents (instructions : Instructions) : list string :=
  Agent <$> instructions.

Definition hasAllTraits (set required : list string) : bool :=
  forallb (λ t, IsOptional t || bool_decide (t ∈ set)) required.

Definition synthesizeAgentHook (task : Task) : option Hook :=
  match Exec task with
  | None => None
  | Some e =>
      match last (TInstructions e) with
      | None => None
      | Some active =>
          if str_empty (Agent active) then None
          else if bool_decide (harnessTypeForAgent (Agent active) = "shell") then None
          else Some {| HookID := "agent:" +:+ Agent active; HookName := Agent active;
                       HookKind := HandlerKindAgent; Consumes := []; Produces := None;
                       Requires := []; HookAgent := Agent active; Kit := ""; Command := "" |}
      end
  end.

Definition hook_matches (traitSet agents : list string) (h : Hook) : bool :=
  hasAllTraits traitSet (Consumes h)
  && match HookKind h with
     | HandlerKindAgent => negb (str_empty (HookAgent h)) && bool_decide (HookAgent h ∈ agents)
     | HandlerKindNone => true
     end.

Definition is_agent_hook (h : Hook) : bool := bool_decide (HookKind h = HandlerKindAgent).

Definition Evaluate (task : Task) (hooks : list Hook) : list Hook :=
  match Exec task with
  | None => []
  | Some e =>
      if negb (bool_decide (Status task = TaskStatusExecuting)) then []
      else
        let traitSet := default [] (ActiveTraitTypes (Payload e)) in
        let agents := extractInstructionAgents (TInstructions e) in
        let matched := filter (λ h, hook_matches traitSet agents h = true) hooks in
        if existsb is_agent_hook hooks then matched
        else matched ++ option_list (synthesizeAgentHook task)
  end.

(** ** Coordinator (coordinator.go) *)
Definition lookupBehavior (meta : ProjectMeta) (task : Task) : option (list Hook) :=
  match meta, Exec task with
  | Some behaviors, Some e => behaviors !! Behavior e
  | _, _ => None
  end.

Definition taskBehaviorName (task : Task) : string :=
  match Exec task with Some e => Behavior e | None => "" end.

(** [s[:8]], which panics on a shorter string. *)
Definition prefix8 (s : string) : outcome coord_err string :=
  if (String.length s <? 8)%nat then Panic else Ok (String.substring 0 8 s).

Definition fire_event (task : Task) (h : Hook) : outcome coord_err HookFireEvent :=
  p ← prefix8 (ID task);
  Ok {| EventID := "evt-" +:+ p +:+ "-" +:+ HookID h; EvTaskID := ID task;
        EvProjectID := ProjectID task; EvHook := h |}.

Definition allowedTraits (hr : HandlerResult) (hooks : list Hook) : option (list string) :=
  match list_find (λ h, HookID h = HID hr) hooks with
  | Some (_, h) => Produces h
  | None => None
  end.

Definition buildFiredEvent (hr : HandlerResult) (kind sourceState : string) (hooks : list Hook) : FiredEvent :=
  {| KitID := match list_find (λ h, HookID h = HID hr) hooks with
              | Some (_, h) => Kit h
              | None => ""
              end;
     HandlerID := HID hr; FJobID := HJobID hr; FKind := kind; SourceState := sourceState;
     Success := bool_decide (ExitCode hr = 0%Z);
     FErrCode := if bool_decide (ExitCode hr = 0%Z) then None else Some (ExitCode hr) |}.

Definition collision_entry (writerID : string) (writers : gmap string string) (kv : string * json)
    : outcome coord_err (gmap string string) :=
  let '(key, _) := kv in
  match TraitMergeMode key with
  | MergeModeShared => Ok writers
  | MergeModeExclusive =>
      match writers !! key with
      | Some prev => Err (ErrExclusiveTrait key prev writerID)
      | None => Ok (<[key := writerID]> writers)
      end
  end.

(** The writers map is updated in place by the source; it is returned here. *)
Definition checkExclusiveCollision (patch : raw) (writerID : string) (writers : gmap string string)
    : outcome coord_err (gmap string string) :=
  if blank patch then Ok writers
  else match unmarshal_map patch with
       | None => Ok writers
       | Some m => mfold (collision_entry writerID) writers (map_to_list (default ∅ m))
       end.

Definition hasHookResult (results : list HandlerResult) : bool :=
  existsb (λ hr, match HRole hr with RoleHook => true end) results.

Section coordinator.
Context `{HookRuntime}.

Definition parseHandlerResult (id : string) (c : JobCompletion) : HandlerResult :=
  {| HID := id; HRole := RoleHook; HJobID := CJobID c; ExitCode := CExitCode c;
     PayloadPatch := if str_empty (Output c) then REmpty
                     else default REmpty (payload_patch_of (Output c)) |}.

(** Results are returned together with the error, as in the source. *)
Abbreviation dispatched := (list HandlerResult * option coord_err)%type.

Fixpoint dispatchSequential (task : Task) (results : list HandlerResult) (hooks : list Hook)
    : outcome coord_err dispatched :=
  match hooks with
  | [] => Ok (results, None)
  | h :: hooks =>
      event ← fire_event task h;
      match ExecuteHook event with
      | None => Ok (results, Some (ErrExecuteHook (HookID h)))
      | Some jobID =>
          match WaitForJob jobID with
          | None => Ok (results, Some (ErrWaitHook (HookID h)))
          | Some completion =>
              let hr := parseHandlerResult (HookID h) completion in
              if bool_decide (ExitCode hr = 0%Z)
              then dispatchSequential task (results ++ [hr]) hooks
              else Ok (results ++ [hr], Some (ErrHookFailed (HookID h) (ExitCode hr)))
          end
      end
  end.

(** Launching: the jobs in hook order, or the first launch error. *)
Fixpoint launch_all (task : Task) (hooks : list Hook)
    : outcome coord_err (list (string * string)) :=
  match hooks with
  | [] => Ok []
  | h :: hooks =>
      event ← fire_event task h;
      match ExecuteHook event with
      | None => Err (ErrExecuteHook (HookID h))
      | Some jobID => rest ← launch_all task hooks; Ok ((HookID h, jobID) :: rest)
      end
  end.

(** Waiting for every job.  When several waits fail the source reports
    whichever goroutine stored its error first; the earliest hook is taken
    here. *)
Fixpoint wait_all (jobs : list (string * string)) : outcome coord_err (list HandlerResult) :=
  match jobs with
  | [] => Ok []
  | (hookID, jobID) :: jobs =>
      match WaitForJob jobID with
      | None => Err (ErrWaitHook hookID)
      | Some completion => rest ← wait_all jobs; Ok (parseHandlerResult hookID completion :: rest)
      end
  end.

Definition first_failure (results : list HandlerResult) : option coord_err :=
  match list_find (λ hr, ExitCode hr ≠ 0%Z) results with
  | Some (_, hr) => Some (ErrHookFailed (HID hr) (ExitCode hr))
  | None => None
  end.

Definition dispatchParallel (task : Task) (hooks : list Hook) : outcome coord_err dispatched :=
  match launch_all task hooks with
  | Panic => Panic
  | Err e => Ok ([], Some e)
  | Ok jobs =>
      match wait_all jobs with
      | Panic => Panic
      | Err e => Ok ([], Some e)
      | Ok results => Ok (results, first_failure results)
      end
  end.

Definition dispatchHooks (task : Task) (hooks : list Hook) (parallel : bool) : outcome coord_err dispatched :=
  if parallel then dispatchParallel task hooks else dispatchSequential task [] hooks.

(** [evaluateAndAdvance]: the new status ("" when nothing advanced) and the
    action payload.  It is only called on a task with an Exec. *)
Definition evaluateAndAdvance (store : option (option (list Action))) (task : Task)
    (sm : StateMachine) (payload : raw) (hookRan : bool)
    : outcome coord_err (raw * TaskStatus * option raw) :=
  let lc := match DeriveLifecycle store hookRan with
            | Ok lc => lc
            | _ => {| Executed := hookRan; Done := None; Fail_ := None; Abort_ := None |}
            end in
  match injectLifecycle payload lc with
  | Panic => Panic
  | Err _ => Panic
  | Ok payloadForSM =>
      match AdvanceFull sm (set_Payload task payloadForSM) with
      | Some o => Ok (payload, Status (OTask o), ActionPayload o)
      | None => Ok (payload, "", None)
      end
  end.

(** State of the loop that folds the results of a cycle. *)
Record fold_state : Type := {
  fs_payload : raw;
  fs_delta : raw;
  fs_writers : gmap string string;
}.

Definition merge_result (matchedHooks : list Hook) (payload delta : raw) (hr : HandlerResult)
    : outcome coord_err (raw * raw) :=
  if len0 (PayloadPatch hr) || is_lit_obj0 (PayloadPatch hr) then Ok (payload, delta)
  else
    let allowed := allowedTraits hr matchedHooks in
    match MergePayloadPatch payload (PayloadPatch hr) (HID hr) allowed with
    | Panic => Panic
    | Err _ => Ok (payload, delta)
    | Ok merged =>
        match MergePayloadPatch delta (PayloadPatch hr) (HID hr) allowed with
        | Panic => Panic
        | Err _ => Ok (merged, delta)
        | Ok deltaMerged => Ok (merged, deltaMerged)
        end
    end.

Definition fold_result (matchedHooks : list Hook) (s : fold_state) (hr : HandlerResult)
    : outcome coord_err fold_state :=
  writers ← checkExclusiveCollision (PayloadPatch hr) (HID hr) (fs_writers s);
  pd ← merge_result matchedHooks (fs_payload s) (fs_delta s) hr;
  Ok {| fs_payload := pd.1; fs_delta := pd.2; fs_writers := writers |}.

Definition failed_dispatch (fired : list FiredEvent) : DispatchResult :=
  {| Results := []; FiredEvents := fired; FinalPayload := REmpty; PayloadDelta := REmpty;
     NewStatus := ""; DActionPayload := None |}.

Definition DispatchAndAdvance (store : option (option (list Action))) (task : Task)
    (meta : ProjectMeta) (sm : StateMachine)
    : outcome coord_err (option DispatchResult * option coord_err) :=
  match Exec task with
  | None => Ok (None, Some ErrNoExec)
  | Some e =>
      let behaviorHooks := default [] (lookupBehavior meta task) in
      let matchedHooks := Evaluate task behaviorHooks in
      dr ← (if bool_decide (matchedHooks = []) then Ok ([], None)
            else dispatchHooks task matchedHooks (IsReadonly task));
      let fired := (λ hr, buildFiredEvent hr "hook" (Status task) matchedHooks) <$> dr.1 in
      match dr.2 with
      | Some err => Ok (Some (failed_dispatch fired), Some err)
      | None =>
          match mfold (fold_result matchedHooks)
                  {| fs_payload := Payload e; fs_delta := raw_obj0; fs_writers := ∅ |} dr.1 with
          | Panic => Panic
          | Err err => Ok (Some (failed_dispatch fired), Some err)
          | Ok s =>
              let hookRan := bool_decide (Status task = TaskStatusExecuting) && hasHookResult dr.1 in
              adv ← evaluateAndAdvance store task sm (fs_payload s) hookRan;
              Ok (Some {| Results := dr.1; FiredEvents := fired; FinalPayload := adv.1.1;
                          PayloadDelta := fs_delta s; NewStatus := adv.1.2;
                          DActionPayload := adv.2 |}, None)
          end
      end
  end.

(** [ReplayHook] *)
Definition ReplayHook (store : option (option (list Action))) (task : Task)
    (meta : ProjectMeta) (sm : StateMachine) (hookID : string) : outcome coord_err ReplayResult :=
  match lookupBehavior meta task, Exec task with
  | Some hooks, Some e =>
      match list_find (λ h, HookID h = hookID) hooks with
      | None => Err ErrHookNotFound
      | Some (_, found) =>
          let matched := Evaluate task [found] in
          if bool_decide (matched = []) then Err ErrHookNotMatched
          else
            dr ← dispatchHooks task matched (IsReadonly task);
            pd ← mfold (λ pd hr, merge_result matched pd.1 pd.2 hr) (Payload e, raw_obj0) dr.1;
            match dr.2 with
            | Some err => Err err
            | None =>
                adv ← evaluateAndAdvance store task sm pd.1 true;
                Ok {| RResult := last dr.1; RFinalPayload := adv.1.1; RPayloadDelta := pd.2;
                      RNewStatus := adv.1.2;
                      RFiredEvents := (λ hr, buildFiredEvent hr "hook_replay" (Status task) matched) <$> dr.1 |}
            end
      end
  | _, _ => Err ErrBehaviorNotFound
  end.
End coordinator.

Definition ListHooksForStatus (meta : ProjectMeta) (task : Task) (status : TaskStatus) : list Hook :=
  match lookupBehavior meta task with
  | None => []
  | Some hooks => Evaluate (set_Status task status) hooks
  end.

(** ** One hook, and the two ways of running a list of them *)
Section running.
Context `{HookRuntime}.

(** Launching one hook and waiting for it, the body both dispatch modes share. *)
Definition run_hook (task : Task) (h : Hook) : outcome coord_err HandlerResult :=
  event ← fire_event task h;
  match ExecuteHook event with
  | None => Err (ErrExecuteHook (HookID h))
  | Some jobID =>
      match WaitForJob jobID with
      | None => Err (ErrWaitHook (HookID h))
      | Some completion => Ok (parseHandlerResult (HookID h) completion)
      end
  end.

Definition runs (task : Task) (h : Hook) (hr : HandlerResult) : Prop := run_hook task h = Ok hr.

Lemma runs_id task h hr : runs task h hr → HID hr = HookID h.
Proof. unfold runs, run_hook. intros Hr. destruct (fire_event task h); simpl in Hr; split_cases. Qed.

Lemma runs_ids task hooks rs : Forall2 (runs task) hooks rs → HID <$> rs = HookID <$> hooks.
Proof. induction 1 as [|h hr hooks rs Hr _ IH]; csimpl; [done|]. by erewrite runs_id, IH. Qed.

Lemma dispatchSequential_cons task acc h hooks :
  dispatchSequential task acc (h :: hooks) =
    match run_hook task h with
    | Panic => Panic
    | Err e => Ok (acc, Some e)
    | Ok hr => if bool_decide (ExitCode hr = 0%Z) then dispatchSequential task (acc ++ [hr]) hooks
               else Ok (acc ++ [hr], Some (ErrHookFailed (HookID h) (ExitCode hr)))
    end.
Proof.
  unfold run_hook. simpl. destruct (fire_event task h) as [ev| |] eqn:He; simpl; [|exfalso|done].
  - destruct (ExecuteHook ev) as [j|]; [|done]. by destruct (WaitForJob j).
  - unfold fire_event, prefix8 in He. by destruct (String.length (ID task) <? 8)%nat.
Qed.

Definition succeeded (hr : HandlerResult) : Prop := ExitCode hr = 0%Z.

(** A sequential dispatch ran a prefix of the hooks, and every hook when it
    reports no error, in which case all of them exited zero. *)
Lemma dispatchSequential_prefix task acc hooks rs err :
  dispatchSequential task acc hooks = Ok (rs, err) →
  ∃ new ran rest, rs = acc ++ new ∧ hooks = ran ++ rest ∧ Forall2 (runs task) ran new ∧
    match err with
    | None => rest = [] ∧ Forall succeeded new
    | Some _ => ∃ ok bad, new = ok ++ bad ∧ Forall succeeded ok ∧ (length bad ≤ 1)%nat
    end.
Proof.
  revert acc. induction hooks as [|h hooks IH]; intros acc Hd.
  { simplify_eq/=. exists [], [], []. rewrite app_nil_r. by split_and!. }
  rewrite dispatchSequential_cons in Hd. destruct (run_hook task h) as [hr|e|] eqn:Hr; [|simplify_eq|done].
  2: { exists [], [], (h :: hooks). rewrite app_nil_r. split_and!; [done..|]. exists [], []. simpl. auto with lia. }
  case_bool_decide as Hz.
  - apply IH in Hd as (new & ran & rest & -> & -> & Hrun & He).
    exists (hr :: new), (h :: ran), rest. rewrite <- app_assoc. split_and!; [done..|by constructor|].
    destruct err; [|by destruct He; split; [|constructor]].
    destruct He as (ok & bad & -> & ? & ?). exists (hr :: ok), bad. by split_and!; [|constructor|].
  - simplify_eq. exists [hr], [h], hooks. split_and!; [done..|by repeat constructor|].
    exists [], [hr]. simpl. auto with lia.
Qed.

Lemma launch_wait_runs task hooks jobs rs :
  launch_all task hooks = Ok jobs → wait_all jobs = Ok rs → Forall2 (runs task) hooks rs.
Proof.
  revert jobs rs. induction hooks as [|h hooks IH]; intros jobs rs Hl Hw.
  { simplify_eq/=. constructor. }
  simpl in Hl. apply bind_ok_inv in Hl as (ev & He & Hl).
  destruct (ExecuteHook ev) as [j|] eqn:Hj; [|done].
  apply bind_ok_inv in Hl as (js & Hjs & [= <-]). simpl in Hw.
  destruct (WaitForJob j) as [c|] eqn:Hc; [|done].
  apply bind_ok_inv in Hw as (rs' & Hrs & [= <-]). constructor; [|by eapply IH].
  unfold runs, run_hook. rewrite He. simpl. by rewrite Hj, Hc.
Qed.

Lemma launch_wait_total task hooks rs :
  Forall2 (runs task) hooks rs →
  ∃ jobs, launch_all task hooks = Ok jobs ∧ wait_all jobs = Ok rs.
Proof.
  induction 1 as [|h hr hooks rs Hr _ (js & Hl & Hw)]; [by exists []|].
  unfold runs, run_hook in Hr. simpl. apply bind_ok_inv in Hr as (ev & He & Hr). rewrite He. simpl.
  destruct (ExecuteHook ev) as [j|]; [|done]. rewrite Hl. simpl. eexists. split; [done|].
  simpl. destruct (WaitForJob j); simplify_eq. by rewrite Hw.
Qed.

Lemma first_failure_None rs : first_failure rs = None ↔ Forall succeeded rs.
Proof.
  unfold first_failure. destruct (list_find _ rs) as [[i hr]|] eqn:Hf.
  - apply list_find_Some in Hf as (Hi & Hne & _). split; [done|].
    intros Hall. by apply (Forall_lookup_1 _ _ _ _ Hall) in Hi.
  - apply list_find_None in Hf. split; [|done]. intros _. eapply Forall_impl; [done|].
    intros hr Hn. unfold succeeded. destruct (decide (ExitCode hr = 0%Z)); [done|]. by destruct Hn.
Qed.

Lemma first_failure_cons hr rs :
  first_failure (hr :: rs) =
    if bool_decide (ExitCode hr = 0%Z) then first_failure rs
    else Some (ErrHookFailed (HID hr) (ExitCode hr)).
Proof.
  unfold first_failure. simpl. case_decide as Hd; case_bool_decide; try done.
  by destruct (list_find _ rs) as [[]|].
Qed.

Lemma dispatchParallel_runs task hooks rs err :
  dispatchParallel task hooks = Ok (rs, err) →
  (rs = [] ∧ is_Some err) ∨ (Forall2 (runs task) hooks rs ∧ err = first_failure rs).
Proof.
  unfold dispatchParallel. destruct (launch_all task hooks) as [jobs|e|] eqn:Hl; [|naive_solver|done].
  destruct (wait_all jobs) as [rs'|e|] eqn:Hw; [|naive_solver|done].
  intros [= <- <-]. right. split; [|done]. by eapply launch_wait_runs.
Qed.

(** Running the hooks of a readonly task all at once instead of one after
    another changes nothing but how far it gets: when every hook can be
    launched and waited for, both modes report the same outcome (the first
    failing hook in hook order, or none), the sequential results are a prefix
    of the parallel ones, and they are all of them when no hook fails. *)
Theorem dispatch_modes_agree task hooks results :
  Forall2 (runs task) hooks results →
  ∃ seq err, dispatchParallel task hooks = Ok (results, err) ∧
    dispatchSequential task [] hooks = Ok (seq, err) ∧
    seq `prefix_of` results ∧ (err = None → seq = results).
Proof.
  intros Hr. destruct (launch_wait_total _ _ _ Hr) as (js & Hl & Hw).
  unfold dispatchParallel. rewrite Hl, Hw. clear js Hl Hw.
  assert (∀ acc, ∃ seq, dispatchSequential task acc hooks = Ok (acc ++ seq, first_failure results) ∧
    seq `prefix_of` results ∧ (first_failure results = None → seq = results)) as Hs.
  { induction Hr as [|h hr hooks rs Hhr _ IH]; intros acc.
    { exists []. rewrite app_nil_r. by split_and!. }
    rewrite dispatchSequential_cons, Hhr, first_failure_cons. case_bool_decide.
    - destruct (IH (acc ++ [hr])) as (seq & Hd & Hp & Ha). exists (hr :: seq).
      rewrite Hd, <- app_assoc. split_and!; [done|by apply prefix_cons|]. intros ?. by rewrite Ha.
    - exists [hr]. rewrite (runs_id _ _ _ Hhr). split_and!; [done| |done]. by exists rs. }
  destruct (Hs []) as (seq & Hd & Hp & Ha). by exists seq, (first_failure results).
Qed.
End running.

(** ** Which hooks fire *)

Lemma Evaluate_elem task hooks h :
  h ∈ Evaluate task hooks ↔
  ∃ e, Exec task = Some e ∧ Status task = TaskStatusExecuting ∧
    ((h ∈ hooks ∧
      (∀ t, t ∈ Consumes h → IsOptional t = true ∨ t ∈ default [] (ActiveTraitTypes (Payload e))) ∧
      (HookKind h = HandlerKindAgent → HookAgent h ≠ "" ∧ HookAgent h ∈ Agent <$> TInstructions e)) ∨
     ((∀ h', h' ∈ hooks → HookKind h' ≠ HandlerKindAgent) ∧ synthesizeAgentHook task = Some h)).
Proof.
  unfold Evaluate. destruct (Exec task) as [e|] eqn:He; [|split; [by intros ?%elem_of_nil|naive_solver]].
  case_bool_decide as Hs; simpl; [|split; [by intros ?%elem_of_nil|naive_solver]].
  assert (h ∈ filter (λ h, hook_matches (default [] (ActiveTraitTypes (Payload e)))
            (extractInstructionAgents (TInstructions e)) h = true) hooks ↔
          h ∈ hooks ∧ (∀ t, t ∈ Consumes h → IsOptional t = true ∨ t ∈ default [] (ActiveTraitTypes (Payload e))) ∧
          (HookKind h = HandlerKindAgent → HookAgent h ≠ "" ∧ HookAgent h ∈ Agent <$> TInstructions e)) as Hm.
  { rewrite list_elem_of_filter. unfold hook_matches, hasAllTraits, extractInstructionAgents.
    rewrite andb_true_iff, forallb_forall.
    setoid_rewrite <- list_elem_of_In. setoid_rewrite orb_true_iff. setoid_rewrite bool_decide_eq_true.
    destruct (HookKind h); [naive_solver|]. unfold str_empty.
    rewrite andb_true_iff, negb_true_iff, bool_decide_eq_false, bool_decide_eq_true. naive_solver. }
  destruct (existsb is_agent_hook hooks) eqn:Ha.
  - rewrite Hm. apply existsb_exists in Ha as (h' & Hin%list_elem_of_In & Hk%bool_decide_eq_true).
    split; [naive_solver|]. intros (e' & [= <-] & _ & [?|[Hno _]]); [done|]. by destruct (Hno h').
  - rewrite elem_of_app, Hm, option_list_elem.
    assert (∀ h', h' ∈ hooks → HookKind h' ≠ HandlerKindAgent) as Hno.
    { intros h' Hin Hk. apply not_true_iff_false in Ha. apply Ha, existsb_exists.
      exists h'. split; [by apply list_elem_of_In|by apply bool_decide_eq_true]. }
    naive_solver.
Qed.

Lemma Evaluate_order task hooks :
  ∃ fired syn, Evaluate task hooks = fired ++ option_list syn ∧ fired `sublist_of` hooks ∧
    (syn = None ∨ syn = synthesizeAgentHook task).
Proof.
  unfold Evaluate. destruct (Exec task) as [e|]; [|exists [], None; eauto using sublist_nil_l].
  destruct (negb _); [exists [], None; eauto using sublist_nil_l|].
  destruct (existsb is_agent_hook hooks).
  - eexists _, None. simpl. rewrite app_nil_r. eauto using sublist_filter.
  - eexists _, (synthesizeAgentHook task). eauto using sublist_filter.
Qed.

(** A hook fires only for an execution task in executing.  The hooks that
    fire are the declared ones whose consumed traits are present (and, for an
    agent hook, whose agent an instruction addresses), in declaration order,
    followed by one synthesized agent hook exactly when the behavior declares
    no agent hook and the active instruction names an agent with a harness. *)
Theorem Evaluate_spec task hooks :
  (∀ h,
    h ∈ Evaluate task hooks ↔
    ∃ e, Exec task = Some e ∧ Status task = TaskStatusExecuting ∧
      ((h ∈ hooks ∧
        (∀ t, t ∈ Consumes h → IsOptional t = true ∨ t ∈ default [] (ActiveTraitTypes (Payload e))) ∧
        (HookKind h = HandlerKindAgent → HookAgent h ≠ "" ∧ HookAgent h ∈ Agent <$> TInstructions e)) ∨
       ((∀ h', h' ∈ hooks → HookKind h' ≠ HandlerKindAgent) ∧ synthesizeAgentHook task = Some h))) ∧
  ∃ fired syn, Evaluate task hooks = fired ++ option_list syn ∧ fired `sublist_of` hooks ∧
    (syn = None ∨ syn = synthesizeAgentHook task).
Proof. split; [intros h; apply Evaluate_elem|apply Evaluate_order]. Qed.

(** ** Folding the results *)

(** The entries of a patch, none for an empty or undecodable one. *)
Definition patch_members (p : raw) : gmap string json :=
  if blank p then ∅
  else match unmarshal_map p with Some (Some m) => m | _ => ∅ end.

Definition patch_write (hid : string) (al : option (list string)) (p : raw) (old : gmap string json)
    (k : string) : option json :=
  match patch_members p !! k with
  | Some v => match patch_value hid al k (old !! k) v with Some x => Some x | None => old !! k end
  | None => old !! k
  end.

(** A merge fails or succeeds by the patch alone, never by the (decodable)
    payload it is applied to. *)
Lemma MergePayloadPatch_cases patch hid al :
  (∃ e, ∀ base bm, decoded base = Some bm → MergePayloadPatch base patch hid al = Err e) ∨
  (∀ base bm, decoded base = Some bm →
     ∃ r rm, MergePayloadPatch base patch hid al = Ok r ∧ decoded r = Some rm ∧
       ∀ k, rm !! k = patch_write hid al patch bm k).
Proof.
  unfold patch_write, patch_members, MergePayloadPatch. destruct (blank patch) eqn:Ep.
  { right. intros base bm Hb. eexists _, bm. split_and!; [done|by apply decoded_len0_default|].
    intros k. by rewrite lookup_empty. }
  destruct (RejectReservedPayloadKeys patch) as [[]|e|] eqn:Hrej.
  - destruct (unmarshal_map patch) as [[m|]|] eqn:Hu.
    + right. intros base bm Hb. simpl. rewrite decoded_base with (bm := bm) by done. simpl.
      rewrite patch_loop_total. simpl. eexists _, _. split_and!; [done|apply decoded_marshal|].
      intros k. by apply set_entry_loop_lookup.
    + right. intros base bm Hb. simpl. rewrite decoded_base with (bm := bm) by done. simpl.
      rewrite map_to_list_empty. simpl. eexists _, _. split_and!; [done|apply decoded_marshal|].
      intros k. by rewrite lookup_empty.
    + left. exists ErrUnmarshalPatch. intros base bm Hb. simpl. by rewrite decoded_base with (bm := bm).
  - left. exists e. done.
  - exfalso. revert Hrej. unfold RejectReservedPayloadKeys. split_cases.
Qed.

Lemma TraitMergeMode_shared k : TraitMergeMode k = MergeModeShared → k = TraitVerification.
Proof. unfold TraitMergeMode. by case_bool_decide. Qed.

Lemma patch_value_exclusive hid al k o v :
  TraitMergeMode k = MergeModeExclusive → patch_allowed al k = true →
  patch_value hid al k o v = patch_value "" None k o v.
Proof.
  intros Hm Ha. unfold patch_value. rewrite Hm. unfold patch_allowed in Ha.
  destruct al as [l|]; [by rewrite Ha|done].
Qed.

Lemma shared_members_obj m : shared_members (Some (obj_of_map m)) = m.
Proof. unfold shared_members. by rewrite value_map_obj_of_map. Qed.

(** [full] is [base] with the traits of [delta] written over it: untouched
    traits are the base's, an exclusive trait is what one patch of it leaves,
    a shared trait has the delta's handlers over the base's. *)
Definition layered_at (base delta full : gmap string json) (k : string) : Prop :=
  match delta !! k with
  | None => full !! k = base !! k
  | Some v =>
      match TraitMergeMode k with
      | MergeModeExclusive => full !! k = patch_value "" None k (base !! k) v
      | MergeModeShared =>
          shared_members (full !! k) = shared_members (Some v) ∪ shared_members (base !! k)
      end
  end.

Lemma layered_write base delta full hid al p k :
  layered_at base delta full k →
  (is_Some (patch_members p !! k) → TraitMergeMode k = MergeModeExclusive → delta !! k = None) →
  ∀ delta' full', delta' !! k = patch_write hid al p delta k → full' !! k = patch_write hid al p full k →
  layered_at base delta' full' k.
Proof.
  unfold layered_at, patch_write. intros Hl Hx d' f' -> ->.
  destruct (patch_members p !! k) as [v|]; [|done].
  destruct (patch_allowed al k) eqn:Ha.
  2: { by rewrite !(proj2 (patch_value_None _ _ _ _ _)) by done. }
  destruct (TraitMergeMode k) eqn:Hm.
  - rewrite !(patch_value_exclusive hid al) by done. rewrite Hx in Hl |- * by eauto.
    rewrite Hl. unfold patch_value. by rewrite Hm.
  - apply TraitMergeMode_shared in Hm as Hk. subst k.
    rewrite !patch_value_shared by done. rewrite !shared_members_obj.
    destruct (delta !! TraitVerification) as [w|].
    + rewrite Hl. by rewrite insert_union_l.
    + rewrite Hl. simpl. by rewrite <- insert_union_l, (left_id_L ∅ (∪)).
Qed.

(** The collision check: what it lets through had no earlier writer, and it
    remembers every writer. *)
Lemma collision_loop w xs ws ws' :
  mfold (collision_entry w) ws xs = Ok ws' →
  (∀ k, is_Some (ws !! k) → is_Some (ws' !! k)) ∧
  (∀ k, k ∈ xs.*1 → TraitMergeMode k = MergeModeExclusive → ws !! k = None ∧ is_Some (ws' !! k)).
Proof.
  revert ws. induction xs as [|[k v] xs IH]; intros ws H; simplify_eq/=.
  { split; [done|]. by intros k ?%elem_of_nil. }
  destruct (TraitMergeMode k) eqn:Hm.
  - destruct (ws !! k) as [prev|] eqn:Hk; [done|]. apply IH in H as [Hmono Hin]. split.
    + intros j Hj. apply Hmono. rewrite lookup_insert_is_Some. destruct (decide (k = j)); auto.
    + intros j [->|Hj]%elem_of_cons Hmj.
      * split; [done|]. apply Hmono. rewrite lookup_insert_eq. eauto.
      * destruct (Hin j Hj Hmj) as [Hn Hs]. split; [|done]. destruct (decide (k = j)) as [->|]; [done|].
        by rewrite lookup_insert_ne in Hn.
  - apply IH in H as [Hmono Hin]. split; [done|].
    intros j [->|Hj]%elem_of_cons Hmj; [congruence|by apply Hin].
Qed.

Lemma checkExclusiveCollision_ok p w ws ws' :
  checkExclusiveCollision p w ws = Ok ws' →
  (∀ k, is_Some (ws !! k) → is_Some (ws' !! k)) ∧
  (∀ k, is_Some (patch_members p !! k) → TraitMergeMode k = MergeModeExclusive →
        ws !! k = None ∧ is_Some (ws' !! k)).
Proof.
  unfold checkExclusiveCollision, patch_members. intros Hc.
  destruct (blank p); [simplify_eq; split; [done|]; intros k; rewrite lookup_empty; by intros []|].
  destruct (unmarshal_map p) as [[m|]|]; simpl in Hc; [|rewrite map_to_list_empty in Hc|]; simplify_eq/=.
  2-3: split; [done|]; intros k; rewrite lookup_empty; by intros [].
  apply collision_loop in Hc as [Hmono Hin]. split; [done|]. intros k [v Hv]. apply Hin.
  apply list_elem_of_fmap. exists (k, v). split; [done|]. by apply elem_of_map_to_list.
Qed.

Lemma is_Some_none {A} (o : option A) (P : Prop) : o = None → is_Some o → P.
Proof. by intros -> []. Qed.

(** ** The fold over a cycle's results *)
Section folding.
Context (base : gmap string json) (hooks : list Hook) (results : list HandlerResult).

(** A trait of the delta was written by one of the cycle's results, within
    what its hook declares to produce. *)
Definition written_by_hook (k : string) : Prop :=
  ∃ hr, hr ∈ results ∧ is_Some (patch_members (PayloadPatch hr) !! k) ∧
        patch_allowed (allowedTraits hr hooks) k = true.

Definition fold_inv (s : fold_state) : Prop :=
  ∃ full delta, decoded (fs_payload s) = Some full ∧ decoded (fs_delta s) = Some delta ∧
    (∀ k, layered_at base delta full k) ∧
    (∀ k, is_Some (delta !! k) →
       written_by_hook k ∧ (TraitMergeMode k = MergeModeExclusive → is_Some (fs_writers s !! k))).

Lemma patch_write_new hid al p old k :
  is_Some (patch_write hid al p old k) →
  is_Some (old !! k) ∨ (is_Some (patch_members p !! k) ∧ patch_allowed al k = true).
Proof.
  unfold patch_write. destruct (patch_members p !! k) as [v|]; [|auto].
  destruct (patch_allowed al k) eqn:Ha; [eauto|]. rewrite (proj2 (patch_value_None _ _ _ _ _)); auto.
Qed.

Lemma merge_result_cases hr full delta fp fd :
  decoded fp = Some full → decoded fd = Some delta →
  ∃ fp' fd', merge_result hooks fp fd hr = Ok (fp', fd') ∧
    ((fp' = fp ∧ fd' = fd) ∨
     ∃ full' delta', decoded fp' = Some full' ∧ decoded fd' = Some delta' ∧
       (∀ k, full' !! k = patch_write (HID hr) (allowedTraits hr hooks) (PayloadPatch hr) full k) ∧
       (∀ k, delta' !! k = patch_write (HID hr) (allowedTraits hr hooks) (PayloadPatch hr) delta k)).
Proof.
  intros Hp Hd. unfold merge_result. case_match; [by eauto 10|].
  destruct (MergePayloadPatch_cases (PayloadPatch hr) (HID hr) (allowedTraits hr hooks))
    as [[e He]|Hok].
  - rewrite (He _ _ Hp). by eauto 10.
  - destruct (Hok _ _ Hp) as (fp' & full' & -> & ? & ?).
    destruct (Hok _ _ Hd) as (fd' & delta' & -> & ? & ?). eauto 12.
Qed.

Lemma fold_result_inv s hr s' :
  hr ∈ results → fold_inv s → fold_result hooks s hr = Ok s' → fold_inv s'.
Proof.
  intros Hin (full & delta & Hp & Hd & Hl & Hw) Hf. unfold fold_result in Hf.
  apply bind_ok_inv in Hf as (ws & Hc & Hf).
  apply checkExclusiveCollision_ok in Hc as [Hmono Hfresh].
  destruct (merge_result_cases hr _ _ _ _ Hp Hd) as (fp & fd & Hm & Hcase).
  rewrite Hm in Hf. simplify_eq/=. destruct Hcase as [[-> ->]|(full' & delta' & Hp' & Hd' & Hf & Hdl)].
  { exists full, delta. split_and!; [done..|]. intros k Hk. destruct (Hw k Hk). eauto. }
  exists full', delta'. split_and!; [done..| |].
  - intros k. eapply layered_write; [apply Hl| |apply Hdl|apply Hf].
    intros Hs He. apply eq_None_not_Some. intros Hk. destruct (Hfresh k Hs He) as [Hn _].
    eapply is_Some_none; [exact Hn|]. by apply Hw.
  - intros k. simpl. rewrite Hdl. intros Hk. destruct (patch_write_new _ _ _ _ _ Hk) as [Ho|[Hs Ha]].
    + destruct (Hw k Ho). eauto.
    + split; [by exists hr|]. intros He. by apply Hfresh.
Qed.

Lemma fold_result_no_panic s hr :
  fold_inv s → fold_result hooks s hr ≠ Panic.
Proof.
  intros (full & delta & Hp & Hd & _). unfold fold_result.
  destruct (checkExclusiveCollision _ _ _) as [ws|e|] eqn:Hc; simpl; [|done|].
  - by destruct (merge_result_cases hr _ _ _ _ Hp Hd) as (fp & fd & -> & _).
  - exfalso. revert Hc. unfold checkExclusiveCollision.
    destruct (blank _); [done|]. destruct (unmarshal_map _) as [o|]; [|done].
    generalize (fs_writers s). induction (map_to_list (default ∅ o)) as [|[k v] xs IH]; intros ws; [done|].
    simpl. destruct (TraitMergeMode k); [|apply IH]. destruct (ws !! k); [done|apply IH].
Qed.

Lemma fold_results_inv p s :
  decoded p = Some base →
  mfold (fold_result hooks) {| fs_payload := p; fs_delta := raw_obj0; fs_writers := ∅ |} results = Ok s →
  fold_inv s.
Proof.
  intros Hp. eapply (mfold_inv fold_inv).
  - intros a x a' Hx. by apply fold_result_inv.
  - exists base, ∅. split_and!; [done..| |].
    + intros k. unfold layered_at. by rewrite lookup_empty.
    + intros k. rewrite lookup_empty. by intros [].
Qed.
End folding.

(** Two results of one cycle that both write an exclusive trait stop the fold. *)
Lemma fold_results_exclusive hooks rs s s' i j hr1 hr2 k :
  mfold (fold_result hooks) s rs = Ok s' →
  rs !! i = Some hr1 → rs !! j = Some hr2 → (i < j)%nat →
  is_Some (patch_members (PayloadPatch hr1) !! k) → is_Some (patch_members (PayloadPatch hr2) !! k) →
  TraitMergeMode k = MergeModeShared.
Proof.
  intros Hf Hi Hj Hij H1 H2. destruct (TraitMergeMode k) eqn:Hm; [exfalso|done].
  assert (∀ rs s s' i hr, mfold (fold_result hooks) s rs = Ok s' → rs !! i = Some hr →
    is_Some (patch_members (PayloadPatch hr) !! k) → is_Some (fs_writers s !! k) → False) as Hno.
  { clear -Hm. intros rs. induction rs as [|x rs IH]; intros s s' [|i] hr Hf Hi Hp Hw; simplify_eq/=;
      apply bind_ok_inv in Hf as (s1 & Hf & Hrest); unfold fold_result in Hf;
      apply bind_ok_inv in Hf as (ws & Hc & Hf); apply bind_ok_inv in Hf as (pd & _ & [= <-]);
      apply checkExclusiveCollision_ok in Hc as [Hmono Hfresh].
    - destruct (Hfresh k Hp Hm) as [Hn _]. by eapply is_Some_none.
    - by eapply IH; [exact Hrest|exact Hi|done|apply Hmono]. }
  revert s i j Hf Hi Hj Hij. induction rs as [|x rs IH]; intros s [|i] [|j] Hf Hi Hj Hij; simplify_eq/=; try lia;
    apply bind_ok_inv in Hf as (s1 & Hf & Hrest).
  - eapply Hno; [exact Hrest|exact Hj|done|]. unfold fold_result in Hf.
    apply bind_ok_inv in Hf as (ws & Hc & Hf). apply bind_ok_inv in Hf as (pd & _ & [= <-]).
    apply checkExclusiveCollision_ok in Hc as [_ Hfresh]. by apply Hfresh.
  - eapply IH; eauto with lia.
Qed.

(** ** The dispatch cycle *)
Section cycle.
Context `{HookRuntime}.

Definition cycle_hooks (meta : ProjectMeta) (task : Task) : list Hook :=
  Evaluate task (default [] (lookupBehavior meta task)).

(** What both dispatch modes guarantee. *)
Lemma dispatchHooks_prefix task hooks parallel rs err :
  dispatchHooks task hooks parallel = Ok (rs, err) →
  ∃ ran rest, hooks = ran ++ rest ∧ Forall2 (runs task) ran rs ∧
    (err = None → rest = [] ∧ Forall succeeded rs).
Proof.
  unfold dispatchHooks. destruct parallel; intros Hd.
  - apply dispatchParallel_runs in Hd as [[-> [? ->]]|[Hr ->]].
    + exists [], hooks. by split_and!.
    + exists hooks, []. rewrite app_nil_r. split_and!; [done..|]. intros Hf%first_failure_None. done.
  - apply dispatchSequential_prefix in Hd as (new & ran & rest & -> & -> & Hr & He).
    exists ran, rest. split_and!; [done..|]. by intros ->.
Qed.

(** The dispatch step of a cycle, [Ok ([], None)] when no hook matches. *)
Definition cycle_dispatch (meta : ProjectMeta) (task : Task) : outcome coord_err (list HandlerResult * option coord_err) :=
  if bool_decide (cycle_hooks meta task = []) then Ok ([], None)
  else dispatchHooks task (cycle_hooks meta task) (IsReadonly task).

Lemma cycle_dispatch_prefix meta task rs err :
  cycle_dispatch meta task = Ok (rs, err) →
  ∃ ran rest, cycle_hooks meta task = ran ++ rest ∧ Forall2 (runs task) ran rs ∧
    (err = None → rest = [] ∧ Forall succeeded rs).
Proof.
  unfold cycle_dispatch. case_bool_decide as Hc; [|apply dispatchHooks_prefix].
  intros [= <- <-]. exists [], []. by rewrite Hc.
Qed.

Definition fired_of (meta : ProjectMeta) (task : Task) (rs : list HandlerResult) : list FiredEvent :=
  (λ hr, buildFiredEvent hr "hook" (Status task) (cycle_hooks meta task)) <$> rs.

Lemma DispatchAndAdvance_inv store task meta sm r err :
  DispatchAndAdvance store task meta sm = Ok (Some r, err) →
  ∃ e rs derr, Exec task = Some e ∧ cycle_dispatch meta task = Ok (rs, derr) ∧
    FiredEvents r = fired_of meta task rs ∧
    match err with
    | Some _ => r = failed_dispatch (fired_of meta task rs)
    | None => derr = None ∧ ∃ s adv,
        mfold (fold_result (cycle_hooks meta task))
          {| fs_payload := Payload e; fs_delta := raw_obj0; fs_writers := ∅ |} rs = Ok s ∧
        evaluateAndAdvance store task sm (fs_payload s)
          (bool_decide (Status task = TaskStatusExecuting) && hasHookResult rs) = Ok adv ∧
        Results r = rs ∧ FinalPayload r = adv.1.1 ∧ PayloadDelta r = fs_delta s ∧
        NewStatus r = adv.1.2 ∧ DActionPayload r = adv.2
    end.
Proof.
  unfold DispatchAndAdvance. destruct (Exec task) as [e|]; [|done]. intros Hd.
  fold (cycle_hooks meta task) in Hd. fold (cycle_dispatch meta task) in Hd.
  destruct (cycle_dispatch meta task) as [[rs derr]| |] eqn:Hc; [|done..]. simpl in Hd.
  exists e, rs, derr. fold (fired_of meta task rs) in Hd. destruct derr as [er|]; [by simplify_eq|].
  destruct (mfold _ _ rs) as [s|er|] eqn:Hm; [|by simplify_eq|done].
  apply bind_ok_inv in Hd as (adv & Ha & [= <- <-]). split_and!; [done..|]. eauto 12.
Qed.

(** C5.  A cycle that reports success ran every hook that fires for the task,
    in order, each of them exited zero and each is recorded as a successful
    fired event; a cycle that reports an error leaves no new status, no payload
    and no results.  Either way the recorded events are those of a prefix of
    the hooks, in order. *)
Theorem DispatchAndAdvance_all_or_nothing store task meta sm r err :
  DispatchAndAdvance store task meta sm = Ok (Some r, err) →
  HandlerID <$> FiredEvents r `prefix_of` HookID <$> cycle_hooks meta task ∧
  match err with
  | None => HID <$> Results r = HookID <$> cycle_hooks meta task ∧ Forall succeeded (Results r) ∧
            Forall (λ fe, Success fe = true) (FiredEvents r)
  | Some _ => NewStatus r = "" ∧ Results r = [] ∧ DActionPayload r = None ∧
              FinalPayload r = REmpty ∧ PayloadDelta r = REmpty
  end.
Proof.
  intros (e & rs & derr & He & Hc & Hfe & Herr)%DispatchAndAdvance_inv.
  apply cycle_dispatch_prefix in Hc as (ran & rest & Hh & Hr & Hnone). split.
  - rewrite Hfe, Hh. unfold fired_of. rewrite <- list_fmap_compose, fmap_app.
    exists (HookID <$> rest). f_equal. symmetry. apply runs_ids in Hr. by rewrite <- Hr.
  - destruct err; [by subst r|]. destruct Herr as [-> (s & adv & _ & _ & -> & _)].
    destruct Hnone as [-> Hok]; [done|]. rewrite Hh, app_nil_r, Hfe. split_and!; [by eapply runs_ids|done|].
    unfold fired_of. rewrite Forall_fmap. eapply Forall_impl; [done|]. intros hr Hz.
    by apply bool_decide_eq_true.
Qed.

Lemma dispatch_delta store task meta sm r e base :
  DispatchAndAdvance store task meta sm = Ok (Some r, None) →
  Exec task = Some e → decoded (Payload e) = Some base →
  ∃ full delta, decoded (FinalPayload r) = Some full ∧ decoded (PayloadDelta r) = Some delta ∧
    (∀ k, layered_at base delta full k) ∧
    (∀ k, is_Some (delta !! k) → written_by_hook (cycle_hooks meta task) (Results r) k).
Proof.
  intros (e' & rs & derr & He & Hc & Hfe & -> & s & adv & Hm & Ha & Hrs & Hp & Hd & _)%DispatchAndAdvance_inv
    He' Hb. rewrite He in He'. injection He' as ->.
  apply (fold_results_inv base) in Hm as (full & delta & Hf & Hdl & Hl & Hw); [|done].
  exists full, delta. rewrite Hp, Hd, Hrs. split_and!; [|done..|].
  - unfold evaluateAndAdvance in Ha. destruct (injectLifecycle _ _); [|done..].
    by destruct (AdvanceFull _ _); simplify_eq/=.
  - intros k Hk. by apply Hw.
Qed.

(** The payload delta of a successful cycle holds only traits its own
    hooks wrote, each within what the hook declares to produce, and the final
    payload is the task's payload with exactly that delta written over it: no
    value of the snapshot the cycle started from leaks into the delta. *)
Theorem DispatchAndAdvance_delta store task meta sm r e base :
  DispatchAndAdvance store task meta sm = Ok (Some r, None) →
  Exec task = Some e → decoded (Payload e) = Some base →
  ∃ full delta, decoded (FinalPayload r) = Some full ∧ decoded (PayloadDelta r) = Some delta ∧
    (∀ k, layered_at base delta full k) ∧
    (∀ k, is_Some (delta !! k) → written_by_hook (cycle_hooks meta task) (Results r) k).
Proof. apply dispatch_delta. Qed.

(** No exclusive trait is written twice in one cycle: when two results of
    a successful cycle write the same trait, that trait is a shared one. *)
Theorem DispatchAndAdvance_exclusive store task meta sm r i j hr1 hr2 k :
  DispatchAndAdvance store task meta sm = Ok (Some r, None) →
  Results r !! i = Some hr1 → Results r !! j = Some hr2 → i ≠ j →
  is_Some (patch_members (PayloadPatch hr1) !! k) → is_Some (patch_members (PayloadPatch hr2) !! k) →
  TraitMergeMode k = MergeModeShared.
Proof.
  intros (e & rs & derr & He & Hc & Hfe & -> & s & adv & Hm & Ha & Hrs & _)%DispatchAndAdvance_inv.
  rewrite Hrs. intros Hi Hj Hne H1 H2.
  destruct (decide (i < j)%nat).
  - by eapply fold_results_exclusive with (i := i) (j := j).
  - eapply fold_results_exclusive with (i := j) (j := i); [done..|lia|done|done].
Qed.

Lemma hasHookResult_spec rs : hasHookResult rs = bool_decide (rs ≠ []).
Proof. by destruct rs as [|[? [] ? ? ?] rs]. Qed.

Lemma cycle_hooks_executing meta task :
  cycle_hooks meta task ≠ [] → Status task = TaskStatusExecuting.
Proof.
  unfold cycle_hooks, Evaluate. destruct (Exec task); [|done]. by case_bool_decide.
Qed.

(** The status a cycle moves its task to: none unless a hook ran; otherwise
    the report that counts decides. *)
Definition cycle_outcome (ran : bool) (i : option intent) : TaskStatus * option raw :=
  if ran then
    match i with
    | Some (IFail msg) => (TaskStatusAborted, Some (message_payload msg))
    | Some (IDone msg) => (TaskStatusDone, Some (message_payload msg))
    | None => (TaskStatusDone, None)
    end
  else ("", None).

(** The actions a cycle knows of: none without a store, and none when the store
    cannot be read, since the failed derivation is only logged. *)
Definition known_actions (store : option (option (list Action))) : list Action :=
  default [] (default None store).

Lemma evaluateAndAdvance_outcome store task e payload full ran :
  Exec task = Some e → decoded payload = Some full →
  evaluateAndAdvance store task NewExecutionMachine payload ran =
    let o := cycle_outcome (bool_decide (Status task = TaskStatusExecuting) && ran)
               (last_intent (reverse (known_actions store))) in
    Ok (payload, o.1, o.2).
Proof.
  intros He Hd. unfold evaluateAndAdvance.
  set (lc := match DeriveLifecycle store ran with Ok lc => lc | _ => _ end).
  set (actions := known_actions store).
  assert (Executed lc = ran) as Hx.
  { unfold lc. destruct store as [[l|]|]; simpl; [|done..]. by rewrite lifecycle_fold_executed. }
  assert (reports lc = intent_reports (last_intent (reverse actions))) as Hi.
  { unfold lc, actions. destruct store as [[l|]|]; simpl; [|done..]. by apply lifecycle_fold_reports. }
  rewrite (injectLifecycle_spec _ lc _ Hd). unfold AdvanceFull.
  erewrite Exec_set_Payload by done. cbn [Payload set_ExecPayload].
  rewrite execution_advance_rules. change (Status (set_Payload task _)) with (Status task).
  case_bool_decide; [|done]. unfold lifecycle_outcome. rewrite Hx.
  destruct ran; [|done]. unfold reports in Hi.
  destruct (last_intent (reverse actions)) as [[msg|msg]|]; injection Hi as -> ->; done.
Qed.

Lemma dispatch_outcome store task meta r e base :
  DispatchAndAdvance store task meta NewExecutionMachine = Ok (Some r, None) →
  Exec task = Some e → decoded (Payload e) = Some base →
  (NewStatus r, DActionPayload r) =
    cycle_outcome (bool_decide (cycle_hooks meta task ≠ [])) (last_intent (reverse (known_actions store))).
Proof.
  intros (e' & rs & derr & He & Hc & Hfe & -> & s & adv & Hm & Ha & Hrs & Hp & Hd & Hn & Hap)%DispatchAndAdvance_inv
    He' Hb. rewrite He in He'. injection He' as ->.
  apply (fold_results_inv base) in Hm as (full & delta & Hf & _); [|done].
  erewrite evaluateAndAdvance_outcome in Ha by done. injection Ha as <-. rewrite Hn, Hap. cbn [fst snd].
  apply cycle_dispatch_prefix in Hc as (ran & rest & Hh & Hr & Hnone).
  destruct Hnone as [-> _]; [done|]. rewrite app_nil_r in Hh. rewrite <- surjective_pairing, hasHookResult_spec.
  assert (rs = [] ↔ cycle_hooks meta task = []) as Hiff.
  { rewrite Hh. split; intros ->; inversion Hr; done. }
  rewrite (bool_decide_ext (rs ≠ []) (cycle_hooks meta task ≠ [])) by (by rewrite Hiff).
  case_bool_decide as H1; simpl; [done|]. case_bool_decide as H2; [|done].
  by destruct H1, (cycle_hooks_executing _ _ H2).
Qed.

(** The report an action is, and the last one of a stretch of the history. *)
Definition report_of (a : Action) : option intent :=
  if bool_decide (AType a = "done_request") then Some (IDone (reportFromPayload (APayload a)))
  else if bool_decide (AType a = "fail_request") then Some (IFail (reportFromPayload (APayload a)))
  else None.
Definition last_report (actions : list Action) : option intent := last (omap report_of actions).
(** Reopening, starting, answering: an action that is no report and after which
    the task is executing.  A progress note is one too, from executing to
    executing. *)
Definition enters (a : Action) : Prop := AToStatus a = TaskStatusExecuting ∧ report_of a = None.

Lemma last_intent_cons a older :
  last_intent (a :: older) =
    match report_of a with
    | Some i => Some i
    | None => if bool_decide (AToStatus a = TaskStatusExecuting) then None else last_intent older
    end.
Proof. cbn. unfold report_of. by repeat case_bool_decide. Qed.
Lemma last_intent_since before after :
  (∀ a, last before = Some a → enters a) → Forall (λ a, ¬ enters a) after →
  last_intent (reverse (before ++ after)) = last_report after.
Proof.
  intros Hb. unfold last_report. induction after as [|a after IH] using rev_ind; intros Hall.
  - rewrite app_nil_r. destruct before as [|x before _] using rev_ind; [done|]. rewrite reverse_snoc, last_intent_cons.
    destruct (Hb x) as [Hx ->]; [apply last_snoc|]. by rewrite bool_decide_eq_true_2.
  - apply Forall_app in Hall as [Hall Ha]. rewrite Forall_singleton in Ha. rewrite app_assoc, reverse_snoc, last_intent_cons, omap_app, last_app. cbn [omap list_omap].
    destruct (report_of a) as [i|] eqn:Hr; [done|]. rewrite bool_decide_eq_false_2 by (intros Hs; by apply Ha). by rewrite IH.
Qed.

(** C6.  The outcome of a successful dispatch cycle of an execution task: if no
    hook fires the status is left alone; otherwise the task is moved to aborted
    when the last report since it entered executing was a failure, and to done in
    every other case, the reported message becoming the action payload.  [before]
    is the history up to and with the action that entered executing (nothing,
    when there is none), [after] what was recorded since; the condition is that
    no action of [after] other than a report was recorded with to_status
    executing.  A progress note is such an action, and the code forgets the
    report before it ([notes_forget_reports]).  A history that cannot be read
    counts as an empty one. *)
Theorem DispatchAndAdvance_outcome store task meta r e base before after :
  DispatchAndAdvance store task meta NewExecutionMachine = Ok (Some r, None) →
  Exec task = Some e → decoded (Payload e) = Some base →
  known_actions store = before ++ after → (∀ a, last before = Some a → enters a) → Forall (λ a, ¬ enters a) after →
  (NewStatus r, DActionPayload r) = cycle_outcome (bool_decide (cycle_hooks meta task ≠ [])) (last_report after).
Proof.
  intros Hd He Hb Hk Hbef Haft. rewrite (dispatch_outcome _ _ _ _ _ _ Hd He Hb), Hk. by rewrite last_intent_since.
Qed.

(** A failure reported before a progress note does not count: the task the
    hooks of which succeeded is done. *)
Theorem notes_forget_reports store task meta r e base before note :
  DispatchAndAdvance store task meta NewExecutionMachine = Ok (Some r, None) →
  Exec task = Some e → decoded (Payload e) = Some base →
  known_actions store = before ++ [note] → enters note → cycle_hooks meta task ≠ [] →
  (NewStatus r, DActionPayload r) = (TaskStatusDone, None).
Proof.
  intros Hd He Hb Hk Hn Hh. rewrite (dispatch_outcome _ _ _ _ _ _ Hd He Hb), Hk, bool_decide_eq_true_2 by done.
  rewrite <- (app_nil_r (before ++ [note])), last_intent_since; [done| |by constructor].
  intros a [= <-]%(eq_trans (eq_sym (last_snoc _ _))). done.
Qed.

Lemma fold_results_total base hooks rs p :
  decoded p = Some base →
  mfold (fold_result hooks) {| fs_payload := p; fs_delta := raw_obj0; fs_writers := ∅ |} rs ≠ Panic.
Proof.
  intros Hp. induction rs as [|hr rs IH] using rev_ind; [done|]. rewrite mfold_app.
  destruct (mfold _ _ rs) as [s| |] eqn:Hm; simpl; [|done..].
  apply (fold_results_inv base) in Hm; [|done]. pose proof (fold_result_no_panic _ _ _ _ hr Hm) as Hn.
  by destruct (fold_result hooks s hr).
Qed.

Lemma fire_event_total task h : (8 ≤ String.length (ID task))%nat → ∃ ev, fire_event task h = Ok ev.
Proof.
  intros Hl. unfold fire_event, prefix8. destruct (Nat.ltb_spec (String.length (ID task)) 8); [lia|].
  simpl. eauto.
Qed.

Lemma dispatchHooks_total task hooks parallel :
  (8 ≤ String.length (ID task))%nat → ∃ dr, dispatchHooks task hooks parallel = Ok dr.
Proof.
  intros Hl. destruct parallel; simpl.
  - unfold dispatchParallel.
    assert (launch_all task hooks ≠ Panic) as Hp.
    { induction hooks as [|h hooks IH]; [done|]. simpl.
      destruct (fire_event_total task h Hl) as [ev ->]. simpl. destruct (ExecuteHook ev); [|done].
      by destruct (launch_all task hooks). }
    destruct (launch_all task hooks) as [jobs| |]; [|eauto|done].
    assert (wait_all jobs ≠ Panic) as Hw.
    { clear. induction jobs as [|[i j] jobs IH]; [done|]. simpl. destruct (WaitForJob j); [|done].
      by destruct (wait_all jobs). }
    destruct (wait_all jobs); [eauto..|done].
  - generalize (@nil HandlerResult). induction hooks as [|h hooks IH]; intros acc; simpl; [eauto|].
    destruct (fire_event_total task h Hl) as [ev ->]. simpl. destruct (ExecuteHook ev) as [j|]; [|eauto].
    destruct (WaitForJob j); [|eauto]. case_bool_decide; eauto.
Qed.

Lemma dispatch_total store task meta e base :
  (8 ≤ String.length (ID task))%nat → Exec task = Some e → decoded (Payload e) = Some base →
  ∃ r err, DispatchAndAdvance store task meta NewExecutionMachine = Ok (Some r, err).
Proof.
  intros Hl He Hb. unfold DispatchAndAdvance. rewrite He.
  fold (cycle_hooks meta task). fold (cycle_dispatch meta task).
  assert (∃ dr, cycle_dispatch meta task = Ok dr) as [[rs derr] ->].
  { unfold cycle_dispatch. case_bool_decide; [eauto|by apply dispatchHooks_total]. }
  simpl. destruct derr; [eauto|].
  pose proof (fold_results_total base (cycle_hooks meta task) rs _ Hb) as Hnp.
  destruct (mfold _ _ rs) as [s|er|] eqn:Hm; [|eauto|done].
  apply (fold_results_inv base) in Hm as (full & delta & Hf & _); [|done].
  unfold evaluateAndAdvance. destruct (DeriveLifecycle _ _); simpl;
    rewrite (injectLifecycle_spec _ _ _ Hf); destruct (AdvanceFull _ _); simpl; eauto.
Qed.

(** A dispatch cycle never crashes the daemon: for an execution task with
    an identifier of at least eight bytes and a payload that decodes, it
    returns a result (with or without an error) whatever the dispatcher, the
    hooks' output and the action history are. *)
Theorem DispatchAndAdvance_total store task meta e base :
  (8 ≤ String.length (ID task))%nat → Exec task = Some e → decoded (Payload e) = Some base →
  ∃ r err, DispatchAndAdvance store task meta NewExecutionMachine = Ok (Some r, err).
Proof. apply dispatch_total. Qed.
(** A successful replay ran exactly the hooks [Evaluate] selects from the
    one hook of that id, each exiting zero.  For a hook that is not an agent
    hook this is not only the hook asked for: when the task's active
    instruction names an agent with a harness, the synthesized agent hook is
    run as well, whether or not the behavior declares an agent hook of its
    own. *)
Theorem ReplayHook_runs store task meta sm hookID r :
  ReplayHook store task meta sm hookID = Ok r →
  ∃ hooks found, lookupBehavior meta task = Some hooks ∧ found ∈ hooks ∧ HookID found = hookID ∧
    HandlerID <$> RFiredEvents r = HookID <$> Evaluate task [found] ∧
    Forall (λ fe, Success fe = true) (RFiredEvents r) ∧
    (HookKind found = HandlerKindNone →
     ∀ syn, synthesizeAgentHook task = Some syn → HookID syn ∈ HandlerID <$> RFiredEvents r).
Proof.
  unfold ReplayHook. intros Hr. destruct (lookupBehavior meta task) as [hooks|]; [|done].
  destruct (Exec task) as [e|] eqn:He; [|done].
  destruct (list_find _ hooks) as [[i found]|] eqn:Hf; [|done].
  apply list_find_Some in Hf as (Hi & Hid & _).
  destruct (bool_decide (Evaluate task [found] = [])) eqn:Hne; [done|].
  apply bind_ok_inv in Hr as ([rs derr] & Hd & Hr). apply bind_ok_inv in Hr as (pd & _ & Hr).
  simpl in Hr. destruct derr; [done|]. apply bind_ok_inv in Hr as (adv & _ & [= <-]). cbn [RFiredEvents].
  apply dispatchHooks_prefix in Hd as (ran & rest & Hh & Hruns & Hnone).
  destruct Hnone as [-> Hok]; [done|]. rewrite app_nil_r in Hh.
  assert (HandlerID <$> ((λ hr, buildFiredEvent hr "hook_replay" (Status task) (Evaluate task [found])) <$> rs)
            = HookID <$> Evaluate task [found]) as Hids.
  { rewrite <- list_fmap_compose, Hh. by erewrite <- runs_ids by done. }
  exists hooks, found. split_and!; [done|by eapply list_elem_of_lookup_2|done|done| |].
  - rewrite Forall_fmap. eapply Forall_impl; [done|]. intros hr Hz. by apply bool_decide_eq_true.
  - intros Hk syn Hs. rewrite Hids. apply list_elem_of_fmap. exists syn. split; [done|].
    apply bool_decide_eq_false in Hne. revert Hne. unfold Evaluate. rewrite He.
    case_bool_decide; [|done]. simpl. unfold is_agent_hook. rewrite Hk, Hs. simpl. intros _.
    apply elem_of_app. right. by apply list_elem_of_singleton.
Qed.
End cycle.

(** ** The theorems at a concrete task

    A dispatcher whose every job succeeds and prints a patch of [artifact]. *)
Definition sample_patch : raw := RText true (JObj [("artifact", JObj [("url", JStr "u")])]).
Definition sample_runtime : HookRuntime :=
  {| ExecuteHook := λ ev, Some ("job-" +:+ HookID (EvHook ev));
     WaitForJob := λ j, Some {| CJobID := j; Output := "out"; CExitCode := 0%Z |};
     payload_patch_of := λ _, Some sample_patch |}.
Definition sample_hook (id : string) : Hook :=
  {| HookID := id; HookName := id; HookKind := HandlerKindNone; Consumes := []; Produces := Some ["artifact"];
     Requires := []; HookAgent := ""; Kit := "k"; Command := "c" |}.
Definition sample_meta : ProjectMeta := Some {["dev" := [sample_hook "build"]]}.
Definition executing_task : Task := sample_task TaskTypeExecution "executing" (Some sample_exec).

Definition sample_dispatch : outcome coord_err (option DispatchResult * option coord_err) :=
  DispatchAndAdvance (H := sample_runtime) (Some (Some [])) executing_task sample_meta NewExecutionMachine.
Definition sample_result : DispatchResult :=
  match sample_dispatch with Ok (Some r, _) => r | _ => failed_dispatch [] end.

Lemma dispatch_modes_agree_witness :
  ∃ seq err, dispatchSequential (H := sample_runtime) executing_task [] [sample_hook "a"; sample_hook "b"] = Ok (seq, err) ∧
    (err = None → length seq = 2%nat).
Proof.
  destruct (dispatch_modes_agree (H := sample_runtime) executing_task [sample_hook "a"; sample_hook "b"]
    [{| HID := "a"; HRole := RoleHook; HJobID := "job-a"; ExitCode := 0%Z; PayloadPatch := sample_patch |};
     {| HID := "b"; HRole := RoleHook; HJobID := "job-b"; ExitCode := 0%Z; PayloadPatch := sample_patch |}])
    as (seq & err & _ & Hs & _ & Hall).
  - repeat constructor; vm_compute; reflexivity.
  - exists seq, err. split; [exact Hs|]. intros He. rewrite (Hall He). reflexivity.
Defined.

Lemma DispatchAndAdvance_all_or_nothing_witness :
  HID <$> Results sample_result = ["build"] ∧ Forall succeeded (Results sample_result).
Proof.
  destruct (DispatchAndAdvance_all_or_nothing (H := sample_runtime) (Some (Some [])) executing_task sample_meta
    NewExecutionMachine sample_result None) as (_ & Hids & Hok & _); [vm_compute; reflexivity|].
  split; [exact Hids|exact Hok].
Defined.

Lemma DispatchAndAdvance_delta_witness :
  ∃ full delta, decoded (FinalPayload sample_result) = Some full ∧ decoded (PayloadDelta sample_result) = Some delta ∧
    layered_at ∅ delta full "artifact".
Proof.
  destruct (DispatchAndAdvance_delta (H := sample_runtime) (Some (Some [])) executing_task sample_meta
    NewExecutionMachine sample_result sample_exec ∅) as (full & delta & Hf & Hd & Hl & _);
    [vm_compute; reflexivity|reflexivity|reflexivity|].
  exists full, delta. split; [exact Hf|]. split; [exact Hd|]. apply Hl.
Defined.

Definition shared_patch : raw := RText true (JObj [("verification", JStr "ok")]).
Definition shared_runtime : HookRuntime :=
  {| ExecuteHook := λ ev, Some ("job-" +:+ HookID (EvHook ev));
     WaitForJob := λ j, Some {| CJobID := j; Output := "out"; CExitCode := 0%Z |};
     payload_patch_of := λ _, Some shared_patch |}.
Definition two_hooks : ProjectMeta := Some {["dev" := [sample_hook "a"; sample_hook "b"]]}.
Definition shared_result : DispatchResult :=
  match DispatchAndAdvance (H := shared_runtime) None executing_task two_hooks NewExecutionMachine with
  | Ok (Some r, _) => r
  | _ => failed_dispatch []
  end.

Lemma DispatchAndAdvance_exclusive_witness : TraitMergeMode "verification" = MergeModeShared.
Proof.
  apply (DispatchAndAdvance_exclusive (H := shared_runtime) None executing_task two_hooks NewExecutionMachine
    shared_result 0 1
    {| HID := "a"; HRole := RoleHook; HJobID := "job-a"; ExitCode := 0%Z; PayloadPatch := shared_patch |}
    {| HID := "b"; HRole := RoleHook; HJobID := "job-b"; ExitCode := 0%Z; PayloadPatch := shared_patch |});
    try (vm_compute; reflexivity); [discriminate|eexists; vm_compute; reflexivity|eexists; vm_compute; reflexivity].
Defined.

(** The task failed, was reopened and reports success. *)
Definition sample_history : list Action :=
  [sample_entry "start" "executing"; sample_entry "fail_request" ""; sample_entry "reopen" "executing"; sample_entry "done_request" ""].
Definition history_result : DispatchResult :=
  match DispatchAndAdvance (H := sample_runtime) (Some (Some sample_history)) executing_task sample_meta NewExecutionMachine with
  | Ok (Some r, _) => r
  | _ => failed_dispatch []
  end.
Lemma DispatchAndAdvance_outcome_witness :
  (NewStatus history_result, DActionPayload history_result) = (TaskStatusDone, Some (message_payload "")).
Proof.
  refine (eq_trans (DispatchAndAdvance_outcome (H := sample_runtime) (Some (Some sample_history)) executing_task sample_meta history_result
      sample_exec ∅ (take 3 sample_history) (drop 3 sample_history) _ eq_refl eq_refl eq_refl _ _) _).
  - vm_compute. reflexivity.
  - intros a [= <-]. split; reflexivity.
  - apply Forall_singleton. intros [_ Hr]. discriminate Hr.
  - vm_compute. reflexivity.
Defined.

Lemma DispatchAndAdvance_total_witness : ∃ r err, sample_dispatch = Ok (Some r, err).
Proof.
  apply (DispatchAndAdvance_total (H := sample_runtime) (Some (Some [])) executing_task sample_meta sample_exec ∅);
    [vm_compute; lia|reflexivity|reflexivity].
Defined.

(** A task whose active instruction names an agent with a harness, and whose
    behavior declares an agent hook of its own beside the hook replayed. *)
Definition agent_exec : ExecAttrs :=
  {| Behavior := "dev"; Traits := []; Readonly := false; BranchPrefix := ""; BaseBranch := "main";
     Payload := raw_obj0; TInstructions := [{| Agent := "claude-code"; IName := "main"; Message := "m"; Model := "" |}];
     AutoStart := false |}.
Definition agent_task : Task := sample_task TaskTypeExecution "executing" (Some agent_exec).
Definition agent_hooks : list Hook :=
  [sample_hook "build";
   {| HookID := "run-agent"; HookName := "run-agent"; HookKind := HandlerKindAgent; Consumes := []; Produces := None;
      Requires := []; HookAgent := "claude-code"; Kit := "k"; Command := "" |}].
Definition agent_meta : ProjectMeta := Some {["dev" := agent_hooks]}.
Definition sample_replay : ReplayResult :=
  match ReplayHook (H := sample_runtime) None agent_task agent_meta NewExecutionMachine "build" with
  | Ok r => r
  | _ => {| RResult := None; RFinalPayload := REmpty; RPayloadDelta := REmpty; RNewStatus := ""; RFiredEvents := [] |}
  end.

(** Replaying the hook "build" also launches the agent. *)
Lemma ReplayHook_runs_witness : "agent:claude-code" ∈ HandlerID <$> RFiredEvents sample_replay.
Proof.
  destruct (ReplayHook_runs (H := sample_runtime) None agent_task agent_meta NewExecutionMachine "build" sample_replay)
    as (hooks & found & Hb & Hin & Hid & _ & _ & Hsyn); [vm_compute; reflexivity|].
  assert (lookupBehavior agent_meta agent_task = Some agent_hooks) as E by (vm_compute; reflexivity).
  rewrite E in Hb. injection Hb as <-. refine (Hsyn _ _ eq_refl).
  apply elem_of_cons in Hin as [->|Hin]; [reflexivity|]. apply list_elem_of_singleton in Hin as ->. discriminate Hid.
Defined.
