(* ===== verification/Store.v ===== *)
(** * Store operations

    The SQL-backed components (internal/orchestrator's card_request*.go,
    trigger_run.go) are functions of a database handle that may write, then
    fail.  They are modelled in a state and error monad in which the writes
    made before an error survive, as they do on a bare connection;
    [InTxDB] (internal/db/db.go) is what rolls them back. *)
From S2P Require Import Prelude.

(** content_size.go, on the length of the content. *)
Definition MaxContentBytes : Z := 64 * 1024.
Definition ValidateContentSize (len : Z) : bool := (len <=? MaxContentBytes)%Z.

Definition dbm (S E A : Type) : Type := S → S * (E + A).

#[export] Instance dbm_ret {S E} : MRet (dbm S E) := λ A a s, (s, inr a).
#[export] Instance dbm_bind {S E} : MBind (dbm S E) := λ A B f m s,
  match m s with
  | (s', inr a) => f a s'
  | (s', inl e) => (s', inl e)
  end.

Section ops.
Context {S E : Type}.

Definition throw {A} (e : E) : dbm S E A := λ s, (s, inl e).
Definition gets {A} (f : S → A) : dbm S E A := λ s, (s, inr (f s)).
Definition modify (f : S → S) : dbm S E unit := λ s, (f s, inr ()).

(** Go's [if cond { return err }]. *)
Definition fail_if (c : bool) (e : E) : dbm S E unit := if c then throw e else mret ().

(** Rewrites the error of a failed call, as [fmt.Errorf] and the callers'
    constraint classification do. *)
Definition map_err {A} (f : E → E) (m : dbm S E A) : dbm S E A := λ s,
  match m s with (s', inl e) => (s', inl (f e)) | r => r end.

(** The error as a value: Go's [x, err := f()] when the caller goes on. *)
Definition try_ {A} (m : dbm S E A) : dbm S E (E + A) := λ s, let '(s', r) := m s in (s', inr r).

(** [db.InTxDB]: commit on success, roll back on error. *)
Definition InTxDB {A} (m : dbm S E A) : dbm S E A := λ s,
  match m s with
  | (s', inr a) => (s', inr a)
  | (_, inl e) => (s, inl e)
  end.

Fixpoint for_each {A} (f : A → dbm S E unit) (xs : list A) : dbm S E unit :=
  match xs with
  | [] => mret ()
  | x :: xs => _ ← f x; for_each f xs
  end.

(** ** Reasoning about operations *)
Definition preserves {A} (I : S → Prop) (m : dbm S E A) : Prop := ∀ s, I s → I (m s).1.

Lemma preserves_ret {A} I (a : A) : preserves I (mret a).
Proof. by intros s. Qed.
Lemma preserves_throw {A} I e : preserves I (throw (A := A) e).
Proof. by intros s. Qed.
Lemma preserves_gets {A} I (f : S → A) : preserves I (gets f).
Proof. by intros s. Qed.
Lemma preserves_fail_if I c e : preserves I (fail_if c e).
Proof. intros s Hs. by destruct c. Qed.
Lemma preserves_bind {A B} I (m : dbm S E A) (f : A → dbm S E B) :
  preserves I m → (∀ a, preserves I (f a)) → preserves I (m ≫= f).
Proof.
  intros Hm Hf s Hs. unfold mbind, dbm_bind. specialize (Hm s Hs).
  destruct (m s) as [s' [e|a]]; [done|]. by apply Hf.
Qed.
Lemma preserves_map_err {A} I f (m : dbm S E A) : preserves I m → preserves I (map_err f m).
Proof. intros Hm s Hs. unfold map_err. specialize (Hm s Hs). by destruct (m s) as [s' [e|a]]. Qed.
Lemma preserves_try {A} I (m : dbm S E A) : preserves I m → preserves I (try_ m).
Proof. intros Hm s Hs. unfold try_. specialize (Hm s Hs). by destruct (m s). Qed.
Lemma preserves_for_each {A} I (f : A → dbm S E unit) xs :
  (∀ x, preserves I (f x)) → preserves I (for_each f xs).
Proof.
  intros Hf. induction xs as [|x xs IH]; simpl; [apply preserves_ret|].
  apply preserves_bind; [apply Hf|done].
Qed.

(** A transaction preserves an invariant its body re-establishes on success. *)
Lemma preserves_InTxDB {A} (I : S → Prop) (m : dbm S E A) :
  (∀ s s' a, I s → m s = (s', inr a) → I s') → preserves I (InTxDB m).
Proof.
  intros Hm s Hs. unfold InTxDB. destruct (m s) as [s' [e|a]] eqn:Hms; [done|]. by eapply Hm.
Qed.

(** ** What an operation may do to the state, whatever its outcome *)
Definition steps {A} (R : relation S) (m : dbm S E A) : Prop := ∀ s, R s (m s).1.

Section steps.
Context (R : relation S) `{!Reflexive R, !Transitive R}.

Lemma steps_ret {A} (a : A) : steps R (mret a).
Proof. by intros s. Qed.
Lemma steps_throw {A} e : steps R (throw (A := A) e).
Proof. by intros s. Qed.
Lemma steps_gets {A} (f : S → A) : steps R (gets f).
Proof. by intros s. Qed.
Lemma steps_fail_if c e : steps R (fail_if c e).
Proof. intros s. by destruct c. Qed.
Lemma steps_modify f : (∀ s, R s (f s)) → steps R (modify f).
Proof. by intros Hf s. Qed.
Lemma steps_bind {A B} (m : dbm S E A) (f : A → dbm S E B) :
  steps R m → (∀ a, steps R (f a)) → steps R (m ≫= f).
Proof.
  intros Hm Hf s. unfold mbind, dbm_bind. specialize (Hm s).
  destruct (m s) as [s' [e|a]]; [done|]. transitivity s'; [done|apply Hf].
Qed.
(** For a continuation that relies on what the first step returned. *)
Lemma steps_bind_ok {A B} (m : dbm S E A) (f : A → dbm S E B) :
  steps R m → (∀ s s' a, m s = (s', inr a) → steps R (f a)) → steps R (m ≫= f).
Proof.
  intros Hm Hf s. unfold mbind, dbm_bind. specialize (Hm s).
  destruct (m s) as [s' [e|a]] eqn:E1; [done|]. transitivity s'; [done|by eapply Hf].
Qed.
Lemma steps_map_err {A} f (m : dbm S E A) : steps R m → steps R (map_err f m).
Proof. intros Hm s. unfold map_err. specialize (Hm s). by destruct (m s) as [s' [e|a]]. Qed.
Lemma steps_try {A} (m : dbm S E A) : steps R m → steps R (try_ m).
Proof. intros Hm s. unfold try_. specialize (Hm s). by destruct (m s). Qed.
Lemma steps_InTxDB {A} (m : dbm S E A) : steps R m → steps R (InTxDB m).
Proof. intros Hm s. unfold InTxDB. specialize (Hm s). by destruct (m s) as [s' [e|a]]. Qed.
Lemma steps_for_each {A} (f : A → dbm S E unit) xs : (∀ x, steps R (f x)) → steps R (for_each f xs).
Proof. intros Hf. induction xs as [|x xs IH]; simpl; [apply steps_ret|]. by apply steps_bind. Qed.
End steps.

Lemma bind_ok {A B} (m : dbm S E A) (f : A → dbm S E B) s s' b :
  (m ≫= f) s = (s', inr b) ↔ ∃ a s1, m s = (s1, inr a) ∧ f a s1 = (s', inr b).
Proof.
  unfold mbind, dbm_bind. destruct (m s) as [s1 [e|a]]; [naive_solver|]. split; [eauto|].
  by intros (? & ? & [= -> ->] & ?).
Qed.
End ops.

(** ** Operations that do not fail *)
Definition returns {S E A} (Q : A → Prop) (m : dbm S E A) : Prop := ∀ s, ∃ s' a, m s = (s', inr a) ∧ Q a.

Section returns.
Context {S E : Type}.
Lemma returns_ret {A} (Q : A → Prop) (a : A) : Q a → returns Q (mret a : dbm S E A).
Proof. intros Hq s. by exists s, a. Qed.
Lemma returns_gets {A} (f : S → A) : returns (λ _, True) (gets f : dbm S E A).
Proof. intros s. by exists s, (f s). Qed.
Lemma returns_modify f : returns (λ _, True) (modify f : dbm S E unit).
Proof. intros s. by exists (f s), (). Qed.
Lemma returns_try {A} (m : dbm S E A) : returns (λ _, True) (try_ m).
Proof. intros s. unfold try_. destruct (m s) as [s' r]. by exists s', r. Qed.
Lemma returns_bind {A B} (P : A → Prop) (Q : B → Prop) (m : dbm S E A) (f : A → dbm S E B) :
  returns P m → (∀ a, P a → returns Q (f a)) → returns Q (m ≫= f).
Proof.
  intros Hm Hf s. destruct (Hm s) as (s1 & a & Hr & Ha). destruct (Hf a Ha s1) as (s2 & b & Hr' & Hb).
  exists s2, b. split; [|done]. unfold mbind, dbm_bind. by rewrite Hr.
Qed.
Lemma returns_bind' {A B} (Q : B → Prop) (m : dbm S E A) (f : A → dbm S E B) :
  returns (λ _, True) m → (∀ a, returns Q (f a)) → returns Q (m ≫= f).
Proof. intros Hm Hf. eapply returns_bind; [done|]. intros a _. apply Hf. Qed.
End returns.

Create HintDb returns.
#[export] Hint Resolve returns_ret returns_gets returns_modify returns_try : returns.
Ltac returns_tac :=
  repeat first
    [ progress intros
    | solve [eauto with returns]
    | apply returns_bind'
    | case_match ].

(** ** Invariants that results depend on

    [delivers I Q m]: from a state satisfying [I], [m] ends in one, whatever
    its outcome, and a result it returns satisfies [Q]. *)
Definition delivers {S E A} (I : S → Prop) (Q : A → Prop) (m : dbm S E A) : Prop :=
  ∀ s, I s → I (m s).1 ∧ ∀ a, (m s).2 = inr a → Q a.

Definition if_ok {E A} (Q : A → Prop) (r : E + A) : Prop := match r with inr a => Q a | inl _ => True end.

Section delivers.
Context {S E : Type} (I : S → Prop).
Lemma delivers_ret {A} (Q : A → Prop) (a : A) : Q a → delivers I Q (mret a : dbm S E A).
Proof. intros Hq s Hs. split; [done|]. by intros ? [= <-]. Qed.
Lemma delivers_throw {A} (Q : A → Prop) (e : E) : delivers I Q (throw (A := A) e).
Proof. by intros s Hs. Qed.
Lemma delivers_fail_if (c : bool) (e : E) : delivers I (λ _, c = false) (fail_if c e).
Proof. intros s Hs. by destruct c. Qed.
Lemma delivers_steps {A} (R : relation S) (m : dbm S E A) :
  (∀ s s', R s s' → I s → I s') → steps R m → delivers I (λ _, True) m.
Proof. intros HR Hm s Hs. split; [|done]. eapply HR; [apply Hm|done]. Qed.
Lemma delivers_weaken {A} (Q Q' : A → Prop) (m : dbm S E A) :
  delivers I Q m → (∀ a, Q a → Q' a) → delivers I Q' m.
Proof. intros Hm HQ s Hs. destruct (Hm s Hs). eauto. Qed.
Lemma delivers_bind {A B} (P : A → Prop) (Q : B → Prop) (m : dbm S E A) (f : A → dbm S E B) :
  delivers I P m → (∀ a, P a → delivers I Q (f a)) → delivers I Q (m ≫= f).
Proof.
  intros Hm Hf s Hs. destruct (Hm s Hs) as [Hs' Hp]. unfold mbind, dbm_bind.
  destruct (m s) as [s' [e|a]]; simpl in *; [by split|]. by apply Hf; [apply Hp|].
Qed.
Lemma delivers_map_err {A} (Q : A → Prop) g (m : dbm S E A) : delivers I Q m → delivers I Q (map_err g m).
Proof. intros Hm s Hs. destruct (Hm s Hs). unfold map_err. by destruct (m s) as [s' [e|a]]. Qed.
Lemma delivers_try {A} (Q : A → Prop) (m : dbm S E A) : delivers I Q m → delivers I (if_ok Q) (try_ m).
Proof.
  intros Hm s Hs. destruct (Hm s Hs) as [Hs' Hq]. unfold try_. destruct (m s) as [s' [e|a]]; simpl in *; (split; [done|]);
    intros r [= <-]; [done|by apply Hq].
Qed.
Lemma delivers_InTxDB {A} (Q : A → Prop) (m : dbm S E A) : delivers I Q m → delivers I Q (InTxDB m).
Proof. intros Hm s Hs. destruct (Hm s Hs). unfold InTxDB. by destruct (m s) as [s' [e|a]]. Qed.
Lemma delivers_for_each {A} (f : A → dbm S E unit) xs :
  (∀ x, delivers I (λ _, True) (f x)) → delivers I (λ _, True) (for_each f xs).
Proof.
  intros Hf. induction xs as [|x xs IH]; simpl; [by apply delivers_ret|].
  apply (delivers_bind (λ _, True)); [apply Hf|done].
Qed.
End delivers.

(** Running a sequence, one call at a time. *)
Lemma bind_err {S E A B} (m : dbm S E A) (f : A → dbm S E B) s s' e :
  (m ≫= f) s = (s', inl e) → m s = (s', inl e) ∨ ∃ a s1, m s = (s1, inr a) ∧ f a s1 = (s', inl e).
Proof. unfold mbind, dbm_bind. destruct (m s) as [s1 [e1|a]]; [intros [= <- <-]; by left|right; by exists a, s1]. Qed.
Lemma bind_run {S E A B} (m : dbm S E A) (f : A → dbm S E B) s s1 a :
  m s = (s1, inr a) → (m ≫= f) s = f a s1.
Proof. intros Hm. unfold mbind, dbm_bind. by rewrite Hm. Qed.
Lemma bind_stop {S E A B} (m : dbm S E A) (f : A → dbm S E B) s s1 e :
  m s = (s1, inl e) → (m ≫= f) s = (s1, inl e).
Proof. intros Hm. unfold mbind, dbm_bind. by rewrite Hm. Qed.
Lemma bind_gets {S E A B} (g : S → A) (f : A → dbm S E B) s : (gets g ≫= f) s = f (g s) s.
Proof. done. Qed.
Lemma bind_fail_if {S E B} c (e : E) (f : unit → dbm S E B) s :
  (fail_if c e ≫= f) s = if c then (s, inl e) else f () s.
Proof. by destruct c. Qed.

Lemma ret_ok {S E A} (a b : A) (s s' : S) : (mret a : dbm S E A) s = (s', inr b) ↔ s' = s ∧ b = a.
Proof. split; [by intros [= -> ->]|by intros [-> ->]]. Qed.
Lemma gets_ok {S E A} (g : S → A) (b : A) (s s' : S) : (gets g : dbm S E A) s = (s', inr b) ↔ s' = s ∧ b = g s.
Proof. split; [by intros [= -> ->]|by intros [-> ->]]. Qed.
Lemma try_ok {S E A} (m : dbm S E A) r (s s' : S) : try_ m s = (s', inr r) → m s = (s', r).
Proof. unfold try_. destruct (m s) as [s1 x]. naive_solver. Qed.

Lemma map_err_ok {S E A} (f : E → E) (m : dbm S E A) s s' a :
  map_err f m s = (s', inr a) ↔ m s = (s', inr a).
Proof. unfold map_err. destruct (m s) as [s1 [e|b]]; naive_solver. Qed.

#[export] Hint Resolve preserves_ret preserves_throw preserves_gets preserves_fail_if
  preserves_map_err preserves_try : boid.

(** Walks through an operation, leaving its primitive writes; [R] must have
    [Reflexive] and [Transitive] instances. *)
Create HintDb steps.
#[export] Hint Resolve steps_ret steps_throw steps_gets steps_fail_if steps_map_err steps_try
  steps_InTxDB steps_for_each : steps.
Ltac steps_tac :=
  repeat first
    [ progress intros
    | solve [eauto with steps typeclass_instances]
    | apply steps_bind; [apply _|..]
    | apply steps_try | apply steps_InTxDB; [apply _|] | apply steps_map_err
    | case_match ].
