(* ===== verification/CardDetail.v ===== *)
(** * The detail blob of a card

    Models the JSON half of internal/orchestrator/card.go: the children list
    of a card (its work breakdown), the opaque attributes and the suggestion,
    all kept in one schema-light JSON object.  Every write decodes the object
    into a map, replaces one key and encodes it again.

    A [[]TaskTriageChild] is a list here; no caller stores an empty one, so a
    nil and an empty slice need not be told apart. *)
From S2P Require Import Prelude Json Task.

(** ** Children *)
Definition TaskTriageChildStatusOpen : string := "open".
Definition TaskTriageChildStatusSpecced : string := "specced".
Definition TaskTriageChildStatusDispatched : string := "dispatched".
Definition TaskTriageChildStatusClosed : string := "closed".

Record TaskTriageChildSpec : Type := {
  SProject : string;
  SBehavior : string;
  SDescription : string;
  SInstruction : string;
}.

Record TaskTriageChild : Type := {
  ChID : string;
  ChTitle : string;
  ChStatus : string;
  ChSpec : option TaskTriageChildSpec;
  TaskRef : string;
}.

#[export] Instance TaskTriageChildSpec_eq_dec : EqDecision TaskTriageChildSpec.
Proof. solve_decision. Defined.
#[export] Instance TaskTriageChild_eq_dec : EqDecision TaskTriageChild.
Proof. solve_decision. Defined.

Definition zero_spec : TaskTriageChildSpec :=
  {| SProject := ""; SBehavior := ""; SDescription := ""; SInstruction := "" |}.
Definition zero_child : TaskTriageChild :=
  {| ChID := ""; ChTitle := ""; ChStatus := ""; ChSpec := None; TaskRef := "" |}.

Definition set_ChStatus (c : TaskTriageChild) (st : string) : TaskTriageChild :=
  {| ChID := ChID c; ChTitle := ChTitle c; ChStatus := st; ChSpec := ChSpec c; TaskRef := TaskRef c |}.

Definition spec_member (c : TaskTriageChildSpec) (k : string) (v : json) : TaskTriageChildSpec * bool :=
  if field_matches "project" k then
    let r := dec_string (SProject c) v in
    ({| SProject := r.1; SBehavior := SBehavior c; SDescription := SDescription c; SInstruction := SInstruction c |}, r.2)
  else if field_matches "behavior" k then
    let r := dec_string (SBehavior c) v in
    ({| SProject := SProject c; SBehavior := r.1; SDescription := SDescription c; SInstruction := SInstruction c |}, r.2)
  else if field_matches "description" k then
    let r := dec_string (SDescription c) v in
    ({| SProject := SProject c; SBehavior := SBehavior c; SDescription := r.1; SInstruction := SInstruction c |}, r.2)
  else if field_matches "instruction" k then
    let r := dec_string (SInstruction c) v in
    ({| SProject := SProject c; SBehavior := SBehavior c; SDescription := SDescription c; SInstruction := r.1 |}, r.2)
  else (c, true).

Definition child_member (c : TaskTriageChild) (k : string) (v : json) : TaskTriageChild * bool :=
  if field_matches "id" k then
    let r := dec_string (ChID c) v in
    ({| ChID := r.1; ChTitle := ChTitle c; ChStatus := ChStatus c; ChSpec := ChSpec c; TaskRef := TaskRef c |}, r.2)
  else if field_matches "title" k then
    let r := dec_string (ChTitle c) v in
    ({| ChID := ChID c; ChTitle := r.1; ChStatus := ChStatus c; ChSpec := ChSpec c; TaskRef := TaskRef c |}, r.2)
  else if field_matches "status" k then
    let r := dec_string (ChStatus c) v in (set_ChStatus c r.1, r.2)
  else if field_matches "spec" k then
    let r := dec_ptr zero_spec (dec_struct spec_member) (ChSpec c) v in
    ({| ChID := ChID c; ChTitle := ChTitle c; ChStatus := ChStatus c; ChSpec := r.1; TaskRef := TaskRef c |}, r.2)
  else if field_matches "task_ref" k then
    let r := dec_string (TaskRef c) v in
    ({| ChID := ChID c; ChTitle := ChTitle c; ChStatus := ChStatus c; ChSpec := ChSpec c; TaskRef := r.1 |}, r.2)
  else (c, true).

Definition children_member (cs : gslice TaskTriageChild) (k : string) (v : json) : gslice TaskTriageChild * bool :=
  if field_matches "children" k then dec_slice zero_child (dec_struct child_member) cs v else (cs, true).

Definition marshal_spec (s : TaskTriageChildSpec) : json :=
  JObj ([("project", JStr (SProject s))] ++ omitempty "behavior" (SBehavior s)
        ++ omitempty "description" (SDescription s) ++ omitempty "instruction" (SInstruction s)).

Definition marshal_child (c : TaskTriageChild) : json :=
  JObj ([("id", JStr (ChID c))] ++ omitempty "title" (ChTitle c) ++ [("status", JStr (ChStatus c))]
        ++ (match ChSpec c with Some s => [("spec", marshal_spec s)] | None => [] end)
        ++ omitempty "task_ref" (TaskRef c)).

Inductive detail_err : Type :=
| ErrParseChildren
| ErrParseDetail
| ErrParseAttrs
| ErrChildNotFound (id : string)
| ErrChildDispatched (id : string).

#[export] Instance detail_err_eq_dec : EqDecision detail_err.
Proof. solve_decision. Defined.

Abbreviation fallible := (outcome detail_err).

Definition DetailChildren (detail : raw) : fallible (list TaskTriageChild) :=
  if len0 detail || is_lit_null detail then Ok []
  else match detail with
       | RText _ v =>
           let r := dec_struct children_member nil_slice v in
           if r.2 then Ok (slice_elems r.1) else Err ErrParseChildren
       | _ => Err ErrParseChildren
       end.

Definition undispatched (c : TaskTriageChild) : bool :=
  bool_decide (ChStatus c = TaskTriageChildStatusOpen) || bool_decide (ChStatus c = TaskTriageChildStatusSpecced).

Definition DetailOpenSlotChildID (detail : raw) : fallible string :=
  children ← DetailChildren detail;
  Ok (match list_find (λ c, undispatched c = true) children with
      | Some (_, c) => ChID c
      | None => ""
      end).

(** The loop over the live children; [n] counts up from the JSON occupants. *)
Definition count_live (jsonOccupants : gset string) (n : nat) (lc : Task) : nat :=
  if IsTerminalStatus (Status lc) then n
  else if negb (str_empty (Ref lc)) && bool_decide (Ref lc ∈ jsonOccupants) then n
  else S n.

Definition json_occupants (children : list TaskTriageChild) : gset string :=
  list_to_set (ChID <$> filter (λ c, undispatched c = true) children).

Definition CountUnresolvedChildren (detail : raw) (liveChildren : list Task) : fallible nat :=
  children ← DetailChildren detail;
  let jsonOccupants := json_occupants children in
  Ok (foldl (count_live jsonOccupants) (size jsonOccupants) liveChildren).

(** ** Suggestions *)
Record Suggestion : Type := {
  Verb : string;
  SAction : string;
  Reason : string;
  Basis : string;
}.

(** The raw value of a member, empty when it is absent. *)
Definition member_raw (m : gomap) (k : string) : raw :=
  match go_lookup m k with Some v => nested v | None => REmpty end.

Definition decodeSuggestion (r : raw) : option Suggestion :=
  if len0 r || is_lit_null r then None
  else match r with
       | RText _ v =>
           match decode_struct ["verb"; "action"; "reason"; "basis"] v with
           | ([verb; action; reason; basis], true) =>
               if str_empty verb && str_empty action && str_empty reason && str_empty basis then None
               else Some {| Verb := verb; SAction := action; Reason := reason; Basis := basis |}
           | _ => None
           end
       | _ => None
       end.

(** Which candidate wins: the top-level value, then the one in attrs. *)
Definition suggestion_raw (detail : raw) : option raw :=
  if len0 detail || is_lit_null detail then None
  else top ← unmarshal_map detail;
       let r := member_raw top "suggestion" in
       if bool_decide (is_Some (Verb <$> decodeSuggestion r)) then Some r
       else attrs ← unmarshal_map (member_raw top "attrs");
            let r := member_raw attrs "suggestion" in
            if bool_decide (is_Some (Verb <$> decodeSuggestion r)) then Some r else None.

Definition DetailSuggestion (detail : raw) : option Suggestion := suggestion_raw detail ≫= decodeSuggestion.
Definition DetailSuggestionRaw (detail : raw) : option raw := suggestion_raw detail.

(** ** Writes *)
Definition parseDetailMap (detail : raw) : fallible gomap :=
  if len0 detail || is_lit_null detail then Ok (Some ∅)
  else match unmarshal_map detail with Some m => Ok m | None => Err ErrParseDetail end.

Definition SetDetailChildren (detail : raw) (children : list TaskTriageChild) : fallible raw :=
  m ← parseDetailMap detail;
  m ← go_set m "children" (match children with [] => JNull | _ => JArr (marshal_child <$> children) end);
  Ok (marshal_map m).

(** The attrs object: [None] when there is none to speak of. *)
Definition detail_attrs (m : gomap) : fallible (option (gmap string json)) :=
  match go_lookup m "attrs" with
  | None | Some JNull => Ok None
  | Some v => match value_map v with
              | Some (Some attrs) => Ok (Some attrs)
              | _ => Err ErrParseAttrs
              end
  end.

Definition StripDetailAttrs (detail : raw) (keys : list string) : fallible raw :=
  m ← parseDetailMap detail;
  attrs ← detail_attrs m;
  match attrs with
  | None => Ok detail
  | Some attrs =>
      if existsb (λ k, bool_decide (is_Some (attrs !! k))) keys then
        m ← go_set m "attrs" (obj_of_map (foldl (λ a k, delete k a) attrs keys));
        Ok (marshal_map m)
      else Ok detail
  end.

Definition FoldDetailAttrs (detail : raw) (patch : gmap string json) : fallible raw :=
  m ← parseDetailMap detail;
  attrs ← detail_attrs m;
  m ← go_set m "attrs" (obj_of_map (patch ∪ default ∅ attrs));
  Ok (marshal_map m).

Definition AddDetailChild (detail : raw) (child : TaskTriageChild) : fallible raw :=
  children ← DetailChildren detail;
  if existsb (λ c, bool_decide (ChID c = ChID child)) children then Ok detail
  else
    let child := if str_empty (ChStatus child) then set_ChStatus child TaskTriageChildStatusOpen else child in
    SetDetailChildren detail (children ++ [child]).

Definition specced (spec : TaskTriageChildSpec) (title : string) (c : TaskTriageChild) : TaskTriageChild :=
  {| ChID := ChID c; ChTitle := if str_empty title then ChTitle c else title;
     ChStatus := TaskTriageChildStatusSpecced; ChSpec := Some spec; TaskRef := TaskRef c |}.

Definition settled (c : TaskTriageChild) : bool :=
  bool_decide (ChStatus c = TaskTriageChildStatusDispatched) || bool_decide (ChStatus c = TaskTriageChildStatusClosed).

Definition SpecDetailChild (detail : raw) (id : string) (spec : TaskTriageChildSpec) (title : string) : fallible raw :=
  children ← DetailChildren detail;
  match list_find (λ c, ChID c = id) children with
  | None => Err (ErrChildNotFound id)
  | Some (i, c) =>
      if settled c then Ok detail
      else SetDetailChildren detail (<[i := specced spec title c]> children)
  end.

Definition MarkDetailChildClosed (detail : raw) (childTaskID : string) : fallible (raw * bool) :=
  children ← DetailChildren detail;
  match list_find (λ c, TaskRef c = childTaskID ∧ ChStatus c ≠ TaskTriageChildStatusClosed) children with
  | None => Ok (detail, false)
  | Some (i, c) =>
      newDetail ← SetDetailChildren detail (<[i := set_ChStatus c TaskTriageChildStatusClosed]> children);
      Ok (newDetail, true)
  end.

Definition DropDetailChild (detail : raw) (id : string) : fallible (raw * bool) :=
  children ← DetailChildren detail;
  match list_find (λ c, ChID c = id) children with
  | None => Err (ErrChildNotFound id)
  | Some (i, c) =>
      if bool_decide (ChStatus c = TaskTriageChildStatusClosed) then Ok (detail, false)
      else if bool_decide (ChStatus c = TaskTriageChildStatusDispatched) then Err (ErrChildDispatched id)
      else
        newDetail ← SetDetailChildren detail (<[i := set_ChStatus c TaskTriageChildStatusClosed]> children);
        Ok (newDetail, true)
  end.

(** ** Round trips through the blob *)
Lemma dec_optional {A} (member : A → string → json → A * bool) (name s : string) (a b : A) :
  (s = "" → a = b) → (s ≠ "" → member a name (JStr s) = (b, true)) →
  foldl (dec_member member) (a, true) (omitempty name s) = (b, true).
Proof.
  unfold omitempty, str_empty. intros He Hne. case_bool_decide; [by rewrite He|].
  simpl. unfold dec_member. simpl. by rewrite Hne.
Qed.

Lemma spec_decodes s : dec_struct spec_member zero_spec (marshal_spec s) = (s, true).
Proof.
  destruct s as [p b d i]. unfold marshal_spec, dec_struct. cbn [SProject SBehavior SDescription SInstruction].
  rewrite !foldl_app. change (foldl (dec_member spec_member) (zero_spec, true) [("project", JStr p)])
    with ({| SProject := p; SBehavior := ""; SDescription := ""; SInstruction := "" |}, true).
  rewrite (dec_optional spec_member "behavior" b _
             {| SProject := p; SBehavior := b; SDescription := ""; SInstruction := "" |}); [|by intros ->|done].
  rewrite (dec_optional spec_member "description" d _
             {| SProject := p; SBehavior := b; SDescription := d; SInstruction := "" |}); [|by intros ->|done].
  by rewrite (dec_optional spec_member "instruction" i _
             {| SProject := p; SBehavior := b; SDescription := d; SInstruction := i |}) by (try intros ->; done).
Qed.

Lemma child_decodes c : dec_struct child_member zero_child (marshal_child c) = (c, true).
Proof.
  destruct c as [id t st sp tr]. unfold marshal_child, dec_struct. cbn [ChID ChTitle ChStatus ChSpec TaskRef].
  rewrite !foldl_app. change (foldl (dec_member child_member) (zero_child, true) [("id", JStr id)])
    with ({| ChID := id; ChTitle := ""; ChStatus := ""; ChSpec := None; TaskRef := "" |}, true).
  rewrite (dec_optional child_member "title" t _
             {| ChID := id; ChTitle := t; ChStatus := ""; ChSpec := None; TaskRef := "" |}); [|by intros ->|done].
  change (foldl (dec_member child_member) (_, true) [("status", JStr st)])
    with ({| ChID := id; ChTitle := t; ChStatus := st; ChSpec := None; TaskRef := "" |}, true).
  assert (foldl (dec_member child_member)
            ({| ChID := id; ChTitle := t; ChStatus := st; ChSpec := None; TaskRef := "" |}, true)
            (match sp with Some s => [("spec", marshal_spec s)] | None => [] end) =
          ({| ChID := id; ChTitle := t; ChStatus := st; ChSpec := sp; TaskRef := "" |}, true)) as ->.
  { destruct sp as [s|]; [|done].
    change ((let r := dec_ptr zero_spec (dec_struct spec_member) None (marshal_spec s) in
             ({| ChID := id; ChTitle := t; ChStatus := st; ChSpec := r.1; TaskRef := "" |}, true && r.2)) =
            ({| ChID := id; ChTitle := t; ChStatus := st; ChSpec := Some s; TaskRef := "" |}, true)).
    unfold dec_ptr. change (default zero_spec None) with zero_spec.
    by rewrite spec_decodes. }
  by rewrite (dec_optional child_member "task_ref" tr _
             {| ChID := id; ChTitle := t; ChStatus := st; ChSpec := sp; TaskRef := tr |}) by (try intros ->; done).
Qed.

Lemma children_decode cs cs0 :
  cs ≠ [] → backing cs0 = [] →
  dec_slice zero_child (dec_struct child_member) cs0 (JArr (marshal_child <$> cs)) =
    ({| backing := cs; slice_len := length cs |}, true).
Proof.
  intros Hne H0. unfold dec_slice. rewrite H0, drop_nil, app_nil_r, length_fmap.
  assert (imap (λ i item, dec_struct child_member (default zero_child (([] : list TaskTriageChild) !! i)) item)
            (marshal_child <$> cs) = (λ c, (c, true)) <$> cs) as ->.
  { rewrite imap_fmap, <- (imap_const (λ c, (c, true))). apply imap_ext. intros i c _. apply child_decodes. }
  rewrite <- list_fmap_compose, (list_fmap_ext _ id) by done. rewrite list_fmap_id.
  assert (forallb snd ((λ c, (c, true)) <$> cs) = true) as ->.
  { apply forallb_forall. by intros x (c & -> & _)%list_elem_of_In%list_elem_of_fmap. }
  by destruct cs.
Qed.

(** Decoding an object in which at most the member [k] concerns the struct. *)
Lemma dec_skip {A} (member : A → string → json → A * bool) acc fs :
  (∀ x a, x ∈ fs → member a x.1 x.2 = (a, true)) → foldl (dec_member member) acc fs = acc.
Proof.
  revert acc. induction fs as [|[j w] fs IH]; intros [a b] Hl; [done|]. simpl. unfold dec_member at 2. simpl.
  pose proof (Hl (j, w) a) as Hj. simpl in Hj. rewrite Hj by left. simpl. rewrite andb_true_r.
  apply IH. intros x a' Hx. apply Hl. by right.
Qed.

Lemma dec_struct_one {A} (member : A → string → json → A * bool) cur fs k :
  NoDup fs.*1 → (∀ x a, x ∈ fs → x.1 ≠ k → member a x.1 x.2 = (a, true)) →
  dec_struct member cur (JObj fs) =
    match fields_map fs !! k with
    | Some v => let r := member cur k v in (r.1, r.2)
    | None => (cur, true)
    end.
Proof.
  intros Hnd Hother. unfold dec_struct. rewrite fields_map_lookup_nodup by done.
  destruct (list_to_map fs !! k) as [v|] eqn:Hk.
  - apply elem_of_list_to_map_2, list_elem_of_split in Hk as (l1 & l2 & ->).
    rewrite fmap_app, fmap_cons in Hnd. apply NoDup_app in Hnd as (_ & Hd1 & [Hd2 _]%NoDup_cons).
    rewrite foldl_app, (dec_skip _ _ l1).
    2: { intros x a Hx. apply Hother; [apply elem_of_app; by left|]. intros Hk'.
         apply (Hd1 x.1); [by apply list_elem_of_fmap_2|]. rewrite Hk'. left. }
    simpl. rewrite (dec_skip _ _ l2); [done|].
    intros x a Hx. apply Hother; [apply elem_of_app; right; by right|]. intros Hk'.
    apply Hd2. simpl. rewrite <- Hk'. by apply list_elem_of_fmap_2.
  - apply not_elem_of_list_to_map_2 in Hk. apply dec_skip. intros x a Hx. apply Hother; [done|].
    intros <-. by apply Hk, list_elem_of_fmap_2.
Qed.

(** The blobs the daemon writes, and any other in which no key occurs twice
    and none but "children" decodes into the children. *)
Definition plain_fields (fs : list (string * json)) : Prop :=
  NoDup fs.*1 ∧ ∀ k, k ∈ fs.*1 → field_matches "children" k = true → k = "children".
Definition plain_detail (detail : raw) : Prop :=
  match detail with
  | REmpty => True
  | RText compact JNull => compact = true
  | RText _ (JObj fs) => plain_fields fs
  | _ => False
  end.

(** The blob as a map; an absent blob is the empty object. *)
Definition detail_map (detail : raw) : gmap string json :=
  match detail with RText _ (JObj fs) => fields_map fs | _ => ∅ end.

Definition children_at (v : option json) : fallible (list TaskTriageChild) :=
  match v with
  | None => Ok []
  | Some v => let r := dec_slice zero_child (dec_struct child_member) nil_slice v in
              if r.2 then Ok (slice_elems r.1) else Err ErrParseChildren
  end.

Lemma DetailChildren_plain detail :
  plain_detail detail → DetailChildren detail = children_at (detail_map detail !! "children").
Proof.
  destruct detail as [| |c [| | | | |fs]]; try done; [by intros ->|]. intros [Hnd Hk].
  unfold DetailChildren. assert (len0 (RText c (JObj fs)) || is_lit_null (RText c (JObj fs)) = false) as ->.
  { by destruct c. }
  cbv zeta. rewrite (dec_struct_one children_member nil_slice fs "children" Hnd).
  - cbn [detail_map]. destruct (fields_map fs !! "children"); done.
  - intros x a Hx Hne. unfold children_member. destruct (field_matches "children" x.1) eqn:Hf; [|done].
    apply Hk in Hf; [done|]. by apply list_elem_of_fmap_2.
Qed.

Lemma parse_plain detail : plain_detail detail → parseDetailMap detail = Ok (Some (detail_map detail)).
Proof. destruct detail as [| |c [| | | | |fs]]; try done; [by intros ->|]. by destruct c. Qed.

Lemma detail_map_marshal m : detail_map (marshal_map (Some m)) = m.
Proof. apply fields_map_sorted. Qed.

Lemma plain_marshal m :
  (∀ k, is_Some (m !! k) → field_matches "children" k = true → k = "children") →
  plain_detail (marshal_map (Some m)).
Proof.
  intros Hk. simpl. split; [rewrite sorted_fields_perm; apply NoDup_fst_map_to_list|].
  intros k Hin. apply Hk. rewrite sorted_fields_perm in Hin.
  apply list_elem_of_fmap in Hin as ([j v] & -> & Hin%elem_of_map_to_list). by exists v.
Qed.

Lemma plain_keys detail k :
  plain_detail detail → is_Some (detail_map detail !! k) → field_matches "children" k = true → k = "children".
Proof.
  destruct detail as [| |c [| | | | |fs]]; try done; simpl.
  - intros _ [? Hl]. by rewrite lookup_empty in Hl.
  - intros _ [? Hl]. by rewrite lookup_empty in Hl.
  - intros [Hnd Hk] [v Hl] Hf. apply Hk; [|done]. rewrite fields_map_lookup_nodup in Hl by done.
    apply elem_of_list_to_map_2 in Hl. by apply (list_elem_of_fmap_2' fst) with (x := (k, v)).
Qed.

(** Replacing a key of a plain blob. *)
Lemma plain_set detail k v :
  plain_detail detail → (field_matches "children" k = true → k = "children") →
  plain_detail (marshal_map (Some (<[k := v]> (detail_map detail)))).
Proof.
  intros Hp Hk. apply plain_marshal. intros j Hj Hf. destruct (decide (k = j)) as [->|Hne]; [by apply Hk|].
  rewrite lookup_insert_ne in Hj by done. by eapply plain_keys.
Qed.

Lemma children_at_marshal cs : cs ≠ [] → children_at (Some (JArr (marshal_child <$> cs))) = Ok cs.
Proof.
  intros Hne. unfold children_at. rewrite children_decode by done. unfold slice_elems. simpl.
  by rewrite firstn_all.
Qed.

Definition same_but (k : string) (d d' : raw) : Prop :=
  ∀ j, j ≠ k → detail_map d' !! j = detail_map d !! j.

Lemma SetDetailChildren_run detail cs :
  plain_detail detail → cs ≠ [] →
  ∃ detail', SetDetailChildren detail cs = Ok detail' ∧ plain_detail detail' ∧
    DetailChildren detail' = Ok cs ∧ same_but "children" detail detail'.
Proof.
  intros Hp Hne. unfold SetDetailChildren. rewrite parse_plain by done. simpl.
  assert (match cs with [] => JNull | _ => JArr (marshal_child <$> cs) end = JArr (marshal_child <$> cs)) as ->
    by (by destruct cs).
  eexists. split; [done|].
  assert (plain_detail (marshal_map (Some (<["children" := JArr (marshal_child <$> cs)]> (detail_map detail))))) as Hp'
    by by apply plain_set.
  split_and!; [done| |].
  - rewrite DetailChildren_plain by done. rewrite detail_map_marshal, lookup_insert_eq. by apply children_at_marshal.
  - intros j Hj. by rewrite detail_map_marshal, lookup_insert_ne.
Qed.

(** Storing a list of children in a card's blob and reading it back gives
    the list, with every id, title, status, specification and task reference;
    every other key of the blob is as it was. *)
Theorem children_round_trip detail children :
  plain_detail detail → children ≠ [] →
  ∃ detail', SetDetailChildren detail children = Ok detail' ∧ plain_detail detail' ∧
    DetailChildren detail' = Ok children ∧
    ∀ k, k ≠ "children" → detail_map detail' !! k = detail_map detail !! k.
Proof. apply SetDetailChildren_run. Qed.

Definition sample_spec : TaskTriageChildSpec :=
  {| SProject := "boid"; SBehavior := "dev"; SDescription := ""; SInstruction := "write the parser" |}.
Definition sample_child : TaskTriageChild :=
  {| ChID := "c1"; ChTitle := "parser"; ChStatus := TaskTriageChildStatusSpecced; ChSpec := Some sample_spec; TaskRef := "" |}.
Definition sample_detail : raw :=
  RText true (JObj [("attrs", JObj [("owner", JStr "nose")]); ("summary", JStr "a card")]).

Lemma sample_detail_plain : plain_detail sample_detail.
Proof.
  split; [by apply (bool_decide_unpack _)|]. intros k [->|[->|[]%elem_of_nil]%elem_of_cons]%elem_of_cons H; by vm_compute in H.
Qed.

Lemma children_round_trip_witness :
  ∃ detail', SetDetailChildren sample_detail [sample_child] = Ok detail' ∧ DetailChildren detail' = Ok [sample_child].
Proof.
  destruct (children_round_trip sample_detail [sample_child] sample_detail_plain) as (d & H1 & _ & H2 & _); [done|].
  by exists d.
Defined.

(** ** The list of children the blob stands for

    Operations on the list, and the operations of this file as their
    implementation on the blob. *)
Fixpoint update_first (P : TaskTriageChild → bool) (f : TaskTriageChild → TaskTriageChild)
    (cs : list TaskTriageChild) : list TaskTriageChild :=
  match cs with
  | [] => []
  | c :: cs => if P c then f c :: cs else c :: update_first P f cs
  end.

Inductive child_op : Type :=
| OpAdd (child : TaskTriageChild)
| OpSpec (id : string) (spec : TaskTriageChildSpec) (title : string)
| OpClose (taskID : string)
| OpDrop (id : string).

Definition has_id (id : string) (c : TaskTriageChild) : bool := bool_decide (ChID c = id).
Definition close (c : TaskTriageChild) : TaskTriageChild := set_ChStatus c TaskTriageChildStatusClosed.
Definition with_default_status (c : TaskTriageChild) : TaskTriageChild :=
  if str_empty (ChStatus c) then set_ChStatus c TaskTriageChildStatusOpen else c.

(** [None]: the operation is refused. *)
Definition abstract_op (op : child_op) (cs : list TaskTriageChild) : option (list TaskTriageChild) :=
  match op with
  | OpAdd child => Some (if existsb (has_id (ChID child)) cs then cs else cs ++ [with_default_status child])
  | OpSpec id spec title =>
      if existsb (has_id id) cs
      then Some (update_first (has_id id) (λ c, if settled c then c else specced spec title c) cs)
      else None
  | OpClose taskID =>
      Some (update_first (λ c, bool_decide (TaskRef c = taskID) && negb (bool_decide (ChStatus c = TaskTriageChildStatusClosed)))
              close cs)
  | OpDrop id =>
      match List.find (has_id id) cs with
      | None => None
      | Some c => if bool_decide (ChStatus c = TaskTriageChildStatusDispatched) then None
                  else Some (update_first (has_id id) close cs)
      end
  end.

Definition detail_op (op : child_op) (detail : raw) : fallible raw :=
  match op with
  | OpAdd child => AddDetailChild detail child
  | OpSpec id spec title => SpecDetailChild detail id spec title
  | OpClose taskID => r ← MarkDetailChildClosed detail taskID; Ok r.1
  | OpDrop id => r ← DropDetailChild detail id; Ok r.1
  end.

Lemma update_first_none P f cs : existsb P cs = false → update_first P f cs = cs.
Proof. induction cs as [|c cs IH]; simpl; [done|]. destruct (P c); [done|]. intros H. by rewrite IH. Qed.

Lemma update_first_find (Q : TaskTriageChild → Prop) `{∀ c, Decision (Q c)} P f cs i c :
  (∀ c, P c = bool_decide (Q c)) → list_find Q cs = Some (i, c) →
  update_first P f cs = <[i := f c]> cs ∧ cs !! i = Some c ∧ P c = true ∧ existsb P cs = true ∧ List.find P cs = Some c.
Proof.
  intros HP. revert i. induction cs as [|x cs IH]; intros i; simpl; [done|].
  rewrite HP. case_decide as Hd.
  - intros [= <- <-]. rewrite bool_decide_eq_true_2 by done. split_and!; auto. by rewrite HP, bool_decide_eq_true.
  - rewrite bool_decide_eq_false_2 by done. destruct (list_find Q cs) as [[j y]|] eqn:Hf; [|done]. simpl.
    intros [= <- <-]. destruct (IH j eq_refl) as (-> & ? & ? & ? & ?). by split_and!.
Qed.

Lemma find_none (Q : TaskTriageChild → Prop) `{∀ c, Decision (Q c)} P cs :
  (∀ c, P c = bool_decide (Q c)) → list_find Q cs = None → existsb P cs = false ∧ List.find P cs = None.
Proof.
  intros HP Hf. apply list_find_None in Hf. induction Hf as [|c cs Hc _ [IH1 IH2]]; [done|]. simpl.
  rewrite HP, bool_decide_eq_false_2 by done. done.
Qed.

Lemma insert_nonempty {A} (l : list A) i x y : l !! i = Some y → <[i := x]> l ≠ [].
Proof. by destruct l, i. Qed.

(** What every operation leaves: a plain blob whose children are [cs'], all
    other keys untouched. *)
Definition stores (detail : raw) (cs' : list TaskTriageChild) (detail' : raw) : Prop :=
  plain_detail detail' ∧ DetailChildren detail' = Ok cs' ∧ same_but "children" detail detail'.

Lemma stores_same detail cs : plain_detail detail → DetailChildren detail = Ok cs → stores detail cs detail.
Proof. by intros; split; [|split]. Qed.

Lemma SetDetailChildren_stores detail cs :
  plain_detail detail → cs ≠ [] → ∃ d', SetDetailChildren detail cs = Ok d' ∧ stores detail cs d'.
Proof. intros Hp Hne. destruct (SetDetailChildren_run detail cs Hp Hne) as (d' & ? & ? & ? & ?). by exists d'. Qed.

Lemma has_id_spec id c : has_id id c = bool_decide (ChID c = id).
Proof. done. Qed.

Lemma detail_op_refines op detail cs :
  plain_detail detail → DetailChildren detail = Ok cs →
  match abstract_op op cs with
  | Some cs' => ∃ detail', detail_op op detail = Ok detail' ∧ stores detail cs' detail'
  | None => ∃ e, detail_op op detail = Err e
  end.
Proof.
  intros Hp Hc. pose proof (stores_same _ _ Hp Hc) as Hsame. destruct op as [child|id spec title|taskID|id]; simpl.
  - unfold AddDetailChild. rewrite Hc. simpl. fold (has_id (ChID child)).
    destruct (existsb _ cs); [by eexists|]. apply SetDetailChildren_stores; [done|]. by destruct cs.
  - unfold SpecDetailChild. rewrite Hc. simpl. destruct (list_find _ cs) as [[i c]|] eqn:Hf.
    + destruct (update_first_find _ (has_id id) (λ c, if settled c then c else specced spec title c) cs i c
                  (has_id_spec id) Hf) as (-> & Hi & _ & -> & _).
      destruct (settled c).
      * rewrite list_insert_id by done. by eexists.
      * apply SetDetailChildren_stores; [done|]. by eapply insert_nonempty.
    + destruct (find_none _ (has_id id) cs (has_id_spec id) Hf) as [-> _]. by eexists.
  - unfold MarkDetailChildClosed. rewrite Hc. simpl.
    set (P := λ c, bool_decide (TaskRef c = taskID) && _).
    assert (∀ c, P c = bool_decide (TaskRef c = taskID ∧ ChStatus c ≠ TaskTriageChildStatusClosed)) as HP.
    { intros c. unfold P. by rewrite bool_decide_and, bool_decide_not. }
    destruct (list_find _ cs) as [[i c]|] eqn:Hf.
    + destruct (update_first_find _ P close cs i c HP Hf) as (-> & Hi & _).
      destruct (SetDetailChildren_stores detail (<[i:=close c]> cs) Hp) as (d' & Hd & Hs); [by eapply insert_nonempty|].
      unfold close in Hd. rewrite Hd. by eexists.
    + destruct (find_none _ P cs HP Hf) as [He _]. rewrite update_first_none by done. by eexists.
  - unfold DropDetailChild. rewrite Hc. simpl. destruct (list_find _ cs) as [[i c]|] eqn:Hf.
    + destruct (update_first_find _ (has_id id) close cs i c (has_id_spec id) Hf) as (-> & Hi & _ & _ & ->).
      destruct (decide (ChStatus c = TaskTriageChildStatusClosed)) as [Hcl|Hcl];
        destruct (decide (ChStatus c = TaskTriageChildStatusDispatched)) as [Hdi|Hdi];
        [by rewrite Hcl in Hdi|rewrite (bool_decide_eq_true_2 _ Hcl), (bool_decide_eq_false_2 _ Hdi)|
         rewrite (bool_decide_eq_false_2 _ Hcl), (bool_decide_eq_true_2 _ Hdi)|
         rewrite (bool_decide_eq_false_2 _ Hcl), (bool_decide_eq_false_2 _ Hdi)].
      * assert (close c = c) as -> by (unfold close, set_ChStatus; rewrite <- Hcl; by destruct c).
        rewrite list_insert_id by done. by eexists.
      * by eexists.
      * destruct (SetDetailChildren_stores detail (<[i:=close c]> cs) Hp) as (d' & Hd & Hs); [by eapply insert_nonempty|].
        unfold close in Hd. rewrite Hd. by eexists.
    + destruct (find_none _ (has_id id) cs (has_id_spec id) Hf) as [_ ->]. by eexists.
Qed.

(** A refused operation leaves the blob as it was: its transaction rolls back. *)
Definition run_detail (detail : raw) (ops : list child_op) : raw :=
  foldl (λ d op, match detail_op op d with Ok d' => d' | _ => d end) detail ops.
Definition run_abstract (cs : list TaskTriageChild) (ops : list child_op) : list TaskTriageChild :=
  foldl (λ cs op, default cs (abstract_op op cs)) cs ops.

Lemma run_detail_stores ops detail cs :
  plain_detail detail → DetailChildren detail = Ok cs →
  stores detail (run_abstract cs ops) (run_detail detail ops).
Proof.
  revert detail cs. induction ops as [|op ops IH]; intros detail cs Hp Hc; simpl; [by apply stores_same|].
  pose proof (detail_op_refines op detail cs Hp Hc) as Hop. destruct (abstract_op op cs) as [cs'|]; simpl.
  - destruct Hop as (d' & -> & Hp' & Hc' & Hk). destruct (IH d' cs' Hp' Hc') as (? & ? & Hk').
    split_and!; [done..|]. intros j Hj. by rewrite Hk', Hk.
  - destruct Hop as (e & ->). by apply IH.
Qed.

(** C31.  The blob of a card, if it is empty, null or an object without doubled
    names and with no other spelling of children, and its children can be read,
    implements its list of children: whatever sequence
    of add, specify, close and drop operations reaches it, reading the blob
    gives the list the same sequence of list operations gives, each operation
    is refused exactly when the list operation is, and no other key of the
    blob changes. *)
Theorem detail_implements_children ops op detail children :
  plain_detail detail → DetailChildren detail = Ok children →
  let detail' := run_detail detail ops in
  let children' := run_abstract children ops in
  DetailChildren detail' = Ok children' ∧
  (is_ok (detail_op op detail') = true ↔ is_Some (abstract_op op children')) ∧
  ∀ k, k ≠ "children" → detail_map detail' !! k = detail_map detail !! k.
Proof.
  intros Hp Hc d' cs'. destruct (run_detail_stores ops detail children Hp Hc) as (Hp' & Hc' & Hk).
  split_and!; [done| |done]. pose proof (detail_op_refines op d' cs' Hp' Hc') as Hop.
  destruct (abstract_op op cs') as [x|].
  - destruct Hop as (? & -> & _). split; [by eexists|done].
  - destruct Hop as (e & ->). split; [done|by intros [? ?]].
Qed.

Definition sample_ops : list child_op :=
  [OpAdd {| ChID := "c1"; ChTitle := ""; ChStatus := ""; ChSpec := None; TaskRef := "" |};
   OpSpec "c1" sample_spec "parser"; OpSpec "c2" sample_spec ""].

Lemma detail_implements_children_witness :
  DetailChildren (run_detail sample_detail sample_ops) = Ok [sample_child] ∧
  is_ok (detail_op (OpDrop "c1") (run_detail sample_detail sample_ops)) = true.
Proof.
  destruct (detail_implements_children sample_ops (OpDrop "c1") sample_detail [] sample_detail_plain) as (H1 & H2 & _).
  - vm_compute. reflexivity.
  - split; [exact H1|]. apply H2. vm_compute. by eexists.
Defined.

(** ** Children only move forward *)
Definition child_rank (st : string) : nat :=
  if bool_decide (st = TaskTriageChildStatusSpecced) then 1
  else if bool_decide (st = TaskTriageChildStatusDispatched) then 2
  else if bool_decide (st = TaskTriageChildStatusClosed) then 3
  else 0.

Record advanced (c c' : TaskTriageChild) : Prop := {
  adv_id : ChID c' = ChID c;
  adv_ref : TaskRef c' = TaskRef c;
  adv_rank : (child_rank (ChStatus c) ≤ child_rank (ChStatus c'))%nat;
  adv_spec : settled c = true → ChSpec c' = ChSpec c ∧ ChTitle c' = ChTitle c;
}.

#[export] Instance advanced_refl : Reflexive advanced.
Proof. intros c. by constructor. Qed.

Lemma settled_rank c : settled c = true ↔ (2 ≤ child_rank (ChStatus c))%nat.
Proof.
  unfold settled, child_rank. rewrite orb_true_iff, !bool_decide_eq_true.
  destruct (decide (ChStatus c = TaskTriageChildStatusSpecced)) as [H|H].
  - rewrite H. rewrite bool_decide_eq_true_2 by done. split; [intros [?|?]; done|lia].
  - rewrite (bool_decide_eq_false_2 _ H). repeat case_bool_decide; split; intros; try lia; naive_solver.
Qed.

#[export] Instance advanced_trans : Transitive advanced.
Proof.
  intros a b c [? ? Hr1 Hs1] [? ? Hr2 Hs2]. constructor; try congruence; [lia|]. intros Ha.
  assert (settled b = true) as Hb by (apply settled_rank; apply settled_rank in Ha; lia).
  destruct (Hs1 Ha), (Hs2 Hb). split; congruence.
Qed.

Lemma advanced_close c : advanced c (close c).
Proof.
  constructor; try done. change (child_rank (ChStatus (close c))) with 3.
  unfold child_rank. repeat case_bool_decide; lia.
Qed.

Lemma advanced_specced spec title c : settled c = false → advanced c (specced spec title c).
Proof.
  intros Hs. constructor; try done; [|by rewrite Hs].
  change (child_rank (ChStatus (specced spec title c))) with 1.
  assert (¬ (2 ≤ child_rank (ChStatus c))%nat) by (rewrite <- settled_rank; by rewrite Hs). lia.
Qed.

(** Existing children stay where they are and advance; new ones are appended. *)
Definition grows (cs cs' : list TaskTriageChild) : Prop :=
  ∀ i c, cs !! i = Some c → ∃ c', cs' !! i = Some c' ∧ advanced c c'.

#[export] Instance grows_refl : Reflexive grows.
Proof. intros cs i c Hi. by exists c. Qed.
#[export] Instance grows_trans : Transitive grows.
Proof.
  intros a b c Hab Hbc i x Hx. destruct (Hab i x Hx) as (y & Hy & ?). destruct (Hbc i y Hy) as (z & Hz & ?).
  exists z. split; [done|]. by transitivity y.
Qed.

Lemma update_first_grows P f cs : (∀ c, P c = true → advanced c (f c)) → grows cs (update_first P f cs).
Proof.
  intros Hf. induction cs as [|x cs IH]; [done|]. intros i c Hi. simpl. destruct (P x) eqn:HP.
  - destruct i as [|i]; simpl in *; [simplify_eq; eauto|by exists c].
  - destruct i as [|i]; simpl in *; [by exists c|by apply IH].
Qed.

Lemma update_first_ids P f cs : (∀ c, ChID (f c) = ChID c) → ChID <$> update_first P f cs = ChID <$> cs.
Proof. intros Hf. induction cs as [|x cs IH]; [done|]. simpl. destruct (P x); csimpl; by rewrite ?Hf, ?IH. Qed.

Lemma abstract_op_ok op cs cs' :
  abstract_op op cs = Some cs' → grows cs cs' ∧ (NoDup (ChID <$> cs) → NoDup (ChID <$> cs')).
Proof.
  destruct op as [child|id spec title|taskID|id]; simpl.
  - intros [= <-]. destruct (existsb _ cs) eqn:He; [done|]. split.
    + intros i c Hi. exists c. split; [|done]. by apply lookup_app_l_Some.
    + intros Hnd. rewrite fmap_app. apply NoDup_app. split_and!; [done| |apply NoDup_singleton].
      intros j Hj ->%list_elem_of_singleton. apply not_true_iff_false in He. apply He, existsb_exists.
      apply list_elem_of_fmap in Hj as (c & Hid & Hc). exists c. split; [by apply list_elem_of_In|].
      unfold has_id. apply bool_decide_eq_true. rewrite <- Hid. unfold with_default_status. by destruct (str_empty _).
  - destruct (existsb _ cs); [|done]. intros [= <-]. split.
    + apply update_first_grows. intros c _. destruct (settled c) eqn:Hs; [done|]. by apply advanced_specced.
    + rewrite update_first_ids; [done|]. intros c. by destruct (settled c).
  - intros [= <-]. split; [apply update_first_grows; intros; apply advanced_close|]. by rewrite update_first_ids.
  - destruct (List.find _ cs) as [c|]; [|done]. case_bool_decide; [done|]. intros [= <-].
    split; [apply update_first_grows; intros; apply advanced_close|]. by rewrite update_first_ids.
Qed.

Lemma run_abstract_ok ops cs :
  grows cs (run_abstract cs ops) ∧ (NoDup (ChID <$> cs) → NoDup (ChID <$> run_abstract cs ops)).
Proof.
  revert cs. induction ops as [|op ops IH]; intros cs; simpl; [done|].
  destruct (abstract_op op cs) as [cs'|] eqn:Ho; simpl; [|apply IH].
  apply abstract_op_ok in Ho as [Hg Hn]. destruct (IH cs') as [Hg' Hn']. split; [by transitivity cs'|auto].
Qed.

(** No operation takes a child back: along any sequence of operations a
    child keeps its place, its id and its task reference, its status only
    moves forward through open, specced, dispatched and closed, and the
    specification and title of a child that was dispatched or closed no longer
    change; distinct ids stay distinct. *)
Theorem children_never_regress ops detail children i child :
  plain_detail detail → DetailChildren detail = Ok children → children !! i = Some child →
  ∃ children' child', DetailChildren (run_detail detail ops) = Ok children' ∧ children' !! i = Some child' ∧
    ChID child' = ChID child ∧ TaskRef child' = TaskRef child ∧
    (child_rank (ChStatus child) ≤ child_rank (ChStatus child'))%nat ∧
    (settled child = true → ChSpec child' = ChSpec child ∧ ChTitle child' = ChTitle child) ∧
    (NoDup (ChID <$> children) → NoDup (ChID <$> children')).
Proof.
  intros Hp Hc Hi. destruct (run_detail_stores ops detail children Hp Hc) as (_ & Hc' & _).
  destruct (run_abstract_ok ops children) as [Hg Hn]. destruct (Hg i child Hi) as (c' & Hi' & []).
  by exists (run_abstract children ops), c'.
Qed.

Definition busy_detail : raw :=
  marshal_map (Some {["children" := JArr [marshal_child (set_ChStatus sample_child TaskTriageChildStatusDispatched)]]}).

Lemma busy_detail_plain : plain_detail busy_detail.
Proof. apply plain_marshal. intros k [v [<- _]%lookup_singleton_Some] _. done. Qed.

Lemma children_never_regress_witness :
  ∃ children' child', DetailChildren (run_detail busy_detail [OpSpec "c1" zero_spec "x"; OpDrop "c1"]) = Ok children' ∧
    children' !! 0%nat = Some child' ∧ ChSpec child' = Some sample_spec.
Proof.
  destruct (children_never_regress [OpSpec "c1" zero_spec "x"; OpDrop "c1"] busy_detail
    [set_ChStatus sample_child TaskTriageChildStatusDispatched] 0
    (set_ChStatus sample_child TaskTriageChildStatusDispatched) busy_detail_plain)
    as (cs & c & H1 & H2 & _ & _ & _ & H3 & _); [vm_compute; reflexivity|reflexivity|].
  exists cs, c. split_and!; [done..|]. by apply H3.
Defined.

(** ** Attributes *)

(** The attributes of a blob; [None] when "attrs" is not an object. *)
Definition attrs_of (detail : raw) : option (gmap string json) :=
  match detail_map detail !! "attrs" with
  | None | Some JNull => Some ∅
  | Some v => default None (value_map v)
  end.

Lemma detail_attrs_of detail :
  detail_attrs (Some (detail_map detail)) =
    match detail_map detail !! "attrs" with
    | None | Some JNull => Ok None
    | _ => match attrs_of detail with Some attrs => Ok (Some attrs) | None => Err ErrParseAttrs end
    end.
Proof.
  unfold detail_attrs, attrs_of. simpl. destruct (detail_map detail !! "attrs") as [[]|]; simpl; try done.
Qed.

(** The blob with its attributes replaced. *)
Definition with_attrs (detail : raw) (attrs : gmap string json) : raw :=
  marshal_map (Some (<["attrs" := obj_of_map attrs]> (detail_map detail))).

Lemma with_attrs_spec detail attrs :
  plain_detail detail →
  plain_detail (with_attrs detail attrs) ∧ attrs_of (with_attrs detail attrs) = Some attrs ∧
  same_but "attrs" detail (with_attrs detail attrs) ∧
  DetailChildren (with_attrs detail attrs) = DetailChildren detail.
Proof.
  intros Hp. assert (plain_detail (with_attrs detail attrs)) as Hp'.
  { apply plain_set; [done|]. intros H. by vm_compute in H. }
  assert (same_but "attrs" detail (with_attrs detail attrs)) as Hs.
  { intros j Hj. unfold with_attrs. by rewrite detail_map_marshal, lookup_insert_ne. }
  split_and!; [done| |done|].
  - unfold attrs_of, with_attrs. rewrite detail_map_marshal, lookup_insert_eq.
    rewrite value_map_obj_of_map. by unfold obj_of_map.
  - rewrite !DetailChildren_plain by done. f_equal. by apply Hs.
Qed.

Lemma FoldDetailAttrs_run detail patch attrs :
  plain_detail detail → attrs_of detail = Some attrs →
  FoldDetailAttrs detail patch = Ok (with_attrs detail (patch ∪ attrs)).
Proof.
  intros Hp Ha. unfold FoldDetailAttrs. rewrite parse_plain by done. simpl. rewrite detail_attrs_of, Ha.
  unfold attrs_of in Ha. destruct (detail_map detail !! "attrs") as [[]|]; simplify_eq/=; done.
Qed.

Lemma foldl_delete_lookup (attrs : gmap string json) keys k :
  foldl (λ a k, delete k a) attrs keys !! k = if bool_decide (k ∈ keys) then None else attrs !! k.
Proof.
  revert attrs. induction keys as [|j keys IH]; intros attrs; cbn [foldl].
  - rewrite bool_decide_eq_false_2; [done|by intros ?%elem_of_nil].
  - rewrite IH. destruct (decide (k ∈ keys)) as [Hin|Hin].
    + rewrite (bool_decide_eq_true_2 _ Hin). rewrite bool_decide_eq_true_2; [done|by right].
    + rewrite (bool_decide_eq_false_2 _ Hin). destruct (decide (j = k)) as [->|Hne].
      * rewrite bool_decide_eq_true_2 by left. apply lookup_delete_eq.
      * rewrite bool_decide_eq_false_2; [by rewrite lookup_delete_ne|]. by intros [->|?]%elem_of_cons.
Qed.

Lemma StripDetailAttrs_run detail keys attrs :
  plain_detail detail → attrs_of detail = Some attrs →
  ∃ detail' attrs', StripDetailAttrs detail keys = Ok detail' ∧ plain_detail detail' ∧
    attrs_of detail' = Some attrs' ∧ same_but "attrs" detail detail' ∧
    DetailChildren detail' = DetailChildren detail ∧
    ∀ k, attrs' !! k = if bool_decide (k ∈ keys) then None else attrs !! k.
Proof.
  intros Hp Ha. unfold StripDetailAttrs. rewrite parse_plain by done. simpl. rewrite detail_attrs_of, Ha.
  assert ((∀ k, k ∈ keys → attrs !! k = None) →
    ∃ attrs', attrs_of detail = Some attrs' ∧ ∀ k, attrs' !! k = if bool_decide (k ∈ keys) then None else attrs !! k) as Hsame.
  { intros Hno. exists attrs. split; [done|]. intros k. case_bool_decide; [by apply Hno|done]. }
  assert (∃ o, match detail_map detail !! "attrs" with
               | None | Some JNull => Ok None
               | _ => Ok (Some attrs)
               end = Ok o ∧ (o = None ∧ attrs = ∅ ∨ o = Some attrs)) as (o & -> & Ho).
  { unfold attrs_of in Ha. destruct (detail_map detail !! "attrs") as [[]|]; simplify_eq/=; eauto. }
  simpl. destruct Ho as [[-> ->]| ->].
  { destruct Hsame as (attrs' & ? & ?); [intros; apply lookup_empty|]. by exists detail, attrs'. }
  destruct (existsb _ keys) eqn:He.
  - destruct (with_attrs_spec detail (foldl (λ a k, delete k a) attrs keys) Hp) as (? & ? & ? & ?).
    eexists _, _. split_and!; [done..|]. apply foldl_delete_lookup.
  - destruct Hsame as (attrs' & ? & ?); [|by exists detail, attrs'].
    intros k Hk. destruct (attrs !! k) eqn:Hl; [|done]. exfalso. apply not_true_iff_false in He. apply He.
    apply existsb_exists. exists k. split; [by apply list_elem_of_In|]. apply bool_decide_eq_true. by eexists.
Qed.
