(* ===== verification/CardRequests.v ===== *)
(** * The card request ledger

    Models internal/orchestrator/card_request.go (with the schema of
    migrations 0049, 0050, 0052 and 0053, [CreateAction] of store.go on its
    nil-resolver path and card_force_release_barrier.go): one row per
    execution request on a card, moving queued → launching → attached →
    finished/failed, with the rows claimed together folded into the oldest.

    The tables the component reads and writes are the fields of [DB].  A
    timestamp is a number of nanoseconds since Go's zero time; [clock] is what
    [time.Now] returns, [uuid] the identifiers [uuid.New] hands out in turn.
    A statement either takes effect as a whole or, when it violates a
    constraint, fails and changes nothing. *)
From S2P Require Import Prelude Json Task Store.

(** ** Rows *)
Inductive CardRequestStatus : Type :=
| CardRequestStatusQueued
| CardRequestStatusLaunching
| CardRequestStatusAttached
| CardRequestStatusFolded
| CardRequestStatusFinished
| CardRequestStatusFailed.
#[export] Instance CardRequestStatus_eq_dec : EqDecision CardRequestStatus.
Proof. solve_decision. Defined.

Definition CardRequestCommandKeyGo : string := "__go__".
Definition CardRequestOriginHuman : string := "human".
Definition CardRequestOriginEvent : string := "event".
Definition CardRequestTargetKindTask : string := "task".
Definition CardRequestTargetKindSession : string := "session".

Definition CardRequestOrigin (causeID : string) : string :=
  if str_empty causeID then CardRequestOriginHuman else CardRequestOriginEvent.

Record CardRequestDefinition : Type := {
  DCommandKey : string;
  Label : string;
  Run : string;
  Version : string;
  CardWrite : bool;
}.
Definition no_definition : CardRequestDefinition :=
  {| DCommandKey := ""; Label := ""; Run := ""; Version := ""; CardWrite := false |}.

Record CardRequest : Type := {
  RID : string;
  CardID : string;
  CommandKey : string;
  CauseID : string;
  RStatus : CardRequestStatus;
  RInstruction : string;
  Launched : CardRequestDefinition;
  LauncherJobID : string;
  TargetKind : string;
  TargetID : string;
  FoldedInto : string;
  Result : string;
  RError : string;
  RCreatedAt : Z;
  RUpdatedAt : Z;
}.

(** The tasks columns this component reads, and the rows of the jobs table. *)
Record TaskRow : Type := {
  TRType : TaskType;
  TRProject : string;
  TRWorkspace : string;
  TRStatus : TaskStatus;
}.
Record JobRow : Type := {
  JStatus : string;
  JRole : string;
  JCardRequestID : string;
  (** the task it runs for, empty for none *)
  JTaskID : string;
  JProjectID : string;
  JRuntimeID : string;
  JExitCode : Z;
  JOutput : string;
  JCreatedAt : Z;
  JUpdatedAt : Z;
}.

Record DB : Type := {
  card_requests : gmap string CardRequest;
  tasks : gmap string TaskRow;
  jobs : gmap string JobRow;
  barriers : gmap string Z;
  actions : list Action;
  clock : Z;
  uuids : nat;
}.

Inductive constraint : Type :=
| CPrimaryKey
| CForeignKey
| CCheck
| CUniqueCard
| CUniqueCause.

Inductive card_err : Type :=
| ErrTaskNotFound
| ErrCardRequestNotFound
| ErrCardRequestSlotOccupied
| ErrCardRequestDuplicateCause
| ErrCardRequestInvalidTransition
| ErrNoQueuedCardRequests
| ErrCardRequestOwnerMismatch
| ErrCardNotEligibleForDispatch
| ErrCardForceReleaseBarrierActive
| ErrCardRequestCommandKeyChanged
| ErrInvalidArgument (what : string)
| ErrConstraint (c : constraint).

#[export] Instance constraint_eq_dec : EqDecision constraint.
Proof. solve_decision. Defined.
#[export] Instance card_err_eq_dec : EqDecision card_err.
Proof. solve_decision. Defined.

Abbreviation cardm := (dbm DB card_err).

Definition set_requests (s : DB) (t : gmap string CardRequest) : DB :=
  {| card_requests := t; tasks := tasks s; jobs := jobs s; barriers := barriers s;
     actions := actions s; clock := clock s; uuids := uuids s |}.
Definition set_barriers (s : DB) (b : gmap string Z) : DB :=
  {| card_requests := card_requests s; tasks := tasks s; jobs := jobs s; barriers := b;
     actions := actions s; clock := clock s; uuids := uuids s |}.
Definition set_actions (s : DB) (a : list Action) : DB :=
  {| card_requests := card_requests s; tasks := tasks s; jobs := jobs s; barriers := barriers s;
     actions := a; clock := clock s; uuids := uuids s |}.
Definition next_uuid (s : DB) : DB :=
  {| card_requests := card_requests s; tasks := tasks s; jobs := jobs s; barriers := barriers s;
     actions := actions s; clock := clock s; uuids := S (uuids s) |}.

Definition time_Now : cardm Z := gets clock.

(** Row updates: the SET clauses of the component's statements. *)
Definition set_status (r : CardRequest) (st : CardRequestStatus) : CardRequest :=
  {| RID := RID r; CardID := CardID r; CommandKey := CommandKey r; CauseID := CauseID r;
     RStatus := st; RInstruction := RInstruction r; Launched := Launched r;
     LauncherJobID := LauncherJobID r; TargetKind := TargetKind r; TargetID := TargetID r;
     FoldedInto := FoldedInto r; Result := Result r; RError := RError r;
     RCreatedAt := RCreatedAt r; RUpdatedAt := RUpdatedAt r |}.
Definition set_updated (r : CardRequest) (now : Z) : CardRequest :=
  {| RID := RID r; CardID := CardID r; CommandKey := CommandKey r; CauseID := CauseID r;
     RStatus := RStatus r; RInstruction := RInstruction r; Launched := Launched r;
     LauncherJobID := LauncherJobID r; TargetKind := TargetKind r; TargetID := TargetID r;
     FoldedInto := FoldedInto r; Result := Result r; RError := RError r;
     RCreatedAt := RCreatedAt r; RUpdatedAt := now |}.
Definition set_folded (r : CardRequest) (head : string) : CardRequest :=
  {| RID := RID r; CardID := CardID r; CommandKey := CommandKey r; CauseID := CauseID r;
     RStatus := RStatus r; RInstruction := RInstruction r; Launched := Launched r;
     LauncherJobID := LauncherJobID r; TargetKind := TargetKind r; TargetID := TargetID r;
     FoldedInto := head; Result := Result r; RError := RError r;
     RCreatedAt := RCreatedAt r; RUpdatedAt := RUpdatedAt r |}.
Definition set_launch (r : CardRequest) (def : CardRequestDefinition) (job : string) : CardRequest :=
  {| RID := RID r; CardID := CardID r; CommandKey := CommandKey r; CauseID := CauseID r;
     RStatus := RStatus r; RInstruction := RInstruction r; Launched := def;
     LauncherJobID := job; TargetKind := TargetKind r; TargetID := TargetID r;
     FoldedInto := FoldedInto r; Result := Result r; RError := RError r;
     RCreatedAt := RCreatedAt r; RUpdatedAt := RUpdatedAt r |}.
Definition set_target (r : CardRequest) (kind target : string) : CardRequest :=
  {| RID := RID r; CardID := CardID r; CommandKey := CommandKey r; CauseID := CauseID r;
     RStatus := RStatus r; RInstruction := RInstruction r; Launched := Launched r;
     LauncherJobID := LauncherJobID r; TargetKind := kind; TargetID := target;
     FoldedInto := FoldedInto r; Result := Result r; RError := RError r;
     RCreatedAt := RCreatedAt r; RUpdatedAt := RUpdatedAt r |}.
Definition set_outcome (r : CardRequest) (result err : string) : CardRequest :=
  {| RID := RID r; CardID := CardID r; CommandKey := CommandKey r; CauseID := CauseID r;
     RStatus := RStatus r; RInstruction := RInstruction r; Launched := Launched r;
     LauncherJobID := LauncherJobID r; TargetKind := TargetKind r; TargetID := TargetID r;
     FoldedInto := FoldedInto r; Result := result; RError := err;
     RCreatedAt := RCreatedAt r; RUpdatedAt := RUpdatedAt r |}.

(** ** The table and its constraints (migrations 0049 and 0053) *)
Definition status_in (l : list CardRequestStatus) (r : CardRequest) : bool := bool_decide (RStatus r ∈ l).
Definition is_active (r : CardRequest) : bool :=
  status_in [CardRequestStatusLaunching; CardRequestStatusAttached] r.

(** idx_card_requests_active_unique and idx_card_requests_cause_unique_non_failed:
    the indexed key of a row, [None] when the partial index leaves it out. *)
Definition slot_key (r : CardRequest) : option string :=
  if is_active r then Some (CardID r) else None.
Definition cause_key (r : CardRequest) : option string :=
  if str_empty (CauseID r) || status_in [CardRequestStatusFailed] r then None else Some (CauseID r).

Definition indexed (key : CardRequest → option string) (t : gmap string CardRequest) : list string :=
  omap (λ kv, key kv.2) (map_to_list t).
Definition unique_ok (key : CardRequest → option string) (t : gmap string CardRequest) : bool :=
  bool_decide (NoDup (indexed key t)).

Definition check_row (r : CardRequest) : bool :=
  bool_decide (TargetKind r ∈ [""; CardRequestTargetKindTask; CardRequestTargetKindSession]).

(** The constraint a statement that leaves table [t] violates, if any.  When
    it violates both indexes SQLite may report either one. *)
Definition violation (t : gmap string CardRequest) : option constraint :=
  if negb (unique_ok slot_key t) then Some CUniqueCard
  else if negb (unique_ok cause_key t) then Some CUniqueCause
  else None.

(** [UPDATE card_requests SET f WHERE p], returning RowsAffected. *)
Definition update_where (p : CardRequest → bool) (f : CardRequest → CardRequest) : cardm nat := λ s,
  let t := (λ r, if p r then f r else r) <$> card_requests s in
  match violation t with
  | Some c => (s, inl (ErrConstraint c))
  | None => (set_requests s t, inr (size (filter (λ kv, p kv.2 = true) (card_requests s))))
  end.

Definition insert_request (r : CardRequest) : cardm unit := λ s,
  if bool_decide (is_Some (card_requests s !! RID r)) then (s, inl (ErrConstraint CPrimaryKey))
  else if negb (check_row r) then (s, inl (ErrConstraint CCheck))
  else if negb (bool_decide (is_Some (tasks s !! CardID r))) then (s, inl (ErrConstraint CForeignKey))
  else
    let t := <[RID r := r]> (card_requests s) in
    match violation t with
    | Some c => (s, inl (ErrConstraint c))
    | None => (set_requests s t, inr ())
    end.

(** [ORDER BY created_at ASC, id ASC]. *)
Definition request_le (a b : CardRequest) : Prop :=
  (RCreatedAt a < RCreatedAt b)%Z ∨ (RCreatedAt a = RCreatedAt b ∧ String.le (RID a) (RID b)).
#[export] Instance request_le_dec : RelDecision request_le.
Proof. intros a b. unfold request_le. apply _. Defined.

Definition select_where (p : CardRequest → bool) (t : gmap string CardRequest) : list CardRequest :=
  merge_sort request_le (filter (λ r, p r = true) (map_to_list t).*2).

(** ** Outcome records *)
Record CardRequestOutcomeSibling : Type := {
  SibID : string;
  SibCommandKey : string;
}.
Abbreviation ForceReleasedSibling := CardRequestOutcomeSibling.

Record CardRequestOutcomePayload : Type := {
  OpRequestID : string;
  OpCommandKey : string;
  OpLaunchedLabel : string;
  OpLauncherJobID : string;
  OpTargetKind : string;
  OpTargetID : string;
  OpOrigin : string;
  OpCauseID : string;
  OpResult : string;
  OpError : string;
  OpReason : string;
  ForceFailedSiblings : list CardRequestOutcomeSibling;
}.

Definition marshal_sibling (s : CardRequestOutcomeSibling) : json :=
  JObj [("id", JStr (SibID s)); ("command_key", JStr (SibCommandKey s))].

Definition marshal_outcome (p : CardRequestOutcomePayload) : raw :=
  RText true (JObj ([("request_id", JStr (OpRequestID p)); ("command_key", JStr (OpCommandKey p));
    ("launched_label", JStr (OpLaunchedLabel p)); ("launcher_job_id", JStr (OpLauncherJobID p));
    ("target_kind", JStr (OpTargetKind p)); ("target_id", JStr (OpTargetID p));
    ("origin", JStr (OpOrigin p)); ("cause_id", JStr (OpCauseID p)); ("result", JStr (OpResult p));
    ("error", JStr (OpError p))] ++ omitempty "reason" (OpReason p)
    ++ match ForceFailedSiblings p with
       | [] => []
       | l => [("force_failed_siblings", JArr (marshal_sibling <$> l))]
       end)).

Section ledger.
(** The identifiers [uuid.New] returns, in order. *)
Context (uuid : nat → string).

Definition new_uuid : cardm string := λ s, (next_uuid s, inr (uuid (uuids s))).

(** ** Reads *)
Definition GetCardRequest (id : string) : cardm CardRequest :=
  r ← gets (λ s, card_requests s !! id);
  match r with Some r => mret r | None => throw ErrCardRequestNotFound end.

Definition CountActiveCardRequests (cardID : string) (s : DB) : nat :=
  length (select_where (λ r, bool_decide (CardID r = cardID) && is_active r) (card_requests s)).

(** Newest first; rows created at the same instant in no particular order. *)
Definition GetCardRequestByTaskTarget (taskID : string) (s : DB) : option CardRequest :=
  last (select_where (λ r, bool_decide (TargetKind r = CardRequestTargetKindTask)
                           && bool_decide (TargetID r = taskID)) (card_requests s)).

Definition ListCardRequestsByCard (cardID : string) (s : DB) : list CardRequest :=
  select_where (λ r, bool_decide (CardID r = cardID)) (card_requests s).

Definition ListActiveCardRequests (s : DB) : list CardRequest :=
  select_where is_active (card_requests s).

Definition pick_rank (st : CardRequestStatus) : nat :=
  match st with
  | CardRequestStatusAttached => 3
  | CardRequestStatusLaunching => 2
  | CardRequestStatusQueued => 1
  | _ => 0
  end.

Definition pick_step (chosen : option CardRequest) (r : CardRequest) : option CardRequest :=
  if bool_decide (CommandKey r = CardRequestCommandKeyGo) then chosen
  else if (pick_rank (RStatus r) =? 0)%nat then chosen
  else match chosen with
       | None => Some r
       | Some c => if (pick_rank (RStatus c) <? pick_rank (RStatus r))%nat then Some r else chosen
       end.
Definition PickActiveCardRequest (requests : list CardRequest) : option CardRequest :=
  foldl pick_step None requests.

(** One query per chunk in the source; the chunks partition the ids. *)
Definition ListActiveCardRequestsByCardIDs (cardIDs : list string) (s : DB) : gmap string CardRequest :=
  let unique := remove_dups (filter (λ id, id ≠ "") cardIDs) in
  list_to_map (omap (λ id,
    (λ r, (id, r)) <$> PickActiveCardRequest
      (select_where (λ r, bool_decide (CardID r = id) &&
         status_in [CardRequestStatusQueued; CardRequestStatusLaunching; CardRequestStatusAttached] r)
         (card_requests s))) unique).

(** A zero-rows UPDATE: the row is missing, or in the wrong status. *)
Definition rowsAffectedOrNotFoundOrInvalid (n : nat) (id : string) : cardm unit :=
  if (0 <? n)%nat then mret ()
  else r ← gets (λ s, card_requests s !! id);
       match r with
       | None => throw ErrCardRequestNotFound
       | Some _ => throw ErrCardRequestInvalidTransition
       end.

(** ** Force-release barriers (card_force_release_barrier.go) *)
Definition SetCardForceReleaseBarrier (cardID : string) : cardm unit :=
  now ← time_Now;
  known ← gets (λ s, bool_decide (is_Some (tasks s !! cardID)));
  _ ← fail_if (negb known) (ErrConstraint CForeignKey);
  modify (λ s, set_barriers s (<[cardID := now]> (barriers s))).
Definition ClearCardForceReleaseBarrier (cardID : string) : cardm unit :=
  modify (λ s, set_barriers s (delete cardID (barriers s))).
Definition HasCardForceReleaseBarrier (cardID : string) (s : DB) : bool :=
  bool_decide (is_Some (barriers s !! cardID)).

(** [CreateAction] with a nil resolver (store.go). *)
Definition CreateAction (a : Action) : cardm unit :=
  id ← (if str_empty (AID a) then new_uuid else mret (AID a));
  now ← time_Now;
  known ← gets (λ s, bool_decide (is_Some (tasks s !! ATaskID a)));
  _ ← fail_if (negb known) (ErrConstraint CForeignKey);
  modify (λ s, set_actions s (actions s ++
    [{| AID := id; ATaskID := ATaskID a; AType := AType a;
        APayload := if len0 (APayload a) then raw_obj0 else APayload a;
        AFromStatus := AFromStatus a; AToStatus := AToStatus a; ACreatedAt := now; Actor := Actor a |}])).

Definition outcome_payload (row : CardRequest) (result errText reason : string)
    (siblings : list ForceReleasedSibling) : CardRequestOutcomePayload :=
  {| OpRequestID := RID row; OpCommandKey := CommandKey row; OpLaunchedLabel := Label (Launched row);
     OpLauncherJobID := LauncherJobID row; OpTargetKind := TargetKind row; OpTargetID := TargetID row;
     OpOrigin := CardRequestOrigin (CauseID row); OpCauseID := CauseID row; OpResult := result;
     OpError := errText; OpReason := reason; ForceFailedSiblings := siblings |}.

Definition recordCardRequestOutcome (id actionType result errText reason : string)
    (siblings : list ForceReleasedSibling) : cardm unit :=
  row ← GetCardRequest id;
  if bool_decide (CommandKey row = CardRequestCommandKeyGo) then mret ()
  else CreateAction {| AID := ""; ATaskID := CardID row; AType := actionType;
         APayload := marshal_outcome (outcome_payload row result errText reason siblings);
         AFromStatus := ""; AToStatus := ""; ACreatedAt := 0%Z; Actor := ActorDaemon |}.

Definition recordCardRequestTerminalOutcome (id actionType result errText : string) : cardm unit :=
  recordCardRequestOutcome id actionType result errText "" [].

(** ** Creation *)
Definition classify_insert (e : card_err) : card_err :=
  match e with
  | ErrConstraint CUniqueCard => ErrCardRequestSlotOccupied
  | ErrConstraint CUniqueCause => ErrCardRequestDuplicateCause
  | _ => e
  end.

(** [status] is the request's Status on entry, [None] the empty string; the
    request as stored is returned (the source updates it in place). *)
Definition CreateCardRequest (status : option CardRequestStatus) (req : CardRequest) : cardm CardRequest :=
  _ ← fail_if (str_empty (CardID req)) (ErrInvalidArgument "card id must not be empty");
  st ← match status with
       | None | Some CardRequestStatusQueued => mret CardRequestStatusQueued
       | Some CardRequestStatusLaunching =>
           if str_empty (LauncherJobID req)
           then throw (ErrInvalidArgument "launching fast path requires a launcher job id")
           else mret CardRequestStatusLaunching
       | Some _ => throw (ErrInvalidArgument "invalid starting status")
       end;
  id ← (if str_empty (RID req) then new_uuid else mret (RID req));
  now ← time_Now;
  let row := {| RID := id; CardID := CardID req; CommandKey := CommandKey req; CauseID := CauseID req;
                RStatus := st; RInstruction := RInstruction req; Launched := Launched req;
                LauncherJobID := LauncherJobID req; TargetKind := TargetKind req;
                TargetID := TargetID req; FoldedInto := FoldedInto req; Result := Result req;
                RError := RError req;
                RCreatedAt := if bool_decide (RCreatedAt req = 0%Z) then now else RCreatedAt req;
                RUpdatedAt := now |} in
  _ ← map_err classify_insert (insert_request row);
  mret row.

(** ** Claiming *)
Definition queued_of (cardID : string) (r : CardRequest) : bool :=
  bool_decide (CardID r = cardID) && status_in [CardRequestStatusQueued] r.
Definition with_id (id : string) (l : list CardRequestStatus) (r : CardRequest) : bool :=
  bool_decide (RID r = id) && status_in l r.

Definition promote (def : CardRequestDefinition) (launcherJobID : string) (now : Z) (r : CardRequest) : CardRequest :=
  set_updated (set_launch (set_status r CardRequestStatusLaunching) def launcherJobID) now.
Definition fold_into (head : string) (now : Z) (r : CardRequest) : CardRequest :=
  set_updated (set_folded (set_status r CardRequestStatusFolded) head) now.

Definition classify_claim (e : card_err) : card_err :=
  match e with ErrConstraint CUniqueCard => ErrCardRequestSlotOccupied | _ => e end.

Definition ClaimQueuedCardRequests (cardID launcherJobID : string) (def : CardRequestDefinition)
    : cardm (CardRequest * list CardRequest) :=
  _ ← fail_if (str_empty cardID) (ErrInvalidArgument "card id must not be empty");
  _ ← fail_if (str_empty launcherJobID) (ErrInvalidArgument "launcher job id must not be empty");
  pending ← gets (λ s, select_where (queued_of cardID) (card_requests s));
  match pending with
  | [] => throw ErrNoQueuedCardRequests
  | head :: rest =>
      now ← time_Now;
      n ← map_err classify_claim
            (update_where (with_id (RID head) [CardRequestStatusQueued]) (promote def launcherJobID now));
      _ ← fail_if (n =? 0)%nat ErrCardRequestInvalidTransition;
      _ ← for_each (λ r, _ ← update_where (with_id (RID r) [CardRequestStatusQueued])
                               (fold_into (RID head) now); mret ()) rest;
      mret (promote def launcherJobID now head, fold_into (RID head) now <$> rest)
  end.

(** ** Attaching *)
Definition validateAttachArgs (id targetKind targetID : string) : cardm unit :=
  _ ← fail_if (str_empty id) (ErrInvalidArgument "id must not be empty");
  _ ← fail_if (negb (bool_decide (targetKind ∈ [CardRequestTargetKindTask; CardRequestTargetKindSession])))
        (ErrInvalidArgument "invalid target kind");
  fail_if (str_empty targetID) (ErrInvalidArgument "target id must not be empty").

Definition attach_to (kind target : string) (now : Z) (r : CardRequest) : CardRequest :=
  set_updated (set_target (set_status r CardRequestStatusAttached) kind target) now.

Definition AttachCardRequest (id targetKind targetID : string) : cardm unit :=
  _ ← validateAttachArgs id targetKind targetID;
  now ← time_Now;
  n ← update_where (with_id id [CardRequestStatusLaunching]) (attach_to targetKind targetID now);
  rowsAffectedOrNotFoundOrInvalid n id.

Definition AttachCardRequestOwned (id expectedLauncherJobID targetKind targetID : string) : cardm unit :=
  _ ← fail_if (str_empty expectedLauncherJobID)
        (ErrInvalidArgument "expected launcher job id must not be empty");
  _ ← validateAttachArgs id targetKind targetID;
  now ← time_Now;
  n ← update_where (λ r, with_id id [CardRequestStatusLaunching] r
                         && bool_decide (LauncherJobID r = expectedLauncherJobID))
        (attach_to targetKind targetID now);
  if (0 <? n)%nat then mret ()
  else existing ← GetCardRequest id;
       if bool_decide (LauncherJobID existing = expectedLauncherJobID)
       then throw ErrCardRequestInvalidTransition
       else throw ErrCardRequestOwnerMismatch.

(** ** Finishing, failing, retrying *)
Definition finish_with (result err : string) (now : Z) (r : CardRequest) : CardRequest :=
  set_updated (set_outcome (set_status r CardRequestStatusFinished) result err) now.

Definition folded_under (id : string) (r : CardRequest) : bool :=
  bool_decide (FoldedInto r = id) && status_in [CardRequestStatusFolded] r.

Definition absorbable (cardID : string) (before : Z) (r : CardRequest) : bool :=
  bool_decide (CardID r = cardID) && status_in [CardRequestStatusFailed] r
  && bool_decide (RCreatedAt r < before)%Z && str_empty (CauseID r).

Definition FinishCardRequest (id result : string) : cardm unit :=
  _ ← fail_if (str_empty id) (ErrInvalidArgument "id must not be empty");
  row ← GetCardRequest id;
  _ ← fail_if (negb (status_in [CardRequestStatusAttached] row)) ErrCardRequestInvalidTransition;
  now ← time_Now;
  let absorbedResult := "absorbed by " +:+ id in
  _ ← update_where (λ r, bool_decide (RID r = id)) (λ r, finish_with result (RError r) now r);
  _ ← update_where (folded_under id) (finish_with absorbedResult "" now);
  _ ← update_where (absorbable (CardID row) (RCreatedAt row)) (finish_with absorbedResult "" now);
  recordCardRequestTerminalOutcome id ActionTypeCommandFinished result "".

Definition fail_with (err : string) (now : Z) (r : CardRequest) : CardRequest :=
  set_updated (set_outcome (set_status r CardRequestStatusFailed) (Result r) err) now.

Inductive foldedSiblingOutcome : Type := foldedSiblingsRequeue | foldedSiblingsFail.

(** Rows created at the same instant in no particular order. *)
Definition listFoldedCardRequests (id : string) (s : DB) : list ForceReleasedSibling :=
  (λ r, {| SibID := RID r; SibCommandKey := CommandKey r |}) <$>
    select_where (folded_under id) (card_requests s).

Definition failCardRequest (id errText : string) (siblings : foldedSiblingOutcome)
    : cardm (list ForceReleasedSibling) :=
  _ ← fail_if (str_empty id) (ErrInvalidArgument "id must not be empty");
  now ← time_Now;
  n ← update_where (with_id id [CardRequestStatusQueued; CardRequestStatusLaunching; CardRequestStatusAttached])
        (fail_with errText now);
  _ ← rowsAffectedOrNotFoundOrInvalid n id;
  match siblings with
  | foldedSiblingsFail =>
      folded ← gets (listFoldedCardRequests id);
      let siblingErrText := "folded into " +:+ id +:+ ", which failed: " +:+ errText in
      _ ← update_where (folded_under id) (λ r, fail_with siblingErrText now (set_folded r ""));
      mret folded
  | foldedSiblingsRequeue =>
      _ ← update_where (folded_under id)
            (λ r, set_updated (set_folded (set_status r CardRequestStatusQueued) "") now);
      mret []
  end.

Definition FailCardRequest (id errText : string) : cardm unit :=
  _ ← failCardRequest id errText foldedSiblingsRequeue;
  recordCardRequestTerminalOutcome id ActionTypeCommandFailed "" errText.

Definition retry_row (now : Z) (r : CardRequest) : CardRequest :=
  set_updated (set_outcome (set_target (set_launch (set_status r CardRequestStatusQueued)
    no_definition "") "" "") "" "") now.

Definition classify_retry (e : card_err) : card_err :=
  match e with ErrConstraint CUniqueCause => ErrCardRequestDuplicateCause | _ => e end.

Definition RetryCardRequest (id : string) : cardm unit :=
  _ ← fail_if (str_empty id) (ErrInvalidArgument "id must not be empty");
  now ← time_Now;
  n ← map_err classify_retry (update_where (with_id id [CardRequestStatusFailed]) (retry_row now));
  _ ← rowsAffectedOrNotFoundOrInvalid n id;
  row ← GetCardRequest id;
  ClearCardForceReleaseBarrier (CardID row).
End ledger.

(** ** Constraints as propositions *)
Definition uniq_on (key : CardRequest → option string) (t : gmap string CardRequest) : Prop :=
  ∀ i j r r' c, t !! i = Some r → t !! j = Some r' → key r = Some c → key r' = Some c → i = j.

Lemma indexed_NoDup (key : CardRequest → option string) (l : list (string * CardRequest)) :
  NoDup l.*1 →
  NoDup (omap (λ kv, key kv.2) l) ↔
    ∀ i j r r' c, (i, r) ∈ l → (j, r') ∈ l → key r = Some c → key r' = Some c → i = j.
Proof.
  induction l as [|[k x] l IH]; csimpl.
  { intros _. split; [|by constructor]. intros _ i j r r' c []%elem_of_nil. }
  intros [Hk Hnd]%NoDup_cons. specialize (IH Hnd).
  assert (∀ j r, (j, r) ∈ l → j ≠ k) as Hfresh.
  { intros j r Hj ->. apply Hk. apply list_elem_of_fmap. by exists (k, r). }
  assert (∀ c, c ∈ omap (λ kv, key kv.2) l ↔ ∃ j r, (j, r) ∈ l ∧ key r = Some c) as Hin.
  { intros c. rewrite list_elem_of_omap. split; [intros ([j r] & ? & ?); eauto|intros (j & r & ? & ?); by exists (j, r)]. }
  setoid_rewrite elem_of_cons. destruct (key x) as [c|] eqn:Hx.
  - rewrite NoDup_cons, Hin, IH. split.
    + intros [Hno Hl] i j r r' c' [?|Hi] [?|Hj] Hr Hr'; simplify_eq; [done|..| by eauto]; destruct Hno; eauto.
    + intros Hl. split; [|by eauto]. intros (j & r & Hj & Hr).
      destruct (Hfresh j r Hj). by eapply Hl; [right|left|..].
  - rewrite IH. split; [|by eauto].
    intros Hl i j r r' c' [?|Hi] [?|Hj] Hr Hr'; simplify_eq; by eauto.
Qed.

Lemma unique_ok_spec key t : unique_ok key t = true ↔ uniq_on key t.
Proof.
  unfold unique_ok, indexed, uniq_on. rewrite bool_decide_eq_true, indexed_NoDup by apply NoDup_fst_map_to_list.
  by setoid_rewrite elem_of_map_to_list.
Qed.

Lemma violation_None t : violation t = None ↔ uniq_on slot_key t ∧ uniq_on cause_key t.
Proof.
  unfold violation. rewrite <- !unique_ok_spec.
  destruct (unique_ok slot_key t), (unique_ok cause_key t); naive_solver.
Qed.

Lemma uniq_on_fmap key (g : CardRequest → CardRequest) t :
  (∀ k r, t !! k = Some r → key (g r) = key r ∨ key (g r) = None) →
  uniq_on key t → uniq_on key (g <$> t).
Proof.
  intros Hg Hu i j r r' c. rewrite !lookup_fmap.
  intros (x & Hx & ->)%fmap_Some (y & Hy & ->)%fmap_Some Hr Hr'.
  destruct (Hg i x Hx) as [E|E]; [|congruence]. destruct (Hg j y Hy) as [E'|E']; [|congruence].
  eapply Hu; [exact Hx|exact Hy|by rewrite <- E|by rewrite <- E'].
Qed.

(** A row rewrite that moves no row into an index. *)
Definition index_safe (g : CardRequest → CardRequest) (r : CardRequest) : Prop :=
  (slot_key (g r) = slot_key r ∨ slot_key (g r) = None) ∧
  (cause_key (g r) = cause_key r ∨ cause_key (g r) = None).

Lemma violation_safe g t :
  (∀ k r, t !! k = Some r → index_safe g r) → violation t = None → violation (g <$> t) = None.
Proof.
  rewrite !violation_None. intros Hg [Hs Hc].
  split; (eapply uniq_on_fmap; [|done]); intros k r Hk; by destruct (Hg k r Hk).
Qed.

(** ** Statements *)
Definition upd (p : CardRequest → bool) (f : CardRequest → CardRequest) (r : CardRequest) : CardRequest :=
  if p r then f r else r.

Definition affected (p : CardRequest → bool) (t : gmap string CardRequest) : nat :=
  size (filter (λ kv : string * CardRequest, p kv.2 = true) t).

Lemma update_where_eq p f s :
  update_where p f s =
    match violation (upd p f <$> card_requests s) with
    | Some c => (s, inl (ErrConstraint c))
    | None => (set_requests s (upd p f <$> card_requests s), inr (affected p (card_requests s)))
    end.
Proof. done. Qed.

Lemma update_where_safe p f s :
  (∀ k r, card_requests s !! k = Some r → index_safe (upd p f) r) →
  violation (card_requests s) = None →
  update_where p f s =
    (set_requests s (upd p f <$> card_requests s), inr (affected p (card_requests s))) ∧
  violation (upd p f <$> card_requests s) = None.
Proof.
  intros Hsafe Hv. rewrite update_where_eq. by rewrite (violation_safe _ _ Hsafe Hv).
Qed.

Lemma affected_pos p t : (0 < affected p t)%nat ↔ ∃ k r, t !! k = Some r ∧ p r = true.
Proof.
  unfold affected. rewrite <- Nat.neq_0_lt_0, map_size_ne_0_lookup. split.
  - intros (k & [r Hr]). apply map_lookup_filter_Some in Hr as [? ?]. eauto.
  - intros (k & r & Hr & Hp). exists k, r. by apply map_lookup_filter_Some.
Qed.

(** ** Well-formedness of the ledger *)
Definition row_wf (r : CardRequest) : Prop :=
  RID r ≠ "" ∧ CardID r ≠ "" ∧
  (is_active r = true → LauncherJobID r ≠ "") ∧
  (RStatus r = CardRequestStatusAttached →
     TargetKind r ∈ [CardRequestTargetKindTask; CardRequestTargetKindSession] ∧ TargetID r ≠ "") ∧
  (RStatus r ∉ [CardRequestStatusFolded; CardRequestStatusFinished] → FoldedInto r = "").

(** One running request per card and one live row per cause; every running row
    has an owner; every attached row a continuation; every folded row hangs
    under a running row of its own card. *)
Record ledger_wf (t : gmap string CardRequest) : Prop := {
  wf_id : ∀ k r, t !! k = Some r → RID r = k;
  wf_row : ∀ k r, t !! k = Some r → row_wf r;
  wf_unique : violation t = None;
  wf_folded : ∀ k r, t !! k = Some r → RStatus r = CardRequestStatusFolded →
    ∃ h, t !! FoldedInto r = Some h ∧ is_active h = true ∧ CardID h = CardID r;
}.

Lemma ledger_wf_fmap g t :
  ledger_wf t →
  (∀ k r, t !! k = Some r → RID (g r) = RID r ∧ CardID (g r) = CardID r ∧ row_wf (g r)) →
  violation (g <$> t) = None →
  (∀ k r, t !! k = Some r → RStatus (g r) = CardRequestStatusFolded →
     ∃ h, t !! FoldedInto (g r) = Some h ∧ is_active (g h) = true ∧ CardID h = CardID r) →
  ledger_wf (g <$> t).
Proof.
  intros Hwf Hrow Hv Hfold. split; [..|done|]; intros k r'; rewrite lookup_fmap;
    intros (r & Hr & ->)%fmap_Some; destruct (Hrow k r Hr) as (Hid & Hcard & Hrwf).
  - rewrite Hid. by eapply wf_id.
  - done.
  - intros Hf. destruct (Hfold k r Hr Hf) as (h & Hh & Hact & Hc). exists (g h).
    rewrite lookup_fmap, Hh. split_and!; [done..|]. destruct (Hrow _ h Hh) as (_ & -> & _). congruence.
Qed.

Lemma affected_with_id t id l :
  ledger_wf t →
  (0 < affected (with_id id l) t)%nat ↔ ∃ r, t !! id = Some r ∧ RStatus r ∈ l.
Proof.
  intros Hwf. rewrite affected_pos. unfold with_id, status_in. split.
  - intros (k & r & Hr & Hp). rewrite andb_true_iff, !bool_decide_eq_true in Hp. destruct Hp as [<- Hl].
    exists r. by rewrite (wf_id _ Hwf k r Hr).
  - intros (r & Hr & Hl). exists id, r. split; [done|].
    rewrite andb_true_iff, !bool_decide_eq_true. split; [|done]. by eapply wf_id.
Qed.

(** ** Queries *)
#[export] Instance request_le_total : Total request_le.
Proof.
  intros a b. unfold request_le. destruct (Z.lt_trichotomy (RCreatedAt a) (RCreatedAt b)) as [?|[E|?]]; [auto| |auto].
  rewrite E. destruct (total String.le (RID a) (RID b)); auto.
Qed.
#[export] Instance request_le_trans : Transitive request_le.
Proof.
  intros a b c [?|[E1 H1]] [?|[E2 H2]]; unfold request_le; [left; lia..|].
  right. split; [lia|]. by transitivity (RID b).
Qed.

Lemma select_where_elem p t r : r ∈ select_where p t ↔ p r = true ∧ ∃ k, t !! k = Some r.
Proof.
  unfold select_where. rewrite merge_sort_Permutation, list_elem_of_filter, list_elem_of_fmap. f_equiv.
  split; [intros ([k r'] & -> & ?%elem_of_map_to_list); eauto|].
  intros [k Hk]. exists (k, r). split; [done|]. by apply elem_of_map_to_list.
Qed.

Lemma select_where_head p t h rest :
  select_where p t = h :: rest → ∀ r, r ∈ rest → request_le h r.
Proof.
  intros Hsel. pose proof (StronglySorted_merge_sort request_le (filter (λ r, p r = true) (map_to_list t).*2)) as Hs.
  fold (select_where p t) in Hs. rewrite Hsel in Hs. apply StronglySorted_inv in Hs as [_ Hall].
  by apply Forall_forall.
Qed.

Lemma select_where_nodup p t : ledger_wf t → NoDup (RID <$> select_where p t).
Proof.
  intros Hwf. unfold select_where. rewrite merge_sort_Permutation.
  assert (NoDup (map_to_list t).*1) as Hnd by apply NoDup_fst_map_to_list.
  assert (∀ k r, (k, r) ∈ map_to_list t → RID r = k) as Hid
    by (intros k r ?%elem_of_map_to_list; by eapply wf_id).
  revert Hnd Hid. generalize (map_to_list t). intros l. induction l as [|[k r] l IH]; csimpl; intros Hnd Hid.
  { constructor. }
  apply NoDup_cons in Hnd as [Hk Hnd]. rewrite filter_cons.
  assert (NoDup (RID <$> filter (λ r, p r = true) l.*2)) as Hl.
  { apply IH; [done|]. intros. apply Hid. by right. }
  case_decide; [|done]. csimpl. apply NoDup_cons. split; [|done].
  intros (r' & Hr' & Hin)%list_elem_of_fmap. apply list_elem_of_filter in Hin as [_ Hin].
  apply list_elem_of_fmap in Hin as ([k' r''] & -> & Hin). apply Hk.
  rewrite <- (Hid k r), Hr' by by left. apply list_elem_of_fmap. exists (k', r''). split; [|done].
  simpl. apply Hid. by right.
Qed.

(** ** Claiming *)
Definition slot_taken (cardID : string) (t : gmap string CardRequest) : Prop :=
  ∃ k r, t !! k = Some r ∧ slot_key r = Some cardID.

Definition queued_in (ids : list string) (r : CardRequest) : bool :=
  bool_decide (RID r ∈ ids) && status_in [CardRequestStatusQueued] r.

Lemma status_in_spec l r : status_in l r = true ↔ RStatus r ∈ l.
Proof. unfold status_in. by rewrite bool_decide_eq_true. Qed.

Lemma status_in_false l r : status_in l r = false ↔ RStatus r ∉ l.
Proof. unfold status_in. by rewrite bool_decide_eq_false. Qed.

(** Rows with one status: the index keys are then determined by the other columns. *)
Ltac by_status r := unfold index_safe, slot_key, cause_key, is_active, status_in, row_wf in *;
  destruct (RStatus r) eqn:?; simpl in *.

Lemma fold_into_safe p h now r :
  (p r = true → RStatus r = CardRequestStatusQueued) → index_safe (upd p (fold_into h now)) r.
Proof.
  intros Hp. unfold index_safe, upd. destruct (p r); [|auto]. specialize (Hp eq_refl).
  unfold slot_key, cause_key, is_active, status_in. simpl. rewrite Hp. auto.
Qed.

Lemma fold_loop h now rest s :
  violation (card_requests s) = None →
  for_each (λ r, _ ← update_where (with_id (RID r) [CardRequestStatusQueued]) (fold_into h now); mret ()) rest s =
    (set_requests s (upd (queued_in (RID <$> rest)) (fold_into h now) <$> card_requests s), inr ()).
Proof.
  revert s. induction rest as [|x rest IH]; intros s Hv.
  { simpl. destruct s as [t ? ? ? ? ? ?]. unfold set_requests. simpl.
    unfold mret, dbm_ret. do 2 f_equal. rewrite <- (map_fmap_id t) at 1. by apply map_fmap_ext. }
  simpl.
  destruct (update_where_safe (with_id (RID x) [CardRequestStatusQueued]) (fold_into h now) s) as [Hu Hv'].
  { intros k r _. apply fold_into_safe. unfold with_id. rewrite andb_true_iff, status_in_spec.
    intros [_ Hq]. by apply list_elem_of_singleton in Hq. }
  { done. }
  erewrite bind_run; [|by erewrite bind_run by exact Hu].
  rewrite IH by done. unfold set_requests. simpl. do 2 f_equal. rewrite <- map_fmap_compose.
  apply map_fmap_ext. intros k r _. simpl. unfold upd, with_id, queued_in. simpl.
  rewrite (bool_decide_ext (RID r ∈ RID x :: _) (RID r = RID x ∨ RID r ∈ RID <$> rest)) by apply elem_of_cons.
  unfold status_in.
  destruct (decide (RID r = RID x)) as [E|E].
  - rewrite (bool_decide_eq_true_2 (RID r = RID x)) by done.
    rewrite (bool_decide_eq_true_2 (_ ∨ _)) by auto. simpl.
    destruct (bool_decide (RStatus r ∈ [CardRequestStatusQueued])) eqn:Hq; simpl;
      rewrite ?Hq, ?andb_false_r; done.
  - rewrite (bool_decide_eq_false_2 (RID r = RID x)) by done. simpl.
    by rewrite (bool_decide_ext (RID r = RID x ∨ _) (RID r ∈ RID <$> rest)) by naive_solver.
Qed.

Definition claim_row (cardID head job : string) (def : CardRequestDefinition) (now : Z) (r : CardRequest) : CardRequest :=
  if bool_decide (RID r = head) then promote def job now r
  else if queued_of cardID r then fold_into head now r else r.

(** Promoting a queued row collides exactly with a row holding the card's slot. *)
Lemma promote_violation t id h def job now :
  ledger_wf t → t !! id = Some h → RStatus h = CardRequestStatusQueued →
  (slot_taken (CardID h) t →
     violation (upd (with_id id [CardRequestStatusQueued]) (promote def job now) <$> t) = Some CUniqueCard) ∧
  (¬ slot_taken (CardID h) t →
     violation (upd (with_id id [CardRequestStatusQueued]) (promote def job now) <$> t) = None).
Proof.
  intros Hwf Hh Hq. set (g := upd _ _).
  assert (g h = promote def job now h) as Hgh.
  { unfold g, upd, with_id, status_in. rewrite Hq, (wf_id _ Hwf _ _ Hh). by rewrite bool_decide_eq_true_2. }
  assert (∀ k r, t !! k = Some r → k ≠ id → g r = r) as Hg.
  { intros k r Hr Hk. unfold g, upd, with_id. rewrite (wf_id _ Hwf _ _ Hr). by rewrite bool_decide_eq_false_2. }
  split.
  - intros (k & r & Hr & Hs). unfold violation.
    assert (unique_ok slot_key (g <$> t) = false) as ->; [|done].
    apply not_true_iff_false. rewrite unique_ok_spec. intros Hu.
    destruct (decide (k = id)) as [->|Hne].
    { rewrite Hh in Hr. injection Hr as <-. unfold slot_key, is_active, status_in in Hs. by rewrite Hq in Hs. }
    apply Hne. eapply (Hu k id (g r) (g h) (CardID h)); rewrite ?lookup_fmap, ?Hr, ?Hh; [done..| |].
    + by rewrite (Hg k r Hr Hne).
    + by rewrite Hgh.
  - intros Hfree. apply violation_None. pose proof (wf_unique _ Hwf) as [Hs Hc]%violation_None. split.
    + intros i j r r' c. rewrite !lookup_fmap. intros (x & Hx & ->)%fmap_Some (y & Hy & ->)%fmap_Some.
      destruct (decide (i = id)) as [->|Hi], (decide (j = id)) as [->|Hj]; [done|..].
      * rewrite Hh in Hx. injection Hx as <-. rewrite Hgh, (Hg j y Hy Hj). intros [= <-] Hy'.
        destruct Hfree. by exists j, y.
      * rewrite Hh in Hy. injection Hy as <-. rewrite Hgh, (Hg i x Hx Hi). intros Hx' [= <-].
        destruct Hfree. by exists i, x.
      * rewrite (Hg i x Hx Hi), (Hg j y Hy Hj). by apply Hs.
    + eapply uniq_on_fmap; [|done]. intros k r Hr. left. destruct (decide (k = id)) as [->|Hk]; [|by rewrite (Hg k r)].
      rewrite Hh in Hr. injection Hr as <-. rewrite Hgh. unfold cause_key, status_in. simpl. by rewrite Hq.
Qed.

Lemma map_err_run {A} (f : card_err → card_err) (m : cardm A) s :
  map_err f m s = match m s with (s', inl e) => (s', inl (f e)) | r => r end.
Proof. done. Qed.

Lemma queued_of_spec cardID r :
  queued_of cardID r = true ↔ CardID r = cardID ∧ RStatus r = CardRequestStatusQueued.
Proof.
  unfold queued_of. by rewrite andb_true_iff, bool_decide_eq_true, status_in_spec, list_elem_of_singleton.
Qed.

Lemma str_empty_ne s : s ≠ "" → str_empty s = false.
Proof. intros. by apply bool_decide_eq_false. Qed.

(** The whole claim, on a well-formed ledger. *)
Lemma Claim_run cardID job def s :
  ledger_wf (card_requests s) → cardID ≠ "" → job ≠ "" →
  match select_where (queued_of cardID) (card_requests s) with
  | [] => ClaimQueuedCardRequests cardID job def s = (s, inl ErrNoQueuedCardRequests)
  | head :: rest =>
      (slot_taken cardID (card_requests s) →
         ClaimQueuedCardRequests cardID job def s = (s, inl ErrCardRequestSlotOccupied)) ∧
      (¬ slot_taken cardID (card_requests s) →
         ClaimQueuedCardRequests cardID job def s =
           (set_requests s (claim_row cardID (RID head) job def (clock s) <$> card_requests s),
            inr (promote def job (clock s) head, fold_into (RID head) (clock s) <$> rest)) ∧
         violation (claim_row cardID (RID head) job def (clock s) <$> card_requests s) = None)
  end.
Proof.
  intros Hwf Hc Hj. unfold ClaimQueuedCardRequests.
  rewrite !bind_fail_if, !str_empty_ne by done. rewrite bind_gets.
  destruct (select_where _ _) as [|head rest] eqn:Hsel; [done|].
  assert (∀ r, r ∈ head :: rest → queued_of cardID r = true ∧ card_requests s !! RID r = Some r) as Hin.
  { intros r Hr. rewrite <- Hsel in Hr. apply select_where_elem in Hr as [Hq [k Hk]].
    split; [done|]. by rewrite (wf_id _ Hwf k r Hk). }
  destruct (Hin head) as [[Hhc Hhq]%queued_of_spec Hh]; [by left|].
  destruct (promote_violation _ _ _ def job (clock s) Hwf Hh Hhq) as [Hocc Hfree]. rewrite Hhc in *.
  unfold time_Now. rewrite bind_gets. split; intros Hs.
  - apply bind_stop. rewrite map_err_run, update_where_eq. by rewrite (Hocc Hs).
  - specialize (Hfree Hs).
    erewrite bind_run; [|by rewrite map_err_run, update_where_eq, Hfree].
    rewrite bind_fail_if.
    assert ((affected (with_id (RID head) [CardRequestStatusQueued]) (card_requests s) =? 0)%nat = false) as ->.
    { apply Nat.eqb_neq, Nat.neq_0_lt_0, affected_with_id; [done|]. exists head. set_solver. }
    erewrite bind_run; [|by apply fold_loop]. unfold mret, dbm_ret, set_requests. simpl.
    rewrite <- map_fmap_compose.
    assert ((upd (queued_in (RID <$> rest)) (fold_into (RID head) (clock s)) ∘
             upd (with_id (RID head) [CardRequestStatusQueued]) (promote def job (clock s))) <$> card_requests s =
            claim_row cardID (RID head) job def (clock s) <$> card_requests s) as Heq.
    { apply map_fmap_ext. intros k r Hr. simpl. unfold claim_row, upd at 2, with_id.
      rewrite <- (wf_id _ Hwf k r Hr) in Hr. case_bool_decide as Hid; simpl.
      - rewrite <- Hid in Hh. rewrite Hh in Hr. injection Hr as <-.
        unfold status_in at 1. rewrite Hhq. simpl. unfold upd, queued_in, status_in. simpl.
        by rewrite andb_false_r.
      - unfold upd, queued_in. destruct (queued_of cardID r) eqn:Hq.
        + rewrite bool_decide_eq_true_2; [apply queued_of_spec in Hq as [_ Hq]; by unfold status_in; rewrite Hq|].
          assert (r ∈ head :: rest) as Hr' by (rewrite <- Hsel; apply select_where_elem; eauto).
          apply elem_of_cons in Hr' as [->|Hr']; [done|]. by apply list_elem_of_fmap_2.
        + case_bool_decide as Hmem; [|done]. apply list_elem_of_fmap in Hmem as (r' & Hrr & Hmem).
          destruct (Hin r') as [Hq' Hr']; [by right|]. rewrite <- Hrr, Hr in Hr'. injection Hr' as <-. congruence. }
    rewrite Heq. split; [done|]. rewrite <- Heq, map_fmap_compose. apply violation_safe; [|done].
    intros k r _. apply fold_into_safe. unfold queued_in. rewrite andb_true_iff, status_in_spec.
    intros [_ Hq]. by apply list_elem_of_singleton in Hq.
Qed.

Lemma claim_row_wf t cardID head job def now h :
  ledger_wf t → job ≠ "" → cardID ≠ "" →
  t !! head = Some h → CardID h = cardID → RStatus h = CardRequestStatusQueued →
  violation (claim_row cardID head job def now <$> t) = None →
  ledger_wf (claim_row cardID head job def now <$> t).
Proof.
  intros Hwf Hj Hc Hh Hhc Hhq Hv. apply ledger_wf_fmap; [done| |done|].
  - intros k r Hr. pose proof (wf_row _ Hwf k r Hr) as (Hid & Hcard & Hl & Hat & Hf).
    unfold claim_row. case_bool_decide as Heq.
    + rewrite <- Heq in Hh. rewrite <- (wf_id _ Hwf k r Hr), Hh in Hr. injection Hr as ->.
      split_and!; [done..|]. unfold row_wf. simpl. split_and!; [done..|]. intros _. apply Hf. rewrite Hhq. set_solver.
    + destruct (queued_of cardID r) eqn:Hq; [|by split_and!].
      split_and!; [done..|]. unfold row_wf. simpl. split_and!; [done..|]. set_solver.
  - intros k r Hr. unfold claim_row at 1 2. case_bool_decide; [done|]. destruct (queued_of cardID r) eqn:Hq.
    + intros _. exists h. split_and!; [done| |].
      * unfold claim_row. by rewrite bool_decide_eq_true_2 by by eapply wf_id.
      * apply queued_of_spec in Hq as [-> _]. done.
    + intros Hfold. destruct (wf_folded _ Hwf k r Hr Hfold) as (h' & Hh' & Hact & Hcc). exists h'.
      split_and!; [done| |done]. unfold claim_row.
      case_bool_decide as E; [done|]. destruct (queued_of cardID h') eqn:Hq'; [|done].
      apply queued_of_spec in Hq' as [_ Hq']. unfold is_active, status_in in Hact. by rewrite Hq' in Hact.
Qed.

(** ** Outcomes *)

(** Every request belongs to an existing card (the foreign key). *)
Definition db_wf (s : DB) : Prop :=
  ledger_wf (card_requests s) ∧
  ∀ k r, card_requests s !! k = Some r → is_Some (tasks s !! CardID r).

Lemma set_requests_same s : set_requests s (card_requests s) = s.
Proof. by destruct s. Qed.

Lemma upd_none p f (t : gmap string CardRequest) :
  (∀ k r, t !! k = Some r → p r = false) → upd p f <$> t = t.
Proof.
  intros Hp. rewrite <- (map_fmap_id t) at 2. apply map_fmap_ext. intros k r Hr. unfold upd. by rewrite (Hp k r Hr).
Qed.

(** An update keyed by id and status that matches no row changes nothing. *)
Lemma update_miss f s id l :
  ledger_wf (card_requests s) → (∀ r, card_requests s !! id = Some r → RStatus r ∉ l) →
  update_where (with_id id l) f s = (s, inr 0%nat).
Proof.
  intros Hwf Hno. rewrite update_where_eq.
  assert (upd (with_id id l) f <$> card_requests s = card_requests s) as ->.
  { apply upd_none. intros k r Hr. unfold with_id. apply andb_false_iff.
    destruct (decide (RID r = id)) as [<-|]; [right|left; by apply bool_decide_eq_false].
    apply status_in_false. apply Hno. by rewrite (wf_id _ Hwf k r Hr). }
  rewrite (wf_unique _ Hwf), set_requests_same. do 2 f_equal.
  destruct (affected (with_id id l) (card_requests s)) eqn:E; [done|].
  destruct (proj1 (affected_with_id (card_requests s) id l Hwf)) as (r & Hr & Hin); [lia|]. by destruct (Hno r Hr).
Qed.

Lemma affected_hit s id l r :
  ledger_wf (card_requests s) → card_requests s !! id = Some r → RStatus r ∈ l →
  (0 <? affected (with_id id l) (card_requests s))%nat = true.
Proof. intros Hwf Hr Hl. apply Nat.ltb_lt, affected_with_id; eauto. Qed.

Lemma rows_run n id s :
  rowsAffectedOrNotFoundOrInvalid n id s =
    if (0 <? n)%nat then (s, inr ())
    else match card_requests s !! id with
         | None => (s, inl ErrCardRequestNotFound)
         | Some _ => (s, inl ErrCardRequestInvalidTransition)
         end.
Proof.
  unfold rowsAffectedOrNotFoundOrInvalid. destruct (0 <? n)%nat; [done|].
  rewrite bind_gets. by destruct (card_requests s !! id).
Qed.

Lemma Get_run id s :
  GetCardRequest id s =
    match card_requests s !! id with Some r => (s, inr r) | None => (s, inl ErrCardRequestNotFound) end.
Proof. unfold GetCardRequest. rewrite bind_gets. by destruct (card_requests s !! id). Qed.

Section outcomes.
Context (uuid : nat → string).

Definition outcome_action (s : DB) (r : CardRequest) (actionType : string) (p : CardRequestOutcomePayload) : Action :=
  {| AID := uuid (uuids s); ATaskID := CardID r; AType := actionType; APayload := marshal_outcome p;
     AFromStatus := ""; AToStatus := ""; ACreatedAt := clock s; Actor := ActorDaemon |}.

Definition log_outcome (s : DB) (r : CardRequest) (actionType : string) (p : CardRequestOutcomePayload) : DB :=
  if bool_decide (CommandKey r = CardRequestCommandKeyGo) then s
  else set_actions (next_uuid s) (actions s ++ [outcome_action s r actionType p]).

Lemma record_run s id r actionType result err reason sibs :
  card_requests s !! id = Some r → is_Some (tasks s !! CardID r) →
  recordCardRequestOutcome uuid id actionType result err reason sibs s =
    (log_outcome s r actionType (outcome_payload r result err reason sibs), inr ()).
Proof.
  intros Hr Ht. unfold recordCardRequestOutcome, log_outcome.
  erewrite bind_run by by rewrite Get_run, Hr. case_bool_decide; [done|].
  unfold CreateAction, time_Now. cbn [AID]. change (str_empty "") with true. cbv iota.
  erewrite bind_run by done. rewrite !bind_gets, bind_fail_if. cbn [ATaskID next_uuid tasks].
  by rewrite bool_decide_eq_true_2.
Qed.

Lemma log_outcome_tables s r a p :
  card_requests (log_outcome s r a p) = card_requests s ∧ tasks (log_outcome s r a p) = tasks s ∧
  jobs (log_outcome s r a p) = jobs s ∧ barriers (log_outcome s r a p) = barriers s ∧
  clock (log_outcome s r a p) = clock s.
Proof. unfold log_outcome. by case_bool_decide. Qed.

(** ** Failing *)
Definition live_statuses : list CardRequestStatus :=
  [CardRequestStatusQueued; CardRequestStatusLaunching; CardRequestStatusAttached].

Lemma live_not_closed st :
  st ∈ live_statuses → st ∉ [CardRequestStatusFolded; CardRequestStatusFinished].
Proof.
  intros H. destruct st; try (apply (bool_decide_unpack _); vm_compute; exact I);
    exfalso; revert H; apply (bool_decide_unpack (¬ _)); vm_compute; exact I.
Qed.

Definition sibling_row (mode : foldedSiblingOutcome) (id err : string) (now : Z) (r : CardRequest) : CardRequest :=
  match mode with
  | foldedSiblingsRequeue => set_updated (set_folded (set_status r CardRequestStatusQueued) "") now
  | foldedSiblingsFail =>
      fail_with ("folded into " +:+ id +:+ ", which failed: " +:+ err) now (set_folded r "")
  end.

Definition fail_row (mode : foldedSiblingOutcome) (id err : string) (now : Z) (r : CardRequest) : CardRequest :=
  if bool_decide (RID r = id) then fail_with err now r
  else if folded_under id r then sibling_row mode id err now r else r.

Lemma folded_under_spec id r :
  folded_under id r = true ↔ FoldedInto r = id ∧ RStatus r = CardRequestStatusFolded.
Proof.
  unfold folded_under. by rewrite andb_true_iff, bool_decide_eq_true, status_in_spec, list_elem_of_singleton.
Qed.

Lemma fail_with_safe p err now (f : CardRequest → CardRequest) r :
  index_safe (upd p (λ r, fail_with err now (f r))) r.
Proof.
  unfold index_safe, upd. destruct (p r); [|auto].
  unfold slot_key, cause_key, is_active, status_in. simpl. rewrite orb_true_r. auto.
Qed.

Lemma sibling_row_safe mode id err now r : index_safe (upd (folded_under id) (sibling_row mode id err now)) r.
Proof.
  destruct mode; [|apply fail_with_safe]. unfold index_safe, upd.
  destruct (folded_under id r) eqn:Hf; [|auto]. apply folded_under_spec in Hf as [_ Hf].
  unfold slot_key, cause_key, is_active, status_in. simpl. rewrite Hf. auto.
Qed.

Lemma fail_run id err mode s :
  ledger_wf (card_requests s) → id ≠ "" →
  match card_requests s !! id with
  | None => failCardRequest id err mode s = (s, inl ErrCardRequestNotFound)
  | Some r =>
      (RStatus r ∉ live_statuses → failCardRequest id err mode s = (s, inl ErrCardRequestInvalidTransition)) ∧
      (RStatus r ∈ live_statuses → ∃ sibs,
         failCardRequest id err mode s =
           (set_requests s (fail_row mode id err (clock s) <$> card_requests s), inr sibs) ∧
         violation (fail_row mode id err (clock s) <$> card_requests s) = None)
  end.
Proof.
  intros Hwf Hid. unfold failCardRequest. rewrite bind_fail_if, str_empty_ne by done.
  unfold time_Now. rewrite bind_gets. destruct (card_requests s !! id) as [r|] eqn:Hr.
  2: { erewrite bind_run by (apply update_miss; [done|intros r; by rewrite Hr]).
       apply bind_stop. by rewrite rows_run, Hr. }
  split; intros Hl.
  { erewrite bind_run by (apply update_miss; [done|intros ?; rewrite Hr; by intros [= <-]]).
    apply bind_stop. by rewrite rows_run, Hr. }
  destruct (update_where_safe (with_id id live_statuses) (fail_with err (clock s)) s) as [Hu Hv];
    [intros k x _; apply fail_with_safe|apply Hwf|].
  erewrite bind_run by exact Hu.
  erewrite bind_run by by rewrite rows_run, (affected_hit _ _ _ r).
  set (s1 := set_requests s _) in *.
  assert (upd (folded_under id) (sibling_row mode id err (clock s)) <$> card_requests s1 =
          fail_row mode id err (clock s) <$> card_requests s) as Heq.
  { unfold s1. cbn [card_requests set_requests]. rewrite <- map_fmap_compose. apply map_fmap_ext.
    intros k x Hx. simpl. unfold fail_row, upd at 2, with_id. case_bool_decide as E; simpl.
    - rewrite <- E, (wf_id _ Hwf k x Hx), Hx in Hr. injection Hr as ->.
      rewrite (proj2 (status_in_spec live_statuses r)) by done.
      unfold upd. assert (folded_under id (fail_with err (clock s) r) = false) as ->; [|done].
      unfold folded_under, status_in. simpl. by rewrite andb_false_r.
    - done. }
  destruct (update_where_safe (folded_under id) (sibling_row mode id err (clock s)) s1) as [Hu2 Hv2];
    [intros k x _; apply sibling_row_safe|done|].
  rewrite Heq in Hu2, Hv2.
  destruct mode; [|rewrite bind_gets]; (erewrite bind_run by exact Hu2); eexists; by split.
Qed.

Lemma fail_row_wf t mode id err now :
  ledger_wf t → violation (fail_row mode id err now <$> t) = None →
  (∀ r, t !! id = Some r → RStatus r ∈ live_statuses) →
  ledger_wf (fail_row mode id err now <$> t).
Proof.
  intros Hwf Hv Hlive. apply ledger_wf_fmap; [done| |done|].
  - intros k r Hr. pose proof (wf_row _ Hwf k r Hr) as (Hid & Hcard & Hl & Hat & Hf). unfold fail_row.
    case_bool_decide as E.
    + split_and!; [done..|]. unfold row_wf. simpl. split_and!; [done..|]. intros _. apply Hf.
      apply live_not_closed, Hlive. by rewrite <- E, (wf_id _ Hwf k r Hr).
    + destruct (folded_under id r) eqn:Hu; [|by split_and!].
      destruct mode; (split_and!; [done..|]; unfold row_wf; simpl; by split_and!).
  - intros k r Hr. unfold fail_row at 1 2. case_bool_decide; [done|].
    destruct (folded_under id r) eqn:Hu; [by destruct mode|]. intros Hfold.
    destruct (wf_folded _ Hwf k r Hr Hfold) as (h & Hh & Hact & Hc). exists h. split_and!; [done| |done].
    unfold fail_row. rewrite bool_decide_eq_false_2.
    + destruct (folded_under id h) eqn:Hu'; [|done]. apply folded_under_spec in Hu' as [_ Hs].
      unfold is_active, status_in in Hact. by rewrite Hs in Hact.
    + intros E. rewrite (wf_id _ Hwf _ _ Hh) in E. apply not_true_iff_false in Hu. apply Hu.
      by apply folded_under_spec.
Qed.
End outcomes.

(** ** Finishing *)
Section finishing.
Context (uuid : nat → string).

Definition finish_row (id cardID result : string) (created now : Z) (r : CardRequest) : CardRequest :=
  if bool_decide (RID r = id) then finish_with result (RError r) now r
  else if folded_under id r || absorbable cardID created r
  then finish_with ("absorbed by " +:+ id) "" now r else r.

Lemma absorbable_spec cardID created r :
  absorbable cardID created r = true ↔
  CardID r = cardID ∧ RStatus r = CardRequestStatusFailed ∧ (RCreatedAt r < created)%Z ∧ CauseID r = "".
Proof.
  unfold absorbable, str_empty. rewrite !andb_true_iff, !bool_decide_eq_true, status_in_spec, list_elem_of_singleton. tauto.
Qed.

(** Moving a row to finished takes it out of the slot index and keeps it in
    the cause index only if it was there. *)
Lemma finish_with_safe p (res err : CardRequest → string) now r :
  (p r = true → RStatus r ≠ CardRequestStatusFailed ∨ CauseID r = "") →
  index_safe (upd p (λ r, finish_with (res r) (err r) now r)) r.
Proof.
  intros Hp. unfold index_safe, upd. destruct (p r); [|auto]. specialize (Hp eq_refl).
  unfold slot_key, cause_key, is_active, status_in. simpl.
  destruct (str_empty (CauseID r)) eqn:He; [auto|]. apply bool_decide_eq_false in He.
  destruct Hp as [Hp|Hp]; [|done]. rewrite (bool_decide_eq_false_2 (RStatus r ∈ [CardRequestStatusFailed])); [auto|].
  by intros ?%list_elem_of_singleton.
Qed.

Lemma finish_run id result s r :
  db_wf s → id ≠ "" → card_requests s !! id = Some r → RStatus r = CardRequestStatusAttached →
  let s1 := set_requests s (finish_row id (CardID r) result (RCreatedAt r) (clock s) <$> card_requests s) in
  let r1 := finish_with result (RError r) (clock s) r in
  FinishCardRequest uuid id result s =
    (log_outcome uuid s1 r1 ActionTypeCommandFinished (outcome_payload r1 result "" "" []), inr ()) ∧
  violation (card_requests s1) = None.
Proof.
  intros [Hwf Hfk] Hid Hr Hst. unfold FinishCardRequest. rewrite bind_fail_if, str_empty_ne by done.
  erewrite bind_run by by rewrite Get_run, Hr.
  rewrite bind_fail_if. unfold status_in at 1. rewrite Hst.
  change (negb _) with false. cbv iota. unfold time_Now. rewrite bind_gets. cbv zeta.
  destruct (update_where_safe (λ x, bool_decide (RID x = id)) (λ x, finish_with result (RError x) (clock s) x) s)
    as [Hu1 Hv1]; [|apply Hwf|].
  { intros k x Hx. apply (finish_with_safe _ (λ _, result) RError). rewrite bool_decide_eq_true. intros E. left.
    rewrite <- E, (wf_id _ Hwf k x Hx), Hx in Hr. injection Hr as ->. congruence. }
  erewrite bind_run by exact Hu1. set (s1 := set_requests s _) in *.
  destruct (update_where_safe (folded_under id) (finish_with ("absorbed by " +:+ id) "" (clock s)) s1)
    as [Hu2 Hv2]; [|done|].
  { intros k x _. apply (finish_with_safe _ (λ _, _) (λ _, _)). intros [_ ->]%folded_under_spec. by left. }
  erewrite bind_run by exact Hu2. set (s2 := set_requests s1 _) in *.
  destruct (update_where_safe (absorbable (CardID r) (RCreatedAt r)) (finish_with ("absorbed by " +:+ id) "" (clock s)) s2)
    as [Hu3 Hv3]; [|done|].
  { intros k x _. apply (finish_with_safe _ (λ _, _) (λ _, _)). rewrite absorbable_spec. by right; destruct_and!. }
  erewrite bind_run by exact Hu3.
  assert (upd (absorbable (CardID r) (RCreatedAt r)) (finish_with ("absorbed by " +:+ id) "" (clock s)) <$> card_requests s2
          = finish_row id (CardID r) result (RCreatedAt r) (clock s) <$> card_requests s) as Heq.
  { unfold s2, s1. cbn [card_requests set_requests]. rewrite <- !map_fmap_compose. apply map_fmap_ext.
    intros k x Hx. simpl. unfold finish_row, upd at 3. case_bool_decide as E.
    - assert (folded_under id (finish_with result (RError x) (clock s) x) = false) as H1
        by (unfold folded_under, status_in; simpl; by rewrite andb_false_r).
      assert (absorbable (CardID r) (RCreatedAt r) (finish_with result (RError x) (clock s) x) = false) as H2
        by (unfold absorbable, status_in; simpl; by rewrite andb_false_r).
      unfold upd. by rewrite H1, H2.
    - unfold upd at 2. destruct (folded_under id x) eqn:Hf; simpl; [|done].
      unfold upd, absorbable, status_in. simpl. by rewrite andb_false_r. }
  rewrite Heq in Hu3, Hv3 |- *.
  assert (finish_row id (CardID r) result (RCreatedAt r) (clock s) r = finish_with result (RError r) (clock s) r) as Hrow.
  { unfold finish_row. by rewrite bool_decide_eq_true_2 by by eapply wf_id. }
  split; [|done]. unfold recordCardRequestTerminalOutcome. rewrite <- Hrow. apply record_run.
  - cbn [card_requests set_requests]. by rewrite lookup_fmap, Hr.
  - rewrite Hrow. exact (Hfk id r Hr).
Qed.

Lemma finish_row_wf t id cardID result created now :
  ledger_wf t → violation (finish_row id cardID result created now <$> t) = None →
  ledger_wf (finish_row id cardID result created now <$> t).
Proof.
  intros Hwf Hv. apply ledger_wf_fmap; [done| |done|].
  - intros k r Hr. pose proof (wf_row _ Hwf k r Hr) as (Hid & Hcard & Hl & Hat & Hf).
    assert (∀ res err, row_wf (finish_with res err now r)) as Hfin.
    { intros. unfold row_wf. simpl. split_and!; [done..|]. set_solver. }
    unfold finish_row. repeat case_match; split_and!; done.
  - intros k r Hr. unfold finish_row at 1 2. case_bool_decide; [done|].
    destruct (folded_under id r) eqn:Hu; [done|]. destruct (absorbable cardID created r); [done|].
    simpl. intros Hfold. destruct (wf_folded _ Hwf k r Hr Hfold) as (h & Hh & Hact & Hc). exists h.
    split_and!; [done| |done]. unfold finish_row. rewrite bool_decide_eq_false_2.
    + destruct (folded_under id h || absorbable cardID created h) eqn:Hu'; [|done].
      unfold is_active, status_in in Hact.
      apply orb_true_iff in Hu' as [[_ Hs]%folded_under_spec|(_ & Hs & _)%absorbable_spec]; by rewrite Hs in Hact.
    + intros E. rewrite (wf_id _ Hwf _ _ Hh) in E. apply not_true_iff_false in Hu. apply Hu.
      by apply folded_under_spec.
Qed.
End finishing.

(** ** Attaching, retrying, creating *)
Lemma attach_to_safe p kind target now r :
  (p r = true → RStatus r = CardRequestStatusLaunching) → index_safe (upd p (attach_to kind target now)) r.
Proof.
  intros Hp. unfold index_safe, upd. destruct (p r); [|auto]. specialize (Hp eq_refl).
  unfold slot_key, cause_key, is_active, status_in. simpl. rewrite Hp. auto.
Qed.

Definition attach_args_ok (id kind target : string) : Prop :=
  id ≠ "" ∧ kind ∈ [CardRequestTargetKindTask; CardRequestTargetKindSession] ∧ target ≠ "".

Lemma validate_run {B} id kind target (f : unit → cardm B) s :
  attach_args_ok id kind target → (validateAttachArgs id kind target ≫= f) s = f () s.
Proof.
  intros (Hid & Hk & Ht). erewrite bind_run; [done|]. unfold validateAttachArgs.
  rewrite !bind_fail_if, str_empty_ne by done. rewrite (bool_decide_eq_true_2 (kind ∈ _)) by done. simpl.
  by rewrite str_empty_ne.
Qed.

Definition attach_row (id kind target : string) (now : Z) : CardRequest → CardRequest :=
  upd (with_id id [CardRequestStatusLaunching]) (attach_to kind target now).

Lemma with_id_spec id l r : with_id id l r = true ↔ RID r = id ∧ RStatus r ∈ l.
Proof. unfold with_id. by rewrite andb_true_iff, bool_decide_eq_true, status_in_spec. Qed.

Lemma attach_run id kind target s :
  ledger_wf (card_requests s) → attach_args_ok id kind target →
  match card_requests s !! id with
  | None => AttachCardRequest id kind target s = (s, inl ErrCardRequestNotFound)
  | Some r =>
      if bool_decide (RStatus r = CardRequestStatusLaunching) then
        AttachCardRequest id kind target s =
          (set_requests s (attach_row id kind target (clock s) <$> card_requests s), inr ()) ∧
        violation (attach_row id kind target (clock s) <$> card_requests s) = None
      else AttachCardRequest id kind target s = (s, inl ErrCardRequestInvalidTransition)
  end.
Proof.
  intros Hwf Hargs. unfold AttachCardRequest. rewrite validate_run by done. unfold time_Now. rewrite bind_gets.
  destruct (card_requests s !! id) as [r|] eqn:Hr; [case_bool_decide as Hst|].
  - destruct (update_where_safe (with_id id [CardRequestStatusLaunching]) (attach_to kind target (clock s)) s)
      as [Hu Hv]; [|apply Hwf|].
    { intros k x _. apply attach_to_safe. by intros [_ ?%list_elem_of_singleton]%with_id_spec. }
    split; [|done]. erewrite bind_run by exact Hu. rewrite rows_run. erewrite affected_hit; [done..|].
    rewrite Hst. by apply list_elem_of_singleton.
  - erewrite bind_run by (apply update_miss; [done|intros x; rewrite Hr; intros [= <-] ?%list_elem_of_singleton; done]).
    by rewrite rows_run, Hr.
  - erewrite bind_run by (apply update_miss; [done|intros x; by rewrite Hr]). by rewrite rows_run, Hr.
Qed.

(** The owner-checked attach adds a test of the launcher and nothing else. *)
Lemma attach_owned_run id job kind target s :
  ledger_wf (card_requests s) → attach_args_ok id kind target → job ≠ "" →
  match card_requests s !! id with
  | None => AttachCardRequestOwned id job kind target s = (s, inl ErrCardRequestNotFound)
  | Some r =>
      if bool_decide (LauncherJobID r = job)
      then AttachCardRequestOwned id job kind target s = AttachCardRequest id kind target s
      else AttachCardRequestOwned id job kind target s = (s, inl ErrCardRequestOwnerMismatch)
  end.
Proof.
  intros Hwf Hargs Hj. unfold AttachCardRequestOwned, AttachCardRequest.
  rewrite bind_fail_if, str_empty_ne by done. rewrite !validate_run by done. unfold time_Now. rewrite !bind_gets.
  set (p := λ r, with_id id [CardRequestStatusLaunching] r && bool_decide (LauncherJobID r = job)).
  assert (∀ k x, card_requests s !! k = Some x → p x = true →
    card_requests s !! id = Some x ∧ RStatus x = CardRequestStatusLaunching ∧ LauncherJobID x = job) as Hp.
  { intros k x Hx. unfold p. rewrite andb_true_iff, with_id_spec, bool_decide_eq_true.
    intros [[<- ?%list_elem_of_singleton] ?]. by rewrite (wf_id _ Hwf k x Hx). }
  assert ((∀ k x, card_requests s !! k = Some x → p x = false) →
    update_where p (attach_to kind target (clock s)) s = (s, inr 0%nat)) as Hmiss.
  { intros Hno. rewrite update_where_eq, upd_none, (wf_unique _ Hwf), set_requests_same by done. do 2 f_equal.
    destruct (affected p (card_requests s)) eqn:E; [done|].
    destruct (proj1 (affected_pos p (card_requests s))) as (k & x & Hx & Hpx); [lia|].
    by rewrite (Hno k x Hx) in Hpx. }
  destruct (card_requests s !! id) as [r|] eqn:Hr.
  2: { erewrite bind_run; [|apply Hmiss; intros k x Hx; apply not_true_iff_false; intros Hpx;
         by destruct (Hp k x Hx Hpx)]. simpl. erewrite bind_stop; [done|]. by rewrite Get_run, Hr. }
  case_bool_decide as Hown.
  - assert (∀ k x, card_requests s !! k = Some x → p x = with_id id [CardRequestStatusLaunching] x) as Hsame.
    { intros k x Hx. unfold p. destruct (with_id id _ x) eqn:E; [|done]. simpl.
      apply with_id_spec in E as [<- _]. rewrite (wf_id _ Hwf k x Hx), Hx in Hr. injection Hr as ->.
      by apply bool_decide_eq_true. }
    assert (update_where p (attach_to kind target (clock s)) s =
            update_where (with_id id [CardRequestStatusLaunching]) (attach_to kind target (clock s)) s) as Hu.
    { rewrite !update_where_eq. unfold affected.
      rewrite (map_fmap_ext (upd p _) (upd (with_id id [CardRequestStatusLaunching]) (attach_to kind target (clock s))))
        by (intros k x Hx; unfold upd; by rewrite (Hsame k x Hx)).
      destruct (violation _); [done|]. do 3 f_equal. apply map_filter_ext. intros k x Hx. simpl.
      by rewrite (Hsame k x Hx). }
    unfold mbind, dbm_bind. rewrite Hu.
    destruct (update_where (with_id id [CardRequestStatusLaunching]) (attach_to kind target (clock s)) s)
      as [s1 [e|n]] eqn:Hs1; [done|]. rewrite rows_run.
    destruct (0 <? n)%nat eqn:Hn; [done|]. rewrite Get_run.
    assert (card_requests s1 !! id = Some r ∨ ∃ x, card_requests s1 !! id = Some x ∧ LauncherJobID x = job) as Hs.
    { rewrite update_where_eq in Hs1. destruct (violation _); [done|]. injection Hs1 as <- _.
      cbn [card_requests set_requests]. rewrite lookup_fmap, Hr. simpl. right. eexists. split; [done|].
      unfold upd. by destruct (with_id _ _ r). }
    destruct Hs as [Hs|(x & Hs & Hx)]; rewrite Hs; by rewrite bool_decide_eq_true_2.
  - erewrite bind_run; [|apply Hmiss; intros k x Hx; apply not_true_iff_false; intros Hpx;
      destruct (Hp k x Hx Hpx) as ([= <-] & _ & ?); done]. simpl.
    erewrite bind_run; [|by rewrite Get_run, Hr]. by rewrite bool_decide_eq_false_2.
Qed.

Lemma attach_row_wf t id kind target now :
  ledger_wf t → attach_args_ok id kind target → violation (attach_row id kind target now <$> t) = None →
  ledger_wf (attach_row id kind target now <$> t).
Proof.
  intros Hwf (Hid & Hk & Ht) Hv. apply ledger_wf_fmap; [done| |done|].
  - intros k r Hr. pose proof (wf_row _ Hwf k r Hr) as (Hrid & Hcard & Hl & Hat & Hf). unfold attach_row, upd.
    destruct (with_id id _ r) eqn:E; [|by split_and!].
    apply with_id_spec in E as [_ Hst%list_elem_of_singleton].
    split_and!; [done..|]. unfold row_wf, is_active, status_in in *. simpl in *. rewrite Hst in *.
    split_and!; [done|done|intros _; by apply Hl|done|intros _; apply Hf; set_solver].
  - intros k r Hr. unfold attach_row at 1 2, upd. destruct (with_id id _ r) eqn:E; [done|]. intros Hfold.
    destruct (wf_folded _ Hwf k r Hr Hfold) as (h & Hh & Hact & Hc). exists h. split_and!; [done| |done].
    unfold attach_row, upd. by destruct (with_id id _ h).
Qed.

Lemma retry_row_wf t id now :
  ledger_wf t → violation (upd (with_id id [CardRequestStatusFailed]) (retry_row now) <$> t) = None →
  ledger_wf (upd (with_id id [CardRequestStatusFailed]) (retry_row now) <$> t).
Proof.
  intros Hwf Hv. apply ledger_wf_fmap; [done| |done|].
  - intros k r Hr. pose proof (wf_row _ Hwf k r Hr) as (Hrid & Hcard & Hl & Hat & Hf). unfold upd.
    destruct (with_id id _ r) eqn:E; [|by split_and!]. apply with_id_spec in E as [_ Hst%list_elem_of_singleton].
    split_and!; [done..|]. unfold row_wf. simpl. split_and!; [done..|]. intros _. apply Hf. rewrite Hst. set_solver.
  - intros k r Hr. unfold upd at 1 2. destruct (with_id id _ r) eqn:E; [done|]. intros Hfold.
    destruct (wf_folded _ Hwf k r Hr Hfold) as (h & Hh & Hact & Hc). exists h. split_and!; [done| |done].
    unfold upd. destruct (with_id id _ h) eqn:E'; [|done].
    apply with_id_spec in E' as [_ Hst%list_elem_of_singleton]. unfold is_active, status_in in Hact. by rewrite Hst in Hact.
Qed.

Lemma insert_wf t r :
  ledger_wf t → row_wf r → RStatus r ≠ CardRequestStatusFolded → t !! RID r = None →
  violation (<[RID r := r]> t) = None → ledger_wf (<[RID r := r]> t).
Proof.
  intros Hwf Hrow Hst Hnew Hv. split; [..|done|]; intros k x; rewrite lookup_insert_Some.
  - intros [[<- <-]|[_ Hx]]; [done|by eapply wf_id].
  - intros [[<- <-]|[_ Hx]]; [done|by eapply wf_row].
  - intros [[<- <-]|[Hne Hx]] Hf; [done|]. destruct (wf_folded _ Hwf k x Hx Hf) as (h & Hh & ? & ?).
    exists h. split; [|done]. rewrite lookup_insert_ne; [done|]. congruence.
Qed.

(** ** Properties of the ledger *)

(** The rows claimable for a card. *)
Definition waiting (cardID : string) (t : gmap string CardRequest) (r : CardRequest) : Prop :=
  (∃ k, t !! k = Some r) ∧ CardID r = cardID ∧ RStatus r = CardRequestStatusQueued.

Lemma waiting_select cardID t r : r ∈ select_where (queued_of cardID) t ↔ waiting cardID t r.
Proof. rewrite select_where_elem, queued_of_spec. unfold waiting. tauto. Qed.

(** Claiming a card's queue: with nothing queued, or with the card's slot
    held, the claim fails and changes nothing; otherwise it promotes the oldest
    queued request (by creation time, then id) with the given launcher as owner,
    folds every other queued request of that card into it, leaves every other
    row and table alone, and the ledger stays well formed. *)
Theorem ClaimQueuedCardRequests_spec cardID job def s :
  ledger_wf (card_requests s) → cardID ≠ "" → job ≠ "" →
  match ClaimQueuedCardRequests cardID job def s with
  | (s', inl ErrNoQueuedCardRequests) => s' = s ∧ ∀ r, ¬ waiting cardID (card_requests s) r
  | (s', inl ErrCardRequestSlotOccupied) => s' = s ∧ slot_taken cardID (card_requests s)
  | (_, inl _) => False
  | (s', inr (primary, folded)) =>
      ¬ slot_taken cardID (card_requests s) ∧
      ∃ head rest, primary = promote def job (clock s) head ∧ waiting cardID (card_requests s) head ∧
        (∀ r, waiting cardID (card_requests s) r ↔ r = head ∨ r ∈ rest) ∧
        (∀ r, r ∈ rest → request_le head r) ∧ folded = fold_into (RID head) (clock s) <$> rest ∧
        s' = set_requests s (claim_row cardID (RID head) job def (clock s) <$> card_requests s) ∧
        ledger_wf (card_requests s')
  end.
Proof.
  intros Hwf Hc Hj. pose proof (Claim_run cardID job def s Hwf Hc Hj) as Hrun.
  destruct (select_where (queued_of cardID) (card_requests s)) as [|head rest] eqn:Hsel.
  - rewrite Hrun. split; [done|]. intros r Hr%waiting_select. rewrite Hsel in Hr. by apply elem_of_nil in Hr.
  - destruct Hrun as [Hocc Hfree].
    destruct (decide (cardID ∈ indexed slot_key (card_requests s))) as [Hin|Hnin].
    + assert (slot_taken cardID (card_requests s)) as Hs.
      { apply list_elem_of_omap in Hin as ([k r] & Hk%elem_of_map_to_list & Hr). by exists k, r. }
      by rewrite (Hocc Hs).
    + assert (¬ slot_taken cardID (card_requests s)) as Hs.
      { intros (k & r & Hk & Hr). apply Hnin, list_elem_of_omap. exists (k, r). by rewrite elem_of_map_to_list. }
      destruct (Hfree Hs) as [-> Hv]. split; [done|].
      assert (waiting cardID (card_requests s) head) as Hw by (apply waiting_select; rewrite Hsel; by left).
      exists head, rest. split_and!; [done|done| |by eapply select_where_head|done|done|].
      { intros r. by rewrite <- waiting_select, Hsel, elem_of_cons. }
      destruct Hw as ([k Hk] & Hcard & Hq). cbn [card_requests set_requests].
      eapply claim_row_wf; try done. by rewrite (wf_id _ Hwf k head Hk).
Qed.

Section properties.
Context (uuid : nat → string).

Lemma FailCardRequest_run id err s r :
  db_wf s → id ≠ "" → card_requests s !! id = Some r → RStatus r ∈ live_statuses →
  let s1 := set_requests s (fail_row foldedSiblingsRequeue id err (clock s) <$> card_requests s) in
  let r1 := fail_with err (clock s) r in
  FailCardRequest uuid id err s =
    (log_outcome uuid s1 r1 ActionTypeCommandFailed (outcome_payload r1 "" err "" []), inr ()) ∧
  ledger_wf (card_requests s1).
Proof.
  intros [Hwf Hfk] Hid Hr Hl. cbv zeta.
  pose proof (fail_run id err foldedSiblingsRequeue s Hwf Hid) as Hrun. rewrite Hr in Hrun.
  destruct Hrun as [_ Hrun]. destruct (Hrun Hl) as (sibs & Hf & Hv). split.
  - unfold FailCardRequest. erewrite bind_run by exact Hf.
    assert (fail_row foldedSiblingsRequeue id err (clock s) r = fail_with err (clock s) r) as Hrow.
    { unfold fail_row. by rewrite bool_decide_eq_true_2 by by eapply wf_id. }
    rewrite <- Hrow. apply record_run; [cbn [card_requests set_requests]; by rewrite lookup_fmap, Hr|].
    rewrite Hrow. exact (Hfk id r Hr).
  - apply fail_row_wf; [done..|]. intros x. rewrite Hr. by intros [= <-].
Qed.

(** Folding a row and taking it out again. *)
Lemma claim_fail_row t cardID head job def err now now' j r :
  ledger_wf t → t !! RID head = Some head → RStatus head = CardRequestStatusQueued → t !! j = Some r → j ≠ RID head →
  set_updated (fail_row foldedSiblingsRequeue (RID head) err now' (claim_row cardID (RID head) job def now r)) (RUpdatedAt r) = r.
Proof.
  intros Hwf Hk Hq Hr Hne. rewrite <- (wf_id _ Hwf j r Hr) in Hne.
  unfold claim_row, fail_row. rewrite (bool_decide_eq_false_2 (RID r = RID head)) by done.
  destruct (queued_of cardID r) eqn:Hqr.
  - apply queued_of_spec in Hqr as [_ Hqr]. simpl. rewrite bool_decide_eq_false_2 by done.
    rewrite (proj2 (folded_under_spec _ _)) by done.
    destruct (wf_row _ Hwf j r Hr) as (_ & _ & _ & _ & Hf). rewrite Hqr in Hf.
    assert (FoldedInto r = "") as Hf0 by (apply Hf; set_solver). destruct r. simpl in *. by subst.
  - rewrite bool_decide_eq_false_2 by done. destruct (folded_under (RID head) r) eqn:Hu; [|by destruct r].
    apply folded_under_spec in Hu as [Hf Hst].
    destruct (wf_folded _ Hwf j r Hr Hst) as (h & Hh & Hact & _). rewrite Hf, Hk in Hh. injection Hh as <-.
    unfold is_active, status_in in Hact. by rewrite Hq in Hact.
Qed.

(** A failed launch loses no request: claiming a card's queue and then
    failing the promoted request marks that one failed and puts every other
    row of the ledger, the folded ones included, back exactly as it was before
    the claim except for its update time. *)
Theorem claim_then_fail_requeues cardID job def err s s1 primary folded :
  db_wf s → cardID ≠ "" → job ≠ "" →
  ClaimQueuedCardRequests cardID job def s = (s1, inr (primary, folded)) →
  ∃ s2, FailCardRequest uuid (RID primary) err s1 = (s2, inr ()) ∧
    (∃ r, card_requests s2 !! RID primary = Some r ∧ RStatus r = CardRequestStatusFailed) ∧
    (∀ k r, card_requests s !! k = Some r → k ≠ RID primary →
       ∃ r', card_requests s2 !! k = Some r' ∧ set_updated r' (RUpdatedAt r) = r) ∧
    ledger_wf (card_requests s2).
Proof.
  intros [Hwf Hfk] Hc Hj Hclaim. pose proof (Claim_run cardID job def s Hwf Hc Hj) as Hrun.
  destruct (select_where _ _) as [|head rest] eqn:Hsel; [by rewrite Hrun in Hclaim|].
  destruct Hrun as [Hocc Hfree]. destruct (decide (cardID ∈ indexed slot_key (card_requests s))) as [Hin|Hnin].
  { rewrite Hocc in Hclaim; [done|].
    apply list_elem_of_omap in Hin as ([k r] & Hk%elem_of_map_to_list & Hr). by exists k, r. }
  destruct Hfree as [Hrun Hv].
  { intros (k & r & Hk & Hr). apply Hnin, list_elem_of_omap. exists (k, r). by rewrite elem_of_map_to_list. }
  rewrite Hrun in Hclaim. injection Hclaim as <- <- _. cbn [RID promote set_updated set_launch set_status].
  assert (waiting cardID (card_requests s) head) as ([k Hk] & Hcard & Hq)
    by (apply waiting_select; rewrite Hsel; by left).
  rewrite <- (wf_id _ Hwf k head Hk) in Hk. set (s1 := set_requests s _).
  assert (ledger_wf (card_requests s1)) as Hwf1 by (by eapply claim_row_wf).
  assert (card_requests s1 !! RID head = Some (promote def job (clock s) head)) as Hhead.
  { cbn [s1 card_requests set_requests]. rewrite lookup_fmap, Hk. simpl. unfold claim_row.
    by rewrite bool_decide_eq_true_2. }
  assert (db_wf s1) as Hwfs1.
  { split; [done|]. intros j x. cbn [s1 card_requests set_requests tasks]. rewrite lookup_fmap.
    intros (y & Hy & ->)%fmap_Some. specialize (Hfk j y Hy). unfold claim_row. by repeat case_match. }
  destruct (wf_row _ Hwf _ _ Hk) as (Hid & _).
  destruct (FailCardRequest_run (RID head) err s1 _ Hwfs1 Hid Hhead) as [Hfail Hwf2].
  { simpl. unfold live_statuses. set_solver. }
  rewrite Hfail. eexists. split; [done|]. rewrite (proj1 (log_outcome_tables _ _ _ _ _)). split_and!; [| |done].
  - cbn [card_requests set_requests]. rewrite lookup_fmap, Hhead. simpl. eexists. split; [done|].
    unfold fail_row. simpl. by rewrite bool_decide_eq_true_2.
  - intros j r Hr Hne. cbn [card_requests set_requests s1 clock]. rewrite !lookup_fmap, Hr. simpl.
    eexists. split; [done|]. by apply (claim_fail_row (card_requests s) cardID head job def err _ _ j).
Qed.

(** A successful outcome closes everything it answers and nothing else:
    finishing an attached request succeeds, frees its card's slot, finishes
    every request folded into it and every older failed request of the card
    that carries no cause, leaves all other rows as they were, and records
    exactly one command_finished action on the card, none for the shared work
    slot. *)
Theorem FinishCardRequest_spec id result s r :
  db_wf s → id ≠ "" → card_requests s !! id = Some r → RStatus r = CardRequestStatusAttached →
  ∃ s', FinishCardRequest uuid id result s = (s', inr ()) ∧ db_wf s' ∧
    ¬ slot_taken (CardID r) (card_requests s') ∧
    (∀ k x, card_requests s !! k = Some x →
       ∃ y, card_requests s' !! k = Some y ∧
         if bool_decide (k = id) || folded_under id x || absorbable (CardID r) (RCreatedAt r) x
         then RStatus y = CardRequestStatusFinished else y = x) ∧
    actions s' = actions s ++
      (if bool_decide (CommandKey r = CardRequestCommandKeyGo) then []
       else [outcome_action uuid s r ActionTypeCommandFinished
               (outcome_payload r result "" "" [])]).
Proof.
  intros Hdb Hid Hr Hst. destruct (finish_run uuid id result s r Hdb Hid Hr Hst) as [Hrun Hv].
  destruct Hdb as [Hwf Hfk]. rewrite Hrun. eexists. split; [done|].
  set (s1 := set_requests s _) in *. set (r1 := finish_with result (RError r) (clock s) r).
  assert (ledger_wf (card_requests s1)) as Hwf1 by (by apply finish_row_wf).
  split_and!.
  - split; rewrite (proj1 (log_outcome_tables _ _ _ _ _)); [done|].
    rewrite (proj1 (proj2 (log_outcome_tables _ _ _ _ _))). intros k x.
    cbn [s1 card_requests set_requests tasks]. rewrite lookup_fmap. intros (y & Hy & ->)%fmap_Some.
    specialize (Hfk k y Hy). unfold finish_row. by repeat case_match.
  - rewrite (proj1 (log_outcome_tables _ _ _ _ _)). intros (k & x & Hx & Hs).
    cbn [s1 card_requests set_requests] in Hx. rewrite lookup_fmap in Hx.
    apply fmap_Some in Hx as (y & Hy & ->).
    unfold finish_row in Hs. case_bool_decide as E; [done|].
    destruct (folded_under id y || absorbable (CardID r) (RCreatedAt r) y); [done|].
    pose proof (wf_unique _ Hwf) as [Hu _]%violation_None.
    apply E. rewrite (wf_id _ Hwf k y Hy). eapply (Hu k id y r); [done..|].
    unfold slot_key, is_active, status_in. by rewrite Hst.
  - rewrite (proj1 (log_outcome_tables _ _ _ _ _)). intros k x Hx.
    cbn [s1 card_requests set_requests]. rewrite lookup_fmap, Hx. simpl. eexists. split; [done|].
    unfold finish_row. rewrite (wf_id _ Hwf k x Hx). case_bool_decide; simpl; [done|].
    by destruct (folded_under id x || absorbable (CardID r) (RCreatedAt r) x).
  - unfold log_outcome. change (CommandKey r1) with (CommandKey r). case_bool_decide; [by rewrite app_nil_r|]. done.
Qed.

Lemma attach_owned_eq id job kind target s r :
  ledger_wf (card_requests s) → id ≠ "" → job ≠ "" →
  kind ∈ [CardRequestTargetKindTask; CardRequestTargetKindSession] → target ≠ "" →
  card_requests s !! id = Some r →
  AttachCardRequestOwned id job kind target s =
    if bool_decide (LauncherJobID r ≠ job) then (s, inl ErrCardRequestOwnerMismatch)
    else if bool_decide (RStatus r ≠ CardRequestStatusLaunching)
    then (s, inl ErrCardRequestInvalidTransition)
    else (set_requests s (<[id := attach_to kind target (clock s) r]> (card_requests s)), inr ()).
Proof.
  intros Hwf Hid Hj Hk Ht Hr.
  pose proof (attach_owned_run id job kind target s Hwf (conj Hid (conj Hk Ht)) Hj) as Hown.
  pose proof (attach_run id kind target s Hwf (conj Hid (conj Hk Ht))) as Hatt.
  rewrite Hr in Hown, Hatt. destruct (decide (LauncherJobID r = job)) as [E|E].
  - rewrite (bool_decide_eq_true_2 (_ = job)) in Hown by done. rewrite (bool_decide_eq_false_2 (_ ≠ job)) by auto.
    rewrite Hown. destruct (decide (RStatus r = CardRequestStatusLaunching)) as [Hs|Hs].
    + rewrite (bool_decide_eq_true_2 (_ = _)) in Hatt by done. destruct Hatt as [-> _].
      rewrite (bool_decide_eq_false_2 (_ ≠ _)) by auto. do 2 f_equal. apply map_eq. intros k.
      rewrite lookup_fmap. destruct (decide (k = id)) as [->|Hne].
      * rewrite lookup_insert_eq, Hr. simpl. unfold attach_row, upd. f_equal.
        rewrite (proj2 (with_id_spec _ _ _)); [done|]. split; [by eapply wf_id|]. rewrite Hs. set_solver.
      * rewrite lookup_insert_ne by done. destruct (card_requests s !! k) as [x|] eqn:Hx; [|done]. simpl.
        f_equal. unfold attach_row, upd. destruct (with_id id _ x) eqn:Hw; [|done].
        apply with_id_spec in Hw as [<- _]. by rewrite (wf_id _ Hwf k x Hx) in Hne.
    + rewrite (bool_decide_eq_false_2 (_ = _)) in Hatt by done. by rewrite (bool_decide_eq_true_2 (_ ≠ _)) by done.
  - rewrite (bool_decide_eq_false_2 (_ = job)) in Hown by done. by rewrite (bool_decide_eq_true_2 (_ ≠ job)) by done.
Qed.

(** Only the launcher that owns a launching request can attach a
    continuation to it: the owner-checked attach succeeds exactly when the row
    is launching under the caller's job; a caller whose request has since been
    reclaimed by another launcher gets an owner mismatch and changes nothing,
    and a repeated attach by the owner is an invalid transition that changes
    nothing. *)
Theorem AttachCardRequestOwned_spec id job kind target s r :
  ledger_wf (card_requests s) → id ≠ "" → job ≠ "" →
  kind ∈ [CardRequestTargetKindTask; CardRequestTargetKindSession] → target ≠ "" →
  card_requests s !! id = Some r →
  AttachCardRequestOwned id job kind target s =
    if bool_decide (LauncherJobID r ≠ job) then (s, inl ErrCardRequestOwnerMismatch)
    else if bool_decide (RStatus r ≠ CardRequestStatusLaunching)
    then (s, inl ErrCardRequestInvalidTransition)
    else (set_requests s (<[id := attach_to kind target (clock s) r]> (card_requests s)), inr ()).
Proof. apply attach_owned_eq. Qed.
End properties.

(** ** What a card list shows *)
Definition showable (r : CardRequest) : Prop :=
  CommandKey r ≠ CardRequestCommandKeyGo ∧ (0 < pick_rank (RStatus r))%nat.

Lemma pick_step_cases chosen r :
  (¬ showable r ∧ pick_step chosen r = chosen) ∨
  (showable r ∧ pick_step chosen r =
     match chosen with
     | Some c => if (pick_rank (RStatus c) <? pick_rank (RStatus r))%nat then Some r else Some c
     | None => Some r
     end).
Proof.
  unfold pick_step, showable. case_bool_decide as E; [left; naive_solver|].
  destruct (Nat.eqb_spec (pick_rank (RStatus r)) 0); [left; split; [intros [? ?]; lia|done]|].
  right. split; [split; [done|lia]|]. destruct chosen; [|done]. by case_match.
Qed.

(** The request shown for a card is the first of highest rank (attached,
    then launching, then queued) among its commands: an older queued request
    never hides a running one, the shared work slot's own row is never shown,
    and nothing is shown only when there is nothing to show. *)
Theorem PickActiveCardRequest_spec requests :
  match PickActiveCardRequest requests with
  | None => ∀ r, r ∈ requests → ¬ showable r
  | Some c => ∃ before after, requests = before ++ c :: after ∧ showable c ∧
      (∀ r, r ∈ before → showable r → (pick_rank (RStatus r) < pick_rank (RStatus c))%nat) ∧
      (∀ r, r ∈ after → showable r → (pick_rank (RStatus r) ≤ pick_rank (RStatus c))%nat)
  end.
Proof.
  unfold PickActiveCardRequest. induction requests as [|r requests IH] using rev_ind.
  { by intros r ?%elem_of_nil. }
  rewrite foldl_app. simpl. set (chosen := foldl pick_step None requests) in *.
  destruct (pick_step_cases chosen r) as [[Hno ->]|[Hyes ->]]; destruct chosen as [c|].
  - destruct IH as (before & after & -> & Hc & Hb & Ha). exists before, (after ++ [r]).
    split_and!; [by rewrite <- app_assoc|done|done|].
    intros x [Hx|Hx%list_elem_of_singleton]%elem_of_app Hs; [by apply Ha|by subst].
  - intros x [Hx|Hx%list_elem_of_singleton]%elem_of_app; [by apply IH|by subst].
  - destruct IH as (before & after & -> & Hc & Hb & Ha).
    destruct (Nat.ltb_spec (pick_rank (RStatus c)) (pick_rank (RStatus r))) as [Hlt|Hge].
    + exists (before ++ c :: after), []. split_and!; [done|done| |by intros x ?%elem_of_nil].
      intros x [Hx|[->|Hx]%elem_of_cons]%elem_of_app Hs; [specialize (Hb x Hx Hs); lia|lia|specialize (Ha x Hx Hs); lia].
    + exists before, (after ++ [r]). split_and!; [by rewrite <- app_assoc|done|done|].
      intros x [Hx|Hx%list_elem_of_singleton]%elem_of_app Hs; [by apply Ha|by subst].
  - exists requests, []. split_and!; [done|done| |by intros x ?%elem_of_nil].
    intros x Hx Hs. by destruct (IH x Hx).
Qed.

(** ** The theorems at concrete ledgers *)
Definition sample_row (id : string) (st : CardRequestStatus) (job kind target folded : string) (created : Z) : CardRequest :=
  {| RID := id; CardID := "card"; CommandKey := "triage"; CauseID := ""; RStatus := st; RInstruction := "";
     Launched := no_definition; LauncherJobID := job; TargetKind := kind; TargetID := target; FoldedInto := folded;
     Result := ""; RError := ""; RCreatedAt := created; RUpdatedAt := created |}.
Definition sample_db (t : gmap string CardRequest) : DB :=
  {| card_requests := t;
     tasks := {["card" := {| TRType := TaskTypeCard; TRProject := "p"; TRWorkspace := "w"; TRStatus := TaskStatusParked |}]};
     jobs := ∅; barriers := ∅; actions := []; clock := 100%Z; uuids := 0%nat |}.

Definition queued_rows : gmap string CardRequest :=
  <["q1" := sample_row "q1" CardRequestStatusQueued "" "" "" "" 1]>
  (<["q2" := sample_row "q2" CardRequestStatusQueued "" "" "" "" 2]> ∅).
Definition attached_rows : gmap string CardRequest :=
  <["a1" := sample_row "a1" CardRequestStatusAttached "job1" "task" "t1" "" 1]>
  (<["f1" := sample_row "f1" CardRequestStatusFolded "" "" "" "a1" 2]> ∅).
Definition launching_rows : gmap string CardRequest :=
  <["l1" := sample_row "l1" CardRequestStatusLaunching "job1" "" "" "" 1]> ∅.

(** Case analysis on the row found in a table given row by row. *)
Ltac each_sample_row H :=
  repeat (apply lookup_insert_Some in H as [[<- <-]|[_ H]]); [..|rewrite lookup_empty in H; discriminate H].
Ltac sample_wf :=
  split; [..|vm_compute; reflexivity|];
  intros ? ? Hrow; unfold queued_rows, attached_rows, launching_rows in Hrow; each_sample_row Hrow;
  first [reflexivity
        |unfold row_wf; split_and!; (discriminate || (intros; first [discriminate|reflexivity
            |split; [apply (bool_decide_unpack _); vm_compute; exact I|discriminate]
            |exfalso; set_solver]))
        |intros Hfolded; first [discriminate Hfolded|eexists; split_and!; vm_compute; reflexivity]].

Lemma queued_rows_wf : ledger_wf queued_rows.
Proof. sample_wf. Qed.
Lemma attached_rows_wf : ledger_wf attached_rows.
Proof. sample_wf. Qed.
Lemma launching_rows_wf : ledger_wf launching_rows.
Proof. sample_wf. Qed.

Lemma sample_db_wf t : ledger_wf t → (∀ k r, t !! k = Some r → CardID r = "card") → db_wf (sample_db t).
Proof. intros Hwf Hc. split; [done|]. intros k r Hr. rewrite (Hc k r Hr). vm_compute. eauto. Qed.
Lemma queued_db_wf : db_wf (sample_db queued_rows).
Proof. apply sample_db_wf; [apply queued_rows_wf|]. intros k r H. unfold queued_rows, attached_rows, launching_rows in H. each_sample_row H; done. Qed.
Lemma attached_db_wf : db_wf (sample_db attached_rows).
Proof. apply sample_db_wf; [apply attached_rows_wf|]. intros k r H. unfold queued_rows, attached_rows, launching_rows in H. each_sample_row H; done. Qed.
Lemma launching_db_wf : db_wf (sample_db launching_rows).
Proof. apply sample_db_wf; [apply launching_rows_wf|]. intros k r H. unfold queued_rows, attached_rows, launching_rows in H. each_sample_row H; done. Qed.

Definition sample_uuid (n : nat) : string := String.string_of_list_ascii (ascii_of_nat (48 + n) :: []).

Lemma ClaimQueuedCardRequests_spec_witness :
  ∃ s' primary folded, ClaimQueuedCardRequests "card" "job9" no_definition (sample_db queued_rows) = (s', inr (primary, folded)) ∧
    RID primary = "q1" ∧ ledger_wf (card_requests s').
Proof.
  pose proof (ClaimQueuedCardRequests_spec "card" "job9" no_definition (sample_db queued_rows) queued_rows_wf) as H.
  specialize (H ltac:(discriminate) ltac:(discriminate)).
  destruct (ClaimQueuedCardRequests "card" "job9" no_definition (sample_db queued_rows)) as [s' [e|[primary folded]]] eqn:E.
  - exfalso. vm_compute in E. discriminate E.
  - destruct H as (_ & head & rest & Hp & _ & _ & _ & _ & _ & Hwf). exists s', primary, folded.
    split; [reflexivity|]. split; [|exact Hwf].
    apply (f_equal (λ x, match snd x with inr (p, _) => RID p | inl _ => "" end)) in E. vm_compute in E.
    symmetry. exact E.
Defined.

Lemma claim_then_fail_requeues_witness :
  ∃ s1 primary folded s2,
    ClaimQueuedCardRequests "card" "job9" no_definition (sample_db queued_rows) = (s1, inr (primary, folded)) ∧
    FailCardRequest sample_uuid (RID primary) "boom" s1 = (s2, inr ()) ∧ ledger_wf (card_requests s2).
Proof.
  destruct (ClaimQueuedCardRequests "card" "job9" no_definition (sample_db queued_rows)) as [s1 [e|[primary folded]]] eqn:E.
  { exfalso. vm_compute in E. discriminate E. }
  destruct (claim_then_fail_requeues sample_uuid "card" "job9" no_definition "boom" (sample_db queued_rows) s1 primary folded)
    as (s2 & Hf & _ & _ & Hwf); [exact queued_db_wf|discriminate|discriminate|exact E|].
  exists s1, primary, folded, s2. split; [reflexivity|]. split; [exact Hf|exact Hwf].
Defined.

Lemma FinishCardRequest_spec_witness :
  ∃ s', FinishCardRequest sample_uuid "a1" "ok" (sample_db attached_rows) = (s', inr ()) ∧
    ¬ slot_taken "card" (card_requests s').
Proof.
  destruct (FinishCardRequest_spec sample_uuid "a1" "ok" (sample_db attached_rows)
    (sample_row "a1" CardRequestStatusAttached "job1" "task" "t1" "" 1)) as (s' & Hf & _ & Hfree & _);
    [exact attached_db_wf|discriminate|reflexivity|reflexivity|].
  exists s'. split; [exact Hf|exact Hfree].
Defined.

Lemma AttachCardRequestOwned_spec_witness :
  AttachCardRequestOwned "l1" "other" "task" "t1" (sample_db launching_rows) =
    (sample_db launching_rows, inl ErrCardRequestOwnerMismatch).
Proof.
  refine (eq_trans (AttachCardRequestOwned_spec "l1" "other" "task" "t1" (sample_db launching_rows)
    (sample_row "l1" CardRequestStatusLaunching "job1" "" "" "" 1) launching_rows_wf _ _ _ _ eq_refl) _);
    [discriminate|discriminate|left|discriminate|reflexivity].
Defined.
