(* ===== verification/CardDispatch.v ===== *)
(** * Dispatching and releasing a card's execution slot

    Models internal/orchestrator/card_request_dispatch.go (automatic claims),
    card_request_release.go (releasing the slot when the continuation ends,
    startup recovery, the operator's force release), card_event_ingest.go
    (queueing a request for an eligible action) and the transactional wrappers
    of repository.go.

    [ledger_step] is what can happen to the ledger: the operations below as
    their callers run them, and changes of the rest of the database.  The
    invariant and the force-release guarantee are proved for its runs. *)
From S2P Require Import Prelude Json Task Store CardRequests.

(** ** Automatic dispatch (card_request_dispatch.go) *)
Definition GetTaskStatus (id : string) : cardm TaskStatus :=
  r ← gets (λ s, tasks s !! id);
  match r with Some r => mret (TRStatus r) | None => throw ErrTaskNotFound end.

Definition IsCardRequestDispatchSkip (e : card_err) : bool :=
  match e with
  | ErrNoQueuedCardRequests | ErrCardRequestSlotOccupied | ErrCardNotEligibleForDispatch
  | ErrCardForceReleaseBarrierActive | ErrCardRequestCommandKeyChanged => true
  | _ => false
  end.

Definition PeekOldestQueuedCardRequest (cardID : string) : cardm (string * string) :=
  pending ← gets (λ s, select_where (queued_of cardID) (card_requests s));
  match pending with
  | [] => throw ErrNoQueuedCardRequests
  | r :: _ => mret (RID r, CommandKey r)
  end.

Definition failAllQueuedCardRequests (cardID reason : string) : cardm nat :=
  now ← time_Now;
  update_where (queued_of cardID) (fail_with reason now).

(** [%q] of a status, which holds no character that needs escaping. *)
Definition quoted (s : string) : string :=
  let dq := String (ascii_of_nat 34) EmptyString in dq +:+ s +:+ dq.

Definition ClaimQueuedCardRequestsForDispatch (cardID launcherJobID expectedCommandKey : string)
    (def : CardRequestDefinition) : cardm (CardRequest * list CardRequest) :=
  st ← try_ (GetTaskStatus cardID);
  match st with
  | inl ErrTaskNotFound =>
      _ ← failAllQueuedCardRequests cardID "card no longer exists";
      throw ErrCardNotEligibleForDispatch
  | inl e => throw e
  | inr status =>
      if negb (bool_decide (status ∈ [TaskStatusParked; TaskStatusWorking])) then
        _ ← failAllQueuedCardRequests cardID ("card is " +:+ quoted status +:+ ", not parked or working");
        throw ErrCardNotEligibleForDispatch
      else
        blocked ← gets (HasCardForceReleaseBarrier cardID);
        if (blocked : bool) then throw ErrCardForceReleaseBarrierActive
        else
          head ← PeekOldestQueuedCardRequest cardID;
          if negb (bool_decide (head.2 = expectedCommandKey)) then throw ErrCardRequestCommandKeyChanged
          else ClaimQueuedCardRequests cardID launcherJobID def
  end.

(** [TaskRepository.ClaimQueuedCardRequestsForDispatch]: a skip is taken out of
    the transaction's error, so a drain it carries commits. *)
Definition repo_ClaimQueuedCardRequestsForDispatch (cardID launcherJobID expectedCommandKey : string)
    (def : CardRequestDefinition) : cardm (CardRequest * list CardRequest) :=
  r ← InTxDB (x ← try_ (ClaimQueuedCardRequestsForDispatch cardID launcherJobID expectedCommandKey def);
              match x with
              | inl e => if IsCardRequestDispatchSkip e then mret (inl e) else throw e
              | inr v => mret (inr v)
              end);
  match r with
  | inl skip => throw skip
  | inr v => mret v
  end.

Definition ListCardIDsWithQueuedCardRequests (s : DB) : list string :=
  merge_sort String.le (remove_dups
    (CardID <$> select_where (status_in [CardRequestStatusQueued]) (card_requests s))).

(** ** Releasing slots (card_request_release.go) *)
Definition jobStatusCompletedLiteral : string := "completed".
Definition jobStatusFailedLiteral : string := "failed".
Definition jobRoleSessionLiteral : string := "session".

Record CardRequestSlotOutcome : Type := {
  SoRequestID : string;
  SoStatus : CardRequestStatus;
}.

(** (finished, ok): whether the continuation counts as a success, and whether
    it is over at all. *)
Definition continuationTerminalOutcome (s : DB) (req : CardRequest) : bool * bool :=
  if bool_decide (TargetKind req = CardRequestTargetKindTask) then
    match tasks s !! TargetID req with
    | None => (false, true)
    | Some t => if IsTerminalStatus (TRStatus t) then (bool_decide (TRStatus t = TaskStatusDone), true)
                else (false, false)
    end
  else if bool_decide (TargetKind req = CardRequestTargetKindSession) then
    match jobs s !! TargetID req with
    | None => (false, true)
    | Some j => if bool_decide (JStatus j = jobStatusCompletedLiteral) then (true, true)
                else if bool_decide (JStatus j = jobStatusFailedLiteral) then (false, true)
                else (false, false)
    end
  else (false, false).

(** One transaction per row; a row whose transaction fails is skipped. *)
Fixpoint each_row (body : CardRequest → cardm (option CardRequestSlotOutcome)) (rows : list CardRequest)
    : cardm (list CardRequestSlotOutcome) :=
  match rows with
  | [] => mret []
  | req :: rows =>
      r ← try_ (InTxDB (body req));
      rest ← each_row body rows;
      mret (match r with inr (Some o) => o :: rest | _ => rest end)
  end.

Section dispatch.
Context (uuid : nat → string).

Definition reconcile_row (req : CardRequest) : cardm (option CardRequestSlotOutcome) :=
  o ← gets (λ s, continuationTerminalOutcome s req);
  if negb o.2 then mret None
  else if (o.1 : bool) then
    _ ← FinishCardRequest uuid (RID req) "continuation reached a terminal successful state";
    mret (Some {| SoRequestID := RID req; SoStatus := CardRequestStatusFinished |})
  else
    _ ← FailCardRequest uuid (RID req) "continuation ended without success";
    mret (Some {| SoRequestID := RID req; SoStatus := CardRequestStatusFailed |}).

(** Rows created at the same instant in no particular order, here by id. *)
Definition ReconcileCardRequestSlots : cardm (list CardRequestSlotOutcome) :=
  attached ← gets (λ s, select_where (status_in [CardRequestStatusAttached]) (card_requests s));
  each_row reconcile_row attached.

(** 60 seconds, in nanoseconds. *)
Definition launcherJobRowCreationGrace : Z := 60000000000.

Definition launcherJobTerminalOrGone (s : DB) (launcherJobID : string) (updatedAt : Z) : bool :=
  match jobs s !! launcherJobID with
  | None => bool_decide (launcherJobRowCreationGrace ≤ clock s - updatedAt)%Z
  | Some j => bool_decide (JStatus j ∈ [jobStatusCompletedLiteral; jobStatusFailedLiteral])
  end.

(** The session jobs created for a request since it was promoted, oldest
    first (jobs created at the same instant in no particular order). *)
Definition job_le (a b : string * JobRow) : Prop := (JCreatedAt a.2 ≤ JCreatedAt b.2)%Z.
#[export] Instance job_le_dec : RelDecision job_le.
Proof. intros a b. unfold job_le. apply _. Defined.
Definition session_job_of (req : CardRequest) (kv : string * JobRow) : bool :=
  bool_decide (JCardRequestID kv.2 = RID req) && negb (str_empty (JCardRequestID kv.2))
  && negb (bool_decide (kv.1 = LauncherJobID req)) && bool_decide (JRole kv.2 = jobRoleSessionLiteral)
  && bool_decide (RUpdatedAt req ≤ JCreatedAt kv.2)%Z.
Definition find_continuation (s : DB) (req : CardRequest) : option string :=
  fst <$> head (merge_sort job_le (filter (λ kv, session_job_of req kv = true) (map_to_list (jobs s)))).

Definition attachFoundContinuationOrFail (req : CardRequest) (failReason : string)
    : cardm (option CardRequestSlotOutcome) :=
  job ← gets (λ s, find_continuation s req);
  match job with
  | None =>
      _ ← FailCardRequest uuid (RID req) failReason;
      mret (Some {| SoRequestID := RID req; SoStatus := CardRequestStatusFailed |})
  | Some jobID =>
      _ ← AttachCardRequest (RID req) CardRequestTargetKindSession jobID;
      mret (Some {| SoRequestID := RID req; SoStatus := CardRequestStatusAttached |})
  end.

Definition reconcile_launching_row (req : CardRequest) : cardm (option CardRequestSlotOutcome) :=
  terminal ← gets (λ s, launcherJobTerminalOrGone s (LauncherJobID req) (RUpdatedAt req));
  if negb terminal then mret None
  else attachFoundContinuationOrFail req "launcher exited without creating a continuation".

Definition ReconcileLaunchingCardRequests : cardm (list CardRequestSlotOutcome) :=
  launching ← gets (λ s, select_where (status_in [CardRequestStatusLaunching]) (card_requests s));
  each_row reconcile_launching_row
    (filter (λ req, CommandKey req ≠ CardRequestCommandKeyGo) launching).

Definition RecoverLaunchingCardRequests : cardm (list CardRequestSlotOutcome) :=
  launching ← gets (λ s, select_where (status_in [CardRequestStatusLaunching]) (card_requests s));
  each_row (λ req, attachFoundContinuationOrFail req
    "launcher exited before creating a continuation (daemon restart recovery)") launching.

Definition ForceReleaseCardRequest (id reason : string) : cardm (list ForceReleasedSibling) :=
  let reason := if str_empty reason then "force-released by operator" else reason in
  siblings ← failCardRequest id reason foldedSiblingsFail;
  row ← GetCardRequest id;
  _ ← SetCardForceReleaseBarrier (CardID row);
  _ ← recordCardRequestOutcome uuid id ActionTypeCommandForceReleased "" "" reason siblings;
  mret siblings.

(** The row the query returns when several match is unspecified; here the
    oldest. *)
Definition ReleaseCardRequestForTerminalTargetWithCard (targetKind targetID : string) (success : bool)
    : cardm (bool * string) :=
  rows ← gets (λ s, select_where (λ r, bool_decide (TargetKind r = targetKind)
                 && bool_decide (TargetID r = targetID) && status_in [CardRequestStatusAttached] r)
               (card_requests s));
  match rows with
  | [] => mret (false, "")
  | r :: _ =>
      _ ← (if (success : bool)
           then FinishCardRequest uuid (RID r) "continuation reached a terminal successful state"
           else FailCardRequest uuid (RID r) "continuation ended without success");
      mret (true, CardID r)
  end.

(** Transactional wrappers (repository.go). *)
Definition repo_ForceReleaseCardRequest (id reason : string) : cardm (list ForceReleasedSibling) :=
  InTxDB (ForceReleaseCardRequest id reason).
Definition repo_FailCardRequest (id errText : string) : cardm unit := InTxDB (FailCardRequest uuid id errText).
Definition repo_ReleaseCardRequestForTerminalTargetWithCard (targetKind targetID : string) (success : bool)
    : cardm (bool * string) := InTxDB (ReleaseCardRequestForTerminalTargetWithCard targetKind targetID success).

(** ** Card events (card_event_ingest.go)

    The resolver is an interface value: the two transactional look-ups are
    optional methods its dynamic type may or may not have. *)
Record CardEventResolver : Type := {
  CardEventCommand : string → option string;
  CardEventCommandInTx : option (DB → string → card_err + option string);
  WorkspaceCardEventCommandInTx : option (DB → string → card_err + option string);
}.

Definition cardEventIngestActionTypes : list string :=
  ["child_closed"; "wake_due"; "noted"; "attrs_set"; ActionTypeCardCreated; ActionTypeCardEdited;
   ActionTypeIdentityLinked; ActionTypeIdentityUnlinked].

(** [None]: the context carries no writer request id. *)
Definition writerHoldsCardsLiveRequest (writer : option string) (cardID : string) (s : DB) : bool :=
  match writer with
  | None => false
  | Some w =>
      if str_empty w then false
      else match card_requests s !! w with
           | None => false
           | Some row => bool_decide (CardID row = cardID) && is_active row
           end
  end.

Definition resolve_command (resolver : CardEventResolver) (t : TaskRow) : cardm (option string) :=
  if str_empty (TRProject t) then
    match WorkspaceCardEventCommandInTx resolver with
    | None => mret None
    | Some f => r ← gets (λ s, f s (TRWorkspace t));
                match r with inl e => throw e | inr k => mret k end
    end
  else
    match CardEventCommandInTx resolver with
    | Some f => r ← gets (λ s, f s (TRProject t));
                match r with inl e => throw e | inr k => mret k end
    | None => mret (CardEventCommand resolver (TRProject t))
    end.

Definition event_request (cardID commandKey causeID : string) : CardRequest :=
  {| RID := ""; CardID := cardID; CommandKey := commandKey; CauseID := causeID;
     RStatus := CardRequestStatusQueued; RInstruction := ""; Launched := no_definition;
     LauncherJobID := ""; TargetKind := ""; TargetID := ""; FoldedInto := ""; Result := "";
     RError := ""; RCreatedAt := 0%Z; RUpdatedAt := 0%Z |}.

Definition IngestCardEventRequest (writer : option string) (a : Action) (resolver : option CardEventResolver)
    : cardm unit :=
  match resolver with
  | None => mret ()
  | Some resolver =>
      if str_empty (ATaskID a) then mret ()
      else if negb (bool_decide (AType a ∈ cardEventIngestActionTypes)) then mret ()
      else
        row ← gets (λ s, tasks s !! ATaskID a);
        match row with
        | None => mret ()
        | Some t =>
            if negb (bool_decide (TRType t = TaskTypeCard)) then mret ()
            else if negb (bool_decide (TRStatus t ∈ [TaskStatusParked; TaskStatusWorking])) then mret ()
            else
              key ← resolve_command resolver t;
              match key with
              | None => mret ()
              | Some commandKey =>
                  if str_empty commandKey then mret ()
                  else
                    selfLoop ← gets (writerHoldsCardsLiveRequest writer (ATaskID a));
                    if (selfLoop : bool) then mret ()
                    else
                      r ← try_ (CreateCardRequest uuid None (event_request (ATaskID a) commandKey (AID a)));
                      match r with
                      | inl ErrCardRequestDuplicateCause => mret ()
                      | inl e => throw e
                      | inr _ => mret ()
                      end
              end
        end
  end.
End dispatch.

(** ** Operations that cannot start a card

    Everything but a claim: the ledger stays well formed, no card's slot
    becomes taken, force-release barriers stay, and the tables of the other
    components are untouched. *)
Record quiet (s s' : DB) : Prop := {
  q_wf : db_wf s → db_wf s';
  q_row : ∀ k r' c, card_requests s' !! k = Some r' → slot_key r' = Some c →
    ∃ r, card_requests s !! k = Some r ∧ slot_key r = Some c;
  q_barriers : ∀ c, is_Some (barriers s !! c) → is_Some (barriers s' !! c);
  q_tasks : tasks s' = tasks s;
  q_jobs : jobs s' = jobs s;
  q_clock : clock s' = clock s;
}.

#[export] Instance quiet_preorder : PreOrder quiet.
Proof.
  split; [intros s; split; eauto|]. intros s1 s2 s3 [] []. split; [by eauto| |by eauto|congruence..].
  intros k r c Hr Hc. edestruct q_row1 as (r1 & ? & ?); eauto.
Qed.

Lemma q_slot s s' c : quiet s s' → slot_taken c (card_requests s') → slot_taken c (card_requests s).
Proof. intros Hq (k & r & Hr & Hc). destruct (q_row _ _ Hq k r c Hr Hc) as (x & ? & ?). by exists k, x. Qed.

Lemma quiet_log uuid s r a p : quiet s (log_outcome uuid s r a p).
Proof.
  destruct (log_outcome_tables uuid s r a p) as (Hr & Ht & Hj & Hb & Hc). split; [|rewrite Hr; eauto|by rewrite Hb|done..].
  unfold db_wf. by rewrite Hr, Ht.
Qed.

(** A row rewrite that moves no row into the slot index. *)
Lemma quiet_fmap s g :
  (ledger_wf (card_requests s) → ledger_wf (g <$> card_requests s)) →
  (∀ k r, card_requests s !! k = Some r → CardID (g r) = CardID r ∧
     (slot_key (g r) = slot_key r ∨ slot_key (g r) = None)) →
  quiet s (set_requests s (g <$> card_requests s)).
Proof.
  intros Hwf Hg. split; [..|done|done|done|done].
  - intros [Hl Hfk]. split; [by apply Hwf|]. intros k x. cbn [card_requests set_requests tasks].
    rewrite lookup_fmap. intros (y & Hy & ->)%fmap_Some. destruct (Hg k y Hy) as [-> _]. by eapply Hfk.
  - intros k x c Hx Hs. cbn [card_requests set_requests] in Hx. rewrite lookup_fmap in Hx.
    apply fmap_Some in Hx as (y & Hy & ->). destruct (Hg k y Hy) as [_ [E|E]]; [|congruence].
    exists y. by rewrite <- E.
Qed.

Lemma fail_row_slot mode id err now r :
  CardID (fail_row mode id err now r) = CardID r ∧
  (slot_key (fail_row mode id err now r) = slot_key r ∨ slot_key (fail_row mode id err now r) = None).
Proof.
  unfold fail_row. repeat case_match; split; auto.
  - destruct mode; done.
  - right. destruct mode; done.
Qed.

Lemma finish_row_slot id card res cr now r :
  CardID (finish_row id card res cr now r) = CardID r ∧
  (slot_key (finish_row id card res cr now r) = slot_key r ∨ slot_key (finish_row id card res cr now r) = None).
Proof. unfold finish_row. repeat case_match; auto. Qed.

Lemma attach_row_slot id kind target now r :
  CardID (attach_row id kind target now r) = CardID r ∧
  (slot_key (attach_row id kind target now r) = slot_key r ∨ slot_key (attach_row id kind target now r) = None).
Proof.
  unfold attach_row, upd. destruct (with_id id _ r) eqn:E; [|auto].
  apply with_id_spec in E as [_ Hst%list_elem_of_singleton]. split; [done|left].
  unfold slot_key, is_active, status_in. simpl. by rewrite Hst.
Qed.

Definition quietly {A} (m : cardm A) : Prop := ∀ s s' a, db_wf s → m s = (s', inr a) → quiet s s'.

Lemma quietly_tx {A} (m : cardm A) s : quietly m → db_wf s → quiet s (InTxDB m s).1.
Proof.
  intros Hm Hs. unfold InTxDB. destruct (m s) as [s' [e|a]] eqn:E; [done|]. by eapply Hm.
Qed.

Section quietness.
Context (uuid : nat → string).

Lemma FinishCardRequest_quiet id res : quietly (FinishCardRequest uuid id res).
Proof.
  intros s s' a Hs Hrun. pose proof Hrun as Hrun'. unfold FinishCardRequest in Hrun.
  rewrite bind_fail_if in Hrun. destruct (str_empty id) eqn:Hid; [done|]. apply bool_decide_eq_false in Hid.
  apply bind_ok in Hrun as (r & s1 & Hget & Hrun). rewrite Get_run in Hget.
  destruct (card_requests s !! id) as [r0|] eqn:Hr; [|done]. injection Hget as <- <-.
  rewrite bind_fail_if in Hrun. destruct (status_in _ r0) eqn:Hst; [|done].
  apply status_in_spec, list_elem_of_singleton in Hst.
  destruct (finish_run uuid id res s r0 Hs Hid Hr Hst) as [Hrun2 Hv]. rewrite Hrun2 in Hrun'.
  injection Hrun' as <- _. etrans; [|apply quiet_log]. apply quiet_fmap; [|intros; apply finish_row_slot].
  intros Hwf. by apply finish_row_wf.
Qed.

Lemma failCardRequest_quiet id err mode : quietly (failCardRequest id err mode).
Proof.
  intros s s' a Hs Hrun. destruct (decide (id = "")) as [->|Hid]; [done|].
  pose proof (fail_run id err mode s (proj1 Hs) Hid) as Hf.
  destruct (card_requests s !! id) as [r|] eqn:Hr; [|by rewrite Hf in Hrun].
  destruct Hf as [Hbad Hok]. destruct (decide (RStatus r ∈ live_statuses)) as [Hl|Hl]; [|by rewrite Hbad in Hrun].
  destruct (Hok Hl) as (sibs & Hf & Hv). rewrite Hf in Hrun. injection Hrun as <- _.
  apply quiet_fmap; [|intros; apply fail_row_slot]. intros Hwf. apply fail_row_wf; [done..|].
  intros x. rewrite Hr. by intros [= <-].
Qed.

Lemma record_quiet id a res err reason sibs : quietly (recordCardRequestOutcome uuid id a res err reason sibs).
Proof.
  intros s s' u Hs Hrun. destruct (card_requests s !! id) as [r|] eqn:Hr.
  - rewrite (record_run uuid s id r) in Hrun; [|done|by eapply (proj2 Hs)]. injection Hrun as <- _. apply quiet_log.
  - unfold recordCardRequestOutcome in Hrun. apply bind_ok in Hrun as (x & s1 & Hget & _).
    by rewrite Get_run, Hr in Hget.
Qed.

Lemma quietly_bind {A B} (m : cardm A) (f : A → cardm B) :
  quietly m → (∀ a, quietly (f a)) → quietly (m ≫= f).
Proof.
  intros Hm Hf s s' b Hs Hrun. apply bind_ok in Hrun as (a & s1 & H1 & H2).
  pose proof (Hm _ _ _ Hs H1) as Hq. etrans; [exact Hq|]. eapply Hf; [|exact H2]. by apply Hq.
Qed.
Lemma quietly_gets {A} (f : DB → A) : quietly (gets f).
Proof. by intros s s' a _ [= <- _]. Qed.
Lemma quietly_ret {A} (a : A) : quietly (mret a).
Proof. by intros s s' b _ [= <- _]. Qed.
Lemma quietly_throw {A} e : quietly (throw (A := A) e).
Proof. by intros s s' b _ ?. Qed.
Lemma quietly_fail_if c e : quietly (fail_if c e).
Proof. destruct c; [apply quietly_throw|apply quietly_ret]. Qed.

Lemma FailCardRequest_quiet id err : quietly (FailCardRequest uuid id err).
Proof. apply quietly_bind; [apply failCardRequest_quiet|]. intros _. apply record_quiet. Qed.

Lemma validate_ok id kind target s s' u :
  validateAttachArgs id kind target s = (s', inr u) → attach_args_ok id kind target ∧ s' = s.
Proof.
  unfold validateAttachArgs, attach_args_ok. rewrite !bind_fail_if.
  destruct (str_empty id) eqn:H1; [done|]. apply bool_decide_eq_false in H1.
  case_bool_decide as H2; simpl; [|done].
  unfold fail_if. destruct (str_empty target) eqn:H3; [done|]. apply bool_decide_eq_false in H3.
  by intros [= <- _].
Qed.

Lemma AttachCardRequest_quiet id kind target : quietly (AttachCardRequest id kind target).
Proof.
  intros s s' a Hs Hrun. pose proof Hrun as Hrun'. unfold AttachCardRequest in Hrun.
  apply bind_ok in Hrun as (u & s1 & Hv & _). apply validate_ok in Hv as [Hargs ->].
  pose proof (attach_run id kind target s (proj1 Hs) Hargs) as Ha.
  destruct (card_requests s !! id) as [r|]; [|by rewrite Ha in Hrun'].
  case_bool_decide; [|by rewrite Ha in Hrun']. destruct Ha as [Ha Hv]. rewrite Ha in Hrun'. injection Hrun' as <- _.
  apply quiet_fmap; [|intros; apply attach_row_slot]. intros Hwf. by apply attach_row_wf.
Qed.

Lemma AttachCardRequestOwned_quiet id job kind target : quietly (AttachCardRequestOwned id job kind target).
Proof.
  intros s s' a Hs Hrun. pose proof Hrun as Hrun'. unfold AttachCardRequestOwned in Hrun.
  rewrite bind_fail_if in Hrun. destruct (str_empty job) eqn:Hj; [done|]. apply bool_decide_eq_false in Hj.
  apply bind_ok in Hrun as (u & s1 & Hv & _). apply validate_ok in Hv as [Hargs ->].
  pose proof (attach_owned_run id job kind target s (proj1 Hs) Hargs Hj) as Ha.
  destruct (card_requests s !! id) as [r|]; [|by rewrite Ha in Hrun'].
  case_bool_decide; rewrite Ha in Hrun'; [|done]. by eapply AttachCardRequest_quiet.
Qed.
End quietness.

#[export] Hint Resolve quietly_bind quietly_gets quietly_ret quietly_throw quietly_fail_if FinishCardRequest_quiet
  FailCardRequest_quiet AttachCardRequest_quiet AttachCardRequestOwned_quiet failCardRequest_quiet record_quiet : boid.

(** Draining a card's queue always succeeds. *)
Lemma drain_run c reason s :
  ledger_wf (card_requests s) →
  ∃ n, failAllQueuedCardRequests c reason s =
    (set_requests s (upd (queued_of c) (fail_with reason (clock s)) <$> card_requests s), inr n) ∧
  ledger_wf (upd (queued_of c) (fail_with reason (clock s)) <$> card_requests s).
Proof.
  intros Hwf. unfold failAllQueuedCardRequests, time_Now. rewrite bind_gets.
  destruct (update_where_safe (queued_of c) (fail_with reason (clock s)) s) as [-> Hv].
  { intros k r _. apply (fail_with_safe (queued_of c) reason (clock s) id). }
  { apply Hwf. }
  eexists. split; [done|]. apply ledger_wf_fmap; [done| |done|].
  - intros k r Hr. pose proof (wf_row _ Hwf k r Hr) as (Hid & Hcard & Hl & Hat & Hf). unfold upd.
    destruct (queued_of c r) eqn:Hq; [|by split_and!]. apply queued_of_spec in Hq as [_ Hq].
    split_and!; [done..|]. unfold row_wf. simpl. split_and!; [done..|]. intros _. apply Hf. rewrite Hq. set_solver.
  - intros k r Hr. unfold upd at 1 2. destruct (queued_of c r) eqn:Hq; [done|]. intros Hfold.
    destruct (wf_folded _ Hwf k r Hr Hfold) as (h & Hh & Hact & Hc). exists h. split_and!; [done| |done].
    unfold upd. destruct (queued_of c h) eqn:Hq'; [|done]. apply queued_of_spec in Hq' as [_ Hq'].
    unfold is_active, status_in in Hact. by rewrite Hq' in Hact.
Qed.

Lemma drain_quiet c reason : quietly (failAllQueuedCardRequests c reason).
Proof.
  intros s s' n Hs Hrun. destruct (drain_run c reason s (proj1 Hs)) as (n' & Hd & Hwf). rewrite Hd in Hrun.
  injection Hrun as <- _. apply quiet_fmap; [done|]. intros k r _. unfold upd.
  destruct (queued_of c r); auto.
Qed.

Section passes.
Context (uuid : nat → string) (uuid_ne : ∀ n, uuid n ≠ "").

Lemma each_row_quiet body rows s :
  (∀ req, quietly (body req)) → db_wf s →
  quiet s (each_row body rows s).1 ∧ ∃ outs, (each_row body rows s).2 = inr outs.
Proof.
  intros Hb. revert s. induction rows as [|req rows IH]; intros s Hs; [by split; [|eexists]|].
  simpl. pose proof (quietly_tx (body req) s (Hb req) Hs) as Hq.
  unfold mbind, dbm_bind, try_. destruct (InTxDB (body req) s) as [s1 r]. simpl in Hq.
  destruct (IH s1) as [Hq2 [outs Ho]]; [by apply Hq|].
  destruct (each_row body rows s1) as [s2 r2]. simpl in *. subst. simpl.
  split; [by etrans|eauto].
Qed.

Lemma reconcile_row_quiet req : quietly (reconcile_row uuid req).
Proof. unfold reconcile_row. apply quietly_bind; [eauto with boid|]. intros [[] []]; simpl; eauto with boid. Qed.

Lemma attachFound_quiet req reason : quietly (attachFoundContinuationOrFail uuid req reason).
Proof.
  unfold attachFoundContinuationOrFail. apply quietly_bind; [eauto with boid|]. intros [j|]; eauto with boid.
Qed.

Lemma reconcile_launching_row_quiet req : quietly (reconcile_launching_row uuid req).
Proof.
  unfold reconcile_launching_row. apply quietly_bind; [eauto with boid|].
  intros []; simpl; [apply attachFound_quiet|eauto with boid].
Qed.

Lemma ReconcileCardRequestSlots_quiet s : db_wf s → quiet s (ReconcileCardRequestSlots uuid s).1.
Proof.
  intros Hs. unfold ReconcileCardRequestSlots. rewrite bind_gets. apply each_row_quiet; [|done].
  apply reconcile_row_quiet.
Qed.
Lemma ReconcileLaunchingCardRequests_quiet s : db_wf s → quiet s (ReconcileLaunchingCardRequests uuid s).1.
Proof.
  intros Hs. unfold ReconcileLaunchingCardRequests. rewrite bind_gets. apply each_row_quiet; [|done].
  apply reconcile_launching_row_quiet.
Qed.
Lemma RecoverLaunchingCardRequests_quiet s : db_wf s → quiet s (RecoverLaunchingCardRequests uuid s).1.
Proof.
  intros Hs. unfold RecoverLaunchingCardRequests. rewrite bind_gets. apply each_row_quiet; [|done].
  intros req. apply attachFound_quiet.
Qed.

Lemma Release_quiet kind target ok : quietly (ReleaseCardRequestForTerminalTargetWithCard uuid kind target ok).
Proof.
  unfold ReleaseCardRequestForTerminalTargetWithCard. apply quietly_bind; [eauto with boid|].
  intros [|r rows]; [eauto with boid|]. apply quietly_bind; [|eauto with boid]. destruct ok; eauto with boid.
Qed.

Lemma GetCardRequest_quiet id : quietly (GetCardRequest id).
Proof. apply quietly_bind; [eauto with boid|]. intros []; eauto with boid. Qed.

Lemma SetBarrier_quiet c : quietly (SetCardForceReleaseBarrier c).
Proof.
  unfold SetCardForceReleaseBarrier, time_Now. apply quietly_bind; [eauto with boid|]. intros now.
  apply quietly_bind; [eauto with boid|]. intros known. apply quietly_bind; [eauto with boid|]. intros _ s s' a Hs [= <- _].
  split; [done|by eauto| |done..]. intros c' Hc. simpl. rewrite lookup_insert_is_Some. destruct (decide (c = c')); auto.
Qed.

Lemma ForceRelease_quiet id reason : quietly (ForceReleaseCardRequest uuid id reason).
Proof.
  unfold ForceReleaseCardRequest. apply quietly_bind; [eauto with boid|]. intros sibs.
  apply quietly_bind; [apply GetCardRequest_quiet|]. intros row.
  apply quietly_bind; [apply SetBarrier_quiet|]. intros _. apply quietly_bind; eauto with boid.
Qed.

(** Creating a request. *)
Lemma Create_run status req s s' row :
  db_wf s → FoldedInto req = "" → CreateCardRequest uuid status req s = (s', inr row) →
  db_wf s' ∧ tasks s' = tasks s ∧ jobs s' = jobs s ∧ barriers s' = barriers s ∧ clock s' = clock s ∧
  card_requests s !! RID row = None ∧ card_requests s' = <[RID row := row]> (card_requests s) ∧
  CardID row = CardID req ∧ CauseID row = CauseID req ∧
  RStatus row = default CardRequestStatusQueued status.
Proof.
  intros [Hwf Hfk] Hfold. unfold CreateCardRequest, time_Now. rewrite bind_fail_if.
  destruct (str_empty (CardID req)) eqn:Hcard; [done|]. apply bool_decide_eq_false in Hcard.
  intros (st & s1 & Hst & Hrun)%bind_ok.
  assert (s1 = s ∧ st = default CardRequestStatusQueued status ∧
          (st = CardRequestStatusQueued ∨ (st = CardRequestStatusLaunching ∧ LauncherJobID req ≠ ""))) as (-> & Hstat & Hkind).
  { destruct status as [[]|]; simpl in Hst; try done.
    - injection Hst as <- <-. auto.
    - destruct (str_empty (LauncherJobID req)) eqn:Hl; [done|]. apply bool_decide_eq_false in Hl.
      injection Hst as <- <-. auto.
    - injection Hst as <- <-. auto. }
  apply bind_ok in Hrun as (id & s1 & Hid & Hrun).
  assert (id ≠ "" ∧ card_requests s1 = card_requests s ∧ tasks s1 = tasks s ∧ jobs s1 = jobs s ∧
          barriers s1 = barriers s ∧ clock s1 = clock s) as (Hne & Hr1 & Ht1 & Hj1 & Hb1 & Hc1).
  { destruct (str_empty (RID req)) eqn:He; injection Hid as <- <-; [by split_and!; [apply uuid_ne|..]|].
    apply bool_decide_eq_false in He. by split_and!. }
  rewrite bind_gets in Hrun. cbv zeta in Hrun. apply bind_ok in Hrun as (u & s2 & Hins & [= <- <-]).
  apply map_err_ok in Hins. unfold insert_request in Hins. rewrite Hr1, Ht1 in Hins. simpl in Hins.
  case_bool_decide as Hpk; [done|]. destruct (check_row _); [|done]. simpl in Hins.
  case_bool_decide as Hcardrow; [|done]. simpl in Hins.
  match type of Hins with context [<[id := ?r]> _] => set (row := r) in * end.
  destruct (violation (<[id:=row]> (card_requests s))) eqn:Hv; [done|]. injection Hins as <- _.
  apply eq_None_not_Some in Hpk.
  split_and!; [|done..]. split.
  - apply (insert_wf _ row); [done| |by destruct Hkind as [->|[-> _]]|done..].
    unfold row_wf. simpl. split_and!; [done..| | |done].
    + unfold is_active, status_in. simpl. destruct Hkind as [->|[-> ?]]; done.
    + by destruct Hkind as [->|[-> _]].
  - intros k x. cbn [card_requests set_requests tasks]. rewrite Ht1, lookup_insert_Some.
    intros [[<- <-]|[_ Hx]]; [done|by eapply Hfk].
Qed.

Lemma Create_queued_quiet status req :
  FoldedInto req = "" → status ≠ Some CardRequestStatusLaunching → quietly (CreateCardRequest uuid status req).
Proof.
  intros Hf Hst s s' row Hs Hrun.
  destruct (Create_run _ _ _ _ _ Hs Hf Hrun) as (Hwf & Ht & Hj & Hb & Hc & Hnew & Hreq & _ & _ & Hrow).
  split; [done| |by rewrite Hb|done..]. intros k x c Hx Hslot. rewrite Hreq, lookup_insert_Some in Hx.
  destruct Hx as [[<- <-]|[_ Hx]]; [|by exists x]. exfalso.
  unfold slot_key, is_active, status_in in Hslot. rewrite Hrow in Hslot.
  unfold CreateCardRequest in Hrun. rewrite bind_fail_if in Hrun. destruct (str_empty _); [done|].
  apply bind_ok in Hrun as (st & s1 & H1 & _). by destruct status as [[]|].
Qed.
End passes.

(** ** Runs of the ledger *)
Section runs.
Context (uuid : nat → string) (uuid_ne : ∀ n, uuid n ≠ "").

Lemma resolve_command_run resolver t s : (resolve_command resolver t s).1 = s.
Proof.
  unfold resolve_command. destruct (str_empty (TRProject t));
    [destruct (WorkspaceCardEventCommandInTx resolver) as [f|]|destruct (CardEventCommandInTx resolver) as [f|]];
    try done; rewrite bind_gets; by destruct (f s _).
Qed.

Lemma quiet_uuid s : quiet s (next_uuid s).
Proof. split; eauto. Qed.

Lemma insert_err r s s' e : insert_request r s = (s', inl e) → s' = s.
Proof.
  unfold insert_request. case_bool_decide; [by intros [= <- _]|]. destruct (negb _); [by intros [= <- _]|].
  destruct (negb _); [by intros [= <- _]|]. destruct (violation _); [by intros [= <- _]|done].
Qed.

Lemma Ingest_quiet writer a resolver : quietly (IngestCardEventRequest uuid writer a resolver).
Proof.
  unfold IngestCardEventRequest. destruct resolver as [resolver|]; [|eauto with boid].
  destruct (str_empty _); [eauto with boid|]. destruct (negb _); [eauto with boid|].
  apply quietly_bind; [eauto with boid|]. intros [t|]; [|eauto with boid].
  destruct (negb _); [eauto with boid|]. destruct (negb _); [eauto with boid|].
  apply quietly_bind.
  { intros s s' k _ Hrun. pose proof (resolve_command_run resolver t s) as Hs. rewrite Hrun in Hs. simpl in Hs. by subst. }
  intros [key|]; [|eauto with boid]. destruct (str_empty key); [eauto with boid|].
  apply quietly_bind; [eauto with boid|]. intros []; [eauto with boid|].
  intros s s' u Hs Hrun. apply bind_ok in Hrun as (r & s1 & Htry & Hrun). unfold try_ in Htry.
  destruct (CreateCardRequest uuid None (event_request (ATaskID a) key (AID a)) s) as [s2 [e|row]] eqn:Hc;
    injection Htry as <- <-.
  - assert (quiet s s2) as Hq; [|destruct e; try done; by injection Hrun as <- _].
    unfold CreateCardRequest in Hc. rewrite bind_fail_if in Hc. cbn [CardID event_request] in Hc.
    destruct (str_empty (ATaskID a)); [by injection Hc as <- _|].
    erewrite bind_run in Hc by done. cbn [RID event_request] in Hc. change (str_empty "") with true in Hc. cbv iota in Hc.
    erewrite bind_run in Hc by done. unfold time_Now in Hc. rewrite bind_gets in Hc. cbv zeta in Hc.
    unfold mbind, dbm_bind in Hc. rewrite map_err_run in Hc.
    destruct (insert_request _ _) as [s3 [e'|u']] eqn:Hins; [|done]. injection Hc as <- _.
    apply insert_err in Hins as ->. apply quiet_uuid.
  - injection Hrun as <- _. refine (Create_queued_quiet uuid uuid_ne None _ _ _ s s2 row Hs Hc); done.
Qed.

Lemma repo_dispatch_run cardID job key def s :
  repo_ClaimQueuedCardRequestsForDispatch cardID job key def s =
    match ClaimQueuedCardRequestsForDispatch cardID job key def s with
    | (s1, inl e) => (if IsCardRequestDispatchSkip e then s1 else s, inl e)
    | (s1, inr v) => (s1, inr v)
    end.
Proof.
  unfold repo_ClaimQueuedCardRequestsForDispatch, mbind, dbm_bind, InTxDB, try_.
  destruct (ClaimQueuedCardRequestsForDispatch _ _ _ _ s) as [s1 [e|v]]; [|done].
  by destruct (IsCardRequestDispatchSkip e).
Qed.

(** What an automatic claim does to the ledger: nothing but a drain, or a
    promotion on a card with no force-release barrier. *)
Lemma dispatch_cases cardID job key def s s' :
  db_wf s → (repo_ClaimQueuedCardRequestsForDispatch cardID job key def s).1 = s' →
  quiet s s' ∨
  (barriers s !! cardID = None ∧ cardID ≠ "" ∧ job ≠ "" ∧
   ∃ r, ClaimQueuedCardRequests cardID job def s = (s', inr r)).
Proof.
  intros Hs. rewrite repo_dispatch_run. unfold ClaimQueuedCardRequestsForDispatch, GetTaskStatus.
  assert (∀ reason, (match (_ ← failAllQueuedCardRequests cardID reason;
      throw (A := CardRequest * list CardRequest) ErrCardNotEligibleForDispatch) s with
      | (s1, inl e) => (if IsCardRequestDispatchSkip e then s1 else s, inl e)
      | (s1, inr v) => (s1, inr v)
      end).1 = s' → quiet s s') as Hdrain.
  { intros reason. destruct (drain_run cardID reason s (proj1 Hs)) as (n & Hd & _).
    erewrite bind_run by exact Hd. simpl. intros <-. by eapply drain_quiet. }
  destruct (tasks s !! cardID) as [t|] eqn:Ht;
    (erewrite bind_run by (unfold try_; rewrite bind_gets, Ht; reflexivity)); cbv beta iota;
    [|intros ?; left; by eapply Hdrain].
  destruct (negb (bool_decide (TRStatus t ∈ [TaskStatusParked; TaskStatusWorking])));
    [intros ?; left; by eapply Hdrain|].
  rewrite bind_gets. unfold HasCardForceReleaseBarrier. case_bool_decide as Hb; [intros <-; by left|].
  unfold PeekOldestQueuedCardRequest. unfold mbind at 1, dbm_bind at 1. rewrite bind_gets.
  destruct (select_where _ _) as [|h rest] eqn:Hsel; [intros <-; by left|]. simpl.
  case_bool_decide; simpl; [|intros <-; by left].
  destruct (decide (cardID = "")) as [->|Hc]; [intros <-; by left|].
  destruct (decide (job = "")) as [->|Hj].
  { intros <-. left. unfold ClaimQueuedCardRequests. rewrite !bind_fail_if, str_empty_ne by done. done. }
  pose proof (Claim_run cardID job def s (proj1 Hs) Hc Hj) as Hrun. rewrite Hsel in Hrun.
  destruct Hrun as [Hocc Hfree].
  destruct (decide (cardID ∈ indexed slot_key (card_requests s))) as [Hin|Hnin].
  - rewrite Hocc; [intros <-; by left|].
    apply list_elem_of_omap in Hin as ([k r] & Hk%elem_of_map_to_list & Hr). by exists k, r.
  - destruct Hfree as [-> _].
    { intros (k & r & Hk & Hr). apply Hnin, list_elem_of_omap. exists (k, r). by rewrite elem_of_map_to_list. }
    intros <-. right. split_and!; [by apply eq_None_not_Some|done|done|by eexists].
Qed.

Lemma claim_wf cardID job def s s' r :
  db_wf s → cardID ≠ "" → job ≠ "" → ClaimQueuedCardRequests cardID job def s = (s', inr r) →
  db_wf s' ∧ barriers s' = barriers s ∧ tasks s' = tasks s ∧
  ∀ c, c ≠ cardID → slot_taken c (card_requests s') → slot_taken c (card_requests s).
Proof.
  intros [Hwf Hfk] Hc Hj Hclaim. pose proof (Claim_run cardID job def s Hwf Hc Hj) as Hrun.
  destruct (select_where _ _) as [|head rest] eqn:Hsel; [by rewrite Hrun in Hclaim|].
  destruct Hrun as [Hocc Hfree]. destruct (decide (cardID ∈ indexed slot_key (card_requests s))) as [Hin|Hnin].
  { rewrite Hocc in Hclaim; [done|].
    apply list_elem_of_omap in Hin as ([k x] & Hk%elem_of_map_to_list & Hx). by exists k, x. }
  destruct Hfree as [Hrun Hv].
  { intros (k & x & Hk & Hx). apply Hnin, list_elem_of_omap. exists (k, x). by rewrite elem_of_map_to_list. }
  rewrite Hrun in Hclaim. injection Hclaim as <- _.
  assert (waiting cardID (card_requests s) head) as ([k Hk] & Hcard & Hq)
    by (apply waiting_select; rewrite Hsel; by left).
  rewrite <- (wf_id _ Hwf k head Hk) in Hk. split_and!; [|done|done|].
  - split; [by eapply claim_row_wf|]. intros j x. cbn [card_requests set_requests tasks]. rewrite lookup_fmap.
    intros (y & Hy & ->)%fmap_Some. specialize (Hfk j y Hy). unfold claim_row. by repeat case_match.
  - intros c Hne (j & x & Hx & Hs). cbn [card_requests set_requests] in Hx. rewrite lookup_fmap in Hx.
    apply fmap_Some in Hx as (y & Hy & ->). unfold claim_row in Hs. case_bool_decide as E.
    + exfalso. rewrite <- E, (wf_id _ Hwf j y Hy), Hy in Hk. injection Hk as ->.
      unfold slot_key in Hs. simpl in Hs. injection Hs as <-. done.
    + destruct (queued_of cardID y); [done|]. by exists j, y.
Qed.

(** Steps no human takes part in.  [env_step] is everything else that happens
    to the database: tasks and jobs come, go and change status, time passes;
    deleting a task deletes its requests and its barrier (ON DELETE CASCADE). *)
Inductive auto_step : DB → DB → Prop :=
| dispatch_step c job key def s : auto_step s (repo_ClaimQueuedCardRequestsForDispatch c job key def s).1
| ingest_step w a res s : auto_step s (InTxDB (IngestCardEventRequest uuid w a res) s).1
| attach_step id job kind target s : auto_step s (InTxDB (AttachCardRequestOwned id job kind target) s).1
| fail_step id err s : auto_step s (repo_FailCardRequest uuid id err s).1
| release_step kind target ok s : auto_step s (repo_ReleaseCardRequestForTerminalTargetWithCard uuid kind target ok s).1
| reconcile_step s : auto_step s (ReconcileCardRequestSlots uuid s).1
| reconcile_launching_step s : auto_step s (ReconcileLaunchingCardRequests uuid s).1
| recover_step s : auto_step s (RecoverLaunchingCardRequests uuid s).1
| force_release_step id reason s : auto_step s (repo_ForceReleaseCardRequest uuid id reason s).1
| env_step s s' :
    card_requests s' = filter (λ kv, is_Some (tasks s' !! CardID kv.2)) (card_requests s) →
    (∀ c, is_Some (tasks s' !! c) → barriers s' !! c = barriers s !! c) →
    auto_step s s'.

(** A card command or Go (which clears the barrier), and an explicit retry. *)
Inductive human_step : DB → DB → Prop :=
| create_step status req s : FoldedInto req = "" → human_step s (InTxDB (CreateCardRequest uuid status req) s).1
| claim_step c job def s : human_step s (InTxDB (ClaimQueuedCardRequests c job def) s).1
| retry_step id s : human_step s (InTxDB (RetryCardRequest id) s).1
| clear_step c s : human_step s (ClearCardForceReleaseBarrier c s).1.

Definition ledger_step (s s' : DB) : Prop := auto_step s s' ∨ human_step s s'.

Lemma env_wf s s' :
  card_requests s' = filter (λ kv, is_Some (tasks s' !! CardID kv.2)) (card_requests s) →
  db_wf s → db_wf s'.
Proof.
  intros Hreq [Hwf Hfk].
  assert (∀ k r, card_requests s' !! k = Some r ↔ card_requests s !! k = Some r ∧ is_Some (tasks s' !! CardID r)) as Hl.
  { intros k r. by rewrite Hreq, map_lookup_filter_Some. }
  split; [|intros k r [_ ?]%Hl; done]. split.
  - intros k r [Hr _]%Hl. by eapply wf_id.
  - intros k r [Hr _]%Hl. by eapply wf_row.
  - pose proof (wf_unique _ Hwf) as [Hs Hc]%violation_None. apply violation_None.
    split; intros i j r r' c [Hi _]%Hl [Hj _]%Hl; [by apply Hs|by apply Hc].
  - intros k r [Hr Ht]%Hl Hf. destruct (wf_folded _ Hwf k r Hr Hf) as (h & Hh & Ha & Hc). exists h.
    split_and!; [|done..]. apply Hl. by rewrite Hc.
Qed.

(** Every automatic step keeps a well-formed ledger well formed, and leaves a
    barred card's slot and barrier as they were. *)
Lemma auto_step_spec s s' :
  auto_step s s' → db_wf s →
  db_wf s' ∧ ∀ c, is_Some (barriers s !! c) → is_Some (tasks s' !! c) →
    is_Some (barriers s' !! c) ∧ (slot_taken c (card_requests s') → slot_taken c (card_requests s)).
Proof.
  intros Hstep Hs.
  assert (∀ s', quiet s s' → db_wf s' ∧ ∀ c, is_Some (barriers s !! c) → is_Some (tasks s' !! c) →
    is_Some (barriers s' !! c) ∧ (slot_taken c (card_requests s') → slot_taken c (card_requests s))) as Hquiet.
  { intros x Hq. split; [by apply Hq|]. intros c Hb _. split; [by apply (q_barriers _ _ Hq)|by apply q_slot]. }
  destruct Hstep as [c job key def s|w a res s|id job kind target s|id err s|kind target ok s|s|s|s|id reason s|s s' Hreq Hbar].
  - destruct (dispatch_cases c job key def s _ Hs eq_refl) as [Hq|(Hb & Hc & Hj & r & Hclaim)]; [by apply Hquiet|].
    destruct (claim_wf _ _ _ _ _ _ Hs Hc Hj Hclaim) as (Hwf & Hbar & _ & Hslot). split; [done|].
    intros c' Hc' _. split; [by rewrite Hbar|]. apply Hslot. intros ->. rewrite Hb in Hc'. by destruct Hc'.
  - apply Hquiet, quietly_tx; [|done]. apply Ingest_quiet.
  - apply Hquiet, quietly_tx; eauto with boid.
  - apply Hquiet, quietly_tx; eauto with boid.
  - apply Hquiet, quietly_tx; [|done]. apply Release_quiet.
  - by apply Hquiet, ReconcileCardRequestSlots_quiet.
  - by apply Hquiet, ReconcileLaunchingCardRequests_quiet.
  - by apply Hquiet, RecoverLaunchingCardRequests_quiet.
  - apply Hquiet, quietly_tx; [|done]. apply ForceRelease_quiet.
  - split; [by eapply env_wf|]. intros c Hb Ht. rewrite Hbar by done. split; [done|].
    intros (k & r & Hr & Hk). rewrite Hreq in Hr. apply map_lookup_filter_Some in Hr as [Hr _]. by exists k, r.
Qed.
End runs.

(** ** Passes over the ledger *)
Section settling.
Context (T : gmap string TaskRow) (J : gmap string JobRow) (C : Z).
Context (body : CardRequest → cardm (option CardRequestSlotOutcome)).
Context (Q : CardRequest → CardRequest → option CardRequestSlotOutcome → Prop).

Definition world (s : DB) : Prop := db_wf s ∧ tasks s = T ∧ jobs s = J ∧ clock s = C.

(** What a row's transaction must do: settle the row, and touch no other card. *)
Definition settles (req : CardRequest) : Prop :=
  ∀ s, world s → card_requests s !! RID req = Some req →
  ∃ s' o r', body req s = (s', inr o) ∧ quiet s s' ∧ card_requests s' !! RID req = Some r' ∧
    CardID r' = CardID req ∧ Q req r' o ∧
    ∀ k x, card_requests s !! k = Some x → CardID x ≠ CardID req → card_requests s' !! k = Some x.

Lemma world_quiet s s' : world s → quiet s s' → world s'.
Proof.
  intros (Hs & Ht & Hj & Hc) Hq. split_and!; [by apply Hq|by rewrite (q_tasks _ _ Hq)|
    by rewrite (q_jobs _ _ Hq)|by rewrite (q_clock _ _ Hq)].
Qed.

Lemma each_row_settles rows s :
  world s → NoDup (CardID <$> rows) →
  (∀ req, req ∈ rows → settles req ∧ card_requests s !! RID req = Some req) →
  ∃ s' outs, each_row body rows s = (s', inr outs) ∧ quiet s s' ∧
    (∀ req, req ∈ rows → ∃ r' o, card_requests s' !! RID req = Some r' ∧ Q req r' o ∧
       (∀ x, o = Some x → x ∈ outs)) ∧
    (∀ k x, card_requests s !! k = Some x → CardID x ∉ CardID <$> rows → card_requests s' !! k = Some x).
Proof.
  revert s. induction rows as [|req rows IH]; intros s Hw Hnd Hrows.
  { exists s, []. split_and!; [done|done|by intros ? ?%elem_of_nil|done]. }
  csimpl in Hnd. apply NoDup_cons in Hnd as [Hnew Hnd].
  destruct (Hrows req) as [Hset Hreq]; [by left|].
  destruct (Hset s Hw Hreq) as (s1 & o & r1 & Hbody & Hq1 & Hr1 & Hcard & HQ & Hframe).
  assert (∀ x, x ∈ rows → CardID x ≠ CardID req) as Hother.
  { intros x Hx E. apply Hnew. rewrite <- E. by apply list_elem_of_fmap_2. }
  destruct (IH s1) as (s2 & outs & Hrun & Hq2 & Hset2 & Hframe2).
  { by eapply world_quiet. }
  { done. }
  { intros x Hx. destruct (Hrows x) as [? Hx']; [by right|]. split; [done|]. apply Hframe; [done|]. by apply Hother. }
  exists s2, (match o with Some x => x :: outs | None => outs end). split_and!.
  - simpl. erewrite bind_run by (unfold try_, InTxDB; rewrite Hbody; reflexivity).
    erewrite bind_run by exact Hrun. by destruct o.
  - by etrans.
  - intros x [->|Hx]%elem_of_cons.
    + exists r1, o. split_and!; [|done|intros y ->; by left]. apply Hframe2; [done|]. by rewrite Hcard.
    + destruct (Hset2 x Hx) as (r' & o' & ? & ? & Ho'). exists r', o'. split_and!; [done..|].
      intros y Hy. destruct o; [right|]; by apply Ho'.
  - csimpl. intros k x Hx Hnin. apply not_elem_of_cons in Hnin as [? ?]. apply Hframe2; [|done]. by apply Hframe.
Qed.
End settling.

Lemma fail_row_frame t mode id err now r k x :
  ledger_wf t → t !! id = Some r → t !! k = Some x → CardID x ≠ CardID r →
  (fail_row mode id err now <$> t) !! k = Some x.
Proof.
  intros Hwf Hr Hx Hne. rewrite lookup_fmap, Hx. simpl. f_equal. unfold fail_row.
  case_bool_decide as E; [rewrite <- E, (wf_id _ Hwf k x Hx), Hx in Hr; by injection Hr as ->|].
  destruct (folded_under id x) eqn:Hf; [|done]. apply folded_under_spec in Hf as [Hf Hst].
  destruct (wf_folded _ Hwf k x Hx Hst) as (h & Hh & _ & Hc). rewrite Hf, Hr in Hh. by injection Hh as ->.
Qed.

Lemma finish_row_frame t id res created now r k x :
  ledger_wf t → t !! id = Some r → t !! k = Some x → CardID x ≠ CardID r →
  (finish_row id (CardID r) res created now <$> t) !! k = Some x.
Proof.
  intros Hwf Hr Hx Hne. rewrite lookup_fmap, Hx. simpl. f_equal. unfold finish_row.
  case_bool_decide as E; [rewrite <- E, (wf_id _ Hwf k x Hx), Hx in Hr; by injection Hr as ->|].
  destruct (folded_under id x || absorbable (CardID r) created x) eqn:Hf; [|done].
  apply orb_true_iff in Hf as [[Hf Hst]%folded_under_spec|(Hc & _)%absorbable_spec]; [|done].
  destruct (wf_folded _ Hwf k x Hx Hst) as (h & Hh & _ & Hc). rewrite Hf, Hr in Hh. by injection Hh as ->.
Qed.

Lemma attach_row_frame t id kind target now r k x :
  ledger_wf t → t !! id = Some r → t !! k = Some x → CardID x ≠ CardID r →
  (attach_row id kind target now <$> t) !! k = Some x.
Proof.
  intros Hwf Hr Hx Hne. rewrite lookup_fmap, Hx. simpl. f_equal. unfold attach_row, upd.
  destruct (with_id id _ x) eqn:E; [|done]. apply with_id_spec in E as [E _].
  rewrite <- E, (wf_id _ Hwf k x Hx), Hx in Hr. by injection Hr as ->.
Qed.

(** A running row is recorded under its own id, which is not empty. *)
Lemma row_id_ne s r : db_wf s → card_requests s !! RID r = Some r → RID r ≠ "".
Proof. intros [Hwf _] Hr. by destruct (wf_row _ Hwf _ _ Hr). Qed.

Section passes_spec.
Context (uuid : nat → string).

Lemma FailCardRequest_settles s req err :
  db_wf s → card_requests s !! RID req = Some req → RStatus req ∈ live_statuses →
  ∃ s' r', FailCardRequest uuid (RID req) err s = (s', inr ()) ∧ card_requests s' !! RID req = Some r' ∧
    CardID r' = CardID req ∧ RStatus r' = CardRequestStatusFailed ∧
    ∀ k x, card_requests s !! k = Some x → CardID x ≠ CardID req → card_requests s' !! k = Some x.
Proof.
  intros Hs Hr Hl. destruct (FailCardRequest_run uuid (RID req) err s req Hs (row_id_ne s req Hs Hr) Hr Hl) as [Hrun _].
  rewrite Hrun. eexists _, _. split; [done|]. rewrite (proj1 (log_outcome_tables _ _ _ _ _)).
  split_and!; [cbn [card_requests set_requests]; by rewrite lookup_fmap, Hr| | |].
  - by destruct (fail_row_slot foldedSiblingsRequeue (RID req) err (clock s) req).
  - unfold fail_row. by rewrite bool_decide_eq_true_2.
  - intros k x Hx Hne. eapply fail_row_frame; [apply Hs|done..].
Qed.

Lemma FinishCardRequest_settles s req res :
  db_wf s → card_requests s !! RID req = Some req → RStatus req = CardRequestStatusAttached →
  ∃ s' r', FinishCardRequest uuid (RID req) res s = (s', inr ()) ∧ card_requests s' !! RID req = Some r' ∧
    CardID r' = CardID req ∧ RStatus r' = CardRequestStatusFinished ∧
    ∀ k x, card_requests s !! k = Some x → CardID x ≠ CardID req → card_requests s' !! k = Some x.
Proof.
  intros Hs Hr Hl. destruct (finish_run uuid (RID req) res s req Hs (row_id_ne s req Hs Hr) Hr Hl) as [Hrun _].
  rewrite Hrun. eexists _, _. split; [done|]. rewrite (proj1 (log_outcome_tables _ _ _ _ _)).
  split_and!; [cbn [card_requests set_requests]; by rewrite lookup_fmap, Hr| | |].
  - by destruct (finish_row_slot (RID req) (CardID req) res (RCreatedAt req) (clock s) req).
  - unfold finish_row. by rewrite bool_decide_eq_true_2.
  - intros k x Hx Hne. eapply finish_row_frame; [apply Hs|done..].
Qed.

Lemma AttachCardRequest_settles s req kind target :
  db_wf s → card_requests s !! RID req = Some req → RStatus req = CardRequestStatusLaunching →
  kind ∈ [CardRequestTargetKindTask; CardRequestTargetKindSession] → target ≠ "" →
  ∃ s', AttachCardRequest (RID req) kind target s = (s', inr ()) ∧
    card_requests s' !! RID req = Some (attach_to kind target (clock s) req) ∧
    ∀ k x, card_requests s !! k = Some x → CardID x ≠ CardID req → card_requests s' !! k = Some x.
Proof.
  intros Hs Hr Hst Hk Ht.
  pose proof (attach_run (RID req) kind target s (proj1 Hs) (conj (row_id_ne s req Hs Hr) (conj Hk Ht))) as Ha.
  rewrite Hr in Ha. rewrite (bool_decide_eq_true_2 (_ = _)) in Ha by done. destruct Ha as [Ha _].
  rewrite Ha. eexists. split; [done|]. cbn [card_requests set_requests]. split.
  - rewrite lookup_fmap, Hr. simpl. f_equal. unfold attach_row, upd.
    rewrite (proj2 (with_id_spec _ _ _)); [done|]. split; [done|]. rewrite Hst. by apply list_elem_of_singleton.
  - intros k x Hx Hne. eapply attach_row_frame; [apply Hs|done..].
Qed.

(** What a reconcile pass owes an attached row, given the continuation's state. *)
Definition reconciled (o : bool * bool) (req r' : CardRequest) (out : option CardRequestSlotOutcome) : Prop :=
  if o.2 then
    RStatus r' = (if o.1 then CardRequestStatusFinished else CardRequestStatusFailed) ∧
    out = Some {| SoRequestID := RID req; SoStatus := RStatus r' |}
  else r' = req ∧ out = None.

Lemma continuation_ext s s' req :
  tasks s' = tasks s → jobs s' = jobs s → continuationTerminalOutcome s' req = continuationTerminalOutcome s req.
Proof. intros Ht Hj. unfold continuationTerminalOutcome. by rewrite Ht, Hj. Qed.

Lemma reconcile_row_settles s0 req :
  RStatus req = CardRequestStatusAttached →
  settles (tasks s0) (jobs s0) (clock s0) (reconcile_row uuid)
    (λ req r' o, reconciled (continuationTerminalOutcome s0 req) req r' o) req.
Proof.
  intros Hst s (Hs & Ht & Hj & Hc) Hr. unfold reconcile_row, reconciled.
  assert (continuationTerminalOutcome s req = continuationTerminalOutcome s0 req) as Ho by by apply continuation_ext.
  destruct (continuationTerminalOutcome s0 req) as [[] []] eqn:E; simpl.
  - destruct (FinishCardRequest_settles s req "continuation reached a terminal successful state" Hs Hr Hst)
      as (s' & r' & Hrun & Hr' & Hcard & Hst' & Hframe).
    eexists s', _, r'. rewrite bind_gets, Ho. simpl. erewrite bind_run by exact Hrun.
    split_and!; [done| |done..|by rewrite Hst'|done]. by eapply FinishCardRequest_quiet.
  - eexists s, None, req. rewrite bind_gets, Ho. simpl. by split_and!.
  - assert (RStatus req ∈ live_statuses) as Hl by (rewrite Hst; unfold live_statuses; set_solver).
    destruct (FailCardRequest_settles s req "continuation ended without success" Hs Hr Hl)
      as (s' & r' & Hrun & Hr' & Hcard & Hst' & Hframe).
    eexists s', _, r'. rewrite bind_gets, Ho. simpl. erewrite bind_run by exact Hrun.
    split_and!; [done| |done..|by rewrite Hst'|done]. by eapply FailCardRequest_quiet.
  - eexists s, None, req. rewrite bind_gets, Ho. simpl. by split_and!.
Qed.

(** What startup recovery owes a launching row. *)
Definition recovered (s0 : DB) (req r' : CardRequest) (out : option CardRequestSlotOutcome) : Prop :=
  match find_continuation s0 req with
  | Some job => r' = attach_to CardRequestTargetKindSession job (clock s0) req
  | None => RStatus r' = CardRequestStatusFailed
  end ∧ out = Some {| SoRequestID := RID req; SoStatus := RStatus r' |}.

Lemma find_continuation_job s req job : find_continuation s req = Some job → is_Some (jobs s !! job).
Proof.
  unfold find_continuation. intros ([k j] & Hh & ->)%fmap_Some. simpl.
  apply head_Some_elem_of in Hh. rewrite merge_sort_Permutation in Hh.
  apply list_elem_of_filter in Hh as [_ Hh%elem_of_map_to_list]. eauto.
Qed.

Lemma attachFound_settles s0 req reason :
  RStatus req = CardRequestStatusLaunching → jobs s0 !! "" = None →
  settles (tasks s0) (jobs s0) (clock s0) (λ req, attachFoundContinuationOrFail uuid req reason)
    (recovered s0) req.
Proof.
  intros Hst Hjobs s (Hs & Ht & Hj & Hc) Hr. unfold attachFoundContinuationOrFail, recovered.
  assert (find_continuation s req = find_continuation s0 req) as Hf by (unfold find_continuation; by rewrite Hj).
  destruct (find_continuation s0 req) as [job|] eqn:E.
  - assert (job ≠ "") as Hjob.
    { intros ->. apply find_continuation_job in E as [? E]. congruence. }
    destruct (AttachCardRequest_settles s req CardRequestTargetKindSession job Hs Hr Hst) as (s' & Hrun & Hr' & Hframe);
      [set_solver|done|].
    eexists s', _, _. rewrite bind_gets, Hf. erewrite bind_run by exact Hrun.
    split_and!; [done| |exact Hr'|done|by rewrite Hc|done|done]. by eapply AttachCardRequest_quiet.
  - assert (RStatus req ∈ live_statuses) as Hl by (rewrite Hst; unfold live_statuses; set_solver).
    destruct (FailCardRequest_settles s req reason Hs Hr Hl) as (s' & r' & Hrun & Hr' & Hcard & Hst' & Hframe).
    eexists s', _, r'. rewrite bind_gets, Hf. erewrite bind_run by exact Hrun.
    split_and!; [done| |done..|by rewrite Hst'|done]. by eapply FailCardRequest_quiet.
Qed.

(** Running rows belong to different cards. *)
Lemma select_active_cards s p :
  db_wf s → (∀ r, p r = true → is_active r = true) → NoDup (CardID <$> select_where p (card_requests s)).
Proof.
  intros [Hwf _] Hp. pose proof (select_where_nodup p (card_requests s) Hwf) as Hnd.
  assert (∀ r, r ∈ select_where p (card_requests s) → card_requests s !! RID r = Some r ∧ slot_key r = Some (CardID r)) as Hin.
  { intros r [Hpr [k Hk]]%select_where_elem. split; [by rewrite (wf_id _ Hwf k r Hk)|].
    unfold slot_key. by rewrite Hp. }
  pose proof (wf_unique _ Hwf) as [Hu _]%violation_None.
  induction (select_where p (card_requests s)) as [|r l IH]; csimpl in *; [constructor|].
  apply NoDup_cons in Hnd as [Hnew Hnd]. apply NoDup_cons. split; [|apply IH; [done|]; intros x Hx; apply Hin; by right].
  intros (x & E & Hx)%list_elem_of_fmap. apply Hnew.
  destruct (Hin r) as [Hr Hkr]; [by left|]. destruct (Hin x) as [Hx' Hkx]; [by right|].
  rewrite (Hu (RID r) (RID x) r x (CardID r) Hr Hx' Hkr) by (by rewrite E). by apply list_elem_of_fmap_2.
Qed.
End passes_spec.

(** ** Properties of the slot *)
Section slot_properties.
Context (uuid : nat → string).

Lemma selected_attached s req :
  db_wf s → req ∈ select_where (status_in [CardRequestStatusAttached]) (card_requests s) →
  RStatus req = CardRequestStatusAttached ∧ card_requests s !! RID req = Some req.
Proof.
  intros [Hwf _] [Hst%status_in_spec%list_elem_of_singleton [k Hk]]%select_where_elem.
  by rewrite (wf_id _ Hwf k req Hk).
Qed.

Lemma selected_launching s req :
  db_wf s → req ∈ select_where (status_in [CardRequestStatusLaunching]) (card_requests s) →
  RStatus req = CardRequestStatusLaunching ∧ card_requests s !! RID req = Some req.
Proof.
  intros [Hwf _] [Hst%status_in_spec%list_elem_of_singleton [k Hk]]%select_where_elem.
  by rewrite (wf_id _ Hwf k req Hk).
Qed.

Lemma status_active l r :
  l ⊆ [CardRequestStatusLaunching; CardRequestStatusAttached] → status_in l r = true → is_active r = true.
Proof. intros Hl Hst%status_in_spec. apply status_in_spec. by apply Hl. Qed.

(** A reconcile pass releases exactly the slots whose work is over: it
    always completes, each attached request whose continuation has ended
    becomes finished or failed according to how it ended and is reported, and
    each one whose continuation is still running is left untouched. *)
Theorem ReconcileCardRequestSlots_spec s :
  db_wf s →
  ∃ s' outs, ReconcileCardRequestSlots uuid s = (s', inr outs) ∧ db_wf s' ∧
    ∀ k req, card_requests s !! k = Some req → RStatus req = CardRequestStatusAttached →
      ∃ r' o, card_requests s' !! k = Some r' ∧
        reconciled (continuationTerminalOutcome s req) req r' o ∧ (∀ x, o = Some x → x ∈ outs).
Proof.
  intros Hs. unfold ReconcileCardRequestSlots. rewrite bind_gets.
  destruct (each_row_settles (tasks s) (jobs s) (clock s) (reconcile_row uuid)
    (λ req r' o, reconciled (continuationTerminalOutcome s req) req r' o)
    (select_where (status_in [CardRequestStatusAttached]) (card_requests s)) s)
    as (s' & outs & Hrun & Hq & Hset & _).
  - done.
  - apply select_active_cards; [done|]. intros r. apply status_active. set_solver.
  - intros req Hreq. destruct (selected_attached s req Hs Hreq). split; [by apply reconcile_row_settles|done].
  - exists s', outs. split_and!; [done|by apply Hq|]. intros k req Hk Hst.
    rewrite <- (wf_id _ (proj1 Hs) k req Hk). apply Hset. apply select_where_elem. split; [|by exists k].
    apply status_in_spec. rewrite Hst. by apply list_elem_of_singleton.
Qed.

(** Startup recovery leaves no request stuck in launching: the scan
    always completes, a request whose session job was created after its
    promotion is attached to that job, every other launching request is
    failed, and no launching row remains. *)
Theorem RecoverLaunchingCardRequests_spec s :
  db_wf s → jobs s !! "" = None →
  ∃ s' outs, RecoverLaunchingCardRequests uuid s = (s', inr outs) ∧ db_wf s' ∧
    (∀ k req, card_requests s !! k = Some req → RStatus req = CardRequestStatusLaunching →
      ∃ r' o, card_requests s' !! k = Some r' ∧ recovered s req r' o ∧ (∀ x, o = Some x → x ∈ outs)) ∧
    (∀ k r, card_requests s' !! k = Some r → RStatus r ≠ CardRequestStatusLaunching).
Proof.
  intros Hs Hj. unfold RecoverLaunchingCardRequests. rewrite bind_gets.
  set (reason := "launcher exited before creating a continuation (daemon restart recovery)").
  set (rows := select_where (status_in [CardRequestStatusLaunching]) (card_requests s)).
  destruct (each_row_settles (tasks s) (jobs s) (clock s)
    (λ req, attachFoundContinuationOrFail uuid req reason) (recovered s) rows s)
    as (s' & outs & Hrun & Hq & Hset & Hframe).
  - done.
  - apply select_active_cards; [done|]. intros r. apply status_active. set_solver.
  - intros req Hreq. destruct (selected_launching s req Hs Hreq). split; [by apply attachFound_settles|done].
  - assert (∀ k req, card_requests s !! k = Some req → RStatus req = CardRequestStatusLaunching → req ∈ rows) as Hin.
    { intros k req Hk Hst. apply select_where_elem. split; [|by exists k].
      apply status_in_spec. rewrite Hst. by apply list_elem_of_singleton. }
    exists s', outs. split_and!; [done|by apply Hq| |].
    + intros k req Hk Hst. rewrite <- (wf_id _ (proj1 Hs) k req Hk). eauto.
    + intros k r Hk Hst. assert (slot_key r = Some (CardID r)) as Hslot
        by (unfold slot_key, is_active, status_in; by rewrite Hst).
      destruct (q_row _ _ Hq k r _ Hk Hslot) as (req & Hreq & Hact).
      destruct (RStatus req) eqn:Hreqst; unfold slot_key, is_active, status_in in Hact; rewrite Hreqst in Hact; try done.
      * destruct (Hset req) as (r' & o & Hr' & [Hrec _] & _); [by eapply Hin|].
        rewrite (wf_id _ (proj1 Hs) k req Hreq), Hk in Hr'. injection Hr' as <-.
        destruct (find_continuation s req); [subst r; done|congruence].
      * assert (card_requests s' !! k = Some req) as Hsame; [|rewrite Hk in Hsame; injection Hsame as ->; congruence].
        apply Hframe; [done|]. intros (x & E & Hx)%list_elem_of_fmap. destruct (selected_launching s x Hs Hx) as [Hxst Hx'].
        pose proof (wf_unique _ (proj1 Hs)) as [Hu _]%violation_None.
        assert (k = RID x) as ->.
        { eapply (Hu k (RID x) req x (CardID req)); [done..| |]; unfold slot_key, is_active, status_in;
            [by rewrite Hreqst|by rewrite Hxst, E]. }
        congruence.
Qed.

(** Redelivering a card event changes nothing: when a request that is not
    failed already carries the action's id as its cause, ingesting that action
    again leaves the ledger exactly as it was. *)
Theorem event_redelivery_is_noop writer a resolver s k r :
  AID a ≠ "" → card_requests s !! k = Some r → CauseID r = AID a → RStatus r ≠ CardRequestStatusFailed →
  card_requests (IngestCardEventRequest uuid writer a resolver s).1 = card_requests s.
Proof.
  intros Ha Hr Hcause Hst. unfold IngestCardEventRequest. destruct resolver as [resolver|]; [|done].
  destruct (str_empty (ATaskID a)) eqn:Htask; [done|]. destruct (negb _); [done|]. rewrite bind_gets.
  destruct (tasks s !! ATaskID a) as [t|]; [|done]. destruct (negb _); [done|]. destruct (negb _); [done|].
  pose proof (resolve_command_run resolver t s) as Hres.
  unfold mbind at 1, dbm_bind at 1. destruct (resolve_command resolver t s) as [s1 [e|[key|]]]; simpl in Hres; subst s1; try done.
  destruct (str_empty key); [done|]. rewrite bind_gets. destruct (writerHoldsCardsLiveRequest _ _ _); [done|].
  assert (∃ s1 e, CreateCardRequest uuid None (event_request (ATaskID a) key (AID a)) s = (s1, inl e) ∧
    card_requests s1 = card_requests s) as (s1 & e & Hc & Hsame).
  { unfold CreateCardRequest. rewrite bind_fail_if. cbn [CardID event_request]. rewrite Htask.
    erewrite bind_run by done. cbn [RID event_request]. change (str_empty "") with true. cbv iota.
    erewrite bind_run by done. unfold time_Now. rewrite bind_gets. cbv zeta.
    unfold mbind at 1, dbm_bind at 1. rewrite map_err_run.
    match goal with |- context [insert_request ?x _] => set (row := x) end.
    assert (∃ e, insert_request row (next_uuid s) = (next_uuid s, inl e)) as [e ->]; [|by eexists _, _].
    unfold insert_request. destruct (bool_decide (is_Some _)) eqn:Hpk; [by eexists|].
    destruct (negb _); [by eexists|]. destruct (negb _); [by eexists|].
    destruct (violation _) as [c|] eqn:Hv; [by eexists|exfalso].
    apply violation_None in Hv as [_ Hu]. apply bool_decide_eq_false in Hpk.
    assert (k ≠ RID row) as Hne by (intros ->; apply Hpk; cbn [card_requests next_uuid]; eauto).
    apply Hne. eapply (Hu k (RID row) r row (AID a)); [by rewrite lookup_insert_ne|by rewrite lookup_insert_eq| |].
    - unfold cause_key. rewrite Hcause, str_empty_ne by done. simpl.
      assert (status_in [CardRequestStatusFailed] r = false) as ->; [|done].
      apply status_in_false. by intros ?%list_elem_of_singleton.
    - unfold cause_key. simpl. by rewrite str_empty_ne. }
  erewrite bind_run by (unfold try_; rewrite Hc; reflexivity). destruct e; done.
Qed.
(** The rest needs that [uuid.New] never returns the empty string. *)
Context (uuid_ne : ∀ n, uuid n ≠ "").

Lemma human_step_wf s s' : human_step uuid s s' → db_wf s → db_wf s'.
Proof.
  intros Hstep Hs. destruct Hstep as [status req s Hf|c job def s|id s|c s].
  - unfold InTxDB. destruct (CreateCardRequest uuid status req s) as [s' [e|row]] eqn:E; [done|].
    by destruct (Create_run uuid uuid_ne _ _ _ _ _ Hs Hf E).
  - unfold InTxDB. destruct (ClaimQueuedCardRequests c job def s) as [s' [e|r]] eqn:E; [done|]. simpl.
    destruct (decide (c = "")) as [->|Hc]; [done|]. destruct (decide (job = "")) as [->|Hj].
    { unfold ClaimQueuedCardRequests in E. by rewrite !bind_fail_if, str_empty_ne in E by done. }
    by destruct (claim_wf _ _ _ _ _ _ Hs Hc Hj E).
  - unfold InTxDB. destruct (RetryCardRequest id s) as [s' [e|u]] eqn:E; [done|]. simpl.
    unfold RetryCardRequest, time_Now in E. rewrite bind_fail_if in E. destruct (str_empty id); [done|].
    rewrite bind_gets in E. apply bind_ok in E as (n & s1 & Hu & E). apply map_err_ok in Hu.
    rewrite update_where_eq in Hu. destruct (violation _) eqn:Hv; [done|]. injection Hu as <- _.
    apply bind_ok in E as (u' & s2 & Hrows & E). rewrite rows_run in Hrows.
    assert (s2 = set_requests s (upd (with_id id [CardRequestStatusFailed]) (retry_row (clock s)) <$> card_requests s)) as ->
      by (destruct (0 <? n)%nat; [by injection Hrows as <-|]; by destruct (card_requests _ !! id)).
    apply bind_ok in E as (row & s3 & Hget & [= <-]). rewrite Get_run in Hget.
    destruct (card_requests _ !! id) as [r|]; [injection Hget as <- <-|done].
    destruct Hs as [Hwf Hfk]. split; [by apply retry_row_wf|]. intros k x.
    cbn [card_requests set_requests set_barriers tasks]. rewrite lookup_fmap. intros (y & Hy & ->)%fmap_Some.
    specialize (Hfk k y Hy). unfold upd. by destruct (with_id id _ y).
  - done.
Qed.

Lemma ledger_step_wf s s' : ledger_step uuid s s' → db_wf s → db_wf s'.
Proof. intros [Ha|Hh] Hs; [by eapply auto_step_spec|by eapply human_step_wf]. Qed.

Lemma run_wf s s' : rtc (ledger_step uuid) s s' → db_wf s → db_wf s'.
Proof. induction 1 as [|s s1 s' Hstep _ IH]; eauto using ledger_step_wf. Qed.

(** C1.  Whatever sequence of requests, claims, attachments, releases, retries,
    recoveries and task or job changes happens, a ledger that starts empty
    stays well formed, so at no time does a card have more than one request
    running, and every request waiting under another waits under a running
    request of its own card. *)
Theorem ledger_one_running_request s s' card :
  card_requests s = ∅ → rtc (ledger_step uuid) s s' →
  (CountActiveCardRequests card s' ≤ 1)%nat ∧
  ∀ k r, card_requests s' !! k = Some r → RStatus r = CardRequestStatusFolded →
    ∃ h, card_requests s' !! FoldedInto r = Some h ∧ is_active h = true ∧ CardID h = CardID r.
Proof.
  intros Hempty Hrun.
  assert (db_wf s') as Hs.
  { eapply run_wf; [done|]. split; rewrite Hempty; [|done]. split; try done. }
  split; [|apply (wf_folded _ (proj1 Hs))]. unfold CountActiveCardRequests.
  set (p := λ r, bool_decide (CardID r = card) && is_active r).
  pose proof (select_active_cards s' p Hs) as Hnd.
  assert (∀ c, c ∈ CardID <$> select_where p (card_requests s') → c = card) as Hall.
  { intros c (r & -> & [Hp _]%select_where_elem)%list_elem_of_fmap. unfold p in Hp.
    apply andb_true_iff in Hp as [?%bool_decide_eq_true _]. done. }
  rewrite <- (length_fmap CardID).
  destruct (CardID <$> select_where p (card_requests s')) as [|c1 [|c2 l]] eqn:E; simpl; [lia|lia|exfalso].
  assert (NoDup (c1 :: c2 :: l)) as [Hn _]%NoDup_cons.
  { apply Hnd. intros r Hp. unfold p in Hp. by apply andb_true_iff in Hp as [_ ?]. }
  apply Hn. rewrite (Hall c1), (Hall c2); [by left|right; by left|by left].
Qed.

(** Automatic activity during which the card is not deleted. *)
Definition auto_step_on (card : string) (s s' : DB) : Prop :=
  auto_step uuid s s' ∧ is_Some (tasks s' !! card).

Lemma barred_run card s s' :
  rtc (auto_step_on card) s s' → db_wf s → is_Some (barriers s !! card) → is_Some (tasks s !! card) →
  ¬ slot_taken card (card_requests s) →
  db_wf s' ∧ is_Some (barriers s' !! card) ∧ is_Some (tasks s' !! card) ∧ ¬ slot_taken card (card_requests s').
Proof.
  induction 1 as [|s s1 s' [Hstep Ht] _ IH]; [done|]. intros Hs Hb _ Hfree.
  destruct (auto_step_spec uuid uuid_ne s s1 Hstep Hs) as [Hs1 Hc]. destruct (Hc card Hb Ht) as [Hb1 Hslot].
  apply IH; auto.
Qed.

Lemma force_release_run id reason s s' sibs r :
  db_wf s → repo_ForceReleaseCardRequest uuid id reason s = (s', inr sibs) →
  card_requests s !! id = Some r → is_active r = true →
  db_wf s' ∧ is_Some (barriers s' !! CardID r) ∧ is_Some (tasks s' !! CardID r) ∧
  ¬ slot_taken (CardID r) (card_requests s').
Proof.
  intros Hs Hrun Hr Hact. unfold repo_ForceReleaseCardRequest, InTxDB in Hrun.
  destruct (ForceReleaseCardRequest uuid id reason s) as [s1 [e|x]] eqn:E; [done|]. injection Hrun as -> ->.
  pose proof (ForceRelease_quiet uuid id reason s s' sibs Hs E) as Hq.
  unfold ForceReleaseCardRequest in E. cbv zeta in E.
  set (why := if str_empty reason then _ else _) in E.
  apply bind_ok in E as (sibs1 & s1 & Hfail & E).
  destruct (decide (id = "")) as [->|Hid]; [done|].
  pose proof (fail_run id why foldedSiblingsFail s (proj1 Hs) Hid) as Hf. rewrite Hr in Hf. destruct Hf as [_ Hf].
  destruct Hf as (sibs2 & Hf & Hv).
  { apply status_in_spec in Hact. unfold live_statuses. right. done. }
  rewrite Hf in Hfail. injection Hfail as <- <-.
  assert (fail_row foldedSiblingsFail id why (clock s) r = fail_with why (clock s) r) as Hrow.
  { unfold fail_row. by rewrite bool_decide_eq_true_2 by exact (wf_id _ (proj1 Hs) id r Hr). }
  erewrite bind_run in E by (rewrite Get_run; cbn [card_requests set_requests]; by rewrite lookup_fmap, Hr).
  rewrite Hrow in E. apply bind_ok in E as (u & s2 & Hbar & E).
  apply bind_ok in E as (u2 & s3 & Hrec & [= <- <-]).
  assert (barriers s2 !! CardID r = Some (clock s) ∧ db_wf s2 ∧
    card_requests s2 = fail_row foldedSiblingsFail id why (clock s) <$> card_requests s) as (Hb & Hwf2 & Hreq).
  { assert (db_wf s2) as Hwf2.
    { assert (db_wf (set_requests s (fail_row foldedSiblingsFail id why (clock s) <$> card_requests s))) as Hwf1
        by (eapply failCardRequest_quiet; [exact Hs|exact Hf|exact Hs]).
      eapply SetBarrier_quiet; [exact Hwf1|exact Hbar|exact Hwf1]. }
    unfold SetCardForceReleaseBarrier, time_Now in Hbar. rewrite !bind_gets, bind_fail_if in Hbar.
    destruct (negb _); [done|]. injection Hbar as <- _. split_and!; [|done..]. simpl. by rewrite lookup_insert_eq. }
  pose proof (record_quiet uuid _ _ _ _ _ _ s2 s3 u2 Hwf2 Hrec) as Hq2.
  split_and!; [by apply Hq|apply (q_barriers _ _ Hq2); rewrite Hb; eauto| |].
  - rewrite (q_tasks _ _ Hq). by eapply (proj2 Hs).
  - intros Hslot. apply (q_slot _ _ _ Hq2) in Hslot as (k & x & Hx & Hk). rewrite Hreq, lookup_fmap in Hx.
    apply fmap_Some in Hx as (y & Hy & ->).
    destruct (fail_row_slot foldedSiblingsFail id why (clock s) y) as [_ [Hsame|Hsame]]; [|congruence].
    rewrite Hsame in Hk. pose proof (wf_unique _ (proj1 Hs)) as [Hu _]%violation_None.
    assert (k = id) as ->.
    { eapply (Hu k id y r); [done..|]. unfold slot_key. by rewrite Hact. }
    rewrite Hr in Hy. injection Hy as <-. rewrite Hrow in Hsame. unfold slot_key in Hsame. rewrite Hact in Hsame. done.
Qed.

(** C4.  The operator's force release sticks: after the running request of a
    card has been force-released, no amount of automatic activity (events,
    redeliveries, dispatch attempts, reconcile and recovery passes, further
    releases) starts the card again; every automatic claim on it keeps failing
    until a human operation clears the barrier. *)
Theorem force_release_sticks id reason s s1 sibs r s' :
  db_wf s → card_requests s !! id = Some r → is_active r = true →
  repo_ForceReleaseCardRequest uuid id reason s = (s1, inr sibs) →
  rtc (auto_step_on (CardID r)) s1 s' →
  CountActiveCardRequests (CardID r) s' = 0%nat ∧ HasCardForceReleaseBarrier (CardID r) s' = true ∧
  ∀ job key def, ∃ e, (repo_ClaimQueuedCardRequestsForDispatch (CardID r) job key def s').2 = inl e.
Proof.
  intros Hs Hr Hact Hrel Hrun.
  destruct (force_release_run id reason s s1 sibs r Hs Hrel Hr Hact) as (Hs1 & Hb1 & Ht1 & Hfree1).
  destruct (barred_run _ _ _ Hrun Hs1 Hb1 Ht1 Hfree1) as (Hs' & Hb & Ht & Hfree). split_and!.
  - unfold CountActiveCardRequests. destruct (select_where _ _) as [|x l] eqn:E; [done|]. exfalso. apply Hfree.
    assert (x ∈ x :: l) as Hx by by left. rewrite <- E in Hx. apply select_where_elem in Hx as [Hp [k Hk]].
    apply andb_true_iff in Hp as [Hc%bool_decide_eq_true Ha]. exists k, x. split; [done|].
    unfold slot_key. by rewrite Ha, Hc.
  - by apply bool_decide_eq_true.
  - intros job key def. rewrite repo_dispatch_run. unfold ClaimQueuedCardRequestsForDispatch, GetTaskStatus.
    destruct Ht as [t Ht]. erewrite bind_run by (unfold try_; rewrite bind_gets, Ht; reflexivity). cbv beta iota.
    destruct (negb _).
    + destruct (drain_run (CardID r) ("card is " +:+ quoted (TRStatus t) +:+ ", not parked or working") s' (proj1 Hs'))
        as (n & Hd & _). erewrite bind_run by exact Hd. simpl. eauto.
    + rewrite bind_gets. unfold HasCardForceReleaseBarrier. rewrite bool_decide_eq_true_2 by done. simpl. eauto.
Qed.

End slot_properties.

(** ** The theorems at concrete ledgers *)
Lemma sample_uuid_ne n : sample_uuid n ≠ "".
Proof. discriminate. Qed.

Definition attached_db : DB := sample_db attached_rows.
Definition launching_db : DB := sample_db launching_rows.

(** The continuation of "a1", task "t1", does not exist: its slot is released. *)
Lemma ReconcileCardRequestSlots_spec_witness :
  ∃ s' outs r', ReconcileCardRequestSlots sample_uuid attached_db = (s', inr outs) ∧
    card_requests s' !! "a1" = Some r' ∧ RStatus r' = CardRequestStatusFailed.
Proof.
  destruct (ReconcileCardRequestSlots_spec sample_uuid attached_db attached_db_wf) as (s' & outs & Hrun & _ & Hrows).
  destruct (Hrows "a1" (sample_row "a1" CardRequestStatusAttached "job1" "task" "t1" "" 1) eq_refl eq_refl)
    as (r' & o & Hr' & [Hst _] & _).
  exists s', outs, r'. split; [exact Hrun|]. split; [exact Hr'|exact Hst].
Defined.

Lemma RecoverLaunchingCardRequests_spec_witness :
  ∃ s' outs, RecoverLaunchingCardRequests sample_uuid launching_db = (s', inr outs) ∧
    ∀ k r, card_requests s' !! k = Some r → RStatus r ≠ CardRequestStatusLaunching.
Proof.
  destruct (RecoverLaunchingCardRequests_spec sample_uuid launching_db launching_db_wf eq_refl)
    as (s' & outs & Hrun & _ & _ & Hno).
  exists s', outs. split; [exact Hrun|exact Hno].
Defined.

(** A human command claiming the slot of a card with no requests. *)
Definition command_request : CardRequest := sample_row "" CardRequestStatusLaunching "job1" "" "" "" 0.
Definition commanded_db : DB :=
  (InTxDB (CreateCardRequest sample_uuid (Some CardRequestStatusLaunching) command_request) (sample_db ∅)).1.

Lemma ledger_one_running_request_witness : (CountActiveCardRequests "card" commanded_db ≤ 1)%nat.
Proof.
  apply (ledger_one_running_request sample_uuid sample_uuid_ne (sample_db ∅) commanded_db "card"); [reflexivity|].
  apply rtc_once. right. unfold commanded_db. apply create_step. reflexivity.
Defined.

Definition released_db : DB := (repo_ForceReleaseCardRequest sample_uuid "a1" "" attached_db).1.
Definition released_siblings : list ForceReleasedSibling :=
  [{| SibID := "f1"; SibCommandKey := "triage" |}].

Lemma force_release_sticks_witness :
  CountActiveCardRequests "card" (repo_ClaimQueuedCardRequestsForDispatch "card" "job2" "triage" no_definition released_db).1 = 0%nat.
Proof.
  apply (force_release_sticks sample_uuid sample_uuid_ne "a1" "" attached_db released_db released_siblings
    (sample_row "a1" CardRequestStatusAttached "job1" "task" "t1" "" 1)
    (repo_ClaimQueuedCardRequestsForDispatch "card" "job2" "triage" no_definition released_db).1).
  - exact attached_db_wf.
  - reflexivity.
  - reflexivity.
  - vm_compute. reflexivity.
  - apply rtc_once. split; [apply dispatch_step|]. eexists. vm_compute. reflexivity.
Defined.

Definition caused_row : CardRequest :=
  {| RID := "e1"; CardID := "card"; CommandKey := "triage"; CauseID := "act1"; RStatus := CardRequestStatusQueued;
     RInstruction := ""; Launched := no_definition; LauncherJobID := ""; TargetKind := ""; TargetID := "";
     FoldedInto := ""; Result := ""; RError := ""; RCreatedAt := 1; RUpdatedAt := 1 |}.
Definition caused_rows : gmap string CardRequest := {["e1" := caused_row]}.
Definition noted_action : Action :=
  {| AID := "act1"; ATaskID := "card"; AType := "noted"; APayload := REmpty; AFromStatus := ""; AToStatus := "";
     ACreatedAt := 1; Actor := ActorHuman |}.
Definition sample_resolver : CardEventResolver :=
  {| CardEventCommand := λ _, Some "triage"; CardEventCommandInTx := None; WorkspaceCardEventCommandInTx := None |}.

Lemma event_redelivery_is_noop_witness :
  card_requests (IngestCardEventRequest sample_uuid None noted_action (Some sample_resolver)
                   (sample_db caused_rows)).1 = caused_rows.
Proof.
  apply (event_redelivery_is_noop sample_uuid None noted_action (Some sample_resolver)
    (sample_db caused_rows) "e1" caused_row); [discriminate|reflexivity|reflexivity|discriminate].
Defined.
