(* ===== verification/TaskStore.v ===== *)
(** * The task table

    Models the task and action rows of internal/orchestrator/store.go, the
    card columns of card.go, task_identity.go and the transactor the workflow
    services use (WithinTx is [InTxDB], with the per-transaction action store
    of internal/server/api_store.go).

    The state [WDB] holds the full task rows next to the card request ledger
    of [CardRequests]; the ledger's own view of the tasks table is computed
    from the rows whenever a ledger operation runs ([on_ledger]).  The exec
    columns traits and instructions are kept as the values their JSON texts
    stand for.  Rows that fail to scan do not occur: the CHECK constraints of
    migration 0059, modelled by [row_check], keep the two task types apart. *)
From S2P Require Import Prelude Json Task Store CardDetail CardRequests CardDispatch.

(** ** State *)
Record ProjectRow : Type := {
  Perm : string;
  PWorkspace : string;
}.

(** A row of task_identities; an empty [IdProject] is SQL NULL. *)
Record IdentityRow : Type := {
  Identity : string;
  IdProject : string;
  IdWorkspace : string;
  IdTask : string;
  IdURL : string;
  IdDisplayName : string;
}.

Record WDB : Type := {
  rows : gmap string Task;
  led : DB;
  identities : list IdentityRow;
  project_rows : gmap string ProjectRow;
  workspaces : gset string;
}.

Definition set_rows (s : WDB) (t : gmap string Task) : WDB :=
  {| rows := t; led := led s; identities := identities s; project_rows := project_rows s;
     workspaces := workspaces s |}.
Definition set_led (s : WDB) (l : DB) : WDB :=
  {| rows := rows s; led := l; identities := identities s; project_rows := project_rows s;
     workspaces := workspaces s |}.
Definition set_identities (s : WDB) (i : list IdentityRow) : WDB :=
  {| rows := rows s; led := led s; identities := i; project_rows := project_rows s;
     workspaces := workspaces s |}.

(** Errors of the stores and of the services over them.  [WStatus] is a
    StatusError, an error that carries an HTTP status. *)
Inductive werr : Type :=
| WTaskNotFound
| WNoRows
| WStatus (code : Z)
| WDetail (e : detail_err)
| WCard (e : card_err)
| WIdentityConflict
| WIdentityBindingChanged
| WInternal (what : string).

#[export] Instance werr_eq_dec : EqDecision werr.
Proof. solve_decision. Defined.

Abbreviation taskm := (dbm WDB werr).

(** ** The ledger on the same database *)
Definition task_row (t : Task) : TaskRow :=
  {| TRType := Type_ t; TRProject := ProjectID t; TRWorkspace := WorkspaceID t; TRStatus := Status t |}.

Definition ledger_view (s : WDB) : DB :=
  {| card_requests := card_requests (led s); tasks := task_row <$> rows s; jobs := jobs (led s);
     barriers := barriers (led s); actions := actions (led s); clock := clock (led s); uuids := uuids (led s) |}.

Definition on_ledger {A} (m : cardm A) : taskm A := λ s,
  let '(l, r) := m (ledger_view s) in
  (set_led s l, match r with inl e => inl (WCard e) | inr a => inr a end).

Definition now : taskm Z := gets (λ s, clock (led s)).
Definition lift {A} (m : fallible A) : taskm A :=
  match m with
  | Ok a => mret a
  | Err e => throw (WDetail e)
  | Panic => throw (WInternal "panic")
  end.

(** ** Reading tasks *)

(** SQL's LIKE: [%] matches any text, [_] any character, ASCII letters
    without regard to case. *)
Fixpoint like (pattern : string) : string → bool :=
  match pattern with
  | EmptyString => λ s, str_empty s
  | String c pattern =>
      if bool_decide (c = "%"%char) then
        (fix any (s : string) : bool :=
           like pattern s || match s with EmptyString => false | String _ s => any s end)
      else λ s,
        match s with
        | EmptyString => false
        | String d s => (bool_decide (c = "_"%char) || bool_decide (upper c = upper d)) && like pattern s
        end
  end.

(** [GetTask]: by id, or by an id prefix of eight characters or more (the
    first matching row in no particular order when there are several). *)
Definition find_task (id : string) (s : WDB) : option Task :=
  match rows s !! id with
  | Some t => Some t
  | None =>
      if (8 <=? String.length id)%nat
      then head (filter (λ t, like (id +:+ "%") (ID t) = true) (map_to_list (rows s)).*2)
      else None
  end.

Definition GetTask (id : string) : taskm Task :=
  t ← gets (find_task id);
  match t with Some t => mret t | None => throw WTaskNotFound end.

Definition created_le (a b : Task) : Prop := (CreatedAt a ≤ CreatedAt b)%Z.
#[export] Instance created_le_dec : RelDecision created_le.
Proof. intros a b. unfold created_le. apply _. Defined.

Definition children_of (parentID : string) (s : WDB) : list Task :=
  filter (λ t, ParentID t = parentID) (map_to_list (rows s)).*2.

Definition ListChildren (parentID : string) (s : WDB) : list Task :=
  if str_empty parentID then [] else merge_sort created_le (children_of parentID s).

(** The computed column of [scanTask]. *)
Definition OpenChildCount (t : Task) (s : WDB) : nat :=
  length (filter (λ c, IsTerminalStatus (Status c) = false) (children_of (ID t) s)).

(** Actions recorded at the same instant in no particular order. *)
Definition action_le (a b : Action) : Prop := (ACreatedAt a ≤ ACreatedAt b)%Z.
#[export] Instance action_le_dec : RelDecision action_le.
Proof. intros a b. unfold action_le. apply _. Defined.
Definition ListActionsByTask (taskID : string) (s : WDB) : list Action :=
  merge_sort action_le (filter (λ a, ATaskID a = taskID) (actions (led s))).

(** ** Writing tasks *)
Inductive type_err : Type := ErrCardNil | ErrExecSet | ErrExecNil | ErrCardSet.

Definition validateTaskTypeConsistency (t : Task) : option type_err :=
  match Type_ t with
  | TaskTypeCard =>
      match Card t, Exec t with
      | None, _ => Some ErrCardNil
      | Some _, Some _ => Some ErrExecSet
      | Some _, None => None
      end
  | TaskTypeExecution =>
      match Exec t, Card t with
      | None, _ => Some ErrExecNil
      | Some _, Some _ => Some ErrCardSet
      | Some _, None => None
      end
  end.

(** The CHECK constraints of the tasks table. *)
Definition row_check (t : Task) : bool :=
  match validateTaskTypeConsistency t with
  | Some _ => false
  | None =>
      bool_decide (Status t ∈ match Type_ t with
                             | TaskTypeCard => [TaskStatusParked; TaskStatusWorking; TaskStatusDone; TaskStatusDropped]
                             | TaskTypeExecution => [TaskStatusPending; TaskStatusExecuting; TaskStatusAwaiting;
                                                     TaskStatusDone; TaskStatusAborted]
                             end)
  end
  && negb (str_empty (WorkspaceID t)).

Definition DefaultWorkspaceSlug : string := "default".

Definition RequireTaskPrimaryProject (p : ProjectRow) : taskm unit :=
  fail_if (bool_decide (Perm p = "fetch")) (WInternal "perm=fetch").

Definition validateTaskPrimaryProject (projectID : string) : taskm unit :=
  if str_empty projectID then mret ()
  else p ← gets (λ s, project_rows s !! projectID);
       match p with
       | None => throw (WInternal "task primary project")
       | Some p => RequireTaskPrimaryProject p
       end.

Definition ProjectWorkspaceID (projectID : string) (s : WDB) : string :=
  match project_rows s !! projectID with
  | Some p => if str_empty (PWorkspace p) then DefaultWorkspaceSlug else PWorkspace p
  | None => DefaultWorkspaceSlug
  end.

Definition set_Behavior (e : ExecAttrs) (b : string) : ExecAttrs :=
  {| Behavior := b; Traits := Traits e; Readonly := Readonly e; BranchPrefix := BranchPrefix e;
     BaseBranch := BaseBranch e; Payload := Payload e; TInstructions := TInstructions e; AutoStart := AutoStart e |}.

(** The row the UPDATE leaves: [type], [ref], [behavior], [idempotency_key],
    [created_at] and the card columns are not among the columns it sets. *)
Definition updated_row (old t : Task) (workspaceID : string) (time : Z) : Task :=
  {| ID := ID old; Type_ := Type_ old; ProjectID := ProjectID t; WorkspaceID := workspaceID;
     RemoteID := RemoteID t; Title := Title t; Description := Description t; Status := Status t;
     Ref := Ref old; ParentID := ParentID t; IdempotencyKey := IdempotencyKey old;
     CreatedAt := CreatedAt old; UpdatedAt := time; Card := Card old;
     Exec := match Exec t, Exec old with
             | Some e, Some e0 => Some (set_Behavior e (Behavior e0))
             | Some e, None => Some e
             | None, _ => None
             end |}.

(** The unique indexes on (ref, parent) and (idempotency key, parent), per
    project, or per workspace for tasks without a project. *)
Definition same_scope (a b : Task) : bool :=
  bool_decide (ParentID a = ParentID b) && bool_decide (ProjectID a = ProjectID b)
  && (negb (str_empty (ProjectID a)) || bool_decide (WorkspaceID a = WorkspaceID b)).
Definition clashes (t o : Task) : bool :=
  negb (bool_decide (ID o = ID t)) && same_scope t o
  && ((negb (str_empty (Ref t)) && bool_decide (Ref o = Ref t))
      || (negb (str_empty (IdempotencyKey t)) && bool_decide (IdempotencyKey o = IdempotencyKey t))).
Definition index_clash (t : Task) (s : WDB) : bool :=
  existsb (clashes t) (map_to_list (rows s)).*2.

Definition store_row (t : Task) : taskm unit :=
  _ ← fail_if (negb (row_check t)) (WInternal "constraint failed");
  clash ← gets (index_clash t);
  _ ← fail_if clash (WInternal "UNIQUE constraint failed");
  modify (λ s, set_rows s (<[ID t := t]> (rows s))).

(** The updated_at and workspace_id the code also writes back into the caller's
    struct are read again from the row by everything that follows. *)
Definition UpdateTask (t : Task) : taskm unit :=
  _ ← fail_if (bool_decide (is_Some (validateTaskTypeConsistency t))) (WInternal "update task");
  time ← now;
  old ← gets (λ s, rows s !! ID t);
  match old with
  | None => throw (WInternal "read task ownership")
  | Some old =>
      workspaceID ← (if bool_decide (ProjectID old = ProjectID t) then mret (WorkspaceID old)
                     else _ ← validateTaskPrimaryProject (ProjectID t);
                          gets (ProjectWorkspaceID (ProjectID t)));
      store_row (updated_row old t workspaceID time)
  end.

Definition with_updated_at (t : Task) (time : Z) : Task :=
  {| ID := ID t; Type_ := Type_ t; ProjectID := ProjectID t; WorkspaceID := WorkspaceID t;
     RemoteID := RemoteID t; Title := Title t; Description := Description t; Status := Status t;
     Ref := Ref t; ParentID := ParentID t; IdempotencyKey := IdempotencyKey t;
     CreatedAt := CreatedAt t; UpdatedAt := time; Card := Card t; Exec := Exec t |}.

Definition TouchTaskUpdatedAt (id : string) : taskm unit :=
  time ← now;
  modify (λ s, set_rows s (alter (λ t, with_updated_at t time) id (rows s))).

(** ** The card columns (card.go) *)
Definition GetTaskTriage (taskID : string) : taskm CardAttrs :=
  t ← gets (λ s, rows s !! taskID);
  match t ≫= Card with
  | Some c => mret {| CTaskID := taskID; Kind := Kind c; Urgency := Urgency c; WakeAt := WakeAt c;
                      WakeTaskID := WakeTaskID c; SuggestionVerb := SuggestionVerb c; Detail := Detail c |}
  | None => throw WNoRows
  end.

Definition with_card (t : Task) (c : CardAttrs) : Task :=
  {| ID := ID t; Type_ := Type_ t; ProjectID := ProjectID t; WorkspaceID := WorkspaceID t;
     RemoteID := RemoteID t; Title := Title t; Description := Description t; Status := Status t;
     Ref := Ref t; ParentID := ParentID t; IdempotencyKey := IdempotencyKey t;
     CreatedAt := CreatedAt t; UpdatedAt := UpdatedAt t; Card := Some c; Exec := Exec t |}.

Definition detail_or_empty (c : CardAttrs) : CardAttrs :=
  {| CTaskID := CTaskID c; Kind := Kind c; Urgency := Urgency c; WakeAt := WakeAt c; WakeTaskID := WakeTaskID c;
     SuggestionVerb := SuggestionVerb c; Detail := if len0 (Detail c) then raw_obj0 else Detail c |}.

Definition UpsertTaskTriage (tt : CardAttrs) : taskm unit :=
  _ ← fail_if (str_empty (CTaskID tt)) (WInternal "task_id is required");
  t ← gets (λ s, rows s !! CTaskID tt);
  match t with
  | Some t =>
      if bool_decide (Type_ t = TaskTypeCard)
      then modify (λ s, set_rows s (<[CTaskID tt := with_card t (detail_or_empty tt)]> (rows s)))
      else throw WTaskNotFound
  | None => throw WTaskNotFound
  end.

(** [ParkedFrom]: the status the task was last parked from; of two park
    actions recorded at the same instant, the later one. *)
Definition ParkedFrom (taskID : string) : taskm TaskStatus :=
  park ← gets (λ s, last (filter (λ a, AType a = "park") (ListActionsByTask taskID s)));
  match park with
  | None => throw WNoRows
  | Some a => match ParseTaskStatus (AFromStatus a) with
              | Some st => mret st
              | None => throw (WInternal "unrecognized from_status")
              end
  end.

(** ** Actions *)
Section actions.
Context (uuid : nat → string) (resolver : option CardEventResolver).

(** [CreateAction] with the store's card event resolver; [writer] is the
    request the context's token writes for, if any.  The action is handed on
    to the ingest with the id its row got. *)
Definition CreateAction (writer : option string) (a : Action) : taskm unit :=
  on_ledger (_ ← CardRequests.CreateAction uuid a;
             row ← gets (λ s, last (actions s));
             IngestCardEventRequest uuid writer (default a row) resolver).
End actions.

(** ** Identities (task_identity.go) *)
Record IdentityScope : Type := { ScProject : string; ScWorkspace : string }.

Definition slug_char (c : ascii) : bool :=
  let n := N_of_ascii c in
  (N.leb 97 n && N.leb n 122) || (N.leb 48 n && N.leb n 57) || N.eqb n 45.
Definition ValidWorkspaceSlug (s : string) : bool :=
  negb (str_empty s) && (String.length s <=? 64)%nat && forallb slug_char (String.list_ascii_of_string s).

Definition scope_valid (scope : IdentityScope) : bool :=
  negb (str_empty (ScProject scope))
  || (negb (str_empty (ScWorkspace scope)) && ValidWorkspaceSlug (ScWorkspace scope)).

Definition scope_predicate (scope : IdentityScope) (r : IdentityRow) : bool :=
  if str_empty (ScProject scope)
  then str_empty (IdProject r) && bool_decide (IdWorkspace r = ScWorkspace scope)
  else bool_decide (IdProject r = ScProject scope).

Definition bound_in (scope : IdentityScope) (identity : string) (r : IdentityRow) : bool :=
  scope_predicate scope r && bool_decide (Identity r = identity).

(** "" when there is no binding. *)
Definition queryIdentityTaskID (scope : IdentityScope) (identity : string) (s : WDB) : string :=
  match List.find (bound_in scope identity) (identities s) with Some r => IdTask r | None => "" end.

(** UNIQUE (project_id, identity), where NULLs never clash, and the index on
    (workspace_id, identity) for rows without a project. *)
Definition identity_clash (r o : IdentityRow) : bool :=
  bool_decide (Identity o = Identity r) && bool_decide (IdProject o = IdProject r)
  && (negb (str_empty (IdProject r)) || bool_decide (IdWorkspace o = IdWorkspace r)).

Definition insert_identity (r : IdentityRow) : taskm unit := λ s,
  if existsb (identity_clash r) (identities s) then (s, inl (WInternal "UNIQUE constraint failed"))
  else if negb (bool_decide (is_Some (rows s !! IdTask r))) then (s, inl (WInternal "FOREIGN KEY constraint failed"))
  else (set_identities s (identities s ++ [r]), inr ()).

Definition task_in_scope (scope : IdentityScope) (t : Task) : bool :=
  if str_empty (ScProject scope)
  then str_empty (ProjectID t) && bool_decide (WorkspaceID t = ScWorkspace scope)
  else bool_decide (ProjectID t = ScProject scope).

Definition LinkIdentityInScope (scope : IdentityScope) (identity taskID : string) : taskm unit :=
  _ ← fail_if (str_empty identity) (WInternal "identity must not be empty");
  _ ← fail_if (negb (scope_valid scope)) (WInternal "identity scope");
  _ ← fail_if (str_empty taskID) (WInternal "task id must not be empty");
  task ← GetTask taskID;
  _ ← fail_if (negb (task_in_scope scope task)) (WInternal "task belongs to a different scope");
  existing ← gets (queryIdentityTaskID scope identity);
  if negb (str_empty existing) then
    if bool_decide (existing = taskID) then mret () else throw WIdentityConflict
  else
    r ← try_ (insert_identity {| Identity := identity; IdProject := ScProject scope; IdWorkspace := WorkspaceID task;
                                 IdTask := taskID; IdURL := ""; IdDisplayName := "" |});
    match r with
    | inr _ => mret ()
    | inl e =>
        race ← gets (queryIdentityTaskID scope identity);
        if bool_decide (e = WInternal "UNIQUE constraint failed") && negb (str_empty race) then
          if bool_decide (race = taskID) then mret () else throw WIdentityConflict
        else throw e
    end.

Definition UnlinkIdentityInScope (scope : IdentityScope) (identity : string) : taskm unit :=
  _ ← fail_if (str_empty identity) (WInternal "identity must not be empty");
  _ ← fail_if (negb (scope_valid scope)) (WInternal "identity scope");
  modify (λ s, set_identities s (filter (λ r, bound_in scope identity r = false) (identities s))).

Definition UnlinkAllForTask (taskID : string) : taskm unit :=
  modify (λ s, set_identities s (filter (λ r, IdTask r ≠ taskID) (identities s))).

Definition ResolveIdentityInScope (scope : IdentityScope) (identity : string) : taskm Task :=
  _ ← fail_if (str_empty identity) (WInternal "identity must not be empty");
  _ ← fail_if (negb (scope_valid scope)) (WInternal "identity scope");
  taskID ← gets (queryIdentityTaskID scope identity);
  if str_empty taskID then throw WTaskNotFound else GetTask taskID.

Definition ListIdentitiesByTask (taskID : string) (s : WDB) : list string :=
  merge_sort String.le (Identity <$> filter (λ r, IdTask r = taskID) (identities s)).

(** [valid_url] is url.ParseRequestURI with the scheme and host check. *)
Definition ValidateIdentityURL (valid_url : string → bool) (raw : string) : bool :=
  str_empty raw || valid_url raw.

Definition UpdateIdentityMetadataInScope (valid_url : string → bool) (scope : IdentityScope)
    (identity taskID : string) (urlValue displayName : option string) : taskm unit :=
  _ ← fail_if (negb (scope_valid scope)) (WInternal "identity scope");
  _ ← fail_if (str_empty identity) (WInternal "identity metadata requires an identity");
  _ ← fail_if (str_empty taskID) (WInternal "identity metadata requires an expected task");
  _ ← fail_if (match urlValue with Some u => negb (ValidateIdentityURL valid_url u) | None => false end)
        (WInternal "identity URL");
  match urlValue, displayName with
  | None, None => mret ()
  | _, _ =>
      let hit r := bound_in scope identity r && bool_decide (IdTask r = taskID) in
      let set r := if hit r then {| Identity := Identity r; IdProject := IdProject r; IdWorkspace := IdWorkspace r;
                                    IdTask := IdTask r; IdURL := default (IdURL r) urlValue;
                                    IdDisplayName := default (IdDisplayName r) displayName |} else r in
      updated ← gets (λ s, length (filter (λ r, hit r = true) (identities s)));
      _ ← modify (λ s, set_identities s (set <$> identities s));
      fail_if (negb (bool_decide (updated = 1%nat))) WIdentityBindingChanged
  end.

(** ** Effects on the task rows

    A relation between states that only looks at the task rows, and that the
    writes of the card columns and of updated_at stay within. *)
Class RowRel (R : relation WDB) : Prop := {
  rr_refl :: Reflexive R;
  rr_trans :: Transitive R;
  rr_same s s' : rows s' = rows s → R s s';
  rr_card s id t c : rows s !! id = Some t → Type_ t = TaskTypeCard → R s (set_rows s (<[id := with_card t c]> (rows s)));
  rr_touch s id time : R s (set_rows s (alter (λ t, with_updated_at t time) id (rows s)));
}.

Section effects.
Context (R : relation WDB) `{!RowRel R}.

Lemma on_ledger_steps {A} (m : cardm A) : steps R (on_ledger m).
Proof. intros s. unfold on_ledger. destruct (m (ledger_view s)). by apply rr_same. Qed.

Lemma lift_steps {A} (m : fallible A) : steps R (lift m).
Proof. intros s. destruct m; simpl; reflexivity. Qed.

Lemma GetTask_steps id : steps R (GetTask id).
Proof. steps_tac. Qed.
Lemma GetTaskTriage_steps id : steps R (GetTaskTriage id).
Proof. steps_tac. Qed.

Lemma UpsertTaskTriage_steps c : steps R (UpsertTaskTriage c).
Proof.
  intros s. unfold UpsertTaskTriage. rewrite bind_fail_if. destruct (str_empty (CTaskID c)); [reflexivity|].
  rewrite bind_gets. destruct (rows s !! CTaskID c) as [t|] eqn:Ht; [|reflexivity].
  case_bool_decide as Hc; [|reflexivity]. by apply rr_card.
Qed.

Lemma TouchTaskUpdatedAt_steps id : steps R (TouchTaskUpdatedAt id).
Proof. intros s. unfold TouchTaskUpdatedAt, now. rewrite bind_gets. apply rr_touch. Qed.

Lemma UnlinkAllForTask_steps id : steps R (UnlinkAllForTask id).
Proof. intros s. by apply rr_same. Qed.

Lemma CreateAction_steps uuid resolver w a : steps R (CreateAction uuid resolver w a).
Proof. apply on_ledger_steps. Qed.

(** What an UPDATE of a task amounts to: nothing when it fails, and otherwise
    the replacement of a row by one the constraints admit. *)
Lemma UpdateTask_cases t s :
  (∃ e, UpdateTask t s = (s, inl e)) ∨
  (∃ old w row, rows s !! ID t = Some old ∧ validateTaskTypeConsistency t = None ∧
     row = updated_row old t w (clock (led s)) ∧ row_check row = true ∧ index_clash row s = false ∧
     (ProjectID old = ProjectID t → w = WorkspaceID old) ∧
     UpdateTask t s = (set_rows s (<[ID old := row]> (rows s)), inr ())).
Proof.
  unfold UpdateTask, now. rewrite bind_fail_if. case_bool_decide as Hv; [by left; eexists|].
  rewrite !bind_gets. destruct (rows s !! ID t) as [old|] eqn:Hold; [|by left; eexists].
  set (ws := if bool_decide (ProjectID old = ProjectID t) then _ else _).
  assert ((∃ e, ws s = (s, inl e)) ∨ (∃ w, ws s = (s, inr w) ∧ (ProjectID old = ProjectID t → w = WorkspaceID old)))
    as [[e Hw]|(w & Hw & Hpw)].
  { unfold ws. case_bool_decide as Hp; [right; by eexists|].
    unfold validateTaskPrimaryProject. destruct (str_empty (ProjectID t)).
    - right. eexists. split; [done|]. by intros ?.
    - destruct (project_rows s !! ProjectID t) as [p|] eqn:Hpr.
      + unfold RequireTaskPrimaryProject, mbind, dbm_bind, gets. simpl. rewrite Hpr. unfold fail_if.
        case_bool_decide; [left; by eexists|right]. eexists. split; [done|]. by intros ?.
      + left. unfold mbind, dbm_bind, gets. simpl. rewrite Hpr. by eexists. }
  { left. exists e. by rewrite (bind_stop _ _ _ _ _ Hw). }
  rewrite (bind_run _ _ _ _ _ Hw). unfold store_row.
  destruct (row_check _) eqn:Hc; rewrite bind_fail_if; simpl; [|left; by eexists].
  rewrite bind_gets, bind_fail_if. destruct (index_clash _ s) eqn:Hi; [left; by eexists|].
  right. exists old, w, (updated_row old t w (clock (led s))).
  split_and!; try done. by destruct (validateTaskTypeConsistency t); [destruct Hv|].
Qed.
End effects.

#[export] Hint Resolve on_ledger_steps lift_steps GetTask_steps GetTaskTriage_steps UpsertTaskTriage_steps
  TouchTaskUpdatedAt_steps UnlinkAllForTask_steps CreateAction_steps : steps.

(** ** Three such relations *)

(** Every row is what its type says: the attributes of its own type and not of
    the other, and a status of its type's vocabulary. *)
Definition typed (s : WDB) : Prop := ∀ id t, rows s !! id = Some t → ID t = id ∧ row_check t = true.
Definition keeps_typed (s s' : WDB) : Prop := typed s → typed s'.

(** No task changes its status (or its type, or disappears). *)
Definition same_status (t t' : Task) : Prop := Status t' = Status t ∧ Type_ t' = Type_ t.
Definition statuses_kept (s s' : WDB) : Prop :=
  ∀ id t, rows s !! id = Some t → ∃ t', rows s' !! id = Some t' ∧ same_status t t'.
Definition card_statuses_kept (s s' : WDB) : Prop :=
  ∀ id t, rows s !! id = Some t → Type_ t = TaskTypeCard → ∃ t', rows s' !! id = Some t' ∧ same_status t t'.

Lemma row_check_card t c : row_check t = true → Type_ t = TaskTypeCard → row_check (with_card t c) = true.
Proof.
  unfold row_check, validateTaskTypeConsistency. simpl. intros Hc Ht. rewrite Ht in Hc |- *.
  by destruct (Card t), (Exec t).
Qed.

Lemma with_updated_at_check t time : row_check (with_updated_at t time) = row_check t.
Proof. done. Qed.

#[export] Instance keeps_typed_row : RowRel keeps_typed.
Proof.
  split.
  - by intros s Hs.
  - intros a b c Hab Hbc Ha. by apply Hbc, Hab.
  - intros s s' Hr Hs id t Hid. apply Hs. by rewrite <- Hr.
  - intros s id t c Hid Ht Hs j u Hj. simpl in Hj. destruct (decide (id = j)) as [->|Hne].
    + rewrite lookup_insert_eq in Hj. simplify_eq. destruct (Hs _ _ Hid). split; [done|]. by apply row_check_card.
    + rewrite lookup_insert_ne in Hj by done. by apply Hs.
  - intros s id time Hs j u Hj. simpl in Hj. rewrite lookup_alter in Hj. destruct (decide (id = j)) as [->|Hne].
    + rewrite fmap_Some in Hj. destruct Hj as (t & Ht & ->). destruct (Hs _ _ Ht). by rewrite with_updated_at_check.
    + by apply Hs.
Qed.

Lemma pointwise_row_rel (P : Task → Prop) (R : relation WDB) :
  (∀ s s', R s s' ↔ ∀ id t, rows s !! id = Some t → P t → ∃ t', rows s' !! id = Some t' ∧ same_status t t') →
  (∀ t t', same_status t t' → P t → P t') → RowRel R.
Proof.
  intros HR HP. split.
  - intros s. apply HR. intros id t Hid _. by exists t.
  - intros a b c. rewrite !HR. intros Hab Hbc id t Hid Ht. destruct (Hab _ _ Hid Ht) as (t1 & H1 & Hs1).
    destruct (Hbc _ _ H1) as (t2 & H2 & Hs2); [by eapply HP|]. exists t2. split; [done|].
    destruct Hs1, Hs2. split; congruence.
  - intros s s' Hr. apply HR. intros id t Hid _. exists t. by rewrite Hr.
  - intros s id t c Hid Hc. apply HR. intros j u Hj _. simpl. destruct (decide (id = j)) as [->|Hne].
    + rewrite lookup_insert_eq. simplify_eq. by eexists.
    + rewrite lookup_insert_ne by done. by exists u.
  - intros s id time. apply HR. intros j u Hj _. simpl. rewrite lookup_alter. destruct (decide (id = j)) as [->|Hne].
    + rewrite Hj. by eexists.
    + by exists u.
Qed.

#[export] Instance statuses_kept_row : RowRel statuses_kept.
Proof. apply (pointwise_row_rel (λ _, True)); [|done]. intros s s'. unfold statuses_kept. naive_solver. Qed.
#[export] Instance card_statuses_kept_row : RowRel card_statuses_kept.
Proof.
  apply (pointwise_row_rel (λ t, Type_ t = TaskTypeCard)); [done|]. intros t t' [_ Ht]. congruence.
Qed.

Lemma UpdateTask_keeps_typed t : steps keeps_typed (UpdateTask t).
Proof.
  intros s Hs. destruct (UpdateTask_cases t s) as [[e ->]|(old & w & row & Hold & _ & -> & Hc & _ & _ & ->)]; [done|].
  destruct (Hs _ _ Hold) as [Hid _]. intros j u Hj. simpl in Hj. destruct (decide (ID old = j)) as [<-|Hne].
  - rewrite lookup_insert_eq in Hj. by simplify_eq.
  - rewrite lookup_insert_ne in Hj by done. by apply Hs.
Qed.

(** An UPDATE with an execution task leaves every card alone. *)
Lemma UpdateTask_keeps_cards t : Type_ t = TaskTypeExecution → steps (λ s s', typed s → card_statuses_kept s s') (UpdateTask t).
Proof.
  intros Ht s Hs. destruct (UpdateTask_cases t s) as [[e ->]|(old & w & row & Hold & Hv & -> & Hc & _ & _ & ->)]; [reflexivity|].
  intros j u Hj Hu. simpl. destruct (decide (ID old = j)) as [<-|Hne].
  - exfalso. destruct (Hs _ _ Hold) as [Hid _]. rewrite Hid, Hold in Hj. simplify_eq.
    unfold validateTaskTypeConsistency in Hv. rewrite Ht in Hv.
    unfold row_check, validateTaskTypeConsistency in Hc. simpl in Hc. rewrite Hu in Hc.
    destruct (Exec t), (Card t); try done. destruct (Card u), (Exec u); done.
  - rewrite lookup_insert_ne by done. by exists u.
Qed.

(** Rows stay typed and no card moves. *)
Definition cards_kept (s s' : WDB) : Prop := typed s → typed s' ∧ card_statuses_kept s s'.

#[export] Instance cards_kept_row : RowRel cards_kept.
Proof.
  split.
  - intros s Hs. split; [done|reflexivity].
  - intros a b c Hab Hbc Ha. destruct (Hab Ha) as [Hb ?]. destruct (Hbc Hb). split; [done|by transitivity b].
  - intros s s' Hr Hs. split; [by apply (rr_same (R := keeps_typed) s)|by apply rr_same].
  - intros s id t c Hid Ht Hs. split; [by apply (rr_card (R := keeps_typed) s)|by apply rr_card].
  - intros s id time Hs. split; [by apply (rr_touch (R := keeps_typed) s)|by apply rr_touch].
Qed.

Lemma UpdateTask_cards_kept t : Type_ t = TaskTypeExecution → steps cards_kept (UpdateTask t).
Proof. intros Ht s Hs. split; [by apply UpdateTask_keeps_typed|by apply UpdateTask_keeps_cards]. Qed.

#[export] Hint Resolve UpdateTask_keeps_typed : steps.
