(* ===== verification/TaskRows.v ===== *)
(** * Creating, listing and deleting tasks

    Models the rest of the task table of internal/orchestrator/store.go: the
    get-or-create insert and its look-ups, listing, deletion and garbage
    collection with their cascades, and CreateTaskLinkedToCardRequest of
    repository.go.

    [uuid] and [refname]/[suffix] stand for the generators of ids and of
    readable references; [to_lower] is strings.ToLower. *)
From S2P Require Import Prelude Json Task Store CardDetail CardRequests CardDispatch TaskStore.

(** ** Look-ups *)
Definition hex_char (c : ascii) : bool :=
  let n := N_of_ascii c in (N.leb 48 n && N.leb n 57) || (N.leb 97 n && N.leb n 102).
Definition uuid_groups : list nat := [8; 4; 4; 4; 12]%nat.

(** [n] hex digits, and what is left. *)
Fixpoint hex_digits (n : nat) (s : list ascii) : option (list ascii) :=
  match n, s with
  | 0, _ => Some s
  | S n, c :: s => if hex_char c then hex_digits n s else None
  | _, [] => None
  end.
Fixpoint hex_groups (groups : list nat) (s : list ascii) : bool :=
  match groups with
  | [] => false
  | [n] => match hex_digits n s with Some [] => true | _ => false end
  | n :: groups => match hex_digits n s with
                   | Some (c :: s) => bool_decide (c = "-"%char) && hex_groups groups s
                   | _ => false
                   end
  end.
Definition isUUID (s : string) : bool := hex_groups uuid_groups (String.list_ascii_of_string s).

Definition first_row (P : Task → bool) (s : WDB) : option Task :=
  head (filter (λ t, P t = true) (map_to_list (rows s)).*2).

(** GetTask with ErrTaskNotFound as no task. *)
Definition FindTaskByRef (ref parentID projectID : string) (s : WDB) : option Task :=
  if str_empty projectID || str_empty ref then None
  else
    let by_ref := first_row (λ t, bool_decide (Ref t = ref) && bool_decide (ParentID t = parentID)
                                  && bool_decide (ProjectID t = projectID)) s in
    match (if isUUID ref then find_task ref s else None) with
    | Some t => if bool_decide (ParentID t = parentID) && bool_decide (ProjectID t = projectID) then Some t else by_ref
    | None => by_ref
    end.

Definition FindTaskByIdempotencyKey (projectID parentID key : string) (s : WDB) : option Task :=
  if str_empty projectID || str_empty key then None
  else first_row (λ t, bool_decide (ProjectID t = projectID) && bool_decide (ParentID t = parentID)
                       && bool_decide (IdempotencyKey t = key)) s.

Definition FindWorkspaceTask (workspaceID parentID ref key : string) (s : WDB) : option Task :=
  if str_empty ref && str_empty key then None
  else
    let in_scope t := str_empty (ProjectID t) && bool_decide (WorkspaceID t = workspaceID)
                      && bool_decide (ParentID t = parentID) in
    let by_column := first_row (λ t, in_scope t && (if str_empty ref then bool_decide (IdempotencyKey t = key)
                                                    else bool_decide (Ref t = ref))) s in
    match (if isUUID ref then find_task ref s else None) with
    | Some t => if in_scope t then Some t else by_column
    | None => by_column
    end.

Definition findTaskCreateKey (task : Task) (ref key : string) (s : WDB) : option Task :=
  if str_empty (ProjectID task) then FindWorkspaceTask (WorkspaceID task) (ParentID task) ref key s
  else if negb (str_empty ref) then FindTaskByRef ref (ParentID task) (ProjectID task) s
  else FindTaskByIdempotencyKey (ProjectID task) (ParentID task) key s.

(** The most recently created one. *)
Definition remote_le (a b : Task) : Prop :=
  (CreatedAt b < CreatedAt a)%Z ∨ (CreatedAt a = CreatedAt b ∧ String.le (ID b) (ID a)).
#[export] Instance remote_le_dec : RelDecision remote_le.
Proof. intros a b. unfold remote_le. apply _. Defined.
Definition FindTaskByRemote (remoteID : string) (s : WDB) : option Task :=
  head (merge_sort remote_le (filter (λ t, RemoteID t = remoteID) (map_to_list (rows s)).*2)).

(** ** Listing *)
Record TaskFilter : Type := {
  FStatus : string;
  FProjectID : string;
  FBehavior : string;
  FWorkspaceID : string;
  FTitle : string;
  FParentID : option string;
  ActiveOnly : bool;
  Limit : Z;
  Offset : Z;
}.

Definition is_terminal (st : TaskStatus) : bool := bool_decide (st ∈ filter (λ s, IsTerminalStatus s = true) KnownTaskStatuses).

Definition status_filter (f s_ : string) (s : WDB) (t : Task) : bool :=
  if bool_decide (f = "open") then
    negb (is_terminal s_ || bool_decide (s_ = TaskStatusParked))
    || bool_decide (Exists (λ c, is_terminal (Status c) = false) (children_of (ID t) s))
  else if bool_decide (f = "closed") then is_terminal s_
  else if bool_decide (f = "cards_live") || bool_decide (f = "triage") then
    bool_decide (Type_ t = TaskTypeCard) && bool_decide (s_ ∈ [TaskStatusParked; TaskStatusWorking])
  else str_empty f || bool_decide (s_ = f).

Definition listed_le (a b : Task) : Prop :=
  (UpdatedAt b < UpdatedAt a)%Z ∨ (UpdatedAt a = UpdatedAt b ∧ String.le (ID a) (ID b)).
#[export] Instance listed_le_dec : RelDecision listed_le.
Proof. intros a b. unfold listed_le. apply _. Defined.

Section listing.
Context (to_lower : string → string).
(** SQLite's LOWER. *)
Definition lower_char (c : ascii) : ascii :=
  let n := N_of_ascii c in if N.leb 65 n && N.leb n 90 then ascii_of_N (n + 32) else c.
Definition sql_lower (s : string) : string :=
  String.string_of_list_ascii (lower_char <$> String.list_ascii_of_string s).

Definition task_matches (f : TaskFilter) (s : WDB) (t : Task) : bool :=
  status_filter (FStatus f) (Status t) s t
  && (negb (ActiveOnly f) || negb (is_terminal (Status t)))
  && (str_empty (FProjectID f) || bool_decide (ProjectID t = FProjectID f))
  && (str_empty (FBehavior f) || bool_decide (Behavior <$> Exec t = Some (FBehavior f)))
  && (str_empty (FWorkspaceID f) || bool_decide (WorkspaceID t = FWorkspaceID f))
  && (str_empty (FTitle f) || like ("%" +:+ to_lower (FTitle f) +:+ "%") (sql_lower (Title t)))
  && match FParentID f with Some p => bool_decide (ParentID t = p) | None => true end.

Definition ListTasks (f : TaskFilter) (s : WDB) : list Task :=
  let all := merge_sort listed_le (filter (λ t, task_matches f s t = true) (map_to_list (rows s)).*2) in
  let rest := if (0 <? Offset f)%Z then drop (Z.to_nat (Offset f)) all else all in
  if (0 <? Limit f)%Z then take (Z.to_nat (Limit f)) rest else rest.
End listing.

(** ** Creation *)
Definition rejectIdempotencyKeyTypeMismatch (requested existing : Task) : bool :=
  negb (bool_decide (Type_ existing = Type_ requested)).

Definition refExistsInParent (ref parentID : string) (s : WDB) : bool :=
  bool_decide (Exists (λ t, Ref t = ref ∧ ParentID t = parentID) (map_to_list (rows s)).*2).

Definition WorkspaceExists (slug : string) (s : WDB) : bool := bool_decide (slug ∈ workspaces s).

Definition set_Workspace (t : Task) (w : string) : Task :=
  {| ID := ID t; Type_ := Type_ t; ProjectID := ProjectID t; WorkspaceID := w; RemoteID := RemoteID t; Title := Title t;
     Description := Description t; Status := Status t; Ref := Ref t; ParentID := ParentID t;
     IdempotencyKey := IdempotencyKey t; CreatedAt := CreatedAt t; UpdatedAt := UpdatedAt t; Card := Card t; Exec := Exec t |}.

Definition payload_or_empty (e : ExecAttrs) : ExecAttrs :=
  if len0 (Payload e)
  then {| Behavior := Behavior e; Traits := Traits e; Readonly := Readonly e; BranchPrefix := BranchPrefix e;
          BaseBranch := BaseBranch e; Payload := raw_obj0; TInstructions := TInstructions e; AutoStart := AutoStart e |}
  else e.

(** The row the INSERT writes. *)
Definition created (t : Task) (id ref w : string) (now : Z) : Task :=
  {| ID := id; Type_ := Type_ t; ProjectID := ProjectID t; WorkspaceID := w; RemoteID := RemoteID t; Title := Title t;
     Description := Description t;
     Status := if str_empty (Status t)
               then match Type_ t with TaskTypeCard => TaskStatusParked | TaskTypeExecution => TaskStatusPending end
               else Status t;
     Ref := ref; ParentID := ParentID t; IdempotencyKey := IdempotencyKey t; CreatedAt := now; UpdatedAt := now;
     Card := detail_or_empty <$> Card t; Exec := payload_or_empty <$> Exec t |}.

Definition unique_failed : werr := WInternal "UNIQUE constraint failed".

Definition insert_task (t : Task) : taskm unit :=
  _ ← fail_if (negb (row_check t)) (WInternal "CHECK constraint failed");
  dup ← gets (λ s, bool_decide (is_Some (rows s !! ID t)) || index_clash t s);
  _ ← fail_if dup unique_failed;
  modify (λ s, set_rows s (<[ID t := t]> (rows s))).

Section creation.
Context (uuid : nat → string) (refname : nat → nat → string) (suffix : nat → string).

Definition maxRetries : nat := 5.
Fixpoint ref_attempts (seed n i : nat) (parentID : string) (s : WDB) : string :=
  match n with
  | 0 => refname seed i +:+ "_" +:+ suffix seed
  | S n => if refExistsInParent (refname seed i) parentID s then ref_attempts seed n (S i) parentID s else refname seed i
  end.
Definition generateUniqueRef (parentID : string) : taskm string :=
  gets (λ s, ref_attempts (uuids (led s)) maxRetries 0 parentID s).

(** What a failed INSERT falls back to. *)
Definition create_race (t : Task) (e : werr) : taskm Task :=
  if negb (bool_decide (e = unique_failed)) then throw (WInternal "insert task")
  else
    by_ref ← gets (λ s, if str_empty (Ref t) then None else findTaskCreateKey t (Ref t) "" s);
    match by_ref with
    | Some existing => mret existing
    | None =>
        by_key ← gets (λ s, if str_empty (IdempotencyKey t) then None else findTaskCreateKey t "" (IdempotencyKey t) s);
        match by_key with
        | Some existing => if rejectIdempotencyKeyTypeMismatch t existing then throw (WInternal "idempotency_key") else mret existing
        | None => throw (WInternal "insert task")
        end
    end.

(** The insert of a task no look-up found. *)
Definition insert_new (t : Task) : taskm Task :=
  _ ← fail_if (bool_decide (is_Some (validateTaskTypeConsistency t))) (WInternal "create task");
  id ← (if str_empty (ID t) then on_ledger (new_uuid uuid) else mret (ID t));
  time ← now;
  ref ← (if str_empty (Ref t) && negb (str_empty (ParentID t)) then generateUniqueRef (ParentID t) else mret (Ref t));
  _ ← validateTaskPrimaryProject (ProjectID t);
  w ← (if negb (str_empty (ProjectID t)) then gets (ProjectWorkspaceID (ProjectID t))
       else mret (if str_empty (WorkspaceID t) then DefaultWorkspaceSlug else WorkspaceID t));
  _ ← fail_if (negb (ValidWorkspaceSlug w)) (WInternal "workspace slug");
  known ← gets (WorkspaceExists w);
  _ ← fail_if (str_empty (ProjectID t) && negb known) (WInternal "workspace not found");
  let row := created t id ref w time in
  r ← try_ (insert_task row);
  match r with
  | inr _ => mret row
  | inl e => create_race row e
  end.

(** The task it leaves in its argument. *)
Definition CreateTask (t : Task) : taskm Task :=
  let t := if str_empty (ProjectID t) && str_empty (WorkspaceID t) then set_Workspace t DefaultWorkspaceSlug else t in
  by_ref ← gets (λ s, if str_empty (Ref t) then None else findTaskCreateKey t (Ref t) "" s);
  match by_ref with
  | Some existing => mret existing
  | None =>
      by_key ← gets (λ s, if str_empty (IdempotencyKey t) then None else findTaskCreateKey t "" (IdempotencyKey t) s);
      match by_key with
      | Some existing => if rejectIdempotencyKeyTypeMismatch t existing then throw (WInternal "idempotency_key") else mret existing
      | None => insert_new t
      end
  end.

Definition createTaskLinkedToCardRequest (t : Task) (requestID ownerJobID : string) : taskm Task :=
  t ← CreateTask t;
  r ← try_ (on_ledger (AttachCardRequestOwned requestID ownerJobID CardRequestTargetKindTask (ID t)));
  match r with
  | inr _ => mret t
  | inl (WCard ErrCardRequestInvalidTransition) =>
      existing ← on_ledger (GetCardRequest requestID);
      if bool_decide (TargetKind existing = CardRequestTargetKindTask) && bool_decide (TargetID existing = ID t)
      then mret t
      else throw (WCard ErrCardRequestInvalidTransition)
  | inl e => throw e
  end.

Definition CreateTaskLinkedToCardRequest (t : Task) (requestID ownerJobID : string) : taskm Task :=
  InTxDB (createTaskLinkedToCardRequest t requestID ownerJobID).
End creation.

(** ** Deletion *)

(** Whether the row stored under an id is one of [dead]. *)
Definition gone (dead : Task → bool) (s : WDB) (id : string) : bool :=
  match rows s !! id with Some t => dead t | None => false end.

(** A job without a task has NULL there, which no condition on task_id selects. *)
Definition job_of (p : string → bool) (j : JobRow) : bool := negb (str_empty (JTaskID j)) && p (JTaskID j).

(** DELETE FROM actions and DELETE FROM jobs, with a condition on task_id. *)
Definition delete_actions (p : string → bool) (s : WDB) : WDB :=
  let l := led s in
  set_led s {| card_requests := card_requests l; tasks := tasks l; jobs := jobs l; barriers := barriers l;
               actions := filter (λ a, p (ATaskID a) = false) (actions l); clock := clock l; uuids := uuids l |}.
Definition delete_jobs (p : string → bool) (s : WDB) : WDB :=
  let l := led s in
  set_led s {| card_requests := card_requests l; tasks := tasks l; jobs := filter (λ kv, job_of p kv.2 = false) (jobs l);
               barriers := barriers l; actions := actions l; clock := clock l; uuids := uuids l |}.

(** DELETE FROM tasks: the foreign keys of actions and jobs restrict it, those
    of card requests, barriers and identities cascade (ON DELETE CASCADE). *)
Definition restricted (dead : Task → bool) (s : WDB) : bool :=
  existsb (λ a, gone dead s (ATaskID a)) (actions (led s)) || existsb (job_of (gone dead s)) (map_to_list (jobs (led s))).*2.
Definition cascade (dead : Task → bool) (s : WDB) : WDB :=
  let l := led s in
  {| rows := filter (λ kv, dead kv.2 = false) (rows s);
     led := {| card_requests := filter (λ kv, gone dead s (CardID kv.2) = false) (card_requests l);
               tasks := tasks l; jobs := jobs l;
               barriers := filter (λ kv, gone dead s kv.1 = false) (barriers l);
               actions := actions l; clock := clock l; uuids := uuids l |};
     identities := filter (λ r, gone dead s (IdTask r) = false) (identities s);
     project_rows := project_rows s; workspaces := workspaces s |}.
Definition delete_rows (dead : Task → bool) : taskm unit :=
  held ← gets (restricted dead);
  _ ← fail_if held (WInternal "FOREIGN KEY constraint failed");
  modify (cascade dead).

Definition DeleteTask (id : string) : taskm unit :=
  _ ← GetTask id;
  _ ← modify (delete_actions (λ i, bool_decide (i = id)));
  _ ← modify (delete_jobs (λ i, bool_decide (i = id)));
  delete_rows (λ t, bool_decide (ID t = id)).

Definition repo_DeleteTask (id : string) : taskm unit := InTxDB (DeleteTask id).

(** TaskAppService.DeleteTask (internal/api/task_service.go). *)
Definition service_DeleteTask (id : string) (force : bool) : taskm unit :=
  task ← map_err (λ _, WStatus 404) (GetTask id);
  _ ← fail_if (negb force && bool_decide (Status task = TaskStatusExecuting)) (WStatus 409);
  map_err (λ _, WStatus 500) (repo_DeleteTask id).

Record GCResult : Type := { GTasks : nat; GJobs : nat; GActions : nat; GRuntimes : nat }.

Definition gc_task (statuses : list string) (cutoff : option Z) (t : Task) : bool :=
  bool_decide (Status t ∈ statuses) && match cutoff with Some c => (UpdatedAt t <? c)%Z | None => true end.
Definition gc_taskless (cutoff : option Z) (j : JobRow) : bool :=
  str_empty (JTaskID j) && bool_decide (JStatus j ∈ ["completed"; "failed"])
  && match cutoff with Some c => (JUpdatedAt j <? c)%Z | None => true end.

Definition runtimes_of (js : list JobRow) : nat :=
  length (remove_dups (JRuntimeID <$> filter (λ j, JRuntimeID j ≠ "") js)).

Definition gc_counts (dead : Task → bool) (cutoff : option Z) (s : WDB) : GCResult :=
  let all := (map_to_list (jobs (led s))).*2 in
  let of_tasks := filter (λ j, job_of (gone dead s) j = true) all in
  let taskless := filter (λ j, gc_taskless cutoff j = true) all in
  {| GTasks := length (filter (λ t, dead t = true) (map_to_list (rows s)).*2);
     GJobs := length of_tasks + length taskless;
     GActions := length (filter (λ a, gone dead s (ATaskID a) = true) (actions (led s)));
     GRuntimes := runtimes_of of_tasks + runtimes_of taskless |}.

Definition without_taskless (cutoff : option Z) (s : WDB) : WDB :=
  let l := led s in
  set_led s {| card_requests := card_requests l; tasks := tasks l;
               jobs := filter (λ kv, gc_taskless cutoff kv.2 = false) (jobs l);
               barriers := barriers l; actions := actions l; clock := clock l; uuids := uuids l |}.

(** The count of runtimes is only computed by a dry run. *)
Definition GCTasks (statuses : list string) (olderThan : Z) (dryRun : bool) : taskm GCResult :=
  if bool_decide (statuses = []) then mret {| GTasks := 0; GJobs := 0; GActions := 0; GRuntimes := 0 |}
  else
    time ← now;
    let cutoff := if (0 <? olderThan)%Z then Some (time - olderThan)%Z else None in
    let dead := gc_task statuses cutoff in
    counts ← gets (gc_counts dead cutoff);
    if dryRun then mret counts
    else _ ← modify (λ s, delete_actions (gone dead s) s);
         _ ← modify (λ s, delete_jobs (gone dead s) s);
         _ ← modify (without_taskless cutoff);
         _ ← delete_rows dead;
         mret {| GTasks := GTasks counts; GJobs := GJobs counts; GActions := GActions counts; GRuntimes := 0 |}.

(** ** Invariants of the tables *)

(** No two tasks share a create key, and every row that names a task names one
    that exists. *)
Definition unique_rows (s : WDB) : Prop := ∀ id t, rows s !! id = Some t → index_clash t s = false.
Record references_ok (s : WDB) : Prop := {
  ref_actions : ∀ a, a ∈ actions (led s) → is_Some (rows s !! ATaskID a);
  ref_requests : ∀ k r, card_requests (led s) !! k = Some r → is_Some (rows s !! CardID r);
  ref_barriers : ∀ k b, barriers (led s) !! k = Some b → is_Some (rows s !! k);
  ref_jobs : ∀ k j, jobs (led s) !! k = Some j → JTaskID j = "" ∨ is_Some (rows s !! JTaskID j);
  ref_identities : ∀ r, r ∈ identities s → is_Some (rows s !! IdTask r);
}.
Record tables_ok (s : WDB) : Prop := {
  tables_typed : typed s;
  tables_unique : unique_rows s;
  tables_refs : references_ok s;
}.

Lemma index_clash_false t s :
  index_clash t s = false ↔ ∀ id o, rows s !! id = Some o → clashes t o = false.
Proof.
  unfold index_clash. rewrite <- not_true_iff_false, existsb_exists. split.
  - intros Hn id o Ho. destruct (clashes t o) eqn:E; [|done]. destruct Hn. exists o. split; [|done].
    apply list_elem_of_In, list_elem_of_fmap. exists (id, o). split; [done|]. by apply elem_of_map_to_list.
  - intros Hall (o & Hin%list_elem_of_In & Hc). apply list_elem_of_fmap in Hin as ([id o'] & -> & Hin%elem_of_map_to_list).
    simpl in Hc. by rewrite (Hall id o' Hin) in Hc.
Qed.

Lemma clashes_sym t o : clashes t o = clashes o t.
Proof.
  unfold clashes, same_scope. apply eq_true_iff_eq.
  rewrite !andb_true_iff, !orb_true_iff, !andb_true_iff, !negb_true_iff, !bool_decide_eq_false, !bool_decide_eq_true.
  unfold str_empty. rewrite !bool_decide_eq_false. split; intros; destruct_and?; intuition congruence.
Qed.

(** What the deletions come to: the tables without the tasks [dead] and all that
    names them. *)
Definition without (dead : Task → bool) (s : WDB) : WDB :=
  cascade dead (delete_jobs (gone dead s) (delete_actions (gone dead s) s)).

Lemma without_row dead s id t : rows (without dead s) !! id = Some t ↔ rows s !! id = Some t ∧ dead t = false.
Proof. simpl. by rewrite map_lookup_filter_Some. Qed.

Lemma without_alive dead s id :
  gone dead s id = false → is_Some (rows s !! id) → is_Some (rows (without dead s) !! id).
Proof. unfold gone. intros Hd [t Ht]. rewrite Ht in Hd. exists t. by apply without_row. Qed.

(** Once actions and jobs are deleted, the foreign keys let the rows go. *)
Lemma restricted_false dead s :
  (∀ a, a ∈ actions (led s) → gone dead s (ATaskID a) = false) →
  (∀ k j, jobs (led s) !! k = Some j → job_of (gone dead s) j = false) → restricted dead s = false.
Proof.
  intros Ha Hj. unfold restricted. apply orb_false_iff. split; apply not_true_iff_false; intros (x & Hin%list_elem_of_In & Hx)%existsb_exists.
  - by rewrite Ha in Hx.
  - apply list_elem_of_fmap in Hin as ([k j] & -> & Hk%elem_of_map_to_list). simpl in Hx. by rewrite (Hj k j) in Hx.
Qed.

Lemma without_unrestricted dead cutoff s :
  let s1 := delete_jobs (gone dead s) (delete_actions (gone dead s) s) in
  restricted dead s1 = false ∧ restricted dead (without_taskless cutoff s1) = false.
Proof.
  split; apply restricted_false.
  - by intros a [? _]%list_elem_of_filter.
  - by intros k j [_ ?]%map_lookup_filter_Some.
  - by intros a [? _]%list_elem_of_filter.
  - by intros k j [[_ ?]%map_lookup_filter_Some _]%map_lookup_filter_Some.
Qed.

Lemma without_ok dead s : tables_ok s → tables_ok (without dead s).
Proof.
  intros [Hty Hu [Ha Hr Hb Hj Hi]]. split.
  - intros id t [Ht _]%without_row. by apply Hty.
  - intros id t [Ht _]%without_row. apply index_clash_false. intros j o [Ho _]%without_row.
    by apply (proj1 (index_clash_false t s) (Hu _ _ Ht) j o).
  - split; simpl.
    + intros a [Hd Hin]%list_elem_of_filter. apply without_alive; [done|by apply Ha].
    + intros k r [Hk Hd]%map_lookup_filter_Some. apply without_alive; [done|by eapply Hr].
    + intros k b [Hk Hd]%map_lookup_filter_Some. apply without_alive; [done|by eapply Hb].
    + intros k j [Hk Hd]%map_lookup_filter_Some. destruct (Hj k j Hk) as [?|Hs]; [by left|].
      apply andb_false_iff in Hd as [He%negb_false_iff%bool_decide_eq_true|Hd]; [by left|right]. by apply without_alive.
    + intros r [Hd Hin]%list_elem_of_filter. apply without_alive; [done|by apply Hi].
Qed.

(** ** What an insert amounts to *)

(** Nothing but the rows and the id counter differ. *)
Record same_refs (s s' : WDB) : Prop := {
  sr_requests : card_requests (led s') = card_requests (led s);
  sr_jobs : jobs (led s') = jobs (led s);
  sr_barriers : barriers (led s') = barriers (led s);
  sr_actions : actions (led s') = actions (led s);
  sr_clock : clock (led s') = clock (led s);
  sr_identities : identities s' = identities s;
  sr_projects : project_rows s' = project_rows s;
  sr_workspaces : workspaces s' = workspaces s;
}.
Lemma same_refs_refl s : same_refs s s.
Proof. by constructor. Qed.

Lemma same_refs_ok s s' : same_refs s s' → rows s' = rows s → tables_ok s → tables_ok s'.
Proof.
  intros [] Hr [Hty Hu [Ha Hq Hb Hj Hi]]. split.
  - intros id t. rewrite Hr. apply Hty.
  - intros id t. rewrite Hr. intros Ht. apply index_clash_false. intros j o. rewrite Hr.
    apply (proj1 (index_clash_false t s)). by eapply Hu.
  - split; intros *; rewrite ?sr_actions0, ?sr_requests0, ?sr_barriers0, ?sr_jobs0, ?sr_identities0, Hr; eauto.
Qed.

Lemma clashes_self t : clashes t t = false.
Proof. unfold clashes. by rewrite bool_decide_eq_true_2. Qed.

Lemma insert_ok s t s' :
  same_refs s s' → rows s' = <[ID t := t]> (rows s) → rows s !! ID t = None → row_check t = true → index_clash t s = false →
  tables_ok s → tables_ok s'.
Proof.
  intros [] Hr Hn Hc Hcl [Hty Hu [Ha Hq Hb Hj Hi]].
  assert (∀ id, is_Some (rows s !! id) → is_Some (rows s' !! id)) as Hmono.
  { intros id [u Hid]. rewrite Hr. destruct (decide (ID t = id)) as [<-|?]; [by rewrite lookup_insert_eq|].
    rewrite lookup_insert_ne by done. by eexists. }
  assert (∀ id u, rows s' !! id = Some u → id = ID t ∧ u = t ∨ rows s !! id = Some u) as Hcase.
  { intros id u. rewrite Hr. intros [[<- <-]|[_ ?]]%lookup_insert_Some; auto. }
  pose proof (proj1 (index_clash_false t s) Hcl) as Hct. split.
  - intros id u [[-> ->]|Hid]%Hcase; [done|by apply Hty].
  - intros id u [[-> ->]|Hid]%Hcase; apply index_clash_false; intros j o [[-> ->]|Hj']%Hcase.
    + apply clashes_self.
    + by eapply Hct.
    + rewrite clashes_sym. by eapply Hct.
    + by eapply (proj1 (index_clash_false u s)), Hj'; eapply Hu.
  - split; intros *; rewrite ?sr_actions0, ?sr_requests0, ?sr_barriers0, ?sr_jobs0, ?sr_identities0; intros Hx.
    + apply Hmono. by apply Ha.
    + apply Hmono. by eapply Hq.
    + apply Hmono. by eapply Hb.
    + destruct (Hj _ _ Hx) as [?|?]; auto.
    + apply Hmono. by apply Hi.
Qed.

Lemma insert_task_cases t s :
  (∃ e, insert_task t s = (s, inl e)) ∨
  (insert_task t s = (set_rows s (<[ID t := t]> (rows s)), inr ()) ∧
   rows s !! ID t = None ∧ row_check t = true ∧ index_clash t s = false).
Proof.
  unfold insert_task. rewrite bind_fail_if. destruct (row_check t); simpl; [|left; by eexists].
  rewrite bind_gets, bind_fail_if. case_bool_decide as Hd; simpl; [left; by eexists|].
  destruct (index_clash t s); [left; by eexists|]. right. split_and!; try done. by apply eq_None_not_Some.
Qed.

(** ** Creating *)
Section create_spec.
Context (uuid : nat → string) (refname : nat → nat → string) (suffix : nat → string).
Abbreviation insert_new := (insert_new uuid refname suffix).
Abbreviation CreateTask := (CreateTask uuid refname suffix).

Definition scoped (t : Task) : Task :=
  if str_empty (ProjectID t) && str_empty (WorkspaceID t) then set_Workspace t DefaultWorkspaceSlug else t.

(** The keys a new task of [t] takes. *)
Definition takes_keys (t row : Task) : Prop :=
  ProjectID row = ProjectID t ∧ ParentID row = ParentID t ∧ IdempotencyKey row = IdempotencyKey t ∧ Type_ row = Type_ t ∧
  (Ref t ≠ "" ∨ ParentID t = "" → Ref row = Ref t) ∧
  (ProjectID t = "" → WorkspaceID t ≠ "" → WorkspaceID row = WorkspaceID t).

Lemma insert_new_ok t s s' t' :
  insert_new t s = (s', inr t') →
  ∃ row, takes_keys t row ∧
    ((rows s' = rows s ∧ ∃ e, create_race row e s' = (s', inr t')) ∨
     (t' = row ∧ rows s !! ID row = None ∧ rows s' = <[ID row := row]> (rows s))).
Proof.
  intros Hr. unfold TaskRows.insert_new in Hr. rewrite bind_fail_if in Hr. case_bool_decide; [done|].
  apply bind_ok in Hr as (id & s1 & Hid & Hr). assert (rows s1 = rows s) as Hr1.
  { destruct (str_empty (ID t)); [|by apply ret_ok in Hid as [-> _]]. by injection Hid as <- <-. }
  apply bind_ok in Hr as (time & ? & [-> ->]%gets_ok & Hr). apply bind_ok in Hr as (ref & s2 & Href & Hr).
  assert (s2 = s1 ∧ (Ref t ≠ "" ∨ ParentID t = "" → ref = Ref t)) as [-> Hkeep].
  { unfold str_empty in Href. case_bool_decide as E1; [case_bool_decide as E2|].
    - by apply ret_ok in Href as [-> ->].
    - apply gets_ok in Href as [-> ->]. split; [done|]. by intros [?|?].
    - by apply ret_ok in Href as [-> ->]. }
  apply bind_ok in Hr as ([] & s2 & Hv & Hr). assert (s2 = s1) as ->.
  { unfold validateTaskPrimaryProject, RequireTaskPrimaryProject, fail_if in Hv.
    destruct (str_empty (ProjectID t)); [by apply ret_ok in Hv as [-> _]|]. apply bind_ok in Hv as (p & ? & [-> _]%gets_ok & Hv).
    destruct p; [|done]. case_bool_decide; [done|]. by apply ret_ok in Hv as [-> _]. }
  apply bind_ok in Hr as (w & s2 & Hw & Hr).
  assert (s2 = s1 ∧ (ProjectID t = "" → WorkspaceID t ≠ "" → w = WorkspaceID t)) as [-> Hws].
  { unfold str_empty in Hw. case_bool_decide as E1; simpl in Hw.
    - apply ret_ok in Hw as [-> ->]. split; [done|]. intros _ Hne. by rewrite bool_decide_eq_false_2.
    - apply gets_ok in Hw as [-> ->]. by split. }
  rewrite bind_fail_if in Hr. destruct (negb (ValidWorkspaceSlug w)); [done|]. rewrite bind_gets, bind_fail_if in Hr.
  destruct (str_empty (ProjectID t) && _); [done|]. cbv zeta in Hr. set (row := created t id ref w (clock (led s1))) in *.
  exists row. split; [by split_and!|]. apply bind_ok in Hr as (x & s3 & Hi%try_ok & Hr).
  destruct (insert_task_cases row s1) as [[e E]|(E & Hn & _)]; rewrite E in Hi; injection Hi as <- <-.
  - left. enough (s' = s1) as -> by eauto.
    unfold create_race in Hr. destruct (negb _); [done|]. rewrite bind_gets in Hr.
    destruct (if str_empty (Ref row) then _ else _); [by apply ret_ok in Hr as [-> _]|]. rewrite bind_gets in Hr.
    destruct (if str_empty (IdempotencyKey row) then _ else _); [|done]. destruct (rejectIdempotencyKeyTypeMismatch _ _); [done|].
    by apply ret_ok in Hr as [-> _].
  - right. apply ret_ok in Hr as [-> ->]. simpl. by rewrite <- Hr1.
Qed.

Definition keeps_tables (s s' : WDB) : Prop := tables_ok s → tables_ok s'.
#[local] Instance keeps_tables_refl : Reflexive keeps_tables.
Proof. by intros s Hs. Qed.
#[local] Instance keeps_tables_trans : Transitive keeps_tables.
Proof. intros a b c Hab Hbc Ha. auto. Qed.

Lemma insert_task_keeps t : steps keeps_tables (insert_task t).
Proof.
  intros s Hs. destruct (insert_task_cases t s) as [[e ->]|(-> & Hn & Hc & Hcl)]; [done|].
  by apply (insert_ok s t); [constructor|..].
Qed.
Lemma draw_keeps : steps keeps_tables (on_ledger (new_uuid uuid)).
Proof. intros s Hs. apply (same_refs_ok s); [by constructor|done|done]. Qed.
Lemma validateTaskPrimaryProject_keeps p : steps keeps_tables (validateTaskPrimaryProject p).
Proof. unfold validateTaskPrimaryProject, RequireTaskPrimaryProject. steps_tac. Qed.

Lemma CreateTask_keeps t : steps keeps_tables (CreateTask t).
Proof.
  unfold TaskRows.CreateTask, TaskRows.insert_new, create_race, generateUniqueRef, now.
  pose proof insert_task_keeps. pose proof draw_keeps. pose proof validateTaskPrimaryProject_keeps. steps_tac.
Qed.

(** ** Creating twice *)
Lemma first_row_same P s s' : rows s' = rows s → first_row P s' = first_row P s.
Proof. unfold first_row. by intros ->. Qed.

Lemma first_row_new P s s' row :
  first_row P s = None → P row = true → rows s !! ID row = None → rows s' = <[ID row := row]> (rows s) →
  first_row P s' = Some row.
Proof.
  unfold first_row. intros Hn HP Hf ->. assert (filter (λ t, P t = true) (map_to_list (rows s)).*2 = []) as Hnil.
  { by destruct (filter _ _). }
  assert (filter (λ t, P t = true) (map_to_list (<[ID row := row]> (rows s))).*2 ≡ₚ [row]) as Hp.
  { rewrite map_to_list_insert by done. rewrite fmap_cons, filter_cons_True by done. by rewrite Hnil. }
  by apply Permutation_singleton_r in Hp as ->.
Qed.

(** The look-ups behind a create key: a ref that is not a task id, or a key. *)
Lemma create_key_query t ref key :
  isUUID ref = false → ref = "" ∨ key = "" →
  ∃ P, (∀ s, findTaskCreateKey t ref key s = if str_empty ref && str_empty key then None else first_row P s) ∧
    ∀ row, P row = true ↔ ProjectID row = ProjectID t ∧ ParentID row = ParentID t ∧
      (ProjectID t = "" → WorkspaceID row = WorkspaceID t) ∧ (if str_empty ref then IdempotencyKey row = key else Ref row = ref).
Proof.
  intros Hu Hor. unfold findTaskCreateKey, FindWorkspaceTask, FindTaskByRef, FindTaskByIdempotencyKey. rewrite Hu.
  unfold str_empty. destruct (decide (ProjectID t = "")) as [Ep|Ep]; [rewrite (bool_decide_eq_true_2 _ Ep)|rewrite (bool_decide_eq_false_2 _ Ep)].
  - eexists. split; [done|]. intros row. rewrite !andb_true_iff, !bool_decide_eq_true. rewrite Ep.
    destruct (bool_decide (ref = "")); rewrite ?bool_decide_eq_true; naive_solver.
  - destruct (decide (ref = "")) as [Er|Er]; [rewrite (bool_decide_eq_true_2 _ Er)|rewrite (bool_decide_eq_false_2 _ Er)]; simpl.
    + eexists. split; [done|]. intros row. rewrite !andb_true_iff, !bool_decide_eq_true. naive_solver.
    + eexists. split; [done|]. intros row. rewrite !andb_true_iff, !bool_decide_eq_true. naive_solver.
Qed.

(** A request whose retries can be told: it names its ref, or a key and no parent. *)
Definition retryable (t : Task) : Prop :=
  Ref t ≠ "" ∧ isUUID (Ref t) = false ∨ Ref t = "" ∧ ParentID t = "" ∧ IdempotencyKey t ≠ "".

Lemma scoped_workspace t : ProjectID (scoped t) = "" → WorkspaceID (scoped t) ≠ "".
Proof.
  unfold scoped, str_empty. case_bool_decide; case_bool_decide; simpl; done.
Qed.

Lemma first_row_ext P Q s : (∀ t, P t = true ↔ Q t = true) → first_row P s = first_row Q s.
Proof. intros HPQ. unfold first_row. f_equal. by apply list_filter_iff. Qed.

(** The look-ups of [t] and of a row with its keys agree. *)
Lemma findTaskCreateKey_row t row ref key s s' :
  takes_keys t row → (ProjectID t = "" → WorkspaceID t ≠ "") → rows s' = rows s →
  isUUID ref = false → ref = "" ∨ key = "" →
  findTaskCreateKey row ref key s' = findTaskCreateKey t ref key s.
Proof.
  intros (Hp & Hpa & _ & _ & _ & Hw) Hne Hr Hu Hor.
  destruct (create_key_query row ref key Hu Hor) as (P & -> & HP). destruct (create_key_query t ref key Hu Hor) as (Q & -> & HQ).
  destruct (_ && _); [done|]. rewrite (first_row_same P s s' Hr). apply first_row_ext. intros x. rewrite HP, HQ, Hp, Hpa.
  split; intros (H1 & H2 & H3 & H4); (split_and!; [done|done| |done]); intros E.
  - rewrite <- (Hw E (Hne E)). by apply H3.
  - rewrite (Hw E (Hne E)). by apply H3.
Qed.

Lemma findTaskCreateKey_new t row ref key s s' :
  takes_keys t row → (ProjectID t = "" → WorkspaceID t ≠ "") → isUUID ref = false → ref = "" ∨ key = "" →
  ref ≠ "" ∨ key ≠ "" → (if str_empty ref then IdempotencyKey row = key else Ref row = ref) →
  findTaskCreateKey t ref key s = None → rows s !! ID row = None → rows s' = <[ID row := row]> (rows s) →
  findTaskCreateKey t ref key s' = Some row.
Proof.
  intros (Hp & Hpa & _ & _ & _ & Hw) Hne Hu Hor Hset Hk Hn Hf Hr.
  destruct (create_key_query t ref key Hu Hor) as (P & HP & HProw). rewrite HP in *.
  assert (str_empty ref && str_empty key = false) as E.
  { unfold str_empty. apply andb_false_iff. rewrite !bool_decide_eq_false. tauto. }
  rewrite E in *. eapply first_row_new; [done| |done|done]. apply HProw. split_and!; auto.
Qed.

Lemma findTaskCreateKey_rows t ref key s s' :
  rows s' = rows s → findTaskCreateKey t ref key s' = findTaskCreateKey t ref key s.
Proof.
  intros Hr. unfold findTaskCreateKey, FindWorkspaceTask, FindTaskByRef, FindTaskByIdempotencyKey, find_task.
  by rewrite !(first_row_same _ s s' Hr), Hr.
Qed.

Lemma CreateTask_again t s s' t' s2 :
  retryable t → CreateTask t s = (s', inr t') → rows s2 = rows s' → CreateTask t s2 = (s2, inr t').
Proof.
  intros Hret Hrun Hr2. revert Hrun. unfold TaskRows.CreateTask. fold (scoped t). set (u := scoped t).
  assert (Ref u = Ref t ∧ ParentID u = ParentID t ∧ IdempotencyKey u = IdempotencyKey t) as (Hre & Hpe & Hke).
  { unfold u, scoped. by destruct (_ && _). }
  assert (retryable u) as Hru by (unfold retryable; by rewrite Hre, Hpe, Hke).
  assert (ProjectID u = "" → WorkspaceID u ≠ "") as Hws by apply scoped_workspace. clearbody u. clear Hret Hre Hpe Hke.
  assert (isUUID (Ref u) = false) as Huu by (by destruct Hru as [[_ ?]|[-> _]]).
  rewrite !bind_gets. set (by_ref := λ s, if str_empty (Ref u) then None else findTaskCreateKey u (Ref u) "" s).
  set (by_key := λ s, if str_empty (IdempotencyKey u) then None else findTaskCreateKey u "" (IdempotencyKey u) s).
  change (if str_empty (Ref u) then None else findTaskCreateKey u (Ref u) "" s) with (by_ref s).
  change (if str_empty (Ref u) then None else findTaskCreateKey u (Ref u) "" s2) with (by_ref s2).
  assert (by_ref s2 = by_ref s') as -> by (unfold by_ref; by rewrite (findTaskCreateKey_rows u (Ref u) "" s' s2 Hr2)).
  assert (by_key s2 = by_key s') as Hbk2 by (unfold by_key; by rewrite (findTaskCreateKey_rows u "" (IdempotencyKey u) s' s2 Hr2)).
  destruct (by_ref s) as [e|] eqn:Hbr.
  { intros [-> ->]%ret_ok. by rewrite Hbr. }
  rewrite bind_gets. change (if str_empty (IdempotencyKey u) then None else findTaskCreateKey u "" (IdempotencyKey u) s) with (by_key s).
  destruct (by_key s) as [e|] eqn:Hbk.
  { destruct (rejectIdempotencyKeyTypeMismatch u e) eqn:Hm; [done|]. intros [-> ->]%ret_ok. rewrite Hbr, bind_gets.
    change (if str_empty (IdempotencyKey u) then None else findTaskCreateKey u "" (IdempotencyKey u) s2) with (by_key s2).
    by rewrite Hbk2, Hbk, Hm. }
  intros Hi. apply insert_new_ok in Hi as (row & Hk & Hcase).
  pose proof Hk as (Hp & Hpa & Hkey & Hty & Href & _).
  assert (Ref row = Ref u) as Hrr by (apply Href; destruct Hru as [[? _]|(_ & ? & _)]; auto).
  destruct Hcase as [[Hr [e Hrace]]|(-> & Hn & Hr)].
  - exfalso. unfold create_race in Hrace. destruct (negb _); [done|]. rewrite bind_gets in Hrace.
    rewrite Hrr, Hkey in Hrace. rewrite (findTaskCreateKey_row u row (Ref u) "" s s') in Hrace by auto.
    unfold by_ref in Hbr. rewrite Hbr in Hrace. rewrite bind_gets in Hrace.
    rewrite (findTaskCreateKey_row u row "" (IdempotencyKey u) s s') in Hrace by auto.
    unfold by_key in Hbk. by rewrite Hbk in Hrace.
  - assert (by_ref s' = if str_empty (Ref u) then None else Some row) as ->.
    { unfold by_ref in *. destruct (str_empty (Ref u)) eqn:E; [done|].
      apply (findTaskCreateKey_new u row (Ref u) "" s); auto; rewrite ?E; try done.
      left. intros Hx. by rewrite Hx in E. }
    destruct (str_empty (Ref u)) eqn:E; [|done]. rewrite bind_gets.
    change (if str_empty (IdempotencyKey u) then None else findTaskCreateKey u "" (IdempotencyKey u) s2) with (by_key s2).
    rewrite Hbk2.
    assert (IdempotencyKey u ≠ "") as Hkne.
    { destruct Hru as [[Hx _]|(_ & _ & ?)]; [|done]. unfold str_empty in E. by apply bool_decide_eq_true in E. }
    unfold by_key in *. unfold str_empty in Hbk |- *. rewrite (bool_decide_eq_false_2 _ Hkne) in Hbk |- *.
    rewrite (findTaskCreateKey_new u row "" (IdempotencyKey u) s s') by auto.
    unfold rejectIdempotencyKeyTypeMismatch. by rewrite bool_decide_eq_true_2.
Qed.
End create_spec.

Section linked.
Context (uuid : nat → string) (refname : nat → nat → string) (suffix : nat → string).
Abbreviation linked := (createTaskLinkedToCardRequest uuid refname suffix).

Lemma on_ledger_run {A} (m : cardm A) s l r :
  m (ledger_view s) = (l, r) → on_ledger m s = (set_led s l, match r with inl e => inl (WCard e) | inr a => inr a end).
Proof. intros Hm. unfold on_ledger. by rewrite Hm. Qed.

Lemma ledger_view_led s l : tasks l = task_row <$> rows s → ledger_view (set_led s l) = l.
Proof. intros Ht. unfold ledger_view. simpl. rewrite <- Ht. by destruct l. Qed.

Lemma CreateTask_same_refs t s s' t' :
  CreateTask uuid refname suffix t s = (s', inr t') → card_requests (led s') = card_requests (led s).
Proof.
  assert (steps (λ s s', card_requests (led s') = card_requests (led s)) (CreateTask uuid refname suffix t)) as Hst.
  2: { intros Hr. specialize (Hst s). by rewrite Hr in Hst. }
  assert (Reflexive (λ s s' : WDB, card_requests (led s') = card_requests (led s))) by done.
  assert (Transitive (λ s s' : WDB, card_requests (led s') = card_requests (led s))) by (intros ???; congruence).
  assert (∀ t, steps (λ s s' : WDB, card_requests (led s') = card_requests (led s)) (insert_task t)).
  { intros u x. destruct (insert_task_cases u x) as [[e ->]|[-> _]]; done. }
  assert (steps (λ s s' : WDB, card_requests (led s') = card_requests (led s)) (on_ledger (new_uuid uuid))) by done.
  unfold CreateTask, insert_new, create_race, generateUniqueRef, now, validateTaskPrimaryProject, RequireTaskPrimaryProject.
  steps_tac.
Qed.

(** The request holds the task, and the ledger was looked at last. *)
Definition attached_to (requestID ownerJobID taskID : string) (s : WDB) : Prop :=
  ledger_view s = led s ∧ ∃ r, card_requests (led s) !! requestID = Some r ∧ LauncherJobID r = ownerJobID ∧
    RStatus r ≠ CardRequestStatusLaunching ∧ TargetKind r = CardRequestTargetKindTask ∧ TargetID r = taskID.

Lemma attach_again requestID ownerJobID t s :
  ledger_wf (card_requests (led s)) → requestID ≠ "" → ownerJobID ≠ "" → ID t ≠ "" →
  attached_to requestID ownerJobID (ID t) s →
  (r ← try_ (on_ledger (AttachCardRequestOwned requestID ownerJobID CardRequestTargetKindTask (ID t)));
   match r with
   | inr _ => mret t
   | inl (WCard ErrCardRequestInvalidTransition) =>
       existing ← on_ledger (GetCardRequest requestID);
       if bool_decide (TargetKind existing = CardRequestTargetKindTask) && bool_decide (TargetID existing = ID t)
       then mret t
       else throw (WCard ErrCardRequestInvalidTransition)
   | inl e => throw e
   end) s = (s, inr t).
Proof.
  intros Hwf Hr Ho Hid (Hv & r & Hrow & Hl & Hs & Hk & Ht).
  assert (set_led s (led s) = s) as Hs_eq by (by destruct s).
  erewrite bind_run.
  2: { unfold try_. erewrite (on_ledger_run _ s).
       2: { rewrite Hv. rewrite (attach_owned_eq _ _ _ _ (led s) r); try done; [|set_solver].
            rewrite bool_decide_eq_false_2 by auto. by rewrite bool_decide_eq_true_2. }
       by rewrite Hs_eq. }
  cbv iota. erewrite bind_run.
  2: { erewrite (on_ledger_run _ s). 2: { rewrite Hv. unfold GetCardRequest. rewrite bind_gets, Hrow. done. }
       by rewrite Hs_eq. }
  by rewrite !bool_decide_eq_true_2.
Qed.

Lemma attach_empty_target id job l : ∃ e, AttachCardRequestOwned id job CardRequestTargetKindTask "" l = (l, inl (ErrInvalidArgument e)).
Proof.
  unfold AttachCardRequestOwned, validateAttachArgs. rewrite bind_fail_if. destruct (str_empty job); [by eexists|].
  unfold mbind at 1, dbm_bind at 1. rewrite !bind_fail_if. destruct (str_empty id); by eexists.
Qed.

Lemma tables_db_wf s : tables_ok s → ledger_wf (card_requests (led s)) → db_wf (ledger_view s).
Proof.
  intros [_ _ Href] Hwf. split; [done|]. intros k r Hk. simpl. rewrite lookup_fmap.
  destruct (ref_requests _ Href k r Hk) as [t ->]. by eexists.
Qed.

(** Retrying the creation of a card's continuation converges.  When a request
    has created its task and attached it to the card request that caused it,
    sending it again (because the answer was lost, say) finds that task, sees
    that the card request already holds it, succeeds with it and changes
    nothing; nothing depends on whether the first call found the task or made
    it. *)
Theorem linked_create_converges t requestID ownerJobID s s' t' :
  tables_ok s → ledger_wf (card_requests (led s)) → retryable t → requestID ≠ "" → ownerJobID ≠ "" →
  CreateTaskLinkedToCardRequest uuid refname suffix t requestID ownerJobID s = (s', inr t') →
  CreateTaskLinkedToCardRequest uuid refname suffix t requestID ownerJobID s' = (s', inr t').
Proof.
  intros Hok Hwf Hret Hreq Hown Hrun. unfold CreateTaskLinkedToCardRequest, InTxDB in Hrun |- *.
  destruct (linked t requestID ownerJobID s) as [s2 [e|x]] eqn:Hl; simplify_eq.
  unfold createTaskLinkedToCardRequest in Hl. apply bind_ok in Hl as (t1 & s1 & Hc & Hl).
  pose proof (CreateTask_keeps uuid refname suffix t s Hok) as Hok1. rewrite Hc in Hok1. simpl in Hok1.
  pose proof (CreateTask_same_refs _ _ _ _ Hc) as Hreqs. assert (ledger_wf (card_requests (led s1))) as Hwf1 by (by rewrite Hreqs).
  assert (ledger_wf (card_requests (led s')) ∧ rows s' = rows s1 ∧ t' = t1 ∧ ID t1 ≠ "" ∧
          attached_to requestID ownerJobID (ID t1) s') as (Hwf' & Hrows & -> & Hid & Hatt).
  2: { unfold createTaskLinkedToCardRequest. erewrite bind_run by (by eapply CreateTask_again).
       rewrite attach_again; done. }
  clear Hwf Hok Hreqs Hc. apply bind_ok in Hl as (r & s2 & Ha%try_ok & Hl). set (l1 := ledger_view s1).
  assert (ID t1 ≠ "") as Hid.
  { intros E. rewrite E in Ha. destruct (attach_empty_target requestID ownerJobID l1) as [e He].
    rewrite (on_ledger_run _ s1 _ _ He) in Ha. injection Ha as <- <-. done. }
  destruct (card_requests (led s1) !! requestID) as [row|] eqn:Hrow.
  2: { pose proof (attach_owned_run requestID ownerJobID CardRequestTargetKindTask (ID t1) l1 Hwf1
         ltac:(split_and!; [done|set_solver|done]) Hown) as Hn. change (card_requests l1) with (card_requests (led s1)) in Hn.
       rewrite Hrow in Hn. rewrite (on_ledger_run _ s1 _ _ Hn) in Ha. injection Ha as <- <-. done. }
  pose proof (attach_owned_eq requestID ownerJobID CardRequestTargetKindTask (ID t1) l1 row Hwf1 Hreq Hown
    ltac:(set_solver) Hid Hrow) as He.
  destruct (decide (LauncherJobID row = ownerJobID)) as [Hm|Hm].
  2: { rewrite bool_decide_eq_true_2 in He by done. rewrite (on_ledger_run _ s1 _ _ He) in Ha. by injection Ha as <- <-. }
  rewrite (bool_decide_eq_false_2 (LauncherJobID row ≠ _)) in He by auto.
  destruct (decide (RStatus row = CardRequestStatusLaunching)) as [Hst|Hst];
    [rewrite bool_decide_eq_false_2 in He by auto|rewrite bool_decide_eq_true_2 in He by done];
    rewrite (on_ledger_run _ s1 _ _ He) in Ha; injection Ha as <- <-.
  - apply ret_ok in Hl as [-> ->]. split_and!; [|done..|].
    + pose proof (AttachCardRequestOwned_quiet _ _ _ _ _ _ _ (tables_db_wf _ Hok1 Hwf1) He) as Hq.
      by destruct (q_wf _ _ Hq (tables_db_wf _ Hok1 Hwf1)).
    + split; [by apply ledger_view_led|]. eexists. simpl. rewrite lookup_insert_eq. split; [done|]. simpl. by split_and!.
  - apply bind_ok in Hl as (ex & s3 & Hg & Hl).
    assert (ledger_view (set_led s1 l1) = l1) as Hv by (by apply ledger_view_led).
    erewrite (on_ledger_run _ (set_led s1 l1)) in Hg. 2: { rewrite Hv. unfold GetCardRequest. rewrite bind_gets. simpl. rewrite Hrow. done. }
    injection Hg as <- <-. case_match eqn:Ht; [|done]. apply ret_ok in Hl as [-> ->].
    apply andb_true_iff in Ht as [Hk%bool_decide_eq_true Hti%bool_decide_eq_true].
    split_and!; [done..|]. split; [by apply ledger_view_led|]. by exists row.
Qed.
End linked.

(** ** Deleting *)
Lemma UpdateTask_tables t s : tables_ok s → tables_ok (UpdateTask t s).1.
Proof.
  intros Hs. destruct (UpdateTask_cases t s) as [[e ->]|(old & w & row & Hold & _ & -> & Hc & Hcl & _ & ->)]; [done|].
  pose proof Hs as [Hty Hu [Ha Hq Hb Hj Hi]]. destruct (Hty _ _ Hold) as [Hid _]. set (row := updated_row old t w (clock (led s))) in *.
  set (s' := set_rows s (<[ID old := row]> (rows s))). change (tables_ok s').
  assert (∀ id, is_Some (rows s !! id) → is_Some (rows s' !! id)) as Hmono.
  { intros id [u Hx]. simpl. destruct (decide (ID old = id)) as [<-|?]; [by rewrite lookup_insert_eq|].
    rewrite lookup_insert_ne by done. by eexists. }
  assert (∀ id u, rows s' !! id = Some u → u = row ∧ id = ID old ∨ id ≠ ID old ∧ rows s !! id = Some u) as Hcase.
  { intros id u Hx. simpl in Hx. apply lookup_insert_Some in Hx as [[<- <-]|[? ?]]; auto. }
  pose proof (proj1 (index_clash_false row s) Hcl) as Hct. split.
  - intros id u [[-> ->]|[_ Hx]]%Hcase; [done|by apply Hty].
  - intros id u [[-> ->]|[Hne Hx]]%Hcase; apply index_clash_false; intros j o [[-> ->]|[Hne' Ho]]%Hcase.
    + apply clashes_self.
    + by eapply Hct.
    + rewrite clashes_sym. by eapply Hct.
    + by eapply (proj1 (index_clash_false u s)), Ho; eapply Hu.
  - split; simpl.
    + intros a Hx. by apply Hmono, Ha.
    + intros k r Hx. by eapply Hmono, Hq.
    + intros k b Hx. by eapply Hmono, Hb.
    + intros k j Hx. destruct (Hj _ _ Hx) as [?|?]; auto.
    + intros r Hx. by apply Hmono, Hi.
Qed.

Lemma without_taskless_ok cutoff s : tables_ok s → tables_ok (without_taskless cutoff s).
Proof.
  intros [Hty Hu [Ha Hq Hb Hj Hi]]. split; [done|done|]. split; simpl; try done.
  intros k j [Hk _]%map_lookup_filter_Some. by eapply Hj.
Qed.

Lemma GetTask_state id s : (GetTask id s).1 = s.
Proof. unfold GetTask. rewrite bind_gets. by destruct (find_task id s). Qed.

Lemma filter_everything {A} (P : A → Prop) `{∀ x, Decision (P x)} (l : list A) : (∀ x, x ∈ l → P x) → filter P l = l.
Proof.
  intros HP. induction l as [|x l IH]; [done|]. rewrite filter_cons_True by (apply HP; left). f_equal. apply IH. intros y Hy. apply HP. by right.
Qed.

(** Nothing is dead. *)
Lemma without_none dead s : (∀ id t, rows s !! id = Some t → dead t = false) → without dead s = s.
Proof.
  intros Hd. assert (∀ id, gone dead s id = false) as Hg.
  { intros id. unfold gone. destruct (rows s !! id) as [t|] eqn:Ht; [by eapply Hd|done]. }
  unfold without, cascade, delete_jobs, delete_actions, set_led. destruct s as [r l ids p ws]. destruct l as [q t j b a c u].
  cbn [led rows identities project_rows workspaces card_requests tasks jobs barriers actions clock uuids] in *. f_equal; [|f_equal|].
  - apply map_filter_id. intros k x Hx. by eapply Hd.
  - apply map_filter_id. intros; apply Hg.
  - apply map_filter_id. intros k x Hx. unfold job_of. rewrite Hg. apply andb_false_r.
  - apply map_filter_id. intros; apply Hg.
  - apply filter_everything. intros; apply Hg.
  - apply filter_everything. intros; apply Hg.
Qed.

(** The deletes by task id and the delete of the row agree: a row that names a
    task names one that is stored, under its own id. *)
Lemma gone_row id t s : typed s → rows s !! id = Some t → ∀ id', gone (λ t, bool_decide (ID t = id)) s id' = bool_decide (id' = id).
Proof.
  intros Hty Ht id'. unfold gone. destruct (rows s !! id') as [u|] eqn:Hu.
  - by rewrite (proj1 (Hty _ _ Hu)).
  - rewrite bool_decide_eq_false_2; [done|]. intros ->. by rewrite Ht in Hu.
Qed.

Lemma deletes_none p s :
  (∀ a, a ∈ actions (led s) → p (ATaskID a) = false) → (∀ k j, jobs (led s) !! k = Some j → job_of p j = false) →
  delete_jobs p (delete_actions p s) = s.
Proof.
  intros Ha Hj. unfold delete_jobs, delete_actions, set_led. destruct s as [r l ids q ws]. destruct l as [cq t j b a c u].
  cbn [led rows identities project_rows workspaces card_requests tasks jobs barriers actions clock uuids] in *. do 2 f_equal.
  - apply map_filter_id. intros k x Hx. by eapply Hj.
  - by apply filter_everything.
Qed.

Lemma deletes_by_id id s :
  tables_ok s → let dead := λ t, bool_decide (ID t = id) in let p := λ i, bool_decide (i = id) in
  delete_jobs p (delete_actions p s) = delete_jobs (gone dead s) (delete_actions (gone dead s) s).
Proof.
  intros [Hty _ Href] dead p. destruct (rows s !! id) as [t|] eqn:Ht.
  - pose proof (gone_row id t s Hty Ht) as Hg. unfold delete_jobs, delete_actions, set_led. simpl. do 2 f_equal.
    + apply map_filter_ext. intros k j _. simpl. unfold job_of. by rewrite Hg.
    + apply list_filter_iff. intros a. by rewrite Hg.
  - assert (∀ i, is_Some (rows s !! i) → p i = false ∧ gone dead s i = false) as Hno.
    { intros i [u Hu]. assert (i ≠ id) by congruence. unfold p, gone, dead. rewrite Hu, (proj1 (Hty _ _ Hu)).
      by rewrite bool_decide_eq_false_2. }
    assert (∀ q, (∀ i, is_Some (rows s !! i) → q i = false) → delete_jobs q (delete_actions q s) = s) as Hs.
    { intros q Hq. apply deletes_none; [intros a Ha; by apply Hq, (ref_actions _ Href)|].
      intros k j Hk. unfold job_of, str_empty. case_bool_decide as E; [done|].
      destruct (ref_jobs _ Href k j Hk) as [?|?]; [done|]. by apply Hq. }
    rewrite !Hs; [done|..]; intros i Hi; apply (Hno i Hi).
Qed.

Lemma DeleteTask_run id t s :
  tables_ok s → find_task id s = Some t → DeleteTask id s = (without (λ t, bool_decide (ID t = id)) s, inr ()).
Proof.
  intros Hs Hf. assert (GetTask id s = (s, inr t)) as Hg by (unfold GetTask; by rewrite bind_gets, Hf).
  unfold DeleteTask. erewrite bind_run by exact Hg. erewrite bind_run by done. erewrite bind_run by done.
  rewrite (deletes_by_id id s Hs). unfold delete_rows. rewrite bind_gets, bind_fail_if.
  by rewrite (proj1 (without_unrestricted _ None s)).
Qed.

Lemma DeleteTask_tables id s : tables_ok s → tables_ok (DeleteTask id s).1.
Proof.
  intros Hs. destruct (find_task id s) as [t|] eqn:Hf.
  - rewrite (DeleteTask_run id t s Hs Hf). by apply without_ok.
  - unfold DeleteTask. unfold mbind at 1, dbm_bind at 1. unfold GetTask. by rewrite bind_gets, Hf.
Qed.

Lemma GCTasks_run statuses older s :
  statuses ≠ [] →
  let cutoff := if (0 <? older)%Z then Some (clock (led s) - older)%Z else None in
  ∃ r, GCTasks statuses older false s = (without_taskless cutoff (without (gc_task statuses cutoff) s), inr r).
Proof.
  intros Hne cutoff. unfold GCTasks, now. rewrite bool_decide_eq_false_2 by done. rewrite bind_gets. fold cutoff. cbv zeta.
  rewrite bind_gets. set (dead := gc_task statuses cutoff). eexists. do 3 (erewrite bind_run by done).
  set (s1 := without_taskless cutoff _). assert (delete_rows dead s1 = (cascade dead s1, inr ())) as Hd.
  { unfold delete_rows. rewrite bind_gets, bind_fail_if. assert (restricted dead s1 = false) as -> by exact (proj2 (without_unrestricted dead cutoff s)). done. }
  erewrite bind_run by exact Hd. done.
Qed.

Lemma GCTasks_tables statuses older dry s : tables_ok s → tables_ok (GCTasks statuses older dry s).1.
Proof.
  intros Hs. destruct (decide (statuses = [])) as [->|Hne]; [done|]. destruct dry.
  - unfold GCTasks, now. rewrite bool_decide_eq_false_2 by done. by rewrite !bind_gets.
  - destruct (GCTasks_run statuses older s Hne) as [r ->]. by apply without_taskless_ok, without_ok.
Qed.

(** The tables stay consistent: creating, updating, deleting and garbage
    collecting tasks keep every row well typed, keep the create keys unique
    per scope, and leave no action, job, card request, barrier or identity
    behind for a task that is gone. *)
Theorem tables_stay_consistent uuid refname suffix t id statuses older dry s :
  tables_ok s →
  tables_ok (CreateTask uuid refname suffix t s).1 ∧ tables_ok (UpdateTask t s).1 ∧
  tables_ok (repo_DeleteTask id s).1 ∧ tables_ok (InTxDB (GCTasks statuses older dry) s).1.
Proof.
  intros Hs. split; [by apply CreateTask_keeps|]. split; [by apply UpdateTask_tables|].
  split; [pose proof (DeleteTask_tables id s Hs) as Hd|pose proof (GCTasks_tables statuses older dry s Hs) as Hd];
    unfold repo_DeleteTask, InTxDB; [destruct (DeleteTask id s) as [s' [e|x]]|destruct (GCTasks _ _ _ s) as [s' [e|x]]]; done.
Qed.

Lemma service_DeleteTask_run id force t s :
  tables_ok s → find_task id s = Some t → force = true ∨ Status t ≠ TaskStatusExecuting →
  service_DeleteTask id force s = (without (λ t, bool_decide (ID t = id)) s, inr ()).
Proof.
  intros Hs Hf Hok. assert (GetTask id s = (s, inr t)) as Hg by (unfold GetTask; by rewrite bind_gets, Hf).
  unfold service_DeleteTask. erewrite bind_run by (by apply map_err_ok).
  rewrite bind_fail_if. assert (negb force && bool_decide (Status t = TaskStatusExecuting) = false) as ->.
  { destruct Hok as [->|Hne]; [done|]. rewrite (bool_decide_eq_false_2 _ Hne). apply andb_false_r. }
  apply map_err_ok. unfold repo_DeleteTask, InTxDB. by rewrite (DeleteTask_run id t s Hs Hf).
Qed.


(** Deleting a task by a prefix of its id, which every look-up accepts,
    answers with success and deletes nothing. *)
Theorem prefix_delete_does_nothing id force t s :
  tables_ok s → rows s !! id = None → find_task id s = Some t → force = true ∨ Status t ≠ TaskStatusExecuting →
  service_DeleteTask id force s = (s, inr ()).
Proof.
  intros Hs Hn Hf Hok. rewrite (service_DeleteTask_run id force t s Hs Hf Hok). f_equal. apply without_none.
  intros j u Hu. apply bool_decide_eq_false. rewrite (proj1 (tables_typed _ Hs _ _ Hu)). intros ->. congruence.
Qed.

(** What a retention of [older] has outlived: everything without one. *)
Definition outlived (older now at_ : Z) : Prop := (older ≤ 0 ∨ at_ < now - older)%Z.
Definition ended_task (older now : Z) (t : Task) : Prop :=
  Status t ∈ ["done"; "aborted"; "dropped"] ∧ outlived older now (UpdatedAt t).
Definition ended_session (older now : Z) (j : JobRow) : Prop :=
  JTaskID j = "" ∧ JStatus j ∈ ["completed"; "failed"] ∧ outlived older now (JUpdatedAt j).

Lemma outlived_spec older now at_ :
  match (if (0 <? older)%Z then Some (now - older)%Z else None) with Some c => (at_ <? c)%Z | None => true end = true ↔
  outlived older now at_.
Proof. unfold outlived. destruct (Z.ltb_spec 0 older); [rewrite Z.ltb_lt; lia|]. split; [by left|done]. Qed.

Lemma ended_task_spec older now t :
  gc_task (filter (λ st, IsTerminalStatus st = true) KnownTaskStatuses) (if (0 <? older)%Z then Some (now - older)%Z else None) t = true ↔
  ended_task older now t.
Proof.
  unfold gc_task, ended_task. rewrite andb_true_iff, outlived_spec, bool_decide_eq_true.
  assert (∀ st, st ∈ filter (λ st, IsTerminalStatus st = true) KnownTaskStatuses ↔ st ∈ ["done"; "aborted"; "dropped"]) as ->; [|done].
  intros st. vm_compute filter. set_solver.
Qed.

Lemma ended_session_spec older now j :
  gc_taskless (if (0 <? older)%Z then Some (now - older)%Z else None) j = true ↔ ended_session older now j.
Proof. unfold gc_taskless, ended_session, str_empty. rewrite !andb_true_iff, outlived_spec, !bool_decide_eq_true. tauto. Qed.

Lemma without_named dead s id :
  is_Some (rows s !! id) → gone dead s id = false ↔ is_Some (rows (without dead s) !! id).
Proof.
  intros [t Ht]. unfold gone. rewrite Ht. split.
  - intros Hd. exists t. by apply without_row.
  - intros [u [Hu Hd]%without_row]. congruence.
Qed.


(** ** The theorems at a concrete database *)
Definition row_task (id ref : string) (st : TaskStatus) : Task :=
  {| ID := id; Type_ := TaskTypeExecution; ProjectID := "p"; WorkspaceID := "w"; RemoteID := ""; Title := "t";
     Description := ""; Status := st; Ref := ref; ParentID := "card"; IdempotencyKey := ""; CreatedAt := 0; UpdatedAt := 50;
     Card := None; Exec := Some sample_exec |}.
Definition rows_card : Task :=
  {| ID := "card"; Type_ := TaskTypeCard; ProjectID := "p"; WorkspaceID := "w"; RemoteID := ""; Title := "t"; Description := "";
     Status := TaskStatusWorking; Ref := ""; ParentID := ""; IdempotencyKey := ""; CreatedAt := 0; UpdatedAt := 0;
     Card := Some sample_card; Exec := None |}.
Definition rows_db : WDB :=
  {| rows := {["card" := rows_card; "01234567-89ab" := row_task "01234567-89ab" "r1" TaskStatusDone]};
     led := sample_db launching_rows; identities := []; project_rows := {["p" := {| Perm := "push"; PWorkspace := "w" |}]};
     workspaces := {["w"]} |}.

Lemma rows_db_ok : tables_ok rows_db.
Proof.
  assert (∀ id t, rows rows_db !! id = Some t → id = "card" ∧ t = rows_card ∨ id = "01234567-89ab" ∧ t = row_task "01234567-89ab" "r1" TaskStatusDone) as Hc.
  { intros id t Ht. unfold rows_db in Ht. cbn [rows] in Ht. apply lookup_insert_Some in Ht as [[<- <-]|[_ Ht]]; [by left|]. apply lookup_singleton_Some in Ht as [<- <-]. by right. }
  split.
  - intros id t [[-> ->]|[-> ->]]%Hc; by vm_compute.
  - intros id t [[-> ->]|[-> ->]]%Hc; by vm_compute.
  - split; simpl.
    + by intros a ?%elem_of_nil.
    + intros k r Hr. unfold launching_rows in Hr. each_sample_row Hr. vm_compute. by eexists.
    + intros k b. by rewrite lookup_empty.
    + intros k j. by rewrite lookup_empty.
    + by intros r ?%elem_of_nil.
Qed.

Definition sample_names (seed i : nat) : string := "calm_otter".
Definition new_child : Task := row_task "" "r2" "".

Lemma linked_create_converges_witness :
  ∃ s' t', CreateTaskLinkedToCardRequest sample_uuid sample_names sample_uuid new_child "l1" "job1" rows_db = (s', inr t') ∧
    CreateTaskLinkedToCardRequest sample_uuid sample_names sample_uuid new_child "l1" "job1" s' = (s', inr t').
Proof.
  assert (∃ s' t', CreateTaskLinkedToCardRequest sample_uuid sample_names sample_uuid new_child "l1" "job1" rows_db = (s', inr t'))
    as (s' & t' & Hrun) by (eexists _, _; vm_compute; reflexivity).
  exists s', t'. split; [exact Hrun|].
  apply (linked_create_converges sample_uuid sample_names sample_uuid new_child "l1" "job1" rows_db s' t');
    [apply rows_db_ok|apply launching_rows_wf|left; split; [discriminate|reflexivity]|discriminate|discriminate|exact Hrun].
Defined.

Lemma tables_stay_consistent_witness :
  tables_ok (CreateTask sample_uuid sample_names sample_uuid new_child rows_db).1 ∧
  tables_ok (InTxDB (GCTasks [TaskStatusDone] 0 false) rows_db).1.
Proof.
  destruct (tables_stay_consistent sample_uuid sample_names sample_uuid new_child "card" [TaskStatusDone] 0 false rows_db rows_db_ok)
    as (H1 & _ & _ & H4).
  split; [exact H1|exact H4].
Defined.


Lemma prefix_delete_does_nothing_witness : service_DeleteTask "01234567" false rows_db = (rows_db, inr ()).
Proof.
  apply (prefix_delete_does_nothing "01234567" false (row_task "01234567-89ab" "r1" TaskStatusDone));
    [apply rows_db_ok|vm_compute; reflexivity|vm_compute; reflexivity|right; discriminate].
Defined.

