(* ===== verification/OperationResults.v ===== *)
(** * Receipts of operations, and garbage collection around them

    Models orchestrator/operation_result.go, GCCardRequests of store.go, the
    order of the collection in repository.go, and the functions of
    internal/api/web.go that make a receipt out of an outcome.

    A receipt records what became of an operation a human asked for in the
    browser.  The request it led to is joined when receipts are read, and is
    collected earlier than they are.  The state is the task database with the
    table of receipts. *)
From S2P Require Import Prelude Json Payload Task Machine Lifecycle Coordinator Store CardDetail CardRequests CardDispatch TaskStore TaskRows.
Local Open Scope Z_scope.

Definition OperationResultAccepted : string := "accepted".
Definition OperationResultStarted : string := "started".
Definition OperationResultRejected : string := "rejected".
Definition OperationResultUnknown : string := "unknown".
Definition OperationReasonRequestAccepted : string := "request_accepted".
Definition OperationReasonExecutionStarted : string := "execution_started".
Definition OperationReasonInvalidRequest : string := "invalid_request".
Definition OperationReasonNotFound : string := "not_found".
Definition OperationReasonConflict : string := "conflict".
Definition OperationReasonInternalError : string := "internal_error".
Definition OperationReasonOutcomePending : string := "outcome_pending".
Definition OperationReasonSuggestionAcceptedLaunchRejected : string := "suggestion_accepted_launch_rejected".
Definition OperationReasonSuggestionAcceptedLaunchUnknown : string := "suggestion_accepted_launch_unknown".

(** A row of operation_results; what is only computed when it is read is in
    [receipt_view]. *)
Record OperationResult : Type := {
  OrID : string;
  OrTaskID : string;
  OperationType : string;
  OperationLabel : string;
  OrResult : string;
  ReasonCode : string;
  OrTargetTaskID : string;
  TargetSessionID : string;
  TargetRequestID : string;
  CurrentPhase : string;
  OrCreatedAt : Z;
}.
Record receipt_view : Type := { VRow : OperationResult; TargetTaskUnavailable : bool; TargetSessionUnavailable : bool }.

Record RDB : Type := { base : WDB; receipts : gmap string OperationResult }.
Definition set_receipts (s : RDB) (m : gmap string OperationResult) : RDB := {| base := base s; receipts := m |}.
Abbreviation receiptm := (dbm RDB werr).

(** ** The store *)
Definition with_outcome (o : OperationResult) (label result reason task session request phase : string) : OperationResult :=
  {| OrID := OrID o; OrTaskID := OrTaskID o; OperationType := OperationType o; OperationLabel := label; OrResult := result; ReasonCode := reason;
     OrTargetTaskID := task; TargetSessionID := session; TargetRequestID := request; CurrentPhase := phase; OrCreatedAt := OrCreatedAt o |}.

(** The CHECK of the table. *)
Definition known_result (r : string) : bool :=
  bool_decide (r ∈ [OperationResultAccepted; OperationResultStarted; OperationResultRejected; OperationResultUnknown]).
Definition on_base {A} (m : taskm A) : receiptm A := λ s, let '(b, r) := m (base s) in ({| base := b; receipts := receipts s |}, r).
(** The row the INSERT writes; a zero time is taken from the clock. *)
Definition named (r : OperationResult) (id : string) (time : Z) : OperationResult :=
  {| OrID := id; OrTaskID := OrTaskID r; OperationType := OperationType r; OperationLabel := OperationLabel r; OrResult := OrResult r;
     ReasonCode := ReasonCode r; OrTargetTaskID := OrTargetTaskID r; TargetSessionID := TargetSessionID r; TargetRequestID := TargetRequestID r;
     CurrentPhase := CurrentPhase r; OrCreatedAt := if OrCreatedAt r =? 0 then time else OrCreatedAt r |}.
Definition CreateOperationResult (uuid : nat → string) (r : OperationResult) : receiptm OperationResult :=
  id ← (if str_empty (OrID r) then on_base (on_ledger (new_uuid uuid)) else mret (OrID r));
  time ← on_base now;
  let r := named r id time in
  taken ← gets (λ s, bool_decide (is_Some (receipts s !! id)));
  _ ← fail_if (taken || negb (known_result (OrResult r))) (WInternal "create operation result");
  _ ← modify (λ s, set_receipts s (<[id := r]> (receipts s)));
  mret r.

Definition still_pending (o : OperationResult) : bool :=
  bool_decide (OrResult o = OperationResultUnknown) && bool_decide (ReasonCode o = OperationReasonOutcomePending).
Definition UpdateOperationResult (r : OperationResult) : receiptm unit :=
  row ← gets (λ s, receipts s !! OrID r);
  match row with
  | Some o =>
      _ ← fail_if (negb (bool_decide (OrTaskID o = OrTaskID r) && still_pending o)) (WInternal "pending receipt not found");
      _ ← fail_if (negb (known_result (OrResult r))) (WInternal "update operation result");
      modify (λ s, set_receipts s (<[OrID r := with_outcome o (OperationLabel r) (OrResult r) (ReasonCode r) (OrTargetTaskID r)
                                                  (TargetSessionID r) (TargetRequestID r) (CurrentPhase r)]> (receipts s)))
  | None => throw (WInternal "pending receipt not found")
  end.

(** ** Reading, with the request joined *)
Definition joined_request (s : RDB) (o : OperationResult) : option CardRequest := card_requests (led (base s)) !! TargetRequestID o.
Definition target_task (cr : option CardRequest) (o : OperationResult) : string :=
  match cr with Some r => if bool_decide (TargetKind r = CardRequestTargetKindTask) then TargetID r else OrTargetTaskID o | None => OrTargetTaskID o end.
Definition target_session (cr : option CardRequest) (o : OperationResult) : string :=
  match cr with Some r => if bool_decide (TargetKind r = CardRequestTargetKindSession) then TargetID r else TargetSessionID o | None => TargetSessionID o end.
Definition awaits_request (o : OperationResult) : bool :=
  bool_decide (OrResult o = OperationResultAccepted) && bool_decide (ReasonCode o = OperationReasonRequestAccepted).
Definition phase (cr : option CardRequest) (o : OperationResult) : string :=
  match cr with
  | Some r =>
      if awaits_request o && bool_decide (RStatus r = CardRequestStatusFailed) then "request_failed"
      else if awaits_request o && (bool_decide (RStatus r = CardRequestStatusAttached) || bool_decide (RStatus r = CardRequestStatusFinished))
      then "target_started"
      else CurrentPhase o
  | None => CurrentPhase o
  end.
Definition resolved (cr : option CardRequest) (o : OperationResult) : OperationResult :=
  with_outcome o (OperationLabel o) (OrResult o) (ReasonCode o) (target_task cr o) (target_session cr o) (TargetRequestID o) (phase cr o).
Definition shown (s : RDB) (o : OperationResult) : receipt_view :=
  let v := resolved (joined_request s o) o in
  {| VRow := v; TargetTaskUnavailable := bool_decide (rows (base s) !! OrTargetTaskID v = None);
     TargetSessionUnavailable := bool_decide (jobs (led (base s)) !! TargetSessionID v = None) |}.

(** Newest first, by time and id. *)
Definition newer_le (a b : Z * string) : Prop := b.1 < a.1 ∨ (a.1 = b.1 ∧ String.le b.2 a.2).
#[export] Instance newer_le_dec : RelDecision newer_le.
Proof. intros a b. unfold newer_le. apply _. Defined.
Definition receipt_ids (P : OperationResult → bool) (m : gmap string OperationResult) : list string :=
  (merge_sort newer_le ((λ kv, (OrCreatedAt kv.2, kv.1)) <$> map_to_list (filter (λ kv, P kv.2 = true) m))).*2.
(** A negative limit is none. *)
Definition listOperationResults (P : OperationResult → bool) (limit : Z) (s : RDB) : list receipt_view :=
  let all := omap (λ id, shown s <$> receipts s !! id) (receipt_ids P (receipts s)) in
  if limit <? 0 then all else take (Z.to_nat limit) all.
Definition of_task (taskID : string) (o : OperationResult) : bool := bool_decide (OrTaskID o = taskID).
Definition ListOperationResults (taskID : string) (limit : Z) : RDB → list receipt_view :=
  listOperationResults (of_task taskID) (if limit <=? 0 then 20 else limit).
Definition AllOperationResults (taskID : string) : RDB → list receipt_view := listOperationResults (of_task taskID) (-1).
Definition GetOperationResult (taskID id : string) : RDB → option receipt_view := λ s,
  head (listOperationResults (λ o, of_task taskID o && bool_decide (OrID o = id)) 1 s).

(** ** Collection *)
Definition one_day : Z := 24 * 3600 * 1000000000.
Definition GCOperationResults (olderThan : Z) (dryRun : bool) : receiptm nat :=
  old ← gets (λ s, filter (λ kv : string * OperationResult, OrCreatedAt kv.2 < clock (led (base s)) - olderThan) (receipts s));
  if dryRun then mret (size old) else _ ← modify (λ s, set_receipts s (receipts s ∖ old)); mret (size old).

Definition collected (cutoff : option Z) (r : CardRequest) : bool :=
  (bool_decide (RStatus r = CardRequestStatusFinished) || bool_decide (RStatus r = CardRequestStatusFailed))
  && match cutoff with Some c => RUpdatedAt r <? c | None => true end.
(** What a receipt keeps of a request that is about to go. *)
Definition preserve (cutoff : option Z) (reqs : gmap string CardRequest) (o : OperationResult) : OperationResult :=
  match reqs !! TargetRequestID o with
  | Some r =>
      if collected cutoff r then
        with_outcome o (OperationLabel o) (OrResult o) (ReasonCode o) (target_task (Some r) o) (target_session (Some r) o) (TargetRequestID o)
          (if awaits_request o && bool_decide (RStatus r = CardRequestStatusFailed) then "request_failed"
           else if awaits_request o && bool_decide (RStatus r = CardRequestStatusFinished) then "target_started" else CurrentPhase o)
      else o
  | None => o
  end.
Definition without_requests (cutoff : option Z) (s : WDB) : WDB :=
  set_led s (set_requests (led s) (filter (λ kv, collected cutoff kv.2 = false) (card_requests (led s)))).
Definition GCCardRequests (olderThan : Z) (dryRun : bool) : receiptm nat :=
  cutoff ← gets (λ s, if 0 <? olderThan then Some (clock (led (base s)) - olderThan) else None);
  n ← gets (λ s, size (filter (λ kv : string * CardRequest, collected cutoff kv.2 = true) (card_requests (led (base s)))));
  if dryRun then mret n
  else
    _ ← modify (λ s, set_receipts s (preserve cutoff (card_requests (led (base s))) <$> receipts s));
    _ ← modify (λ s, {| base := without_requests cutoff (base s); receipts := receipts s |});
    mret n.

(** One pass of the collection; the tables of triggers and signals, which it
    collects in between, have nothing to do with these. *)
Definition GC (olderThan : Z) (dryRun : bool) : receiptm (GCResult * nat * nat) := InTxDB (
  tasks ← on_base (GCTasks (filter (λ st, IsTerminalStatus st = true) KnownTaskStatuses) olderThan dryRun);
  operations ← GCOperationResults (30 * one_day) dryRun;
  requests ← GCCardRequests olderThan dryRun;
  mret (tasks, operations, requests)).

(** ** The receipt of an outcome (web.go) *)
Definition pendingOperation (id taskID operationType label : string) (receivedAt : Z) : OperationResult :=
  {| OrID := id; OrTaskID := taskID; OperationType := operationType; OperationLabel := label; OrResult := OperationResultUnknown;
     ReasonCode := OperationReasonOutcomePending; OrTargetTaskID := ""; TargetSessionID := ""; TargetRequestID := ""; CurrentPhase := "";
     OrCreatedAt := receivedAt |}.
(** A StatusError with what it points at; any other error is [None]. *)
Record status_error : Type := {
  ErrCode : Z;
  ErrReason : string;
  ErrTargetRequestID : string;
  ErrTargetTaskID : string;
  ErrTargetKind : string;
  ErrTargetID : string;
}.
Definition operationReasonForError (err : option status_error) : string :=
  match err with
  | Some e =>
      if negb (str_empty (ErrReason e)) then ErrReason e
      else if ErrCode e =? 400 then OperationReasonInvalidRequest
      else if ErrCode e =? 404 then OperationReasonNotFound
      else if ErrCode e =? 409 then OperationReasonConflict
      else OperationReasonInternalError
  | None => OperationReasonInternalError
  end.
Definition outcome_of (taskID operationType label result reason task session request : string) : OperationResult :=
  {| OrID := ""; OrTaskID := taskID; OperationType := operationType; OperationLabel := label; OrResult := result; ReasonCode := reason;
     OrTargetTaskID := task; TargetSessionID := session; TargetRequestID := request; CurrentPhase := ""; OrCreatedAt := 0 |}.
Definition operationRejection (taskID operationType label : string) (err : option status_error) : OperationResult :=
  let reason := operationReasonForError err in
  let result := if bool_decide (reason = OperationReasonInternalError) then OperationResultUnknown else OperationResultRejected in
  match err with
  | Some e =>
      outcome_of taskID operationType label result reason
        (if bool_decide (ErrTargetKind e = CardRequestTargetKindTask) then ErrTargetID e else ErrTargetTaskID e)
        (if bool_decide (ErrTargetKind e = CardRequestTargetKindSession) then ErrTargetID e else "") (ErrTargetRequestID e)
  | None => outcome_of taskID operationType label result reason "" "" ""
  end.
(** [application] is the target and whether the decision was accepted, when
    there is an application. *)
Definition completedGoOperation (taskID label : string) (application : option (string * bool)) (err : option (option status_error)) : OperationResult :=
  match err with
  | Some err =>
      let op := operationRejection taskID "go" label err in
      match application with
      | Some (target, true) =>
          let task := if str_empty target then OrTargetTaskID op else target in
          if bool_decide (OrResult op = OperationResultUnknown)
          then outcome_of taskID "go" label (OrResult op) OperationReasonSuggestionAcceptedLaunchUnknown task (TargetSessionID op) (TargetRequestID op)
          else outcome_of taskID "go" label OperationResultAccepted OperationReasonSuggestionAcceptedLaunchRejected task (TargetSessionID op)
                 (TargetRequestID op)
      | _ => op
      end
  | None =>
      let target := match application with Some (t, _) => t | None => "" end in
      if str_empty target then outcome_of taskID "go" label OperationResultAccepted OperationReasonRequestAccepted "" "" ""
      else outcome_of taskID "go" label OperationResultStarted OperationReasonExecutionStarted target "" ""
  end.
Definition finalizeOperation (p outcome : OperationResult) : receiptm OperationResult :=
  let r := with_outcome p (OperationLabel outcome) (OrResult outcome) (ReasonCode outcome) (OrTargetTaskID outcome) (TargetSessionID outcome)
             (TargetRequestID outcome) (CurrentPhase p) in
  _ ← UpdateOperationResult r; mret r.
Definition promoteOperationResult (results : list receipt_view) (current : receipt_view) : list receipt_view :=
  current :: filter (λ r, OrID (VRow r) ≠ OrID (VRow current)) results.

(** ** Collecting requests does not change what receipts show *)
#[local] Instance newer_le_total : Total newer_le.
Proof.
  intros [a i] [b j]. unfold newer_le. cbn. destruct (Z.lt_trichotomy a b) as [?|[->|?]]; [by right; left| |by left; left].
  destruct (total String.le i j); [right|left]; right; auto.
Qed.
#[local] Instance newer_le_trans : Transitive newer_le.
Proof.
  intros [a i] [b j] [c k]. unfold newer_le. cbn. intros [?|[-> ?]] [?|[-> ?]]; [left; lia|by left|by left|right; split; [done|by etransitivity]].
Qed.
#[local] Instance newer_le_antisymm : AntiSymm (=) newer_le.
Proof.
  intros [a i] [b j]. unfold newer_le. cbn. intros [H1|[H1 ?]] [H2|[H2 ?]]; [lia..|]. subst. f_equal. by apply (anti_symm String.le).
Qed.

Lemma newest_first_perm l l' : l ≡ₚ l' → merge_sort newer_le l = merge_sort newer_le l'.
Proof.
  intros Hp. apply (Sorted_unique newer_le); [apply (Sorted_merge_sort newer_le)..|].
  etransitivity; [apply merge_sort_Permutation|]. etransitivity; [exact Hp|]. symmetry. apply merge_sort_Permutation.
Qed.

(** A change of receipts that keeps what they are selected and sorted by. *)
Lemma receipt_ids_fmap P f m : (∀ o, P (f o) = P o) → (∀ o, OrCreatedAt (f o) = OrCreatedAt o) → receipt_ids P (f <$> m) = receipt_ids P m.
Proof.
  intros HP Hc. unfold receipt_ids. f_equal. apply newest_first_perm.
  replace (filter (λ kv, P kv.2 = true) (f <$> m)) with (f <$> filter (λ kv, P kv.2 = true) m).
  - rewrite map_to_list_fmap, <- list_fmap_compose. apply (eq_ind_r (λ l, l ≡ₚ _) (reflexivity _)), list_fmap_ext. intros i [k o] _. cbn. by rewrite Hc.
  - rewrite map_filter_fmap. f_equal. apply map_filter_ext. intros i o _. cbn. by rewrite HP.
Qed.

Section Collection.
Context (cutoff : option Z) (s : RDB).
Definition reqs : gmap string CardRequest := card_requests (led (base s)).
Definition gced : RDB :=
  {| base := without_requests cutoff (base s); receipts := preserve cutoff reqs <$> receipts s |}.

Lemma preserve_keeps o :
  OrID (preserve cutoff reqs o) = OrID o ∧ OrTaskID (preserve cutoff reqs o) = OrTaskID o ∧
  OrCreatedAt (preserve cutoff reqs o) = OrCreatedAt o ∧ OrResult (preserve cutoff reqs o) = OrResult o ∧
  ReasonCode (preserve cutoff reqs o) = ReasonCode o ∧ TargetRequestID (preserve cutoff reqs o) = TargetRequestID o.
Proof. unfold preserve. repeat case_match; done. Qed.

Lemma joined_gced o :
  joined_request gced o = match reqs !! TargetRequestID o with Some r => if collected cutoff r then None else Some r | None => None end.
Proof.
  unfold joined_request, gced, reqs. cbn. destruct (card_requests (led (base s)) !! TargetRequestID o) as [r|] eqn:Hr.
  - destruct (collected cutoff r) eqn:Hc; [apply map_lookup_filter_None; right|apply map_lookup_filter_Some]; naive_solver congruence.
  - apply map_lookup_filter_None. by left.
Qed.

(** What a collected request says is in the receipt, the rest is joined as
    before. *)
Lemma resolved_gced o : resolved (joined_request gced (preserve cutoff reqs o)) (preserve cutoff reqs o) = resolved (joined_request s o) o.
Proof.
  rewrite joined_gced. destruct (preserve_keeps o) as (_ & _ & _ & _ & _ & ->). unfold preserve, joined_request.
  fold reqs. destruct (reqs !! TargetRequestID o) as [r|] eqn:Hr; [|done].
  destruct (collected cutoff r) eqn:Hc; [|done]. unfold resolved, with_outcome. cbn. f_equal.
  unfold phase. destruct (awaits_request o); [|done]. cbn. unfold collected in Hc.
  destruct (bool_decide (RStatus r = CardRequestStatusFailed)) eqn:Hf; [done|]. rewrite orb_false_r in Hc.
  apply andb_true_iff in Hc as [-> _]. by rewrite orb_true_r.
Qed.
Lemma view_gced o : shown gced (preserve cutoff reqs o) = shown s o.
Proof. unfold shown. by rewrite resolved_gced. Qed.

Lemma list_gced P limit :
  (∀ o, P (preserve cutoff reqs o) = P o) → listOperationResults P limit gced = listOperationResults P limit s.
Proof.
  intros HP. unfold listOperationResults. cbn.
  rewrite receipt_ids_fmap by (auto; intros o; apply preserve_keeps).
  assert (∀ ids, omap (λ id, shown gced <$> (preserve cutoff reqs <$> receipts s) !! id) ids = omap (λ id, shown s <$> receipts s !! id) ids) as ->;
    [|done].
  intros ids. induction ids as [|id ids IH]; [done|]. cbn. rewrite IH, lookup_fmap. destruct (receipts s !! id); [|done]. cbn.
  by rewrite view_gced.
Qed.
End Collection.

Lemma GCCardRequests_run older s :
  GCCardRequests older false s =
    (gced (if 0 <? older then Some (clock (led (base s)) - older) else None) s,
     inr (size (filter (λ kv : string * CardRequest, collected (if 0 <? older then Some (clock (led (base s)) - older) else None) kv.2 = true)
                  (card_requests (led (base s)))))).
Proof. unfold GCCardRequests. by rewrite !bind_gets. Qed.

(** C38.  Receipts outlive their requests: collecting finished and failed card
    requests, of any age, changes nothing a reader of receipts sees (the last
    ones of a card, all of them, a single one), neither the task or session
    an operation led to nor how far its request came; queued, launching,
    attached and folded requests, and those too young, stay. *)
Theorem receipts_outlive_their_requests older taskID id limit s :
  let cutoff := if 0 <? older then Some (clock (led (base s)) - older) else None in
  let s' := (GCCardRequests older false s).1 in
  ListOperationResults taskID limit s' = ListOperationResults taskID limit s ∧
  AllOperationResults taskID s' = AllOperationResults taskID s ∧
  GetOperationResult taskID id s' = GetOperationResult taskID id s ∧
  ∀ k r, card_requests (led (base s')) !! k = Some r ↔
    card_requests (led (base s)) !! k = Some r ∧
    ((RStatus r ≠ CardRequestStatusFinished ∧ RStatus r ≠ CardRequestStatusFailed) ∨ (0 < older ∧ clock (led (base s)) - older ≤ RUpdatedAt r)).
Proof.
  intros cutoff s'. unfold s'. rewrite GCCardRequests_run. fold cutoff. cbn [fst].
  assert (∀ t o, of_task t (preserve cutoff (reqs s) o) = of_task t o) as Hof.
  { intros t o. unfold of_task. by destruct (preserve_keeps cutoff s o) as (_ & -> & _). }
  split_and!; [by apply list_gced..|unfold GetOperationResult; rewrite list_gced; [done|]|].
  - intros o. by destruct (preserve_keeps cutoff s o) as (-> & _); rewrite Hof.
  - intros k r. unfold gced. cbn. rewrite map_lookup_filter_Some. apply and_iff_compat_l. cbn. unfold collected, cutoff.
    rewrite andb_false_iff, orb_false_iff, !bool_decide_eq_false. destruct (Z.ltb_spec 0 older); [rewrite Z.ltb_ge|]; intuition (lia || done).
Qed.

(** ** Receipts are settled once *)

(** Anything that changes the table of receipts, with the rest of the database
    free to change in between. *)
Inductive receipt_step (uuid : nat → string) : RDB → RDB → Prop :=
  | step_create r s : receipt_step uuid s (CreateOperationResult uuid r s).1
  | step_finalize p o s : receipt_step uuid s (finalizeOperation p o s).1
  | step_gc older dry s : receipt_step uuid s (GC older dry s).1
  | step_other b s : receipt_step uuid s {| base := b; receipts := receipts s |}.

(** The same operation with the same outcome; only where it led to and how far
    it came may have been filled in. *)
Definition same_outcome (o o' : OperationResult) : Prop :=
  OrID o' = OrID o ∧ OrTaskID o' = OrTaskID o ∧ OrCreatedAt o' = OrCreatedAt o ∧ OperationType o' = OperationType o ∧
  OperationLabel o' = OperationLabel o ∧ OrResult o' = OrResult o ∧ ReasonCode o' = ReasonCode o ∧ TargetRequestID o' = TargetRequestID o.

Lemma same_outcome_refl o : same_outcome o o.
Proof. done. Qed.
Lemma same_outcome_trans a b c : same_outcome a b → same_outcome b c → same_outcome a c.
Proof. unfold same_outcome. intuition congruence. Qed.
Lemma same_outcome_pending o o' : same_outcome o o' → still_pending o' = still_pending o.
Proof. unfold same_outcome, still_pending. intros (_ & _ & _ & _ & _ & -> & -> & _). done. Qed.
Create HintDb receipts.
#[local] Hint Resolve same_outcome_refl : receipts.

Lemma receipts_on_base {A} (m : taskm A) s : receipts (on_base m s).1 = receipts s ∧ base (on_base m s).1 = (m (base s)).1.
Proof. unfold on_base. by destruct (m (base s)). Qed.

(** An operation on the tables of the tasks, then something else. *)
Lemma receipts_bind_base {A B} (m : taskm A) (k : A → receiptm B) s :
  (on_base m ≫= k) s = match m (base s) with
                       | (b, inr a) => k a {| base := b; receipts := receipts s |}
                       | (b, inl e) => ({| base := b; receipts := receipts s |}, inl e)
                       end.
Proof. unfold mbind, dbm_bind, on_base. by destruct (m (base s)) as [b [e|a]]. Qed.

(** A settled receipt of [s] is still there in [s'], with its outcome. *)
Definition kept (s s' : RDB) : Prop :=
  ∀ id o, receipts s !! id = Some o → still_pending o = false → ∃ o', receipts s' !! id = Some o' ∧ same_outcome o o'.
Lemma kept_same s s' : receipts s' = receipts s → kept s s'.
Proof. intros Heq id o Ho _. rewrite Heq. eauto with receipts. Qed.

Lemma CreateOperationResult_kept uuid r s : kept s (CreateOperationResult uuid r s).1.
Proof.
  assert (∀ id b, kept s ((time ← on_base now;
    let r := named r id time in
    taken ← gets (λ s, bool_decide (is_Some (receipts s !! id)));
    _ ← fail_if (taken || negb (known_result (OrResult r))) (WInternal "create operation result");
    _ ← modify (λ s, set_receipts s (<[id := r]> (receipts s))); mret r) {| base := b; receipts := receipts s |}).1) as Hins.
  { intros id b. rewrite receipts_bind_base. unfold now. cbn. rewrite bind_gets. cbn.
    case_bool_decide as Ht; [by apply kept_same|]. cbn. destruct (known_result _); [|by apply kept_same].
    intros k o Ho _. exists o. split; [|auto with receipts]. change (<[id := named r id (clock (led b))]> (receipts s) !! k = Some o). rewrite lookup_insert_ne; [done|]. intros ->. by rewrite Ho in Ht; destruct Ht. }
  unfold CreateOperationResult. destruct (str_empty (OrID r)).
  - rewrite receipts_bind_base. destruct (on_ledger (new_uuid uuid) (base s)) as [b [e|id]]; [by apply kept_same|apply Hins].
  - destruct s as [b rs]. apply (Hins (OrID r) b).
Qed.

Lemma UpdateOperationResult_settled r s o :
  receipts s !! OrID r = Some o → still_pending o = false → UpdateOperationResult r s = (s, inl (WInternal "pending receipt not found")).
Proof. intros Ho Hp. unfold UpdateOperationResult. rewrite bind_gets, Ho, Hp. by rewrite andb_false_r. Qed.

Lemma finalizeOperation_kept p out s : kept s (finalizeOperation p out s).1.
Proof.
  unfold finalizeOperation. set (r := with_outcome p _ _ _ _ _ _ _).
  assert (kept s (UpdateOperationResult r s).1) as Hu.
  { unfold UpdateOperationResult. rewrite bind_gets. destruct (receipts s !! OrID r) as [o|] eqn:Ho; [|by apply kept_same].
    destruct (bool_decide (OrTaskID o = OrTaskID r) && still_pending o) eqn:Hp; [|by apply kept_same]. cbn.
    destruct (known_result (OrResult out)); [|by apply kept_same]. intros k o' Ho' Hs. apply andb_true_iff in Hp as [_ Hp].
    exists o'. split; [|auto with receipts]. apply lookup_insert_Some. right. split; [|done]. intros Hk. cbn in Hk, Ho. subst k. rewrite Ho in Ho'. congruence. }
  unfold mbind, dbm_bind. by destruct (UpdateOperationResult r s) as [s' [e|x]].
Qed.

Lemma GCTasks_clock statuses older dry s : clock (led (GCTasks statuses older dry s).1) = clock (led s).
Proof.
  destruct (decide (statuses = [])) as [->|Hne]; [done|]. destruct dry.
  - unfold GCTasks, now. rewrite bool_decide_eq_false_2 by done. by rewrite !bind_gets.
  - by destruct (GCTasks_run statuses older s Hne) as [r ->].
Qed.

(** A pass of the collection takes receipts of more than thirty days. *)
Lemma GC_kept older dry s id o :
  receipts s !! id = Some o → clock (led (base s)) - 30 * one_day ≤ OrCreatedAt o →
  ∃ o', receipts (GC older dry s).1 !! id = Some o' ∧ same_outcome o o'.
Proof.
  intros Ho Hage. unfold GC, InTxDB. rewrite receipts_bind_base.
  pose proof (GCTasks_clock (filter (λ st, IsTerminalStatus st = true) KnownTaskStatuses) older dry (base s)) as Hclock.
  destruct (GCTasks _ _ _ _) as [b [e|g]]; [eauto with receipts|]. cbn in Hclock.
  set (s1 := {| base := b; receipts := receipts s |}).
  assert (∃ s2 n, GCOperationResults (30 * one_day) dry s1 = (s2, inr n) ∧ receipts s2 !! id = Some o) as (s2 & n & Hrun & Ho2).
  { unfold GCOperationResults. rewrite bind_gets. destruct dry; eexists _, _; (split; [reflexivity|]); [done|]. cbn.
    rewrite lookup_difference_Some. split; [done|]. apply map_lookup_filter_None. right. intros x Hx. simplify_eq. cbn. lia. }
  rewrite (bind_run _ _ _ _ _ Hrun). destruct dry; [exists o; auto with receipts|].
  rewrite (bind_run _ _ _ _ _ (GCCardRequests_run older s2)). eexists. split.
  - unfold mret, dbm_ret, gced. cbn [fst receipts]. by rewrite lookup_fmap, Ho2.
  - unfold preserve, same_outcome. repeat case_match; done.
Qed.

(** A step within thirty days of the receipt. *)
Definition young_step (uuid : nat → string) (created : Z) (s s' : RDB) : Prop :=
  receipt_step uuid s s' ∧ clock (led (base s)) - 30 * one_day ≤ created.

Lemma receipt_step_kept uuid s s' id o :
  young_step uuid (OrCreatedAt o) s s' → receipts s !! id = Some o → still_pending o = false →
  ∃ o', receipts s' !! id = Some o' ∧ same_outcome o o'.
Proof.
  intros [Hstep Hage] Ho Hp.
  destruct Hstep; [by eapply CreateOperationResult_kept|by eapply finalizeOperation_kept|by apply GC_kept|by eapply kept_same].
Qed.

(** A receipt is settled once: whatever is created, finalized and
    collected afterwards, and however the other tables change, a receipt whose
    outcome is recorded keeps that outcome for thirty days, and finalizing it
    again fails and changes nothing. *)
Theorem receipts_settle_once uuid s s' id o :
  rtc (young_step uuid (OrCreatedAt o)) s s' → receipts s !! id = Some o → still_pending o = false →
  ∃ o', receipts s' !! id = Some o' ∧ same_outcome o o' ∧
    ∀ p out, OrID p = id → finalizeOperation p out s' = (s', inl (WInternal "pending receipt not found")).
Proof.
  intros Hrun Ho Hp. assert (∃ o', receipts s' !! id = Some o' ∧ same_outcome o o') as (o' & Ho' & Hsame).
  { remember (OrCreatedAt o) as c eqn:Hc. revert o Ho Hp Hc.
    induction Hrun as [s|s s1 s2 Hstep _ IH]; intros o Ho Hp ->; [eauto with receipts|].
    destruct (receipt_step_kept _ _ _ _ _ Hstep Ho Hp) as (o1 & Ho1 & H1).
    destruct (IH o1) as (o2 & Ho2 & H2); [done|by rewrite (same_outcome_pending _ _ H1)|symmetry; apply H1|].
    exists o2. eauto using same_outcome_trans. }
  exists o'. split_and!; [done..|]. intros p out <-. unfold finalizeOperation. apply bind_stop.
  apply (UpdateOperationResult_settled _ _ o'); [done|]. by rewrite (same_outcome_pending _ _ Hsame).
Qed.

(** ** A receipt from the click to the collection *)
Definition receipts_db : RDB := {| base := rows_db; receipts := ∅ |}.
Definition go_receipt : OperationResult := pendingOperation "op" "card" "go" "Go" 10.
(** The receipt is written before the operation runs and settled after it. *)
Definition go_story : receiptm OperationResult :=
  p ← CreateOperationResult sample_uuid go_receipt;
  finalizeOperation p (completedGoOperation "card" "Go" (Some ("01234567-89ab", true)) None).
Definition settled_receipt : OperationResult :=
  {| OrID := "op"; OrTaskID := "card"; OperationType := "go"; OperationLabel := "Go"; OrResult := OperationResultStarted;
     ReasonCode := OperationReasonExecutionStarted; OrTargetTaskID := "01234567-89ab"; TargetSessionID := ""; TargetRequestID := "";
     CurrentPhase := ""; OrCreatedAt := 10 |}.

Lemma receipts_settle_once_witness :
  ∃ s o', (GC 0 false (go_story receipts_db).1).1 = s ∧ receipts s !! "op" = Some o' ∧ same_outcome settled_receipt o' ∧
    finalizeOperation go_receipt (operationRejection "card" "go" "Go" None) s = (s, inl (WInternal "pending receipt not found")).
Proof.
  destruct (receipts_settle_once sample_uuid (go_story receipts_db).1 (GC 0 false (go_story receipts_db).1).1 "op" settled_receipt)
    as (o' & Ho & Hsame & Hagain).
  - apply rtc_once. split; [apply step_gc|vm_compute; discriminate].
  - vm_compute. reflexivity.
  - reflexivity.
  - exists (GC 0 false (go_story receipts_db).1).1, o'. split; [reflexivity|]. split; [exact Ho|]. split; [exact Hsame|].
    apply Hagain. reflexivity.
Defined.
