(* ===== verification/CardWorkflow.v ===== *)
(** * Card workflow

    Models internal/api/workflow_card.go and suggestion_accept.go: the payloads
    and side effects of the card actions, the card's single work slot, the
    bookkeeping on a parent when a child ends, and the two verbs with a flow
    of their own, [acceptGo] and [applyAnswered].

    A handler runs several transactions.  Other requests may commit between
    two of them: [others] of the class [WorkflowEnv] is what they do, at any
    point marked [yield_].  Inside [InTxDB] nothing interferes (the database
    has one connection).  Broadcasts, notifications and logging are left out;
    error messages are not kept, only what the code branches on. *)
From S2P Require Import Prelude Json Task Machine Store CardDetail CardRequests CardDispatch TaskStore.

(** ** Environment *)

(** What a handler reads from its context. *)
Record Ctx : Type := {
  CtxActor : string;
  CtxWriter : option string;
  CtxCanceled : bool;
}.
Definition daemon_ctx : Ctx := {| CtxActor := ActorDaemon; CtxWriter := None; CtxCanceled := false |}.

(** The fields of apiwire.CreateTaskRequest [acceptGo] sets. *)
Record CreateTaskRequest : Type := {
  CtrProjectID : string;
  CtrTitle : string;
  CtrDescription : string;
  CtrBehavior : string;
  CtrInstruction : string;
  CtrParentID : string;
  CtrRef : string;
  CtrAutoStart : bool;
  CtrCardRequestID : string;
  CtrCardRequestOwnerJobID : string;
}.

(** The interfaces the service is wired with ([TaskCreator], the launcher
    behind tryDispatchQueuedCardRequest, uuid.New, the card event resolver),
    time.Parse for RFC 3339, and the interference of concurrent requests. *)
Class WorkflowEnv : Type := {
  uuid : nat → string;
  card_events : option CardEventResolver;
  parse_rfc3339 : string → option Z;
  err_text : werr → string;
  tryDispatchQueuedCardRequest : string → WDB → WDB;
  TaskCreator_CreateTask : CreateTaskRequest → taskm Task;
  others : nat → WDB → WDB;
}.

Definition bad_request {A} : taskm A := throw (WStatus 400).
Definition conflict {A} : taskm A := throw (WStatus 409).

(** [statusErrorForGetTaskErr], and how a handler reports a failed Tx. *)
Definition statusErrorForGetTaskErr (e : werr) : werr :=
  match e with WTaskNotFound => WStatus 404 | _ => WStatus 500 end.
Definition txStatus (e : werr) : werr :=
  match e with WStatus _ => e | _ => WStatus 500 end.

(** [json.Unmarshal] of a payload into a struct of string fields; an error is
    a 400. *)
Definition unmarshal_strings (names : list string) (payload : raw) : taskm (list string) :=
  match payload with
  | RText _ v => match decode_struct names v with
                 | (vs, true) => mret vs
                 | _ => bad_request
                 end
  | _ => bad_request
  end.

(** [json.Marshal] of a map[string]string. *)
Definition string_map (fs : list (string * string)) : raw :=
  marshal_map (Some (JStr <$> list_to_map fs)).

(** ** Payloads *)
Record parkPayload : Type := { PkWakeAt : string; PkWakeTaskID : string }.
Record childAddedPayload : Type := { CaID : string; CaTitle : string }.
Record childDroppedPayload : Type := { CdID : string; CdReason : string }.
Record childSpeccedPayload : Type := {
  CsID : string;
  CsTitle : string;
  CsProject : string;
  CsBehavior : string;
  CsDescription : string;
  CsInstruction : string;
}.

Definition parseChildAddedPayload (payload : raw) : taskm childAddedPayload :=
  vs ← unmarshal_strings ["id"; "title"] payload;
  match vs with
  | [id; title] => if str_empty id then bad_request else mret {| CaID := id; CaTitle := title |}
  | _ => bad_request
  end.

Definition parseChildDroppedPayload (payload : raw) : taskm childDroppedPayload :=
  vs ← unmarshal_strings ["id"; "reason"] payload;
  match vs with
  | [id; reason] => if str_empty id then bad_request else mret {| CdID := id; CdReason := reason |}
  | _ => bad_request
  end.

Definition parseChildSpeccedPayload (payload : raw) : taskm childSpeccedPayload :=
  vs ← unmarshal_strings ["id"; "title"; "project"; "behavior"; "description"; "instruction"] payload;
  match vs with
  | [id; title; project; behavior; description; instruction] =>
      if str_empty id || str_empty project then bad_request
      else mret {| CsID := id; CsTitle := title; CsProject := project; CsBehavior := behavior;
                   CsDescription := description; CsInstruction := instruction |}
  | _ => bad_request
  end.

Definition parseNotedPayload (payload : raw) : taskm unit :=
  match payload with RBad _ => bad_request | _ => mret () end.

Record answeredPayload : Type := { AnAnswer : string; AnVerb : string; AnBasis : string }.
Definition answeredAnswerAccept : string := "accept".
Definition answeredAnswerReject : string := "reject".

Definition parseAnsweredPayload (payload : raw) : taskm answeredPayload :=
  vs ← unmarshal_strings ["answer"; "verb"; "basis"] payload;
  match vs with
  | [answer; verb; basis] =>
      if bool_decide (answer ∈ [answeredAnswerAccept; answeredAnswerReject])
      then mret {| AnAnswer := answer; AnVerb := verb; AnBasis := basis |}
      else bad_request
  | _ => bad_request
  end.

(** Suggestions: attrs.suggestion as the write side sees it. *)
Record suggestionParams : Type := { SpWakeAt : string; SpWakeTaskID : string }.
Record suggestionAttr : Type := { SaVerb : string; SaReason : string; SaParams : suggestionParams }.
Definition zero_suggestion : suggestionAttr :=
  {| SaVerb := ""; SaReason := ""; SaParams := {| SpWakeAt := ""; SpWakeTaskID := "" |} |}.

Definition params_member (p : suggestionParams) (k : string) (v : json) : suggestionParams * bool :=
  if field_matches "wake_at" k then
    let r := dec_string (SpWakeAt p) v in ({| SpWakeAt := r.1; SpWakeTaskID := SpWakeTaskID p |}, r.2)
  else if field_matches "wake_task_id" k then
    let r := dec_string (SpWakeTaskID p) v in ({| SpWakeAt := SpWakeAt p; SpWakeTaskID := r.1 |}, r.2)
  else (p, true).

Definition suggestion_member (s : suggestionAttr) (k : string) (v : json) : suggestionAttr * bool :=
  if field_matches "verb" k then
    let r := dec_string (SaVerb s) v in ({| SaVerb := r.1; SaReason := SaReason s; SaParams := SaParams s |}, r.2)
  else if field_matches "reason" k then
    let r := dec_string (SaReason s) v in ({| SaVerb := SaVerb s; SaReason := r.1; SaParams := SaParams s |}, r.2)
  else if field_matches "params" k then
    let r := dec_struct params_member (SaParams s) v in
    ({| SaVerb := SaVerb s; SaReason := SaReason s; SaParams := r.1 |}, r.2)
  else (s, true).

Definition unmarshal_suggestion (v : json) : suggestionAttr * bool :=
  dec_struct suggestion_member zero_suggestion v.

(** attrs_set. *)
Definition promotedAttrVocabulary (key : string) : list string :=
  if bool_decide (key = "urgency") then ["now"; "today"; "week"; "someday"]
  else if bool_decide (key = "kind") then ["signal"; "issue"; "theme"]
  else if bool_decide (key = "suggestion") then ["go"; "start"; "park"; "drop"; "complete"; "reopen"]
  else [].

Record attrsSetPatch : Type := {
  Attrs : gmap string json;
  PUrgency : option string;
  PKind : option string;
  PVerb : option string;
}.

Definition parsePromotedAttr (key : string) (v : json) : taskm string :=
  match v with
  | JNull => mret ""
  | JStr value => if bool_decide (value ∈ promotedAttrVocabulary key) then mret value else bad_request
  | _ => bad_request
  end.

Section env.
Context `{WorkflowEnv}.

Definition yield_ (n : nat) : taskm unit := modify (others n).
Definition CreateAction_ (writer : option string) (a : Action) : taskm unit :=
  CreateAction uuid card_events writer a.
Definition new_action (taskID type : string) (payload : raw) (from to : TaskStatus) (actor : string) : Action :=
  {| AID := ""; ATaskID := taskID; AType := type; APayload := payload; AFromStatus := from; AToStatus := to;
     ACreatedAt := 0; Actor := actor |}.

Definition parseParkPayload (payload : raw) : taskm parkPayload :=
  if len0 payload then mret {| PkWakeAt := ""; PkWakeTaskID := "" |}
  else
    vs ← unmarshal_strings ["wake_at"; "wake_task_id"] payload;
    match vs with
    | [wake_at; wake_task_id] =>
        if negb (str_empty wake_at) && negb (bool_decide (is_Some (parse_rfc3339 wake_at))) then bad_request
        else mret {| PkWakeAt := wake_at; PkWakeTaskID := wake_task_id |}
    | _ => bad_request
    end.

(** The normalized suggestion and its verb. *)
Definition validateSuggestionAttr (v : json) : taskm (json * string) :=
  match v with
  | JNull => mret (v, "")
  | _ =>
      let '(s, ok) := unmarshal_suggestion v in
      _ ← fail_if (negb ok) (WStatus 400);
      let verb := NormalizeCardVerb (SaVerb s) in
      _ ← fail_if (negb (IsCardTransitionAction verb)) (WStatus 400);
      let wake_at := SpWakeAt (SaParams s) in
      _ ← fail_if (negb (str_empty wake_at) && negb (bool_decide (is_Some (parse_rfc3339 wake_at)))) (WStatus 400);
      if bool_decide (verb = SaVerb s) then mret (v, verb)
      else match value_map v with
           | Some (Some m) => mret (obj_of_map (<["verb" := JStr verb]> m), verb)
           | _ => bad_request
           end
  end.

(** One entry of the payload; Go enumerates the map in some order, and every
    error is a 400, so the order does not show. *)
Definition attrs_set_entry (patch : attrsSetPatch) (kv : string * json) : taskm attrsSetPatch :=
  let '(k, v) := kv in
  if bool_decide (k = "urgency") then
    value ← parsePromotedAttr k v;
    mret {| Attrs := Attrs patch; PUrgency := Some value; PKind := PKind patch; PVerb := PVerb patch |}
  else if bool_decide (k = "kind") then
    value ← parsePromotedAttr k v;
    mret {| Attrs := Attrs patch; PUrgency := PUrgency patch; PKind := Some value; PVerb := PVerb patch |}
  else if bool_decide (k = "suggestion") then
    nv ← validateSuggestionAttr v;
    mret {| Attrs := <[k := nv.1]> (Attrs patch); PUrgency := PUrgency patch; PKind := PKind patch; PVerb := Some nv.2 |}
  else mret {| Attrs := <[k := v]> (Attrs patch); PUrgency := PUrgency patch; PKind := PKind patch; PVerb := PVerb patch |}.

Fixpoint attrs_set_entries (patch : attrsSetPatch) (kvs : list (string * json)) : taskm attrsSetPatch :=
  match kvs with
  | [] => mret patch
  | kv :: kvs => patch ← attrs_set_entry patch kv; attrs_set_entries patch kvs
  end.

Definition parseAttrsSetObject (payload : raw) : taskm (gmap string json) :=
  match unmarshal_map payload with
  | Some (Some m) => if bool_decide (m = ∅) then bad_request else mret m
  | _ => bad_request
  end.

Definition empty_patch : attrsSetPatch := {| Attrs := ∅; PUrgency := None; PKind := None; PVerb := None |}.

Definition parseAttrsSetPayload (payload : raw) : taskm attrsSetPatch :=
  m ← parseAttrsSetObject payload;
  attrs_set_entries empty_patch (map_to_list m).

(** ** Side effects inside the transaction *)
Definition fresh_attrs (taskID : string) : CardAttrs :=
  {| CTaskID := taskID; Kind := ""; Urgency := ""; WakeAt := None; WakeTaskID := ""; SuggestionVerb := ""; Detail := REmpty |}.

Definition set_Detail (c : CardAttrs) (d : raw) : CardAttrs :=
  {| CTaskID := CTaskID c; Kind := Kind c; Urgency := Urgency c; WakeAt := WakeAt c; WakeTaskID := WakeTaskID c;
     SuggestionVerb := SuggestionVerb c; Detail := d |}.
Definition set_Wake (c : CardAttrs) (at_ : option Z) (task : string) : CardAttrs :=
  {| CTaskID := CTaskID c; Kind := Kind c; Urgency := Urgency c; WakeAt := at_; WakeTaskID := task;
     SuggestionVerb := SuggestionVerb c; Detail := Detail c |}.
Definition clear_Verb (c : CardAttrs) : CardAttrs :=
  {| CTaskID := CTaskID c; Kind := Kind c; Urgency := Urgency c; WakeAt := WakeAt c; WakeTaskID := WakeTaskID c;
     SuggestionVerb := ""; Detail := Detail c |}.

(** The sidecar, or an empty one when there is no row. *)
Definition triage_or_fresh (taskID : string) : taskm CardAttrs :=
  r ← try_ (GetTaskTriage taskID);
  match r with
  | inr tri => mret tri
  | inl WNoRows => mret (fresh_attrs taskID)
  | inl e => throw e
  end.

Definition applyParkSideEffect (taskID : string) (p : parkPayload) : taskm unit :=
  tri ← triage_or_fresh taskID;
  wake_at ← (if str_empty (PkWakeAt p) then mret None
             else match parse_rfc3339 (PkWakeAt p) with Some t => mret (Some t) | None => bad_request end);
  UpsertTaskTriage (set_Wake tri wake_at (PkWakeTaskID p)).

(** The tasks a card command was continued in: they do not take the spec slot. *)
Definition is_command_continuation (req : CardRequest) : bool :=
  bool_decide (RStatus req = CardRequestStatusAttached) && negb (bool_decide (CommandKey req = CardRequestCommandKeyGo))
  && bool_decide (TargetKind req = CardRequestTargetKindTask) && negb (str_empty (TargetID req)).

Definition open_children (parentID : string) (s : WDB) : list Task :=
  filter (λ c, IsTerminalStatus (Status c) = false) (ListChildren parentID s).

Definition cardSpecSlotOccupied (cardID : string) : taskm bool :=
  card ← GetTask cardID;
  count ← gets (OpenChildCount card);
  busy ← (if (0 <? count)%nat then
            live ← gets (open_children cardID);
            continuations ← gets (λ s, TargetID <$> filter (λ r, is_command_continuation r = true)
                                                     (ListCardRequestsByCard cardID (led s)));
            mret (existsb (λ c, negb (bool_decide (ID c ∈ continuations))) live || (length live <? count)%nat)
          else mret false);
  if (busy : bool) then mret true
  else
    r ← try_ (GetTaskTriage cardID);
    match r with
    | inl WNoRows => mret false
    | inl e => throw e
    | inr tri => occupant ← lift (DetailOpenSlotChildID (Detail tri)); mret (negb (str_empty occupant))
    end.

Definition cardSpecOrExecutionSlotOccupied (cardID : string) : taskm bool :=
  active ← gets (λ s, CountActiveCardRequests cardID (led s));
  if (0 <? active)%nat then mret true else cardSpecSlotOccupied cardID.

Definition applyChildAddedSideEffect (taskID : string) (p : childAddedPayload) : taskm unit :=
  tri ← triage_or_fresh taskID;
  existing ← lift (DetailChildren (Detail tri));
  let isResend := existsb (λ c, bool_decide (ChID c = CaID p)) existing in
  _ ← (if (isResend : bool) then mret ()
       else occupied ← cardSpecSlotOccupied taskID;
            if (occupied : bool) then conflict else mret ());
  newDetail ← lift (AddDetailChild (Detail tri)
                {| ChID := CaID p; ChTitle := CaTitle p; ChStatus := ""; ChSpec := None; TaskRef := "" |});
  UpsertTaskTriage (set_Detail tri newDetail).

Definition applyChildDroppedSideEffect (taskID : string) (p : childDroppedPayload) : taskm unit :=
  tri ← triage_or_fresh taskID;
  match DropDetailChild (Detail tri) (CdID p) with
  | Ok (newDetail, changed) =>
      if (changed : bool) then UpsertTaskTriage (set_Detail tri newDetail) else mret ()
  | Err _ => conflict
  | Panic => throw (WInternal "panic")
  end.

Definition applyChildSpeccedSideEffect (taskID : string) (p : childSpeccedPayload) : taskm unit :=
  tri ← triage_or_fresh taskID;
  match SpecDetailChild (Detail tri) (CsID p)
          {| SProject := CsProject p; SBehavior := CsBehavior p; SDescription := CsDescription p;
             SInstruction := CsInstruction p |} (CsTitle p) with
  | Ok newDetail => UpsertTaskTriage (set_Detail tri newDetail)
  | Err _ => conflict
  | Panic => throw (WInternal "panic")
  end.

(** Whether the stored verb changed. *)
Definition applyAttrsSetSideEffect (taskID : string) (patch : attrsSetPatch) : taskm bool :=
  tri ← triage_or_fresh taskID;
  let oldVerb := SuggestionVerb tri in
  detail ← (if bool_decide (Attrs patch = ∅) then mret (Detail tri) else lift (FoldDetailAttrs (Detail tri) (Attrs patch)));
  detail ← lift (StripDetailAttrs detail ["urgency"; "kind"]);
  _ ← UpsertTaskTriage {| CTaskID := CTaskID tri; Kind := default (Kind tri) (PKind patch);
                          Urgency := default (Urgency tri) (PUrgency patch); WakeAt := WakeAt tri;
                          WakeTaskID := WakeTaskID tri; SuggestionVerb := default oldVerb (PVerb patch);
                          Detail := detail |};
  mret (match PVerb patch with Some verb => negb (bool_decide (verb = oldVerb)) | None => false end).

Definition applyAnsweredSideEffect (taskID : string) : taskm unit :=
  r ← try_ (GetTaskTriage taskID);
  match r with
  | inl WNoRows => mret ()
  | inl e => throw e
  | inr tri =>
      stripped ← lift (StripDetailAttrs (Detail tri) ["suggestion"]);
      UpsertTaskTriage (clear_Verb (set_Detail tri stripped))
  end.

Definition recordAndStripSuggestionIfPresent (writer : option string) (taskID : string) (transition : Action) : taskm unit :=
  r ← try_ (GetTaskTriage taskID);
  match r with
  | inl WNoRows => mret ()
  | inl e => throw e
  | inr tri =>
      match DetailSuggestion (Detail tri) with
      | None => mret ()
      | Some suggestion =>
          if str_empty (Verb suggestion) then mret ()
          else
            _ ← CreateAction_ writer (new_action taskID "suggestion_discarded"
                  (string_map [("verb", Verb suggestion); ("reason", Reason suggestion);
                               ("superseding_action", AType transition)])
                  (AFromStatus transition) (AToStatus transition) (Actor transition));
            stripped ← lift (StripDetailAttrs (Detail tri) ["suggestion"]);
            UpsertTaskTriage (clear_Verb (set_Detail tri stripped))
      end
  end.

(** ** Bookkeeping outside the caller's transaction *)

(** A best-effort step: its error is logged, not returned. *)
Definition best_effort {A} (m : taskm A) : taskm unit := _ ← try_ m; mret ().

Definition dispatch_error_payload (text : string) (orphaned : list string) : raw :=
  marshal_map (Some (<["error" := JStr text]>
    (if bool_decide (orphaned = []) then ∅ else {["orphaned_child_task_ids" := JArr (JStr <$> orphaned)]}))).

(** [recordDispatchError], given the text of the error. *)
Definition record_dispatch_error (ctx : Ctx) (taskID : string) (taskStatus : TaskStatus) (text : string) (orphaned : list string)
    : taskm unit :=
  if str_empty taskID then mret ()
  else best_effort (InTxDB (CreateAction_ (CtxWriter ctx)
         (new_action taskID "dispatch_error" (dispatch_error_payload text orphaned) taskStatus taskStatus ActorDaemon))).

Definition recordDispatchError (ctx : Ctx) (taskID : string) (taskStatus : TaskStatus) (err : werr) (orphaned : list string)
    : taskm unit :=
  record_dispatch_error ctx taskID taskStatus (err_text err) orphaned.

Definition dec_at {A} (name : string) (d : decoder A) : decoder A :=
  dec_struct (λ cur k v, if field_matches name k then d cur v else (cur, true)).

Definition childResultSummary (task : Task) : string :=
  match Exec task with
  | None => ""
  | Some e =>
      match Payload e with
      | RText _ v =>
          let r := dec_at "artifact" (dec_at "report" (dec_at "summary" dec_string)) "" v in
          if r.2 then r.1 else ""
      | _ => ""
      end
  end.

(** Closes the child on the parent's blob and logs it; false when there is
    nothing to record. *)
Definition close_child_tx (parentID childTaskID : string) (payload : raw) : taskm bool :=
  r ← try_ (GetTaskTriage parentID);
  match r with
  | inl WNoRows => mret false
  | inl e => throw e
  | inr tri =>
      marked ← lift (MarkDetailChildClosed (Detail tri) childTaskID);
      if negb marked.2 then mret false
      else
        _ ← UpsertTaskTriage (set_Detail tri marked.1);
        parentTask ← GetTask parentID;
        _ ← CreateAction_ None (new_action parentID "child_closed" payload (Status parentTask) (Status parentTask) ActorDaemon);
        _ ← TouchTaskUpdatedAt parentID;
        mret true
  end.

Definition close_child (parentID childTaskID : string) (payload : raw) : taskm unit :=
  r ← try_ (InTxDB (close_child_tx parentID childTaskID payload));
  match r with
  | inr true => modify (tryDispatchQueuedCardRequest parentID)
  | _ => mret ()
  end.

Definition recordChildClosedOnParent (task : Task) : taskm unit :=
  if str_empty (ParentID task) then mret ()
  else close_child (ParentID task) (ID task)
         (string_map [("child_id", ID task); ("child_status", Status task); ("child_title", Title task);
                      ("child_project", ProjectID task); ("summary", childResultSummary task)]).

(** The sweep's variant for a child whose task is gone (queue_sweep.go). *)
Definition recordVanishedChildClosedOnParent (parentTaskID childTaskRef : string) : taskm unit :=
  close_child parentTaskID childTaskRef (string_map [("child_id", childTaskRef); ("child_status", "vanished")]).

Definition releaseCardRequestForTerminalTask (task : Task) : taskm unit :=
  let success := bool_decide (Status task = TaskStatusDone) in
  r ← try_ (InTxDB (on_ledger (ReleaseCardRequestForTerminalTargetWithCard uuid CardRequestTargetKindTask (ID task) success)));
  match r with
  | inr (true, cardID) => if str_empty cardID then mret () else modify (tryDispatchQueuedCardRequest cardID)
  | _ => mret ()
  end.

(** [finalizeTerminal] of workflow_action.go, less the runtime clean-up. *)
Definition finalizeTerminal (task : Task) : taskm unit :=
  if bool_decide (Status task ∈ [TaskStatusDone; TaskStatusAborted]) then
    _ ← recordChildClosedOnParent task;
    releaseCardRequestForTerminalTask task
  else mret ().

(** ** accept(go) *)
Record ActionApplication : Type := {
  AppTask : Task;
  AppAction : Action;
  MatchedHooks : list string;
  TargetTaskID : string;
  DecisionAccepted : bool;
  (** whether a dispatch loop was started for [AppTask] *)
  AppLaunched : bool;
}.

Definition reserveGoCardRequest (cardID : string) : taskm CardRequest :=
  job ← on_ledger (new_uuid uuid);
  req ← on_ledger (CreateCardRequest uuid (Some CardRequestStatusLaunching)
          {| RID := ""; CardID := cardID; CommandKey := CardRequestCommandKeyGo; CauseID := "";
             RStatus := CardRequestStatusLaunching; RInstruction := ""; Launched := no_definition;
             LauncherJobID := "go:" +:+ job; TargetKind := ""; TargetID := ""; FoldedInto := ""; Result := "";
             RError := ""; RCreatedAt := 0; RUpdatedAt := 0 |});
  _ ← best_effort (on_ledger (ClearCardForceReleaseBarrier cardID));
  mret req.

Definition known_child_status (c : TaskTriageChild) : bool :=
  bool_decide (ChStatus c ∈ [TaskTriageChildStatusOpen; TaskTriageChildStatusSpecced;
                             TaskTriageChildStatusDispatched; TaskTriageChildStatusClosed]).

(** The last specced child, with its index. *)
Definition specced_child (children : list TaskTriageChild) : option (nat * TaskTriageChild) :=
  last (filter (λ ic, ChStatus ic.2 = TaskTriageChildStatusSpecced) (imap pair children)).

Definition dispatch_child (c : TaskTriageChild) (taskID : string) : TaskTriageChild :=
  {| ChID := ChID c; ChTitle := ChTitle c; ChStatus := TaskTriageChildStatusDispatched; ChSpec := ChSpec c; TaskRef := taskID |}.

Definition child_request (cardID : string) (c : TaskTriageChild) (spec : TaskTriageChildSpec) (req : CardRequest) : CreateTaskRequest :=
  {| CtrProjectID := SProject spec; CtrTitle := ChTitle c; CtrDescription := SDescription spec;
     CtrBehavior := SBehavior spec; CtrInstruction := SInstruction spec; CtrParentID := cardID; CtrRef := ChID c;
     CtrAutoStart := true; CtrCardRequestID := RID req; CtrCardRequestOwnerJobID := LauncherJobID req |}.

(** Step 1: reserve the slot and create the child's task; an error releases the
    reservation and is logged on the card. *)
Definition go_create_child (ctx : Ctx) (taskID : string) (st : TaskStatus) (c : TaskTriageChild) : taskm Task :=
  r ← try_ (reserveGoCardRequest taskID);
  match r with
  | inl (WCard ErrCardRequestSlotOccupied) => conflict
  | inl e => _ ← recordDispatchError ctx taskID st e []; throw (WStatus 500)
  | inr req =>
      let fail_with_ (e : werr) (code : Z) : taskm Task :=
        _ ← best_effort (on_ledger (repo_FailCardRequest uuid (RID req) (err_text e)));
        _ ← recordDispatchError ctx taskID st e [];
        throw (WStatus code) in
      match ChSpec c with
      | None => fail_with_ (WInternal "child is specced but has no spec") 409%Z
      | Some spec =>
          _ ← yield_ 13;
          child ← try_ (TaskCreator_CreateTask (child_request taskID c spec req));
          match child with
          | inl (WStatus code) => fail_with_ (WStatus code) code
          | inl e => fail_with_ e 500%Z
          | inr childTask =>
              if bool_decide (Status childTask = TaskStatusPending)
              then fail_with_ (WInternal "child task failed to auto-start") 500%Z
              else mret childTask
          end
      end
  end.

(** Step 2: the transition, in one transaction.  The flag of an error says
    that a concurrent request won. *)
Definition go_commit (ctx : Ctx) (taskID : string) (observed : TaskStatus) (viaAccept : bool)
    (children : list TaskTriageChild) (dispatched : TaskTriageChild) : taskm (bool + Task * Action) :=
  fresh ← map_err statusErrorForGetTaskErr (GetTask taskID);
  if negb (bool_decide (Status fresh = observed)) then mret (inl true)
  else
    freshTri ← GetTaskTriage taskID;
    freshChildren ← lift (DetailChildren (Detail freshTri));
    (* the map built from the list keeps the last child of an id *)
    match last (filter (λ c, ChID c = ChID dispatched) freshChildren) with
    | None => mret (inl true)
    | Some fc =>
        if negb (bool_decide (ChStatus fc = TaskTriageChildStatusSpecced)) then mret (inl true)
        else
          match Apply NewCardMachine fresh (new_action taskID "go" REmpty "" "" (CtxActor ctx)) with
          | Ok applied =>
              let action := new_action taskID "go" REmpty (Status fresh) (Status applied) (CtxActor ctx) in
              _ ← UpdateTask applied;
              _ ← CreateAction_ (CtxWriter ctx) action;
              _ ← CreateAction_ (CtxWriter ctx) (new_action taskID "child_dispatched"
                    (string_map [("child_id", ChID dispatched); ("task_ref", TaskRef dispatched)])
                    (Status applied) (Status applied) (CtxActor ctx));
              newDetail ← lift (SetDetailChildren (Detail freshTri) children);
              _ ← UpsertTaskTriage (set_Detail freshTri newDetail);
              _ ← (if viaAccept then applyAnsweredSideEffect taskID
                   else recordAndStripSuggestionIfPresent (CtxWriter ctx) taskID action);
              mret (inr (applied, action))
          | _ => mret (inl false)
          end
    end.

Definition acceptGo (ctx : Ctx) (taskID : string) (viaAccept : bool) : taskm ActionApplication :=
  task ← map_err statusErrorForGetTaskErr (GetTask taskID);
  if negb (bool_decide (Status task ∈ [TaskStatusParked; TaskStatusWorking])) then conflict
  else
    _ ← yield_ 10;
    r ← try_ (GetTaskTriage taskID);
    children ← match r with
               | inl WNoRows => mret []
               | inl _ => throw (WStatus 500)
               | inr tri => match DetailChildren (Detail tri) with Ok cs => mret cs | _ => throw (WStatus 500) end
               end;
    match List.find (λ c, negb (known_child_status c)) children with
    | Some c => _ ← recordDispatchError ctx taskID (Status task) (WInternal "unrecognized child status") []; conflict
    | None =>
        let occupants := json_occupants children in
        _ ← yield_ 11;
        live ← gets (ListChildren taskID);
        let unresolved := foldl (count_live occupants) (size occupants) live in
        match specced_child children with
        | None => conflict
        | Some (i, c) =>
            if (1 <? unresolved)%nat then conflict
            else
              _ ← yield_ 12;
              childTask ← go_create_child ctx taskID (Status task) c;
              let c' := dispatch_child c (ID childTask) in
              _ ← yield_ 14;
              r ← try_ (InTxDB (r ← go_commit ctx taskID (Status task) viaAccept (<[i := c']> children) c';
                                match r with
                                | inl won => throw (WInternal (if (won : bool) then "concurrent transition won" else "apply"))
                                | inr x => mret x
                                end));
              match r with
              | inl e =>
                  let won := bool_decide (e = WInternal "concurrent transition won") in
                  let e := match e with
                           | WInternal "concurrent transition won" | WInternal "apply" => WStatus 409
                           | _ => e
                           end in
                  _ ← recordDispatchError ctx taskID (Status task) e (if won then [] else [ID childTask]);
                  throw (txStatus e)
              | inr (newTask, action) =>
                  _ ← yield_ 15;
                  settled_ ← try_ (GetTask (ID childTask));
                  _ ← match settled_ with
                      | inr ct => if bool_decide (Status ct ∈ [TaskStatusDone; TaskStatusAborted])
                                  then recordChildClosedOnParent ct else mret ()
                      | inl _ => mret ()
                      end;
                  mret {| AppTask := newTask; AppAction := action; MatchedHooks := []; TargetTaskID := ID childTask;
                          DecisionAccepted := false; AppLaunched := false |}
              end
        end
    end.

(** ** answered *)
Definition applyParkSideEffectFromSuggestion (taskID : string) (params : suggestionParams) : taskm unit :=
  applyParkSideEffect taskID {| PkWakeAt := SpWakeAt params; PkWakeTaskID := SpWakeTaskID params |}.

(** The transaction of [applyAnswered]: the task and the action recorded, and
    whether an accepted "go" is still to run. *)
Definition answered_tx (ctx : Ctx) (taskID : string) (payload : raw) (parsed : answeredPayload)
    : taskm (Task * Action * bool) :=
  fresh ← map_err statusErrorForGetTaskErr (GetTask taskID);
  match Apply NewCardMachine fresh (new_action taskID "answered" payload "" "" (CtxActor ctx)) with
  | Ok applied =>
      let action := new_action taskID "answered" payload (Status fresh) (Status applied) (CtxActor ctx) in
      _ ← CreateAction_ (CtxWriter ctx) action;
      if negb (bool_decide (AnAnswer parsed = answeredAnswerAccept)) then
        _ ← applyAnsweredSideEffect taskID; mret (applied, action, false)
      else
        r ← try_ (GetTaskTriage taskID);
        match r with
        | inl WNoRows => conflict
        | inl e => throw e
        | inr tri =>
            match DetailSuggestionRaw (Detail tri) with
            | Some (RText _ v) =>
                let '(sugg, ok) := unmarshal_suggestion v in
                _ ← fail_if (negb ok) (WInternal "answered: parse suggestion");
                let verb := NormalizeCardVerb (SaVerb sugg) in
                if negb (IsCardTransitionAction verb) then conflict
                else if bool_decide (verb = "go") then mret (applied, action, true)
                else
                  match Apply NewCardMachine applied (new_action taskID verb REmpty "" "" (CtxActor ctx)) with
                  | Ok verbApplied =>
                      _ ← UpdateTask verbApplied;
                      _ ← CreateAction_ (CtxWriter ctx)
                            (new_action taskID verb REmpty (Status applied) (Status verbApplied) (CtxActor ctx));
                      _ ← (if bool_decide (verb = "park") then applyParkSideEffectFromSuggestion taskID (SaParams sugg)
                           else if bool_decide (verb = "drop") then UnlinkAllForTask taskID
                           else mret ());
                      _ ← applyAnsweredSideEffect taskID;
                      mret (verbApplied, action, false)
                  | _ => conflict
                  end
            | _ => conflict
            end
        end
  | _ => conflict
  end.

Definition applyAnswered (ctx : Ctx) (taskID : string) (payload : raw) : taskm ActionApplication :=
  parsed ← parseAnsweredPayload payload;
  _ ← fail_if (bool_decide (AnAnswer parsed = answeredAnswerAccept) && negb (bool_decide (CtxActor ctx = ActorHuman)))
        (WStatus 403);
  r ← map_err txStatus (InTxDB (answered_tx ctx taskID payload parsed));
  let '(newTask, action, goRequested) := r in
  (* the deferred dispatch runs on every way out *)
  let finish (app : ActionApplication) := _ ← modify (tryDispatchQueuedCardRequest taskID); mret app in
  let accepted := bool_decide (AnAnswer parsed = answeredAnswerAccept) in
  if (goRequested : bool) then
    go ← try_ (acceptGo ctx taskID true);
    match go with
    | inl e => _ ← modify (tryDispatchQueuedCardRequest taskID); throw e
    | inr app => finish {| AppTask := AppTask app; AppAction := action; MatchedHooks := []; TargetTaskID := TargetTaskID app;
                           DecisionAccepted := accepted; AppLaunched := false |}
    end
  else finish {| AppTask := newTask; AppAction := action; MatchedHooks := []; TargetTaskID := "";
                 DecisionAccepted := accepted; AppLaunched := false |}.
End env.

(** ** Effects on the task rows *)
Section row_effects.
Context `{WorkflowEnv} (R : relation WDB) `{!RowRel R}.

Lemma CreateAction__steps w a : steps R (CreateAction_ w a).
Proof. apply on_ledger_steps, _. Qed.
Lemma best_effort_steps {A} (m : taskm A) : steps R m → steps R (best_effort m).
Proof. unfold best_effort. steps_tac. Qed.
Hint Resolve CreateAction__steps best_effort_steps : steps.

Lemma triage_or_fresh_steps id : steps R (triage_or_fresh id).
Proof. unfold triage_or_fresh. steps_tac. Qed.
Hint Resolve triage_or_fresh_steps : steps.

Lemma unmarshal_strings_steps names p : steps R (unmarshal_strings names p).
Proof. unfold unmarshal_strings, bad_request. steps_tac. Qed.
Hint Resolve unmarshal_strings_steps : steps.

Lemma parseChildAddedPayload_steps p : steps R (parseChildAddedPayload p).
Proof. unfold parseChildAddedPayload, bad_request. steps_tac. Qed.
Lemma parseChildDroppedPayload_steps p : steps R (parseChildDroppedPayload p).
Proof. unfold parseChildDroppedPayload, bad_request. steps_tac. Qed.
Lemma parseChildSpeccedPayload_steps p : steps R (parseChildSpeccedPayload p).
Proof. unfold parseChildSpeccedPayload, bad_request. steps_tac. Qed.
Lemma parseNotedPayload_steps p : steps R (parseNotedPayload p).
Proof. unfold parseNotedPayload, bad_request. steps_tac. Qed.
Lemma parseAnsweredPayload_steps p : steps R (parseAnsweredPayload p).
Proof. unfold parseAnsweredPayload, bad_request. steps_tac. Qed.
Lemma parseParkPayload_steps p : steps R (parseParkPayload p).
Proof. unfold parseParkPayload, bad_request. steps_tac. Qed.
Lemma attrs_set_entry_steps patch kv : steps R (attrs_set_entry patch kv).
Proof. unfold attrs_set_entry, parsePromotedAttr, validateSuggestionAttr, bad_request. steps_tac. Qed.
Hint Resolve attrs_set_entry_steps : steps.
Lemma attrs_set_entries_steps patch kvs : steps R (attrs_set_entries patch kvs).
Proof. revert patch. induction kvs; intros patch; simpl; steps_tac. Qed.
Hint Resolve attrs_set_entries_steps : steps.
Lemma parseAttrsSetPayload_steps p : steps R (parseAttrsSetPayload p).
Proof. unfold parseAttrsSetPayload, parseAttrsSetObject, bad_request. steps_tac. Qed.

Lemma applyParkSideEffect_steps id p : steps R (applyParkSideEffect id p).
Proof. unfold applyParkSideEffect, bad_request. steps_tac. Qed.
Lemma cardSpecSlotOccupied_steps id : steps R (cardSpecSlotOccupied id).
Proof. unfold cardSpecSlotOccupied. steps_tac. Qed.
Hint Resolve cardSpecSlotOccupied_steps : steps.
Lemma cardSpecOrExecutionSlotOccupied_steps id : steps R (cardSpecOrExecutionSlotOccupied id).
Proof. unfold cardSpecOrExecutionSlotOccupied. steps_tac. Qed.
Lemma applyChildAddedSideEffect_steps id p : steps R (applyChildAddedSideEffect id p).
Proof. unfold applyChildAddedSideEffect, conflict. steps_tac. Qed.
Lemma applyChildDroppedSideEffect_steps id p : steps R (applyChildDroppedSideEffect id p).
Proof. unfold applyChildDroppedSideEffect, conflict. steps_tac. Qed.
Lemma applyChildSpeccedSideEffect_steps id p : steps R (applyChildSpeccedSideEffect id p).
Proof. unfold applyChildSpeccedSideEffect, conflict. steps_tac. Qed.
Lemma applyAttrsSetSideEffect_steps id p : steps R (applyAttrsSetSideEffect id p).
Proof. unfold applyAttrsSetSideEffect. steps_tac. Qed.
Lemma applyAnsweredSideEffect_steps id : steps R (applyAnsweredSideEffect id).
Proof. unfold applyAnsweredSideEffect. steps_tac. Qed.
Lemma recordAndStripSuggestionIfPresent_steps w id a : steps R (recordAndStripSuggestionIfPresent w id a).
Proof. unfold recordAndStripSuggestionIfPresent. steps_tac. Qed.
Lemma record_dispatch_error_steps ctx id st text o : steps R (record_dispatch_error ctx id st text o).
Proof. unfold record_dispatch_error. steps_tac. Qed.
Lemma recordDispatchError_steps ctx id st e o : steps R (recordDispatchError ctx id st e o).
Proof. apply record_dispatch_error_steps. Qed.
Lemma reserveGoCardRequest_steps id : steps R (reserveGoCardRequest id).
Proof. unfold reserveGoCardRequest. steps_tac. Qed.
Lemma close_child_tx_steps p c raw : steps R (close_child_tx p c raw).
Proof. unfold close_child_tx. steps_tac. Qed.
End row_effects.

#[export] Hint Resolve CreateAction__steps best_effort_steps triage_or_fresh_steps unmarshal_strings_steps
  parseChildAddedPayload_steps parseChildDroppedPayload_steps parseChildSpeccedPayload_steps parseNotedPayload_steps
  parseAnsweredPayload_steps parseParkPayload_steps parseAttrsSetPayload_steps applyParkSideEffect_steps
  cardSpecSlotOccupied_steps cardSpecOrExecutionSlotOccupied_steps applyChildAddedSideEffect_steps
  applyChildDroppedSideEffect_steps applyChildSpeccedSideEffect_steps applyAttrsSetSideEffect_steps
  applyAnsweredSideEffect_steps recordAndStripSuggestionIfPresent_steps record_dispatch_error_steps recordDispatchError_steps
  reserveGoCardRequest_steps close_child_tx_steps : steps.

(** The handlers, when the interfaces and the concurrent requests stay within
    the relation too. *)
Class EnvRel `{WorkflowEnv} (R : relation WDB) : Prop := {
  env_others n s : R s (others n s);
  env_dispatch c s : R s (tryDispatchQueuedCardRequest c s);
  env_create req : steps R (TaskCreator_CreateTask req);
}.

Section handler_effects.
Context `{WorkflowEnv} (R : relation WDB) `{!RowRel R, !EnvRel R}.

Lemma yield__steps n : steps R (yield_ n).
Proof. intros s. apply env_others. Qed.
Lemma try_dispatch_steps c : steps R (modify (tryDispatchQueuedCardRequest c) : taskm unit).
Proof. intros s. apply env_dispatch. Qed.
Hint Resolve yield__steps try_dispatch_steps env_create : steps.

Lemma close_child_steps p c raw : steps R (close_child p c raw).
Proof. unfold close_child. steps_tac. Qed.
Hint Resolve close_child_steps : steps.
Lemma recordChildClosedOnParent_steps t : steps R (recordChildClosedOnParent t).
Proof. unfold recordChildClosedOnParent. steps_tac. Qed.
Hint Resolve recordChildClosedOnParent_steps : steps.
Lemma releaseCardRequestForTerminalTask_steps t : steps R (releaseCardRequestForTerminalTask t).
Proof. unfold releaseCardRequestForTerminalTask. steps_tac. Qed.
Hint Resolve releaseCardRequestForTerminalTask_steps : steps.
Lemma finalizeTerminal_steps t : steps R (finalizeTerminal t).
Proof. unfold finalizeTerminal. steps_tac. Qed.

Context (update_steps : ∀ t, steps R (UpdateTask t)).
Hint Resolve update_steps : steps.

Lemma go_create_child_steps ctx id st c : steps R (go_create_child ctx id st c).
Proof. unfold go_create_child, conflict. cbv zeta. steps_tac. Qed.
Hint Resolve go_create_child_steps : steps.
Lemma go_commit_steps ctx id st via cs c : steps R (go_commit ctx id st via cs c).
Proof. unfold go_commit. steps_tac. Qed.
Hint Resolve go_commit_steps : steps.
Lemma acceptGo_steps ctx id via : steps R (acceptGo ctx id via).
Proof. unfold acceptGo, conflict. steps_tac. Qed.
Hint Resolve acceptGo_steps : steps.
Lemma answered_tx_steps ctx id payload parsed : steps R (answered_tx ctx id payload parsed).
Proof. unfold answered_tx, conflict, applyParkSideEffectFromSuggestion. steps_tac. Qed.
Hint Resolve answered_tx_steps : steps.
Lemma applyAnswered_steps ctx id payload : steps R (applyAnswered ctx id payload).
Proof. unfold applyAnswered. steps_tac. Qed.
End handler_effects.

#[export] Hint Resolve yield__steps try_dispatch_steps env_create close_child_steps recordChildClosedOnParent_steps
  releaseCardRequestForTerminalTask_steps finalizeTerminal_steps acceptGo_steps applyAnswered_steps : steps.

(** ** Steps that can not fail *)
Section returning.
Context `{WorkflowEnv}.

Lemma best_effort_returns {A} (m : taskm A) : returns (λ _, True) (best_effort m).
Proof. unfold best_effort. returns_tac. Qed.
Hint Resolve best_effort_returns : returns.
Lemma yield__returns n : returns (λ _, True) (yield_ n).
Proof. apply returns_modify. Qed.
Lemma record_dispatch_error_returns ctx id st text o : returns (λ _, True) (record_dispatch_error ctx id st text o).
Proof. unfold record_dispatch_error. returns_tac. Qed.
Lemma recordChildClosedOnParent_returns t : returns (λ _, True) (recordChildClosedOnParent t).
Proof. unfold recordChildClosedOnParent, close_child. returns_tac. Qed.
Lemma releaseCardRequestForTerminalTask_returns t : returns (λ _, True) (releaseCardRequestForTerminalTask t).
Proof. unfold releaseCardRequestForTerminalTask. returns_tac. Qed.
Hint Resolve recordChildClosedOnParent_returns releaseCardRequestForTerminalTask_returns : returns.
Lemma finalizeTerminal_returns t : returns (λ _, True) (finalizeTerminal t).
Proof. unfold finalizeTerminal. returns_tac. Qed.
End returning.
#[export] Hint Resolve best_effort_returns yield__returns record_dispatch_error_returns recordChildClosedOnParent_returns
  releaseCardRequestForTerminalTask_returns finalizeTerminal_returns : returns.

(** ** A concrete environment and database

    Nobody interferes, no launch follows, and every child comes up running. *)
Definition sample_child_task (req : CreateTaskRequest) : Task :=
  {| ID := "89abcdef-child"; Type_ := TaskTypeExecution; ProjectID := CtrProjectID req; WorkspaceID := "w"; RemoteID := "";
     Title := CtrTitle req; Description := CtrDescription req; Status := TaskStatusExecuting; Ref := CtrRef req;
     ParentID := CtrParentID req; IdempotencyKey := ""; CreatedAt := 0; UpdatedAt := 0; Card := None; Exec := Some sample_exec |}.
#[local] Instance sample_env : WorkflowEnv :=
  {| uuid := sample_uuid; card_events := None; parse_rfc3339 := λ s, if bool_decide (s = "t1") then Some 1%Z else None;
     err_text := λ _, "error"; tryDispatchQueuedCardRequest := λ _ s, s;
     TaskCreator_CreateTask := λ req, mret (sample_child_task req); others := λ _ s, s |}.

Lemma sample_env_rel (R : relation WDB) : Reflexive R → EnvRel (H := sample_env) R.
Proof. intros HR. split; [reflexivity..|]. intros req s. reflexivity. Qed.

Definition card_task (st : TaskStatus) (detail : raw) : Task :=
  with_card {| ID := "card-0123"; Type_ := TaskTypeCard; ProjectID := "p"; WorkspaceID := "w"; RemoteID := ""; Title := "t";
     Description := ""; Status := st; Ref := ""; ParentID := ""; IdempotencyKey := ""; CreatedAt := 0; UpdatedAt := 0;
     Card := None; Exec := None |}
    {| CTaskID := "card-0123"; Kind := ""; Urgency := ""; WakeAt := None; WakeTaskID := ""; SuggestionVerb := ""; Detail := detail |}.
Definition sample_wdb (ts : list Task) : WDB :=
  {| rows := list_to_map ((λ t, (ID t, t)) <$> ts); led := sample_db ∅; identities := [];
     project_rows := {["p" := {| Perm := "push"; PWorkspace := "w" |}]}; workspaces := {["w"]} |}.

Lemma sample_typed ts : forallb row_check ts = true → typed (sample_wdb ts).
Proof.
  intros Hc id t Ht. apply elem_of_list_to_map_2, list_elem_of_fmap in Ht as (u & [= -> ->] & Hin). split; [done|].
  apply list_elem_of_In in Hin. by apply (proj1 (forallb_forall _ _) Hc).
Qed.
