(* ===== verification/Workflow.v ===== *)
(** * Workflow actions and the dispatch loop

    Models internal/api/workflow_action.go and attrs_set_done.go:
    [applyAction], the single entry point of every action on a task, and
    [runDispatchLoop], which runs the hooks of an executing task and persists
    what they did.

    A hook runs for minutes while other requests, its own RPCs included, write
    the same task: the loop re-reads the row before it writes.  Those writes
    are the [others] of [WorkflowEnv], here at the points 20 (while the hooks
    run), 21 and 22 (between the transactions of a cycle). *)
From stdpp Require Import pretty.
From S2P Require Import Prelude Json Payload Task Machine Lifecycle Coordinator Store CardDetail CardRequests CardDispatch TaskStore CardWorkflow.

(** Why a dispatch cycle ended: an error of the coordinator or of the store. *)
Inductive dispatch_failure : Type :=
| FCoordinator (e : coord_err)
| FStore (e : werr).

(** What the service is wired with beyond [WorkflowEnv]: the project metadata
    ([None] is an error), the byte length of a payload, and, for an error,
    whether context.Canceled is in its chain and its text. *)
Class ServiceEnv : Type := {
  service_workflow :: WorkflowEnv;
  service_hooks :: HookRuntime;
  TaskMeta : Task → option ProjectMeta;
  payload_len : raw → Z;
  is_canceled : dispatch_failure → bool;
  failure_text : dispatch_failure → string;
}.

Definition SideEffectConsumesPayload (type : string) : bool :=
  bool_decide (type ∈ ["park"; "attrs_set"; "child_added"; "child_specced"; "child_dropped"; "noted"]).

Definition doneCardWritableActions (type : string) : bool :=
  bool_decide (type ∈ ["attrs_set"; "child_added"; "child_specced"]).

(** The actions whose transaction leaves the task row alone. *)
Definition skipTaskUpdate (type : string) : bool :=
  bool_decide (type ∈ ["attrs_set"; "child_added"; "child_specced"; "child_dropped"; "noted"]).

Definition resolveAttrsSetDoneTransition (sm : StateMachine) (task : Task) (action : Action) : taskm Task :=
  guarded ← (if doneCardWritableActions (AType action) && bool_decide (Status task = TaskStatusDone) then
               r ← try_ (GetTaskTriage (ID task));
               match r with
               | inr _ => mret true
               | inl WNoRows => mret false
               | inl _ => throw (WStatus 500)
               end
             else mret false);
  if (guarded : bool) then mret task
  else match Apply sm task action with
       | Ok applied => mret applied
       | _ => conflict
       end.

(** ** The instruction a reopen may carry *)
Definition zero_instruction : Instruction := {| Agent := ""; IName := ""; Message := ""; Model := "" |}.
Definition instruction_member (i : Instruction) (k : string) (v : json) : Instruction * bool :=
  if field_matches "agent" k then
    let r := dec_string (Agent i) v in ({| Agent := r.1; IName := IName i; Message := Message i; Model := Model i |}, r.2)
  else if field_matches "name" k then
    let r := dec_string (IName i) v in ({| Agent := Agent i; IName := r.1; Message := Message i; Model := Model i |}, r.2)
  else if field_matches "message" k then
    let r := dec_string (Message i) v in ({| Agent := Agent i; IName := IName i; Message := r.1; Model := Model i |}, r.2)
  else if field_matches "model" k then
    let r := dec_string (Model i) v in ({| Agent := Agent i; IName := IName i; Message := Message i; Model := r.1 |}, r.2)
  else (i, true).

Definition reopen_instruction (payload : raw) : option Instruction :=
  match payload with
  | RText _ v =>
      match dec_at "instruction" (dec_ptr zero_instruction (dec_struct instruction_member)) None v with
      | (i, true) => i
      | _ => None
      end
  | _ => None
  end.

Definition inherit_active (active : option Instruction) (inst : Instruction) : Instruction :=
  match active with
  | None => inst
  | Some a => {| Agent := if str_empty (Agent inst) then Agent a else Agent inst; IName := IName inst;
                 Message := Message inst; Model := if str_empty (Model inst) then Model a else Model inst |}
  end.

Definition set_Instructions (t : Task) (insts : Instructions) : Task :=
  {| ID := ID t; Type_ := Type_ t; ProjectID := ProjectID t; WorkspaceID := WorkspaceID t;
     RemoteID := RemoteID t; Title := Title t; Description := Description t; Status := Status t;
     Ref := Ref t; ParentID := ParentID t; IdempotencyKey := IdempotencyKey t;
     CreatedAt := CreatedAt t; UpdatedAt := UpdatedAt t; Card := Card t;
     Exec := (λ e, {| Behavior := Behavior e; Traits := Traits e; Readonly := Readonly e; BranchPrefix := BranchPrefix e;
                      BaseBranch := BaseBranch e; Payload := Payload e; TInstructions := insts; AutoStart := AutoStart e |}) <$> Exec t |}.

(** ** applyAction *)
Inductive parsed_payload : Type :=
| PNothing
| PPark (p : parkPayload)
| PAttrsSet (p : attrsSetPatch)
| PChildAdded (p : childAddedPayload)
| PChildSpecced (p : childSpeccedPayload)
| PChildDropped (p : childDroppedPayload).

(** What the request has become when its transaction opens. *)
Record prepared : Type := {
  PrTask : Task;
  PrAction : Action;
  PrParsed : parsed_payload;
  PrMeta : ProjectMeta;
}.

Section service.
Context `{ServiceEnv}.

Definition parse_payload (type : string) (payload : raw) : taskm parsed_payload :=
  if bool_decide (type = "park") then (p ← parseParkPayload payload; mret (PPark p))
  else if bool_decide (type = "attrs_set") then (p ← parseAttrsSetPayload payload; mret (PAttrsSet p))
  else if bool_decide (type = "child_added") then (p ← parseChildAddedPayload payload; mret (PChildAdded p))
  else if bool_decide (type = "child_specced") then (p ← parseChildSpeccedPayload payload; mret (PChildSpecced p))
  else if bool_decide (type = "child_dropped") then (p ← parseChildDroppedPayload payload; mret (PChildDropped p))
  else if bool_decide (type = "noted") then (_ ← parseNotedPayload payload; mret PNothing)
  else mret PNothing.

(** The outcome of a payload merge as a step of the handler. *)
Definition lift_payload {A} (e : werr) (m : outcome payload_err A) : taskm A :=
  match m with Ok a => mret a | Err _ => throw e | Panic => throw (WInternal "panic") end.

Definition prepare_action (ctx : Ctx) (task : Task) (sm : StateMachine) (type : string) (payload : raw)
    (actionPayloadOnly : bool) : taskm prepared :=
  meta ← match TaskMeta task with
         | None | Some None => throw (WStatus 500)
         | Some (Some m) =>
             if bool_decide (Type_ task = TaskTypeExecution) && bool_decide (type ∈ ["start"; "reopen"])
                && bool_decide (m = ∅)
             then throw (WStatus 500) else mret (Some m)
         end;
  applied ← resolveAttrsSetDoneTransition sm task (new_action (ID task) type payload "" "" (CtxActor ctx));
  let action := new_action (ID task) type payload (Status task) (Status applied) (CtxActor ctx) in
  let override := if bool_decide (type = "reopen") && negb (len0 payload) then reopen_instruction payload else None in
  newTask ← match Exec applied, override with
            | Some e, Some inst =>
                mret (set_Instructions applied (AppendInstruction (TInstructions e) (inherit_active (Active (TInstructions e)) inst)))
            | Some e, None =>
                if actionPayloadOnly || SideEffectConsumesPayload type then mret applied
                else merged ← lift_payload (WStatus 500) (MergePayload (Payload e) payload);
                     mret (set_Payload applied merged)
            | None, _ => mret applied
            end;
  parsed ← parse_payload type payload;
  mret {| PrTask := newTask; PrAction := action; PrParsed := parsed; PrMeta := meta |}.

(** Reopening a child must not exceed its card's work slot. *)
Definition check_reopen_slot (type : string) (newTask : Task) : taskm unit :=
  if bool_decide (type = "reopen") && negb (str_empty (ParentID newTask)) then
    parent ← try_ (GetTask (ParentID newTask));
    match parent with
    | inr p =>
        if bool_decide (Type_ p = TaskTypeCard) then
          occupied ← cardSpecOrExecutionSlotOccupied (ID p);
          if (occupied : bool) then conflict else mret ()
        else mret ()
    | inl _ => mret ()
    end
  else mret ().

Definition side_effect (taskID : string) (type : string) (p : parsed_payload) : taskm unit :=
  match p with
  | PPark p => applyParkSideEffect taskID p
  | PAttrsSet p =>
      changed ← applyAttrsSetSideEffect taskID p;
      if (changed : bool) && negb (bool_decide (default "" (PVerb p) = "")) then TouchTaskUpdatedAt taskID else mret ()
  | PChildAdded p => applyChildAddedSideEffect taskID p
  | PChildSpecced p => applyChildSpeccedSideEffect taskID p
  | PChildDropped p => applyChildDroppedSideEffect taskID p
  | PNothing => if bool_decide (type = "drop") then UnlinkAllForTask taskID else mret ()
  end.

(** The body of applyAction's transaction: the task and the action as they
    are recorded. *)
Definition commit_action (ctx : Ctx) (taskID : string) (sm : StateMachine) (p : prepared) : taskm (Task * Action) :=
  let type := AType (PrAction p) in
  _ ← check_reopen_slot type (PrTask p);
  ta ← (if skipTaskUpdate type then
          fresh ← map_err statusErrorForGetTaskErr (GetTask taskID);
          applied ← resolveAttrsSetDoneTransition sm fresh (PrAction p);
          mret (applied, new_action (ATaskID (PrAction p)) type (APayload (PrAction p)) (Status fresh) (Status applied)
                           (Actor (PrAction p)))
        else
          _ ← UpdateTask (PrTask p);
          mret (PrTask p, PrAction p));
  _ ← CreateAction_ (CtxWriter ctx) ta.2;
  _ ← (if bool_decide (MName sm = CardMachineName) && IsCardTransitionAction type
       then recordAndStripSuggestionIfPresent (CtxWriter ctx) (ID ta.1) ta.2 else mret ());
  _ ← side_effect (ID ta.1) type (PrParsed p);
  mret ta.

Definition matched_hooks (meta : ProjectMeta) (task : Task) : list string :=
  HookID <$> Evaluate task (default [] (lookupBehavior meta task)).

Definition applyAction (ctx : Ctx) (taskID type : string) (payload : raw) (actionPayloadOnly : bool)
    : taskm ActionApplication :=
  _ ← fail_if (negb (ValidateContentSize (payload_len payload))) (WStatus 400);
  task ← map_err statusErrorForGetTaskErr (GetTask taskID);
  let sm := machineFor task in
  let type := if bool_decide (MName sm = CardMachineName) then NormalizeCardVerb type else type in
  _ ← fail_if (negb (IsManualAction sm type)) (WStatus 400);
  _ ← fail_if (bool_decide (MName sm = CardMachineName) && IsCardTransitionAction type
               && negb (bool_decide (CtxActor ctx = ActorHuman))) (WStatus 403);
  _ ← yield_ 0;
  if bool_decide (type = "go") then acceptGo ctx taskID false
  else if bool_decide (type = "answered") then applyAnswered ctx taskID payload
  else
    p ← prepare_action ctx task sm type payload actionPayloadOnly;
    _ ← yield_ 1;
    ta ← map_err txStatus (InTxDB (commit_action ctx taskID sm p));
    _ ← modify (tryDispatchQueuedCardRequest taskID);
    mret {| AppTask := ta.1; AppAction := ta.2;
            MatchedHooks := match Exec ta.1 with Some _ => matched_hooks (PrMeta p) ta.1 | None => [] end;
            TargetTaskID := ""; DecisionAccepted := false; AppLaunched := bool_decide (is_Some (Exec ta.1)) |}.

Definition ApplyAction (ctx : Ctx) (taskID type : string) (payload : raw) : taskm ActionApplication :=
  applyAction ctx taskID type payload false.

(** ** The dispatch loop *)
Definition isShutdownErr (ctx : Ctx) (err : dispatch_failure) : bool := CtxCanceled ctx || is_canceled err.

Definition shutdown_message : string := "daemon が停止したため中断されました。 起動時に自動 reopen されます。".

Definition abort_tx (ctx : Ctx) (task : Task) (err : dispatch_failure) : taskm unit :=
  let shutdown := isShutdownErr ctx err in
  _ ← UpdateTask (set_Status task TaskStatusAborted);
  CreateAction_ (CtxWriter ctx) (new_action (ID task) "abort"
    (string_map [("code", if shutdown then "daemon_shutdown" else "dispatch_error");
                 ("message", if shutdown then shutdown_message else failure_text err)])
    (Status task) TaskStatusAborted ActorDaemon).

Definition abortOnDispatchError (ctx : Ctx) (task : Task) (err : dispatch_failure) : taskm unit :=
  let shutdown := isShutdownErr ctx err in
  _ ← (if shutdown then mret () else record_dispatch_error ctx (ID task) (Status task) (failure_text err) []);
  _ ← best_effort (InTxDB (abort_tx ctx task err));
  finalizeTerminal (set_Status task TaskStatusAborted).

Definition digits : Z → string := λ z, pretty z.

Definition fired_payload (fe : FiredEvent) : raw :=
  marshal_map (Some (list_to_map
    [("kit_id", JStr (KitID fe)); ("hook_id", JStr (HandlerID fe)); ("job_id", JStr (FJobID fe));
     ("source_state", JStr (SourceState fe)); ("success", JBool (Success fe));
     ("error", JStr (match FErrCode fe with Some c => "exit code " +:+ digits c | None => "" end))])).

Definition persistFiredEvents (ctx : Ctx) (taskID : string) (status : TaskStatus) (events : list FiredEvent) : taskm unit :=
  if bool_decide (length events = 0%nat) then mret ()
  else best_effort (InTxDB (for_each (λ fe,
         CreateAction_ (CtxWriter ctx)
           (new_action taskID (FKind fe +:+ "_fired") (fired_payload fe) status status ActorDaemon)) events)).

(** The transaction that persists a cycle's payload: the row as it is now,
    with the pending answer consumed and the delta of the hooks merged in. *)
Definition persist_payload (taskID : string) (delta : raw) : taskm Task :=
  latest ← GetTask taskID;
  match Exec latest with
  | None => throw (WInternal "dispatch loop: not an execution task")
  | Some e =>
      let cleared := ClearPendingAnswer (Payload e) in
      merged ← (if len0 delta then mret cleared else lift_payload (WInternal "merge payload") (MergePayload cleared delta));
      let latest := set_Payload latest merged in
      _ ← UpdateTask latest;
      mret latest
  end.

Inductive cycle_end : Type := Stop | Continue (current : Task).

Definition advance_tx (ctx : Ctx) (result : DispatchResult) (latest : Task) : taskm unit :=
  _ ← UpdateTask (set_Status latest (NewStatus result));
  CreateAction_ (CtxWriter ctx) (new_action (ID latest) "auto_advance"
    (default REmpty (DActionPayload result)) (Status latest) (NewStatus result) ActorDaemon).

(** The rest of a cycle, once its payload is persisted: nothing for a task
    that was ended or put to waiting meanwhile, otherwise the advance the
    coordinator computed, in a transaction of its own. *)
Definition settle_cycle (ctx : Ctx) (result : DispatchResult) (latest : Task) : taskm cycle_end :=
  if bool_decide (Status latest ∈ [TaskStatusDone; TaskStatusAborted]) then
    _ ← finalizeTerminal latest; mret Stop
  else if bool_decide (Status latest = TaskStatusAwaiting) then mret Stop
  else if str_empty (NewStatus result) then _ ← finalizeTerminal latest; mret Stop
  else
    let advanced := set_Status latest (NewStatus result) in
    _ ← yield_ 22;
    r ← try_ (InTxDB (advance_tx ctx result latest));
    match r with
    | inl _ => mret Stop
    | inr _ =>
        if bool_decide (NewStatus result ∈ [TaskStatusDone; TaskStatusAborted])
        then _ ← finalizeTerminal advanced; mret Stop
        else mret (Continue advanced)
    end.

Definition dispatch_cycle (ctx : Ctx) (current : Task) (meta : ProjectMeta) (sm : StateMachine) : taskm cycle_end :=
  _ ← yield_ 20;
  log ← gets (ListActionsByTask (ID current));
  match DispatchAndAdvance (Some (Some log)) current meta sm with
  | Panic => throw (WInternal "panic")
  | Err e => throw (WInternal "panic")
  | Ok (result, Some err) =>
      _ ← match result with
          | Some r => persistFiredEvents ctx (ID current) (Status current) (FiredEvents r)
          | None => mret ()
          end;
      _ ← abortOnDispatchError ctx current (FCoordinator err);
      mret Stop
  | Ok (None, None) => throw (WInternal "panic")
  | Ok (Some result, None) =>
      _ ← persistFiredEvents ctx (ID current) (Status current) (FiredEvents result);
      let delta := StripAwaitingTrait (PayloadDelta result) in
      _ ← yield_ 21;
      persisted ← try_ (InTxDB (persist_payload (ID current) delta));
      match persisted with
      | inl e => _ ← abortOnDispatchError ctx current (FStore e); mret Stop
      | inr latest => settle_cycle ctx result latest
      end
  end.

Definition maxCycles : nat := 10.

(** How the loop ended: on its own, or out of cycles. *)
Inductive loop_end : Type := Ended | OutOfCycles.

Fixpoint dispatch_loop (cycles : nat) (ctx : Ctx) (current : Task) (meta : ProjectMeta) (sm : StateMachine)
    : taskm loop_end :=
  match cycles with
  | 0 => mret OutOfCycles
  | S cycles =>
      r ← dispatch_cycle ctx current meta sm;
      match r with
      | Stop => mret Ended
      | Continue current => dispatch_loop cycles ctx current meta sm
      end
  end.

Definition runDispatchLoop (ctx : Ctx) (task : Task) (meta : ProjectMeta) (sm : StateMachine) : taskm loop_end :=
  dispatch_loop maxCycles ctx task meta sm.
End service.

(** Back from a state to a statement about all states. *)
Ltac refold_steps s :=
  match goal with |- ?R s ((?m ≫= ?f) s).1 => revert s; change (steps R (m ≫= f)) end.

(** ** Effects on the task rows *)
Section row_effects.
Context `{ServiceEnv} (R : relation WDB) `{!RowRel R}.

Lemma resolveAttrsSetDoneTransition_steps sm t a : steps R (resolveAttrsSetDoneTransition sm t a).
Proof. unfold resolveAttrsSetDoneTransition, conflict. steps_tac. Qed.
Hint Resolve resolveAttrsSetDoneTransition_steps : steps.
Lemma lift_payload_steps {A} e (m : outcome payload_err A) : steps R (lift_payload e m).
Proof. unfold lift_payload. steps_tac. Qed.
Hint Resolve lift_payload_steps : steps.
Lemma parse_payload_steps type p : steps R (parse_payload type p).
Proof. unfold parse_payload. steps_tac. Qed.
Hint Resolve parse_payload_steps : steps.
Lemma prepare_action_steps ctx t sm type p only : steps R (prepare_action ctx t sm type p only).
Proof. unfold prepare_action. steps_tac. Qed.
Lemma check_reopen_slot_steps type t : steps R (check_reopen_slot type t).
Proof. unfold check_reopen_slot, conflict. steps_tac. Qed.
Hint Resolve check_reopen_slot_steps : steps.
Lemma side_effect_steps id type p : steps R (side_effect id type p).
Proof. unfold side_effect. steps_tac. Qed.
Hint Resolve side_effect_steps : steps.

Lemma commit_action_steps ctx id sm p :
  (skipTaskUpdate (AType (PrAction p)) = false → steps R (UpdateTask (PrTask p))) →
  steps R (commit_action ctx id sm p).
Proof.
  intros Hu. unfold commit_action. apply steps_bind; [apply _|steps_tac|intros _].
  apply steps_bind; [apply _| |steps_tac].
  destruct (skipTaskUpdate _); [steps_tac|]. apply steps_bind; [apply _|by apply Hu|steps_tac].
Qed.
Lemma persistFiredEvents_steps ctx id st es : steps R (persistFiredEvents ctx id st es).
Proof. unfold persistFiredEvents. steps_tac. Qed.
End row_effects.

#[export] Hint Resolve resolveAttrsSetDoneTransition_steps lift_payload_steps parse_payload_steps prepare_action_steps
  check_reopen_slot_steps side_effect_steps persistFiredEvents_steps : steps.

Section loop_effects.
Context `{ServiceEnv} (R : relation WDB) `{!RowRel R, !EnvRel R}.
Context (update_steps : ∀ t, steps R (UpdateTask t)).
Hint Resolve update_steps commit_action_steps : steps.

Lemma applyAction_steps ctx id type payload only : steps R (applyAction ctx id type payload only).
Proof. unfold applyAction. steps_tac. Qed.
Lemma abortOnDispatchError_steps ctx t e : steps R (abortOnDispatchError ctx t e).
Proof. unfold abortOnDispatchError, abort_tx. steps_tac. Qed.
Hint Resolve abortOnDispatchError_steps : steps.
Lemma dispatch_cycle_steps ctx t meta sm : steps R (dispatch_cycle ctx t meta sm).
Proof. unfold dispatch_cycle, persist_payload, settle_cycle, advance_tx. steps_tac. Qed.
Hint Resolve dispatch_cycle_steps : steps.
Lemma dispatch_loop_steps n ctx t meta sm : steps R (dispatch_loop n ctx t meta sm).
Proof. revert t. induction n; intros t; simpl; steps_tac. Qed.
End loop_effects.

(** Whatever action arrives, however it ends, and however the dispatch loop
    of a task goes, every task row keeps the shape its type demands: a card
    has card attributes and no execution attributes, an execution task the
    reverse, and each has a status of its own type's vocabulary. *)
Theorem tasks_stay_typed `{ServiceEnv} `{!EnvRel keeps_typed} ctx id type payload only task meta sm s :
  typed s → typed (applyAction ctx id type payload only s).1 ∧ typed (runDispatchLoop ctx task meta sm s).1.
Proof.
  intros Hs. split.
  - by apply (applyAction_steps keeps_typed UpdateTask_keeps_typed).
  - by apply (dispatch_loop_steps keeps_typed UpdateTask_keeps_typed).
Qed.

(** ** Actions that do not move a task *)
Lemma GetTask_run id s t s' : GetTask id s = (s', inr t) → s' = s ∧ find_task id s = Some t.
Proof. unfold GetTask. rewrite bind_gets. destruct (find_task id s); [|done]. by intros [= -> ->]. Qed.

Lemma resolve_run sm t a s s' t' :
  resolveAttrsSetDoneTransition sm t a s = (s', inr t') → s' = s ∧ (t' = t ∨ Apply sm t a = Ok t').
Proof.
  unfold resolveAttrsSetDoneTransition. intros Hr. apply bind_ok in Hr as (g & s1 & Hg & Hr).
  assert (s1 = s) as ->.
  { destruct (doneCardWritableActions _ && _); [|by apply ret_ok in Hg as [-> _]].
    apply bind_ok in Hg as (x & s2 & Hx%try_ok & Hg).
    assert (s2 = s) as ->; [|by destruct x as [[]|]; try done; apply ret_ok in Hg as [-> _]].
    unfold GetTaskTriage in Hx. rewrite bind_gets in Hx.
    revert Hx. by destruct (rows s !! ID t ≫= Card); intros [= <- <-]. }
  destruct g; [apply ret_ok in Hr as [-> ->]; auto|].
  destruct (Apply sm t a) as [u| |]; try done. apply ret_ok in Hr as [-> ->]. auto.
Qed.

Definition non_moving (r : Rule) : bool := negb (skipTaskUpdate (RuleAction r)) || str_empty (ToStatus r).
Lemma non_moving_rules t : forallb non_moving (Rules (machineFor t)) = true.
Proof. unfold machineFor. by destruct (Type_ t). Qed.

Lemma skip_apply t0 t a t' :
  skipTaskUpdate (AType a) = true → Apply (machineFor t0) t a = Ok t' → t' = t.
Proof.
  intros Hs Ha%Apply_Ok. apply apply_rules_inv in Ha as (r & Hr & Hm & ->).
  apply (rules_forall non_moving) in Hr; [|apply non_moving_rules].
  unfold non_moving in Hr. apply apply_matches_spec in Hm as (_ & Hact & _). rewrite Hact, Hs in Hr. simpl in Hr.
  by rewrite Hr.
Qed.

(** An action that does not move a task can not move it by accident: however
    stale the snapshot it was validated against, its transaction leaves the
    status of every task alone, and the action is recorded with the status the
    task has at that moment, on both sides. *)
Theorem non_transitions_never_move `{ServiceEnv} ctx id task0 p s s' ta :
  skipTaskUpdate (AType (PrAction p)) = true →
  InTxDB (commit_action ctx id (machineFor task0) p) s = (s', inr ta) →
  statuses_kept s s' ∧
  ∃ fresh, find_task id s = Some fresh ∧ Status ta.1 = Status fresh ∧
    AFromStatus ta.2 = Status fresh ∧ AToStatus ta.2 = Status fresh.
Proof.
  intros Hskip Hrun. split.
  { pose proof (steps_InTxDB statuses_kept _ (commit_action_steps statuses_kept ctx id (machineFor task0) p
      ltac:(by rewrite Hskip)) s) as Hk. by rewrite Hrun in Hk. }
  unfold InTxDB in Hrun. destruct (commit_action _ _ _ _ s) as [s1 [e|x]] eqn:Hc; simplify_eq.
  unfold commit_action in Hc. apply bind_ok in Hc as ([] & s1 & Hslot & Hc).
  assert (s1 = s) as ->.
  { unfold check_reopen_slot in Hslot. rewrite bool_decide_eq_false_2 in Hslot; [by apply ret_ok in Hslot as [-> _]|].
    intros Ht. by rewrite Ht in Hskip. }
  rewrite Hskip in Hc. apply bind_ok in Hc as (ta' & s1 & Hta & Hc).
  apply bind_ok in Hc as (? & ? & _ & Hc). apply bind_ok in Hc as (? & ? & _ & Hc).
  apply bind_ok in Hc as (? & ? & _ & [-> ->]%ret_ok).
  apply bind_ok in Hta as (fresh & s2 & Hf & Hta). apply map_err_ok, GetTask_run in Hf as [-> Hf].
  apply bind_ok in Hta as (applied & s3 & Ha & [-> ->]%ret_ok). simpl.
  apply resolve_run in Ha as [_ [->|Ha]]; [by exists fresh|].
  apply skip_apply in Ha as ->; [by exists fresh|done].
Qed.

(** ** Who moves cards *)
Lemma prepare_action_run `{ServiceEnv} ctx task sm type payload only s s' p :
  prepare_action ctx task sm type payload only s = (s', inr p) →
  AType (PrAction p) = type ∧ Type_ (PrTask p) = Type_ task.
Proof.
  unfold prepare_action. intros Hp. apply bind_ok in Hp as (meta & s1 & _ & Hp).
  apply bind_ok in Hp as (applied & s2 & Ha & Hp). apply bind_ok in Hp as (newTask & s3 & Hn & Hp).
  apply bind_ok in Hp as (parsed & s4 & _ & [-> ->]%ret_ok). split; [done|]. simpl.
  assert (Type_ applied = Type_ task) as <-.
  { apply resolve_run in Ha as [_ [->|Ha]]; [done|]. apply Apply_Ok, apply_rules_inv in Ha as (r & _ & _ & ->).
    by destruct (str_empty (ToStatus r)). }
  destruct (Exec applied) as [e|]; [|by apply ret_ok in Hn as [_ ->]].
  destruct (if _ && _ then _ else _) as [inst|]; [by apply ret_ok in Hn as [_ ->]|].
  destruct (_ || _); [by apply ret_ok in Hn as [_ ->]|]. by apply bind_ok in Hn as (m & s5 & _ & [_ ->]%ret_ok).
Qed.

(** The manual actions on a card: the six verbs, "answered", and the ones that
    leave the row alone. *)
Lemma card_manual_actions type :
  IsManualAction NewCardMachine type = true → IsCardTransitionAction type = false → type ≠ "answered" →
  skipTaskUpdate type = true.
Proof.
  unfold IsManualAction. intros Hm Ht Ha. apply existsb_exists in Hm as (r & Hr%list_elem_of_In & Hm).
  pose proof (rules_forall (λ r, negb (Manual r) || IsCardTransitionAction (RuleAction r)
    || bool_decide (RuleAction r = "answered") || skipTaskUpdate (RuleAction r)) (Rules NewCardMachine) r ltac:(by vm_compute) Hr) as Hc.
  cbv beta in Hc. apply andb_true_iff in Hm as [<-%bool_decide_eq_true Hm].
  rewrite Hm, Ht, (bool_decide_eq_false_2 _ Ha) in Hc. exact Hc.
Qed.

Lemma commit_cards_kept `{ServiceEnv} ctx id sm p :
  skipTaskUpdate (AType (PrAction p)) = true ∨ Type_ (PrTask p) = TaskTypeExecution →
  steps cards_kept (commit_action ctx id sm p).
Proof.
  intros Hor. apply commit_action_steps; [apply _|]. intros Hs.
  destruct Hor as [?|?]; [congruence|]. by apply UpdateTask_cards_kept.
Qed.

(** A rejected suggestion is dropped; no card moves. *)
Lemma reject_steps `{WorkflowEnv} R `{!RowRel R} ctx id payload parsed :
  AnAnswer parsed ≠ answeredAnswerAccept → steps R (answered_tx ctx id payload parsed).
Proof.
  intros Hr. unfold answered_tx, conflict. rewrite bool_decide_eq_false_2 by done. simpl. steps_tac.
Qed.

Lemma answered_reject_steps `{WorkflowEnv} R `{!RowRel R, !EnvRel R} ctx id payload :
  CtxActor ctx ≠ ActorHuman → steps R (applyAnswered ctx id payload).
Proof.
  intros Ha. unfold applyAnswered. apply steps_bind; [apply _|steps_tac|]. intros parsed s.
  rewrite bind_fail_if, (bool_decide_eq_false_2 (CtxActor ctx = ActorHuman)) by done. rewrite andb_true_r.
  case_bool_decide as Hacc; [reflexivity|].
  refold_steps s.
  apply steps_bind_ok; [apply _|apply steps_map_err, steps_InTxDB; [apply _|by apply reject_steps]|].
  intros s s' [[newTask action] go] Hrun. assert (go = false) as ->; [|steps_tac].
  apply map_err_ok in Hrun. unfold InTxDB in Hrun. destruct (answered_tx _ _ _ _ s) as [s1 [e|x]] eqn:Hx; simplify_eq.
  unfold answered_tx in Hx. apply bind_ok in Hx as (fresh & s2 & _ & Hx).
  destruct (Apply _ fresh _) as [applied| |]; try done. apply bind_ok in Hx as (? & ? & _ & Hx).
  rewrite bool_decide_eq_false_2 in Hx by done. simpl in Hx. by apply bind_ok in Hx as (? & ? & _ & [_ [= -> -> ->]]%ret_ok).
Qed.

(** C13.  Only a human moves a card.  Whatever action anybody else sends, to any
    task, through the one entry point every surface shares, no card changes
    its status, whether the action is one of the six verbs, the acceptance of
    a suggestion, or anything else; rows stay typed. *)
Theorem only_humans_move_cards `{ServiceEnv} `{!EnvRel cards_kept} ctx id type payload only s :
  CtxActor ctx ≠ ActorHuman → typed s →
  typed (applyAction ctx id type payload only s).1 ∧
  ∀ cid card, rows s !! cid = Some card → Type_ card = TaskTypeCard →
    ∃ card', rows (applyAction ctx id type payload only s).1 !! cid = Some card' ∧ Status card' = Status card.
Proof.
  intros Hactor Hs. assert (steps cards_kept (applyAction ctx id type payload only)) as Hk.
  2: { destruct (Hk s Hs) as [? Hc]. split; [done|]. intros cid card Hcid Ht.
       destruct (Hc cid card Hcid Ht) as (card' & ? & ? & _). by exists card'. }
  clear s Hs. unfold applyAction. apply steps_bind; [apply _|steps_tac|intros _].
  apply steps_bind; [apply _|steps_tac|]. intros task s. cbv zeta.
  set (type' := if bool_decide (MName (machineFor task) = CardMachineName) then NormalizeCardVerb type else type). clearbody type'.
  rewrite bind_fail_if.
  destruct (IsManualAction (machineFor task) type') eqn:Hm; simpl; [|reflexivity]. rewrite bind_fail_if.
  rewrite (bool_decide_eq_false_2 (CtxActor ctx = ActorHuman)) by done. rewrite andb_true_r.
  destruct (bool_decide (MName (machineFor task) = CardMachineName) && IsCardTransitionAction type') eqn:Ht; [reflexivity|].
  refold_steps s.
  apply steps_bind; [apply _|steps_tac|intros _].
  destruct (bool_decide (type' = "go")) eqn:Hgo.
  { exfalso. apply bool_decide_eq_true in Hgo. subst type'. revert Hm Ht. unfold machineFor. by destruct (Type_ task). }
  destruct (bool_decide (type' = "answered")) eqn:Hans; [by apply answered_reject_steps; [apply _..|]|].
  apply bool_decide_eq_false in Hans.
  apply steps_bind_ok; [apply _|steps_tac|]. intros s s' p [Hty Htt]%prepare_action_run.
  apply steps_bind; [apply _|steps_tac|intros _].
  apply steps_bind; [apply _|apply steps_map_err, steps_InTxDB; [apply _|apply commit_cards_kept]|steps_tac].
  rewrite Hty, Htt. unfold machineFor in Hm, Ht. destruct (Type_ task); [left|by right].
  apply card_manual_actions; [exact Hm| |exact Hans]. apply andb_false_iff in Ht as [Hc|Hc]; [by vm_compute in Hc|exact Hc].
Qed.

(** ** The dispatch loop ends *)
Section loop.
Context `{ServiceEnv}.

Lemma abortOnDispatchError_returns ctx t e : returns (λ _, True) (abortOnDispatchError ctx t e).
Proof. unfold abortOnDispatchError. returns_tac. Qed.
Lemma persistFiredEvents_returns ctx id st es : returns (λ _, True) (persistFiredEvents ctx id st es).
Proof. unfold persistFiredEvents. returns_tac. Qed.
Hint Resolve abortOnDispatchError_returns persistFiredEvents_returns : returns.

(** A cycle of the execution machine advances to a terminal status or not at all. *)
Lemma cycle_outcome_terminal ran i :
  (cycle_outcome ran i).1 = "" ∨ (cycle_outcome ran i).1 ∈ [TaskStatusDone; TaskStatusAborted].
Proof. unfold cycle_outcome. destruct ran; [|by left]. right. destruct i as [[]|]; simpl; set_solver. Qed.

Lemma dispatch_cycle_stops ctx task meta e base :
  (8 ≤ String.length (ID task))%nat → Exec task = Some e → decoded (Payload e) = Some base →
  returns (λ r, r = Stop) (dispatch_cycle ctx task meta NewExecutionMachine).
Proof.
  intros Hl He Hb. unfold dispatch_cycle. apply returns_bind'; [returns_tac|intros _].
  apply returns_bind'; [returns_tac|intros log].
  destruct (dispatch_total (Some (Some log)) task meta e base Hl He Hb) as (r & err & Hd). rewrite Hd.
  destruct err as [err|]; [returns_tac|].
  assert (NewStatus r = "" ∨ NewStatus r ∈ [TaskStatusDone; TaskStatusAborted]) as Hn.
  { pose proof (dispatch_outcome _ _ _ _ _ _ Hd He Hb) as Ho. apply (f_equal fst) in Ho. simpl in Ho. rewrite Ho.
    apply cycle_outcome_terminal. }
  apply returns_bind'; [returns_tac|intros _]. apply returns_bind'; [returns_tac|intros _].
  apply returns_bind'; [returns_tac|]. intros [er|latest]; [returns_tac|].
  unfold settle_cycle. case_bool_decide; [returns_tac|]. case_bool_decide; [returns_tac|].
  unfold str_empty. case_bool_decide as Hne; [returns_tac|].
  apply returns_bind'; [returns_tac|intros _]. apply returns_bind'; [returns_tac|]. intros [er|[]]; [returns_tac|].
  rewrite bool_decide_eq_true_2; [returns_tac|]. by destruct Hn.
Qed.
End loop.

(** C34.  The dispatch loop of an execution task, whose id has at least eight bytes
    (ids are UUIDs) and whose payload decodes, ends by itself, in its first
    cycle: whatever the hooks print, whichever errors the store or the
    dispatcher return and whatever concurrent requests write meanwhile, it
    neither panics nor runs out of its ten cycles. *)
Theorem runDispatchLoop_ends `{ServiceEnv} ctx task meta e base s :
  (8 ≤ String.length (ID task))%nat → Exec task = Some e → decoded (Payload e) = Some base →
  ∃ s', runDispatchLoop ctx task meta NewExecutionMachine s = (s', inr Ended) ∧
    ∀ n, dispatch_loop (S n) ctx task meta NewExecutionMachine s = (s', inr Ended).
Proof.
  intros Hl He Hb. destruct (dispatch_cycle_stops ctx task meta e base Hl He Hb s) as (s' & r & Hr & ->).
  exists s'. unfold runDispatchLoop, maxCycles. split; [|intros n]; simpl; by rewrite (bind_run _ _ _ _ _ Hr).
Qed.

(** ** What a cycle leaves of concurrent writes *)
Lemma StripAwaitingTrait_decoded p m :
  decoded p = Some m → decoded (StripAwaitingTrait p) = Some (delete TraitAwaiting m).
Proof.
  intros Hd. unfold StripAwaitingTrait. destruct (blank p) eqn:Hb.
  - rewrite (decoded_blank _ _ Hd Hb) in Hd |- *. rewrite delete_empty.
    unfold blank in Hb. destruct p as [| |c v]; [done..|].
    destruct c; [|done]. by destruct v as [| | | | |[]].
  - pose proof (decoded_unmarshal _ _ Hd Hb) as Hu. rewrite Hu. simpl.
    destruct (m !! TraitAwaiting) eqn:Hm; [apply decoded_marshal|]. by rewrite delete_id.
Qed.

Lemma ClearPendingAnswer_decoded p m :
  decoded p = Some m →
  ∃ m', decoded (ClearPendingAnswer p) = Some m' ∧ ∀ k, k ≠ TraitAwaiting → m' !! k = m !! k.
Proof.
  intros Hd. unfold ClearPendingAnswer. destruct (blank p) eqn:Hb.
  - rewrite (decoded_blank _ _ Hd Hb) in Hd |- *. exists ∅. split; [|done].
    unfold blank in Hb. destruct p as [| |c v]; [done..|]. destruct c; [|done]. by destruct v as [| | | | |[]].
  - pose proof (decoded_unmarshal _ _ Hd Hb) as Hu. rewrite Hu. simpl.
    destruct (m !! TraitAwaiting) as [v|]; [|by exists m].
    destruct (json_is_null v); [by exists m|]. destruct (unmarshal_awaiting v) as [ap ok].
    destruct (negb ok); [by exists m|]. destruct (str_empty (PendingAnswer ap)); [by exists m|].
    eexists. split; [apply decoded_marshal|]. intros k Hk. by rewrite lookup_insert_ne.
Qed.

(** Merging a delta into a payload, trait by trait: what the delta does not
    name stays. *)
Lemma merge_delta base delta bm dm :
  decoded base = Some bm → decoded delta = Some dm →
  ∃ r rm, MergePayload base delta = Ok r ∧ decoded r = Some rm ∧
    (∀ k, dm !! k = None → rm !! k = bm !! k) ∧
    (∀ k v, dm !! k = Some v → json_is_null v = false → rm !! k = merged_entry (bm !! k) (Some v)).
Proof.
  intros Hb Hd. destruct (MergePayload_spec _ _ _ _ Hb Hd) as (r & rm & Hr & Hrm & Hk).
  exists r, rm. split_and!; [done..| |].
  - intros k Hn. rewrite Hk, Hn. destruct (blank base) eqn:Hbl; [|done].
    by rewrite (decoded_blank _ _ Hb Hbl), lookup_empty.
  - intros k v Hs Hv. rewrite Hk, Hs. destruct (blank base) eqn:Hbl; [|done].
    rewrite (decoded_blank _ _ Hb Hbl), lookup_empty. simpl. by rewrite Hv.
Qed.

Lemma updated_same_clash row t w time s :
  ParentID t = ParentID row → ProjectID t = ProjectID row → w = WorkspaceID row →
  index_clash (updated_row row t w time) s = index_clash row s.
Proof.
  intros H1 H2 ->. unfold index_clash. f_equal. unfold clashes, same_scope. simpl. by rewrite H1, H2.
Qed.

(** [t] differs from the row it is written over at most in what an UPDATE sets. *)
Record same_identity (row t : Task) : Prop := {
  si_id : ID t = ID row;
  si_type : Type_ t = Type_ row;
  si_project : ProjectID t = ProjectID row;
  si_workspace : WorkspaceID t = WorkspaceID row;
  si_ref : Ref t = Ref row;
  si_parent : ParentID t = ParentID row;
  si_key : IdempotencyKey t = IdempotencyKey row;
  si_created : CreatedAt t = CreatedAt row;
  si_card : Card t = Card row;
  si_exec : Behavior <$> Exec t = Behavior <$> Exec row;
}.

Lemma UpdateTask_over s row t :
  rows s !! ID row = Some row → index_clash row s = false → same_identity row t → row_check t = true →
  UpdateTask t s = (set_rows s (<[ID row := with_updated_at t (clock (led s))]> (rows s)), inr ()).
Proof.
  intros Hrow Hcl [] Hchk. unfold UpdateTask, now. rewrite bind_fail_if.
  assert (validateTaskTypeConsistency t = None) as ->.
  { unfold row_check in Hchk. by destruct (validateTaskTypeConsistency t). }
  rewrite bool_decide_eq_false_2 by (by intros []). rewrite !bind_gets. rewrite si_id0, Hrow.
  rewrite bool_decide_eq_true_2 by done. erewrite bind_run by done. unfold store_row.
  assert (updated_row row t (WorkspaceID row) (clock (led s)) = with_updated_at t (clock (led s))) as Hrow'.
  { unfold updated_row, with_updated_at. destruct t as [i ty p w r ti d st rf pa k c u ca ex]. simpl in *. subst. f_equal.
    destruct ex as [e|], (Exec row) as [e0|]; simplify_eq/=; [|done]. destruct e. simpl in *. by subst. }
  rewrite bind_fail_if. rewrite Hrow' at 1. rewrite with_updated_at_check, Hchk. cbn [negb].
  rewrite bind_gets, bind_fail_if, updated_same_clash by done. rewrite Hcl, Hrow'. unfold modify.
  change (ID (with_updated_at t (clock (led s)))) with (ID t). by rewrite si_id0.
Qed.

Lemma row_check_payload t p : row_check (set_Payload t p) = row_check t.
Proof.
  unfold row_check, validateTaskTypeConsistency. simpl. destruct (Type_ t), (Exec t), (Card t); done.
Qed.

Lemma same_identity_payload row st p : same_identity row (set_Payload (set_Status row st) p).
Proof. constructor; try done. simpl. by destruct (Exec row). Qed.

(** C12.  Persisting the payload of a cycle keeps what others wrote while the hooks
    ran.  The transaction re-reads the row and succeeds; every trait the hooks
    did not write is as in that row, a trait they did write is merged into it,
    the awaiting trait never comes from a hook, and nothing else of the row,
    no other task and no log entry changes. *)
Theorem concurrent_writes_survive `{ServiceEnv} id delta s row e bm dm :
  typed s → rows s !! id = Some row → index_clash row s = false → Exec row = Some e →
  decoded (Payload e) = Some bm → decoded delta = Some dm →
  ∃ latest p pm, decoded p = Some pm ∧
    InTxDB (persist_payload id (StripAwaitingTrait delta)) s =
      (set_rows s (<[id := with_updated_at latest (clock (led s))]> (rows s)), inr latest) ∧
    latest = set_Payload row p ∧
    (∀ k, k ≠ TraitAwaiting → dm !! k = None → pm !! k = bm !! k) ∧
    (∀ k v, k ≠ TraitAwaiting → dm !! k = Some v → json_is_null v = false → pm !! k = merged_entry (bm !! k) (Some v)) ∧
    ∃ cm, decoded (ClearPendingAnswer (Payload e)) = Some cm ∧ pm !! TraitAwaiting = cm !! TraitAwaiting.
Proof.
  intros Hty Hrow Hcl He Hb Hd. destruct (Hty _ _ Hrow) as [Hid Hchk].
  destruct (ClearPendingAnswer_decoded _ _ Hb) as (cm & Hcm & Hck).
  pose proof (StripAwaitingTrait_decoded _ _ Hd) as Hs.
  set (cleared := ClearPendingAnswer (Payload e)) in *. set (d := StripAwaitingTrait delta) in *.
  assert (∃ p pm, (if len0 d then mret cleared else lift_payload (WInternal "merge payload") (MergePayload cleared d)) s
                  = (s, inr p : werr + raw) ∧ decoded p = Some pm ∧
    (∀ k, delete TraitAwaiting dm !! k = None → pm !! k = cm !! k) ∧
    (∀ k v, delete TraitAwaiting dm !! k = Some v → json_is_null v = false → pm !! k = merged_entry (cm !! k) (Some v)))
    as (p & pm & Hrun & Hpm & Hout & Hin).
  { destruct (len0 d) eqn:Hl.
    - exists cleared, cm. split_and!; [done..|]. intros k v Hk. exfalso.
      rewrite (decoded_blank d _ Hs) in Hk; [by rewrite lookup_empty in Hk|]. unfold blank. by rewrite Hl.
    - destruct (merge_delta _ _ _ _ Hcm Hs) as (r & rm & Hr & Hrm & ? & ?). exists r, rm. by rewrite Hr. }
  exists (set_Payload row p), p, pm. split; [done|]. split.
  { unfold InTxDB, persist_payload. erewrite bind_run.
    2: { unfold GetTask. rewrite bind_gets. unfold find_task. by rewrite Hrow. }
    rewrite He. cbv zeta. fold cleared. erewrite bind_run by exact Hrun.
    rewrite <- Hid in Hrow. erewrite bind_run.
    2: { apply (UpdateTask_over s row); [done..| |by rewrite row_check_payload].
         rewrite <- (set_Status_same row) at 2. apply same_identity_payload. }
    by rewrite Hid. }
  split_and!; [done| | |].
  - intros k Hk Hn. rewrite Hout, Hck by (rewrite ?lookup_delete_ne; done). done.
  - intros k v Hk Hv Hnull. rewrite <- Hck by done. apply Hin; [|done]. by rewrite lookup_delete_ne.
  - exists cm. split; [done|]. apply Hout. apply lookup_delete_eq.
Qed.

(** ** What the loop overwrites *)

(** The row [CreateAction] stores for an action. *)
Definition logged `{WorkflowEnv} (s : WDB) (a : Action) : Action :=
  {| AID := uuid (uuids (led s)); ATaskID := ATaskID a; AType := AType a;
     APayload := if len0 (APayload a) then raw_obj0 else APayload a; AFromStatus := AFromStatus a;
     AToStatus := AToStatus a; ACreatedAt := clock (led s); Actor := Actor a |}.

Lemma CreateAction__run `{WorkflowEnv} w taskID type payload from to actor s :
  is_Some (rows s !! taskID) → type ∉ cardEventIngestActionTypes →
  ∃ s', CreateAction_ w (new_action taskID type payload from to actor) s = (s', inr ()) ∧ rows s' = rows s ∧
    (clock (led s') = clock (led s) ∧ jobs (led s') = jobs (led s) ∧ card_requests (led s') = card_requests (led s)) ∧
    actions (led s') = actions (led s) ++ [logged s (new_action taskID type payload from to actor)].
Proof.
  intros Ht Hty. unfold CreateAction_, CreateAction, on_ledger.
  set (a := new_action taskID type payload from to actor).
  assert (CardRequests.CreateAction uuid a (ledger_view s) =
          (set_actions (next_uuid (ledger_view s)) (actions (led s) ++ [logged s a]), inr ())) as Hc.
  { unfold CardRequests.CreateAction, time_Now. cbn [AID a new_action]. change (str_empty "") with true. cbv iota.
    erewrite bind_run by done. rewrite !bind_gets, bind_fail_if. cbn [ATaskID next_uuid tasks ledger_view].
    rewrite bool_decide_eq_true_2; [done|]. rewrite lookup_fmap. destruct Ht as [t Ht].
    change (ATaskID a) with taskID. rewrite Ht. by eexists. }
  rewrite (bind_run _ _ _ _ _ Hc), bind_gets. cbn [actions set_actions]. rewrite last_snoc.
  assert (∀ l, IngestCardEventRequest uuid w (default a (Some (logged s a))) card_events l = (l, inr ())) as ->.
  { intros l. unfold IngestCardEventRequest. destruct card_events; [|done].
    destruct (str_empty _); [done|]. cbn [default AType logged a new_action]. by rewrite bool_decide_eq_false_2. }
  eexists. split; [done|]. done.
Qed.

Lemma same_identity_status row st : same_identity row (set_Status row st).
Proof. by constructor. Qed.

(** An UPDATE followed by an action of the daemon's own. *)
Lemma update_and_log `{WorkflowEnv} w row t type payload from to s :
  rows s !! ID row = Some row → index_clash row s = false → same_identity row t → row_check t = true →
  type ∉ cardEventIngestActionTypes →
  ∃ s', InTxDB (_ ← UpdateTask t; CreateAction_ w (new_action (ID t) type payload from to ActorDaemon)) s = (s', inr ()) ∧
    rows s' = <[ID row := with_updated_at t (clock (led s))]> (rows s) ∧
    actions (led s') = actions (led s) ++ [logged s (new_action (ID t) type payload from to ActorDaemon)].
Proof.
  intros Hrow Hcl Hid Hc Hty. unfold InTxDB.
  rewrite (bind_run _ _ _ _ _ (UpdateTask_over s row t Hrow Hcl Hid Hc)).
  edestruct (CreateAction__run w (ID t) type payload from to ActorDaemon) as (s' & -> & Hr & _ & Ha).
  2: done. 2: { exists s'. split; [done|]. split; [by rewrite Hr|by rewrite Ha]. }
  rewrite (si_id _ _ Hid). simpl. rewrite lookup_insert_eq. by eexists.
Qed.

(** The advance of a cycle is written without looking at the row again: if a
    request ends the task (or moves it anywhere else) after the payload was
    persisted, the advance still commits, the status it wrote replaces the
    other one, and the log claims the task went straight from the status the
    cycle saw. *)
Theorem late_end_is_overwritten `{ServiceEnv} ctx result latest st s :
  rows s !! ID latest = Some (set_Status latest st) → index_clash latest s = false →
  row_check (set_Status latest (NewStatus result)) = true →
  ∃ s' row', InTxDB (advance_tx ctx result latest) s = (s', inr ()) ∧
    rows s' !! ID latest = Some row' ∧ Status row' = NewStatus result ∧
    ∃ a, actions (led s') = actions (led s) ++ [a] ∧ AType a = "auto_advance" ∧
      AFromStatus a = Status latest ∧ AToStatus a = NewStatus result.
Proof.
  intros Hrow Hcl Hc.
  destruct (update_and_log (CtxWriter ctx) (set_Status latest st) (set_Status latest (NewStatus result)) "auto_advance"
    (default REmpty (DActionPayload result)) (Status latest) (NewStatus result) s) as (s' & Hrun & Hr & Ha).
  - done.
  - done.
  - by constructor.
  - done.
  - vm_compute. intros Hin. repeat (apply elem_of_cons in Hin as [Hin|Hin]; [done|]). by apply elem_of_nil in Hin.
  - eexists s', _. split; [exact Hrun|]. rewrite Hr. simpl. rewrite lookup_insert_eq. split; [done|]. split; [done|].
    eexists. split; [exact Ha|]. done.
Qed.

(** Aborting a task whose dispatch failed writes back the snapshot the cycle
    started from: whatever the failed hook, or anyone else, wrote to the
    task's payload meanwhile is gone, and so is any status it reached. *)
Theorem failed_dispatch_restores_snapshot `{ServiceEnv} ctx task err p st e s :
  Exec task = Some e → rows s !! ID task = Some (set_Payload (set_Status task st) p) → index_clash task s = false →
  row_check (set_Status task TaskStatusAborted) = true →
  ∃ s' row' e', InTxDB (abort_tx ctx task err) s = (s', inr ()) ∧
    rows s' !! ID task = Some row' ∧ Status row' = TaskStatusAborted ∧ Exec row' = Some e' ∧ Payload e' = Payload e.
Proof.
  intros He Hrow Hcl Hc.
  destruct (update_and_log (CtxWriter ctx) (set_Payload (set_Status task st) p) (set_Status task TaskStatusAborted) "abort"
    (string_map [("code", if isShutdownErr ctx err then "daemon_shutdown" else "dispatch_error");
                 ("message", if isShutdownErr ctx err then shutdown_message else failure_text err)])
    (Status task) TaskStatusAborted s) as (s' & Hrun & Hr & Ha).
  - done.
  - done.
  - constructor; try done. simpl. rewrite He. by destruct e.
  - done.
  - vm_compute. intros Hin. repeat (apply elem_of_cons in Hin as [Hin|Hin]; [done|]). by apply elem_of_nil in Hin.
  - eexists s', _, e. split; [exact Hrun|]. rewrite Hr. simpl. rewrite lookup_insert_eq. done.
Qed.

(** ** The theorems at a concrete database *)
#[local] Instance sample_service : ServiceEnv :=
  {| service_workflow := sample_env; service_hooks := sample_runtime; TaskMeta := λ _, Some sample_meta;
     payload_len := λ _, 10%Z; is_canceled := λ _, false; failure_text := λ _, "failed" |}.
Definition human_ctx : Ctx := {| CtxActor := ActorHuman; CtxWriter := None; CtxCanceled := false |}.
Definition service_db : WDB := sample_wdb [executing_task; card_task TaskStatusParked REmpty].

Lemma service_db_typed : typed service_db.
Proof. by apply sample_typed. Qed.

Lemma tasks_stay_typed_witness :
  typed (applyAction human_ctx "card-0123" "start" REmpty false service_db).1 ∧
  typed (runDispatchLoop human_ctx executing_task sample_meta NewExecutionMachine service_db).1.
Proof.
  apply (tasks_stay_typed (H := sample_service) (EnvRel0 := sample_env_rel keeps_typed _)), service_db_typed.
Defined.

Lemma only_humans_move_cards_witness :
  ∃ card', rows (applyAction daemon_ctx "card-0123" "start" REmpty false service_db).1 !! "card-0123" = Some card' ∧
    Status card' = TaskStatusParked.
Proof.
  destruct (only_humans_move_cards (H := sample_service) (EnvRel0 := sample_env_rel cards_kept _) daemon_ctx "card-0123" "start" REmpty false service_db)
    as [_ Hk]; [discriminate|apply service_db_typed|].
  apply (Hk "card-0123" (card_task TaskStatusParked REmpty)); vm_compute; reflexivity.
Defined.

Definition noted : prepared :=
  {| PrTask := card_task TaskStatusParked REmpty;
     PrAction := new_action "card-0123" "noted" raw_obj0 TaskStatusParked TaskStatusParked ActorHuman;
     PrParsed := PNothing; PrMeta := sample_meta |}.
(** The card has moved on to working since the note was validated. *)
Definition moved_db : WDB := sample_wdb [card_task TaskStatusWorking REmpty].
Definition noted_run : WDB * (werr + Task * Action) :=
  InTxDB (commit_action human_ctx "card-0123" NewCardMachine noted) moved_db.

Lemma non_transitions_never_move_witness :
  statuses_kept moved_db noted_run.1 ∧
  ∃ ta fresh, noted_run.2 = inr ta ∧ find_task "card-0123" moved_db = Some fresh ∧ AFromStatus ta.2 = Status fresh.
Proof.
  assert (∃ ta, noted_run = (noted_run.1, inr ta)) as [ta Hta] by (eexists; vm_compute; reflexivity).
  destruct (non_transitions_never_move human_ctx "card-0123" (card_task TaskStatusParked REmpty) noted moved_db noted_run.1 ta)
    as (Hk & fresh & Hf & _ & Ha & _); [reflexivity|exact Hta|].
  split; [exact Hk|]. exists ta, fresh. split; [by rewrite Hta|]. split; [exact Hf|exact Ha].
Defined.

Lemma runDispatchLoop_ends_witness :
  ∃ s', runDispatchLoop daemon_ctx executing_task sample_meta NewExecutionMachine service_db = (s', inr Ended).
Proof.
  destruct (runDispatchLoop_ends daemon_ctx executing_task sample_meta sample_exec ∅ service_db) as (s' & Hs' & _);
    [vm_compute; lia|reflexivity|reflexivity|].
  exists s'. exact Hs'.
Defined.

Lemma concurrent_writes_survive_witness :
  ∃ latest p pm, InTxDB (persist_payload "01234567-task" (StripAwaitingTrait sample_patch)) service_db =
      (set_rows service_db (<["01234567-task" := with_updated_at latest 100]> (rows service_db)), inr latest) ∧
    latest = set_Payload executing_task p ∧ decoded p = Some pm ∧
    pm !! "artifact" = merged_entry None (Some (JObj [("url", JStr "u")])).
Proof.
  destruct (concurrent_writes_survive "01234567-task" sample_patch service_db executing_task sample_exec ∅
    {["artifact" := JObj [("url", JStr "u")]]}) as (latest & p & pm & Hp & Hrun & Hl & _ & Hw & _);
    [apply service_db_typed|vm_compute; reflexivity..|].
  exists latest, p, pm. split; [exact Hrun|]. split; [exact Hl|]. split; [exact Hp|].
  exact (Hw "artifact" (JObj [("url", JStr "u")]) ltac:(discriminate) eq_refl eq_refl).
Defined.

(** The task has been aborted since the cycle read it. *)
Definition aborted_db : WDB := sample_wdb [set_Status executing_task TaskStatusAborted].

Lemma late_end_is_overwritten_witness :
  ∃ s' row', InTxDB (advance_tx daemon_ctx sample_result executing_task) aborted_db = (s', inr ()) ∧
    rows s' !! "01234567-task" = Some row' ∧ Status row' = TaskStatusDone.
Proof.
  destruct (late_end_is_overwritten daemon_ctx sample_result executing_task TaskStatusAborted aborted_db)
    as (s' & row' & Hrun & Hrow & Hst & _); [vm_compute; reflexivity..|].
  exists s', row'. split; [exact Hrun|]. split; [exact Hrow|]. exact Hst.
Defined.

Definition written_db : WDB := sample_wdb [set_Payload executing_task sample_patch].

Lemma failed_dispatch_restores_snapshot_witness :
  ∃ s' row' e', InTxDB (abort_tx daemon_ctx executing_task (FStore WNoRows)) written_db = (s', inr ()) ∧
    rows s' !! "01234567-task" = Some row' ∧ Exec row' = Some e' ∧ Payload e' = raw_obj0.
Proof.
  destruct (failed_dispatch_restores_snapshot daemon_ctx executing_task (FStore WNoRows) sample_patch TaskStatusExecuting
    sample_exec written_db) as (s' & row' & e' & Hrun & Hrow & _ & He & Hp); [vm_compute; reflexivity..|].
  exists s', row', e'. split; [exact Hrun|]. split; [exact Hrow|]. split; [exact He|exact Hp].
Defined.
