(* ===== verification/WorkSlot.v ===== *)
(** * The single work slot of a card

    A card runs one piece of work at a time: at most one of its children is
    still to be dispatched, and a dispatch hands a child out once.  The rule is
    nowhere in the schema; it rests on the guards of workflow_card.go, which
    re-read the card inside every transaction while other requests run. *)
From S2P Require Import Prelude Json Task Machine Coordinator Store CardDetail CardRequests CardDispatch TaskStore CardWorkflow Workflow.

(** ** The invariant *)
Definition to_dispatch (cs : list TaskTriageChild) : list TaskTriageChild := filter (λ c, undispatched c = true) cs.

Record slot_ok (cs : list TaskTriageChild) : Prop := {
  slot_known : Forall (λ c, known_child_status c = true ∧ ChID c ≠ "") cs;
  slot_single : (length (to_dispatch cs) ≤ 1)%nat;
}.

Definition holds_children (d : raw) (cs : list TaskTriageChild) : Prop := plain_detail d ∧ DetailChildren d = Ok cs.
Definition card_ok (c : CardAttrs) : Prop := ∃ cs, holds_children (Detail c) cs ∧ slot_ok cs.
Definition slots_ok (s : WDB) : Prop := ∀ id t c, rows s !! id = Some t → Card t = Some c → card_ok c.
Definition keeps_slots (s s' : WDB) : Prop := slots_ok s → slots_ok s'.

#[export] Instance keeps_slots_refl : Reflexive keeps_slots.
Proof. by intros s Hs. Qed.
#[export] Instance keeps_slots_trans : Transitive keeps_slots.
Proof. intros a b c Hab Hbc Ha. auto. Qed.

(** No card is touched. *)
Definition cards_same (s s' : WDB) : Prop :=
  ∀ id t' c, rows s' !! id = Some t' → Card t' = Some c → ∃ id0 t, rows s !! id0 = Some t ∧ Card t = Some c.
#[export] Instance cards_same_refl : Reflexive cards_same.
Proof. intros s id t c. eauto. Qed.
#[export] Instance cards_same_trans : Transitive cards_same.
Proof. intros s1 s2 s3 H12 H23 id t c Ht Hc. destruct (H23 _ _ _ Ht Hc) as (? & ? & ? & ?). eauto. Qed.
Lemma cards_same_slots s s' : cards_same s s' → slots_ok s → slots_ok s'.
Proof. intros Hc Hs id t c Ht Hcard. destruct (Hc _ _ _ Ht Hcard) as (? & ? & ? & ?). eauto. Qed.

Lemma same_rows_cards s s' : rows s' = rows s → cards_same s s'.
Proof. intros Hr id t c. rewrite Hr. eauto. Qed.
Lemma on_ledger_rows {A} (m : cardm A) s : rows (on_ledger m s).1 = rows s.
Proof. unfold on_ledger. by destruct (m (ledger_view s)). Qed.
Lemma on_ledger_cards {A} (m : cardm A) : steps cards_same (on_ledger m).
Proof. intros s. apply same_rows_cards, on_ledger_rows. Qed.
Lemma lift_cards {A} (m : fallible A) : steps cards_same (lift m).
Proof. intros s. by destruct m. Qed.
Lemma UpdateTask_cards t : steps cards_same (UpdateTask t).
Proof.
  intros s. destruct (UpdateTask_cases t s) as [[e ->]|(old & w & row & Hold & _ & -> & _ & _ & _ & ->)]; [reflexivity|].
  intros id u c Hu Hc. simpl in Hu. destruct (decide (ID old = id)) as [<-|Hne].
  - rewrite lookup_insert_eq in Hu. simplify_eq/=. eauto.
  - rewrite lookup_insert_ne in Hu by done. eauto.
Qed.
Lemma TouchTaskUpdatedAt_cards id : steps cards_same (TouchTaskUpdatedAt id).
Proof.
  intros s j u c Hu Hc. unfold TouchTaskUpdatedAt, now in Hu. rewrite bind_gets in Hu. simpl in Hu.
  apply lookup_alter_Some in Hu as [(-> & t & Ht & ->)|[_ Hu]]; eauto.
Qed.
Lemma UnlinkAllForTask_cards id : steps cards_same (UnlinkAllForTask id).
Proof. intros s. by apply same_rows_cards. Qed.
Lemma CreateAction__cards `{WorkflowEnv} w a : steps cards_same (CreateAction_ w a).
Proof. apply on_ledger_cards. Qed.

(** ** Steps of the handlers that keep it *)
Abbreviation keeps := (delivers slots_ok (λ _, True)).

Lemma keeps_any {A} (Q : A → Prop) (m : taskm A) : delivers slots_ok Q m → keeps m.
Proof. intros Hm. by eapply delivers_weaken. Qed.
Lemma keeps_cards {A} (m : taskm A) : steps cards_same m → keeps m.
Proof. apply delivers_steps, cards_same_slots. Qed.
Lemma keeps_gets {A} (f : WDB → A) : keeps (gets f : taskm A).
Proof. by intros s. Qed.
Lemma keeps_fail_if c (e : werr) : keeps (fail_if c e).
Proof. eapply keeps_any, delivers_fail_if. Qed.
Lemma keeps_try {A} (m : taskm A) : keeps m → keeps (try_ m).
Proof. intros Hm. by eapply keeps_any, delivers_try. Qed.
Lemma keeps_bind {A B} (m : taskm A) (f : A → taskm B) : keeps m → (∀ a, keeps (f a)) → keeps (m ≫= f).
Proof. intros Hm Hf. by apply (delivers_bind _ (λ _, True)). Qed.
Lemma keeps_GetTask id : keeps (GetTask id).
Proof. intros s Hs. unfold GetTask. rewrite bind_gets. by destruct (find_task id s). Qed.

Create HintDb keeps.
#[export] Hint Resolve delivers_ret delivers_throw keeps_gets keeps_fail_if keeps_try delivers_map_err
  delivers_InTxDB delivers_for_each keeps_GetTask : keeps.
#[export] Hint Extern 2 (delivers slots_ok _ _) => apply keeps_cards : keeps.
#[export] Hint Resolve on_ledger_cards lift_cards UpdateTask_cards TouchTaskUpdatedAt_cards UnlinkAllForTask_cards
  CreateAction__cards : keeps.
Ltac keeps_tac :=
  repeat first
    [ progress intros
    | solve [eauto 3 with keeps]
    | apply keeps_bind
    | apply keeps_try | apply delivers_InTxDB | apply delivers_map_err
    | case_match ].

Lemma lift_delivers {A} (m : fallible A) : delivers slots_ok (λ a, m = Ok a) (lift m).
Proof. intros s Hs. destruct m; simpl; split; try done. by intros ? [= ->]. Qed.

Lemma fresh_card_ok id : card_ok (fresh_attrs id).
Proof. exists []. split; [by split|]. split; [constructor|simpl; lia]. Qed.

Lemma GetTaskTriage_delivers id : delivers slots_ok card_ok (GetTaskTriage id).
Proof.
  intros s Hs. unfold GetTaskTriage. rewrite bind_gets. destruct (rows s !! id) as [t|] eqn:Ht; [|done].
  simpl. destruct (Card t) as [c|] eqn:Hc; [|done]. simpl. split; [done|]. intros ? [= <-].
  destruct (Hs _ _ _ Ht Hc) as (cs & ? & ?). by exists cs.
Qed.

Lemma triage_or_fresh_delivers id : delivers slots_ok card_ok (triage_or_fresh id).
Proof.
  unfold triage_or_fresh. eapply delivers_bind; [apply delivers_try, GetTaskTriage_delivers|].
  intros [[]|tri] Htri; try apply delivers_throw; apply delivers_ret; [apply fresh_card_ok|done].
Qed.

Lemma holds_or_empty c cs : holds_children (Detail c) cs → holds_children (Detail (detail_or_empty c)) cs.
Proof.
  unfold detail_or_empty. simpl. intros [Hp Hc]. destruct (Detail c) as [| |cc v]; simpl in *; try done.
  split; [|done]. split; [constructor|]. by intros k ?%elem_of_nil.
Qed.

Lemma UpsertTaskTriage_keeps c : card_ok c → keeps (UpsertTaskTriage c).
Proof.
  intros (cs & Hh & Hok) s Hs. split; [|done]. unfold UpsertTaskTriage. rewrite bind_fail_if.
  destruct (str_empty _); [done|]. rewrite bind_gets. destruct (rows s !! CTaskID c) as [t|] eqn:Ht; [|done].
  case_bool_decide; [|done]. intros id u c' Hu Hc'. simpl in Hu. destruct (decide (CTaskID c = id)) as [<-|Hne].
  - rewrite lookup_insert_eq in Hu. simplify_eq/=. exists cs. split; [by apply holds_or_empty|done].
  - rewrite lookup_insert_ne in Hu by done. by eapply Hs.
Qed.

Lemma UpsertTaskTriage_detail c d cs : holds_children d cs → slot_ok cs → keeps (UpsertTaskTriage (set_Detail c d)).
Proof. intros. apply UpsertTaskTriage_keeps. by exists cs. Qed.

(** ** Operations on the blob *)
Lemma detail_attrs_ok detail a :
  detail_attrs (Some (detail_map detail)) = Ok a → is_Some (attrs_of detail).
Proof.
  rewrite detail_attrs_of. unfold attrs_of. destruct (detail_map detail !! "attrs") as [[]|]; simpl; eauto;
    try done; destruct (value_map _) as [[]|]; by eauto.
Qed.

Lemma FoldDetailAttrs_holds d patch d' cs :
  FoldDetailAttrs d patch = Ok d' → holds_children d cs → holds_children d' cs.
Proof.
  intros Hf [Hp Hc]. assert (is_Some (attrs_of d)) as [attrs Ha].
  { unfold FoldDetailAttrs in Hf. rewrite parse_plain in Hf by done. simpl in Hf.
    destruct (detail_attrs _) eqn:E; try done. by eapply detail_attrs_ok. }
  rewrite (FoldDetailAttrs_run d patch attrs) in Hf by done. injection Hf as <-.
  destruct (with_attrs_spec d (patch ∪ attrs) Hp) as (? & _ & _ & Hk). split; [done|by rewrite Hk].
Qed.

Lemma StripDetailAttrs_holds d keys d' cs :
  StripDetailAttrs d keys = Ok d' → holds_children d cs → holds_children d' cs.
Proof.
  intros Hf [Hp Hc]. assert (is_Some (attrs_of d)) as [attrs Ha].
  { unfold StripDetailAttrs in Hf. rewrite parse_plain in Hf by done. simpl in Hf.
    destruct (detail_attrs _) eqn:E; try done. by eapply detail_attrs_ok. }
  destruct (StripDetailAttrs_run d keys attrs Hp Ha) as (d1 & attrs' & Hr & Hp1 & _ & _ & Hk & _).
  rewrite Hf in Hr. injection Hr as <-. split; [done|by rewrite Hk].
Qed.

Lemma to_dispatch_app cs cs' : to_dispatch (cs ++ cs') = to_dispatch cs ++ to_dispatch cs'.
Proof. apply filter_app. Qed.

Lemma known_undispatched_settled c : known_child_status c = true → undispatched c = negb (settled c).
Proof.
  unfold known_child_status, undispatched, settled. rewrite bool_decide_eq_true. rewrite !elem_of_cons, elem_of_nil.
  intros [Hs|[Hs|[Hs|[Hs|[]]]]]; rewrite Hs; by vm_compute.
Qed.

(** Changing one child into one that keeps its id and is not newly waiting. *)
Lemma slot_ok_update P f cs :
  (∀ c, ChID (f c) = ChID c) → (∀ c, known_child_status c = true → known_child_status (f c) = true) →
  (∀ c, known_child_status c = true → undispatched (f c) = true → undispatched c = true) →
  slot_ok cs → slot_ok (update_first P f cs).
Proof.
  intros Hid Hk Hu [Hf Hl]. split.
  - clear Hl. induction Hf as [|c cs [Hc Hi] Hf IH]; [constructor|]. simpl. destruct (P c); constructor; auto.
    split; [auto|by rewrite Hid].
  - etransitivity; [|exact Hl]. clear Hl. induction Hf as [|c cs [Hc Hi] Hf IH]; [done|]. simpl. destruct (P c).
    + unfold to_dispatch. rewrite !filter_cons. pose proof (Hu c Hc). repeat case_decide; simpl; try lia. tauto.
    + unfold to_dispatch in *. rewrite !filter_cons. case_decide; simpl; lia.
Qed.

Lemma close_undispatched c : undispatched (close c) = false.
Proof. by vm_compute. Qed.

Lemma abstract_slot_ok op cs cs' :
  match op with
  | OpAdd child => existsb (has_id (ChID child)) cs = true ∨
                   to_dispatch cs = [] ∧ ChID child ≠ "" ∧ ChStatus child = ""
  | _ => True
  end → abstract_op op cs = Some cs' → slot_ok cs → slot_ok cs'.
Proof.
  destruct op as [child|id spec title|taskID|id]; simpl; intros Hop Ha Hok.
  - injection Ha as <-. destruct (existsb _ cs) eqn:He; [done|]. destruct Hop as [?|(Hn & Hid & Hst)]; [done|].
    destruct Hok as [Hf Hl]. unfold with_default_status. rewrite Hst. change (str_empty "") with true. cbv iota. split.
    + apply Forall_app. split; [done|]. constructor; [|constructor]. split; [by vm_compute|done].
    + rewrite to_dispatch_app, Hn. exact (length_filter _ [_]).
  - destruct (existsb _ cs); [|done]. injection Ha as <-. apply slot_ok_update; [|intros c Hc|intros c Hc|done].
    + intros c. by destruct (settled c).
    + destruct (settled c); [done|]. by vm_compute.
    + rewrite (known_undispatched_settled c Hc). by destruct (settled c) eqn:E; [rewrite known_undispatched_settled, E by done|].
  - injection Ha as <-. apply slot_ok_update; [done| |intros c _; by rewrite close_undispatched|done]. intros. by vm_compute.
  - destruct (List.find _ cs); [|done]. case_bool_decide; [done|]. injection Ha as <-.
    apply slot_ok_update; [done| |intros c' _; by rewrite close_undispatched|done]. intros. by vm_compute.
Qed.

Lemma detail_op_holds op d d' cs :
  detail_op op d = Ok d' → holds_children d cs → ∃ cs', abstract_op op cs = Some cs' ∧ holds_children d' cs'.
Proof.
  intros Ho [Hp Hc]. pose proof (detail_op_refines op d cs Hp Hc) as Hr. destruct (abstract_op op cs) as [cs'|].
  - destruct Hr as (d1 & Hd1 & Hp1 & Hc1 & _). rewrite Ho in Hd1. injection Hd1 as <-. by exists cs'.
  - destruct Hr as [e He]. congruence.
Qed.

Lemma detail_op_card op c d' :
  match op with OpAdd _ => False | _ => True end →
  detail_op op (Detail c) = Ok d' → card_ok c → keeps (UpsertTaskTriage (set_Detail c d')).
Proof.
  intros Hop Ho (cs & Hh & Hok). destruct (detail_op_holds _ _ _ _ Ho Hh) as (cs' & Ha & Hh').
  eapply UpsertTaskTriage_detail; [done|]. eapply abstract_slot_ok; [|done..]. by destruct op.
Qed.

(** ** The guard of child_added *)
Lemma first_undispatched cs :
  Forall (λ c, known_child_status c = true ∧ ChID c ≠ "") cs →
  match list_find (λ c, undispatched c = true) cs with Some (_, c) => ChID c | None => "" end = "" → to_dispatch cs = [].
Proof.
  intros Hf. destruct (list_find _ cs) as [[i c]|] eqn:Hl.
  - apply list_find_Some in Hl as (Hi & _ & _). intros He. eapply Forall_lookup_1 in Hf as [_ Hne]; [|done]. done.
  - intros _. apply list_find_None in Hl. unfold to_dispatch. induction Hl as [|c cs Hc Hl IH]; [done|].
    rewrite filter_cons_False by done. apply IH. by inversion Hf.
Qed.

Lemma free_slot d cs : holds_children d cs → slot_ok cs → DetailOpenSlotChildID d = Ok "" → to_dispatch cs = [].
Proof.
  intros [_ Hc] [Hf _]. unfold DetailOpenSlotChildID. rewrite Hc. simpl. intros [= He]. by apply first_undispatched.
Qed.

Lemma cardSpecSlotOccupied_reads id : steps eq (cardSpecSlotOccupied id).
Proof. unfold cardSpecSlotOccupied, GetTask, GetTaskTriage, lift. steps_tac. Qed.

Lemma cardSpecSlotOccupied_free id s s' c :
  cardSpecSlotOccupied id s = (s', inr false) → rows s !! id ≫= Card = Some c → DetailOpenSlotChildID (Detail c) = Ok "".
Proof.
  unfold cardSpecSlotOccupied. intros Hr Hc. apply bind_ok in Hr as (card & s1 & [-> _]%GetTask_run & Hr).
  apply bind_ok in Hr as (n & s2 & [-> ->]%gets_ok & Hr). apply bind_ok in Hr as (busy & s3 & Hb & Hr).
  assert (s3 = s) as ->.
  { destruct (_ <? _)%nat; [|by apply ret_ok in Hb as [-> _]].
    apply bind_ok in Hb as (? & ? & [-> ->]%gets_ok & Hb). apply bind_ok in Hb as (? & ? & [-> ->]%gets_ok & Hb).
    by apply ret_ok in Hb as [-> _]. }
  destruct busy; [by apply ret_ok in Hr as [_ ?]|]. apply bind_ok in Hr as (r & s4 & Ht & Hr).
  apply try_ok in Ht. unfold GetTaskTriage in Ht. rewrite bind_gets, Hc in Ht. injection Ht as <- <-.
  apply bind_ok in Hr as (occ & s5 & Ho & [_ Hocc]%ret_ok). simpl in Ho.
  unfold lift in Ho. destruct (DetailOpenSlotChildID _); try done. apply ret_ok in Ho as [_ ->].
  unfold str_empty in Hocc. case_bool_decide as He; [by rewrite He|done].
Qed.

Lemma triage_or_fresh_run id s s' tri :
  triage_or_fresh id s = (s', inr tri) →
  s' = s ∧ (tri = fresh_attrs id ∨ ∃ c, rows s !! id ≫= Card = Some c ∧ Detail tri = Detail c).
Proof.
  unfold triage_or_fresh. intros Hr. apply bind_ok in Hr as (r & s1 & Ht%try_ok & Hr).
  unfold GetTaskTriage in Ht. rewrite bind_gets in Ht. destruct (rows s !! id ≫= Card) as [c|].
  - injection Ht as <- <-. apply ret_ok in Hr as [-> ->]. eauto.
  - injection Ht as <- <-. apply ret_ok in Hr as [-> ->]. eauto.
Qed.

Lemma applyChildAddedSideEffect_keeps id p : CaID p ≠ "" → keeps (applyChildAddedSideEffect id p).
Proof.
  intros Hid s Hs. split; [|done]. unfold applyChildAddedSideEffect.
  destruct (triage_or_fresh id s) as [s1 [e|tri]] eqn:Ht.
  { rewrite (bind_stop _ _ _ _ _ Ht). pose proof (triage_or_fresh_delivers id s Hs) as [Hk _]. by rewrite Ht in Hk. }
  rewrite (bind_run _ _ _ _ _ Ht). pose proof (triage_or_fresh_run _ _ _ _ Ht) as [-> Hsrc].
  destruct (triage_or_fresh_delivers id s Hs) as [_ Hq]. rewrite Ht in Hq. destruct (Hq tri eq_refl) as (cs & Hh & Hok).
  destruct Hh as [Hp Hc]. unfold lift at 1. rewrite Hc. erewrite bind_run by done. cbv zeta.
  set (isResend := existsb _ cs).
  set (guard := if isResend then _ else _).
  destruct (guard s) as [s2 [e|[]]] eqn:Hg.
  { rewrite (bind_stop _ _ _ _ _ Hg). enough (keeps guard) as Hk by (destruct (Hk s Hs) as [Hk' _]; by rewrite Hg in Hk').
    unfold guard, conflict, cardSpecSlotOccupied. keeps_tac. }
  rewrite (bind_run _ _ _ _ _ Hg).
  assert (s2 = s ∧ (isResend = true ∨ to_dispatch cs = [])) as [-> Hfree].
  { unfold guard in Hg. destruct isResend; [by apply ret_ok in Hg as [-> _]; auto|].
    apply bind_ok in Hg as ([] & s3 & Ho & Hg); [done|]. apply ret_ok in Hg as [-> _].
    pose proof (cardSpecSlotOccupied_reads id s) as Heq. rewrite Ho in Heq. simpl in Heq. subst s3.
    split; [done|]. right. destruct Hsrc as [->|(c & Hcard & Hd)].
    - simpl in Hc. injection Hc as <-. done.
    - eapply free_slot; [by split|done|]. rewrite Hd. by eapply cardSpecSlotOccupied_free. }
  destruct (AddDetailChild _ _) as [d'|e|] eqn:Ha; [|done..]. simpl. erewrite bind_run by done.
  change (detail_op (OpAdd {| ChID := CaID p; ChTitle := CaTitle p; ChStatus := ""; ChSpec := None; TaskRef := "" |})
            (Detail tri) = Ok d') in Ha.
  destruct (detail_op_holds _ _ _ cs Ha) as (cs' & Habs & Hh'); [by split|].
  refine (proj1 (UpsertTaskTriage_detail tri d' cs' Hh' _ s Hs)).
  eapply (abstract_slot_ok _ cs); [|exact Habs|done]. simpl. destruct Hfree as [?|?]; auto.
Qed.

(** ** The other side effects *)
Ltac with_card := eapply delivers_bind; [first [apply triage_or_fresh_delivers | apply delivers_try, GetTaskTriage_delivers]|].

Lemma applyParkSideEffect_keeps `{WorkflowEnv} id p : keeps (applyParkSideEffect id p).
Proof.
  unfold applyParkSideEffect, bad_request. with_card. intros tri Hok. apply keeps_bind; [keeps_tac|].
  intros w. apply UpsertTaskTriage_keeps. by destruct Hok as (cs & ? & ?); exists cs.
Qed.

Lemma applyChildDroppedSideEffect_keeps id p : keeps (applyChildDroppedSideEffect id p).
Proof.
  unfold applyChildDroppedSideEffect, conflict. with_card. intros tri Hok.
  destruct (DropDetailChild _ _) as [[d' changed]| |] eqn:Hd; [|keeps_tac..]. destruct changed; [|keeps_tac].
  apply (detail_op_card (OpDrop (CdID p))); [done| |done]. simpl. by rewrite Hd.
Qed.

Lemma applyChildSpeccedSideEffect_keeps id p : keeps (applyChildSpeccedSideEffect id p).
Proof.
  unfold applyChildSpeccedSideEffect, conflict. with_card. intros tri Hok.
  destruct (SpecDetailChild _ _ _ _) as [d'| |] eqn:Hd; [|keeps_tac..].
  by eapply (detail_op_card (OpSpec _ _ _)).
Qed.

Lemma applyAttrsSetSideEffect_keeps id p : keeps (applyAttrsSetSideEffect id p).
Proof.
  unfold applyAttrsSetSideEffect. with_card. intros tri (cs & Hh & Hok). cbv zeta.
  apply (delivers_bind _ (λ d, holds_children d cs)).
  { case_bool_decide; [by apply delivers_ret|]. eapply delivers_weaken; [apply lift_delivers|].
    intros d Hd. exact (FoldDetailAttrs_holds _ _ _ _ Hd Hh). }
  intros d Hd. eapply delivers_bind; [apply lift_delivers|]. intros d' Hd'. simpl in Hd'.
  apply keeps_bind; [|keeps_tac]. apply UpsertTaskTriage_keeps. exists cs. split; [|done].
  exact (StripDetailAttrs_holds _ _ _ _ Hd' Hd).
Qed.

Lemma strip_keeps tri keys :
  card_ok tri → keeps (stripped ← lift (StripDetailAttrs (Detail tri) keys); UpsertTaskTriage (clear_Verb (set_Detail tri stripped))).
Proof.
  intros (cs & Hh & Hok). eapply delivers_bind; [apply lift_delivers|]. intros d Hd.
  apply UpsertTaskTriage_keeps. exists cs. split; [|done]. exact (StripDetailAttrs_holds _ _ _ _ Hd Hh).
Qed.

Lemma applyAnsweredSideEffect_keeps id : keeps (applyAnsweredSideEffect id).
Proof. unfold applyAnsweredSideEffect. with_card. intros [e|tri] Hok; [destruct e; keeps_tac|]. by apply strip_keeps. Qed.

Lemma recordAndStripSuggestionIfPresent_keeps `{WorkflowEnv} w id a : keeps (recordAndStripSuggestionIfPresent w id a).
Proof.
  unfold recordAndStripSuggestionIfPresent. with_card. intros [e|tri] Hok; [destruct e; keeps_tac|].
  destruct (DetailSuggestion _) as [sg|]; [|keeps_tac]. destruct (str_empty _); [keeps_tac|].
  apply keeps_bind; [keeps_tac|]. intros _. by apply strip_keeps.
Qed.

Lemma close_child_tx_keeps `{WorkflowEnv} p c payload : keeps (close_child_tx p c payload).
Proof.
  unfold close_child_tx. with_card. intros [e|tri] Hok; [destruct e; keeps_tac|].
  eapply delivers_bind; [apply lift_delivers|]. intros [d' changed] Hd. destruct changed; cbn [negb fst snd]; [|keeps_tac].
  apply keeps_bind; [|keeps_tac]. apply (detail_op_card (OpClose c)); [done| |done]. simpl. by rewrite Hd.
Qed.

#[export] Hint Resolve applyParkSideEffect_keeps applyChildDroppedSideEffect_keeps applyChildSpeccedSideEffect_keeps
  applyAttrsSetSideEffect_keeps applyAnsweredSideEffect_keeps recordAndStripSuggestionIfPresent_keeps close_child_tx_keeps
  applyChildAddedSideEffect_keeps : keeps.

(** ** Handing out the specced child *)
Lemma specced_child_lookup cs i c :
  specced_child cs = Some (i, c) →
  cs !! i = Some c ∧ ChStatus c = TaskTriageChildStatusSpecced ∧
  ∀ j c', cs !! j = Some c' → ChStatus c' = TaskTriageChildStatusSpecced → (j ≤ i)%nat.
Proof.
  unfold specced_child. intros Hl.
  assert (∀ k, ∀ ics : list (nat * TaskTriageChild), ics = imap (λ i c, ((k + i)%nat, c)) cs →
    last (filter (λ ic, ChStatus ic.2 = TaskTriageChildStatusSpecced) ics) = Some (i, c) →
    ∃ i0, i = (k + i0)%nat ∧ cs !! i0 = Some c ∧ ChStatus c = TaskTriageChildStatusSpecced ∧
      ∀ j c', cs !! j = Some c' → ChStatus c' = TaskTriageChildStatusSpecced → (j ≤ i0)%nat) as Hgen.
  2: { destruct (Hgen 0%nat _ eq_refl Hl) as (i0 & -> & ? & ? & ?). eauto. }
  clear Hl. induction cs as [|x cs IH] using rev_ind; intros k ics ->; [done|].
  rewrite imap_app. simpl. rewrite filter_app, last_app. rewrite filter_cons, filter_nil. simpl.
  destruct (decide (ChStatus x = TaskTriageChildStatusSpecced)) as [Hx|Hx]; simpl.
  - intros [= <- <-]. exists (length cs). split_and!; [lia|by rewrite lookup_app_r, Nat.sub_diag by lia|done|].
    intros j c' Hj _. apply lookup_lt_Some in Hj. rewrite length_app in Hj. simpl in Hj. lia.
  - intros Hl. destruct (IH k _ eq_refl Hl) as (i0 & -> & Hi & Hs & Hmax). exists i0. split_and!; [done| |done|].
    + by apply lookup_app_l_Some.
    + intros j c' Hj Hc'. apply lookup_app_Some in Hj as [Hj|[Hle Hj]]; [by eapply Hmax|].
      apply list_lookup_singleton_Some in Hj as [? <-]. done.
Qed.

Lemma dispatch_slot_ok cs i c id :
  slot_ok cs → specced_child cs = Some (i, c) → slot_ok (<[i := dispatch_child c id]> cs).
Proof.
  intros [Hf Hl] (Hi & _ & _)%specced_child_lookup. pose proof (Forall_lookup_1 _ _ _ _ Hf Hi) as [_ Hid]. split.
  - apply Forall_insert; [done|]. split; [by vm_compute|done].
  - etransitivity; [|exact Hl]. rewrite <- (take_drop_middle cs i c) at 2 by done.
    rewrite insert_take_drop by (by eapply lookup_lt_Some). rewrite !to_dispatch_app, !length_app. apply Nat.add_le_mono_l.
    unfold to_dispatch. rewrite !filter_cons. rewrite (decide_False (P := undispatched (dispatch_child c id) = true)) by (by vm_compute).
    case_decide; simpl; lia.
Qed.

Section handlers.
Context `{WorkflowEnv} `{!EnvRel keeps_slots}.

Lemma keeps_rel {A} (m : taskm A) : steps keeps_slots m → keeps m.
Proof. by apply delivers_steps. Qed.
Lemma yield__keeps n : keeps (yield_ n).
Proof. apply keeps_rel. intros s. apply env_others. Qed.
Lemma try_dispatch_keeps c : keeps (modify (tryDispatchQueuedCardRequest c) : taskm unit).
Proof. apply keeps_rel. intros s. apply env_dispatch. Qed.
Lemma create_keeps req : keeps (TaskCreator_CreateTask req).
Proof. apply keeps_rel, env_create. Qed.
Lemma best_effort_keeps {A} (m : taskm A) : keeps m → keeps (best_effort m).
Proof. intros Hm. unfold best_effort. keeps_tac. Qed.
Hint Resolve yield__keeps try_dispatch_keeps create_keeps best_effort_keeps : keeps.

Lemma recordDispatchError_keeps ctx id st e o : keeps (recordDispatchError ctx id st e o).
Proof. unfold recordDispatchError, record_dispatch_error. keeps_tac. Qed.
Lemma reserveGoCardRequest_keeps id : keeps (reserveGoCardRequest id).
Proof. unfold reserveGoCardRequest. keeps_tac. Qed.
Lemma recordChildClosedOnParent_keeps t : keeps (recordChildClosedOnParent t).
Proof. unfold recordChildClosedOnParent, close_child. keeps_tac. Qed.
Lemma releaseCardRequestForTerminalTask_keeps t : keeps (releaseCardRequestForTerminalTask t).
Proof. unfold releaseCardRequestForTerminalTask. keeps_tac. Qed.
Hint Resolve recordDispatchError_keeps reserveGoCardRequest_keeps recordChildClosedOnParent_keeps
  releaseCardRequestForTerminalTask_keeps : keeps.
Lemma finalizeTerminal_keeps t : keeps (finalizeTerminal t).
Proof. unfold finalizeTerminal. keeps_tac. Qed.

Lemma go_create_child_keeps ctx id st c : keeps (go_create_child ctx id st c).
Proof. unfold go_create_child, conflict. cbv zeta. keeps_tac. Qed.
Hint Resolve go_create_child_keeps : keeps.

Lemma go_commit_keeps ctx id st via cs c :
  slot_ok cs → cs ≠ [] → keeps (go_commit ctx id st via cs c).
Proof.
  intros Hok Hne. unfold go_commit. apply keeps_bind; [keeps_tac|]. intros fresh.
  case_match; [keeps_tac|]. eapply delivers_bind; [apply GetTaskTriage_delivers|]. intros tri (cs0 & [Hp _] & _).
  apply keeps_bind; [keeps_tac|]. intros freshChildren. case_match; [|keeps_tac]. case_match; [keeps_tac|].
  case_match; [|keeps_tac..]. cbv zeta. do 3 (apply keeps_bind; [keeps_tac|intros _]).
  eapply delivers_bind; [apply lift_delivers|]. intros d Hd. simpl in Hd. apply keeps_bind; [|keeps_tac].
  destruct (SetDetailChildren_stores (Detail tri) cs Hp Hne) as (d1 & Hd1 & Hp1 & Hc1 & _). rewrite Hd in Hd1. injection Hd1 as <-.
  by apply (UpsertTaskTriage_detail tri d cs).
Qed.

Lemma acceptGo_keeps ctx id via : keeps (acceptGo ctx id via).
Proof.
  unfold acceptGo, conflict. apply keeps_bind; [keeps_tac|]. intros task. case_match; [keeps_tac|].
  apply keeps_bind; [keeps_tac|intros _]. with_card. intros r Hr.
  apply (delivers_bind _ slot_ok).
  { destruct r as [e|tri]; [destruct e; try apply delivers_throw|].
    - apply delivers_ret. split; [constructor|simpl; lia].
    - destruct Hr as (cs & [_ Hc] & Hok). rewrite Hc. by apply delivers_ret. }
  intros cs Hok. case_match; [keeps_tac|]. cbv zeta. do 2 (apply keeps_bind; [keeps_tac|intros ?]).
  destruct (specced_child cs) as [[i c]|] eqn:Hsp; [|keeps_tac]. case_match; [keeps_tac|].
  do 3 (apply keeps_bind; [keeps_tac|intros ?]). apply keeps_bind.
  { apply keeps_try, delivers_InTxDB, keeps_bind; [|keeps_tac]. apply go_commit_keeps; [by apply dispatch_slot_ok|].
    apply specced_child_lookup in Hsp as [Hi _]. by eapply insert_nonempty. }
  keeps_tac.
Qed.
Hint Resolve acceptGo_keeps : keeps.

Lemma answered_tx_keeps ctx id payload parsed : keeps (answered_tx ctx id payload parsed).
Proof. unfold answered_tx, conflict, applyParkSideEffectFromSuggestion. keeps_tac. Qed.
Hint Resolve answered_tx_keeps : keeps.
Lemma applyAnswered_keeps ctx id payload : keeps (applyAnswered ctx id payload).
Proof.
  unfold applyAnswered, parseAnsweredPayload, unmarshal_strings, bad_request. keeps_tac.
Qed.
End handlers.

#[export] Hint Resolve yield__keeps try_dispatch_keeps create_keeps best_effort_keeps recordDispatchError_keeps
  finalizeTerminal_keeps acceptGo_keeps applyAnswered_keeps : keeps.

(** ** The entry points *)
Section service.
Context `{ServiceEnv} `{!EnvRel keeps_slots}.

Definition parsed_ok (p : parsed_payload) : Prop := match p with PChildAdded q => CaID q ≠ "" | _ => True end.

Lemma parseChildAddedPayload_delivers payload : delivers slots_ok (λ p, CaID p ≠ "") (parseChildAddedPayload payload).
Proof.
  unfold parseChildAddedPayload, bad_request. apply (delivers_bind _ (λ _, True)).
  { unfold unmarshal_strings, bad_request. keeps_tac. }
  intros vs _. repeat (case_match; try apply delivers_throw). apply delivers_ret. simpl.
  intros ->. by vm_compute in H2.
Qed.

Lemma attrs_set_entries_cards patch kvs : steps cards_same (attrs_set_entries patch kvs).
Proof.
  revert patch. induction kvs as [|kv kvs IH]; intros patch; simpl; [steps_tac|].
  apply steps_bind; [apply _| |done].
  unfold attrs_set_entry, parsePromotedAttr, validateSuggestionAttr, bad_request. steps_tac.
Qed.

Lemma parse_payload_delivers type payload : delivers slots_ok parsed_ok (parse_payload type payload).
Proof.
  unfold parse_payload.
  assert (∀ {A} (m : taskm A) (f : A → parsed_payload), steps cards_same m → (∀ a, parsed_ok (f a)) →
    delivers slots_ok parsed_ok (p ← m; mret (f p))) as Hplain.
  { intros A m f Hm Hf. apply (delivers_bind _ (λ _, True)); [by apply keeps_cards|]. intros a _. by apply delivers_ret. }
  repeat (case_bool_decide; [first
    [ apply Hplain; [|done]; unfold parseParkPayload, parseAttrsSetPayload, parseAttrsSetObject, parseChildSpeccedPayload,
        parseChildDroppedPayload, parseNotedPayload, unmarshal_strings, bad_request
    | eapply delivers_bind; [apply parseChildAddedPayload_delivers|]; intros p Hp; by apply delivers_ret ]|]).
  all: try by apply delivers_ret.
  all: steps_tac.
  apply attrs_set_entries_cards.
Qed.

Lemma prepare_action_delivers ctx t sm type payload only :
  delivers slots_ok (λ p, parsed_ok (PrParsed p)) (prepare_action ctx t sm type payload only).
Proof.
  unfold prepare_action. apply (delivers_bind _ (λ _, True)); [keeps_tac|intros ? _].
  apply (delivers_bind _ (λ _, True)).
  { apply keeps_cards. unfold resolveAttrsSetDoneTransition, conflict, GetTaskTriage. steps_tac. }
  intros ? _. cbv zeta. apply (delivers_bind _ (λ _, True)); [unfold lift_payload; keeps_tac|intros ? _].
  eapply delivers_bind; [apply parse_payload_delivers|]. intros p Hp. by apply delivers_ret.
Qed.

Lemma side_effect_keeps id type p : parsed_ok p → keeps (side_effect id type p).
Proof. intros Hp. unfold side_effect. destruct p; simpl in Hp; keeps_tac. Qed.

Lemma commit_action_keeps ctx id sm p : parsed_ok (PrParsed p) → keeps (commit_action ctx id sm p).
Proof.
  intros Hp. unfold commit_action. apply keeps_bind.
  { unfold check_reopen_slot, cardSpecOrExecutionSlotOccupied, conflict. keeps_tac. }
  intros _. apply keeps_bind.
  { case_match; [|keeps_tac]. apply keeps_bind; [keeps_tac|intros fresh]. apply keeps_bind; [|keeps_tac].
    apply keeps_cards. unfold resolveAttrsSetDoneTransition, conflict, GetTaskTriage. steps_tac. }
  intros ta. do 2 (apply keeps_bind; [keeps_tac|intros _]). apply keeps_bind; [by apply side_effect_keeps|keeps_tac].
Qed.

Lemma applyAction_keeps ctx id type payload only : keeps (applyAction ctx id type payload only).
Proof.
  unfold applyAction. apply keeps_bind; [keeps_tac|intros _]. apply keeps_bind; [keeps_tac|intros task]. cbv zeta.
  generalize (if bool_decide (MName (machineFor task) = CardMachineName) then NormalizeCardVerb type else type). intros type'.
  do 2 (apply keeps_bind; [apply keeps_fail_if|intros _]). apply keeps_bind; [apply yield__keeps|intros _].
  case_match; [apply acceptGo_keeps|]. case_match; [apply applyAnswered_keeps|].
  eapply delivers_bind; [apply prepare_action_delivers|]. intros p Hp. apply keeps_bind; [keeps_tac|intros _].
  apply keeps_bind; [by apply delivers_map_err, delivers_InTxDB, commit_action_keeps|]. keeps_tac.
Qed.

Lemma abortOnDispatchError_keeps ctx t e : keeps (abortOnDispatchError ctx t e).
Proof. unfold abortOnDispatchError, abort_tx, record_dispatch_error. keeps_tac. Qed.
Lemma persistFiredEvents_keeps ctx id st es : keeps (persistFiredEvents ctx id st es).
Proof. unfold persistFiredEvents. keeps_tac. Qed.
Lemma persist_payload_keeps id delta : keeps (persist_payload id delta).
Proof. unfold persist_payload, lift_payload. keeps_tac. Qed.
Lemma settle_cycle_keeps ctx r t : keeps (settle_cycle ctx r t).
Proof. unfold settle_cycle, advance_tx. keeps_tac. Qed.
Hint Resolve abortOnDispatchError_keeps persistFiredEvents_keeps persist_payload_keeps settle_cycle_keeps : keeps.

Lemma dispatch_cycle_keeps ctx t meta sm : keeps (dispatch_cycle ctx t meta sm).
Proof. unfold dispatch_cycle. keeps_tac. Qed.

Lemma dispatch_loop_keeps n ctx t meta sm : keeps (dispatch_loop n ctx t meta sm).
Proof.
  revert t. induction n; intros t; simpl; [keeps_tac|]. apply keeps_bind; [apply dispatch_cycle_keeps|].
  intros [|t']; [keeps_tac|auto].
Qed.
End service.

(** C2.  A card has a single work slot.  Whatever actions arrive (child_added,
    child_specced, child_dropped, attrs_set, go, the acceptance of a
    suggestion, any other), however they end, and however the dispatch loop of
    a child goes, with other requests running in between: if the children of
    every card are in known states with at most one still to be dispatched,
    they are so afterwards. *)
Theorem single_work_slot `{ServiceEnv} `{!EnvRel keeps_slots} ctx id type payload only task meta sm s :
  slots_ok s →
  slots_ok (applyAction ctx id type payload only s).1 ∧ slots_ok (runDispatchLoop ctx task meta sm s).1.
Proof. intros Hs. split; [by apply applyAction_keeps|by apply dispatch_loop_keeps]. Qed.

(** ** A child is handed out once *)
Definition card_holds (id : string) (s : WDB) (cs : list TaskTriageChild) : Prop :=
  ∃ t c, rows s !! id = Some t ∧ Type_ t = TaskTypeCard ∧ ID t = id ∧ Card t = Some c ∧ holds_children (Detail c) cs.

Definition not_specced (cid : string) (cs : list TaskTriageChild) : Prop :=
  ∀ c, last (filter (λ c, ChID c = cid) cs) = Some c → ChStatus c ≠ TaskTriageChildStatusSpecced.

(** Once the card's blob does not hold the child as specced, no commit of a
    "go" for it goes through. *)
Lemma go_commit_refused `{WorkflowEnv} ctx id st via cs' c s cs :
  card_holds id s cs → not_specced (ChID c) cs → go_commit ctx id st via cs' c s = (s, inr (inl true)).
Proof.
  intros (t & ca & Ht & Hty & Hid & Hc & Hp & Hcs) Hn. unfold go_commit.
  assert (find_task id s = Some t) as Hf by (unfold find_task; by rewrite Ht).
  erewrite bind_run.
  2: { apply map_err_ok. unfold GetTask. rewrite bind_gets, Hf. done. }
  destruct (negb _); [done|]. erewrite bind_run.
  2: { unfold GetTaskTriage. rewrite bind_gets, Ht. simpl. rewrite Hc. done. }
  cbn [Detail]. unfold lift at 1. rewrite Hcs. erewrite bind_run by done.
  destruct (last _) as [fc|] eqn:Hl; [|done]. rewrite bool_decide_eq_false_2 by (by apply Hn). done.
Qed.

Lemma written_not_specced cs i c id :
  specced_child cs = Some (i, c) → not_specced (ChID c) (<[i := dispatch_child c id]> cs).
Proof.
  intros (Hi & _ & Hmax)%specced_child_lookup x Hl Hs.
  rewrite insert_take_drop in Hl by (by eapply lookup_lt_Some).
  rewrite filter_app, filter_cons_True, last_app in Hl by done.
  destruct (last (dispatch_child c id :: _)) as [y|] eqn:Hy; [|by apply last_None in Hy]. injection Hl as ->.
  apply last_Some_elem_of, elem_of_cons in Hy as [->|Hy]; [done|]. apply list_elem_of_filter in Hy as [_ Hy].
  apply list_elem_of_lookup in Hy as [j Hj]. rewrite lookup_drop in Hj. specialize (Hmax _ _ Hj Hs). lia.
Qed.

(** What the operations of the commit leave of the card. *)
Lemma UpdateTask_holds t id s s' cs :
  typed s → UpdateTask t s = (s', inr ()) → card_holds id s cs → card_holds id s' cs.
Proof.
  intros Hs Hu (u & c & Hid & Hty & Hi & Hc & Hh).
  destruct (UpdateTask_cases t s) as [[e E]|(old & w & row & Hold & _ & -> & _ & _ & _ & E)]; rewrite E in Hu; [done|].
  injection Hu as <-. destruct (Hs _ _ Hold) as [Hidold _]. destruct (decide (ID old = id)) as [<-|Hne].
  - rewrite Hidold, Hold in Hid. simplify_eq. eexists _, c. simpl. by rewrite lookup_insert_eq.
  - exists u, c. simpl. by rewrite lookup_insert_ne.
Qed.

Lemma CreateAction__holds `{WorkflowEnv} w a id s s' cs :
  CreateAction_ w a s = (s', inr ()) → card_holds id s cs → card_holds id s' cs.
Proof.
  intros Hr (t & c & Ht & Hrest). exists t, c. split; [|done]. rewrite <- Ht. f_equal.
  change (s') with (s', inr () : werr + unit).1. rewrite <- Hr. apply on_ledger_rows.
Qed.

Lemma UpsertTaskTriage_holds c s s' cs0 cs :
  UpsertTaskTriage c s = (s', inr ()) → card_holds (CTaskID c) s cs0 → holds_children (Detail c) cs → card_holds (CTaskID c) s' cs.
Proof.
  unfold UpsertTaskTriage. rewrite bind_fail_if. destruct (str_empty _); [done|]. rewrite bind_gets.
  intros Hu (t & c0 & Ht & Hty & Hi & _) Hh. rewrite Ht in Hu. rewrite bool_decide_eq_true_2 in Hu by done.
  injection Hu as <-. exists (with_card t (detail_or_empty c)), (detail_or_empty c). simpl.
  rewrite lookup_insert_eq. split_and!; try done. by apply holds_or_empty.
Qed.

Lemma GetTaskTriage_holds id s cs :
  card_holds id s cs → ∃ tri, GetTaskTriage id s = (s, inr tri) ∧ CTaskID tri = id ∧ holds_children (Detail tri) cs.
Proof.
  intros (t & c & Ht & _ & _ & Hc & Hh). unfold GetTaskTriage. rewrite bind_gets, Ht. simpl. rewrite Hc. eauto.
Qed.

Lemma strip_holds id tri keys s s' cs :
  (stripped ← lift (StripDetailAttrs (Detail tri) keys); UpsertTaskTriage (clear_Verb (set_Detail tri stripped))) s = (s', inr ()) →
  CTaskID tri = id → holds_children (Detail tri) cs → card_holds id s cs → card_holds id s' cs.
Proof.
  intros Hr <- Hh Hs. apply bind_ok in Hr as (d & s1 & Hl & Hr). unfold lift in Hl.
  destruct (StripDetailAttrs _ _) as [d'| |] eqn:Hd; try done. apply ret_ok in Hl as [-> ->].
  eapply (UpsertTaskTriage_holds (clear_Verb (set_Detail tri d'))); [exact Hr|exact Hs|].
  exact (StripDetailAttrs_holds _ _ _ _ Hd Hh).
Qed.

Lemma discard_holds `{WorkflowEnv} (via : bool) w id a s s' cs :
  (if via then applyAnsweredSideEffect id else recordAndStripSuggestionIfPresent w id a) s = (s', inr ()) →
  card_holds id s cs → card_holds id s' cs.
Proof.
  intros Hr Hs. destruct (GetTaskTriage_holds id s cs Hs) as (tri & Hg & Hid & Hh).
  assert (try_ (GetTaskTriage id) s = (s, inr (inr tri))) as Ht by (unfold try_; by rewrite Hg).
  destruct via; [unfold applyAnsweredSideEffect in Hr|unfold recordAndStripSuggestionIfPresent in Hr];
    rewrite (bind_run _ _ _ _ _ Ht) in Hr; [by eapply strip_holds|].
  destruct (DetailSuggestion _) as [sg|]; [|by apply ret_ok in Hr as [-> _]].
  destruct (str_empty _); [by apply ret_ok in Hr as [-> _]|]. apply bind_ok in Hr as ([] & s1 & Hc & Hr).
  eapply strip_holds; [exact Hr|done|done|]. by eapply CreateAction__holds.
Qed.

(** C14.  One "go" hands out a child: when the commit of a "go" has gone through,
    any other commit of a "go" for the same child, by whichever request, with
    whichever task it created and from whichever snapshot it started, is told
    that a concurrent request won and changes nothing. *)
Theorem go_hands_out_once `{WorkflowEnv} ctx id st via children i c tid s s' r cs0 :
  typed s → card_holds id s cs0 → specced_child children = Some (i, c) →
  go_commit ctx id st via (<[i := dispatch_child c tid]> children) (dispatch_child c tid) s = (s', inr (inr r)) →
  card_holds id s' (<[i := dispatch_child c tid]> children) ∧
  ∀ ctx' st' via' children' c', ChID c' = ChID c →
    go_commit ctx' id st' via' children' c' s' = (s', inr (inl true)).
Proof.
  intros Hty Hs Hsp Hrun. assert (card_holds id s' (<[i := dispatch_child c tid]> children)) as Hs'.
  2: { split; [done|]. intros ctx' st' via' children' c' Hc'. eapply go_commit_refused; [done|]. rewrite Hc'.
       by apply written_not_specced. }
  unfold go_commit in Hrun. apply bind_ok in Hrun as (fresh & s1 & Hf & Hrun).
  apply map_err_ok, GetTask_run in Hf as [-> _]. destruct (negb _); [by apply ret_ok in Hrun as [_ ?]|].
  destruct (GetTaskTriage_holds id s cs0 Hs) as (tri & Hg & Hid & Hp & Hc). rewrite (bind_run _ _ _ _ _ Hg) in Hrun.
  apply bind_ok in Hrun as (fcs & s1 & Hl & Hrun). unfold lift in Hl. rewrite Hc in Hl. apply ret_ok in Hl as [-> ->].
  destruct (last _) as [fc|]; [|by apply ret_ok in Hrun as [_ ?]].
  destruct (negb _); [by apply ret_ok in Hrun as [_ ?]|]. destruct (Apply _ _ _) as [applied| |]; try (by apply ret_ok in Hrun as [_ ?]).
  apply bind_ok in Hrun as ([] & s2 & Hu & Hrun). apply bind_ok in Hrun as ([] & s3 & Ha1 & Hrun).
  apply bind_ok in Hrun as ([] & s4 & Ha2 & Hrun). apply bind_ok in Hrun as (d & s5 & Hd & Hrun).
  apply bind_ok in Hrun as ([] & s6 & Hup & Hrun). apply bind_ok in Hrun as ([] & s7 & Hdi & [-> _]%ret_ok).
  eapply discard_holds; [exact Hdi|]. rewrite <- Hid.
  assert (<[i := dispatch_child c tid]> children ≠ []) as Hne.
  { apply specced_child_lookup in Hsp as [Hi _]. by eapply insert_nonempty. }
  destruct (SetDetailChildren_stores (Detail tri) _ Hp Hne) as (d1 & Hd1 & Hp1 & Hc1 & _).
  unfold lift in Hd. rewrite Hd1 in Hd. apply ret_ok in Hd as [-> ->].
  eapply (UpsertTaskTriage_holds (set_Detail tri d1)); [exact Hup| |by split]. change (CTaskID (set_Detail tri d1)) with (CTaskID tri).
  rewrite Hid. eapply CreateAction__holds; [exact Ha2|]. eapply CreateAction__holds; [exact Ha1|]. by eapply UpdateTask_holds.
Qed.

(** ** The theorems at concrete cards *)
Definition specced_detail : raw := RText true (JObj [("children", JArr [marshal_child sample_child])]).
Definition specced_db : WDB := sample_wdb [card_task TaskStatusParked specced_detail].

Lemma specced_holds : holds_children specced_detail [sample_child].
Proof.
  split; [|vm_compute; reflexivity]. split; [apply (bool_decide_unpack _); vm_compute; exact I|].
  intros k [->|[]%elem_of_nil]%elem_of_cons _. reflexivity.
Qed.

Lemma specced_slots_ok : slots_ok specced_db.
Proof.
  intros id t c Ht Hc. apply elem_of_list_to_map_2, list_elem_of_fmap in Ht as (u & [= -> ->] & Hin).
  apply list_elem_of_singleton in Hin as ->. injection Hc as <-. exists [sample_child]. split; [apply specced_holds|].
  split; [|vm_compute; lia]. constructor; [|constructor]. split; [vm_compute; reflexivity|discriminate].
Qed.

#[local] Existing Instances sample_env sample_service.
Lemma single_work_slot_witness :
  slots_ok (applyAction human_ctx "card-0123" "go" REmpty false specced_db).1 ∧
  slots_ok (runDispatchLoop human_ctx executing_task sample_meta NewExecutionMachine specced_db).1.
Proof.
  apply (single_work_slot (H := sample_service) (EnvRel0 := sample_env_rel keeps_slots _)), specced_slots_ok.
Defined.

Definition go_run (s : WDB) : WDB * (werr + (bool + Task * Action)) :=
  go_commit human_ctx "card-0123" TaskStatusParked false [dispatch_child sample_child "89abcdef-child"]
    (dispatch_child sample_child "89abcdef-child") s.

Lemma go_hands_out_once_witness : go_run (go_run specced_db).1 = ((go_run specced_db).1, inr (inl true)).
Proof.
  assert (∃ r, go_run specced_db = ((go_run specced_db).1, inr (inr r))) as [r Hr] by (eexists; vm_compute; reflexivity).
  destruct (go_hands_out_once human_ctx "card-0123" TaskStatusParked false [sample_child] 0 sample_child "89abcdef-child"
    specced_db (go_run specced_db).1 r [sample_child]) as [_ Honce].
  - apply sample_typed. reflexivity.
  - eexists _, _. split; [vm_compute; reflexivity|]. split; [reflexivity|]. split; [reflexivity|]. split; [reflexivity|].
    apply specced_holds.
  - reflexivity.
  - exact Hr.
  - apply Honce. reflexivity.
Defined.
