(* ===== verification/Sweeps.v ===== *)
(** * Queue sweeps

    Models internal/orchestrator/queue.go and internal/api/queue_sweep.go: the
    periodic pass that records that a parked card is due, and the one that
    closes dispatched children whose tasks have ended.

    A sweep lists its cards once and then handles them one by one, each with
    reads and a transaction of its own; other requests may run at every
    [yield_].  [to_lower] is strings.ToLower, an argument of the listing; the
    tickers that call the sweeps are left out. *)
From S2P Require Import Prelude Json Task Store CardDetail CardRequests CardDispatch TaskStore TaskRows CardWorkflow.

(** [None] is a nil pointer. *)
Definition ShouldWake (now : Z) (tri : option CardAttrs) (wakeTaskFound : bool) (wakeTaskStatus : TaskStatus) : bool :=
  match tri with
  | None => false
  | Some tri =>
      match WakeAt tri with Some w => (w <=? now)%Z | None => false end
      || (negb (str_empty (WakeTaskID tri)) && (negb wakeTaskFound || IsTerminalStatus wakeTaskStatus))
  end.

Definition by_status (st : TaskStatus) : TaskFilter :=
  {| FStatus := st; FProjectID := ""; FBehavior := ""; FWorkspaceID := ""; FTitle := ""; FParentID := None;
     ActiveOnly := false; Limit := 0; Offset := 0 |}.

Section sweeps.
Context `{WorkflowEnv} (to_lower : string → string).

Definition wake_due_tx (ctx : Ctx) (taskID : string) : taskm unit :=
  tri ← GetTaskTriage taskID;
  _ ← UpsertTaskTriage (set_Wake tri None "");
  fresh ← GetTask taskID;
  CreateAction_ (CtxWriter ctx) (new_action taskID "wake_due" REmpty (Status fresh) (Status fresh) (CtxActor ctx)).

Definition recordWakeDue (ctx : Ctx) (taskID : string) : taskm unit :=
  _ ← InTxDB (wake_due_tx ctx taskID);
  modify (tryDispatchQueuedCardRequest taskID).

(** One card of the sweep: whether wake_due was recorded for it. *)
Definition wake_one (ctx : Ctx) (now : Z) (t : Task) : taskm bool :=
  _ ← yield_ 30;
  r ← try_ (GetTaskTriage (ID t));
  match r with
  | inl _ => mret false
  | inr tri =>
      _ ← yield_ 31;
      w ← (if str_empty (WakeTaskID tri) then mret (Some (false, ""))
           else r ← try_ (GetTask (WakeTaskID tri));
                match r with
                | inr wt => mret (Some (true, Status wt))
                | inl WTaskNotFound => mret (Some (false, ""))
                | inl _ => mret None
                end);
      match w with
      | None => mret false
      | Some (found, st) =>
          if negb (ShouldWake now (Some tri) found st) then mret false
          else
            _ ← yield_ 32;
            r ← try_ (recordWakeDue ctx (ID t));
            mret (match r with inr _ => true | inl _ => false end)
      end
  end.

Fixpoint sweep_each (f : Task → taskm bool) (ts : list Task) : taskm (list string) :=
  match ts with
  | [] => mret []
  | t :: ts => w ← f t; rest ← sweep_each f ts; mret (if (w : bool) then ID t :: rest else rest)
  end.

Definition SweepWake (ctx : Ctx) (now : Z) : taskm (list string) :=
  let ctx := {| CtxActor := ActorDaemon; CtxWriter := CtxWriter ctx; CtxCanceled := CtxCanceled ctx |} in
  parked ← gets (ListTasks to_lower (by_status TaskStatusParked));
  sweep_each (wake_one ctx now) parked.

(** The in-memory copy of the child is not used afterwards. *)
Definition reconcile_child (taskID : string) (c : TaskTriageChild) : taskm unit :=
  if negb (bool_decide (ChStatus c = TaskTriageChildStatusDispatched)) || str_empty (TaskRef c) then mret ()
  else
    _ ← yield_ 33;
    r ← try_ (GetTask (TaskRef c));
    match r with
    | inl WTaskNotFound => recordVanishedChildClosedOnParent taskID (TaskRef c)
    | inl _ => mret ()
    | inr child =>
        if bool_decide (Status child ∈ [TaskStatusDone; TaskStatusAborted]) then recordChildClosedOnParent child else mret ()
    end.

Definition reconcileDispatchedChildren (taskID : string) (children : list TaskTriageChild) : taskm unit :=
  for_each (reconcile_child taskID) children.

Definition reconcile_card (t : Task) : taskm unit :=
  _ ← yield_ 34;
  r ← try_ (GetTaskTriage (ID t));
  match r with
  | inl _ => mret ()
  | inr tri => match DetailChildren (Detail tri) with
               | Ok children => reconcileDispatchedChildren (ID t) children
               | _ => mret ()
               end
  end.

Definition SweepReconcileChildren : taskm unit :=
  working ← gets (ListTasks to_lower (by_status TaskStatusWorking));
  for_each reconcile_card working.

Definition runOnce (ctx : Ctx) (now : Z) : taskm unit :=
  _ ← best_effort (SweepWake ctx now);
  best_effort SweepReconcileChildren.
End sweeps.

(** ** What stays while other cards are handled *)

(** The wake_due entries of a card. *)
Definition wake_log (id : string) (s : WDB) : list Action :=
  filter (λ a, AType a = "wake_due" ∧ ATaskID a = id) (actions (led s)).

(** The task a card waits for has ended, or is gone. *)
Definition over (w : string) (s : WDB) : Prop :=
  find_task w s = None ∨ ∃ t, rows s !! w = Some t ∧ IsTerminalStatus (Status t) = true.

Record wake_stable (id : string) (s s' : WDB) : Prop := {
  ws_row : rows s' !! id = rows s !! id;
  ws_over : ∀ w, over w s → over w s';
  ws_log : wake_log id s' = wake_log id s;
}.
#[export] Instance wake_stable_refl id : Reflexive (wake_stable id).
Proof. by intros s. Qed.
#[export] Instance wake_stable_trans id : Transitive (wake_stable id).
Proof. intros a b c [] []. split; [congruence|auto|congruence]. Qed.

(** Ids and statuses of all tasks as before. *)
Definition same_ids (s s' : WDB) : Prop := ∀ k, (λ t, (ID t, Status t)) <$> rows s' !! k = (λ t, (ID t, Status t)) <$> rows s !! k.

Lemma find_task_None w s :
  find_task w s = None ↔
  rows s !! w = None ∧ ((8 <= String.length w)%nat → ∀ k t, rows s !! k = Some t → like (w +:+ "%") (ID t) = false).
Proof.
  unfold find_task. destruct (rows s !! w) as [t|]; [by split; [|intros [? _]]|].
  destruct (Nat.leb_spec 8 (String.length w)) as [Hl|Hl]; [|split; [intros _; split; [done|lia]|done]].
  split.
  - intros Hh. split; [done|]. intros _ k t Ht. apply not_true_iff_false. intros Hlike.
    assert (t ∈ filter (λ t, like (w +:+ "%") (ID t) = true) (map_to_list (rows s)).*2) as Hin.
    { apply list_elem_of_filter. split; [done|]. apply list_elem_of_fmap. exists (k, t). split; [done|]. by apply elem_of_map_to_list. }
    destruct (filter _ _); [by apply elem_of_nil in Hin|done].
  - intros [_ Hno]. destruct (filter _ _) as [|t l] eqn:Hf; [done|].
    assert (t ∈ filter (λ t, like (w +:+ "%") (ID t) = true) (map_to_list (rows s)).*2) as [Hlike Hin]%list_elem_of_filter
      by (rewrite Hf; left).
    apply list_elem_of_fmap in Hin as ([k t'] & -> & Hin%elem_of_map_to_list). simpl in Hlike. by rewrite (Hno Hl k t' Hin) in Hlike.
Qed.

Lemma same_ids_over s s' w : same_ids s s' → over w s → over w s'.
Proof.
  intros Hi [[Hn Hno]%find_task_None|(t & Ht & Hterm)].
  - left. apply find_task_None. split.
    + specialize (Hi w). rewrite Hn in Hi. by destruct (rows s' !! w).
    + intros Hl k t Ht. specialize (Hi k). rewrite Ht in Hi. simpl in Hi.
      destruct (rows s !! k) as [u|] eqn:Hu; [|done]. injection Hi as -> _. by eapply Hno.
  - right. specialize (Hi w). rewrite Ht in Hi. destruct (rows s' !! w) as [u|]; [|done]. injection Hi as _ E.
    exists u. by rewrite E.
Qed.

(** ** What the steps of a sweep do to a card and to its log *)
Definition same_actions (l l' : DB) : Prop := actions l' = actions l.
#[local] Instance same_actions_refl : Reflexive same_actions.
Proof. done. Qed.
#[local] Instance same_actions_trans : Transitive same_actions.
Proof. intros ???. unfold same_actions. congruence. Qed.

Lemma ingest_actions uuid w a res : steps same_actions (IngestCardEventRequest uuid w a res).
Proof.
  assert (∀ st req, steps same_actions (CreateCardRequest uuid st req)) as Hc.
  { intros st req. unfold CreateCardRequest, time_Now.
    assert (steps same_actions (new_uuid uuid)) by done.
    assert (∀ row, steps same_actions (insert_request row)) as Hi.
    { intros row l. unfold insert_request. repeat case_match; done. }
    steps_tac. }
  unfold IngestCardEventRequest, resolve_command. steps_tac.
Qed.

Lemma create_action_cases uuid a l :
  (∃ l' e, CardRequests.CreateAction uuid a l = (l', inl e) ∧ actions l' = actions l) ∨
  (∃ l' row, CardRequests.CreateAction uuid a l = (l', inr ()) ∧ actions l' = actions l ++ [row] ∧
     ATaskID row = ATaskID a ∧ AType row = AType a ∧ AFromStatus row = AFromStatus a ∧ AToStatus row = AToStatus a ∧ Actor row = Actor a).
Proof.
  unfold CardRequests.CreateAction, time_Now.
  set (draw := if str_empty (AID a) then _ else _).
  assert (∃ l1 id, draw l = (l1, inr id) ∧ actions l1 = actions l) as (l1 & id & Hd & Ha).
  { unfold draw. destruct (str_empty (AID a)); by eexists _, _. }
  rewrite (bind_run _ _ _ _ _ Hd), !bind_gets, bind_fail_if. destruct (negb _).
  - left. by eexists _, _.
  - right. eexists _, _. split; [done|]. simpl. rewrite Ha. by split_and!.
Qed.

Section log.
Context `{WorkflowEnv}.

Lemma CreateAction__log w a s :
  (∃ s' e, CreateAction_ w a s = (s', inl e) ∧ rows s' = rows s) ∨
  (∃ s' row, CreateAction_ w a s = (s', inr ()) ∧ rows s' = rows s ∧ actions (led s') = actions (led s) ++ [row] ∧
     ATaskID row = ATaskID a ∧ AType row = AType a ∧ AFromStatus row = AFromStatus a ∧ AToStatus row = AToStatus a ∧ Actor row = Actor a).
Proof.
  unfold CreateAction_, TaskStore.CreateAction, on_ledger.
  destruct (create_action_cases uuid a (ledger_view s)) as [(l' & e & He & _)|(l' & row & He & Ha & Hrest)].
  - left. rewrite (bind_stop _ _ _ _ _ He). by eexists _, _.
  - rewrite (bind_run _ _ _ _ _ He), bind_gets.
    pose proof (ingest_actions uuid w (default a (last (actions l'))) card_events l') as Hi. unfold same_actions in Hi.
    destruct (IngestCardEventRequest _ _ _ _ l') as [l2 [e|[]]]; [left; by eexists _, _|right].
    eexists _, row. split; [done|]. simpl in *. rewrite Hi, Ha. done.
Qed.

Lemma CreateAction__stable id w a : ATaskID a ≠ id → steps (wake_stable id) (InTxDB (CreateAction_ w a)).
Proof.
  intros Hne s. unfold InTxDB. destruct (CreateAction__log w a s) as [(s' & e & -> & _)|(s' & row & -> & Hr & Ha & Ht & _)]; [reflexivity|].
  split; simpl; [by rewrite Hr|intros x; apply same_ids_over; intros k; by rewrite Hr|].
  unfold wake_log. rewrite Ha, filter_app, (filter_cons_False _ row), app_nil_r; [done|]. rewrite Ht. by intros [_ ?].
Qed.

(** The transaction, when it goes through. *)
Lemma wake_due_tx_run ctx j s s' :
  wake_due_tx ctx j s = (s', inr ()) →
  ∃ t c row, rows s !! j = Some t ∧ Card t = Some c ∧ rows s' = <[j := with_card t (detail_or_empty (set_Wake
      {| CTaskID := j; Kind := Kind c; Urgency := Urgency c; WakeAt := WakeAt c; WakeTaskID := WakeTaskID c;
         SuggestionVerb := SuggestionVerb c; Detail := Detail c |} None ""))]> (rows s) ∧
    actions (led s') = actions (led s) ++ [row] ∧ ATaskID row = j ∧ AType row = "wake_due" ∧
    AFromStatus row = Status t ∧ AToStatus row = Status t ∧ Actor row = CtxActor ctx.
Proof.
  unfold wake_due_tx. intros Hr. apply bind_ok in Hr as (tri & s1 & Hg & Hr). unfold GetTaskTriage in Hg. rewrite bind_gets in Hg.
  destruct (rows s !! j) as [t|] eqn:Ht; [|done]. simpl in Hg. destruct (Card t) as [c|] eqn:Hc; [|done].
  apply ret_ok in Hg as [-> ->]. apply bind_ok in Hr as ([] & s2 & Hu & Hr). unfold UpsertTaskTriage in Hu.
  rewrite bind_fail_if in Hu. destruct (str_empty _); [done|]. rewrite bind_gets in Hu. simpl in Hu. rewrite Ht in Hu.
  case_bool_decide; [|done]. injection Hu as <-. apply bind_ok in Hr as (fresh & s3 & Hf & Hr).
  unfold GetTask in Hf. rewrite bind_gets in Hf. unfold find_task in Hf. simpl in Hf. rewrite lookup_insert_eq in Hf.
  apply ret_ok in Hf as [-> ->].
  destruct (CreateAction__log (CtxWriter ctx) (new_action j "wake_due" REmpty (Status t) (Status t) (CtxActor ctx))
    (set_rows s (<[j := with_card t (detail_or_empty (set_Wake
      {| CTaskID := j; Kind := Kind c; Urgency := Urgency c; WakeAt := WakeAt c; WakeTaskID := WakeTaskID c;
         SuggestionVerb := SuggestionVerb c; Detail := Detail c |} None ""))]> (rows s)))) as [(s4 & e & E & _)|(s4 & row & E & Hrows & Ha & Hrest)].
  - simpl in Hr, E. rewrite Hr in E. done.
  - simpl in Hr, E. rewrite Hr in E. injection E as <-. by exists t, c, row.
Qed.
End log.

Section wake.
Context `{WorkflowEnv} (id : string) `{!EnvRel (wake_stable id)}.

Lemma yield__stable n : steps (wake_stable id) (yield_ n).
Proof. intros s. apply env_others. Qed.
Lemma dispatch_stable c : steps (wake_stable id) (modify (tryDispatchQueuedCardRequest c) : taskm unit).
Proof. intros s. apply env_dispatch. Qed.
Lemma GetTask_stable j : steps (wake_stable id) (GetTask j).
Proof. unfold GetTask. steps_tac. Qed.
Lemma GetTaskTriage_stable j : steps (wake_stable id) (GetTaskTriage j).
Proof. unfold GetTaskTriage. steps_tac. Qed.
Hint Resolve yield__stable dispatch_stable GetTask_stable GetTaskTriage_stable : steps.

Lemma wake_due_tx_other ctx j : j ≠ id → steps (wake_stable id) (InTxDB (wake_due_tx ctx j)).
Proof.
  intros Hne s. unfold InTxDB. destruct (wake_due_tx ctx j s) as [s' [e|[]]] eqn:Hr; [reflexivity|].
  apply wake_due_tx_run in Hr as (t & c & row & Ht & _ & Hrows & Ha & Hat & _). split; simpl.
  - by rewrite Hrows, lookup_insert_ne.
  - intros w. apply same_ids_over. intros k. rewrite Hrows. destruct (decide (j = k)) as [<-|?].
    + by rewrite lookup_insert_eq, Ht.
    + by rewrite lookup_insert_ne.
  - unfold wake_log. rewrite Ha, filter_app, (filter_cons_False _ row), app_nil_r; [done|]. rewrite Hat. by intros [_ ?].
Qed.

Lemma wake_one_other ctx now t : ID t ≠ id → steps (wake_stable id) (wake_one ctx now t).
Proof. intros Hne. pose proof (wake_due_tx_other ctx (ID t) Hne). unfold wake_one, recordWakeDue. steps_tac. Qed.

Lemma wake_one_returns ctx now t : returns (λ _, True) (wake_one ctx now t).
Proof. unfold wake_one. returns_tac. Qed.

Lemma sweep_each_other ctx now ts s :
  Forall (λ t, ID t ≠ id) ts →
  ∃ s' woken, sweep_each (wake_one ctx now) ts s = (s', inr woken) ∧ wake_stable id s s' ∧ id ∉ woken.
Proof.
  intros Hts. revert s. induction Hts as [|t ts Ht Hts IH]; intros s; simpl.
  - exists s, []. split_and!; [done|reflexivity|]. by intros ?%elem_of_nil.
  - destruct (wake_one_returns ctx now t s) as (s1 & w & Hw & _). rewrite (bind_run _ _ _ _ _ Hw).
    destruct (IH s1) as (s2 & woken & Hr & Hs & Hni). rewrite (bind_run _ _ _ _ _ Hr).
    eexists _, _. split; [done|]. split.
    + transitivity s1; [|done]. pose proof (wake_one_other ctx now t Ht s) as H1. by rewrite Hw in H1.
    + destruct w; [|done]. intros [->|?]%elem_of_cons; done.
Qed.

(** When is a card due. *)
Definition due (now : Z) (c : CardAttrs) (s : WDB) : Prop :=
  (∃ w, WakeAt c = Some w ∧ (w ≤ now)%Z) ∨ WakeTaskID c ≠ "" ∧ over (WakeTaskID c) s.

Definition cleared (t : Task) (c : CardAttrs) : Task :=
  with_card t (detail_or_empty (set_Wake
    {| CTaskID := id; Kind := Kind c; Urgency := Urgency c; WakeAt := WakeAt c; WakeTaskID := WakeTaskID c;
       SuggestionVerb := SuggestionVerb c; Detail := Detail c |} None "")).

(** The wake of [id] was recorded once since [s]. *)
Definition recorded (ctx : Ctx) (t : Task) (c : CardAttrs) (s s' : WDB) : Prop :=
  rows s' !! id = Some (cleared t c) ∧
  ∃ a, wake_log id s' = wake_log id s ++ [a] ∧ AFromStatus a = Status t ∧ AToStatus a = Status t ∧ Actor a = CtxActor ctx.

Lemma recorded_stable ctx t c s s1 s2 s' :
  wake_stable id s s1 → recorded ctx t c s1 s2 → wake_stable id s2 s' → recorded ctx t c s s'.
Proof.
  intros [_ _ Hl1] (Hr & a & Hl & Ha) [Hr2 _ Hl2]. split; [by rewrite Hr2|]. exists a. by rewrite Hl2, Hl, Hl1.
Qed.

Lemma due_wakes now c s found st :
  due now c s →
  match find_task (WakeTaskID c) s with Some t => found = true ∧ st = Status t | None => found = false end →
  ShouldWake now (Some c) found st = true.
Proof.
  intros [(w & Hw & Hle)|[Hne Hover]] Hf; simpl.
  - rewrite Hw. by rewrite (proj2 (Z.leb_le w now)).
  - rewrite str_empty_ne by done. simpl. apply orb_true_iff. right.
    destruct Hover as [Hn|(t & Ht & Hterm)].
    + rewrite Hn in Hf. by rewrite Hf.
    + assert (find_task (WakeTaskID c) s = Some t) as E by (unfold find_task; by rewrite Ht). rewrite E in Hf.
      destruct Hf as [-> ->]. by rewrite Hterm.
Qed.

(** Recording an action about an existing task never fails. *)
Definition log_works (ctx : Ctx) : Prop :=
  ∀ a s, is_Some (rows s !! ATaskID a) → ∃ s', CreateAction_ (CtxWriter ctx) a s = (s', inr ()).

Lemma wake_due_tx_works ctx t c s :
  log_works ctx → id ≠ "" → rows s !! id = Some t → Type_ t = TaskTypeCard → Card t = Some c →
  ∃ s', wake_due_tx ctx id s = (s', inr ()).
Proof.
  intros Hl Hid Ht Hty Hc. unfold wake_due_tx. erewrite bind_run.
  2: { unfold GetTaskTriage. rewrite bind_gets, Ht. simpl. rewrite Hc. done. }
  erewrite bind_run.
  2: { unfold UpsertTaskTriage. cbn [CTaskID set_Wake]. rewrite bind_fail_if, str_empty_ne by done. rewrite bind_gets, Ht.
       by rewrite bool_decide_eq_true_2. }
  erewrite bind_run.
  2: { unfold GetTask, find_task. rewrite bind_gets. simpl. rewrite lookup_insert_eq. done. }
  apply Hl. simpl. rewrite lookup_insert_eq. by eexists.
Qed.

Lemma wake_one_due ctx now t c s :
  id ≠ "" → ID t = id → rows s !! id = Some t → Type_ t = TaskTypeCard → Card t = Some c → due now c s →
  ∃ s' w, wake_one ctx now t s = (s', inr w) ∧
    (if (w : bool) then recorded ctx t c s s' else wake_stable id s s') ∧ (log_works ctx → w = true).
Proof.
  intros Hne Hid Ht Hty Hc Hdue. unfold wake_one. rewrite Hid.
  pose proof (yield__stable 30 s) as H30. erewrite bind_run by done. set (s1 := others 30 s) in *.
  assert (rows s1 !! id = Some t) as Ht1 by (rewrite <- Ht; apply H30).
  set (tri := {| CTaskID := id; Kind := Kind c; Urgency := Urgency c; WakeAt := WakeAt c; WakeTaskID := WakeTaskID c;
       SuggestionVerb := SuggestionVerb c; Detail := Detail c |}).
  erewrite bind_run.
  2: { unfold try_, GetTaskTriage. rewrite bind_gets, Ht1. simpl. rewrite Hc. done. }
  cbv iota. fold tri. pose proof (yield__stable 31 s1) as H31. erewrite bind_run by done. set (s2 := others 31 s1) in *.
  assert (due now c s2) as Hdue2.
  { destruct Hdue as [?|[? Ho]]; [by left|right]. split; [done|]. by apply (ws_over _ _ _ H31), (ws_over _ _ _ H30). }
  assert (∃ found st, (if str_empty (WakeTaskID tri) then mret (Some (false, ""))
           else r ← try_ (GetTask (WakeTaskID tri));
                match r with
                | inr wt => mret (Some (true, Status wt))
                | inl WTaskNotFound => mret (Some (false, ""))
                | inl _ => mret None
                end) s2 = (s2, inr (Some (found, st)) : werr + _) ∧ ShouldWake now (Some tri) found st = true) as (found & st & Hw & Hsw).
  { change (WakeTaskID tri) with (WakeTaskID c). destruct (str_empty (WakeTaskID c)) eqn:E.
    - eexists _, _. split; [done|]. destruct Hdue2 as [(w & Hw & Hle)|[Hx _]].
      + simpl. by rewrite Hw, (proj2 (Z.leb_le w now)).
      + unfold str_empty in E. by apply bool_decide_eq_true in E.
    - destruct (find_task (WakeTaskID c) s2) as [wt|] eqn:Hf.
      + exists true, (Status wt). erewrite bind_run by (unfold try_, GetTask; rewrite bind_gets, Hf; done).
        split; [done|]. apply (due_wakes now tri s2); [done|]. simpl. by rewrite Hf.
      + exists false, "". erewrite bind_run by (unfold try_, GetTask; rewrite bind_gets, Hf; done).
        split; [done|]. apply (due_wakes now tri s2); [done|]. simpl. by rewrite Hf. }
  rewrite (bind_run _ _ _ _ _ Hw). rewrite Hsw. cbn [negb].
  pose proof (yield__stable 32 s2) as H32. erewrite bind_run by done. set (s3 := others 32 s2) in *.
  assert (wake_stable id s s3) as H03 by (transitivity s1; [done|]; by transitivity s2).
  assert (rows s3 !! id = Some t) as Ht3 by (rewrite <- Ht; apply H03).
  unfold recordWakeDue. destruct (wake_due_tx ctx id s3) as [s4 [e|[]]] eqn:Htx.
  - eexists _, _. split.
    { erewrite bind_run; [done|]. unfold try_. erewrite bind_stop; [done|]. unfold InTxDB. by rewrite Htx. }
    split; [done|]. intros Hl. destruct (wake_due_tx_works ctx t c s3 Hl Hne Ht3 Hty Hc) as [s5 Hs5]. congruence.
  - eexists _, _. split.
    { erewrite bind_run; [done|]. unfold try_. erewrite bind_run; [done|]. unfold InTxDB. by rewrite Htx. }
    split; [|done]. apply wake_due_tx_run in Htx as (t' & c' & row & Ht' & Hc' & Hrows & Ha & Hat & Hty' & Hf & Hto & Hac).
    rewrite Ht3 in Ht'. injection Ht' as <-. rewrite Hc in Hc'. injection Hc' as <-.
    eapply (recorded_stable _ _ _ _ s3 s4); [done| |apply env_dispatch]. split; [by rewrite Hrows, lookup_insert_eq|].
    exists row. unfold wake_log. rewrite Ha, filter_app, (filter_cons_True _ row) by done. done.
Qed.
End wake.

(** ** The sweep *)
Lemma list_filtered to_lower st s :
  st ∉ ["open"; "closed"; "cards_live"; "triage"; ""] → typed s →
  NoDup (ID <$> ListTasks to_lower (by_status st) s) ∧
  ∀ t, t ∈ ListTasks to_lower (by_status st) s ↔ rows s !! ID t = Some t ∧ Status t = st.
Proof.
  intros Hst Hty. unfold ListTasks. simpl.
  set (l := filter _ _). assert (merge_sort listed_le l ≡ₚ l) as Hp by apply merge_sort_Permutation. rewrite Hp.
  assert (∀ k t, (k, t) ∈ map_to_list (rows s) → k = ID t) as Hk.
  { intros k t Hin%elem_of_map_to_list. by destruct (Hty _ _ Hin). }
  split.
  - assert (NoDup (ID <$> (map_to_list (rows s)).*2)) as Hnd.
    { rewrite <- list_fmap_compose. rewrite (list_fmap_ext _ fst).
      - apply NoDup_fst_map_to_list.
      - intros i [k t] Hi. apply list_elem_of_lookup_2, Hk in Hi. by rewrite Hi. }
    unfold l. clear Hp l. induction (map_to_list (rows s)).*2 as [|x xs IH]; [constructor|]. rewrite filter_cons.
    apply NoDup_cons in Hnd as [Hx Hnd]. case_decide; [|by apply IH]. apply NoDup_cons. split; [|by apply IH].
    intros Hin. apply Hx. apply list_elem_of_fmap in Hin as (y & -> & [_ Hy]%list_elem_of_filter). by apply list_elem_of_fmap_2.
  - intros t. rewrite Hp. unfold l. rewrite list_elem_of_filter. unfold task_matches. simpl. rewrite !andb_true_r.
    assert (status_filter st (Status t) s t = bool_decide (Status t = st)) as ->.
    { unfold status_filter. rewrite !not_elem_of_cons in Hst. destruct Hst as (? & ? & ? & ? & ? & _).
      rewrite !bool_decide_eq_false_2 by done. simpl. by rewrite str_empty_ne. }
    rewrite bool_decide_eq_true. split.
    + intros [-> Hin]. split; [|done]. apply list_elem_of_fmap in Hin as ([k t'] & -> & Hin). pose proof (Hk _ _ Hin) as ->.
      by apply elem_of_map_to_list.
    + intros [Hr Hs]. split; [done|]. apply list_elem_of_fmap. exists (ID t, t). split; [done|]. by apply elem_of_map_to_list.
Qed.

Lemma sweep_each_app f l1 l2 s :
  sweep_each f (l1 ++ l2) s = (w1 ← sweep_each f l1; w2 ← sweep_each f l2; mret (w1 ++ w2)) s.
Proof.
  revert s. induction l1 as [|t l1 IH]; intros s; simpl.
  - unfold mbind, dbm_bind. simpl. destruct (sweep_each f l2 s) as [s' [e|w]]; done.
  - unfold mbind, dbm_bind in *. destruct (f t s) as [s1 [e|w]]; [done|]. rewrite IH.
    destruct (sweep_each f l1 s1) as [s2 [e|w1]]; [done|]. simpl. destruct (sweep_each f l2 s2) as [s3 [e|w2]]; [done|].
    simpl. by destruct w.
Qed.

Definition daemon_of (ctx : Ctx) : Ctx := {| CtxActor := ActorDaemon; CtxWriter := CtxWriter ctx; CtxCanceled := CtxCanceled ctx |}.

(** A wake is neither lost nor repeated.  When a parked card is due, by the
    clock or because the task it waits for has ended or is gone, the next
    sweep completes and either reports the card, having logged one wake_due on
    it as the daemon and cleared its condition in the same transaction, so
    that no later sweep finds it due again; or, only when the log can not be
    written, leaves card and log as they were for the next sweep to find. *)
Theorem wakes_are_recorded_once `{WorkflowEnv} to_lower ctx now id `{!EnvRel (wake_stable id)} t c s :
  typed s → id ≠ "" → rows s !! id = Some t → Status t = TaskStatusParked → Card t = Some c → due now c s →
  ∃ s' woken, SweepWake to_lower ctx now s = (s', inr woken) ∧
    (id ∈ woken → recorded id (daemon_of ctx) t c s s' ∧ ∀ now' found st, ShouldWake now' (Card (cleared id t c)) found st = false) ∧
    (id ∉ woken → rows s' !! id = Some t ∧ wake_log id s' = wake_log id s) ∧
    (log_works ctx → id ∈ woken).
Proof.
  intros Hty Hne Ht Hst Hc Hdue. destruct (Hty _ _ Ht) as [Hid Hchk].
  assert (Type_ t = TaskTypeCard) as Hcard.
  { unfold row_check, validateTaskTypeConsistency in Hchk. destruct (Type_ t); [done|]. rewrite Hc in Hchk. by destruct (Exec t). }
  destruct (list_filtered to_lower TaskStatusParked s ltac:(vm_compute; intros Hin; repeat (apply elem_of_cons in Hin as [Hin|Hin]; [done|]); by apply elem_of_nil in Hin) Hty)
    as [Hnd Hel].
  assert (t ∈ ListTasks to_lower (by_status TaskStatusParked) s) as Hin by (apply Hel; by rewrite Hid).
  apply list_elem_of_split in Hin as (l1 & l2 & Hl). unfold SweepWake. fold (daemon_of ctx). rewrite bind_gets, Hl.
  rewrite Hl, fmap_app, fmap_cons in Hnd. apply NoDup_app in Hnd as (_ & Hd1 & [Hd2 _]%NoDup_cons). rewrite Hid in *.
  assert (Forall (λ u, ID u ≠ id) l1) as Hf1.
  { apply Forall_forall. intros u Hu E. apply (Hd1 (ID u)); [by apply list_elem_of_fmap_2|]. rewrite E. left. }
  assert (Forall (λ u, ID u ≠ id) l2) as Hf2.
  { apply Forall_forall. intros u Hu E. apply Hd2. rewrite <- E. by apply list_elem_of_fmap_2. }
  rewrite sweep_each_app. destruct (sweep_each_other id (daemon_of ctx) now l1 s Hf1) as (s1 & w1 & Hr1 & Hs1 & Hn1).
  rewrite (bind_run _ _ _ _ _ Hr1). simpl.
  destruct (wake_one_due id (daemon_of ctx) now t c s1 Hne Hid) as (s2 & w & Hr2 & Hout & Hlive);
    [rewrite <- Ht; apply Hs1|done|done| |].
  { destruct Hdue as [?|[? Ho]]; [by left|right]. split; [done|]. by apply (ws_over _ _ _ Hs1). }
  destruct (sweep_each_other id (daemon_of ctx) now l2 s2 Hf2) as (s3 & w3 & Hr3 & Hs3 & Hn3).
  eexists s3, _. split.
  { unfold mbind, dbm_bind. rewrite Hr2, Hr3. done. }
  rewrite Hid. destruct w.
  - split_and!; [intros _|intros Hni; destruct Hni; apply elem_of_app; right; left|intros _; apply elem_of_app; right; left].
    split; [by eapply recorded_stable|]. intros now' found st. done.
  - assert (id ∉ w1 ++ w3) as Hni by (rewrite elem_of_app; tauto). split_and!; [done| |].
    + intros _. assert (wake_stable id s s3) as [Hr _ Hlog] by (transitivity s1; [done|]; by transitivity s2).
      split; [by rewrite Hr|done].
    + intros Hl'. by specialize (Hlive Hl').
Qed.

(** ** Sweeps are bookkeeping *)
Section row_effects.
Context `{WorkflowEnv} (to_lower : string → string) (R : relation WDB) `{!RowRel R, !EnvRel R}.

Lemma wake_one_steps ctx now t : steps R (wake_one ctx now t).
Proof. unfold wake_one, recordWakeDue, wake_due_tx. steps_tac. Qed.
Hint Resolve wake_one_steps : steps.
Lemma sweep_each_steps f ts : (∀ t, steps R (f t)) → steps R (sweep_each f ts).
Proof. intros Hf. induction ts; simpl; steps_tac. Qed.
Hint Resolve sweep_each_steps : steps.
Lemma reconcile_card_steps t : steps R (reconcile_card t).
Proof.
  unfold reconcile_card, reconcileDispatchedChildren.
  assert (∀ id c, steps R (reconcile_child id c)).
  { intros id c. unfold reconcile_child, recordVanishedChildClosedOnParent. steps_tac. }
  steps_tac.
Qed.
Hint Resolve reconcile_card_steps : steps.
Lemma runOnce_steps ctx now : steps R (runOnce to_lower ctx now).
Proof. unfold runOnce, SweepWake, SweepReconcileChildren. steps_tac. Qed.
End row_effects.

Lemma sweep_each_returns f ts : (∀ t, returns (λ _, True) (f t)) → returns (λ _, True) (sweep_each f ts).
Proof. intros Hf. induction ts; simpl; returns_tac. Qed.
Lemma runOnce_returns `{WorkflowEnv} to_lower ctx now : returns (λ _, True) (runOnce to_lower ctx now).
Proof. unfold runOnce. returns_tac. Qed.

(** The sweeps are bookkeeping: a pass always completes, whatever fails in it,
    and moves no task, card or execution, to another status, however many
    wakes it records and children it closes. *)
Theorem sweeps_never_move_tasks `{WorkflowEnv} to_lower ctx now `{!EnvRel statuses_kept} s :
  ∃ s', runOnce to_lower ctx now s = (s', inr ()) ∧ statuses_kept s s'.
Proof.
  destruct (runOnce_returns to_lower ctx now s) as (s' & [] & Hr & _). exists s'. split; [done|].
  pose proof (runOnce_steps to_lower statuses_kept ctx now s) as Hs. by rewrite Hr in Hs.
Qed.

(** ** The theorems at a concrete card *)
#[local] Existing Instance sample_env.
Definition due_card : Task :=
  with_card (card_task TaskStatusParked REmpty)
    {| CTaskID := "card-0123"; Kind := ""; Urgency := ""; WakeAt := Some 5%Z; WakeTaskID := ""; SuggestionVerb := ""; Detail := REmpty |}.
Definition due_attrs : CardAttrs :=
  {| CTaskID := "card-0123"; Kind := ""; Urgency := ""; WakeAt := Some 5%Z; WakeTaskID := ""; SuggestionVerb := ""; Detail := REmpty |}.

Lemma wakes_are_recorded_once_witness :
  ∃ s' woken, SweepWake (λ x, x) daemon_ctx 7 (sample_wdb [due_card]) = (s', inr woken) ∧ "card-0123" ∈ woken ∧
    recorded "card-0123" (daemon_of daemon_ctx) due_card due_attrs (sample_wdb [due_card]) s'.
Proof.
  destruct (wakes_are_recorded_once (EnvRel0 := sample_env_rel (wake_stable "card-0123") _) (λ x, x) daemon_ctx 7 "card-0123"
    due_card due_attrs (sample_wdb [due_card])) as (s' & woken & Hrun & Hin & _ & Hlive).
  - apply sample_typed. reflexivity.
  - discriminate.
  - vm_compute. reflexivity.
  - reflexivity.
  - reflexivity.
  - left. exists 5%Z. split; [reflexivity|lia].
  - assert ("card-0123" ∈ woken) as Hw.
    { apply Hlive. intros a s [t Ht]. destruct (CreateAction__log (CtxWriter daemon_ctx) a s) as [(s1 & e & E & _)|(s1 & row & E & _)];
        [|exists s1; exact E].
      exfalso. unfold CreateAction_, TaskStore.CreateAction, on_ledger in E.
      destruct (create_action_cases uuid a (ledger_view s)) as [(l' & e' & He & _)|(l' & row & He & _)].
      - unfold CardRequests.CreateAction, time_Now in He.
        destruct (str_empty (AID a)).
        + erewrite bind_run in He by done. rewrite !bind_gets, bind_fail_if in He. simpl in He.
          rewrite lookup_fmap, Ht in He. discriminate He.
        + erewrite bind_run in He by done. rewrite !bind_gets, bind_fail_if in He. simpl in He.
          rewrite lookup_fmap, Ht in He. discriminate He.
      - rewrite (bind_run _ _ _ _ _ He), bind_gets in E. discriminate E. }
    exists s', woken. split; [exact Hrun|]. split; [exact Hw|]. apply Hin, Hw.
Defined.

Lemma sweeps_never_move_tasks_witness :
  ∃ s', runOnce (λ x, x) daemon_ctx 7 (sample_wdb [due_card]) = (s', inr ()) ∧ statuses_kept (sample_wdb [due_card]) s'.
Proof. exact (sweeps_never_move_tasks (EnvRel0 := sample_env_rel statuses_kept _) (λ x, x) daemon_ctx 7 (sample_wdb [due_card])). Defined.
