(* ===== verification/Notify.v ===== *)
(** * Self-reports of a running task

    Models internal/api/task_notify.go (all but AnswerTask, which is in [Ask])
    and internal/api/task_wait.go: what an agent reports about its task
    (progress, a question, success, failure), the checks on a report of
    success, and waiting for a task to end.

    The notification command, the check of a pushed branch against the remote
    and the random question ids are the class [NotifyEnv].  Broadcasts to
    watching clients and log lines are left out. *)
From S2P Require Import Prelude Json Payload Task Machine Lifecycle Coordinator Store CardDetail CardRequests CardDispatch TaskStore CardWorkflow Workflow.

(** notify.Event.  Its project name and job are looked up in the database,
    which the notifier is given as well. *)
Record Event : Type := {
  EvTaskID : string;
  EvTaskTitle : string;
  EvProjectID : string;
  EvMessage : string;
  EvURLPath : string;
}.

(** [notifier] is [None] when no command is configured, and says whether the
    command succeeded; [VerifyRelease] is [None] when it is not wired, and its
    answer is an error or whether the commit is the remote tip of the branch. *)
Class NotifyEnv : Type := {
  notify_service :: ServiceEnv;
  notifier : option (WDB → Event → bool);
  VerifyRelease : option (string → string → string → option bool);
  newQuestionID : WDB → string;
}.

(** ** Text *)

(** The white space of strings.TrimSpace, in UTF-8. *)
Definition bytes (ns : list N) : string := String.string_of_list_ascii (ascii_of_N <$> ns).
Definition white_space : list string :=
  bytes <$> ([[9]; [10]; [11]; [12]; [13]; [32]; [194; 133]; [194; 160]; [225; 154; 128]; [226; 128; 168];
              [226; 128; 169]; [226; 128; 175]; [226; 129; 159]; [227; 128; 128]]
             ++ ((λ k, [226; 128; 128 + k]) <$> [0; 1; 2; 3; 4; 5; 6; 7; 8; 9; 10]))%N.

Definition strip_one (ps : list string) (s : string) : option string :=
  head (omap (λ p, strip_prefix p s) ps).
(** At most one step per byte. *)
Fixpoint strip_all (fuel : nat) (ps : list string) (s : string) : string :=
  match fuel with
  | 0 => s
  | S fuel => match strip_one ps s with Some s' => strip_all fuel ps s' | None => s end
  end.
Definition rev_string (s : string) : string :=
  String.string_of_list_ascii (reverse (String.list_ascii_of_string s)).
Definition TrimSpace (s : string) : string :=
  let left := strip_all (String.length s) white_space s in
  rev_string (strip_all (String.length left) (rev_string <$> white_space) (rev_string left)).

(** ** releaseClaim *)
Definition dec_bool : decoder bool := λ cur v,
  match v with JBool b => (b, true) | JNull => (cur, true) | _ => (cur, false) end.

Record release : Type := { Commit : string; Branch : string; Pushed : bool }.
Definition zero_release : release := {| Commit := ""; Branch := ""; Pushed := false |}.
Definition release_member (r : release) (k : string) (v : json) : release * bool :=
  if field_matches "Commit" k then
    let d := dec_string (Commit r) v in ({| Commit := d.1; Branch := Branch r; Pushed := Pushed r |}, d.2)
  else if field_matches "Branch" k then
    let d := dec_string (Branch r) v in ({| Commit := Commit r; Branch := d.1; Pushed := Pushed r |}, d.2)
  else if field_matches "Pushed" k then
    let d := dec_bool (Pushed r) v in ({| Commit := Commit r; Branch := Branch r; Pushed := d.1 |}, d.2)
  else (r, true).

Definition lower_hex (c : ascii) : bool :=
  let n := N_of_ascii c in (N.leb 48 n && N.leb n 57) || (N.leb 97 n && N.leb n 102).

Definition releaseClaim (payload : raw) : release :=
  match payload with
  | RText _ v =>
      let d := dec_at "Artifact" (dec_at "Report" (dec_at "Release" (dec_struct release_member))) zero_release v in
      if d.2 then
        let commit := TrimSpace (Commit d.1) in
        if (String.length commit <? 7)%nat || (40 <? String.length commit)%nat then zero_release
        else if forallb lower_hex (String.list_ascii_of_string commit)
        then {| Commit := commit; Branch := TrimSpace (Branch d.1); Pushed := Pushed d.1 |}
        else zero_release
      else zero_release
  | _ => zero_release
  end.

Definition taskPayloadForNotify (task : Task) : raw :=
  match Exec task with None => REmpty | Some e => Payload e end.

Section notify.
Context `{NotifyEnv}.

(** Why a report of success is refused, if it is. *)
Definition verifyDoneClaim (task : Task) : taskm unit :=
  open ← gets (OpenChildCount task);
  if (0 <? open)%nat then conflict
  else
    let claim := releaseClaim (taskPayloadForNotify task) in
    if negb (Pushed claim) || str_empty (Commit claim) || str_empty (Branch claim) || str_empty (ProjectID task)
    then mret ()
    else
      project ← gets (λ s, project_rows s !! ProjectID task);
      match VerifyRelease, project with
      | Some verify, Some _ =>
          match verify (ProjectID task) (Branch claim) (Commit claim) with
          | Some false => conflict
          | _ => mret ()
          end
      | _, _ => mret ()
      end.

(** What the agent reports. *)
Record report : Type := { RAsk : string; RProgress : string; RDone : string; RFail : string }.

Definition modes (r : report) : nat :=
  length (filter (λ m, m ≠ "") [RAsk r; RProgress r; RDone r; RFail r]).

Definition too_long (s : string) : bool := negb (ValidateContentSize (Z.of_nat (String.length s))).

(** The payload of an action that carries a message. *)
Definition message_of (m : string) : raw := string_map [("message", m)].

(** Records an action of the task itself that leaves its status alone. *)
Definition self_record (ctx : Ctx) (taskID type message : string) (task : Task) : taskm unit :=
  map_err (λ _, WStatus 500) (CreateAction_ (CtxWriter ctx)
    (new_action taskID type (message_of message) (Status task) (Status task) (ActorTask taskID))).

Definition notify_progress (ctx : Ctx) (taskID progress : string) : taskm unit :=
  task ← map_err (λ _, WStatus 404) (GetTask taskID);
  _ ← fail_if (too_long progress) (WStatus 400);
  _ ← yield_ 40;
  self_record ctx taskID "progress" progress task.

Definition ask_payload (question questionID : string) : raw :=
  marshal_map (Some {[TraitAwaiting := marshal_awaiting {| Question := question; QuestionID := questionID;
                                          PendingAnswer := ""; PendingAnswerActor := "" |}]}).

(** The context of the task's own reports. *)
Definition as_task (ctx : Ctx) (taskID : string) : Ctx :=
  {| CtxActor := ActorTask taskID; CtxWriter := CtxWriter ctx; CtxCanceled := CtxCanceled ctx |}.

(** --done and --fail. *)
Definition notify_outcome (ctx : Ctx) (taskID : string) (task : Task) (r : report) : taskm unit :=
  _ ← fail_if (negb (bool_decide (Status task = TaskStatusExecuting))) (WStatus 409);
  let done := negb (str_empty (RDone r)) in
  let msg := if done then RDone r else RFail r in
  _ ← fail_if (too_long msg) (WStatus 400);
  _ ← (if done then verifyDoneClaim task else mret ());
  _ ← yield_ 41;
  self_record ctx taskID (if done then "done_request" else "fail_request") msg task.

(** The jobs of a task whose agents are told to stop. *)
Definition running_runtimes (taskID : string) (s : WDB) : list string :=
  JRuntimeID <$> filter (λ j, JTaskID j = taskID ∧ JStatus j = "running" ∧ JRuntimeID j ≠ "") (map_to_list (jobs (led s))).*2.

Definition signals_transition (r : report) : bool :=
  negb (str_empty (RAsk r)) || negb (str_empty (RDone r)) || negb (str_empty (RFail r)).

(** Only a root task pages the user; a failed page matters only when nothing
    else is being reported. *)
Definition page_user (taskID message questionID : string) (task : Task) (r : report) : taskm unit :=
  match notifier with
  | Some page =>
      if str_empty (ParentID task) then
        let url := if negb (str_empty (RAsk r)) then "/tasks/" +:+ taskID +:+ "/questions/" +:+ questionID
                   else if signals_transition r then "/tasks/" +:+ taskID else "" in
        ok ← gets (λ s, page s {| EvTaskID := taskID; EvTaskTitle := Title task; EvProjectID := ProjectID task;
                                  EvMessage := message; EvURLPath := url |});
        fail_if (negb ok && negb (signals_transition r)) (WStatus 500)
      else mret ()
  | None => mret ()
  end.

(** [NotifyTask] returns the runtimes whose agents it tells to stop. *)
Definition NotifyTask (ctx : Ctx) (taskID message questionID : string) (r : report) : taskm (list string) :=
  _ ← fail_if (1 <? modes r)%nat (WStatus 400);
  _ ← fail_if (str_empty message && str_empty (RProgress r)) (WStatus 400);
  if negb (str_empty (RProgress r)) then _ ← notify_progress ctx taskID (RProgress r); mret []
  else
    task ← map_err (λ _, WStatus 404) (GetTask taskID);
    _ ← fail_if (negb (bool_decide (is_Some notifier)) && str_empty (RAsk r) && str_empty (ParentID task)) (WStatus 501);
    qid ← (if str_empty questionID then gets newQuestionID else mret questionID);
    _ ← page_user taskID message qid task r;
    if negb (signals_transition r) then mret []
    else
      _ ← (if negb (str_empty (RAsk r))
           then _ ← ApplyAction (as_task ctx taskID) taskID "ask" (ask_payload (RAsk r) qid); mret ()
           else notify_outcome ctx taskID task r);
      gets (running_runtimes taskID).
End notify.

(** ** Waiting for a task to end

    [WaitTaskTerminal] polls; [worlds] are the database at its successive
    polls, [None] where it cannot be read at the moment.  The context ends
    after the last poll. *)
Record TaskOutcome : Type := { OcID : string; OcStatus : TaskStatus; AbortCode : string; AbortMessage : string }.

Definition Succeeded (o : TaskOutcome) : bool := bool_decide (OcStatus o = TaskStatusDone).

(** The most recent abort: its payload as far as it decodes. *)
Definition latestAbortReason (taskID : string) (s : WDB) : string * string :=
  match last (filter (λ a, AToStatus a = TaskStatusAborted) (ListActionsByTask taskID s)) with
  | None => ("", "")
  | Some a =>
      match APayload a with
      | RText _ v => match decode_struct ["code"; "message"] v with ([c; m], _) => (c, m) | _ => ("", "") end
      | _ => ("", "")
      end
  end.

Definition outcomeOf (taskID : string) (status : TaskStatus) (s : WDB) : TaskOutcome :=
  let r := if bool_decide (status = TaskStatusAborted) then latestAbortReason taskID s else ("", "") in
  {| OcID := taskID; OcStatus := status; AbortCode := r.1; AbortMessage := r.2 |}.

Definition readStatus (taskID : string) (s : WDB) : option TaskStatus := Status <$> rows s !! taskID.

(** How a wait ended. *)
Inductive wait_end : Type :=
| WaitEnded (o : TaskOutcome)
| WaitGone
| WaitCanceled.

(** [resolved] is the id the first poll found, none before it. *)
Fixpoint wait_loop (taskID : string) (resolved : option string) (worlds : list (option WDB)) : wait_end :=
  match worlds with
  | [] => WaitCanceled
  | None :: worlds => wait_loop taskID resolved worlds
  | Some s :: worlds =>
      let read := match resolved with
                  | None => (λ t, (ID t, Status t)) <$> find_task taskID s
                  | Some id => (λ st, (id, st)) <$> readStatus id s
                  end in
      match read with
      | None => WaitGone
      | Some (id, st) =>
          if IsTerminalStatus st then WaitEnded (outcomeOf id st s) else wait_loop taskID (Some id) worlds
      end
  end.

Definition WaitTaskTerminal (taskID : string) (worlds : list (option WDB)) : option wait_end :=
  if str_empty taskID then None else Some (wait_loop taskID None worlds).

Definition FormatAbortReason (o : TaskOutcome) : string :=
  if negb (str_empty (AbortCode o)) && negb (str_empty (AbortMessage o)) then AbortCode o +:+ ": " +:+ AbortMessage o
  else if negb (str_empty (AbortCode o)) then AbortCode o
  else AbortMessage o.

(** ** What a report does *)
Inductive report_kind : Type := Progress | ReportDone | ReportFail.
#[export] Instance report_kind_eq_dec : EqDecision report_kind.
Proof. solve_decision. Defined.

Definition report_of (k : report_kind) (msg : string) : report :=
  {| RAsk := ""; RProgress := match k with Progress => msg | _ => "" end;
     RDone := match k with ReportDone => msg | _ => "" end; RFail := match k with ReportFail => msg | _ => "" end |}.
Definition report_type (k : report_kind) : string :=
  match k with Progress => "progress" | ReportDone => "done_request" | ReportFail => "fail_request" end.

Section reports.
Context `{NotifyEnv} (quiet : ∀ n d, rows (others n d) = rows d).

Lemma verifyDoneClaim_reads task s : (verifyDoneClaim task s).1 = s.
Proof.
  unfold verifyDoneClaim, conflict. rewrite bind_gets. destruct (_ <? _)%nat; [done|]. cbv zeta.
  destruct (_ || _); [done|]. rewrite bind_gets. destruct VerifyRelease as [v|]; [|done].
  destruct (project_rows s !! _); [|done]. by destruct (v _ _ _) as [[]|].
Qed.

Lemma modes_one k msg : msg ≠ "" → modes (report_of k msg) = 1%nat.
Proof. intros Hm. unfold modes. destruct k; cbn -[filter]; rewrite !filter_cons, filter_nil; repeat case_decide; done. Qed.

Lemma self_record_run ctx id k msg row s :
  is_Some (rows s !! id) → ∃ s', self_record ctx id (report_type k) msg row s = (s', inr ()) ∧ rows s' = rows s ∧
    clock (led s') = clock (led s) ∧
    actions (led s') = actions (led s) ++ [logged s (new_action id (report_type k) (message_of msg) (Status row) (Status row) (ActorTask id))].
Proof.
  intros Hid. unfold self_record, map_err.
  destruct (CreateAction__run (CtxWriter ctx) id (report_type k) (message_of msg) (Status row) (Status row) (ActorTask id) s Hid)
    as (s' & Hs' & Hr & (Hc & _) & Ha).
  - destruct k; vm_compute; intros Hin; repeat (apply elem_of_cons in Hin as [Hin|Hin]; [done|]); by apply elem_of_nil in Hin.
  - rewrite Hs'. eauto.
Qed.

(** Up to its own checks, a report is recorded by one of two handlers. *)
Lemma NotifyTask_report ctx id message qid k msg row s :
  rows s !! id = Some row → message ≠ "" → msg ≠ "" → (is_Some notifier ∨ ParentID row ≠ "") →
  NotifyTask ctx id message qid (report_of k msg) s =
    match k with
    | Progress => (_ ← notify_progress ctx id msg; mret []) s
    | _ => (_ ← notify_outcome ctx id row (report_of k msg); gets (running_runtimes id)) s
    end.
Proof.
  intros Hrow Hme Hm Hnt.
  assert (map_err (λ _, WStatus 404) (GetTask id) s = (s, inr row)) as Hget.
  { unfold map_err, GetTask. rewrite bind_gets. unfold find_task. by rewrite Hrow. }
  assert (∀ x, x ≠ "" → str_empty x = false) as Hse by (intros; by apply bool_decide_eq_false).
  unfold NotifyTask. rewrite bind_fail_if, modes_one by done. cbn [Nat.ltb Nat.leb].
  rewrite bind_fail_if, (Hse message) by done. cbn [andb].
  destruct k; cbn [report_of RProgress RAsk RDone RFail]; [by rewrite (Hse msg)|..].
  all: change (str_empty "") with true; cbn [negb]; rewrite (bind_run _ _ _ _ _ Hget), bind_fail_if.
  all: assert (negb (bool_decide (is_Some notifier)) && true && str_empty (ParentID row) = false) as ->
    by (destruct Hnt as [Hn|Hp]; [by rewrite bool_decide_eq_true_2|rewrite Hse by done; by rewrite andb_false_r]).
  all: assert (∃ q, (if str_empty qid then gets newQuestionID else mret qid) s = (s, inr q : werr + string)) as [q Hq]
    by (destruct (str_empty qid); by eexists).
  all: rewrite (bind_run _ _ _ _ _ Hq).
  all: unfold signals_transition; cbn [RAsk RDone RFail report_of]; change (str_empty "") with true;
    rewrite (Hse msg) by done; cbn [negb orb].
  all: erewrite bind_run; [done|]; unfold page_user; destruct notifier; [|done]; destruct (str_empty (ParentID row)); [|done].
  all: rewrite bind_gets; unfold signals_transition; cbn [RAsk RDone RFail report_of]; change (str_empty "") with true;
    rewrite (Hse msg) by done; by rewrite andb_false_r.
Qed.

(** One entry in the log, and nothing else of the tasks. *)
Definition reports_once (id : string) (k : report_kind) (msg : string) (s s' : WDB) : Prop :=
  rows s' = rows s ∧ ∃ n a, actions (led s') = actions (led (others n s)) ++ [a] ∧
    ATaskID a = id ∧ AType a = report_type k ∧ APayload a = message_of msg ∧ AFromStatus a = TaskStatusExecuting ∧
    AToStatus a = TaskStatusExecuting ∧ Actor a = ActorTask id ∧ ACreatedAt a = clock (led (others n s)).

Lemma record_after ctx id k msg row n s :
  rows s !! id = Some row → Status row = TaskStatusExecuting →
  ∃ s', (_ ← yield_ n; self_record ctx id (report_type k) msg row) s = (s', inr ()) ∧ reports_once id k msg s s'.
Proof.
  intros Hrow Hst. erewrite bind_run by done.
  destruct (self_record_run ctx id k msg row (others n s)) as (s' & Hs' & Hr & Hc & Ha).
  { rewrite quiet, Hrow. by eexists. }
  exists s'. split; [exact Hs'|]. split; [by rewrite Hr, quiet|]. eexists n, _. split; [exact Ha|].
  unfold logged. simpl. rewrite Hst. done.
Qed.

(** What [NotifyTask] does with a report on an executing task, case by case. *)
Lemma report_cases ctx id message qid k msg row s :
  rows s !! id = Some row → Status row = TaskStatusExecuting → message ≠ "" → msg ≠ "" →
  (is_Some notifier ∨ ParentID row ≠ "") →
  let r := NotifyTask ctx id message qid (report_of k msg) s in
  if too_long msg then r = (s, inl (WStatus 400))
  else match (if bool_decide (k = ReportDone) then (verifyDoneClaim row s).2 else inr ()) with
       | inl err => r = (s, inl err)
       | inr _ => ∃ s' stopped, r = (s', inr stopped) ∧ reports_once id k msg s s'
       end.
Proof.
  intros Hrow Hst Hme Hm Hnt r. subst r. rewrite (NotifyTask_report ctx id message qid k msg row s Hrow Hme Hm Hnt).
  assert (map_err (λ _, WStatus 404) (GetTask id) s = (s, inr row)) as Hget.
  { unfold map_err, GetTask. rewrite bind_gets. unfold find_task. by rewrite Hrow. }
  assert (str_empty msg = false) as Hse by (by apply bool_decide_eq_false).
  destruct (record_after ctx id k msg row 40 s Hrow Hst) as (s40 & H40 & Hr40).
  destruct (record_after ctx id k msg row 41 s Hrow Hst) as (s41 & H41 & Hr41).
  assert (k ≠ Progress → notify_outcome ctx id row (report_of k msg) s =
    if too_long msg then (s, inl (WStatus 400)) else
    match (if bool_decide (k = ReportDone) then (verifyDoneClaim row s).2 else inr ()) with
    | inl err => (s, inl err) | inr _ => (s41, inr ()) end) as Ho.
  { intros Hk. unfold notify_outcome. rewrite bind_fail_if, Hst, bool_decide_eq_true_2 by done. cbn [negb]. cbv zeta.
    rewrite bind_fail_if. destruct k; [done|..]; cbn [report_of RDone RFail].
    - rewrite Hse. cbn [negb]. destruct (too_long msg); [done|]. pose proof (verifyDoneClaim_reads row s) as Hv.
      destruct (verifyDoneClaim row s) as [s0 [err|[]]] eqn:E; simpl in Hv; subst s0; simpl.
      + by rewrite (bind_stop _ _ _ _ _ E).
      + by rewrite (bind_run _ _ _ _ _ E).
    - change (str_empty "") with true. cbn [negb]. destruct (too_long msg); [done|]. simpl. exact H41. }
  destruct k.
  - unfold notify_progress. destruct (too_long msg).
    + erewrite bind_stop; [done|]. by rewrite (bind_run _ _ _ _ _ Hget), bind_fail_if.
    + rewrite bool_decide_eq_false_2 by done. exists s40, []. split; [|done]. erewrite bind_run; [done|]. by rewrite (bind_run _ _ _ _ _ Hget), bind_fail_if.
  - specialize (Ho ltac:(done)). destruct (too_long msg); [by rewrite (bind_stop _ _ _ _ _ Ho)|].
    destruct (if bool_decide _ then _ else _); [by rewrite (bind_stop _ _ _ _ _ Ho)|].
    eexists s41, _. split; [by rewrite (bind_run _ _ _ _ _ Ho)|done].
  - specialize (Ho ltac:(done)). destruct (too_long msg); [by rewrite (bind_stop _ _ _ _ _ Ho)|].
    destruct (if bool_decide _ then _ else _); [by rewrite (bind_stop _ _ _ _ _ Ho)|].
    eexists s41, _. split; [by rewrite (bind_run _ _ _ _ _ Ho)|done].
Qed.
End reports.

(** A report is checked before it is recorded.  A message longer than 65536
    bytes is refused whatever it reports, a success is refused while a child
    of the task is still open, and in both cases nothing changes; any other
    report (a success that claims no pushed release included) is accepted and
    adds one entry to the log, the task's own, leaving every task as it was. *)
Theorem reports_are_checked `{NotifyEnv} ctx id message qid k msg row s :
  (∀ n d, rows (others n d) = rows d) → rows s !! id = Some row → Status row = TaskStatusExecuting →
  message ≠ "" → msg ≠ "" → (is_Some notifier ∨ ParentID row ≠ "") →
  let r := NotifyTask ctx id message qid (report_of k msg) s in
  ((65536 < Z.of_nat (String.length msg))%Z → r = (s, inl (WStatus 400))) ∧
  ((Z.of_nat (String.length msg) ≤ 65536)%Z →
     (k = ReportDone → (0 < OpenChildCount row s)%nat → r = (s, inl (WStatus 409))) ∧
     ((k = ReportDone → OpenChildCount row s = 0%nat ∧ Pushed (releaseClaim (taskPayloadForNotify row)) = false) →
        ∃ s' stopped, r = (s', inr stopped) ∧ reports_once id k msg s s')).
Proof.
  intros quiet Hrow Hst Hme Hm Hnt r. subst r.
  pose proof (report_cases quiet ctx id message qid k msg row s Hrow Hst Hme Hm Hnt) as Hc. cbv zeta in Hc.
  unfold too_long, ValidateContentSize, MaxContentBytes in Hc. change (64 * 1024)%Z with 65536%Z in Hc.
  destruct (Z.leb_spec (Z.of_nat (String.length msg)) 65536) as [Hle|Hlt]; cbn [negb] in Hc.
  - split; [lia|]. intros _. split.
    + intros -> Hopen. rewrite bool_decide_eq_true_2 in Hc by done. unfold verifyDoneClaim in Hc. rewrite bind_gets in Hc.
      apply Nat.ltb_lt in Hopen. rewrite Hopen in Hc. exact Hc.
    + intros Hk. case_bool_decide as Hd; [|exact Hc]. destruct (Hk Hd) as [Hopen Hp].
      unfold verifyDoneClaim in Hc. rewrite bind_gets, Hopen in Hc. cbv zeta in Hc. rewrite Hp in Hc. exact Hc.
  - split; [intros _; exact Hc|lia].
Qed.

(** ** What it means for the task's end *)

(** Every action of the task was logged before now. *)
Definition log_old (id : string) (s : WDB) : Prop :=
  ∀ a, a ∈ actions (led s) → ATaskID a = id → (ACreatedAt a < clock (led s))%Z.

(** The youngest entry is the last of the list. *)
Lemma last_listed id a l :
  ATaskID a = id → (∀ b, b ∈ l → ATaskID b = id → (ACreatedAt b < ACreatedAt a)%Z) →
  ∃ older, merge_sort action_le (filter (λ b, ATaskID b = id) (l ++ [a])) = older ++ [a].
Proof.
  intros Ha Hold. set (xs := filter _ _).
  assert (xs ≡ₚ a :: filter (λ b, ATaskID b = id) l) as Hp.
  { unfold xs. rewrite filter_app, filter_cons_True, filter_nil by done. by rewrite Permutation_app_comm. }
  assert (Total action_le) as Htot by (intros x y; unfold action_le; lia).
  assert (Transitive action_le) as Htr by (intros x y z; unfold action_le; lia).
  pose proof (StronglySorted_merge_sort action_le xs) as Hs. pose proof (merge_sort_Permutation action_le xs) as Hm.
  set (ys := merge_sort action_le xs) in *. rewrite Hp in Hm.
  assert (a ∈ ys) as (l1 & l2 & Hys)%list_elem_of_split by (rewrite Hm; constructor).
  exists l1. rewrite Hys in Hm, Hs |- *. f_equal. f_equal.
  rewrite <- Permutation_middle in Hm. apply Permutation_cons_inv in Hm.
  destruct l2 as [|b l2]; [done|]. exfalso.
  assert (b ∈ filter (λ b, ATaskID b = id) l) as [Hb Hin]%list_elem_of_filter by (rewrite <- Hm; set_solver).
  specialize (Hold _ Hin Hb).
  apply StronglySorted_app in Hs as (_ & _ & Hs). inversion_clear Hs as [|? ? _ Hall].
  inversion_clear Hall as [|? ? Hab _]. unfold action_le in Hab. lia.
Qed.

Lemma report_of_message msg : reportFromPayload (message_of msg) = msg.
Proof. vm_compute. reflexivity. Qed.

(** The intent a report leaves: a progress note, which is logged as a move from
    executing to executing, leaves none. *)
Definition intent_of (k : report_kind) (msg : string) : option intent :=
  match k with Progress => None | ReportDone => Some (IDone msg) | ReportFail => Some (IFail msg) end.

Lemma reported_intent `{NotifyEnv} id k msg s s' :
  (∀ n d, log_old id d → log_old id (others n d)) → log_old id s → reports_once id k msg s s' →
  last_intent (reverse (ListActionsByTask id s')) = intent_of k msg.
Proof.
  intros Hoth Hold (_ & n & a & Ha & Hid & Hty & Hpay & _ & Hto & _ & Hat). unfold ListActionsByTask. rewrite Ha.
  destruct (last_listed id a (actions (led (others n s))) Hid) as [older ->].
  { intros b Hb Hbid. rewrite Hat. by apply (Hoth n s Hold). }
  rewrite reverse_app. simpl. rewrite Hty, Hto, Hpay, report_of_message. by destruct k.
Qed.

(** The last report decides how a task ends.  Once an agent's report was
    accepted and its hook exits, the dispatch cycle ends the task with it: as
    aborted with the message of a failure, as done with the message of a
    success, and, after a progress note, as done without a message, whatever
    it had reported before the note. *)
Theorem last_report_decides `{NotifyEnv} ctx id message qid k msg row e base meta res s s' stopped :
  (∀ n d, rows (others n d) = rows d) → (∀ n d, log_old id d → log_old id (others n d)) →
  rows s !! id = Some row → Status row = TaskStatusExecuting → log_old id s →
  message ≠ "" → msg ≠ "" → (is_Some notifier ∨ ParentID row ≠ "") →
  NotifyTask ctx id message qid (report_of k msg) s = (s', inr stopped) →
  Exec row = Some e → decoded (Payload e) = Some base → cycle_hooks meta row ≠ [] →
  DispatchAndAdvance (Some (Some (ListActionsByTask id s'))) row meta NewExecutionMachine = Ok (Some res, None) →
  (NewStatus res, DActionPayload res) =
    match k with
    | ReportFail => (TaskStatusAborted, Some (message_payload msg))
    | ReportDone => (TaskStatusDone, Some (message_payload msg))
    | Progress => (TaskStatusDone, None)
    end.
Proof.
  intros quiet Hoth Hrow Hst Hold Hme Hm Hnt Hrun He Hb Hh Hd.
  pose proof (report_cases quiet ctx id message qid k msg row s Hrow Hst Hme Hm Hnt) as Hc. cbv zeta in Hc. rewrite Hrun in Hc.
  destruct (too_long msg); [done|]. destruct (if bool_decide _ then _ else _); [done|].
  destruct Hc as (s'' & st & [= Hs _] & Hr). subst s''.
  rewrite (dispatch_outcome _ _ _ _ _ _ Hd He Hb), bool_decide_eq_true_2 by done.
  change (known_actions _) with (ListActionsByTask id s').
  rewrite (reported_intent id k msg s s' Hoth Hold Hr). by destruct k.
Qed.

(** Waiting for a task returns how it ended: at the first poll that finds the
    task in a terminal status, with that status and, for an abort, the reason
    of the most recent one; while it is neither ended nor gone, or the store
    cannot be read, the wait goes on. *)
Theorem wait_returns_first_end taskID id before s after st :
  taskID ≠ "" → IsTerminalStatus st = true →
  (∀ d, Some d ∈ before → ∃ t, find_task taskID d = Some t ∧ rows d !! id = Some t ∧ ID t = id ∧ IsTerminalStatus (Status t) = false) →
  (∃ t, find_task taskID s = Some t ∧ rows s !! id = Some t ∧ ID t = id ∧ Status t = st) →
  WaitTaskTerminal taskID (before ++ Some s :: after) = Some (WaitEnded (outcomeOf id st s)) ∧
  WaitTaskTerminal taskID before = Some WaitCanceled.
Proof.
  intros Hid Hst Hbefore (t & Hf & Hr & Ht & Hts). unfold WaitTaskTerminal, str_empty.
  rewrite bool_decide_eq_false_2 by done.
  assert (∀ resolved, resolved = None ∨ resolved = Some id →
    wait_loop taskID resolved (before ++ Some s :: after) = WaitEnded (outcomeOf id st s) ∧
    wait_loop taskID resolved before = WaitCanceled) as Hloop.
  { induction before as [|d before IH]; intros resolved Hres; simpl.
    - unfold readStatus. destruct Hres as [-> | ->]; rewrite ?Hf, ?Hr; simpl; by rewrite ?Ht, Hts, Hst.
    - destruct d as [d|]; [|by apply IH; [set_solver|]].
      destruct (Hbefore d ltac:(set_solver)) as (u & Hfu & Hru & Hu & Hnt).
      destruct (IH ltac:(set_solver) (Some id) ltac:(by right)) as [IH1 IH2]. unfold readStatus.
      destruct Hres as [-> | ->]; rewrite ?Hfu, ?Hru; simpl; by rewrite ?Hu, Hnt. }
  destruct (Hloop None ltac:(by left)) as [-> ->]. done.
Qed.

(** ** The theorems at a concrete database *)
#[local] Instance sample_notify : NotifyEnv :=
  {| notify_service := sample_service; notifier := Some (λ _ _, true); VerifyRelease := None; newQuestionID := λ _, "q-1" |}.

Lemma reports_are_checked_witness :
  ∃ s' stopped, NotifyTask daemon_ctx "01234567-task" "m" "" (report_of ReportFail "broken") service_db = (s', inr stopped) ∧
    reports_once "01234567-task" ReportFail "broken" service_db s'.
Proof.
  apply (reports_are_checked daemon_ctx "01234567-task" "m" "" ReportFail "broken" executing_task service_db);
    [reflexivity..|discriminate|discriminate|left; by eexists|vm_compute; discriminate|discriminate].
Defined.

(** The agent has reported a failure, and some progress since. *)
Definition failed_db : WDB := (NotifyTask daemon_ctx "01234567-task" "m" "" (report_of ReportFail "broken") service_db).1.
Definition tick (s : WDB) : WDB :=
  set_led s {| card_requests := card_requests (led s); tasks := tasks (led s); jobs := jobs (led s);
               barriers := barriers (led s); actions := actions (led s); clock := clock (led s) + 1; uuids := uuids (led s) |}.

Definition noted_db : WDB :=
  (NotifyTask daemon_ctx "01234567-task" "m" "" (report_of Progress "tidying up") (tick failed_db)).1.
Definition noted_cycle : outcome coord_err (option DispatchResult * option coord_err) :=
  DispatchAndAdvance (Some (Some (ListActionsByTask "01234567-task" noted_db))) executing_task sample_meta NewExecutionMachine.
Definition noted_result : DispatchResult :=
  match noted_cycle with Ok (Some r, _) => r | _ => sample_result end.

Lemma noted_runs :
  NotifyTask daemon_ctx "01234567-task" "m" "" (report_of Progress "tidying up") (tick failed_db) = (noted_db, inr []) ∧
  noted_cycle = Ok (Some noted_result, None).
Proof. split; vm_compute; reflexivity. Qed.

Lemma last_report_decides_witness : (NewStatus noted_result, DActionPayload noted_result) = (TaskStatusDone, None).
Proof.
  apply (last_report_decides daemon_ctx "01234567-task" "m" "" Progress "tidying up" executing_task sample_exec ∅ sample_meta
    noted_result (tick failed_db) noted_db []).
  - intros n d. reflexivity.
  - intros n d Hold. exact Hold.
  - vm_compute. reflexivity.
  - reflexivity.
  - intros a. vm_compute (actions _). intros Hin. repeat (apply elem_of_cons in Hin as [->|Hin]; [intros; vm_compute; reflexivity|]).
    by apply elem_of_nil in Hin.
  - discriminate.
  - discriminate.
  - left. by eexists.
  - exact (proj1 noted_runs).
  - reflexivity.
  - vm_compute. reflexivity.
  - vm_compute. discriminate.
  - exact (proj2 noted_runs).
Defined.

Lemma wait_returns_first_end_witness :
  WaitTaskTerminal "01234567-task" [Some service_db; None; Some failed_db; Some aborted_db] =
    Some (WaitEnded (outcomeOf "01234567-task" TaskStatusAborted aborted_db)).
Proof.
  apply (wait_returns_first_end "01234567-task" "01234567-task" [Some service_db; None; Some failed_db] aborted_db [] TaskStatusAborted).
  - discriminate.
  - reflexivity.
  - intros d Hd. exists executing_task.
    repeat (apply elem_of_cons in Hd as [Hd|Hd]; [first [discriminate Hd | injection Hd as ->; vm_compute; by split_and!]|]). by apply elem_of_nil in Hd.
  - exists (set_Status executing_task TaskStatusAborted). vm_compute. by split_and!.
Defined.
