(* ===== verification/Recovery.v ===== *)
(** * Jobs, and starting up after a crash

    Models the completion of a job (internal/api/workflow_job.go), the job rows
    of internal/dispatcher/store.go, and what the daemon does to the work a
    previous process left behind (the same store.go; reapOrphansBeforeReopen
    and the reopening loop of buildRuntime in internal/server/wire.go).

    Left out: broadcasts, stopping a container, the waiter a completed job
    wakes, and the containers themselves; which of them could not be reaped is
    an argument. *)
From S2P Require Import Prelude Json Payload Task Machine Lifecycle Coordinator Store CardDetail CardRequests CardDispatch TaskStore TaskRows CardWorkflow Workflow Notify.
Open Scope Z_scope.

(** ** Job rows *)
Definition JobStatusRunning : string := "running".
Definition JobStatusCompleted : string := "completed".
Definition JobStatusFailed : string := "failed".

Definition set_jobs (l : DB) (j : gmap string JobRow) : DB :=
  {| card_requests := card_requests l; tasks := tasks l; jobs := j; barriers := barriers l; actions := actions l;
     clock := clock l; uuids := uuids l |}.
Definition update_jobs (f : Z → gmap string JobRow → gmap string JobRow) : taskm unit :=
  time ← now;
  modify (λ s, set_led s (set_jobs (led s) (f time (jobs (led s))))).

Definition GetJob (id : string) : taskm JobRow :=
  j ← gets (λ s, jobs (led s) !! id);
  match j with Some j => mret j | None => throw (WInternal "job not found") end.

(** The columns the UPDATE sets; the others stay. *)
Definition write_job (j : JobRow) (time : Z) (row : JobRow) : JobRow :=
  {| JStatus := JStatus j; JRole := JRole row; JCardRequestID := JCardRequestID row; JTaskID := JTaskID row;
     JProjectID := JProjectID row; JRuntimeID := JRuntimeID j; JExitCode := JExitCode j; JOutput := JOutput j;
     JCreatedAt := JCreatedAt row; JUpdatedAt := time |}.
Definition UpdateJob (id : string) (j : JobRow) : taskm unit := update_jobs (λ time, alter (write_job j time) id).

Definition fail_job (time : Z) (j : JobRow) : JobRow :=
  {| JStatus := JobStatusFailed; JRole := JRole j; JCardRequestID := JCardRequestID j; JTaskID := JTaskID j;
     JProjectID := JProjectID j; JRuntimeID := JRuntimeID j; JExitCode := -1; JOutput := JOutput j;
     JCreatedAt := JCreatedAt j; JUpdatedAt := time |}.
Definition MarkStaleJobsFailed : taskm unit :=
  update_jobs (λ time m, (λ j, if bool_decide (JStatus j = JobStatusRunning) then fail_job time j else j) <$> m).

(** ** Completing a job *)

(** What [s.Meta.Get] has: the projects whose configuration is loaded. *)
Class JobEnv : Type := {
  #[global] job_service :: ServiceEnv;
  meta_loaded : string → bool;
}.

Definition ended_job (j : JobRow) (exitCode : Z) (output : string) : JobRow :=
  {| JStatus := if exitCode =? 0 then JobStatusCompleted else JobStatusFailed; JRole := JRole j;
     JCardRequestID := JCardRequestID j; JTaskID := JTaskID j; JProjectID := JProjectID j; JRuntimeID := JRuntimeID j;
     JExitCode := exitCode; JOutput := output; JCreatedAt := JCreatedAt j; JUpdatedAt := JUpdatedAt j |}.
Definition ended (j : JobRow) : bool := bool_decide (JStatus j = JobStatusCompleted) || bool_decide (JStatus j = JobStatusFailed).

Section jobs.
Context `{JobEnv}.

(** The part a failed job adds: its task is aborted. *)
Definition apply_job_failed (ctx : Ctx) (job : JobRow) : taskm unit :=
  task ← map_err (λ _, WStatus 500) (GetTask (JTaskID job));
  _ ← fail_if (negb (str_empty (JProjectID job)) && negb (meta_loaded (JProjectID job))) (WStatus 500);
  match Apply NewExecutionMachine task (new_action (ID task) "job_failed" REmpty "" "" (ActorTask (ID task))) with
  | Ok newTask =>
      _ ← yield_ 52;
      map_err (λ _, WStatus 500)
        (InTxDB (_ ← UpdateTask newTask;
                 CreateAction_ (CtxWriter ctx)
                   (new_action (ID task) "job_failed" REmpty (Status task) (Status newTask) (ActorTask (ID task)))))
  | _ => mret ()
  end.

Definition CompleteJob (ctx : Ctx) (jobID : string) (exitCode : Z) (output : string) : taskm JobRow :=
  job ← map_err (λ _, WStatus 404) (GetJob jobID);
  if ended job then mret job
  else
    let job := ended_job job exitCode output in
    _ ← yield_ 50;
    _ ← UpdateJob jobID job;
    if exitCode =? 0 then mret job
    else
      _ ← yield_ 51;
      _ ← apply_job_failed ctx job;
      mret job.
End jobs.

(** ** What the previous process left *)
Definition shutdown_payload (message : string) : raw := string_map [("code", "daemon_shutdown"); ("message", message)].

Section startup.
Context `{ServiceEnv}.
(** the text shown for an interrupted task *)
Context (message : string).

Definition set_task_status (t : Task) (st : TaskStatus) (time : Z) : Task := with_updated_at (set_Status t st) time.

(** The rows of one status, in no particular order. *)
Definition ids_in (st : TaskStatus) (s : WDB) : list string :=
  (map_to_list (filter (λ kv, Status kv.2 = st) (rows s))).*1.

Definition stale_action (aid id : string) (from : TaskStatus) (time : Z) : Action :=
  {| AID := aid; ATaskID := id; AType := "abort"; APayload := shutdown_payload message; AFromStatus := from;
     AToStatus := TaskStatusAborted; ACreatedAt := time; Actor := ActorDaemon |}.
Definition abort_stale (from : TaskStatus) (id : string) : taskm unit :=
  time ← now;
  _ ← on_ledger (aid ← new_uuid uuid;
                 modify (λ l, set_actions l (actions l ++ [stale_action aid id from time])));
  modify (λ s, set_rows s (alter (λ t, set_task_status t TaskStatusAborted time) id (rows s))).
Definition markStaleTasksAborted (from : TaskStatus) : taskm nat :=
  InTxDB (ids ← gets (ids_in from);
          _ ← for_each (abort_stale from) ids;
          mret (length ids)).
Definition MarkStaleExecutingTasksAborted : taskm nat := markStaleTasksAborted TaskStatusExecuting.
Definition MarkStaleAwaitingTasksAborted : taskm nat := markStaleTasksAborted TaskStatusAwaiting.

(** The code of the latest abort is that of a shutdown; a payload that does
    not decode is none. *)
Definition shut_down (taskID : string) (s : WDB) : bool :=
  match last (filter (λ a, AToStatus a = TaskStatusAborted) (ListActionsByTask taskID s)) with
  | Some a =>
      match APayload a with
      | RText _ v => match decode_struct ["code"] v with ([c], true) => bool_decide (c = "daemon_shutdown") | _ => false end
      | _ => false
      end
  | None => false
  end.
Definition FindDaemonShutdownAbortedTasks (s : WDB) : list string :=
  filter (λ id, shut_down id s = true) (ids_in TaskStatusAborted s).

(** What reaping the containers of the previous process reported. *)
Record ReapReport : Type := { ReapFailed : bool; FailedJobIDs : list string }.

Definition reapOrphansBeforeReopen (report : ReapReport) (s : WDB) : gset string * bool :=
  (list_to_set (omap (λ id, j ← jobs (led s) !! id; if str_empty (JTaskID j) then None else Some (JTaskID j)) (FailedJobIDs report)),
   ReapFailed report).

Definition held_back (skip : gset string * bool) (id : string) : bool := skip.2 || bool_decide (id ∈ skip.1).

Fixpoint auto_reopen (skip : gset string * bool) (ids : list string) : taskm unit :=
  match ids with
  | [] => mret ()
  | id :: ids =>
      _ ← (if held_back skip id then mret () else best_effort (ApplyAction daemon_ctx id "reopen" REmpty));
      auto_reopen skip ids
  end.

(** The steps of buildRuntime that recover. *)
Definition startup (report : ReapReport) : taskm unit :=
  _ ← MarkStaleJobsFailed;
  _ ← try_ MarkStaleExecutingTasksAborted;
  _ ← try_ MarkStaleAwaitingTasksAborted;
  skip ← gets (reapOrphansBeforeReopen report);
  ids ← gets FindDaemonShutdownAbortedTasks;
  auto_reopen skip ids.
End startup.

(** ** Marking what was interrupted *)

(** A row of a process that is gone. *)
Definition interrupted (t : Task) : bool := bool_decide (Status t ∈ [TaskStatusExecuting; TaskStatusAwaiting]).
Definition stop_in (st : TaskStatus) (time : Z) (t : Task) : Task :=
  if bool_decide (Status t = st) then set_task_status t TaskStatusAborted time else t.
Definition stop (time : Z) (t : Task) : Task := if interrupted t then set_task_status t TaskStatusAborted time else t.

(** The tables that are left alone. *)
Record beside (s s' : WDB) : Prop := {
  bs_jobs : jobs (led s') = jobs (led s);
  bs_requests : card_requests (led s') = card_requests (led s);
  bs_clock : clock (led s') = clock (led s);
}.
Lemma beside_refl s : beside s s.
Proof. done. Qed.
Lemma beside_trans a b c : beside a b → beside b c → beside a c.
Proof. intros [] []. split; congruence. Qed.

(** The actions of one task that were added. *)
Definition new_of (id : string) (l : list Action) : list Action := filter (λ a, ATaskID a = id) l.

Section marking.
Context `{ServiceEnv} (message : string).

Definition marks (st : TaskStatus) (time : Z) (id : string) (a : Action) : Prop :=
  ATaskID a = id ∧ AFromStatus a = st ∧ AToStatus a = TaskStatusAborted ∧ APayload a = shutdown_payload message ∧ ACreatedAt a = time.

Lemma abort_all_spec st ids s :
  ∃ s' added, for_each (abort_stale message st) ids s = (s', inr ()) ∧ beside s s' ∧
    rows s' = foldr (λ id m, alter (λ t, set_task_status t TaskStatusAborted (clock (led s))) id m) (rows s) (reverse ids) ∧
    actions (led s') = actions (led s) ++ added ∧ Forall2 (marks st (clock (led s))) ids added.
Proof.
  revert s. induction ids as [|id ids IH]; intros s; [by exists s, []; rewrite app_nil_r|].
  cbn [for_each]. set (s1 := (abort_stale message st id s).1).
  assert (abort_stale message st id s = (s1, inr ())) as H1 by done. rewrite (bind_run _ _ _ _ _ H1).
  destruct (IH s1) as (s' & added & Hr & Hb & Hrows & Hacts & Hf). set (a := stale_action message (uuid (uuids (led s))) id st (clock (led s))).
  exists s', (a :: added). split_and!.
  - exact Hr.
  - eapply beside_trans; [|exact Hb]. done.
  - rewrite Hrows, reverse_cons, foldr_app. done.
  - rewrite Hacts. by change (actions (led s1)) with (actions (led s) ++ [a]); rewrite <- app_assoc.
  - by constructor.
Qed.

Lemma alter_all_lookup (f : Task → Task) ids (m : gmap string Task) id :
  NoDup ids → foldr (λ i m, alter f i m) m ids !! id = (if bool_decide (id ∈ ids) then f <$> m !! id else m !! id).
Proof.
  induction ids as [|i ids IH]; intros Hnd; [done|]. apply NoDup_cons in Hnd as [Hni Hnd]. cbn [foldr].
  destruct (decide (i = id)) as [->|Hne].
  - rewrite lookup_alter_eq, IH by done. rewrite (bool_decide_true (id ∈ id :: ids)) by set_solver. by rewrite bool_decide_false.
  - rewrite lookup_alter_ne, IH by done. by rewrite (bool_decide_ext (id ∈ i :: ids) (id ∈ ids)) by set_solver.
Qed.

Lemma new_of_none st time ids added id : Forall2 (marks st time) ids added → id ∉ ids → new_of id added = [].
Proof.
  induction 1 as [|i a ids added Ha _ IH]; intros Hni; [done|]. apply not_elem_of_cons in Hni as [Hne Hni]. unfold new_of.
  rewrite filter_cons_False; [by apply IH|]. destruct Ha as [-> _]. congruence.
Qed.
Lemma new_of_one st time ids added id :
  NoDup ids → Forall2 (marks st time) ids added → id ∈ ids → ∃ a, new_of id added = [a] ∧ marks st time id a.
Proof.
  intros Hnd HF. revert Hnd. induction HF as [|i a ids added Ha HF IH]; intros Hnd Hin; [by apply elem_of_nil in Hin|].
  apply NoDup_cons in Hnd as [Hni Hnd]. apply elem_of_cons in Hin as [->|Hin].
  - exists a. split; [|done]. unfold new_of. rewrite filter_cons_True by apply Ha. f_equal. by eapply new_of_none.
  - destruct (IH Hnd Hin) as (b & Hb & Hm). exists b. split; [|done]. unfold new_of. rewrite filter_cons_False; [done|].
    destruct Ha as [-> _]. congruence.
Qed.

Lemma ids_in_spec st s id : id ∈ ids_in st s ↔ ∃ t, rows s !! id = Some t ∧ Status t = st.
Proof.
  unfold ids_in. rewrite list_elem_of_fmap. split.
  - intros ([k t] & -> & [Ht Hs]%elem_of_map_to_list%map_lookup_filter_Some). by exists t.
  - intros (t & Ht & Hs). exists (id, t). split; [done|]. apply elem_of_map_to_list, map_lookup_filter_Some. done.
Qed.
Lemma ids_in_nodup st s : NoDup (ids_in st s).
Proof. apply NoDup_fst_map_to_list. Qed.

Lemma mark_spec st s :
  ∃ s' n added, markStaleTasksAborted message st s = (s', inr n) ∧ beside s s' ∧
    rows s' = stop_in st (clock (led s)) <$> rows s ∧ actions (led s') = actions (led s) ++ added ∧
    ∀ id, match rows s !! id with
          | Some t => if bool_decide (Status t = st) then ∃ a, new_of id added = [a] ∧ marks st (clock (led s)) id a else new_of id added = []
          | None => new_of id added = []
          end.
Proof.
  destruct (abort_all_spec st (ids_in st s) s) as (s' & added & Hr & Hb & Hrows & Ha & HF).
  exists s', (length (ids_in st s)), added. split_and!; [|done| |done|].
  - unfold markStaleTasksAborted, InTxDB. rewrite bind_gets, (bind_run _ _ _ _ _ Hr). done.
  - rewrite Hrows. apply map_eq. intros id. rewrite lookup_fmap, alter_all_lookup by (rewrite reverse_Permutation; apply ids_in_nodup).
    case_bool_decide as Hin.
    + rewrite elem_of_reverse in Hin.
      apply ids_in_spec in Hin as (t & -> & Hs). cbn. unfold stop_in. by rewrite bool_decide_true.
    + destruct (rows s !! id) as [t|] eqn:Ht; [|done]. cbn. unfold stop_in. rewrite bool_decide_false; [done|].
      intros Hs. apply Hin. rewrite elem_of_reverse. apply ids_in_spec. by exists t.
  - intros id. destruct (rows s !! id) as [t|] eqn:Ht.
    + case_bool_decide as Hs; [apply (new_of_one _ _ (ids_in st s)); [apply ids_in_nodup|done|apply ids_in_spec; by exists t]|].
      apply (new_of_none _ _ _ _ _ HF). rewrite ids_in_spec. intros (u & Hu & Hus). congruence.
    + apply (new_of_none _ _ _ _ _ HF). rewrite ids_in_spec. intros (u & Hu & Hus). congruence.
Qed.
End marking.

Section recovery.
Context `{ServiceEnv} (message : string).

Definition fail_running (time : Z) (j : JobRow) : JobRow := if bool_decide (JStatus j = JobStatusRunning) then fail_job time j else j.

(** What the first three steps leave. *)
Record marked (s s2 : WDB) (added : list Action) : Prop := {
  mk_jobs : jobs (led s2) = fail_running (clock (led s)) <$> jobs (led s);
  mk_requests : card_requests (led s2) = card_requests (led s);
  mk_clock : clock (led s2) = clock (led s);
  mk_rows : rows s2 = stop (clock (led s)) <$> rows s;
  mk_actions : actions (led s2) = actions (led s) ++ added;
  mk_one : ∀ id t, rows s !! id = Some t → interrupted t = true →
    ∃ a, new_of id added = [a] ∧ marks message (Status t) (clock (led s)) id a;
  mk_none : ∀ id t, rows s !! id = Some t → interrupted t = false → new_of id added = [];
}.

Lemma stop_twice time t : stop_in TaskStatusAwaiting time (stop_in TaskStatusExecuting time t) = stop time t.
Proof.
  unfold stop_in, stop, interrupted. destruct (decide (Status t = TaskStatusExecuting)) as [He|He].
  - rewrite (bool_decide_true (Status t = TaskStatusExecuting)), bool_decide_false by done. by rewrite bool_decide_true by set_solver.
  - rewrite (bool_decide_false (Status t = TaskStatusExecuting)) by done.
    destruct (decide (Status t = TaskStatusAwaiting)); [rewrite !bool_decide_true by set_solver|rewrite !bool_decide_false by set_solver]; done.
Qed.

Lemma startup_marks report s :
  ∃ s2 added, marked s s2 added ∧
    startup message report s = auto_reopen (reapOrphansBeforeReopen report s2) (FindDaemonShutdownAbortedTasks s2) s2.
Proof.
  set (s0 := (MarkStaleJobsFailed s).1). assert (MarkStaleJobsFailed s = (s0, inr ())) as H0 by done.
  destruct (mark_spec message TaskStatusExecuting s0) as (s1 & n1 & ad1 & H1 & B1 & R1 & A1 & N1).
  destruct (mark_spec message TaskStatusAwaiting s1) as (s2 & n2 & ad2 & H2 & B2 & R2 & A2 & N2).
  change (rows s0) with (rows s) in R1, N1. change (clock (led s0)) with (clock (led s)) in R1, N1. change (actions (led s0)) with (actions (led s)) in A1.
  pose proof (beside_trans _ _ _ B1 B2) as B. destruct B1 as [_ _ C1]. change (clock (led s0)) with (clock (led s)) in C1. rewrite C1 in R2, N2.
  exists s2, (ad1 ++ ad2). split.
  - split; [by rewrite (bs_jobs _ _ B)|by rewrite (bs_requests _ _ B)|by rewrite (bs_clock _ _ B)| | | |].
    + rewrite R2, R1, <- map_fmap_compose. apply map_fmap_ext. intros id t _. apply stop_twice.
    + by rewrite A2, A1, app_assoc.
    + intros id t Ht Hi. unfold new_of. rewrite filter_app. specialize (N1 id). specialize (N2 id). rewrite Ht in N1.
      rewrite R1, lookup_fmap, Ht in N2. cbn [fmap option_fmap option_map] in N2. unfold stop_in in N2.
      destruct (decide (Status t = TaskStatusExecuting)) as [He|He].
      * rewrite (bool_decide_true (Status t = _)) in N1, N2 by done. rewrite bool_decide_false in N2 by done. destruct N1 as (a & Ha & Hm).
        exists a. unfold new_of in Ha, N2. rewrite Ha, N2, He. done.
      * rewrite (bool_decide_false (Status t = _)) in N1, N2 by done.
        apply bool_decide_eq_true in Hi. assert (Status t = TaskStatusAwaiting) as Hw by set_solver.
        rewrite bool_decide_true in N2 by done. destruct N2 as (a & Ha & Hm). exists a. unfold new_of in N1, Ha. rewrite N1, Ha, Hw. done.
    + intros id t Ht Hi. unfold new_of. rewrite filter_app. specialize (N1 id). specialize (N2 id). rewrite Ht in N1.
      rewrite R1, lookup_fmap, Ht in N2. cbn [fmap option_fmap option_map] in N2. unfold stop_in in N2. apply bool_decide_eq_false in Hi.
      rewrite (bool_decide_false (Status t = _)) in N1, N2 by set_solver. rewrite bool_decide_false in N2 by set_solver.
      unfold new_of in N1, N2. by rewrite N1, N2.
  - unfold startup. rewrite (bind_run _ _ _ _ _ H0). unfold MarkStaleExecutingTasksAborted, MarkStaleAwaitingTasksAborted.
    rewrite (bind_run _ _ s0 s1 (inr n1)) by (unfold try_; by rewrite H1). rewrite (bind_run _ _ s1 s2 (inr n2)) by (unfold try_; by rewrite H2).
    by rewrite !bind_gets.
Qed.

Lemma shut_down_marked s s2 added id t :
  marked s s2 added → log_old id s → rows s !! id = Some t → shut_down id s2 = interrupted t || shut_down id s.
Proof.
  intros M Hold Ht. unfold shut_down, ListActionsByTask. rewrite (mk_actions _ _ _ M), filter_app. destruct (interrupted t) eqn:Hi.
  - destruct (mk_one _ _ _ M id t Ht Hi) as (a & Ha & Hid & _ & Hto & Hp & Hat). unfold new_of in Ha. rewrite Ha.
    destruct (last_listed id a (actions (led s)) Hid) as [older Heq].
    { intros b Hb Hbid. rewrite Hat. by apply Hold. }
    rewrite filter_app, filter_cons_True, filter_nil in Heq by done. rewrite Heq, filter_app, filter_cons_True, filter_nil by done.
    rewrite last_snoc, Hp. by vm_compute.
  - pose proof (mk_none _ _ _ M id t Ht Hi) as Hn. unfold new_of in Hn. by rewrite Hn, app_nil_r.
Qed.

Lemma found_spec s s2 added id :
  marked s s2 added → (∀ id, log_old id s) →
  id ∈ FindDaemonShutdownAbortedTasks s2 ↔
  ∃ t, rows s !! id = Some t ∧ (interrupted t = true ∨ (Status t = TaskStatusAborted ∧ shut_down id s = true)).
Proof.
  intros M Hold. unfold FindDaemonShutdownAbortedTasks. rewrite list_elem_of_filter, ids_in_spec, (mk_rows _ _ _ M), lookup_fmap. split.
  - intros [Hs (t' & Ht' & Hst)]. destruct (rows s !! id) as [t|] eqn:Ht; [|done]. injection Ht' as <-. exists t. split; [done|].
    rewrite (shut_down_marked _ _ _ _ _ M (Hold id) Ht) in Hs. unfold stop in Hst. destruct (interrupted t); [by left|right]. done.
  - intros (t & Ht & Hcase). rewrite (shut_down_marked _ _ _ _ _ M (Hold id) Ht), Ht. cbn. unfold stop.
    destruct (interrupted t) eqn:Hi; [split; [done|]; by eexists|]. destruct Hcase as [?|[Hst Hsd]]; [done|]. split; [done|]. by exists t.
Qed.
End recovery.

(** ** Reopening *)
Section reopening.
Context `{ServiceEnv}.
(** Nothing else runs while the daemon starts. *)
Context (alone : ∀ n s, others n s = s) (idle : ∀ c s, tryDispatchQueuedCardRequest c s = s).

(** The rows of the tables as far as the unique indexes go. *)
Definition same_keys (s s' : WDB) : Prop :=
  ∀ id, (λ t, (ID t, Type_ t, (ParentID t, ProjectID t, WorkspaceID t), (Ref t, IdempotencyKey t))) <$> rows s' !! id =
        (λ t, (ID t, Type_ t, (ParentID t, ProjectID t, WorkspaceID t), (Ref t, IdempotencyKey t))) <$> rows s !! id.

Lemma same_keys_refl s : same_keys s s.
Proof. done. Qed.
Lemma same_keys_trans a b c : same_keys a b → same_keys b c → same_keys a c.
Proof. intros Hab Hbc id. by rewrite Hbc. Qed.

Lemma same_keys_unique s s' : same_keys s s' → unique_rows s → unique_rows s'.
Proof.
  intros Hk Hu id t Ht. apply index_clash_false. intros j o Ho.
  pose proof (Hk id) as Hi. pose proof (Hk j) as Hj. rewrite Ht in Hi. rewrite Ho in Hj.
  destruct (rows s !! id) as [t0|] eqn:Ht0; [|done]. destruct (rows s !! j) as [o0|] eqn:Ho0; [|done].
  cbn in Hi, Hj. injection Hi as H1 _ H2 H3 H4 H5 H6. injection Hj as G1 _ G2 G3 G4 G5 G6.
  pose proof (proj1 (index_clash_false t0 s) (Hu _ _ Ht0) j o0 Ho0) as Hc. unfold clashes, same_scope in *.
  by rewrite H1, H2, H3, H4, H5, H6, G1, G2, G3, G4, G5, G6.
Qed.

Definition reopened (t : Task) (time : Z) : Task :=
  with_updated_at (match Exec t with
                   | Some e => set_Payload (set_Status t TaskStatusExecuting) (if len0 (Payload e) then raw_obj0 else Payload e)
                   | None => set_Status t TaskStatusExecuting
                   end) time.

(** A project that can run the task. *)
Definition runnable (t : Task) : bool :=
  match TaskMeta t with Some (Some m) => negb (bool_decide (m = ∅)) | _ => false end.

Lemma slot_occupied_reads c : steps eq (cardSpecOrExecutionSlotOccupied c).
Proof.
  assert (∀ A (m : fallible A), steps eq (lift m)) as Hlift by (intros A m s; by destruct m).
  unfold cardSpecOrExecutionSlotOccupied, cardSpecSlotOccupied, GetTask, GetTaskTriage. steps_tac. 
Qed.
Lemma reopen_slot_reads t s : (check_reopen_slot "reopen" t s).1 = s.
Proof.
  pose proof slot_occupied_reads as Hocc. assert (steps eq (check_reopen_slot "reopen" t)) as Hr; [|symmetry; apply Hr].
  unfold check_reopen_slot, GetTask. steps_tac.
Qed.

(** What reopening one aborted task comes to. *)
Lemma reopen_run id t s :
  typed s → unique_rows s → rows s !! id = Some t → Status t = TaskStatusAborted →
  (∃ e, ApplyAction daemon_ctx id "reopen" REmpty s = (s, inl e) ∧
        (ValidateContentSize (payload_len REmpty) = true → runnable t = true →
         ∃ e', check_reopen_slot "reopen" t s = (s, inl e'))) ∨
  (∃ s' app, ApplyAction daemon_ctx id "reopen" REmpty s = (s', inr app) ∧ beside s s' ∧
     rows s' = <[id := reopened t (clock (led s))]> (rows s) ∧ check_reopen_slot "reopen" t s = (s, inr ())).
Proof.
  intros Hty Hu Ht Hst. destruct (Hty id t Ht) as [Hid Hchk]. subst id.
  assert (Type_ t = TaskTypeExecution ∧ Card t = None ∧ ∃ e, Exec t = Some e) as (Htype & Hcard & e & He).
  { unfold row_check, validateTaskTypeConsistency in Hchk. rewrite Hst in Hchk.
    destruct (Type_ t); [by destruct (Card t), (Exec t)|]. destruct (Exec t), (Card t); try done. by eauto. }
  assert (Hgt : GetTask (ID t) s = (s, inr t)) by (unfold GetTask, find_task; rewrite bind_gets, Ht; done).
  unfold ApplyAction, applyAction. rewrite bind_fail_if.
  destruct (ValidateContentSize (payload_len REmpty)) eqn:Hsize; [cbn [negb]|left; eexists; split; [done|discriminate]].
  rewrite (bind_run _ _ _ s t) by (unfold map_err; by rewrite Hgt). cbv zeta. unfold machineFor. rewrite Htype.
  change (bool_decide (MName NewExecutionMachine = CardMachineName)) with false. cbv iota. cbn [andb].
  change (IsManualAction NewExecutionMachine "reopen") with true. rewrite !bind_fail_if. cbn [negb].
  rewrite (bind_run (yield_ 0) _ s s ()) by (unfold yield_, modify; by rewrite alone).
  change (bool_decide ("reopen" = "go")) with false. change (bool_decide ("reopen" = "answered")) with false. cbv iota.
  destruct (runnable t) eqn:Hrun.
  2: { left. unfold runnable in Hrun. exists (WStatus 500). split; [|discriminate]. unfold prepare_action.
       destruct (TaskMeta t) as [[m|]|]; [|done..]. rewrite Htype. apply negb_false_iff in Hrun. rewrite Hrun. done. }
  unfold runnable in Hrun. destruct (TaskMeta t) as [[m|]|] eqn:Hm; [|done..]. apply negb_true_iff in Hrun.
  set (nt := set_Payload (set_Status t TaskStatusExecuting) (if len0 (Payload e) then raw_obj0 else Payload e)).
  set (p := {| PrTask := nt; PrAction := new_action (ID t) "reopen" REmpty (Status t) TaskStatusExecuting ActorDaemon; PrParsed := PNothing; PrMeta := Some m |}).
  assert (Hap : Apply NewExecutionMachine t (new_action (ID t) "reopen" REmpty "" "" (CtxActor daemon_ctx)) = Ok (set_Status t TaskStatusExecuting)).
  { unfold Apply. cbn [AType new_action]. destruct t. cbn in Hst. subst. reflexivity. }
  assert (Hprep : prepare_action daemon_ctx t NewExecutionMachine "reopen" REmpty false s = (s, inr p)).
  { unfold prepare_action. rewrite Hm, Htype, Hrun. change (bool_decide (TaskTypeExecution = TaskTypeExecution) && bool_decide ("reopen" ∈ ["start"; "reopen"]) && false) with false.
    cbv iota. rewrite (bind_run _ _ s s (Some m)) by done. unfold resolveAttrsSetDoneTransition.
    change (doneCardWritableActions (AType (new_action (ID t) "reopen" REmpty "" "" (CtxActor daemon_ctx)))) with false. cbn [andb].
    rewrite Hap. rewrite (bind_run _ _ s s (set_Status t TaskStatusExecuting)) by done. cbv zeta. cbn [len0 negb]. rewrite andb_false_r.
    cbn [Exec set_Status]. rewrite He. change (false || SideEffectConsumesPayload "reopen") with false. cbv iota.
    rewrite (bind_run _ _ s s nt); [reflexivity|]. unfold MergePayload. cbn [blank]. reflexivity. }
  rewrite (bind_run _ _ _ _ _ Hprep), (bind_run (yield_ 1) _ s s ()) by (unfold yield_, modify; by rewrite alone).
  unfold InTxDB, map_err, commit_action. change (AType (PrAction p)) with "reopen". change (PrTask p) with nt.
  change (check_reopen_slot "reopen" nt) with (check_reopen_slot "reopen" t).
  pose proof (reopen_slot_reads t s) as Hslot. destruct (check_reopen_slot "reopen" t s) as [s0 [e0|[]]] eqn:Hck; cbn in Hslot; subst s0.
  { left. unfold mbind at 1, dbm_bind at 1. rewrite (bind_stop _ _ _ _ _ Hck). exists (txStatus e0). split; [done|]. by exists e0. }
  right. unfold mbind at 1, dbm_bind at 1. rewrite (bind_run _ _ _ _ _ Hck). change (skipTaskUpdate "reopen") with false. cbv iota.
  assert (Hupd : UpdateTask nt s = (set_rows s (<[ID t := with_updated_at nt (clock (led s))]> (rows s)), inr ())).
  { apply UpdateTask_over; [done|by eapply Hu|apply same_identity_payload|].
    revert Hchk. unfold row_check, validateTaskTypeConsistency, nt. cbn [Type_ Card Exec set_Payload set_Status Status WorkspaceID].
    rewrite Htype, Hcard, He. cbn [fmap option_fmap option_map]. rewrite Hst. done. }
  rewrite (bind_run _ _ _ _ _ (bind_run _ _ _ _ _ Hupd)). cbn [fst snd].
  destruct (CreateAction__run (CtxWriter daemon_ctx) (ID t) "reopen" REmpty (Status t) TaskStatusExecuting ActorDaemon
    (set_rows s (<[ID t := with_updated_at nt (clock (led s))]> (rows s)))) as (s' & Hc & Hr & (Hcl & Hj & Hq) & _).
  { cbn. rewrite lookup_insert_eq. by eexists. }
  { vm_compute. intros Hin. repeat (apply elem_of_cons in Hin as [Hin|Hin]; [done|]). by apply elem_of_nil in Hin. }
  change (PrAction p) with (new_action (ID t) "reopen" REmpty (Status t) TaskStatusExecuting ActorDaemon). rewrite (bind_run _ _ _ _ _ Hc).
  change (bool_decide (MName NewExecutionMachine = CardMachineName)) with false. cbn [andb]. erewrite bind_run by done.
  change (PrParsed p) with PNothing. unfold side_effect. change (bool_decide ("reopen" = "drop")) with false. cbv iota. erewrite bind_run by done.
  change ((mret ?x : taskm (Task * Action)) s') with (s', inr x : werr + Task * Action). cbv iota.
  erewrite bind_run by (unfold modify; rewrite idle; done). eexists s', _. split_and!; [done|by split| |done].
  rewrite Hr. unfold reopened. by rewrite He.
Qed.

(** A task whose slot is not a card's. *)
Definition free_of_cards (t : Task) (s : WDB) : Prop :=
  ParentID t = "" ∨ ∃ p, rows s !! ParentID t = Some p ∧ Type_ p = TaskTypeExecution.
Lemma slot_free t s : free_of_cards t s → check_reopen_slot "reopen" t s = (s, inr ()).
Proof.
  unfold check_reopen_slot. intros [->|(p & Hp & Htp)]; [done|]. change (bool_decide ("reopen" = "reopen")) with true. cbn [andb].
  destruct (str_empty (ParentID t)); [done|]. cbn [negb]. unfold GetTask, find_task, try_, mbind, dbm_bind, gets. rewrite Hp. cbn. by rewrite Htp.
Qed.

(** A card that has a request running. *)
Definition busy_card (t : Task) (s : WDB) : Prop :=
  ParentID t ≠ "" ∧ ∃ card, rows s !! ParentID t = Some card ∧ Type_ card = TaskTypeCard ∧ (0 < CountActiveCardRequests (ID card) (led s))%nat.
Lemma slot_busy t s : busy_card t s → ∃ e, check_reopen_slot "reopen" t s = (s, inl e).
Proof.
  unfold check_reopen_slot. intros (Hne & card & Hp & Htp & Hn). change (bool_decide ("reopen" = "reopen")) with true. cbn [andb].
  assert (str_empty (ParentID t) = false) as -> by by apply bool_decide_eq_false. cbn [negb].
  unfold GetTask, find_task, cardSpecOrExecutionSlotOccupied, try_, mbind, dbm_bind, gets. rewrite Hp. cbn. rewrite Htp. cbn.
  change (bool_decide (TaskTypeCard = TaskTypeCard)) with true. cbv beta iota. destruct (CountActiveCardRequests (ID card) (led s)); [lia|]. by eexists.
Qed.

Lemma parent_type t s s' p :
  same_keys s s' → rows s !! ParentID t = Some p → ∃ p', rows s' !! ParentID t = Some p' ∧ Type_ p' = Type_ p ∧ ID p' = ID p.
Proof.
  intros Hk Hp. pose proof (Hk (ParentID t)) as Hq. rewrite Hp in Hq. destruct (rows s' !! ParentID t) as [p'|]; [|done].
  injection Hq as ? ? _. by exists p'.
Qed.
Lemma free_of_cards_kept t s s' : same_keys s s' → free_of_cards t s → free_of_cards t s'.
Proof.
  intros Hk [Hp|(p & Hp & Hty)]; [by left|right]. destruct (parent_type t s s' p Hk Hp) as (p' & Hp' & Hty' & _). exists p'. by rewrite Hty'.
Qed.
Lemma busy_card_kept t s s' : same_keys s s' → card_requests (led s') = card_requests (led s) → busy_card t s → busy_card t s'.
Proof.
  intros Hk Hr (Hne & card & Hp & Hty & Hn). destruct (parent_type t s s' card Hk Hp) as (p' & Hp' & Hty' & Hid). split; [done|].
  exists p'. rewrite Hty', Hid. split_and!; [done..|]. unfold CountActiveCardRequests in *. by rewrite Hr.
Qed.

Lemma reopened_check t time : row_check t = true → Status t = TaskStatusAborted → row_check (reopened t time) = true.
Proof.
  unfold reopened. rewrite with_updated_at_check. unfold row_check, validateTaskTypeConsistency. intros Hc Hst. rewrite Hst in Hc.
  destruct (Type_ t) eqn:Hty; [by destruct (Card t), (Exec t)|]. destruct (Exec t) as [e|] eqn:He; [|by destruct (Card t)].
  destruct (Card t) eqn:Hca; [done|]. cbn. rewrite Hty, He, Hca. done.
Qed.
Lemma reopened_keys id t time s : rows s !! id = Some t → same_keys s (set_rows s (<[id := reopened t time]> (rows s))).
Proof.
  intros Ht j. cbn. destruct (decide (id = j)) as [<-|Hne]; [rewrite lookup_insert_eq, Ht|by rewrite lookup_insert_ne].
  cbn. unfold reopened. by destruct (Exec t).
Qed.

(** The whole loop: who is left alone, and what becomes of the others. *)
Lemma auto_reopen_spec skip ids s :
  typed s → unique_rows s → NoDup ids → (∀ id, id ∈ ids → ∃ t, rows s !! id = Some t ∧ Status t = TaskStatusAborted) →
  ∃ s', auto_reopen skip ids s = (s', inr ()) ∧ beside s s' ∧
    (∀ id, id ∉ ids ∨ held_back skip id = true → rows s' !! id = rows s !! id) ∧
    (∀ id t, id ∈ ids → held_back skip id = false → rows s !! id = Some t →
       (ValidateContentSize (payload_len REmpty) = true → runnable t = true → free_of_cards t s → rows s' !! id = Some (reopened t (clock (led s)))) ∧
       (busy_card t s → rows s' !! id = Some t)).
Proof.
  revert s. induction ids as [|id ids IH]; intros s Hty Hu Hnd Hab.
  { exists s. split_and!; [done|done|done|]. intros id t Hin. by apply elem_of_nil in Hin. }
  apply NoDup_cons in Hnd as [Hni Hnd]. cbn [auto_reopen].
  assert (∃ s1, (if held_back skip id then mret () else best_effort (ApplyAction daemon_ctx id "reopen" REmpty)) s = (s1, inr ()) ∧ beside s s1 ∧
    same_keys s s1 ∧ typed s1 ∧ (∀ j, j ≠ id → rows s1 !! j = rows s !! j) ∧
    (held_back skip id = true → rows s1 !! id = rows s !! id) ∧
    (held_back skip id = false → ∀ t, rows s !! id = Some t →
      (ValidateContentSize (payload_len REmpty) = true → runnable t = true → free_of_cards t s → rows s1 !! id = Some (reopened t (clock (led s)))) ∧
      (busy_card t s → rows s1 !! id = Some t))) as (s1 & H1 & B1 & K1 & T1 & O1 & Hh & Hr).
  { destruct (held_back skip id); [exists s; by split_and!|]. destruct (Hab id) as (t & Ht & Hst); [by left|].
    unfold best_effort, try_, mbind, dbm_bind.
    destruct (reopen_run id t s Hty Hu Ht Hst) as [(e & -> & Hwhy)|(s1 & app & -> & B1 & R1 & Hok)].
    - exists s. split_and!; try done. intros _ u Hu'. assert (u = t) as -> by congruence. split; [|done].
      intros Hsz Hrn Hfr. destruct (Hwhy Hsz Hrn) as [e' He']. by rewrite slot_free in He'.
    - exists s1. pose proof (reopened_keys id t (clock (led s)) s Ht) as K. split_and!; try done.
      + intros j. rewrite R1. exact (K j).
      + intros j u. rewrite R1. intros [[<- <-]|[Hne Hj]]%lookup_insert_Some; [|by apply Hty]. destruct (Hty id t Ht) as [Hid Hc].
        split; [unfold reopened; by destruct (Exec t)|by apply reopened_check].
      + intros j Hne. by rewrite R1, lookup_insert_ne.
      + intros _ u Hu'. assert (u = t) as -> by congruence. split; [intros _ _ _; by rewrite R1, lookup_insert_eq|].
        intros Hb. destruct (slot_busy t s Hb) as [e He]. congruence. }
  rewrite (bind_run _ _ _ _ _ H1).
  destruct (IH s1) as (s' & Hs' & B' & O' & R'); [done|by eapply same_keys_unique|done| |].
  { intros j Hj. rewrite O1 by (intros ->; done). apply Hab. by right. }
  exists s'. split; [done|]. split; [by eapply beside_trans|]. split.
  - intros j [Hj|Hj].
    + apply not_elem_of_cons in Hj as [Hne Hj]. rewrite O' by by left. by apply O1.
    + rewrite O' by by right. destruct (decide (j = id)) as [->|Hne]; [by apply Hh|by apply O1].
  - intros j t [->|Hj]%elem_of_cons Hheld Hjt.
    + rewrite O' by by left. by apply Hr.
    + assert (j ≠ id) as Hne by (intros ->; done). destruct (R' j t Hj Hheld) as [Hgo Hstay]; [by rewrite O1|].
      rewrite (bs_clock _ _ B1) in Hgo. split.
      * intros Hsz Hrn Hfr. apply Hgo; [done|done|by eapply free_of_cards_kept].
      * intros Hb. apply Hstay. eapply busy_card_kept; [done|apply B1|done].
Qed.
End reopening.

(** ** Starting up *)
Section start.
Context `{ServiceEnv} (message : string).
Context (alone : ∀ n s, others n s = s) (idle : ∀ c s, tryDispatchQueuedCardRequest c s = s).

Lemma reap_marked report s s2 added : marked message s s2 added → reapOrphansBeforeReopen report s2 = reapOrphansBeforeReopen report s.
Proof.
  intros M. unfold reapOrphansBeforeReopen. f_equal. f_equal. apply list_omap_ext. apply Forall_Forall2_diag, Forall_true. intros id.
  rewrite (mk_jobs _ _ _ _ M), lookup_fmap. destruct (jobs (led s) !! id) as [j|]; [|done]. cbn. unfold fail_running. by case_bool_decide.
Qed.

Lemma stop_keys s s2 added : marked message s s2 added → same_keys s s2.
Proof.
  intros M id. rewrite (mk_rows _ _ _ _ M), lookup_fmap. destruct (rows s !! id) as [t|]; [|done]. cbn. unfold stop. by destruct (interrupted t).
Qed.
Lemma stop_typed s s2 added : marked message s s2 added → typed s → typed s2.
Proof.
  intros M Hty id t2. rewrite (mk_rows _ _ _ _ M), lookup_fmap. destruct (rows s !! id) as [t|] eqn:Ht; [|done]. intros [= <-].
  destruct (Hty id t Ht) as [Hid Hc]. unfold stop. destruct (interrupted t) eqn:Hi; [|done]. split; [done|].
  apply bool_decide_eq_true in Hi. unfold set_task_status. rewrite with_updated_at_check.
  revert Hc. unfold row_check, validateTaskTypeConsistency. cbn. destruct (Type_ t).
  - intros Hc. exfalso. destruct (Card t), (Exec t); try done. apply andb_true_iff in Hc as [Hc _].
    apply elem_of_cons in Hi as [Hi|Hi%list_elem_of_singleton]; rewrite Hi in Hc; by vm_compute in Hc.
  - destruct (Exec t), (Card t); try done. intros [_ Hw]%andb_true_iff. by rewrite Hw.
Qed.

(** C18.  After a crash, the work goes on.  Once the daemon has started, no job row
    claims to run; a task that was executing or waiting for an answer runs
    again, if its project is configured and it is not a card's; if one of its
    containers could not be reaped it stays aborted instead, so that it never
    runs twice; and of the tasks that were not interrupted only those that an
    earlier shutdown had aborted are touched. *)
Theorem interrupted_tasks_resume report s :
  typed s → unique_rows s → (∀ id, log_old id s) → ValidateContentSize (payload_len REmpty) = true →
  let skip := reapOrphansBeforeReopen report s in
  let time := clock (led s) in
  ∃ s', startup message report s = (s', inr ()) ∧
    (∀ k j, jobs (led s') !! k = Some j → JStatus j ≠ JobStatusRunning) ∧
    (∀ id t, rows s !! id = Some t → interrupted t = true →
       let t1 := set_task_status t TaskStatusAborted time in
       (held_back skip id = true → rows s' !! id = Some t1) ∧
       (held_back skip id = false → runnable t1 = true → free_of_cards t s → rows s' !! id = Some (reopened t1 time))) ∧
    (∀ id t, rows s !! id = Some t → interrupted t = false → Status t ≠ TaskStatusAborted ∨ shut_down id s = false →
       rows s' !! id = Some t).
Proof.
  intros Hty Hu Hold Hsz skip time. destruct (startup_marks message report s) as (s2 & added & M & ->).
  rewrite (reap_marked _ _ _ _ M). fold skip. pose proof (stop_keys _ _ _ M) as K.
  destruct (auto_reopen_spec alone idle skip (FindDaemonShutdownAbortedTasks s2) s2) as (s' & Hs' & B & O & R).
  { by eapply stop_typed. }
  { by eapply same_keys_unique. }
  { apply NoDup_filter, ids_in_nodup. }
  { intros id [_ Hin]%list_elem_of_filter. by apply ids_in_spec. }
  pose proof (mk_rows _ _ _ _ M) as Hrows. pose proof (mk_clock _ _ _ _ M) as Hc. exists s'. split; [done|]. split; [|split].
  - intros k j. rewrite (bs_jobs _ _ B), (mk_jobs _ _ _ _ M), lookup_fmap. destruct (jobs (led s) !! k) as [j0|]; [|done]. intros [= <-].
    unfold fail_running. case_bool_decide; done.
  - intros id t Ht Hi. assert (rows s2 !! id = Some (set_task_status t TaskStatusAborted time)) as H2.
    { rewrite Hrows, lookup_fmap, Ht. cbn. unfold stop. by rewrite Hi. }
    assert (id ∈ FindDaemonShutdownAbortedTasks s2) as Hin by (apply (found_spec _ _ _ _ _ M Hold); exists t; by eauto). split.
    + intros Hh. rewrite O by by right. done.
    + intros Hh Hrn Hfr. destruct (R id _ Hin Hh H2) as [Hgo _]. rewrite Hc in Hgo. apply Hgo; [done..|]. by eapply (free_of_cards_kept _ s).
  - intros id t Ht Hi Hwhy. rewrite O.
    + rewrite Hrows, lookup_fmap, Ht. cbn. unfold stop. by rewrite Hi.
    + left. rewrite (found_spec _ _ _ _ _ M Hold). intros (u & Hu' & Hcase). assert (u = t) as -> by congruence.
      destruct Hcase as [?|[? ?]]; [congruence|]. destruct Hwhy; congruence.
Qed.

(** C39.  A card's child is not resumed.  A task that was interrupted by a crash and
    whose card still counts its request as running, its own included, stays
    aborted whatever was reaped: reopening it is refused because the slot it
    held is taken. *)
Theorem interrupted_card_child_is_stranded report s id t :
  typed s → unique_rows s → (∀ id, log_old id s) → rows s !! id = Some t → interrupted t = true → busy_card t s →
  ∃ s' t', startup message report s = (s', inr ()) ∧ rows s' !! id = Some t' ∧ Status t' = TaskStatusAborted.
Proof.
  intros Hty Hu Hold Ht Hi Hb. destruct (startup_marks message report s) as (s2 & added & M & ->).
  pose proof (stop_keys _ _ _ M) as K. set (skip := reapOrphansBeforeReopen report s2).
  destruct (auto_reopen_spec alone idle skip (FindDaemonShutdownAbortedTasks s2) s2) as (s' & Hs' & B & O & R).
  { by eapply stop_typed. }
  { by eapply same_keys_unique. }
  { apply NoDup_filter, ids_in_nodup. }
  { intros i [_ Hin]%list_elem_of_filter. by apply ids_in_spec. }
  exists s', (set_task_status t TaskStatusAborted (clock (led s))). split; [done|]. split; [|done].
  assert (rows s2 !! id = Some (set_task_status t TaskStatusAborted (clock (led s)))) as H2.
  { rewrite (mk_rows _ _ _ _ M), lookup_fmap, Ht. cbn. unfold stop. by rewrite Hi. }
  assert (id ∈ FindDaemonShutdownAbortedTasks s2) as Hin by (apply (found_spec _ _ _ _ _ M Hold); exists t; by eauto).
  destruct (held_back skip id) eqn:Hh; [rewrite O by (by right); exact H2|].
  destruct (R id _ Hin Hh H2) as [_ Hstay]. apply Hstay. eapply (busy_card_kept _ s); [done|by apply M|done].
Qed.
End start.

(** ** A job ends once *)
Section completion.
Context `{JobEnv} (alone : ∀ n s, others n s = s).

(** Aborting a task leaves the job rows alone. *)
Definition jobs_kept (l l' : DB) : Prop := jobs l' = jobs l.
#[local] Instance jobs_kept_refl : Reflexive jobs_kept.
Proof. done. Qed.
#[local] Instance jobs_kept_trans : Transitive jobs_kept.
Proof. intros ???. unfold jobs_kept. congruence. Qed.
Definition same_jobs (s s' : WDB) : Prop := jobs (led s') = jobs (led s).
#[local] Instance same_jobs_refl : Reflexive same_jobs.
Proof. done. Qed.
#[local] Instance same_jobs_trans : Transitive same_jobs.
Proof. intros ???. unfold same_jobs. congruence. Qed.

Lemma CreateAction__jobs w a : steps same_jobs (CreateAction_ w a).
Proof.
  assert (∀ st req, steps jobs_kept (CreateCardRequest uuid st req)) as Hc.
  { intros st req. unfold CreateCardRequest, time_Now. assert (steps jobs_kept (new_uuid uuid)) by done.
    assert (∀ row, steps jobs_kept (insert_request row)) by (intros row l; unfold insert_request; repeat case_match; done). steps_tac. }
  assert (steps jobs_kept (_ ← CardRequests.CreateAction uuid a; row ← gets (λ s, last (actions s));
             IngestCardEventRequest uuid w (default a row) card_events)) as Hm.
  { assert (steps jobs_kept (new_uuid uuid)) by done. unfold IngestCardEventRequest, resolve_command, CardRequests.CreateAction, time_Now. steps_tac. }
  intros s. specialize (Hm (ledger_view s)). unfold CreateAction_, TaskStore.CreateAction, on_ledger.
  match type of Hm with jobs_kept _ ((?m _).1) => destruct (m (ledger_view s)) end. exact Hm.
Qed.
Lemma apply_job_failed_jobs ctx job : steps same_jobs (apply_job_failed ctx job).
Proof.
  assert (∀ t, steps same_jobs (UpdateTask t)) as Hup.
  { intros t s. destruct (UpdateTask_cases t s) as [[e ->]|(old & w & row & _ & _ & _ & _ & _ & _ & ->)]; done. }
  assert (∀ n, steps same_jobs (yield_ n)) by (intros n s; unfold yield_, modify; by rewrite alone).
  pose proof CreateAction__jobs. unfold apply_job_failed, GetTask. steps_tac.
Qed.

Lemma job_failed_aborts t actor :
  Apply NewExecutionMachine t (new_action (ID t) "job_failed" REmpty "" "" actor) = Ok (set_Status t TaskStatusAborted).
Proof. done. Qed.

Lemma status_check t st :
  row_check t = true → Type_ t = TaskTypeExecution →
  st ∈ [TaskStatusPending; TaskStatusExecuting; TaskStatusAwaiting; TaskStatusDone; TaskStatusAborted] →
  row_check (set_Status t st) = true.
Proof.
  unfold row_check, validateTaskTypeConsistency. intros Hc Hty Hst. cbn. rewrite Hty in Hc |- *.
  destruct (Exec t), (Card t); try done. apply andb_true_iff in Hc as [_ ->]. rewrite andb_true_r. by apply bool_decide_eq_true.
Qed.

Lemma apply_job_failed_run ctx job s t :
  typed s → unique_rows s → rows s !! JTaskID job = Some t → Type_ t = TaskTypeExecution →
  JProjectID job = "" ∨ meta_loaded (JProjectID job) = true →
  ∃ s' a, apply_job_failed ctx job s = (s', inr ()) ∧ jobs (led s') = jobs (led s) ∧
    rows s' = <[JTaskID job := with_updated_at (set_Status t TaskStatusAborted) (clock (led s))]> (rows s) ∧
    actions (led s') = actions (led s) ++ [a] ∧ AType a = "job_failed" ∧ ATaskID a = JTaskID job ∧
    AFromStatus a = Status t ∧ AToStatus a = TaskStatusAborted.
Proof.
  intros Hty Hu Ht Htype Hmeta. destruct (Hty _ _ Ht) as [Hid Hc]. unfold apply_job_failed.
  rewrite (bind_run _ _ s s t) by (unfold map_err, GetTask, find_task; rewrite bind_gets, Ht; done).
  rewrite bind_fail_if. replace (negb _ && negb _) with false
    by (destruct Hmeta as [->| ->]; [done|by rewrite andb_false_r]).
  rewrite job_failed_aborts, (bind_run (yield_ 52) _ s s ()) by (unfold yield_, modify; by rewrite alone).
  rewrite <- Hid in Ht |- *. pose proof (UpdateTask_over s t (set_Status t TaskStatusAborted) Ht (Hu _ _ Ht) (same_identity_status _ _)
    (status_check t TaskStatusAborted Hc Htype ltac:(set_solver))) as Hup.
  unfold map_err, InTxDB. rewrite (bind_run _ _ _ _ _ Hup).
  destruct (CreateAction__run (CtxWriter ctx) (ID t) "job_failed" REmpty (Status t) (Status (set_Status t TaskStatusAborted)) (ActorTask (ID t))
    (set_rows s (<[ID t := with_updated_at (set_Status t TaskStatusAborted) (clock (led s))]> (rows s)))) as (s' & Hcr & Hr & (_ & Hj & _) & Ha).
  { cbn. rewrite lookup_insert_eq. by eexists. }
  { vm_compute. intros Hin. repeat (apply elem_of_cons in Hin as [Hin|Hin]; [done|]). by apply elem_of_nil in Hin. }
  rewrite Hcr. eexists s', _. split_and!; [done|done|by rewrite Hr|exact Ha|done..].
Qed.

(** A job ends once, and a failure ends its task.  The first completion of a
    running job records its exit code and output and changes no other job; a
    success changes nothing else, a failure aborts the task of the job,
    whatever its status, a task that is done included, and logs it.  From then
    on every further completion answers with the recorded row and changes
    nothing. *)
Theorem job_ends_once ctx id code out s j :
  typed s → unique_rows s → jobs (led s) !! id = Some j → ended j = false →
  ∃ s' r row, CompleteJob ctx id code out s = (s', r) ∧
    jobs (led s') = <[id := row]> (jobs (led s)) ∧ JStatus row = (if code =? 0 then JobStatusCompleted else JobStatusFailed) ∧
    JExitCode row = code ∧ JOutput row = out ∧
    (code = 0 → r = inr (ended_job j code out) ∧ rows s' = rows s ∧ actions (led s') = actions (led s)) ∧
    (code ≠ 0 → ∀ t, rows s !! JTaskID j = Some t → Type_ t = TaskTypeExecution → JProjectID j = "" ∨ meta_loaded (JProjectID j) = true →
       r = inr (ended_job j code out) ∧
       rows s' = <[JTaskID j := with_updated_at (set_Status t TaskStatusAborted) (clock (led s))]> (rows s) ∧
       ∃ a, actions (led s') = actions (led s) ++ [a] ∧ AType a = "job_failed" ∧ ATaskID a = JTaskID j ∧ AFromStatus a = Status t ∧
            AToStatus a = TaskStatusAborted) ∧
    (∀ ctx' code' out', CompleteJob ctx' id code' out' s' = (s', inr row)).
Proof.
  intros Hty Hu Hj He. set (row := write_job (ended_job j code out) (clock (led s)) j).
  set (s1 := set_led s (set_jobs (led s) (<[id := row]> (jobs (led s))))).
  assert (Hrun : CompleteJob ctx id code out s =
    (if code =? 0 then mret (ended_job j code out) else _ ← apply_job_failed ctx (ended_job j code out); mret (ended_job j code out)) s1).
  { unfold CompleteJob. rewrite (bind_run _ _ s s j) by (unfold map_err, GetJob; rewrite bind_gets, Hj; done). rewrite He. cbv zeta.
    rewrite (bind_run (yield_ 50) _ s s ()) by (unfold yield_, modify; by rewrite alone).
    rewrite (bind_run _ _ s s1 ()).
    2: { unfold UpdateJob, update_jobs, now. rewrite bind_gets. unfold modify, s1. do 3 f_equal. apply map_eq. intros k.
         destruct (decide (id = k)) as [<-|Hne]; [by rewrite lookup_alter_eq, lookup_insert_eq, Hj|by rewrite lookup_alter_ne, lookup_insert_ne]. }
    destruct (code =? 0); [done|]. by rewrite (bind_run (yield_ 51) _ s1 s1 ()) by (unfold yield_, modify; by rewrite alone). }
  assert (Hagain : ∀ s', jobs (led s') = <[id := row]> (jobs (led s)) → ∀ ctx' code' out', CompleteJob ctx' id code' out' s' = (s', inr row)).
  { intros s' Hjs ctx' code' out'. unfold CompleteJob.
    rewrite (bind_run _ _ s' s' row) by (unfold map_err, GetJob; rewrite bind_gets, Hjs, lookup_insert_eq; done).
    replace (ended row) with true; [done|]. unfold ended, row, write_job, ended_job. cbn. by destruct (code =? 0). }
  rewrite Hrun. destruct (Z.eqb_spec code 0) as [->|Hne].
  { exists s1, (inr (ended_job j 0 out)), row. split_and!; try done. by apply Hagain. }
  assert (Hjobs : ∀ s2 o, (_ ← apply_job_failed ctx (ended_job j code out); mret (ended_job j code out)) s1 = (s2, o) → jobs (led s2) = jobs (led s1)).
  { intros s2 o Hs2. pose proof (apply_job_failed_jobs ctx (ended_job j code out) s1) as Hk. unfold mbind, dbm_bind in Hs2.
    destruct (apply_job_failed _ _ s1) as [s3 [e|[]]]; by injection Hs2 as <- _. }
  destruct ((_ ← apply_job_failed ctx (ended_job j code out); mret (ended_job j code out)) s1) as [s2 r] eqn:Hfin.
  pose proof (Hjobs _ _ eq_refl) as Hjs. exists s2, r, row. split_and!; try done.
  - unfold row, write_job, ended_job. cbn. destruct (code =? 0) eqn:Hz; [lia|done].
  - intros _ t Ht Htype Hmeta. destruct (apply_job_failed_run ctx (ended_job j code out) s1 t) as (s' & a & Ha & _ & Hr & Hact & Hrest); [done..|].
    rewrite (bind_run _ _ _ _ _ Ha) in Hfin. injection Hfin as <- <-. split_and!; [done|done|]. exists a. done.
  - by apply Hagain.
Qed.
End completion.

(** ** Examples *)
Definition child_task : Task :=
  {| ID := "child-0001"; Type_ := TaskTypeExecution; ProjectID := "p"; WorkspaceID := "w"; RemoteID := ""; Title := "t";
     Description := ""; Status := TaskStatusExecuting; Ref := ""; ParentID := "card-0123"; IdempotencyKey := ""; CreatedAt := 0;
     UpdatedAt := 0; Card := None; Exec := Exec executing_task |}.
Definition crashed_job : JobRow :=
  {| JStatus := JobStatusRunning; JRole := "hook"; JCardRequestID := ""; JTaskID := "01234567-task"; JProjectID := "p"; JRuntimeID := "r";
     JExitCode := 0; JOutput := ""; JCreatedAt := 0; JUpdatedAt := 0 |}.
Definition go_request : CardRequest :=
  {| RID := "go1"; CardID := "card-0123"; CommandKey := CardRequestCommandKeyGo; CauseID := ""; RStatus := CardRequestStatusAttached;
     RInstruction := ""; Launched := no_definition; LauncherJobID := "go:1"; TargetKind := CardRequestTargetKindTask;
     TargetID := "child-0001"; FoldedInto := ""; Result := ""; RError := ""; RCreatedAt := 0; RUpdatedAt := 0 |}.
(** A daemon died while a task and a card's child were executing. *)
Definition crashed_tasks : list Task := [executing_task; card_task TaskStatusWorking REmpty; child_task].
Definition crashed_db : WDB :=
  set_led (sample_wdb crashed_tasks) (set_jobs (sample_db {["go1" := go_request]}) {["job-1" := crashed_job]}).

Lemma crashed_typed : typed crashed_db.
Proof. exact (sample_typed crashed_tasks eq_refl). Qed.
Lemma crashed_unique : unique_rows crashed_db.
Proof.
  assert (∀ id t, rows crashed_db !! id = Some t → Ref t = "" ∧ IdempotencyKey t = "") as Hno.
  { intros id t Ht. change (rows crashed_db) with (rows (sample_wdb crashed_tasks)) in Ht.
    apply elem_of_list_to_map_2, list_elem_of_fmap in Ht as (u & [= -> ->] & Hin).
    repeat (apply elem_of_cons in Hin as [->|Hin]; [done|]). by apply elem_of_nil in Hin. }
  intros id t Ht. apply index_clash_false. intros j o Ho. unfold clashes. destruct (Hno id t Ht) as [-> ->]. cbn. by rewrite andb_false_r.
Qed.
Lemma crashed_log id : log_old id crashed_db.
Proof. intros a Ha. by apply elem_of_nil in Ha. Qed.

Definition sample_jobs : JobEnv := {| job_service := sample_service; meta_loaded := λ _, true |}.
Definition all_reaped : ReapReport := {| ReapFailed := false; FailedJobIDs := [] |}.

Lemma interrupted_tasks_resume_witness :
  ∃ s', startup (H := sample_service) "stopped" all_reaped crashed_db = (s', inr ()) ∧
    Status <$> rows s' !! "01234567-task" = Some TaskStatusExecuting.
Proof.
  destruct (interrupted_tasks_resume (H := sample_service) "stopped" (λ _ _, eq_refl) (λ _ _, eq_refl) all_reaped crashed_db
    crashed_typed crashed_unique crashed_log eq_refl) as (s' & Hs' & _ & Hgo & _).
  exists s'. split; [exact Hs'|]. destruct (Hgo "01234567-task" executing_task) as [_ Hrun]; [reflexivity|reflexivity|].
  rewrite Hrun; [reflexivity|reflexivity|reflexivity|by left].
Defined.

Lemma interrupted_card_child_is_stranded_witness :
  ∃ s' t', startup (H := sample_service) "stopped" all_reaped crashed_db = (s', inr ()) ∧
    rows s' !! "child-0001" = Some t' ∧ Status t' = TaskStatusAborted.
Proof.
  apply (interrupted_card_child_is_stranded (H := sample_service) "stopped" (λ _ _, eq_refl) (λ _ _, eq_refl) all_reaped crashed_db
    "child-0001" child_task crashed_typed crashed_unique crashed_log); [reflexivity|reflexivity|].
  split; [discriminate|]. exists (card_task TaskStatusWorking REmpty). split_and!; [reflexivity|reflexivity|vm_compute; lia].
Defined.

Lemma job_ends_once_witness :
  ∃ s' r, CompleteJob (H := sample_jobs) daemon_ctx "job-1" 1 "boom" crashed_db = (s', r) ∧
    Status <$> rows s' !! "01234567-task" = Some TaskStatusAborted.
Proof.
  destruct (job_ends_once (H := sample_jobs) (λ _ _, eq_refl) daemon_ctx "job-1" 1 "boom" crashed_db crashed_job crashed_typed crashed_unique)
    as (s' & r & row & Hrun & _ & _ & _ & _ & _ & Hfail & _); [reflexivity|reflexivity|].
  exists s', r. split; [exact Hrun|]. destruct (Hfail ltac:(discriminate) executing_task) as (_ & -> & _); [reflexivity|reflexivity|by right|].
  reflexivity.
Defined.
