(* ===== verification/Ask.v ===== *)
(** * Asking the user and waiting for the answer

    Models internal/api/blocking_ask_registry.go, internal/api/task_ask.go and
    AnswerTask of task_notify.go.  An agent asks a question and blocks in the
    call; the answer reaches it through an in-memory channel when it is still
    connected, and is parked in the task's payload for its next ask otherwise.

    A handler is one step of the system as far as the registry goes; what other
    requests do to the database while it runs are the [others] of
    [WorkflowEnv], at the points 45 and 46.  A call that blocks stays behind
    as an entry of [blocked], under the channel it waits on; it ends when an
    answer is in its channel ([receive]) or when its context does
    ([disconnect]).  Grace-period timers may fire at any later time. *)
From S2P Require Import Prelude Json Payload Task Machine Lifecycle Coordinator Store CardDetail CardRequests CardDispatch TaskStore TaskRows CardWorkflow Workflow Notify.

(** Channels are references: a registered question names a channel, and a
    blocked call holds the one it found when it started to wait. *)
Record BlockingAskRegistry : Type := {
  channels : gmap string nat;
  qidByTask : gmap string string;
}.

Record ADB : Type := {
  adb : WDB;
  reg : BlockingAskRegistry;
  (** the buffer, of capacity one, of every channel made so far *)
  buffers : gmap nat (option string);
  made : nat;
  (** task and question of the calls that block *)
  blocked : gmap nat (string * string);
  (** armed grace-period timers *)
  timers : list (string * string);
}.

Abbreviation askm := (dbm ADB werr).

Definition set_adb (s : ADB) (d : WDB) : ADB :=
  {| adb := d; reg := reg s; buffers := buffers s; made := made s; blocked := blocked s; timers := timers s |}.
Definition set_reg (s : ADB) (r : BlockingAskRegistry) : ADB :=
  {| adb := adb s; reg := r; buffers := buffers s; made := made s; blocked := blocked s; timers := timers s |}.
Definition set_buffers (s : ADB) (b : gmap nat (option string)) : ADB :=
  {| adb := adb s; reg := reg s; buffers := b; made := made s; blocked := blocked s; timers := timers s |}.
Definition set_blocked (s : ADB) (b : gmap nat (string * string)) : ADB :=
  {| adb := adb s; reg := reg s; buffers := buffers s; made := made s; blocked := b; timers := timers s |}.

Definition on_db {A} (m : taskm A) : askm A := λ s, let '(d, r) := m (adb s) in (set_adb s d, r).

(** ** The registry *)

(** False for ErrAskPending. *)
Definition Register (taskID qid : string) : askm bool := λ s,
  let r := reg s in
  if bool_decide (is_Some (qidByTask r !! taskID)) && negb (bool_decide (qidByTask r !! taskID = Some qid))
  then (s, inr false)
  else ({| adb := adb s;
           reg := {| channels := <[qid := made s]> (channels r); qidByTask := <[taskID := qid]> (qidByTask r) |};
           buffers := <[made s := None]> (buffers s); made := S (made s); blocked := blocked s; timers := timers s |},
        inr true).

Definition Notify_ (qid answer : string) : askm bool := λ s,
  match channels (reg s) !! qid with
  | None => (s, inr false)
  | Some ch =>
      match buffers s !! ch with
      | Some None => (set_buffers s (<[ch := Some answer]> (buffers s)), inr true)
      | _ => (s, inr false)
      end
  end.

Definition Cancel (qid : string) : askm unit :=
  modify (λ s, set_reg s {| channels := delete qid (channels (reg s));
                            qidByTask := filter (λ tq, tq.2 ≠ qid) (qidByTask (reg s)) |}).

Definition Has (qid : string) (s : ADB) : bool := bool_decide (is_Some (channels (reg s) !! qid)).

(** ** Asking *)
Definition scheduleGraceAbort (taskID qid : string) : askm unit :=
  modify (λ s, {| adb := adb s; reg := reg s; buffers := buffers s; made := made s; blocked := blocked s;
                  timers := timers s ++ [(taskID, qid)] |}).

(** How a call of [AskTaskBlocking] that did not fail goes on. *)
Inductive asked : Type :=
| Answered (answer : string)
| Blocked (ch : nat).

(** [blockForAnswer] up to the point where it blocks. *)
Definition blockForAnswer (taskID qid : string) : askm asked :=
  ch ← gets (λ s, channels (reg s) !! qid);
  match ch with
  | None => _ ← scheduleGraceAbort taskID qid; _ ← Cancel qid; throw (WInternal "no pending question")
  | Some ch => _ ← modify (λ s, set_blocked s (<[ch := (taskID, qid)]> (blocked s))); mret (Blocked ch)
  end.

(** The select of [Wait] when an answer is there, then the deferred Cancel.
    A call that is not ready stays as it is. *)
Definition receive (ch : nat) : askm string :=
  call ← gets (λ s, blocked s !! ch);
  buffer ← gets (λ s, buffers s !! ch);
  match call, buffer with
  | Some (_, qid), Some (Some answer) =>
      _ ← modify (λ s, set_blocked (set_buffers s (<[ch := None]> (buffers s))) (delete ch (blocked s)));
      _ ← Cancel qid;
      mret answer
  | _, _ => throw (WInternal "not ready")
  end.

(** The select of [Wait] when the context has ended (which it may choose even
    if an answer is there), then the deferred Cancel. *)
Definition disconnect (ch : nat) : askm unit :=
  call ← gets (λ s, blocked s !! ch);
  match call with
  | Some (taskID, qid) =>
      _ ← modify (λ s, set_blocked s (delete ch (blocked s)));
      _ ← scheduleGraceAbort taskID qid;
      Cancel qid
  | None => throw (WInternal "not blocked")
  end.

Section ask.
Context `{NotifyEnv}.

Definition parentHasLiveAgent (parentID : string) (s : WDB) : bool :=
  bool_decide (Exists (λ j, JTaskID j = parentID ∧ JStatus j = "running") (map_to_list (jobs (led s))).*2).

(** Whether the user is paged about the question; nothing else depends on it. *)
Definition fireUserAskNotification (task : Task) (question questionID : string) (s : WDB) : bool :=
  match notifier with
  | None => false
  | Some page =>
      if negb (str_empty (ParentID task)) && parentHasLiveAgent (ParentID task) s then false
      else page s {| EvTaskID := ID task; EvTaskTitle := Title task; EvProjectID := ProjectID task;
                     EvMessage := question; EvURLPath := "/tasks/" +:+ ID task +:+ "/questions/" +:+ questionID |}
  end.

Definition recordAnswerAction (writer : option string) (task : Task) (fromStatus : TaskStatus) (actor : string) : taskm unit :=
  best_effort (CreateAction_ writer (new_action (ID task) "answer" REmpty fromStatus TaskStatusExecuting actor)).

(** The task back in executing, without the question. *)
Definition resumed (task : Task) (e : ExecAttrs) : Task :=
  set_Payload (set_Status task TaskStatusExecuting) (StripAwaitingTrait (Payload e)).

Definition consumePendingAnswer (task : Task) (e : ExecAttrs) (answer actor : string) : taskm string :=
  _ ← yield_ 45;
  _ ← map_err (λ _, WStatus 500) (UpdateTask (resumed task e));
  _ ← recordAnswerAction None task (Status task) actor;
  mret answer.

Definition AskTaskBlocking (ctx : Ctx) (taskID question : string) : askm asked :=
  _ ← fail_if (str_empty question) (WStatus 400);
  task ← map_err (λ _, WStatus 404) (on_db (GetTask taskID));
  if bool_decide (Status task = TaskStatusAwaiting) then
    match Exec task with
    | None => throw (WInternal "panic")
    | Some e =>
        let ap := GetAwaitingPayload (Payload e) in
        if str_empty (QuestionID ap) then throw (WStatus 409)
        else if negb (str_empty (PendingAnswer ap)) then
          answer ← on_db (consumePendingAnswer task e (PendingAnswer ap) (PendingAnswerActor ap));
          mret (Answered answer)
        else
          ok ← Register taskID (QuestionID ap);
          if (ok : bool) then blockForAnswer taskID (QuestionID ap) else throw (WStatus 409)
    end
  else
    _ ← fail_if (negb (bool_decide (Status task = TaskStatusExecuting))) (WStatus 409);
    qid ← gets (λ s, newQuestionID (adb s));
    ok ← Register taskID qid;
    if (ok : bool) then
      r ← try_ (on_db (ApplyAction (as_task ctx taskID) taskID "ask" (ask_payload question qid)));
      match r with
      | inl err => _ ← Cancel qid; throw err
      | inr _ =>
          _ ← gets (λ s, fireUserAskNotification task question qid (adb s));
          blockForAnswer taskID qid
      end
    else throw (WStatus 409).

(** ** Answering *)

(** The answer goes to the question the task is waiting on. *)
Definition answerBlocking (ctx : Ctx) (task : Task) (answer : string) : askm unit :=
  match Exec task with
  | None => throw (WInternal "panic")
  | Some e =>
      let qid := QuestionID (GetAwaitingPayload (Payload e)) in
      delivered ← Notify_ qid answer;
      _ ← on_db (yield_ 46);
      if (delivered : bool) then
        _ ← map_err (λ _, WStatus 500) (on_db (UpdateTask (resumed task e)));
        on_db (recordAnswerAction (CtxWriter ctx) task (Status task) (CtxActor ctx))
      else
        match SetPendingAnswer (Payload e) answer (CtxActor ctx) with
        | Ok p => map_err (λ _, WStatus 500) (on_db (UpdateTask (set_Payload task p)))
        | Err _ | Panic => throw (WInternal "panic")
        end
  end.

Definition AnswerTask (ctx : Ctx) (taskID questionID answer : string) : askm unit :=
  _ ← fail_if (str_empty questionID) (WStatus 400);
  _ ← fail_if (str_empty answer) (WStatus 400);
  task ← map_err (λ _, WStatus 404) (on_db (GetTask taskID));
  _ ← fail_if (negb (bool_decide (Status task = TaskStatusAwaiting))) (WStatus 409);
  answerBlocking ctx task answer.

(** ** Reclaiming an ask nobody waits for *)
Definition abortDanglingAsk (taskID cause : string) : askm unit :=
  _ ← try_ (on_db (ApplyAction daemon_ctx taskID "abort"
        (string_map [("code", "ask_canceled");
                     ("message", "blocking ask was canceled (daemon shutdown or agent disconnect): " +:+ cause)])));
  mret ().

Definition grace_expired : string := "blocking ask grace period expired with no live agent".

(** What a fired timer looks at before it aborts; an awaiting task has
    execution attributes. *)
Definition dangling (taskID qid : string) (s : ADB) : bool :=
  match find_task taskID (adb s) with
  | None => false
  | Some task =>
      bool_decide (Status task = TaskStatusAwaiting)
      && match Exec task with
         | None => false
         | Some e =>
             let ap := GetAwaitingPayload (Payload e) in
             bool_decide (QuestionID ap = qid) && str_empty (PendingAnswer ap) && negb (Has qid s)
         end
  end.

Definition graceAbortCheck (taskID qid : string) : askm unit :=
  reclaim ← gets (dangling taskID qid);
  if (reclaim : bool) then abortDanglingAsk taskID grace_expired else mret ().
End ask.

(** A timer fires once. *)
Definition fire `{NotifyEnv} (i : nat) : askm unit :=
  timer ← gets (λ s, timers s !! i);
  match timer with
  | None => mret ()
  | Some (taskID, qid) =>
      _ ← modify (λ s, {| adb := adb s; reg := reg s; buffers := buffers s; made := made s; blocked := blocked s;
                          timers := delete i (timers s) |});
      graceAbortCheck taskID qid
  end.

(** ** Runs *)
Inductive ask_step `{NotifyEnv} : relation ADB :=
| step_ask ctx taskID question s : ask_step s (AskTaskBlocking ctx taskID question s).1
| step_answer ctx taskID questionID answer s : ask_step s (AnswerTask ctx taskID questionID answer s).1
| step_receive ch s : ask_step s (receive ch s).1
| step_disconnect ch s : ask_step s (disconnect ch s).1
| step_fire i s : ask_step s (fire i s).1
| step_other d s : ask_step s (set_adb s d).

(** ** The registry and the calls it stands for *)
Record registry_ok (s : ADB) : Prop := {
  ro_channel q ch : channels (reg s) !! q = Some ch →
    (ch < made s)%nat ∧ is_Some (buffers s !! ch) ∧ ∃ t, blocked s !! ch = Some (t, q) ∧ qidByTask (reg s) !! t = Some q;
  ro_task t q : qidByTask (reg s) !! t = Some q → is_Some (channels (reg s) !! q);
  ro_blocked ch c : blocked s !! ch = Some c → (ch < made s)%nat;
}.

(** Nothing but the database and the timers changes. *)
Definition same_asks (s s' : ADB) : Prop :=
  reg s' = reg s ∧ made s' = made s ∧ blocked s' = blocked s ∧ dom (buffers s') = dom (buffers s).
#[export] Instance same_asks_refl : Reflexive same_asks.
Proof. done. Qed.
#[export] Instance same_asks_trans : Transitive same_asks.
Proof. intros a b c (? & ? & ? & ?) (? & ? & ? & ?). split_and!; congruence. Qed.

Lemma same_asks_ok s s' : same_asks s s' → registry_ok s → registry_ok s'.
Proof.
  intros (Hr & Hm & Hb & Hd) [H1 H2 H3]. split.
  - intros q ch. rewrite Hr, Hm, Hb. intros Hq. destruct (H1 _ _ Hq) as (? & Hbuf & ?). split; [done|]. split; [|done].
    apply elem_of_dom. rewrite Hd. by apply elem_of_dom.
  - rewrite Hr. done.
  - rewrite Hb, Hm. done.
Qed.

Lemma on_db_asks {A} (m : taskm A) : steps same_asks (on_db m).
Proof. intros s. unfold on_db. by destruct (m (adb s)). Qed.

Lemma Notify_asks q a : steps same_asks (Notify_ q a).
Proof.
  intros s. unfold Notify_. destruct (channels (reg s) !! q) as [ch|]; [|done].
  destruct (buffers s !! ch) as [[b|]|] eqn:Hb; [done| |done]. unfold same_asks. simpl. split_and!; [done..|].
  rewrite dom_insert_L. assert (ch ∈ dom (buffers s)) by (apply elem_of_dom; eauto). set_solver.
Qed.
Hint Resolve on_db_asks Notify_asks : steps.

(** ** Delivery *)
Lemma on_db_run {A} (m : taskm A) s d r : m (adb s) = (d, r) → on_db m s = (set_adb s d, r).
Proof. intros Hm. unfold on_db. by rewrite Hm. Qed.
Lemma bind_on_db {A B} (m : taskm A) (f : A → askm B) s d a :
  m (adb s) = (d, inr a) → (on_db m ≫= f) s = f a (set_adb s d).
Proof. intros Hm. by apply bind_run, on_db_run. Qed.

Lemma bind_try_err {A B} g (m : askm A) (f : A → askm B) s s1 a :
  m s = (s1, inr a) → (map_err g m ≫= f) s = f a s1.
Proof. intros Hm. apply bind_run. unfold map_err. by rewrite Hm. Qed.

(** Rewriting one row in place keeps the create keys free of clashes. *)
Lemma index_clash_over row t time s :
  same_identity row t → rows s !! ID row = Some row → index_clash row s = false →
  index_clash t (set_rows s (<[ID row := with_updated_at t time]> (rows s))) = false.
Proof.
  intros Hsi Hrow Hcl. rewrite index_clash_false in Hcl |- *. intros id o. simpl.
  rewrite lookup_insert_Some. intros [[<- <-]|[Hne Ho]].
  - unfold clashes. simpl. by rewrite bool_decide_eq_true_2.
  - specialize (Hcl _ _ Ho). unfold clashes, same_scope in *.
    by rewrite (si_id _ _ Hsi), (si_parent _ _ Hsi), (si_project _ _ Hsi), (si_workspace _ _ Hsi), (si_ref _ _ Hsi), (si_key _ _ Hsi).
Qed.

(** The task is back in executing, its question gone and every other trait as
    it was, and the last entry of the log is the answer, on behalf of [actor]. *)
Definition resumed_by (id actor : string) (top : gmap string json) (d : WDB) : Prop :=
  ∃ row e a, rows d !! id = Some row ∧ Status row = TaskStatusExecuting ∧ Exec row = Some e ∧
    decoded (Payload e) = Some (delete TraitAwaiting top) ∧
    last (actions (led d)) = Some a ∧ ATaskID a = id ∧ AType a = "answer" ∧
    AFromStatus a = TaskStatusAwaiting ∧ AToStatus a = TaskStatusExecuting ∧ Actor a = actor.

Lemma resumed_any_question id actor v top d :
  resumed_by id actor (<[TraitAwaiting := v]> top) d → resumed_by id actor top d.
Proof. unfold resumed_by. by setoid_rewrite delete_insert_eq. Qed.

(** A row in awaiting, as a handler finds it. *)
Record awaits (d : WDB) (id : string) (row : Task) (e : ExecAttrs) (top : gmap string json) : Prop := {
  aw_row : rows d !! id = Some row;
  aw_id : ID row = id;
  aw_check : row_check row = true;
  aw_unique : index_clash row d = false;
  aw_status : Status row = TaskStatusAwaiting;
  aw_exec : Exec row = Some e;
  aw_payload : decoded (Payload e) = Some top;
}.

Section delivery.
Context `{NotifyEnv} (quiet : ∀ n d, rows (others n d) = rows d).

Lemma awaits_rows d d' id row e top : rows d' = rows d → awaits d id row e top → awaits d' id row e top.
Proof. intros Hr []. constructor; try done; [by rewrite Hr|]. unfold index_clash. by rewrite Hr. Qed.

Lemma find_awaiting d id row e top : awaits d id row e top → GetTask id d = (d, inr row).
Proof. intros []. unfold GetTask. rewrite bind_gets. unfold find_task. by rewrite aw_row0. Qed.

Lemma resumed_check row e : Exec row = Some e → Status row = TaskStatusAwaiting → row_check row = true →
  row_check (resumed row e) = true.
Proof.
  intros He Hst. unfold resumed. rewrite row_check_payload. unfold row_check, validateTaskTypeConsistency. simpl.
  rewrite He, Hst. destruct (Type_ row), (Card row); vm_compute; done.
Qed.

(** The two writes of a resumption, on any state that still has the row. *)
Lemma resume_run w actor d id row e top :
  awaits d id row e top →
  ∃ d1 d2, UpdateTask (resumed row e) d = (d1, inr ()) ∧
    recordAnswerAction w row (Status row) actor d1 = (d2, inr ()) ∧ resumed_by id actor top d2.
Proof.
  intros []. assert (same_identity row (resumed row e)) as Hsi by apply same_identity_payload.
  rewrite <- aw_id0 in aw_row0.
  pose proof (UpdateTask_over d row _ aw_row0 aw_unique0 Hsi (resumed_check _ _ aw_exec0 aw_status0 aw_check0)) as Hu.
  eexists _. edestruct (CreateAction__run w (ID row) "answer" REmpty (Status row) TaskStatusExecuting actor)
    as (d2 & Hc & Hr & _ & Ha).
  3: { exists d2. split; [exact Hu|]. split; [unfold recordAnswerAction, best_effort, try_, mbind, dbm_bind; by rewrite Hc|].
       unfold resumed_by. rewrite Hr, Ha. simpl. rewrite aw_id0, lookup_insert_eq, last_snoc.
       eexists _, _, _. split; [done|]. split; [done|]. split; [simpl; rewrite aw_exec0; done|]. simpl.
       split; [by apply StripAwaitingTrait_decoded|]. by rewrite aw_status0. }
  - simpl. rewrite lookup_insert_eq. by eexists.
  - vm_compute. intros Hin. repeat (apply elem_of_cons in Hin as [Hin|Hin]; [done|]). by apply elem_of_nil in Hin.
Qed.

(** The row once an answer is parked in it. *)
Lemma parked_awaits d id row e top ap time :
  awaits d id row e top →
  let top1 := <[TraitAwaiting := marshal_awaiting ap]> top in
  let row1 := with_updated_at (set_Payload row (marshal_map (Some top1))) time in
  ∃ e1, awaits (set_rows d (<[id := row1]> (rows d))) id row1 e1 top1 ∧ GetAwaitingPayload (Payload e1) = ap.
Proof.
  intros [] top1 row1. exists (set_ExecPayload e (marshal_map (Some top1))). split.
  - constructor.
    + apply lookup_insert_eq.
    + done.
    + unfold row1. by rewrite with_updated_at_check, row_check_payload.
    + subst id. apply (index_clash_over row (set_Payload row (marshal_map (Some top1)))); [|done..].
      rewrite <- (set_Status_same row) at 2. apply same_identity_payload.
    + done.
    + simpl. by rewrite aw_exec0.
    + apply decoded_marshal.
  - simpl. erewrite GetAwaitingPayload_marshal by (apply lookup_insert_eq || done). by rewrite unmarshal_marshal_awaiting.
Qed.

(** An ask of a task with a parked answer. *)
Lemma ask_consumes ctx id question s row e top :
  awaits (adb s) id row e top → question ≠ "" →
  QuestionID (GetAwaitingPayload (Payload e)) ≠ "" → PendingAnswer (GetAwaitingPayload (Payload e)) ≠ "" →
  ∃ s', AskTaskBlocking ctx id question s = (s', inr (Answered (PendingAnswer (GetAwaitingPayload (Payload e))))) ∧
    resumed_by id (PendingAnswerActor (GetAwaitingPayload (Payload e))) top (adb s').
Proof.
  intros Haw Hq Hqid Hpa. pose proof (find_awaiting _ _ _ _ _ Haw) as Hget.
  unfold AskTaskBlocking. rewrite bind_fail_if. unfold str_empty at 1. rewrite bool_decide_eq_false_2 by done.
  erewrite bind_try_err by (unfold on_db; by rewrite Hget). replace (set_adb s (adb s)) with s by (by destruct s).
  rewrite (aw_status _ _ _ _ _ Haw), (aw_exec _ _ _ _ _ Haw). rewrite bool_decide_eq_true_2 by done. cbv zeta.
  set (ap := GetAwaitingPayload (Payload e)) in *. unfold str_empty. rewrite !bool_decide_eq_false_2 by done. cbn [negb].
  assert (awaits (others 45 (adb s)) id row e top) as Haw' by (eapply awaits_rows; [apply quiet|done]).
  destruct (resume_run None (PendingAnswerActor ap) _ _ _ _ _ Haw') as (d1 & d2 & Hu & Hrec & Hres).
  erewrite bind_on_db; [|].
  2: { unfold consumePendingAnswer. erewrite bind_run by done.
       erewrite bind_run by (unfold map_err; rewrite Hu; done). erewrite bind_run by exact Hrec. done. }
  eexists. split; [done|]. exact Hres.
Qed.
End delivery.

Lemma Cancel_ok q s :
  (∀ q' ch, q' ≠ q → channels (reg s) !! q' = Some ch →
     (ch < made s)%nat ∧ is_Some (buffers s !! ch) ∧ ∃ t, blocked s !! ch = Some (t, q') ∧ qidByTask (reg s) !! t = Some q') →
  (∀ t q', q' ≠ q → qidByTask (reg s) !! t = Some q' → is_Some (channels (reg s) !! q')) →
  (∀ ch c, blocked s !! ch = Some c → (ch < made s)%nat) →
  registry_ok (Cancel q s).1.
Proof.
  intros H1 H2 H3. split; simpl.
  - intros q' ch [Hne Hq]%lookup_delete_Some. destruct (H1 q' ch) as (? & ? & t & ? & Ht); [done..|].
    split_and!; [done..|]. exists t. split; [done|]. by apply map_lookup_filter_Some.
  - intros t q' [Ht Hne]%map_lookup_filter_Some. simpl in Hne. rewrite lookup_delete_ne by done. by eapply H2.
  - done.
Qed.

Lemma finish_ok ch t q s s0 :
  registry_ok s → blocked s !! ch = Some (t, q) → reg s0 = reg s → made s0 = made s → dom (buffers s0) = dom (buffers s) →
  blocked s0 = delete ch (blocked s) → registry_ok (Cancel q s0).1.
Proof.
  intros [H1 H2 H3] Hb Hr Hm Hd Hbl. apply Cancel_ok; rewrite ?Hr, ?Hm, ?Hbl.
  - intros q' ch' Hne Hq. destruct (H1 _ _ Hq) as (? & Hbuf & t' & Hb' & ?). split; [done|]. split.
    { apply elem_of_dom. rewrite Hd. by apply elem_of_dom. }
    exists t'. split; [|done]. rewrite lookup_delete_ne; [done|]. intros <-. rewrite Hb in Hb'. by injection Hb' as _ ->.
  - intros t' q' _. apply H2.
  - intros ch' c [_ Hc]%lookup_delete_Some. by eapply H3.
Qed.

(** A registration, and what the call does next: block, or give up. *)
Lemma Register_ok t q s s1 :
  Register t q s = (s1, inr true) → registry_ok s →
  channels (reg s1) !! q = Some (made s) ∧
  ∀ s2, same_asks s1 s2 →
    registry_ok (set_blocked s2 (<[made s := (t, q)]> (blocked s2))) ∧ registry_ok (Cancel q s2).1.
Proof.
  unfold Register. destruct (_ && _) eqn:Hc; intros [= <-] [H1 H2 H3]. split; [apply lookup_insert_eq|].
  assert (∀ q', q' ≠ q → qidByTask (reg s) !! t ≠ Some q') as Hfree.
  { intros q' Hne Ht. rewrite Ht in Hc. rewrite bool_decide_eq_true_2, bool_decide_eq_false_2 in Hc; [done|congruence|eauto]. }
  intros s2 (Hr & Hm & Hb & Hd). simpl in *.
  assert (∀ q' ch, q' ≠ q → channels (reg s2) !! q' = Some ch → (ch < made s)%nat ∧ is_Some (buffers s2 !! ch) ∧
    ∃ t', blocked s2 !! ch = Some (t', q') ∧ qidByTask (reg s2) !! t' = Some q') as Hold.
  { intros q' ch Hne. rewrite Hr, Hb. simpl. rewrite lookup_insert_ne by done. intros Hq.
    destruct (H1 _ _ Hq) as (Hlt & Hbuf & t' & Hb' & Ht'). split; [done|]. split.
    { apply elem_of_dom. rewrite Hd, dom_insert_L. apply elem_of_dom in Hbuf. set_solver. }
    exists t'. split; [done|]. rewrite lookup_insert_ne; [done|]. intros <-. by apply (Hfree q'). }
  assert (∀ t' q', qidByTask (reg s2) !! t' = Some q' → is_Some (channels (reg s2) !! q')) as Htask.
  { intros t' q'. rewrite Hr. simpl. destruct (decide (q' = q)) as [->|Hne]; [rewrite lookup_insert_eq; by eexists|].
    rewrite (lookup_insert_ne _ q) by done. intros [[_ ->]|[_ Ht']]%lookup_insert_Some; [done|]. by eapply H2. }
  split.
  - split; simpl.
    + rewrite Hm. intros q' ch Hq. destruct (decide (q' = q)) as [->|Hne].
      * rewrite Hr in Hq. simpl in Hq. rewrite lookup_insert_eq in Hq. injection Hq as <-. split; [lia|]. split.
        { apply elem_of_dom. rewrite Hd, dom_insert_L. set_solver. }
        exists t. rewrite lookup_insert_eq, Hr. simpl. by rewrite lookup_insert_eq.
      * destruct (Hold _ _ Hne Hq) as (? & ? & t' & ? & ?). split_and!; [lia|done|]. exists t'.
        rewrite lookup_insert_ne by lia. done.
    + done.
    + rewrite Hm. intros ch c [[<- _]|[_ Hbc]]%lookup_insert_Some; [lia|]. rewrite Hb in Hbc. apply H3 in Hbc. lia.
  - apply Cancel_ok; [|naive_solver|].
    + intros q' ch Hne Hq. destruct (Hold _ _ Hne Hq) as (? & ?). rewrite Hm. split; [lia|done].
    + rewrite Hm, Hb. intros ch c Hbc%H3. lia.
Qed.

Section registry.
Context `{NotifyEnv}.

Lemma AskTaskBlocking_ok ctx t question s : registry_ok s → registry_ok (AskTaskBlocking ctx t question s).1.
Proof.
  intros Hok. unfold AskTaskBlocking. rewrite bind_fail_if. destruct (str_empty question); [done|].
  destruct (map_err (λ _, WStatus 404) (on_db (GetTask t)) s) as [s0 r] eqn:Hg.
  assert (same_asks s s0) as H0.
  { replace s0 with (map_err (λ _ : werr, WStatus 404) (on_db (GetTask t)) s).1 by (by rewrite Hg).
    by apply steps_map_err, on_db_asks. }
  apply (same_asks_ok _ _ H0) in Hok. clear H0.
  destruct r as [err|task]; [by rewrite (bind_stop _ _ _ _ _ Hg)|]. rewrite (bind_run _ _ _ _ _ Hg). clear Hg s.
  assert (∀ q s1, Register t q s0 = (s1, inr true) → ∀ s2, same_asks s1 s2 → registry_ok (blockForAnswer t q s2).1) as Hblock.
  { intros q s1 Hr s2 Hs. destruct (Register_ok _ _ _ _ Hr Hok) as [Hch Hk]. destruct (Hk s2 Hs) as [Hb _].
    unfold blockForAnswer. rewrite bind_gets. destruct Hs as (Hreg & _). rewrite Hreg, Hch. exact Hb. }
  assert (∀ q s1 b, Register t q s0 = (s1, inr b) → b = false → s1 = s0) as Hrefuse.
  { intros q s1 b. unfold Register. destruct (_ && _); by intros [= <- <-]. }
  assert (∀ q, ∃ s1 b, Register t q s0 = (s1, inr b)) as Hreg.
  { intros q. unfold Register. destruct (_ && _); eauto. }
  destruct (bool_decide (Status task = TaskStatusAwaiting)).
  - destruct (Exec task) as [e|]; [|done]. cbv zeta. destruct (str_empty (QuestionID _)); [done|].
    destruct (negb (str_empty (PendingAnswer _))).
    + apply (same_asks_ok s0); [|done]. apply steps_bind; [apply _|apply on_db_asks|]. intros a s. done.
    + destruct (Hreg (QuestionID (GetAwaitingPayload (Payload e)))) as (s1 & b & Hb). rewrite (bind_run _ _ _ _ _ Hb).
      destruct b; [by eapply Hblock|]. by rewrite (Hrefuse _ _ _ Hb eq_refl).
  - rewrite bind_fail_if. destruct (negb _); [done|]. rewrite bind_gets. set (q := newQuestionID (adb s0)).
    destruct (Hreg q) as (s1 & b & Hb). rewrite (bind_run _ _ _ _ _ Hb).
    destruct b; [|by rewrite (Hrefuse _ _ _ Hb eq_refl)].
    set (m := on_db _). assert (steps same_asks m) as Hm by apply on_db_asks. specialize (Hm s1).
    destruct (m s1) as [s2 r] eqn:Hr. simpl in Hm.
    assert (try_ m s1 = (s2, inr r)) as Ht by (unfold try_; by rewrite Hr). rewrite (bind_run _ _ _ _ _ Ht).
    destruct r as [err|app].
    + by apply (Register_ok _ _ _ _ Hb Hok).
    + rewrite bind_gets. by eapply Hblock.
Qed.

Lemma ask_step_ok s s' : ask_step s s' → registry_ok s → registry_ok s'.
Proof.
  intros [] Hok.
  - by apply AskTaskBlocking_ok.
  - eapply same_asks_ok; [|exact Hok]. unfold AnswerTask, answerBlocking. steps_tac.
  - unfold receive. rewrite !bind_gets. destruct (blocked s0 !! ch) as [[t q]|] eqn:Hb; [|done].
    destruct (buffers s0 !! ch) as [[answer|]|] eqn:Hbuf; [|done..].
    apply (finish_ok ch t q s0 (set_blocked (set_buffers s0 (<[ch := None]> (buffers s0))) (delete ch (blocked s0)))); try done.
    simpl. rewrite dom_insert_L. assert (ch ∈ dom (buffers s0)) by (apply elem_of_dom; eauto). set_solver.
  - unfold disconnect. rewrite bind_gets. destruct (blocked s0 !! ch) as [[t q]|] eqn:Hb; [|done].
    by apply (finish_ok ch t q s0 {| adb := adb s0; reg := reg s0; buffers := buffers s0; made := made s0;
      blocked := delete ch (blocked s0); timers := timers s0 ++ [(t, q)] |}).
  - eapply same_asks_ok; [|exact Hok]. unfold fire, graceAbortCheck, abortDanglingAsk. apply steps_bind; [apply _|steps_tac|].
    intros [[t q]|]; [|steps_tac]. apply steps_bind; [apply _|by intros x|]. steps_tac.
  - eapply same_asks_ok; [|exact Hok]. done.
Qed.

Lemma ask_run_ok s s' : rtc ask_step s s' → registry_ok s → registry_ok s'.
Proof. induction 1; eauto using ask_step_ok. Qed.
End registry.

(** C27.  The registry stands for calls that are there.  From a daemon that has
    just started, whatever asks, answers, disconnects, timers and other
    requests happen: every registered question has a call blocked on exactly
    its channel, so that an answer put there is received; no two calls of one task
    are blocked on the channels of two registered questions; and Register refuses
    a question of a task only while another question is registered for that task
    and a call is blocked on that question's channel, a call of the same task if
    no other task is registered with the same question id (ids are random).  An
    ask can also be refused before it gets to Register. *)
Theorem registered_asks_are_waiting `{NotifyEnv} s0 s :
  reg s0 = {| channels := ∅; qidByTask := ∅ |} → blocked s0 = ∅ → rtc ask_step s0 s →
  (∀ q ch, channels (reg s) !! q = Some ch → ∃ t, blocked s !! ch = Some (t, q) ∧ is_Some (buffers s !! ch)) ∧
  (∀ t q1 q2 ch1 ch2, channels (reg s) !! q1 = Some ch1 → channels (reg s) !! q2 = Some ch2 →
     blocked s !! ch1 = Some (t, q1) → blocked s !! ch2 = Some (t, q2) → q1 = q2 ∧ ch1 = ch2) ∧
  (∀ t q, (Register t q s).2 = inr false →
     ∃ q' ch t', q' ≠ q ∧ qidByTask (reg s) !! t = Some q' ∧ channels (reg s) !! q' = Some ch ∧ blocked s !! ch = Some (t', q') ∧
       ((∀ u, qidByTask (reg s) !! u = Some q' → u = t) → t' = t)).
Proof.
  intros Hr Hb Hrun.
  assert (registry_ok s0) as Hok by (split; rewrite ?Hr, ?Hb; intros ? ? Hx; cbn [channels qidByTask] in Hx; by rewrite lookup_empty in Hx).
  apply (ask_run_ok _ _ Hrun) in Hok as [H1 H2 H3].
  split_and!.
  - intros q ch Hq. destruct (H1 _ _ Hq) as (_ & ? & t & ? & _). eauto.
  - intros t q1 q2 ch1 ch2 Hq1 Hq2 Hb1 Hb2. destruct (H1 _ _ Hq1) as (_ & _ & t1 & Hc1 & Ht1).
    destruct (H1 _ _ Hq2) as (_ & _ & t2 & Hc2 & Ht2). split; congruence.
  - intros t q Hreg. unfold Register in Hreg. destruct (qidByTask (reg s) !! t) as [q'|] eqn:Ht; [|done].
    destruct (bool_decide (Some q' = Some q)) eqn:Hq; [by rewrite andb_false_r in Hreg|].
    destruct (H2 _ _ Ht) as [ch Hch]. destruct (H1 _ _ Hch) as (_ & _ & t' & Hbl & Ht'). exists q', ch, t'.
    split_and!; [|done|done|done|auto]. intros ->. by apply bool_decide_eq_false in Hq.
Qed.

(** Whatever question id an answer is sent for, it goes to the question the task
    waits on: the id is only checked not to be empty. *)
Lemma answer_goes_to_the_waiting_question `{NotifyEnv} ctx s id row e top questionID answer :
  (∀ n d, rows (others n d) = rows d) →
  registry_ok s → awaits (adb s) id row e top → Payload e ≠ RText true JNull →
  QuestionID (GetAwaitingPayload (Payload e)) ≠ "" → questionID ≠ "" → answer ≠ "" →
  let qid := QuestionID (GetAwaitingPayload (Payload e)) in
  ∃ s1, AnswerTask ctx id questionID answer s = (s1, inr ()) ∧
    if bool_decide ((channels (reg s) !! qid ≫= λ ch, buffers s !! ch) = Some None)
    then ∃ ch s2, channels (reg s) !! qid = Some ch ∧ resumed_by id (CtxActor ctx) top (adb s1) ∧
           receive ch s1 = (s2, inr answer) ∧ adb s2 = adb s1
    else (∃ row1, rows (adb s1) !! id = Some row1 ∧ Status row1 = TaskStatusAwaiting) ∧
         ∀ ctx' question, question ≠ "" →
           ∃ s2, AskTaskBlocking ctx' id question s1 = (s2, inr (Answered answer)) ∧
             resumed_by id (CtxActor ctx) top (adb s2).
Proof.
  intros quiet Hok Haw Hnull Hqid Hq Ha qid. pose proof (find_awaiting _ _ _ _ _ Haw) as Hget.
  assert (∀ n d, awaits d id row e top → awaits (others n d) id row e top) as Hothers.
  { intros n d. apply awaits_rows, quiet. }
  unfold AnswerTask. rewrite !bind_fail_if. unfold str_empty at 1 2. rewrite !bool_decide_eq_false_2 by done.
  erewrite bind_try_err by (unfold on_db; by rewrite Hget). rewrite bind_fail_if.
  rewrite (aw_status _ _ _ _ _ Haw). rewrite bool_decide_eq_true_2 by done. cbn [negb].
  unfold answerBlocking. rewrite (aw_exec _ _ _ _ _ Haw). fold qid.
  replace (set_adb s (adb s)) with s by (by destruct s).
  case_bool_decide as Hfree.
  - destruct (channels (reg s) !! qid) as [ch|] eqn:Hch; [|done]. simpl in Hfree.
    destruct (ro_channel _ Hok _ _ Hch) as (_ & _ & t & Hbl & _).
    set (sn := set_buffers s (<[ch := Some answer]> (buffers s))).
    assert (Notify_ qid answer s = (sn, inr true)) as Hn by (unfold Notify_; by rewrite Hch, Hfree).
    rewrite (bind_run _ _ _ _ _ Hn). erewrite bind_on_db by done. cbv iota.
    destruct (resume_run (CtxWriter ctx) (CtxActor ctx) _ _ _ _ _ (Hothers 46%nat _ Haw)) as (d1 & d2 & Hu & Hrec & Hres).
    erewrite bind_try_err by (apply on_db_run; exact Hu). eexists. split; [apply on_db_run; exact Hrec|]. eexists ch, _. split; [done|]. split; [done|]. split.
    { unfold receive. rewrite !bind_gets. simpl. rewrite Hbl, lookup_insert_eq. done. }
    done.
  - assert (Notify_ qid answer s = (s, inr false)) as Hn.
    { unfold Notify_. destruct (channels (reg s) !! qid) as [ch|]; [|done]. simpl in Hfree.
      destruct (buffers s !! ch) as [[]|]; done. }
    rewrite (bind_run _ _ _ _ _ Hn). erewrite bind_on_db by done. cbv iota.
    rewrite (SetPendingAnswer_spec _ _ _ _ (aw_payload _ _ _ _ _ Haw) Hnull). fold qid.
    set (ap := {| Question := _; QuestionID := qid; PendingAnswer := answer; PendingAnswerActor := _ |}).
    set (p := marshal_map _). pose proof (Hothers 46%nat _ Haw) as Haw1. set (d := others 46 (adb s)) in *.
    pose proof Haw1 as []. assert (same_identity row (set_Payload row p)) as Hsi.
    { rewrite <- (set_Status_same row) at 2. apply same_identity_payload. }
    pose proof aw_row0 as Hrow. rewrite <- aw_id0 in Hrow.
    pose proof (UpdateTask_over d row _ Hrow aw_unique0 Hsi) as Hu. rewrite row_check_payload in Hu. specialize (Hu aw_check0).
    eexists. split; [unfold map_err; by rewrite (on_db_run _ (set_adb s d) _ _ Hu)|]. split.
    { simpl. rewrite aw_id0, lookup_insert_eq. by eexists. }
    intros ctx' question Hne. subst id.
    destruct (parked_awaits d _ row e top ap (clock (led d)) Haw1) as (e1 & Haw2 & Hap).
    destruct (ask_consumes quiet ctx' _ question (set_adb s (set_rows d (<[ID row := with_updated_at (set_Payload row p)
      (clock (led d))]> (rows d)))) _ e1 _ Haw2 Hne) as (s2 & Hs2 & Hres); rewrite ?Hap in *; [done..|].
    exists s2. split; [exact Hs2|]. by apply resumed_any_question in Hres.
Qed.

(** C19.  An answer reaches the agent, and only once it has is the task running
    again.  Let a task wait on a question, in a row that no other request writes
    while the answer is handled, with a payload other than the text null, and let
    a nonempty answer be sent for that question's id.  If the question is
    registered and its channel is free, the call blocked on it receives the answer
    and the task is back in executing; otherwise the answer is parked, the task
    stays in awaiting, and the agent's next ask, whatever it asks, returns the
    answer and puts the task back.  Either way the question is gone from the
    payload, every other trait is as it was, and the log attributes the answer to
    whoever gave it.  (An answer sent for another id is treated in the same way:
    [answer_goes_to_the_waiting_question].) *)
Theorem answers_are_delivered `{NotifyEnv} ctx s id row e top answer :
  (∀ n d, rows (others n d) = rows d) →
  registry_ok s → awaits (adb s) id row e top → Payload e ≠ RText true JNull →
  let qid := QuestionID (GetAwaitingPayload (Payload e)) in
  qid ≠ "" → answer ≠ "" →
  ∃ s1, AnswerTask ctx id qid answer s = (s1, inr ()) ∧
    if bool_decide ((channels (reg s) !! qid ≫= λ ch, buffers s !! ch) = Some None)
    then ∃ ch s2, channels (reg s) !! qid = Some ch ∧ resumed_by id (CtxActor ctx) top (adb s1) ∧
           receive ch s1 = (s2, inr answer) ∧ adb s2 = adb s1
    else (∃ row1, rows (adb s1) !! id = Some row1 ∧ Status row1 = TaskStatusAwaiting) ∧
         ∀ ctx' question, question ≠ "" →
           ∃ s2, AskTaskBlocking ctx' id question s1 = (s2, inr (Answered answer)) ∧
             resumed_by id (CtxActor ctx) top (adb s2).
Proof. intros quiet Hok Haw Hnull qid Hq Ha. by eapply answer_goes_to_the_waiting_question. Qed.

(** What an agent that asks again loses when its first call is found dead
    only afterwards.  Two calls of a task wait for the same question, the
    first because its connection is not known to be gone yet; when it is, its
    clean-up removes the registration of the second.  The second still waits,
    but no answer is handed to it any more, and the timer of the first, which
    is meant to spare a task whose agent has come back, aborts the task. *)
Theorem reattached_ask_is_reclaimed `{NotifyEnv} ch1 ch2 id q s row e top :
  blocked s !! ch1 = Some (id, q) → blocked s !! ch2 = Some (id, q) → ch1 ≠ ch2 →
  ∃ s', disconnect ch1 s = (s', inr ()) ∧ blocked s' !! ch2 = Some (id, q) ∧ (id, q) ∈ timers s' ∧
    (∀ answer, Notify_ q answer s' = (s', inr false)) ∧
    (awaits (adb s) id row e top → QuestionID (GetAwaitingPayload (Payload e)) = q →
     PendingAnswer (GetAwaitingPayload (Payload e)) = "" →
     graceAbortCheck id q s' = abortDanglingAsk id grace_expired s').
Proof.
  intros H1 H2 Hne. eexists. split.
  { unfold disconnect. rewrite bind_gets, H1. done. }
  split; [simpl; by rewrite lookup_delete_ne|]. split; [simpl; set_solver|]. split.
  { intros answer. unfold Notify_. simpl. by rewrite lookup_delete_eq. }
  intros Haw Hq Hpa. unfold graceAbortCheck. rewrite bind_gets. unfold dangling, Has. simpl.
  unfold find_task. rewrite (aw_row _ _ _ _ _ Haw), (aw_status _ _ _ _ _ Haw), (aw_exec _ _ _ _ _ Haw), Hq, Hpa.
  rewrite lookup_delete_eq, !bool_decide_eq_true_2, bool_decide_eq_false_2 by done || by intros []. done.
Qed.

(** ** The theorems at a concrete run *)
#[local] Existing Instance sample_notify.
Definition ask_db : ADB :=
  {| adb := service_db; reg := {| channels := ∅; qidByTask := ∅ |}; buffers := ∅; made := 0; blocked := ∅; timers := [] |}.

(** The agent has asked, and asked again before its first call was found dead. *)
Definition asked_db : ADB := (AskTaskBlocking daemon_ctx "01234567-task" "which?" ask_db).1.
Definition asked_twice : ADB := (AskTaskBlocking daemon_ctx "01234567-task" "which?" asked_db).1.
Definition asked_row : Task := default executing_task (rows (adb asked_db) !! "01234567-task").
Definition asked_exec : ExecAttrs := default sample_exec (Exec asked_row).

Lemma asked_awaits :
  ∃ top, awaits (adb asked_db) "01234567-task" asked_row asked_exec top ∧
         awaits (adb asked_twice) "01234567-task" asked_row asked_exec top.
Proof. eexists. split; constructor; vm_compute; reflexivity. Qed.

Lemma asked_runs : rtc ask_step ask_db asked_db ∧ rtc ask_step asked_db asked_twice.
Proof. split; apply rtc_once; constructor. Qed.

Lemma registered_asks_are_waiting_witness :
  ∃ t, blocked asked_twice !! 1%nat = Some (t, "q-1") ∧ is_Some (buffers asked_twice !! 1%nat).
Proof.
  destruct (registered_asks_are_waiting ask_db asked_twice) as [Hw _];
    [reflexivity|reflexivity|exact (transitivity (proj1 asked_runs) (proj2 asked_runs))|].
  apply (Hw "q-1" 1%nat). vm_compute. reflexivity.
Defined.

Lemma ask_db_ok : registry_ok ask_db.
Proof. split; intros ? ? Hx; cbn in Hx; by rewrite lookup_empty in Hx. Qed.

Lemma answers_are_delivered_witness :
  ∃ s1 ch s2, AnswerTask human_ctx "01234567-task" "q-1" "this one" asked_db = (s1, inr ()) ∧
    receive ch s1 = (s2, inr "this one").
Proof.
  destruct asked_awaits as (top & Haw & _).
  destruct (answers_are_delivered human_ctx asked_db "01234567-task" asked_row asked_exec top "this one")
    as (s1 & Hs1 & Hd);
    [reflexivity|exact (ask_run_ok _ _ (proj1 asked_runs) ask_db_ok)|exact Haw|vm_compute; discriminate..|].
  rewrite bool_decide_eq_true_2 in Hd by (vm_compute; reflexivity).
  destruct Hd as (ch & s2 & _ & _ & Hr & _). exists s1, ch, s2. split; [exact Hs1|exact Hr].
Defined.

Lemma reattached_ask_is_reclaimed_witness :
  ∃ s', disconnect 0%nat asked_twice = (s', inr ()) ∧ blocked s' !! 1%nat = Some ("01234567-task", "q-1") ∧
    graceAbortCheck "01234567-task" "q-1" s' = abortDanglingAsk "01234567-task" grace_expired s' ∧
    Status <$> rows (adb (abortDanglingAsk "01234567-task" grace_expired s').1) !! "01234567-task" = Some TaskStatusAborted.
Proof.
  destruct asked_awaits as (top & _ & Haw).
  destruct (reattached_ask_is_reclaimed 0%nat 1%nat "01234567-task" "q-1" asked_twice asked_row asked_exec top)
    as (s' & Hd & Hb & _ & _ & Hg); [vm_compute; reflexivity..|discriminate|].
  exists s'. split; [exact Hd|]. split; [exact Hb|]. split; [apply Hg; [exact Haw|vm_compute; reflexivity..]|].
  assert (s' = (disconnect 0%nat asked_twice).1) as -> by (rewrite Hd; reflexivity). vm_compute. reflexivity.
Defined.
