(* ===== verification/DockerPolicy.v ===== *)
(** * The Docker proxy's policy

    Models internal/sandbox/dockerproxy/policy.go, the in-memory part of
    ledger.go and the request handling of server.go: what a sandboxed Docker
    client may ask of the daemon's engine, which resources it may name, and
    how the body of a container creation is rewritten on its way.

    A request body is its length and its JSON text ([raw]); one bit more says
    whether the text of its HostConfig member is free of white space, which a
    byte comparison of the policy looks at.  The engine behind the proxy
    answers whatever it likes.  The ledger's file, connection hijacking and
    headers are I/O. *)
From S2P Require Import Prelude Json CardWorkflow Notify.

(** ** Requests *)
Record body : Type := { BLen : Z; BRaw : raw; BHostCompact : bool }.
Record request : Type := { Method : string; Path : string; Body : body }.

Definition MaxBodyBytes : Z := 32 * 1024 * 1024.

(** The reason of a denial is not modelled. *)
Inductive Verdict : Type := allow | deny.
#[export] Instance Verdict_eq_dec : EqDecision Verdict.
Proof. solve_decision. Defined.

(** ** Text *)
Fixpoint has_prefix (p s : string) : bool :=
  match p, s with
  | EmptyString, _ => true
  | String a p, String b s => bool_decide (a = b) && has_prefix p s
  | _, EmptyString => false
  end.
Fixpoint contains (sub s : string) : bool :=
  has_prefix sub s || match s with EmptyString => false | String _ s => contains sub s end.

Definition ToUpper (s : string) : string :=
  String.string_of_list_ascii (upper <$> String.list_ascii_of_string s).

(** [strings.ToLower] as far as it can yield ASCII text: U+0130 and U+212A are
    the runes beyond ASCII whose lower case is an ASCII letter. *)
Definition lower (c : ascii) : ascii :=
  let n := N_of_ascii c in if (N.leb 65 n && N.leb n 90)%bool then ascii_of_N (n + 32) else c.
Fixpoint ToLower (s : string) : string :=
  match s with
  | EmptyString => EmptyString
  | String c s1 =>
      match N_of_ascii c, s1 with
      | 196%N, String c2 s2 =>
          if N.eqb (N_of_ascii c2) 176 then String "i" (ToLower s2) else String c (ToLower s1)
      | 226%N, String c2 (String c3 s3) =>
          if (N.eqb (N_of_ascii c2) 132 && N.eqb (N_of_ascii c3) 170)%bool then String "k" (ToLower s3)
          else String c (ToLower s1)
      | _, _ => String (lower c) (ToLower s1)
      end
  end.

(** ** Paths *)
Fixpoint skip_digits (s : string) : string :=
  match s with
  | String c s' => if is_digit c then skip_digits s' else s
  | EmptyString => EmptyString
  end.
(** [\d+]: what follows, if there is a digit. *)
Definition digits_then (s : string) : option string :=
  match s with String c s' => if is_digit c then Some (skip_digits s') else None | EmptyString => None end.

(** The pattern apiVersionRe: a version such as /v1.41, then nothing, or a slash
    and a text without line breaks.  Gives the rest after the version. *)
Definition versioned (path : string) : option string :=
  match path with
  | String a (String b rest) =>
      if bool_decide (a = "/"%char) && bool_decide (b = "v"%char) then
        match digits_then rest with
        | Some (String c rest) =>
            if bool_decide (c = "."%char) then
              match digits_then rest with
              | Some EmptyString => Some EmptyString
              | Some (String d tail) =>
                  if bool_decide (d = "/"%char) && negb (bool_decide (ascii_of_N 10 ∈ String.list_ascii_of_string tail))
                  then Some (String d tail) else None
              | None => None
              end
            else None
        | _ => None
        end
      else None
  | _ => None
  end.

Definition stripVersion (path : string) : string :=
  match versioned path with
  | None => path
  | Some EmptyString => "/"
  | Some tail => tail
  end.

Definition part_matches (p a : string) : bool := bool_decide (p = "*") || bool_decide (p = a).
Definition matchesPattern (path pattern : string) : bool :=
  let pparts := split_slash pattern in
  let aparts := split_slash path in
  bool_decide (length pparts = length aparts) && forallb (λ pa, part_matches pa.1 pa.2) (zip pparts aparts).
Definition matchesAny (path : string) (patterns : list string) : bool := existsb (matchesPattern path) patterns.

(** The resource a path names by id: the first segment says the type, the
    second is the id. *)
Definition scopeTarget (bare : string) : string * string :=
  let trimmed := match bare with String c s => if bool_decide (c = "/"%char) then s else bare | _ => bare end in
  match split_slash trimmed with
  | resource :: seg :: _ =>
      if str_empty seg then ("", "")
      else if bool_decide (resource = "containers") then
        if bool_decide (seg ∈ ["create"; "json"; "prune"]) then ("", "") else ("container", seg)
      else if bool_decide (resource = "networks") then
        if bool_decide (seg ∈ ["create"; "prune"]) then ("", "") else ("network", seg)
      else if bool_decide (resource = "volumes") then
        if bool_decide (seg ∈ ["create"; "prune"]) then ("", "") else ("volume", seg)
      else if bool_decide (resource = "exec") then ("exec", seg)
      else ("", "")
  | _ => ("", "")
  end.

(** ** Reserved volumes *)
Record ReservedVolumes : Type := { names : gset string }.
Definition NewReservedVolumes (ns : list string) : ReservedVolumes :=
  {| names := list_to_set (filter (λ n, n ≠ "") ns) |}.
Definition ReservedVolumeNamePrefix : string := "boid-ws-".
Definition IsReservedVolumeName (name : string) : bool := has_prefix ReservedVolumeNamePrefix name.
Definition IsReserved (r : ReservedVolumes) (name : string) : bool :=
  IsReservedVolumeName name || bool_decide (name ∈ names r).

(** ** Bodies *)
Definition dec_any : decoder json := λ _ v, (v, true).

(** Into a map the members are added one by one; null empties it (the policy
    does not tell a nil map from an empty one). *)
Definition dec_map {A} (zero : A) (d : decoder A) : decoder (gmap string A) := λ cur v,
  match v with
  | JObj fs => foldl (λ acc kv, let r := d zero kv.2 in (<[kv.1 := r.1]> acc.1, acc.2 && r.2)) (cur, true) fs
  | JNull => (∅, true)
  | _ => (cur, false)
  end.

Record driverConfig : Type := { DName : string; Options : gmap string string }.
Record volumeOpts : Type := { DriverConfig : option driverConfig }.
Record mountSpec : Type := { MType : string; MSource : string; VolumeOptions : option volumeOpts }.
Record hostConfig : Type := {
  Binds : gslice string;
  Mounts : gslice mountSpec;
  Privileged : bool;
  NetworkMode : string;
  PidMode : string;
  IpcMode : string;
  UsernsMode : string;
  CgroupnsMode : string;
  SecurityOpt : gslice string;
  CapAdd : gslice string;
  Devices : gslice json;
  DeviceCgroupRules : gslice string;
  Runtime : string;
  Sysctls : gmap string string;
  CgroupParent : string;
  PortBindings : gmap string json;
  PublishAllPorts : bool;
  VolumesFrom : gslice string;
}.

Definition zero_driver : driverConfig := {| DName := ""; Options := ∅ |}.
Definition zero_volume : volumeOpts := {| DriverConfig := None |}.
Definition zero_mount : mountSpec := {| MType := ""; MSource := ""; VolumeOptions := None |}.
Definition zero_host : hostConfig :=
  {| Binds := nil_slice; Mounts := nil_slice; Privileged := false; NetworkMode := ""; PidMode := ""; IpcMode := "";
     UsernsMode := ""; CgroupnsMode := ""; SecurityOpt := nil_slice; CapAdd := nil_slice; Devices := nil_slice;
     DeviceCgroupRules := nil_slice; Runtime := ""; Sysctls := ∅; CgroupParent := ""; PortBindings := ∅;
     PublishAllPorts := false; VolumesFrom := nil_slice |}.

Definition driver_member (d : driverConfig) (k : string) (v : json) : driverConfig * bool :=
  if field_matches "Name" k then let r := dec_string (DName d) v in ({| DName := r.1; Options := Options d |}, r.2)
  else if field_matches "Options" k then
    let r := dec_map "" dec_string (Options d) v in ({| DName := DName d; Options := r.1 |}, r.2)
  else (d, true).
Definition volume_member (o : volumeOpts) (k : string) (v : json) : volumeOpts * bool :=
  if field_matches "DriverConfig" k then
    let r := dec_ptr zero_driver (dec_struct driver_member) (DriverConfig o) v in ({| DriverConfig := r.1 |}, r.2)
  else (o, true).
Definition mount_member (m : mountSpec) (k : string) (v : json) : mountSpec * bool :=
  if field_matches "Type" k then
    let r := dec_string (MType m) v in ({| MType := r.1; MSource := MSource m; VolumeOptions := VolumeOptions m |}, r.2)
  else if field_matches "Source" k then
    let r := dec_string (MSource m) v in ({| MType := MType m; MSource := r.1; VolumeOptions := VolumeOptions m |}, r.2)
  else if field_matches "VolumeOptions" k then
    let r := dec_ptr zero_volume (dec_struct volume_member) (VolumeOptions m) v in
    ({| MType := MType m; MSource := MSource m; VolumeOptions := r.1 |}, r.2)
  else (m, true).

(** A field of the struct: its name, its decoder, and where it is kept. *)
Record host_field : Type := { HfName : string; HfDecode : hostConfig → json → hostConfig * bool }.
Definition field_of {A} (name : string) (d : decoder A) (get : hostConfig → A) (set : hostConfig → A → hostConfig) : host_field :=
  {| HfName := name; HfDecode h v := let r := d (get h) v in (set h r.1, r.2) |}.

Definition set_Binds (h : hostConfig) x : hostConfig :=
  {| Binds := x; Mounts := Mounts h; Privileged := Privileged h; NetworkMode := NetworkMode h;
     PidMode := PidMode h; IpcMode := IpcMode h; UsernsMode := UsernsMode h; CgroupnsMode := CgroupnsMode h;
     SecurityOpt := SecurityOpt h; CapAdd := CapAdd h; Devices := Devices h;
     DeviceCgroupRules := DeviceCgroupRules h; Runtime := Runtime h; Sysctls := Sysctls h;
     CgroupParent := CgroupParent h; PortBindings := PortBindings h; PublishAllPorts := PublishAllPorts h;
     VolumesFrom := VolumesFrom h |}.
Definition set_Mounts (h : hostConfig) x : hostConfig :=
  {| Binds := Binds h; Mounts := x; Privileged := Privileged h; NetworkMode := NetworkMode h;
     PidMode := PidMode h; IpcMode := IpcMode h; UsernsMode := UsernsMode h; CgroupnsMode := CgroupnsMode h;
     SecurityOpt := SecurityOpt h; CapAdd := CapAdd h; Devices := Devices h;
     DeviceCgroupRules := DeviceCgroupRules h; Runtime := Runtime h; Sysctls := Sysctls h;
     CgroupParent := CgroupParent h; PortBindings := PortBindings h; PublishAllPorts := PublishAllPorts h;
     VolumesFrom := VolumesFrom h |}.
Definition set_Privileged (h : hostConfig) x : hostConfig :=
  {| Binds := Binds h; Mounts := Mounts h; Privileged := x; NetworkMode := NetworkMode h; PidMode := PidMode h;
     IpcMode := IpcMode h; UsernsMode := UsernsMode h; CgroupnsMode := CgroupnsMode h;
     SecurityOpt := SecurityOpt h; CapAdd := CapAdd h; Devices := Devices h;
     DeviceCgroupRules := DeviceCgroupRules h; Runtime := Runtime h; Sysctls := Sysctls h;
     CgroupParent := CgroupParent h; PortBindings := PortBindings h; PublishAllPorts := PublishAllPorts h;
     VolumesFrom := VolumesFrom h |}.
Definition set_NetworkMode (h : hostConfig) x : hostConfig :=
  {| Binds := Binds h; Mounts := Mounts h; Privileged := Privileged h; NetworkMode := x; PidMode := PidMode h;
     IpcMode := IpcMode h; UsernsMode := UsernsMode h; CgroupnsMode := CgroupnsMode h;
     SecurityOpt := SecurityOpt h; CapAdd := CapAdd h; Devices := Devices h;
     DeviceCgroupRules := DeviceCgroupRules h; Runtime := Runtime h; Sysctls := Sysctls h;
     CgroupParent := CgroupParent h; PortBindings := PortBindings h; PublishAllPorts := PublishAllPorts h;
     VolumesFrom := VolumesFrom h |}.
Definition set_PidMode (h : hostConfig) x : hostConfig :=
  {| Binds := Binds h; Mounts := Mounts h; Privileged := Privileged h; NetworkMode := NetworkMode h;
     PidMode := x; IpcMode := IpcMode h; UsernsMode := UsernsMode h; CgroupnsMode := CgroupnsMode h;
     SecurityOpt := SecurityOpt h; CapAdd := CapAdd h; Devices := Devices h;
     DeviceCgroupRules := DeviceCgroupRules h; Runtime := Runtime h; Sysctls := Sysctls h;
     CgroupParent := CgroupParent h; PortBindings := PortBindings h; PublishAllPorts := PublishAllPorts h;
     VolumesFrom := VolumesFrom h |}.
Definition set_IpcMode (h : hostConfig) x : hostConfig :=
  {| Binds := Binds h; Mounts := Mounts h; Privileged := Privileged h; NetworkMode := NetworkMode h;
     PidMode := PidMode h; IpcMode := x; UsernsMode := UsernsMode h; CgroupnsMode := CgroupnsMode h;
     SecurityOpt := SecurityOpt h; CapAdd := CapAdd h; Devices := Devices h;
     DeviceCgroupRules := DeviceCgroupRules h; Runtime := Runtime h; Sysctls := Sysctls h;
     CgroupParent := CgroupParent h; PortBindings := PortBindings h; PublishAllPorts := PublishAllPorts h;
     VolumesFrom := VolumesFrom h |}.
Definition set_UsernsMode (h : hostConfig) x : hostConfig :=
  {| Binds := Binds h; Mounts := Mounts h; Privileged := Privileged h; NetworkMode := NetworkMode h;
     PidMode := PidMode h; IpcMode := IpcMode h; UsernsMode := x; CgroupnsMode := CgroupnsMode h;
     SecurityOpt := SecurityOpt h; CapAdd := CapAdd h; Devices := Devices h;
     DeviceCgroupRules := DeviceCgroupRules h; Runtime := Runtime h; Sysctls := Sysctls h;
     CgroupParent := CgroupParent h; PortBindings := PortBindings h; PublishAllPorts := PublishAllPorts h;
     VolumesFrom := VolumesFrom h |}.
Definition set_CgroupnsMode (h : hostConfig) x : hostConfig :=
  {| Binds := Binds h; Mounts := Mounts h; Privileged := Privileged h; NetworkMode := NetworkMode h;
     PidMode := PidMode h; IpcMode := IpcMode h; UsernsMode := UsernsMode h; CgroupnsMode := x;
     SecurityOpt := SecurityOpt h; CapAdd := CapAdd h; Devices := Devices h;
     DeviceCgroupRules := DeviceCgroupRules h; Runtime := Runtime h; Sysctls := Sysctls h;
     CgroupParent := CgroupParent h; PortBindings := PortBindings h; PublishAllPorts := PublishAllPorts h;
     VolumesFrom := VolumesFrom h |}.
Definition set_SecurityOpt (h : hostConfig) x : hostConfig :=
  {| Binds := Binds h; Mounts := Mounts h; Privileged := Privileged h; NetworkMode := NetworkMode h;
     PidMode := PidMode h; IpcMode := IpcMode h; UsernsMode := UsernsMode h; CgroupnsMode := CgroupnsMode h;
     SecurityOpt := x; CapAdd := CapAdd h; Devices := Devices h; DeviceCgroupRules := DeviceCgroupRules h;
     Runtime := Runtime h; Sysctls := Sysctls h; CgroupParent := CgroupParent h;
     PortBindings := PortBindings h; PublishAllPorts := PublishAllPorts h; VolumesFrom := VolumesFrom h |}.
Definition set_CapAdd (h : hostConfig) x : hostConfig :=
  {| Binds := Binds h; Mounts := Mounts h; Privileged := Privileged h; NetworkMode := NetworkMode h;
     PidMode := PidMode h; IpcMode := IpcMode h; UsernsMode := UsernsMode h; CgroupnsMode := CgroupnsMode h;
     SecurityOpt := SecurityOpt h; CapAdd := x; Devices := Devices h; DeviceCgroupRules := DeviceCgroupRules h;
     Runtime := Runtime h; Sysctls := Sysctls h; CgroupParent := CgroupParent h;
     PortBindings := PortBindings h; PublishAllPorts := PublishAllPorts h; VolumesFrom := VolumesFrom h |}.
Definition set_Devices (h : hostConfig) x : hostConfig :=
  {| Binds := Binds h; Mounts := Mounts h; Privileged := Privileged h; NetworkMode := NetworkMode h;
     PidMode := PidMode h; IpcMode := IpcMode h; UsernsMode := UsernsMode h; CgroupnsMode := CgroupnsMode h;
     SecurityOpt := SecurityOpt h; CapAdd := CapAdd h; Devices := x; DeviceCgroupRules := DeviceCgroupRules h;
     Runtime := Runtime h; Sysctls := Sysctls h; CgroupParent := CgroupParent h;
     PortBindings := PortBindings h; PublishAllPorts := PublishAllPorts h; VolumesFrom := VolumesFrom h |}.
Definition set_DeviceCgroupRules (h : hostConfig) x : hostConfig :=
  {| Binds := Binds h; Mounts := Mounts h; Privileged := Privileged h; NetworkMode := NetworkMode h;
     PidMode := PidMode h; IpcMode := IpcMode h; UsernsMode := UsernsMode h; CgroupnsMode := CgroupnsMode h;
     SecurityOpt := SecurityOpt h; CapAdd := CapAdd h; Devices := Devices h; DeviceCgroupRules := x;
     Runtime := Runtime h; Sysctls := Sysctls h; CgroupParent := CgroupParent h;
     PortBindings := PortBindings h; PublishAllPorts := PublishAllPorts h; VolumesFrom := VolumesFrom h |}.
Definition set_Runtime (h : hostConfig) x : hostConfig :=
  {| Binds := Binds h; Mounts := Mounts h; Privileged := Privileged h; NetworkMode := NetworkMode h;
     PidMode := PidMode h; IpcMode := IpcMode h; UsernsMode := UsernsMode h; CgroupnsMode := CgroupnsMode h;
     SecurityOpt := SecurityOpt h; CapAdd := CapAdd h; Devices := Devices h;
     DeviceCgroupRules := DeviceCgroupRules h; Runtime := x; Sysctls := Sysctls h;
     CgroupParent := CgroupParent h; PortBindings := PortBindings h; PublishAllPorts := PublishAllPorts h;
     VolumesFrom := VolumesFrom h |}.
Definition set_Sysctls (h : hostConfig) x : hostConfig :=
  {| Binds := Binds h; Mounts := Mounts h; Privileged := Privileged h; NetworkMode := NetworkMode h;
     PidMode := PidMode h; IpcMode := IpcMode h; UsernsMode := UsernsMode h; CgroupnsMode := CgroupnsMode h;
     SecurityOpt := SecurityOpt h; CapAdd := CapAdd h; Devices := Devices h;
     DeviceCgroupRules := DeviceCgroupRules h; Runtime := Runtime h; Sysctls := x;
     CgroupParent := CgroupParent h; PortBindings := PortBindings h; PublishAllPorts := PublishAllPorts h;
     VolumesFrom := VolumesFrom h |}.
Definition set_CgroupParent (h : hostConfig) x : hostConfig :=
  {| Binds := Binds h; Mounts := Mounts h; Privileged := Privileged h; NetworkMode := NetworkMode h;
     PidMode := PidMode h; IpcMode := IpcMode h; UsernsMode := UsernsMode h; CgroupnsMode := CgroupnsMode h;
     SecurityOpt := SecurityOpt h; CapAdd := CapAdd h; Devices := Devices h;
     DeviceCgroupRules := DeviceCgroupRules h; Runtime := Runtime h; Sysctls := Sysctls h; CgroupParent := x;
     PortBindings := PortBindings h; PublishAllPorts := PublishAllPorts h; VolumesFrom := VolumesFrom h |}.
Definition set_PortBindings (h : hostConfig) x : hostConfig :=
  {| Binds := Binds h; Mounts := Mounts h; Privileged := Privileged h; NetworkMode := NetworkMode h;
     PidMode := PidMode h; IpcMode := IpcMode h; UsernsMode := UsernsMode h; CgroupnsMode := CgroupnsMode h;
     SecurityOpt := SecurityOpt h; CapAdd := CapAdd h; Devices := Devices h;
     DeviceCgroupRules := DeviceCgroupRules h; Runtime := Runtime h; Sysctls := Sysctls h;
     CgroupParent := CgroupParent h; PortBindings := x; PublishAllPorts := PublishAllPorts h;
     VolumesFrom := VolumesFrom h |}.
Definition set_PublishAllPorts (h : hostConfig) x : hostConfig :=
  {| Binds := Binds h; Mounts := Mounts h; Privileged := Privileged h; NetworkMode := NetworkMode h;
     PidMode := PidMode h; IpcMode := IpcMode h; UsernsMode := UsernsMode h; CgroupnsMode := CgroupnsMode h;
     SecurityOpt := SecurityOpt h; CapAdd := CapAdd h; Devices := Devices h;
     DeviceCgroupRules := DeviceCgroupRules h; Runtime := Runtime h; Sysctls := Sysctls h;
     CgroupParent := CgroupParent h; PortBindings := PortBindings h; PublishAllPorts := x;
     VolumesFrom := VolumesFrom h |}.
Definition set_VolumesFrom (h : hostConfig) x : hostConfig :=
  {| Binds := Binds h; Mounts := Mounts h; Privileged := Privileged h; NetworkMode := NetworkMode h;
     PidMode := PidMode h; IpcMode := IpcMode h; UsernsMode := UsernsMode h; CgroupnsMode := CgroupnsMode h;
     SecurityOpt := SecurityOpt h; CapAdd := CapAdd h; Devices := Devices h;
     DeviceCgroupRules := DeviceCgroupRules h; Runtime := Runtime h; Sysctls := Sysctls h;
     CgroupParent := CgroupParent h; PortBindings := PortBindings h; PublishAllPorts := PublishAllPorts h;
     VolumesFrom := x |}.

Definition host_fields : list host_field :=
  [field_of "Binds" (dec_slice "" dec_string) Binds set_Binds;
   field_of "Mounts" (dec_slice zero_mount (dec_struct mount_member)) Mounts set_Mounts;
   field_of "Privileged" (dec_bool) Privileged set_Privileged;
   field_of "NetworkMode" (dec_string) NetworkMode set_NetworkMode;
   field_of "PidMode" (dec_string) PidMode set_PidMode;
   field_of "IpcMode" (dec_string) IpcMode set_IpcMode;
   field_of "UsernsMode" (dec_string) UsernsMode set_UsernsMode;
   field_of "CgroupnsMode" (dec_string) CgroupnsMode set_CgroupnsMode;
   field_of "SecurityOpt" (dec_slice "" dec_string) SecurityOpt set_SecurityOpt;
   field_of "CapAdd" (dec_slice "" dec_string) CapAdd set_CapAdd;
   field_of "Devices" (dec_slice JNull dec_any) Devices set_Devices;
   field_of "DeviceCgroupRules" (dec_slice "" dec_string) DeviceCgroupRules set_DeviceCgroupRules;
   field_of "Runtime" (dec_string) Runtime set_Runtime;
   field_of "Sysctls" (dec_map "" dec_string) Sysctls set_Sysctls;
   field_of "CgroupParent" (dec_string) CgroupParent set_CgroupParent;
   field_of "PortBindings" (dec_map JNull dec_any) PortBindings set_PortBindings;
   field_of "PublishAllPorts" (dec_bool) PublishAllPorts set_PublishAllPorts;
   field_of "VolumesFrom" (dec_slice "" dec_string) VolumesFrom set_VolumesFrom].

Definition host_member (h : hostConfig) (k : string) (v : json) : hostConfig * bool :=
  match List.find (λ f, field_matches (HfName f) k) host_fields with
  | Some f => HfDecode f h v
  | None => (h, true)
  end.

(** The HostConfig of a containers/create body; an error if any member of it
    has the wrong type. *)
Definition create_member (h : hostConfig) (k : string) (v : json) : hostConfig * bool :=
  if field_matches "HostConfig" k then dec_struct host_member h v else (h, true).
Definition unmarshal_create (v : json) : option hostConfig :=
  let r := dec_struct create_member zero_host v in if r.2 then Some r.1 else None.

(** ** The checks *)
Definition isDangerousMode (mode : string) : bool :=
  bool_decide (mode = "host") || has_prefix "container:" mode || has_prefix "ns:" mode.

(** The decoded JSON of a body: [None] when it is too long or not JSON of the
    expected shape, [Some None] when it is empty. *)
Definition read_json {A} (b : body) (decode : json → option A) : option (option A) :=
  if (MaxBodyBytes <? BLen b)%Z then None
  else match BRaw b with
       | REmpty => Some None
       | RBad _ => None
       | RText _ v => Some <$> decode v
       end.

(** An option that makes a volume a bind mount of a host path. *)
Definition binds_host (options : gmap string string) : bool :=
  bool_decide (is_Some (options !! "device")) || contains "bind" (default "" (options !! "o")).

Definition mount_ok (reserved : ReservedVolumes) (m : mountSpec) : bool :=
  negb (IsReserved reserved (MSource m))
  && negb (bool_decide (ToLower (MType m) = "bind"))
  && negb (bool_decide (ToLower (MType m) = "volume")
           && match VolumeOptions m ≫= DriverConfig with Some dc => binds_host (Options dc) | None => false end).

Definition slice_empty {A} (s : gslice A) : bool := (slice_len s =? 0)%nat.

Definition host_ok (denyHostPortPublish : bool) (reserved : ReservedVolumes) (hc : hostConfig) : bool :=
  slice_empty (Binds hc)
  && slice_empty (VolumesFrom hc)
  && forallb (mount_ok reserved) (slice_elems (Mounts hc))
  && negb (Privileged hc)
  && negb (isDangerousMode (NetworkMode hc))
  && (negb denyHostPortPublish || (bool_decide (PortBindings hc = ∅) && negb (PublishAllPorts hc)))
  && negb (isDangerousMode (PidMode hc))
  && negb (isDangerousMode (IpcMode hc))
  && negb (bool_decide (UsernsMode hc = "host"))
  && negb (bool_decide (CgroupnsMode hc = "host"))
  && slice_empty (SecurityOpt hc)
  && slice_empty (CapAdd hc)
  && slice_empty (Devices hc)
  && slice_empty (DeviceCgroupRules hc)
  && (str_empty (Runtime hc) || bool_decide (Runtime hc = "runc"))
  && bool_decide (Sysctls hc = ∅)
  && str_empty (CgroupParent hc).

Definition verdict_of {A} (ok : A → bool) (r : option (option A)) : Verdict :=
  match r with
  | None => deny
  | Some None => allow
  | Some (Some a) => if ok a then allow else deny
  end.

Definition checkContainersCreate (b : body) (denyHostPortPublish : bool) (reserved : ReservedVolumes) : Verdict :=
  verdict_of (host_ok denyHostPortPublish reserved) (read_json b unmarshal_create).

(** [json.Unmarshal] into a struct with one field of interest. *)
Definition unmarshal_one {A} (name : string) (zero : A) (d : decoder A) (v : json) : option A :=
  let r := dec_at name d zero v in if r.2 then Some r.1 else None.

Definition checkNetworksCreate (b : body) : Verdict :=
  verdict_of (λ driver, negb (bool_decide (driver = "host"))) (read_json b (unmarshal_one "Driver" "" dec_string)).

Record volumesCreateBody : Type := { VName : string; DriverOpts : gmap string string }.
Definition volumes_member (r : volumesCreateBody) (k : string) (v : json) : volumesCreateBody * bool :=
  if field_matches "Name" k then let d := dec_string (VName r) v in ({| VName := d.1; DriverOpts := DriverOpts r |}, d.2)
  else if field_matches "DriverOpts" k then
    let d := dec_map "" dec_string (DriverOpts r) v in ({| VName := VName r; DriverOpts := d.1 |}, d.2)
  else (r, true).
Definition unmarshal_volume (v : json) : option volumesCreateBody :=
  let r := dec_struct volumes_member {| VName := ""; DriverOpts := ∅ |} v in if r.2 then Some r.1 else None.

Definition checkVolumesCreate (b : body) (reserved : ReservedVolumes) : Verdict :=
  verdict_of (λ r, negb (IsReserved reserved (VName r)) && negb (binds_host (DriverOpts r))) (read_json b unmarshal_volume).

Definition checkExecCreate (b : body) : Verdict :=
  verdict_of negb (read_json b (unmarshal_one "Privileged" false dec_bool)).

(** A body of white space only counts as empty here; [dec_ptr] of the member's
    own text is what *json.RawMessage keeps. *)
Definition checkContainerStart (b : body) : Verdict :=
  if (MaxBodyBytes <? BLen b)%Z then deny
  else match BRaw b with
       | REmpty => allow
       | RBad bytes => if str_empty (TrimSpace bytes) then allow else deny
       | RText _ v =>
           match unmarshal_one "HostConfig" None (dec_ptr JNull dec_any) v with
           | None => deny
           | Some None => allow
           | Some (Some hc) =>
               match hc with
               | JNull => allow
               | JObj [] => if BHostCompact b then allow else deny
               | _ => deny
               end
           end
       end.

Definition allowed_posts : list string :=
  ["/containers/*/stop"; "/containers/*/wait"; "/containers/*/kill"; "/containers/*/restart"; "/containers/*/pause";
   "/containers/*/unpause"; "/containers/*/attach"; "/containers/*/resize"; "/containers/*/rename"; "/exec/*/start";
   "/exec/*/resize"; "/images/create"; "/images/*/tag"; "/images/*/push"; "/networks/*/connect"; "/networks/*/disconnect";
   "/containers/prune"; "/images/prune"; "/networks/prune"; "/system/prune"].

Definition isAllowedMutating (method bare : string) (reserved : ReservedVolumes) : bool :=
  if bool_decide (method = "POST") then matchesAny bare allowed_posts
  else if bool_decide (method = "DELETE") then
    if matchesPattern bare "/volumes/*" then negb (IsReserved reserved (scopeTarget bare).2)
    else matchesAny bare ["/containers/*"; "/images/*"; "/networks/*"]
  else false.

Definition CheckRequest (method path : string) (b : body) (denyHostPortPublish : bool) (reserved : ReservedVolumes) : Verdict :=
  let bare := stripVersion path in
  let method := ToUpper method in
  if bool_decide (method ∈ ["GET"; "HEAD"]) then allow
  else if isAllowedMutating method bare reserved then allow
  else if bool_decide (method = "DELETE") && matchesPattern bare "/volumes/*" then deny
  else if bool_decide (method = "POST") && bool_decide (bare = "/volumes/prune") then deny
  else if bool_decide (method = "POST") then
    if bool_decide (bare = "/containers/create") then checkContainersCreate b denyHostPortPublish reserved
    else if matchesPattern bare "/containers/*/exec" then checkExecCreate b
    else if matchesPattern bare "/containers/*/start" then checkContainerStart b
    else if bool_decide (bare = "/networks/create") then checkNetworksCreate b
    else if bool_decide (bare = "/volumes/create") then checkVolumesCreate b reserved
    else deny
  else deny.

(** ** The ledger *)
Record ResourceEntry : Type := { ReType : string; ReID : string }.
#[export] Instance ResourceEntry_eq_dec : EqDecision ResourceEntry.
Proof. solve_decision. Defined.

Definition Contains (entries : list ResourceEntry) (resourceType id : string) : bool :=
  bool_decide ({| ReType := resourceType; ReID := id |} ∈ entries).

Definition creationResourceType (method bare : string) : string * string :=
  if negb (bool_decide (method = "POST")) then ("", "")
  else if bool_decide (bare = "/containers/create") then ("container", "Id")
  else if bool_decide (bare = "/networks/create") then ("network", "Id")
  else if bool_decide (bare = "/volumes/create") then ("volume", "Name")
  else if matchesPattern bare "/containers/*/exec" then ("exec", "Id")
  else ("", "").

Definition extractCreationID (r : raw) (field : string) : string :=
  match unmarshal_map r with
  | None => ""
  | Some m => match go_lookup m field with Some (JStr id) => id | _ => "" end
  end.

(** ** The server *)

(** [ledger] is [None] when none is attached. *)
Record Server : Type := {
  ledger : option (list ResourceEntry);
  workspaceNetwork : string;
  reservedVolumes : ReservedVolumes;
}.

Definition network_config (network : string) : json :=
  JObj [("EndpointsConfig", JObj [(network, JObj [])])].

(** The members in byte order of their names, as a marshalled map has them.  On
    the body null the map is nil, and the assignment panics. *)
Definition injectWorkspaceNetwork (r : raw) (network : string) : outcome unit raw :=
  match unmarshal_map (if len0 r then raw_obj0 else r) with
  | None => Ok r
  | Some m => m ← go_set m "NetworkingConfig" (network_config network); Ok (marshal_map m)
  end.

Inductive reply : Type :=
| Refused (status : Z)
| Forward (r : raw)
| Crashed.

(** [serveHTTP] up to the call of the engine. *)
Definition serveHTTP (s : Server) (r : request) : reply :=
  let method := ToUpper (Method r) in
  let bare := stripVersion (Path r) in
  if (MaxBodyBytes <? BLen (Body r))%Z then Refused 413
  else
    let '(resType, id) := scopeTarget bare in
    if match ledger s with
       | Some entries => negb (str_empty resType) && negb (Contains entries resType id)
       | None => false
       end then Refused 404
    else
      match CheckRequest method (Path r) (Body r) (negb (str_empty (workspaceNetwork s))) (reservedVolumes s) with
      | deny => Refused 403
      | allow =>
          if negb (str_empty (workspaceNetwork s)) && bool_decide (method = "POST") && bool_decide (bare = "/containers/create")
          then match injectWorkspaceNetwork (BRaw (Body r)) (workspaceNetwork s) with
               | Ok b => Forward b
               | _ => Crashed
               end
          else Forward (BRaw (Body r))
      end.

(** What the engine answers, and whether the ledger's file could be written. *)
Record answer : Type := { AnStatus : Z; AnLen : Z; AnBody : raw; AnRecorded : bool }.

(** The entry a forwarded request adds to the ledger. *)
Definition created_entry (r : request) (a : answer) : option ResourceEntry :=
  let '(resType, field) := creationResourceType (ToUpper (Method r)) (stripVersion (Path r)) in
  let id := extractCreationID (AnBody a) field in
  if negb (str_empty resType) && (200 <=? AnStatus a)%Z && (AnStatus a <? 300)%Z && (AnLen a <=? MaxBodyBytes)%Z
     && negb (str_empty id) && AnRecorded a
  then Some {| ReType := resType; ReID := id |} else None.

(** One request and the engine's answer to it, should it get there. *)
Definition exchange (s : Server) (x : request * answer) : Server :=
  match serveHTTP s x.1 with
  | Forward _ =>
      {| ledger := (λ es, es ++ option_list (created_entry x.1 x.2)) <$> ledger s;
         workspaceNetwork := workspaceNetwork s; reservedVolumes := reservedVolumes s |}
  | _ => s
  end.

(** ** Decoding, member by member *)
Section struct_fields.
Context {A B : Type} (member : A → string → json → A * bool) (name : string) (get : A → B) (d : decoder B).
Context (other : ∀ h k v, field_matches name k = false → get (member h k v).1 = get h).
Context (own : ∀ h k v, field_matches name k = true → get (member h k v).1 = (d (get h) v).1).

Lemma decode_others acc fs :
  Forall (λ kv, field_matches name kv.1 = false) fs → get (foldl (dec_member member) acc fs).1 = get acc.1.
Proof.
  revert acc. induction fs as [|[k v] fs IH]; intros acc Hall; [done|]. apply Forall_cons in Hall as [Hk Hall]. simpl.
  rewrite IH by done. simpl. by apply other.
Qed.

(** A field is decoded from the only member whose name matches it. *)
Lemma decode_only fs1 k v fs2 h :
  Forall (λ kv, field_matches name kv.1 = false) (fs1 ++ fs2) → field_matches name k = true →
  get (dec_struct member h (JObj (fs1 ++ (k, v) :: fs2))).1 = (d (get h) v).1.
Proof.
  intros [H1 H2]%Forall_app Hk. simpl. rewrite foldl_app. simpl. rewrite decode_others by done. simpl.
  rewrite own by done. by rewrite decode_others.
Qed.
End struct_fields.

(** No two members of an object have names that encoding/json takes for the
    same field. *)
Definition distinct_names (fs : list (string * json)) : Prop := NoDup (fold_name <$> fs.*1).

Lemma distinct_split name fs k v :
  distinct_names fs → (k, v) ∈ fs → field_matches name k = true →
  ∃ fs1 fs2, fs = fs1 ++ (k, v) :: fs2 ∧ Forall (λ kv, field_matches name kv.1 = false) (fs1 ++ fs2).
Proof.
  intros Hd (fs1 & fs2 & ->)%list_elem_of_split Hk. exists fs1, fs2. split; [done|].
  unfold distinct_names in Hd. rewrite !fmap_app in Hd. simpl in Hd. rewrite <- Permutation_middle, NoDup_cons in Hd.
  destruct Hd as [Hnin _]. apply Forall_forall. intros [k' v'] Hin. unfold field_matches in *.
  apply bool_decide_eq_true in Hk. apply bool_decide_eq_false. simpl. intros Hk'. apply Hnin. rewrite Hk, <- Hk', <- !fmap_app.
  apply list_elem_of_fmap. exists k'. split; [done|]. apply list_elem_of_fmap. by exists (k', v').
Qed.

Lemma distinct_same name fs k v k' v' :
  distinct_names fs → (k, v) ∈ fs → (k', v') ∈ fs → field_matches name k = true → field_matches name k' = true →
  (k', v') = (k, v).
Proof.
  intros Hd Hin Hin' Hk Hk'. destruct (distinct_split _ _ _ _ Hd Hin Hk) as (fs1 & fs2 & -> & Hall).
  rewrite <- Permutation_middle, elem_of_cons in Hin'. destruct Hin' as [|Hin']; [done|].
  rewrite Forall_forall in Hall. specialize (Hall _ Hin'). simpl in Hall. congruence.
Qed.

Lemma host_member_cases h k v :
  (∃ f, f ∈ host_fields ∧ field_matches (HfName f) k = true ∧ host_member h k v = HfDecode f h v) ∨
  (∀ f, f ∈ host_fields → field_matches (HfName f) k = false) ∧ host_member h k v = (h, true).
Proof.
  unfold host_member. destruct (List.find _ host_fields) as [f|] eqn:Hf.
  - apply find_some in Hf as [Hin Hm]. left. exists f. split; [by apply list_elem_of_In|done].
  - right. split; [|done]. intros f Hin. by apply (find_none _ _ Hf), list_elem_of_In.
Qed.

Lemma same_field a b k : field_matches a k = true → field_matches b k = true → fold_name a = fold_name b.
Proof. unfold field_matches. by intros <-%bool_decide_eq_true <-%bool_decide_eq_true. Qed.

(** The field [name] of the struct is decoded with [d], and from no other
    member. *)
Definition decodes {B} (name : string) (d : decoder B) (get : hostConfig → B) : Prop :=
  (∀ h k v, field_matches name k = false → get (host_member h k v).1 = get h) ∧
  (∀ h k v, field_matches name k = true → get (host_member h k v).1 = (d (get h) v).1).

Ltac decodes_tac :=
  split; intros h k v Hk; destruct (host_member_cases h k v) as [(f & Hin & Hm & ->)|[Hno ->]];
  [ unfold host_fields in Hin;
    repeat (apply elem_of_cons in Hin as [->|Hin]; [first [reflexivity | cbn in Hm; congruence]|]); by apply elem_of_nil in Hin
  | reflexivity
  | unfold host_fields in Hin;
    repeat (apply elem_of_cons in Hin as [->|Hin];
            [first [reflexivity | by pose proof (same_field _ _ _ Hk Hm) as Hc; vm_compute in Hc]|]); by apply elem_of_nil in Hin
  | exfalso; rewrite <- Forall_forall in Hno; unfold host_fields in Hno; repeat (apply Forall_cons in Hno as [? Hno]);
    cbn [HfName field_of] in *; congruence ].

Lemma Binds_decodes : decodes "Binds" (dec_slice "" dec_string) Binds.
Proof. decodes_tac. Qed.
Lemma VolumesFrom_decodes : decodes "VolumesFrom" (dec_slice "" dec_string) VolumesFrom.
Proof. decodes_tac. Qed.
Lemma Mounts_decodes : decodes "Mounts" (dec_slice zero_mount (dec_struct mount_member)) Mounts.
Proof. decodes_tac. Qed.
Lemma Privileged_decodes : decodes "Privileged" (dec_bool) Privileged.
Proof. decodes_tac. Qed.
Lemma NetworkMode_decodes : decodes "NetworkMode" (dec_string) NetworkMode.
Proof. decodes_tac. Qed.
Lemma PidMode_decodes : decodes "PidMode" (dec_string) PidMode.
Proof. decodes_tac. Qed.
Lemma IpcMode_decodes : decodes "IpcMode" (dec_string) IpcMode.
Proof. decodes_tac. Qed.
Lemma UsernsMode_decodes : decodes "UsernsMode" (dec_string) UsernsMode.
Proof. decodes_tac. Qed.
Lemma CgroupnsMode_decodes : decodes "CgroupnsMode" (dec_string) CgroupnsMode.
Proof. decodes_tac. Qed.
Lemma SecurityOpt_decodes : decodes "SecurityOpt" (dec_slice "" dec_string) SecurityOpt.
Proof. decodes_tac. Qed.
Lemma CapAdd_decodes : decodes "CapAdd" (dec_slice "" dec_string) CapAdd.
Proof. decodes_tac. Qed.
Lemma Devices_decodes : decodes "Devices" (dec_slice JNull dec_any) Devices.
Proof. decodes_tac. Qed.
Lemma DeviceCgroupRules_decodes : decodes "DeviceCgroupRules" (dec_slice "" dec_string) DeviceCgroupRules.
Proof. decodes_tac. Qed.
Lemma Runtime_decodes : decodes "Runtime" (dec_string) Runtime.
Proof. decodes_tac. Qed.
Lemma Sysctls_decodes : decodes "Sysctls" (dec_map "" dec_string) Sysctls.
Proof. decodes_tac. Qed.
Lemma CgroupParent_decodes : decodes "CgroupParent" (dec_string) CgroupParent.
Proof. decodes_tac. Qed.
Lemma PortBindings_decodes : decodes "PortBindings" (dec_map JNull dec_any) PortBindings.
Proof. decodes_tac. Qed.
Lemma PublishAllPorts_decodes : decodes "PublishAllPorts" (dec_bool) PublishAllPorts.
Proof. decodes_tac. Qed.

(** ** What a container may not ask for

    Stated on the JSON text, for every spelling and order of names that are
    distinct up to case: a mount of a host path or of a reserved volume, and a
    member of HostConfig that reaches beyond the sandbox. *)
Definition reserved_name (reserved : ReservedVolumes) (name : string) : Prop := (∃ x, name = "boid-ws-" +:+ x) ∨ name ∈ names reserved.
Definition host_mode (mode : string) : Prop := mode = "host" ∨ ∃ x, mode = "container:" +:+ x ∨ mode = "ns:" +:+ x.
Definition bad_mount (reserved : ReservedVolumes) (m : json) : Prop :=
  ∃ fs k x, m = JObj fs ∧ distinct_names fs ∧ (k, JStr x) ∈ fs ∧
    (field_matches "Type" k = true ∧ ToLower x = "bind" ∨ field_matches "Source" k = true ∧ reserved_name reserved x).

Inductive dangerous (net : bool) (reserved : ReservedVolumes) : string → json → Prop :=
| dg_list name x xs :
    name ∈ ["Binds"; "VolumesFrom"; "SecurityOpt"; "CapAdd"; "Devices"; "DeviceCgroupRules"] →
    dangerous net reserved name (JArr (x :: xs))
| dg_privileged : dangerous net reserved "Privileged" (JBool true)
| dg_mode name m : name ∈ ["NetworkMode"; "PidMode"; "IpcMode"] → host_mode m → dangerous net reserved name (JStr m)
| dg_namespace name : name ∈ ["UsernsMode"; "CgroupnsMode"] → dangerous net reserved name (JStr "host")
| dg_runtime r : r ∉ [""; "runc"] → dangerous net reserved "Runtime" (JStr r)
| dg_cgroup p : p ≠ "" → dangerous net reserved "CgroupParent" (JStr p)
| dg_sysctl kv fs : dangerous net reserved "Sysctls" (JObj (kv :: fs))
| dg_ports kv fs : net = true → dangerous net reserved "PortBindings" (JObj (kv :: fs))
| dg_publish : net = true → dangerous net reserved "PublishAllPorts" (JBool true)
| dg_mount ms m : m ∈ ms → bad_mount reserved m → dangerous net reserved "Mounts" (JArr ms).

Lemma dec_map_keeps {A} (zero : A) (d : decoder A) (fs : list (string * json)) (acc : gmap string A * bool) k :
  is_Some (acc.1 !! k) →
  is_Some ((foldl (λ acc kv, let r := d zero kv.2 in (<[kv.1 := r.1]> acc.1, acc.2 && r.2)) acc fs).1 !! k).
Proof.
  revert acc. induction fs as [|kv fs IH]; intros acc Hk; simpl; [done|]. apply IH. simpl.
  destruct (decide (k = kv.1)) as [->|Hne]; [rewrite lookup_insert_eq; by eexists|by rewrite lookup_insert_ne].
Qed.
Lemma dec_map_nonempty {A} (zero : A) (d : decoder A) kv fs : (dec_map zero d ∅ (JObj (kv :: fs))).1 ≠ ∅.
Proof.
  intros Hempty. unfold dec_map in Hempty. cbn [foldl] in Hempty.
  match type of Hempty with (foldl _ ?acc _).1 = _ => destruct (dec_map_keeps zero d fs acc kv.1) as [x Hx] end.
  { cbn [fst]. rewrite lookup_insert_eq. by eexists. }
  apply (f_equal (lookup kv.1)) in Hempty. rewrite lookup_empty in Hempty.
  enough (Some x = None) by done. etrans; [symmetry; exact Hx|exact Hempty].
Qed.

Lemma mount_type_value fs k v :
  distinct_names fs → (k, v) ∈ fs → field_matches "Type" k = true →
  MType (dec_struct mount_member zero_mount (JObj fs)).1 = (dec_string "" v).1.
Proof.
  intros Hd Hin Hk. destruct (distinct_split _ _ _ _ Hd Hin Hk) as (fs1 & fs2 & -> & Hall).
  apply (decode_only mount_member "Type" MType dec_string); [| |done|done]; intros h k0 v0 Hk0; unfold mount_member; rewrite Hk0.
  - destruct (field_matches "Source" k0); [done|]. by destruct (field_matches "VolumeOptions" k0).
  - done.
Qed.
Lemma mount_source_value fs k v :
  distinct_names fs → (k, v) ∈ fs → field_matches "Source" k = true →
  MSource (dec_struct mount_member zero_mount (JObj fs)).1 = (dec_string "" v).1.
Proof.
  intros Hd Hin Hk. destruct (distinct_split _ _ _ _ Hd Hin Hk) as (fs1 & fs2 & -> & Hall).
  apply (decode_only mount_member "Source" MSource dec_string); [| |done|done]; intros h k0 v0 Hk0; unfold mount_member; rewrite Hk0.
  - destruct (field_matches "Type" k0); [done|]. by destruct (field_matches "VolumeOptions" k0).
  - destruct (field_matches "Type" k0) eqn:Ht; [|done]. by pose proof (same_field _ _ _ Hk0 Ht) as Hc; vm_compute in Hc.
Qed.

Lemma has_prefix_app p x : has_prefix p (p +:+ x) = true.
Proof. induction p as [|c p IH]; [done|]. change (String c p +:+ x) with (String c (p +:+ x)). cbn. by rewrite bool_decide_true. Qed.
Lemma IsReserved_name reserved name : reserved_name reserved name → IsReserved reserved name = true.
Proof.
  unfold IsReserved, IsReservedVolumeName, ReservedVolumeNamePrefix. intros [[x ->]|Hn]; [by rewrite has_prefix_app|].
  rewrite bool_decide_true by done. apply orb_true_r.
Qed.
Lemma isDangerousMode_host mode : host_mode mode → isDangerousMode mode = true.
Proof.
  unfold isDangerousMode. intros [->|[x [->| ->]]]; [done|rewrite has_prefix_app|rewrite has_prefix_app]; by rewrite ?orb_true_r.
Qed.
Lemma bad_mount_decodes reserved m : bad_mount reserved m → mount_ok reserved (dec_struct mount_member zero_mount m).1 = false.
Proof.
  intros (fs & k & x & -> & Hd & Hin & [[Hk Hx]|[Hk Hx]]); unfold mount_ok.
  - rewrite (mount_type_value _ _ _ Hd Hin Hk). cbn [dec_string fst]. rewrite Hx. by rewrite andb_false_r.
  - rewrite (mount_source_value _ _ _ Hd Hin Hk). cbn [dec_string fst]. by rewrite (IsReserved_name _ _ Hx).
Qed.

(** The elements of a fresh slice are decoded into zero values. *)
Lemma slice_member {A} (zero : A) (d : decoder A) items x :
  x ∈ items → List.In (d zero x).1 (slice_elems (dec_slice zero d nil_slice (JArr items)).1).
Proof.
  intros Hx. apply list_elem_of_In. destruct items as [|i items]; [by apply elem_of_nil in Hx|].
  unfold slice_elems. cbn [dec_slice slice_len backing fst nil_slice]. rewrite drop_nil, app_nil_r.
  rewrite take_ge by (rewrite length_fmap, length_imap; done).
  apply list_elem_of_lookup in Hx as [n Hn]. apply list_elem_of_lookup. exists n. rewrite list_lookup_fmap, list_lookup_imap, Hn.
  reflexivity.
Qed.

Lemma host_field_value {B} name (d : decoder B) get hs k v :
  decodes name d get → distinct_names hs → (k, v) ∈ hs → field_matches name k = true →
  get (dec_struct host_member zero_host (JObj hs)).1 = (d (get zero_host) v).1.
Proof.
  intros [Ho Hw] Hd Hin Hk. destruct (distinct_split _ _ _ _ Hd Hin Hk) as (fs1 & fs2 & -> & Hall).
  by apply (decode_only host_member name get d).
Qed.

(** In [H], the field decoded by [D] is what the member says. *)
Ltac read_field D Hd Hin Hk H :=
  rewrite (host_field_value _ _ _ _ _ _ D Hd Hin Hk) in H; cbn [dec_string fst] in H.

(** One field that is not as it should be is enough. *)
Lemma host_ok_dangerous net reserved hs k name v :
  distinct_names hs → (k, v) ∈ hs → field_matches name k = true → dangerous net reserved name v →
  host_ok net reserved (dec_struct host_member zero_host (JObj hs)).1 = false.
Proof.
  intros Hd Hin Hk Hdg. apply not_true_iff_false. intros Hok. unfold host_ok in Hok. rewrite !andb_true_iff in Hok.
  destruct Hok as [[[[[[[[[[[[[[[[H1 H2] H3] H4] H5] H6] H7] H8] H9] H10] H11] H12] H13] H14] H15] H16] H17].
  destruct Hdg as [name x xs Hn| |name m Hn Hm|name Hn|r Hr|p Hp|kv fs|kv fs Hnet|Hnet|ms m Hm Hbad].
  - repeat (apply elem_of_cons in Hn as [->|Hn]); [..|by apply elem_of_nil in Hn].
    + by read_field Binds_decodes Hd Hin Hk H1.
    + by read_field VolumesFrom_decodes Hd Hin Hk H2.
    + by read_field SecurityOpt_decodes Hd Hin Hk H11.
    + by read_field CapAdd_decodes Hd Hin Hk H12.
    + by read_field Devices_decodes Hd Hin Hk H13.
    + by read_field DeviceCgroupRules_decodes Hd Hin Hk H14.
  - by read_field Privileged_decodes Hd Hin Hk H4.
  - apply isDangerousMode_host in Hm. repeat (apply elem_of_cons in Hn as [->|Hn]); [..|by apply elem_of_nil in Hn].
    + read_field NetworkMode_decodes Hd Hin Hk H5. by rewrite Hm in H5.
    + read_field PidMode_decodes Hd Hin Hk H7. by rewrite Hm in H7.
    + read_field IpcMode_decodes Hd Hin Hk H8. by rewrite Hm in H8.
  - repeat (apply elem_of_cons in Hn as [->|Hn]); [..|by apply elem_of_nil in Hn].
    + by read_field UsernsMode_decodes Hd Hin Hk H9.
    + by read_field CgroupnsMode_decodes Hd Hin Hk H10.
  - read_field Runtime_decodes Hd Hin Hk H15. apply Hr.
    apply orb_true_iff in H15 as [He|He%bool_decide_eq_true]; [|subst; set_solver]. destruct r; [set_solver|done].
  - read_field CgroupParent_decodes Hd Hin Hk H17. by destruct p.
  - read_field Sysctls_decodes Hd Hin Hk H16. apply bool_decide_eq_true in H16. by apply dec_map_nonempty in H16.
  - subst net. apply andb_true_iff in H6 as [H6 _]. read_field PortBindings_decodes Hd Hin Hk H6.
    apply bool_decide_eq_true in H6. by apply dec_map_nonempty in H6.
  - subst net. apply andb_true_iff in H6 as [_ H6]. by read_field PublishAllPorts_decodes Hd Hin Hk H6.
  - read_field Mounts_decodes Hd Hin Hk H3. rewrite forallb_forall in H3. apply bad_mount_decodes in Hbad.
    rewrite (H3 _ (slice_member _ _ _ _ Hm)) in Hbad. done.
Qed.

(** ** Creating a container *)
Lemma create_step acc k v :
  dec_member create_member acc (k, v) =
    if field_matches "HostConfig" k then let r := dec_struct host_member acc.1 v in (r.1, acc.2 && r.2) else acc.
Proof.
  unfold dec_member, create_member. cbn [fst snd]. destruct (field_matches "HostConfig" k); [done|].
  destruct acc. cbn. by rewrite andb_true_r.
Qed.
Lemma create_others acc fs :
  Forall (λ kv, field_matches "HostConfig" kv.1 = false) fs → foldl (dec_member create_member) acc fs = acc.
Proof.
  revert acc. induction fs as [|[k v] fs IH]; intros acc Hall; [done|]. apply Forall_cons in Hall as [Hk Hall]. cbn [foldl].
  rewrite create_step. cbn [fst] in Hk. rewrite Hk. by apply IH.
Qed.

(** The member HostConfig alone decides. *)
Lemma unmarshal_create_at fs1 k v fs2 :
  Forall (λ kv, field_matches "HostConfig" kv.1 = false) (fs1 ++ fs2) → field_matches "HostConfig" k = true →
  unmarshal_create (JObj (fs1 ++ (k, v) :: fs2)) =
    (let r := dec_struct host_member zero_host v in if r.2 then Some r.1 else None).
Proof.
  intros [H1 H2]%Forall_app Hk. unfold unmarshal_create. cbn [dec_struct]. rewrite foldl_app. cbn [foldl].
  by rewrite (create_others _ _ H1), create_step, Hk, (create_others _ _ H2).
Qed.
Lemma unmarshal_create_only fs k v :
  distinct_names fs → (k, v) ∈ fs → field_matches "HostConfig" k = true →
  unmarshal_create (JObj fs) = (let r := dec_struct host_member zero_host v in if r.2 then Some r.1 else None).
Proof.
  intros Hd Hin Hk. destruct (distinct_split _ _ _ _ Hd Hin Hk) as (fs1 & fs2 & -> & Hall).
  by apply unmarshal_create_at.
Qed.
Lemma unmarshal_create_none fs :
  Forall (λ kv, field_matches "HostConfig" kv.1 = false) fs → unmarshal_create (JObj fs) = Some zero_host.
Proof. intros Hall. unfold unmarshal_create. cbn [dec_struct]. by rewrite (create_others _ _ Hall). Qed.

(** ** Paths with and without a version *)
Definition number (s : string) : Prop := s ≠ "" ∧ Forall (λ c, is_digit c = true) (String.list_ascii_of_string s).
Definition no_line_break (s : string) : Prop := ascii_of_N 10 ∉ String.list_ascii_of_string s.
(** The endpoint, alone or, if it has no line break, after a version such as
    /v1.41. *)
Definition at_endpoint (path bare : string) : Prop :=
  path = bare ∨ ∃ a b, number a ∧ number b ∧ path = "/v" +:+ a +:+ "." +:+ b +:+ bare ∧ no_line_break bare.
(** A containers/create request is decided by its own check. *)
Definition creates_container (r : request) : Prop := ToUpper (Method r) = "POST" ∧ at_endpoint (Path r) "/containers/create".

Definition digit_first (s : string) : Prop := match s with String c _ => is_digit c = true | EmptyString => False end.
Lemma skip_digits_spec s : ∃ a, Forall (λ c, is_digit c = true) (String.list_ascii_of_string a) ∧ s = a +:+ skip_digits s ∧ ¬ digit_first (skip_digits s).
Proof.
  induction s as [|c s (a & Ha & Hs & Hn)]; [exists ""; split_and!; [constructor|done|by intros []]|]. cbn. destruct (is_digit c) eqn:Hc.
  - exists (String c a). split_and!; [by constructor|exact (f_equal (String c) Hs)|done].
  - exists "". split_and!; [constructor|done|]. intros Hd. change (is_digit c = true) in Hd. congruence.
Qed.
Lemma skip_digits_app a rest :
  Forall (λ c, is_digit c = true) (String.list_ascii_of_string a) → ¬ digit_first rest → skip_digits (a +:+ rest) = rest.
Proof.
  intros Ha Hn. induction a as [|c a IH].
  - change ("" +:+ rest) with rest. destruct rest as [|c rest]; [done|]. cbn [skip_digits digit_first] in *. by destruct (is_digit c).
  - cbn [String.list_ascii_of_string] in Ha. apply Forall_cons in Ha as [Hc Ha]. change (String c a +:+ rest) with (String c (a +:+ rest)). cbn [skip_digits]. rewrite Hc. by apply IH.
Qed.
Lemma digits_then_spec s rest : digits_then s = Some rest ↔ ∃ a, number a ∧ s = a +:+ rest ∧ ¬ digit_first rest.
Proof.
  unfold digits_then, number. split.
  - destruct s as [|c s]; [done|]. destruct (is_digit c) eqn:Hc; [|done]. intros [= <-].
    destruct (skip_digits_spec s) as (a & Ha & Hs & Hn). exists (String c a). split_and!; [done|by constructor|exact (f_equal (String c) Hs)|done].
  - intros (a & [Hne Ha] & -> & Hn). destruct a as [|c a]; [done|]. cbn [String.list_ascii_of_string] in Ha. apply Forall_cons in Ha as [Hc Ha].
    change (String c a +:+ rest) with (String c (a +:+ rest)). cbv beta iota. rewrite Hc. by rewrite skip_digits_app.
Qed.
Lemma versioned_slash path t :
  versioned path = Some (String "/" t) ↔ ∃ a b, number a ∧ number b ∧ path = "/v" +:+ a +:+ "." +:+ b +:+ String "/" t ∧ no_line_break t.
Proof.
  unfold versioned, no_line_break. split.
  - destruct path as [|x [|y rest]]; try done. destruct (bool_decide (x = _) && _) eqn:Hxy; [|done].
    apply andb_true_iff in Hxy as [->%bool_decide_eq_true ->%bool_decide_eq_true].
    destruct (digits_then rest) as [[|c rest1]|] eqn:H1; [done| |done]. apply digits_then_spec in H1 as (a & Ha & -> & _).
    case_bool_decide; [subst|done]. destruct (digits_then rest1) as [[|d tail]|] eqn:H2; [done| |done].
    apply digits_then_spec in H2 as (b & Hb & -> & _). destruct (bool_decide (d = _) && _) eqn:Hd; [|done].
    apply andb_true_iff in Hd as [->%bool_decide_eq_true Hn%negb_true_iff%bool_decide_eq_false]. intros [= ->]. exists a, b. done.
  - intros (a & b & Ha & Hb & -> & Ht). change ("/v" +:+ ?x) with (String "/" (String "v" x)). cbv beta iota. rewrite !bool_decide_true by done. cbn [andb].
    rewrite (proj2 (digits_then_spec _ ("." +:+ b +:+ String "/" t))) by (exists a; split_and!; [done|done|cbn; done]).
    change ("." +:+ ?x) with (String "." x). cbv beta iota. rewrite bool_decide_true by done.
    rewrite (proj2 (digits_then_spec _ (String "/" t))) by (exists b; split_and!; [done|done|cbn; done]).
    cbv beta iota. by rewrite bool_decide_true, bool_decide_false.
Qed.
(** An endpoint that has no version of its own. *)
Definition plain_endpoint (bare : string) : Prop := ∃ c rest, bare = String "/" (String c rest) ∧ (c = "v"%char → ¬ digit_first rest).
Lemma line_break_slash t : no_line_break (String "/" t) ↔ no_line_break t.
Proof. unfold no_line_break. cbn [String.list_ascii_of_string]. rewrite not_elem_of_cons. split; [by intros [_ ?]|]. by split. Qed.
Lemma stripVersion_iff path bare : plain_endpoint bare → stripVersion path = bare ↔ at_endpoint path bare.
Proof.
  intros (c & rest & -> & Hc). unfold stripVersion, at_endpoint. setoid_rewrite line_break_slash.
  assert (versioned (String "/" (String c rest)) = None) as Hnone.
  { unfold versioned. cbv beta iota. rewrite bool_decide_true by done. case_bool_decide; [|done]. cbn [andb].
    destruct (digits_then rest) as [x|] eqn:Hx; [|done]. apply digits_then_spec in Hx as (a & [Hne Ha] & -> & _). exfalso.
    apply Hc; [done|]. destruct a; [done|]. cbn [String.list_ascii_of_string] in Ha. apply Forall_cons in Ha as [??]. done. }
  split.
  - destruct (versioned path) as [[|x tail]|] eqn:Hv; [done| |by left]. intros [= -> ->]. right.
    apply versioned_slash in Hv as (a & b & Ha & Hb & -> & Hn). by exists a, b.
  - intros [->|(a & b & Ha & Hb & -> & Hn)]; [by rewrite Hnone|].
    by rewrite (proj2 (versioned_slash _ (String c rest))) by (by exists a, b).
Qed.
Lemma strip_create path : at_endpoint path "/containers/create" → stripVersion path = "/containers/create".
Proof. apply stripVersion_iff. by eexists _, _. Qed.

Lemma serveHTTP_create s r :
  creates_container r →
  serveHTTP s r =
    if (MaxBodyBytes <? BLen (Body r))%Z then Refused 413
    else match checkContainersCreate (Body r) (negb (str_empty (workspaceNetwork s))) (reservedVolumes s) with
         | deny => Refused 403
         | allow =>
             if str_empty (workspaceNetwork s) then Forward (BRaw (Body r))
             else match injectWorkspaceNetwork (BRaw (Body r)) (workspaceNetwork s) with Ok b => Forward b | _ => Crashed end
         end.
Proof.
  intros [Hm Hp%strip_create]. unfold serveHTTP. rewrite Hm, Hp. destruct (MaxBodyBytes <? BLen (Body r))%Z; [done|].
  change (scopeTarget "/containers/create") with ("", "").
  unfold CheckRequest. rewrite Hp. change (ToUpper "POST") with "POST".
  change (isAllowedMutating "POST" "/containers/create" (reservedVolumes s)) with false.
  change (bool_decide ("POST" ∈ ["GET"; "HEAD"])) with false. cbn [bool_decide andb].
  change (bool_decide ("POST" = "DELETE")) with false. change (bool_decide ("POST" = "POST")) with true.
  change (bool_decide ("/containers/create" = "/volumes/prune")) with false.
  change (bool_decide ("/containers/create" = "/containers/create")) with true. cbn [andb].
  destruct (checkContainersCreate (Body r) (negb (str_empty (workspaceNetwork s))) (reservedVolumes s)); [|by destruct (ledger s)].
  by destruct (ledger s), (str_empty (workspaceNetwork s)).
Qed.

Lemma checked_host b c fs k hs net reserved :
  BRaw b = RText c (JObj fs) → distinct_names fs → (k, JObj hs) ∈ fs → field_matches "HostConfig" k = true →
  host_ok net reserved (dec_struct host_member zero_host (JObj hs)).1 = false →
  checkContainersCreate b net reserved = deny.
Proof.
  intros Hraw Hd Hin Hk Hbad. unfold checkContainersCreate, read_json. destruct (_ <? _)%Z; [done|]. rewrite Hraw.
  rewrite (unmarshal_create_only _ _ _ Hd Hin Hk). cbv zeta. destruct (dec_struct host_member zero_host (JObj hs)) as [h ok].
  cbn [fst snd] in *. destruct ok; [|done]. cbn. by rewrite Hbad.
Qed.

(** C22.  A request to create a container never reaches the engine when its
    HostConfig asks for something that breaks out of the sandbox: a bind, a mount
    of type bind or of a reserved volume, another container's volumes, privileges,
    capabilities, devices, device cgroup rules, security options, the namespaces of
    the host or of another container, another runtime, sysctls, a cgroup parent,
    or, in a workspace network, published ports; it is refused with 403, or with
    413 when the body is too long.  The condition is that no two members of the
    body, of HostConfig and of the mount have names that are equal up to case:
    with two spellings of HostConfig the check can be passed
    ([reordered_host_config_escapes]).  Under it, the spelling and the order of the
    names, the other members of the body, the API version in the path and the case
    of the method make no difference. *)
Theorem dangerous_containers_never_forwarded s r c fs k hs k' name v :
  creates_container r →
  BRaw (Body r) = RText c (JObj fs) → distinct_names fs →
  (k, JObj hs) ∈ fs → field_matches "HostConfig" k = true → distinct_names hs →
  (k', v) ∈ hs → field_matches name k' = true →
  dangerous (negb (str_empty (workspaceNetwork s))) (reservedVolumes s) name v →
  serveHTTP s r = Refused (if (MaxBodyBytes <? BLen (Body r))%Z then 413 else 403).
Proof.
  intros Hr Hraw Hd Hin Hk Hdh Hin' Hk' Hdg. rewrite serveHTTP_create by done. destruct (_ <? _)%Z; [done|].
  by rewrite (checked_host _ _ _ _ _ _ _ Hraw Hd Hin Hk (host_ok_dangerous _ _ _ _ _ _ Hdh Hin' Hk' Hdg)).
Qed.

(** ** The body that is forwarded *)
Lemma distinct_keys fs : distinct_names fs → NoDup fs.*1.
Proof. apply NoDup_fmap_1. Qed.

Lemma fields_map_elem fs k v : distinct_names fs → (k, v) ∈ fs ↔ fields_map fs !! k = Some v.
Proof.
  intros Hd. rewrite fields_map_lookup_nodup by by apply distinct_keys. apply elem_of_list_to_map. by apply distinct_keys.
Qed.

Lemma sorted_split m k v :
  m !! k = Some v →
  ∃ gs1 gs2, sorted_fields m = gs1 ++ (k, v) :: gs2 ∧ ∀ kv, kv ∈ gs1 ++ gs2 → kv ≠ (k, v) ∧ m !! kv.1 = Some kv.2.
Proof.
  intros (gs1 & gs2 & Heq)%sorted_elem%list_elem_of_split. exists gs1, gs2. split; [done|].
  pose proof (sorted_nodup m) as Hnd. rewrite Heq, <- Permutation_middle in Hnd. apply NoDup_cons in Hnd as [Hnin _].
  intros [k' v'] Hin. split; [intros Hc; by rewrite Hc in Hin|]. apply sorted_elem. rewrite Heq, <- Permutation_middle. by right.
Qed.

(** Adding a member that is not the HostConfig, in whatever order, leaves the
    HostConfig that is decoded alone. *)
Lemma injected_host fs nk nv :
  distinct_names fs → field_matches "HostConfig" nk = false →
  unmarshal_create (JObj (sorted_fields (<[nk := nv]> (fields_map fs)))) = unmarshal_create (JObj fs).
Proof.
  intros Hd Hnk. set (m := <[nk := nv]> (fields_map fs)).
  assert (Hold : ∀ k v, field_matches "HostConfig" k = true → m !! k = Some v ↔ (k, v) ∈ fs).
  { intros k v Hk. unfold m. rewrite lookup_insert_ne by congruence. by rewrite fields_map_elem. }
  destruct (decide (Exists (λ kv, field_matches "HostConfig" kv.1 = true) fs)) as [He|Hne].
  - apply Exists_exists in He as ([k v] & Hin & Hk). cbn [fst] in Hk. rewrite (unmarshal_create_only fs k v) by done.
    destruct (sorted_split m k v) as (gs1 & gs2 & -> & Hgs); [by apply Hold|]. apply unmarshal_create_at; [|done].
    apply Forall_forall. intros [k' v'] Hin'. destruct (Hgs _ Hin') as [Hd' Hm]. cbn [fst snd] in *.
    apply not_true_iff_false. intros Hk'. apply Hd'. by apply (distinct_same "HostConfig" fs k v k' v'); [..|apply Hold| |].
  - assert (Hnone : ∀ k v, (k, v) ∈ fs → field_matches "HostConfig" k = false).
    { intros k v Hin. apply not_true_iff_false. intros Hk. apply Hne, Exists_exists. by exists (k, v). }
    rewrite !unmarshal_create_none; [done|apply Forall_forall; intros [k v]; apply Hnone|].
    apply Forall_forall. intros [k v] Hin%sorted_elem. cbn [fst]. apply not_true_iff_false. intros Hk.
    rewrite (Hnone k v) in Hk; [done|]. by apply Hold.
Qed.

Lemma inject_object c fs network :
  injectWorkspaceNetwork (RText c (JObj fs)) network =
    Ok (RText true (JObj (sorted_fields (<["NetworkingConfig" := network_config network]> (fields_map fs))))).
Proof. done. Qed.

(** C35.  The engine is asked to create the container the policy has checked: the
    HostConfig it decodes from the forwarded body is the one of the client's body
    and passes the check, every member but NetworkingConfig is as the client sent
    it, and in a workspace network the one member of that name, whatever it was,
    attaches the container to that network only.  The conditions are that no two
    members of the body have the same name up to case and that the client does
    not spell NetworkingConfig in another way: a member networkingconfig is
    forwarded beside the injected one ([spelled_network_survives]). *)
Theorem forwarded_container_is_checked s r b c fs :
  creates_container r → BRaw (Body r) = RText c (JObj fs) → distinct_names fs →
  (∀ k v, (k, v) ∈ fs → field_matches "NetworkingConfig" k = true → k = "NetworkingConfig") → serveHTTP s r = Forward b →
  ∃ c' gs h, b = RText c' (JObj gs) ∧ unmarshal_create (JObj gs) = Some h ∧ unmarshal_create (JObj fs) = Some h ∧
    host_ok (negb (str_empty (workspaceNetwork s))) (reservedVolumes s) h = true ∧
    (∀ k v, k ≠ "NetworkingConfig" → (k, v) ∈ gs ↔ (k, v) ∈ fs) ∧
    (workspaceNetwork s ≠ "" → ∀ k v, (k, v) ∈ gs → field_matches "NetworkingConfig" k = true →
       v = JObj [("EndpointsConfig", JObj [(workspaceNetwork s, JObj [])])]) ∧
    (workspaceNetwork s ≠ "" → "NetworkingConfig" ∈ gs.*1).
Proof.
  intros Hr Hraw Hd Hspell. rewrite serveHTTP_create by done. unfold checkContainersCreate, read_json.
  destruct (_ <? _)%Z; [done|]. rewrite Hraw. destruct (unmarshal_create (JObj fs)) as [h|] eqn:Hu; [|done]. cbn [fmap option_fmap option_map verdict_of].
  destruct (host_ok _ _ h) eqn:Hok; [|done]. destruct (str_empty (workspaceNetwork s)) eqn:Hn.
  - intros [= <-]. exists c, fs, h. apply bool_decide_eq_true in Hn. split_and!; done.
  - rewrite inject_object. intros [= <-]. eexists true, _, h. split; [done|].
    split; [by rewrite injected_host|]. split; [done|]. split; [done|]. split; [|split].
    + intros k v Hk. rewrite sorted_elem, lookup_insert_ne by done. by rewrite fields_map_elem.
    + intros _ k v. rewrite sorted_elem. destruct (decide (k = "NetworkingConfig")) as [->|Hk]; [rewrite lookup_insert_eq; by intros [= <-] _|].
      rewrite lookup_insert_ne by done. intros Hin Hm. apply fields_map_elem in Hin; [|done]. by destruct Hk; apply (Hspell k v).
    + intros _. apply (list_elem_of_fmap_2' fst) with (x := ("NetworkingConfig", network_config (workspaceNetwork s))); [|done].
      apply sorted_elem, lookup_insert_eq.
Qed.

(** ** The ledger along a run *)

(** The entry the exchange adds, in the state it happens in. *)
Definition adds (s : Server) (x : request * answer) : list ResourceEntry :=
  match serveHTTP s x.1 with Forward _ => option_list (created_entry x.1 x.2) | _ => [] end.

Lemma exchange_ledger s x : ledger (exchange s x) = (λ es, es ++ adds s x) <$> ledger s.
Proof.
  unfold exchange, adds. destruct (serveHTTP s x.1); cbn [ledger]; [|done|]; destruct (ledger s); cbn; by rewrite ?app_nil_r.
Qed.

(** What is created at an endpoint, and the member of the answer that names it. *)
Definition creation (bare ty field : string) : Prop :=
  (bare, ty, field) ∈ [("/containers/create", "container", "Id"); ("/networks/create", "network", "Id"); ("/volumes/create", "volume", "Name")] ∨
  (∃ cid, bare = "/containers/" +:+ cid +:+ "/exec" ∧ no_slash cid) ∧ ty = "exec" ∧ field = "Id".
(** The entry a request and the answer to it stand for, from the documentation
    of the engine: a creation of a container, a network or an exec is answered
    with its Id, one of a volume with its Name; the last member of that name
    counts.  The answer has to be a success that was read and written down. *)
Definition creates (x : request * answer) (e : ResourceEntry) : Prop :=
  ToUpper (Method x.1) = "POST" ∧ (200 ≤ AnStatus x.2 < 300)%Z ∧ (AnLen x.2 ≤ 32 * 1024 * 1024)%Z ∧ AnRecorded x.2 = true ∧ ReID e ≠ "" ∧
  ∃ bare field, at_endpoint (Path x.1) bare ∧ creation bare (ReType e) field ∧
    ∃ c fs1 fs2, AnBody x.2 = RText c (JObj (fs1 ++ (field, JStr (ReID e)) :: fs2)) ∧ (field ∉ fs2.*1).
(** A resource that was the sandbox's at the start, or that a request which went
    through has created since. *)
Definition owned (s0 : Server) (es0 : list ResourceEntry) (xs : list (request * answer)) (e : ResourceEntry) : Prop :=
  e ∈ es0 ∨ ∃ xs1 x xs2 b, xs = xs1 ++ x :: xs2 ∧ serveHTTP (foldl exchange s0 xs1) x.1 = Forward b ∧ creates x e.
(** The path names a resource: /containers/id, /networks/id, /volumes/id or
    /exec/id, alone or followed by more, and the id is no operation. *)
Definition names_resource (path ty id : string) : Prop :=
  ∃ kind tail, (kind, ty) ∈ [("containers", "container"); ("networks", "network"); ("volumes", "volume"); ("exec", "exec")] ∧
    id ≠ "" ∧ no_slash id ∧ (tail = "" ∨ ∃ t, tail = "/" +:+ t) ∧ (ty ≠ "exec" → id ∉ ["create"; "prune"]) ∧ (ty = "container" → id ≠ "json") ∧
    at_endpoint path ("/" +:+ kind +:+ "/" +:+ id +:+ tail).

Lemma fields_map_last fs k v : fields_map fs !! k = Some v ↔ ∃ fs1 fs2, fs = fs1 ++ (k, v) :: fs2 ∧ (k ∉ fs2.*1).
Proof.
  unfold fields_map. induction fs as [|[k' v'] fs IH] using rev_ind; [cbn; rewrite lookup_empty; split; [done|]; by intros ([] & ? & ? & _)|].
  rewrite reverse_snoc. cbn [list_to_map foldr fst snd]. destruct (decide (k' = k)) as [->|Hk].
  - rewrite lookup_insert_eq. split; [intros [= <-]; exists fs, []; split; [done|apply not_elem_of_nil]|]. intros (fs1 & fs2 & Heq & Hn).
    destruct fs2 as [|[k2 v2] fs2 _] using rev_ind; [apply app_inj_tail in Heq as [_ [= ->]]; done|].
    rewrite app_comm_cons, app_assoc in Heq. apply app_inj_tail in Heq as [_ [= <- <-]]. rewrite fmap_app in Hn. set_solver.
  - rewrite lookup_insert_ne by done. change (foldr _ ∅ (reverse fs)) with (list_to_map (M := gmap string json) (reverse fs)). rewrite IH. split.
    + intros (fs1 & fs2 & -> & Hn). exists fs1, (fs2 ++ [(k', v')]). rewrite <- app_assoc. split; [done|]. rewrite fmap_app. set_solver.
    + intros (fs1 & fs2 & Heq & Hn). destruct fs2 as [|[k2 v2] fs2 _] using rev_ind; [apply app_inj_tail in Heq as [_ [= -> _]]; done|].
      rewrite app_comm_cons, app_assoc in Heq. apply app_inj_tail in Heq as [-> [= <- <-]]. exists fs1, fs2. rewrite fmap_app in Hn. set_solver.
Qed.
Lemma extractCreationID_spec r field id :
  id ≠ "" → extractCreationID r field = id ↔ ∃ c fs1 fs2, r = RText c (JObj (fs1 ++ (field, JStr id) :: fs2)) ∧ (field ∉ fs2.*1).
Proof.
  intros Hid. unfold extractCreationID. split.
  - destruct r as [| |c v]; cbn; [congruence|congruence|]. destruct v as [| | | | |fs]; cbn; try congruence. intros Hl.
    destruct (fields_map fs !! field) as [[| | |x| |]|] eqn:Hf; try congruence. subst x. apply fields_map_last in Hf as (fs1 & fs2 & -> & Hn).
    by exists c, fs1, fs2.
  - intros (c & fs1 & fs2 & -> & Hn). cbn. rewrite (proj2 (fields_map_last _ field (JStr id))) by eauto. done.
Qed.
Lemma matches_exec bare : matchesPattern bare "/containers/*/exec" = true ↔ ∃ cid, bare = "/containers/" +:+ cid +:+ "/exec" ∧ no_slash cid.
Proof.
  unfold matchesPattern, part_matches. change (split_slash "/containers/*/exec") with [""; "containers"; "*"; "exec"]. split.
  - intros [Hl%bool_decide_eq_true Hf]%andb_true_iff. destruct (split_slash bare) as [|x0 [|x1 [|x2 [|x3 [|]]]]] eqn:Hs; try done.
    cbn in Hf. rewrite !andb_true_iff, !orb_true_iff, !bool_decide_eq_true in Hf. destruct Hf as ([?|<-] & [?|<-] & _ & [?|<-] & _); try done.
    apply split_slash_cons_iff in Hs as (_ & r1 & -> & Hs). apply split_slash_cons_iff in Hs as (_ & r2 & -> & Hs).
    apply split_slash_cons_iff in Hs as (H2 & r3 & -> & [_ ->]%split_slash_nil_iff). by exists x2.
  - intros (cid & -> & Hc). change ("/containers/" +:+ cid +:+ "/exec") with ("" +:+ "/" +:+ "containers" +:+ "/" +:+ cid +:+ "/" +:+ "exec").
    rewrite !split_slash_app by done. done.
Qed.
Lemma creation_endpoint bare ty field : creation bare ty field → plain_endpoint bare.
Proof.
  intros [H|[(cid & -> & _) _]]; [|by eexists _, _]. rewrite !elem_of_cons, elem_of_nil in H.
  destruct H as [[= -> _ _]|[[= -> _ _]|[[= -> _ _]|[]]]]; by eexists _, _.
Qed.
Lemma creation_type bare ty field : creation bare ty field → ty ≠ "".
Proof. intros [H|(_ & -> & _)]; [|done]. rewrite !elem_of_cons, elem_of_nil in H. by destruct H as [[= _ -> _]|[[= _ -> _]|[[= _ -> _]|[]]]]. Qed.
Lemma creationResourceType_spec m bare ty field :
  creationResourceType m bare = (ty, field) ∧ ty ≠ "" ↔ m = "POST" ∧ creation bare ty field.
Proof.
  unfold creationResourceType. split.
  - intros [Ht Hne]. case_bool_decide as Hm; cbn [negb] in Ht; [|injection Ht as <- _; done]. split; [done|]. unfold creation.
    repeat (case_bool_decide; [subst; injection Ht as <- <-; left; set_solver|]).
    destruct (matchesPattern bare _) eqn:He; [|injection Ht as <- _; done]. apply matches_exec in He. injection Ht as <- <-. by right.
  - intros [-> Hc]. split; [|by eapply creation_type]. rewrite bool_decide_true by done. cbn [negb]. destruct Hc as [H|(He & -> & ->)].
    + rewrite !elem_of_cons, elem_of_nil in H. by destruct H as [[= -> -> ->]|[[= -> -> ->]|[[= -> -> ->]|[]]]].
    + rewrite (proj2 (matches_exec bare) He). destruct He as (cid & -> & Hcid).
      assert (∀ y, length (split_slash y) ≠ 4%nat → "/containers/" +:+ cid +:+ "/exec" ≠ y) as Hy.
      { intros y Hl Heq. apply Hl. rewrite <- Heq.
        change ("/containers/" +:+ cid +:+ "/exec") with ("" +:+ "/" +:+ "containers" +:+ "/" +:+ cid +:+ "/" +:+ "exec").
        by rewrite !split_slash_app by done. }
      by rewrite !bool_decide_false by (by apply Hy).
Qed.
Lemma created_entry_spec x e : created_entry x.1 x.2 = Some e ↔ creates x e.
Proof.
  destruct x as [r a], e as [ty id]. unfold created_entry, creates. cbn [fst snd ReType ReID].
  destruct (creationResourceType _ _) as [t field] eqn:Ht. unfold MaxBodyBytes, str_empty. split.
  - match goal with |- context [if ?b then _ else _] => destruct b eqn:Hb end; [|done].
    rewrite !andb_true_iff, Z.leb_le, Z.ltb_lt, Z.leb_le, !negb_true_iff, !bool_decide_eq_false in Hb. destruct Hb as [[[[[Hne H1] H2] H3] Hid] H4].
    intros [= -> Hx]. pose proof (proj1 (creationResourceType_spec _ _ _ _) (conj Ht Hne)) as [Hm Hc]. subst id.
    split_and!; try done. exists (stripVersion (Path r)), field. split_and!; [|done|by apply extractCreationID_spec].
    apply stripVersion_iff; [|done]. by eapply creation_endpoint.
  - intros (Hm & [H1 H2] & H3 & H4 & Hid & bare & field' & Hep & Hc & Hx). apply stripVersion_iff in Hep; [|by eapply creation_endpoint].
    pose proof (proj2 (creationResourceType_spec _ _ _ _) (conj Hm Hc)) as [Ht' Hne]. rewrite Hep, Ht' in Ht. injection Ht as <- <-.
    apply extractCreationID_spec in Hx; [|done]. rewrite Hx, H4, (bool_decide_false (ty = "")), (bool_decide_false (id = "")) by done.
    apply Z.leb_le in H1, H3. apply Z.ltb_lt in H2. by rewrite H1, H2, H3.
Qed.
Lemma names_scope path ty id : names_resource path ty id → scopeTarget (stripVersion path) = (ty, id) ∧ ty ≠ "".
Proof.
  intros (kind & tail & Hk & Hid & Hs & Ht & H1 & H2 & Hp). set (bare := "/" +:+ kind +:+ "/" +:+ id +:+ tail) in Hp.
  assert (stripVersion path = bare) as ->.
  { apply stripVersion_iff; [|done]. rewrite !elem_of_cons, elem_of_nil in Hk.
    destruct Hk as [[= -> _]|[[= -> _]|[[= -> _]|[[= -> _]|[]]]]]; by eexists _, _. }
  unfold scopeTarget, bare. change ("/" +:+ ?x) with (String "/" x). cbv beta iota. rewrite bool_decide_true by done.
  assert (∃ rest, split_slash (id +:+ tail) = id :: rest) as [rest Hr].
  { destruct Ht as [->|[t ->]]; [exists []; rewrite string_app_nil; by apply split_slash_one|eexists; by apply split_slash_app]. }
  assert (no_slash kind) as Hkn by (rewrite !elem_of_cons, elem_of_nil in Hk; by destruct Hk as [[= -> _]|[[= -> _]|[[= -> _]|[[= -> _]|[]]]]]).
  change (kind +:+ "/" +:+ id +:+ tail) with (kind +:+ "/" +:+ (id +:+ tail)). rewrite split_slash_app, Hr by done. cbv beta iota.
  replace (str_empty id) with false by (symmetry; by apply bool_decide_eq_false). rewrite !elem_of_cons, elem_of_nil in Hk.
  destruct Hk as [[= -> ->]|[[= -> ->]|[[= -> ->]|[[= -> ->]|[]]]]]; cbn [bool_decide]; (split; [|done]).
  - rewrite bool_decide_true by done. rewrite bool_decide_false; [done|]. specialize (H1 ltac:(done)). specialize (H2 eq_refl). set_solver.
  - by rewrite (bool_decide_false ("networks" = "containers")), bool_decide_true, bool_decide_false by (done || by apply H1).
  - by rewrite (bool_decide_false ("volumes" = "containers")), (bool_decide_false ("volumes" = "networks")), bool_decide_true, bool_decide_false
      by (done || by apply H1).
  - done.
Qed.

Lemma owned_snoc s0 es0 xs x e : owned s0 es0 (xs ++ [x]) e ↔ owned s0 es0 xs e ∨ e ∈ adds (foldl exchange s0 xs) x.
Proof.
  unfold owned, adds. setoid_rewrite <- created_entry_spec. split.
  - intros [He|(xs1 & y & xs2 & b & Heq & Hf & Hc)]; [by left; left|].
    destruct xs2 as [|z xs2 _] using rev_ind.
    + apply app_inj_tail in Heq as [-> ->]. right. rewrite Hf, Hc. by apply list_elem_of_singleton.
    + rewrite app_comm_cons, app_assoc in Heq. apply app_inj_tail in Heq as [-> _]. left. right. by exists xs1, y, xs2, b.
  - intros [[He|(xs1 & y & xs2 & b & -> & Hf & Hc)]|He]; [by left|right|right].
    + exists xs1, y, (xs2 ++ [x]), b. split; [|done]. by rewrite <- app_assoc.
    + destruct (serveHTTP (foldl exchange s0 xs) x.1) as [|b|] eqn:Hf; [by apply elem_of_nil in He| |by apply elem_of_nil in He].
      exists xs, x, [], b. split_and!; [done..|]. destruct (created_entry x.1 x.2); cbn in He; set_solver.
Qed.

Lemma ledger_owned s0 es0 xs :
  ledger s0 = Some es0 → ∃ es, ledger (foldl exchange s0 xs) = Some es ∧ ∀ e, e ∈ es ↔ owned s0 es0 xs e.
Proof.
  intros H0. induction xs as [|x xs (es & Hl & He)] using rev_ind.
  - exists es0. split; [done|]. intros e. split; [by left|]. intros [Hin|(xs1 & x & xs2 & b & Heq & _)]; [done|].
    by destruct xs1.
  - rewrite foldl_app. cbn [foldl]. rewrite exchange_ledger, Hl. eexists. split; [done|]. intros e.
    rewrite elem_of_app, owned_snoc. by rewrite He.
Qed.

(** C23.  With a ledger, after any exchanges with the engine, a request whose path
    names a container, a network, a volume or an exec by its id, in any of the
    forms of [names_resource], with or without an API version, goes through only
    if the resource was the sandbox's from the start or a request that went through
    earlier was answered with that id; and the answer is 404 exactly when it is
    not the sandbox's and the body is within the bound (else it is 413), so that a
    sandbox cannot tell the resources of others from ones that do not exist.  Only
    the path is looked at: the container named in the body of a network's connect
    is not scoped, and neither are listings and prunes. *)
Theorem sandbox_sees_only_its_own s0 es0 xs r ty id :
  ledger s0 = Some es0 → names_resource (Path r) ty id →
  let mine := owned s0 es0 xs {| ReType := ty; ReID := id |} in
  let answer := serveHTTP (foldl exchange s0 xs) r in
  (∀ b, answer = Forward b → mine) ∧ (answer = Refused 404 ↔ (BLen (Body r) ≤ 32 * 1024 * 1024)%Z ∧ ¬ mine) ∧
  (answer = Refused 413 ↔ (32 * 1024 * 1024 < BLen (Body r))%Z).
Proof.
  intros H0 [Ht Hty]%names_scope. cbv zeta. destruct (ledger_owned s0 es0 xs H0) as (es & Hl & He). setoid_rewrite <- He.
  unfold serveHTTP, MaxBodyBytes. rewrite Ht, Hl. destruct (Z.ltb_spec (32 * 1024 * 1024) (BLen (Body r))).
  { split_and!; [done|split; [done|intros [? _]; lia]|done]. }
  replace (str_empty ty) with false by (symmetry; by apply bool_decide_eq_false). unfold Contains. cbn [negb andb].
  destruct (decide ({| ReType := ty; ReID := id |} ∈ es)) as [Hin|Hnin].
  - rewrite bool_decide_eq_true_2 by done. cbn [negb]. split; [done|].
    split; (split; [|try (intros [_ Hc]; by destruct (Hc Hin)); try lia]); intros Hs; exfalso; by repeat (case_match; try done).
  - rewrite bool_decide_eq_false_2 by done. cbn [negb]. split_and!; [done|done|split; [done|lia]].
Qed.

(** ** What the two checks leave open *)
Definition engine_view (b : raw) : option bool :=
  match b with RText _ v => Privileged <$> unmarshal_create v | _ => None end.

Definition bare_server (es : list ResourceEntry) (network : string) : Server :=
  {| ledger := Some es; workspaceNetwork := network; reservedVolumes := NewReservedVolumes ["boid-home-w1"] |}.
Definition json_body (v : json) : body := {| BLen := 200; BRaw := RText true v; BHostCompact := true |}.
Definition create_request (v : json) : request :=
  {| Method := "post"; Path := "/v1.41/containers/create"; Body := json_body v |}.

Definition two_hosts : json :=
  JObj [("hostconfig", JObj [("Privileged", JBool true)]); ("HostConfig", JObj [("Privileged", JBool false)])].

(** The forwarded body is marshalled from a map, with its members in byte
    order, and the check before has read them in the client's: a body with the
    members hostconfig and HostConfig passes with the second one deciding, and
    reaches the engine with the first one decoded last.  The container is
    privileged. *)
Theorem reordered_host_config_escapes :
  checkContainersCreate (json_body two_hosts) true (reservedVolumes (bare_server [] "boid-w1")) = allow ∧
  ∃ b, serveHTTP (bare_server [] "boid-w1") (create_request two_hosts) = Forward b ∧ engine_view b = Some true.
Proof. split; [by vm_compute|]. eexists. split; [vm_compute; reflexivity|by vm_compute]. Qed.

(** The networks the engine attaches the container to: it decodes the body, like
    the policy, with names that count up to case and later members added to
    earlier ones. *)
Definition endpoints_member (m : gmap string json) (k : string) (v : json) : gmap string json * bool :=
  if field_matches "EndpointsConfig" k then dec_map JNull dec_any m v else (m, true).
Definition network_member (m : gmap string json) (k : string) (v : json) : gmap string json * bool :=
  if field_matches "NetworkingConfig" k then dec_struct endpoints_member m v else (m, true).
Definition engine_networks (b : raw) : gset string :=
  match b with RText _ v => dom (dec_struct network_member ∅ v).1 | _ => ∅ end.
Definition spelled_network : json :=
  JObj [("Image", JStr "alpine"); ("networkingconfig", JObj [("EndpointsConfig", JObj [("boid-w2", JObj [])])])].
(** A body whose only network choice is spelled networkingconfig keeps it: the
    container is attached to the network of another workspace as well. *)
Theorem spelled_network_survives :
  ∃ b, serveHTTP (bare_server [] "boid-w1") (create_request spelled_network) = Forward b ∧ engine_networks b = {["boid-w1"; "boid-w2"]}.
Proof. eexists. split; [vm_compute; reflexivity|by vm_compute]. Qed.

(** ** Witnesses *)
Lemma creates_sample v : creates_container (create_request v).
Proof.
  split; [done|]. right. exists "1", "41". unfold number.
  split_and!; [done|apply (bool_decide_unpack _); by vm_compute|done|apply (bool_decide_unpack _); by vm_compute|done|apply (bool_decide_unpack _); by vm_compute].
Qed.
Definition bind_body : list (string * json) :=
  [("Image", JStr "alpine"); ("hostConfig", JObj [("binds", JArr [JStr "/:/host"])])].

Lemma dangerous_containers_never_forwarded_witness :
  serveHTTP (bare_server [] "boid-w1") (create_request (JObj bind_body)) = Refused 403.
Proof.
  exact (dangerous_containers_never_forwarded (bare_server [] "boid-w1") (create_request (JObj bind_body)) true bind_body
    "hostConfig" [("binds", JArr [JStr "/:/host"])] "binds" "Binds" (JArr [JStr "/:/host"])
    (creates_sample _) eq_refl ltac:(by apply (bool_decide_unpack _); vm_compute) ltac:(by right; left) eq_refl
    ltac:(by apply (bool_decide_unpack _); vm_compute) ltac:(by left) eq_refl ltac:(by apply dg_list; left)).
Defined.

Definition plain_body : list (string * json) :=
  [("Image", JStr "alpine"); ("NetworkingConfig", JNull); ("HostConfig", JObj [("NetworkMode", JStr "bridge")])].
Definition plain_forward : raw :=
  RText true (JObj [("HostConfig", JObj [("NetworkMode", JStr "bridge")]); ("Image", JStr "alpine");
                    ("NetworkingConfig", network_config "boid-w1")]).

Lemma forwarded_container_is_checked_witness :
  serveHTTP (bare_server [] "boid-w1") (create_request (JObj plain_body)) = Forward plain_forward ∧
  ∃ c' gs h, plain_forward = RText c' (JObj gs) ∧ unmarshal_create (JObj gs) = Some h ∧
    host_ok true (NewReservedVolumes ["boid-home-w1"]) h = true.
Proof.
  assert (Hf : serveHTTP (bare_server [] "boid-w1") (create_request (JObj plain_body)) = Forward plain_forward) by by vm_compute.
  split; [exact Hf|].
  destruct (forwarded_container_is_checked (bare_server [] "boid-w1") (create_request (JObj plain_body)) plain_forward true plain_body
    (creates_sample _) eq_refl ltac:(by apply (bool_decide_unpack _); vm_compute)) as (c' & gs & h & H1 & H2 & _ & H3 & _); [|exact Hf|].
  - intros k v Hin. unfold plain_body in Hin. rewrite !elem_of_cons, elem_of_nil in Hin. destruct Hin as [[= -> ->]|[[= -> ->]|[[= -> ->]|[]]]]; done.
  - exists c', gs, h. split; [exact H1|]. split; [exact H2|exact H3].
Defined.

Definition created_c1 : request * answer :=
  (create_request (JObj plain_body),
   {| AnStatus := 201; AnLen := 30; AnBody := RText true (JObj [("Id", JStr "c1")]); AnRecorded := true |}).
Definition stop_request (id : string) : request :=
  {| Method := "POST"; Path := ("/v1.41/containers/" ++ id ++ "/stop")%string; Body := {| BLen := 0; BRaw := REmpty; BHostCompact := true |} |}.

Lemma stop_names id : id ∉ ["create"; "prune"; "json"; ""] → no_slash id → no_line_break id → names_resource (Path (stop_request id)) "container" id.
Proof.
  intros Hid Hs Hn. rewrite !not_elem_of_cons in Hid. destruct Hid as (H1 & H2 & H3 & H4 & _).
  exists "containers", "/stop". split_and!; [by left|done|done|right; by exists "stop"|intros _; set_solver|done|]. right. exists "1", "41".
  split_and!; [by split; [|apply (bool_decide_unpack _); vm_compute]..|done|].
  unfold no_line_break in *. clear -Hn. change ("/" +:+ "containers" +:+ "/" +:+ id +:+ "/stop") with ("/containers/" +:+ id +:+ "/stop").
  intros Hin. assert (ascii_of_N 10 ∈ String.list_ascii_of_string (id +:+ "/stop")) as Hin2.
  { repeat (apply elem_of_cons in Hin as [?|Hin]; [done|]). exact Hin. }
  clear Hin. induction id as [|c id IH]; [by repeat (apply elem_of_cons in Hin2 as [?|Hin2]; [done|]); apply elem_of_nil in Hin2|].
  cbn in Hn. apply not_elem_of_cons in Hn as [??]. apply elem_of_cons in Hin2 as [?|Hin2]; [done|]. by apply IH.
Qed.
Definition one_created : Server := foldl exchange (bare_server [] "boid-w1") [created_c1].
Lemma c1_names : names_resource (Path (stop_request "c1")) "container" "c1".
Proof. apply stop_names; [set_solver|by vm_compute|apply (bool_decide_unpack _); by vm_compute]. Qed.
Lemma c2_names : names_resource (Path (stop_request "c2")) "container" "c2".
Proof. apply stop_names; [set_solver|by vm_compute|apply (bool_decide_unpack _); by vm_compute]. Qed.
Lemma c1_is_stopped : serveHTTP one_created (stop_request "c1") = Forward REmpty.
Proof. by vm_compute. Qed.
Lemma c2_is_unknown : serveHTTP one_created (stop_request "c2") = Refused 404.
Proof. by vm_compute. Qed.
Lemma sandbox_sees_only_its_own_witness :
  owned (bare_server [] "boid-w1") [] [created_c1] {| ReType := "container"; ReID := "c1" |} ∧
  ¬ owned (bare_server [] "boid-w1") [] [created_c1] {| ReType := "container"; ReID := "c2" |}.
Proof.
  split.
  - exact (proj1 (sandbox_sees_only_its_own (bare_server [] "boid-w1") [] [created_c1] (stop_request "c1") "container" "c1"
      eq_refl c1_names) REmpty c1_is_stopped).
  - exact (proj2 (proj1 (proj1 (proj2 (sandbox_sees_only_its_own (bare_server [] "boid-w1") [] [created_c1] (stop_request "c2") "container" "c2"
      eq_refl c2_names))) c2_is_unknown)).
Defined.
