(* ===== verification/HostCommands.v ===== *)
(** * Host commands

    Models internal/sandbox/policy.go, shim_reject.go, and of broker.go the
    gate in front of a host command, the resolution of its secrets and its
    environment.  What runs behind the gate is a process. *)
From S2P Require Import Prelude Json Notify DockerPolicy.
Open Scope Z_scope.

(** ** The policy *)
Record RejectRule : Type := { RrMatch : string; RrReason : string }.
Record CommandDef : Type := {
  CdName : string;
  CdPath : string;
  AllowedPatterns : list string;
  DeniedPatterns : list string;
  AllowedSubcommands : list string;
  CdEnv : gmap string string;
  RejectRules : list RejectRule;
  MissingSecrets : list string;
}.

Fixpoint globMatch (pattern s : string) : bool :=
  match pattern with
  | "" => str_empty s
  | String c rest =>
      if bool_decide (c = "*"%char) then
        match rest with
        | "" => true
        | String c' _ =>
            if bool_decide (c' = "*"%char) then globMatch rest s
            else (fix from (s : string) : bool :=
                    globMatch rest s || match s with "" => false | String _ s => from s end) s
        end
      else if bool_decide (c = "?"%char) then
        match s with "" => false | String _ s => globMatch rest s end
      else match s with "" => false | String c' s => bool_decide (c = c') && globMatch rest s end
  end.

Definition matchesAnyPattern (patterns : list string) (s : string) : bool := existsb (λ p, globMatch p s) patterns.
Definition extractSimpleSubcommand (args : list string) : string :=
  default "" (List.find (λ arg, negb (String.prefix "-" arg)) args).
Definition containsString (ss : list string) (s : string) : bool := bool_decide (s ∈ ss).
(** strings.Join with a blank *)
Definition joined (args : list string) : string := String.concat " " args.

Definition CheckPolicy (def : CommandDef) (args : list string) : bool :=
  match args with
  | [] => true
  | _ =>
      let subcmdPassed := negb (bool_decide (AllowedSubcommands def = [])) in
      let subcmd := extractSimpleSubcommand args in
      if subcmdPassed && negb (str_empty subcmd) && negb (containsString (AllowedSubcommands def) subcmd) then false
      else if matchesAnyPattern (DeniedPatterns def) (joined args) then false
      else if matchesAnyPattern (AllowedPatterns def) (joined args) then true
      else subcmdPassed && bool_decide (AllowedPatterns def = [])
  end.

Definition MissingSecretsMessage (def : CommandDef) : string :=
  match MissingSecrets def with
  | [] => ""
  | missing => "host_commands." +:+ CdName def +:+ ": rejected — required secret(s) unavailable: " +:+ String.concat ", " missing
  end.

Definition reject_message (name : string) (rule : RejectRule) : string :=
  "host_commands." +:+ name +:+ ": rejected: " +:+ RrReason rule.
Definition first_rule (rules : list RejectRule) (args : list string) : option RejectRule :=
  List.find (λ rule, globMatch (RrMatch rule) (joined args)) rules.

(** [None] lets the call through; otherwise the text of the refusal. *)
Definition gateHostCommand (def : CommandDef) (args : list string) : option string :=
  match first_rule (RejectRules def) args with
  | Some rule => Some (reject_message (CdName def) rule)
  | None =>
      if negb (str_empty (MissingSecretsMessage def)) then Some (MissingSecretsMessage def)
      else if negb (CheckPolicy def args) then Some "arguments not allowed"
      else None
  end.

(** ** The check of the shim, before the broker is asked *)
Definition rule_member (r : RejectRule) (k : string) (v : json) : RejectRule * bool :=
  if field_matches "match" k then let d := dec_string (RrMatch r) v in ({| RrMatch := d.1; RrReason := RrReason r |}, d.2)
  else if field_matches "reason" k then let d := dec_string (RrReason r) v in ({| RrMatch := RrMatch r; RrReason := d.1 |}, d.2)
  else (r, true).
Definition zero_rule : RejectRule := {| RrMatch := ""; RrReason := "" |}.
(** [v] is the text of the variable, if it is JSON at all. *)
Definition decode_rules (v : json) : option (gmap string (list RejectRule)) :=
  let r := dec_map nil_slice (dec_slice zero_rule (dec_struct rule_member)) ∅ v in
  if r.2 then Some (slice_elems <$> r.1) else None.
Definition EarlyReject (raw_rules : raw) (command : string) (args : list string) : option string :=
  if str_empty command then None
  else match raw_rules with
       | RText _ v =>
           match decode_rules v with
           | Some rules => reject_message command <$> (rules !! command ≫= λ rs, first_rule rs args)
           | None => None
           end
       | _ => None
       end.

(** ** Secrets and environment *)
Definition secret_prefix : string := "secret:".
Definition secret_of (k v : string) : option string :=
  key ← strip_prefix secret_prefix v;
  Some (if str_empty key then k else key).
(** One variable: its value, or what is missing. *)
Definition resolve_env (resolver : string → option string) (k v : string) : string + string :=
  match secret_of k v with
  | None => inr v
  | Some key => match resolver key with Some val => inr val | None => inl (k +:+ " (secret:" +:+ key +:+ ")") end
  end.
Definition left_of {A B} (x : A + B) : option A := match x with inl a => Some a | inr _ => None end.
Definition right_of {A B} (x : A + B) : option B := match x with inl _ => None | inr b => Some b end.
(** The missing ones are listed in the order Go enumerates the map in. *)
Definition secret_command (resolver : string → option string) (def : CommandDef) : CommandDef :=
  {| CdName := CdName def; CdPath := CdPath def; AllowedPatterns := AllowedPatterns def; DeniedPatterns := DeniedPatterns def;
     AllowedSubcommands := AllowedSubcommands def;
     CdEnv := map_imap (λ k v, right_of (resolve_env resolver k v)) (CdEnv def); RejectRules := RejectRules def;
     MissingSecrets := MissingSecrets def ++ omap (λ kv, left_of (resolve_env resolver kv.1 kv.2)) (map_to_list (CdEnv def)) |}.
Definition resolve_commands (resolver : string → option string) (commands : gmap string CommandDef) : gmap string CommandDef :=
  secret_command resolver <$> commands.

Definition hostCommandEnv (environ : list string) (defEnv : gmap string string) : list string :=
  filter (λ kv, String.prefix "BOID_" kv = false) environ ++ ((λ kv, kv.1 +:+ "=" +:+ kv.2) <$> map_to_list defEnv).

(** ** What a pattern matches *)
Inductive glob : string → string → Prop :=
| glob_nil : glob "" ""
| glob_star p s t : glob p t → glob (String "*" p) (s +:+ t)
| glob_any p c s : glob p s → glob (String "?" p) (String c s)
| glob_char p c s : c ≠ "*"%char → c ≠ "?"%char → glob p s → glob (String c p) (String c s).

Lemma glob_star_inv p s : glob (String "*" p) s → ∃ a t, s = a +:+ t ∧ glob p t.
Proof. inversion 1; subst; [eauto|done]. Qed.
(** Two stars match what one does. *)
Lemma glob_stars p s : glob (String "*" (String "*" p)) s ↔ glob (String "*" p) s.
Proof.
  split; [|intros Hg; by apply (glob_star _ "")].
  intros (a & t & -> & (b & u & -> & Hu)%glob_star_inv)%glob_star_inv. rewrite <- string_app_assoc. by constructor.
Qed.
Lemma glob_star_cons p c s : glob (String "*" p) s → glob (String "*" p) (String c s).
Proof. intros (a & t & -> & Hg)%glob_star_inv. by apply (glob_star p (String c a) t). Qed.

(** A pattern of a host command matches exactly the texts it describes, a star
    standing for any run of bytes and a question mark for one: the backtracking
    of the matcher neither misses a match nor invents one. *)
Theorem globMatch_iff p s : globMatch p s = true ↔ glob p s.
Proof.
  revert s. induction p as [|c p IH]; intros s; cbn [globMatch].
  { unfold str_empty. rewrite bool_decide_eq_true. split; [intros ->; constructor|by inversion 1]. }
  case_bool_decide as Hstar; [|case_bool_decide as Hany].
  - subst c. destruct p as [|c p].
    { split; [|done]. intros _. rewrite <- (string_app_nil s). apply glob_star. constructor. }
    case_bool_decide as Hstar; [subst c; by rewrite glob_stars, IH|].
    assert (Hfrom : ∀ s, (fix from (s : string) : bool :=
        globMatch (String c p) s || match s with "" => false | String _ s => from s end) s = true ↔ glob (String "*" (String c p)) s).
    { clear s. induction s as [|d s IHs]; rewrite orb_true_iff, IH.
      - split; [intros [Hg|?]; [by apply (glob_star _ "")|done]|].
        intros ([|d a] & u & Heq & Hg)%glob_star_inv; [|done]. left. by rewrite Heq.
      - rewrite IHs. split; [intros [Hg|Hg]; [by apply (glob_star _ "")|by apply glob_star_cons]|].
        intros ([|d' a] & u & Heq & Hg)%glob_star_inv; [left; by rewrite Heq|right].
        injection Heq as _ ->. by apply (glob_star _ a u). }
    apply Hfrom.
  - subst c. destruct s as [|d s]; [split; [done|by inversion 1; subst; destruct s]|]. rewrite IH. split; [by constructor|].
    by inversion 1.
  - destruct s as [|d s]; [split; [done|inversion 1; subst; done]|]. rewrite andb_true_iff, bool_decide_eq_true, IH.
    split; [intros [-> Hg]; by constructor|inversion 1; subst; done].
Qed.

(** ** What the gate lets through *)
Lemma matchesAny_spec ps s : matchesAnyPattern ps s = true ↔ ∃ p, p ∈ ps ∧ glob p s.
Proof.
  unfold matchesAnyPattern. rewrite existsb_exists. setoid_rewrite globMatch_iff. setoid_rewrite <- list_elem_of_In. done.
Qed.
Lemma first_rule_None rules args :
  first_rule rules args = None ↔ ∀ rule, rule ∈ rules → ¬ glob (RrMatch rule) (joined args).
Proof.
  unfold first_rule. split.
  - intros Hn rule Hin Hg. apply List.find_none with (x := rule) in Hn; [|by apply list_elem_of_In]. by rewrite (proj2 (globMatch_iff _ _) Hg) in Hn.
  - intros Hno. destruct (List.find _ rules) as [rule|] eqn:Hf; [|done]. apply List.find_some in Hf as [Hin Hg].
    apply list_elem_of_In in Hin. apply globMatch_iff in Hg. by destruct (Hno rule Hin).
Qed.

(** The arguments a command may be called with. *)
Definition permitted (def : CommandDef) (args : list string) : Prop :=
  args = [] ∨
  (AllowedSubcommands def = [] ∨ extractSimpleSubcommand args = "" ∨ extractSimpleSubcommand args ∈ AllowedSubcommands def) ∧
  (∀ p, p ∈ DeniedPatterns def → ¬ glob p (joined args)) ∧
  ((∃ p, p ∈ AllowedPatterns def ∧ glob p (joined args)) ∨ AllowedSubcommands def ≠ [] ∧ AllowedPatterns def = []).

Lemma CheckPolicy_spec def args : CheckPolicy def args = true ↔ permitted def args.
Proof.
  unfold CheckPolicy, permitted. destruct args as [|a args]; [split; [by left|done]|]. set (l := a :: args). cbv zeta.
  assert (l = [] ↔ False) as -> by done.
  assert (Hd : matchesAnyPattern (DeniedPatterns def) (joined l) = false ↔ ∀ p, p ∈ DeniedPatterns def → ¬ glob p (joined l)).
  { rewrite <- not_true_iff_false, matchesAny_spec. naive_solver. }
  pose proof (matchesAny_spec (AllowedPatterns def) (joined l)) as Ha.
  unfold containsString, str_empty. rewrite <- Hd, <- Ha. clear Ha Hd.
  repeat case_bool_decide; destruct (matchesAnyPattern (DeniedPatterns def) _), (matchesAnyPattern (AllowedPatterns def) _); cbn;
    intuition congruence.
Qed.

Lemma missing_message def : str_empty (MissingSecretsMessage def) = bool_decide (MissingSecrets def = []).
Proof. unfold MissingSecretsMessage. by destruct (MissingSecrets def). Qed.

(** A host command runs exactly when no reject rule matches its arguments, all
    its declared secrets were resolved, and the arguments are permitted: none
    at all, or an allowed subcommand if there is a list of them, no denied
    pattern, and an allowed pattern, which may be absent if there is a list of
    subcommands. *)
Theorem host_commands_are_gated def args :
  gateHostCommand def args = None ↔
    (∀ rule, rule ∈ RejectRules def → ¬ glob (RrMatch rule) (joined args)) ∧ MissingSecrets def = [] ∧ permitted def args.
Proof.
  unfold gateHostCommand. rewrite <- first_rule_None, <- CheckPolicy_spec, missing_message.
  destruct (first_rule _ _); [naive_solver|]. case_bool_decide; destruct (CheckPolicy def args); cbn; naive_solver.
Qed.

Lemma gate_missing def args : gateHostCommand def args = None → MissingSecrets def = [].
Proof.
  unfold gateHostCommand. rewrite missing_message. destruct (first_rule _ _); [done|]. by case_bool_decide.
Qed.
(** A secret that could not be resolved: the command never runs, and no
    variable of any command has a reference for a value. *)
Lemma unresolved_secret_blocks resolver def args k v key :
  CdEnv def !! k = Some v → secret_of k v = Some key → resolver key = None → gateHostCommand (secret_command resolver def) args ≠ None.
Proof.
  intros Hv Hk Hr Hg. apply gate_missing in Hg. cbn in Hg. apply app_eq_nil in Hg as [_ Hg].
  assert (k +:+ " (secret:" +:+ key +:+ ")" ∈ omap (λ kv, left_of (resolve_env resolver kv.1 kv.2)) (map_to_list (CdEnv def))) as Hin.
  { apply list_elem_of_omap. exists (k, v). split; [by apply elem_of_map_to_list|]. unfold resolve_env. cbn [fst snd]. by rewrite Hk, Hr. }
  rewrite Hg in Hin. by apply elem_of_nil in Hin.
Qed.
Lemma resolved_env resolver def k val :
  CdEnv (secret_command resolver def) !! k = Some val ↔
    ∃ v, CdEnv def !! k = Some v ∧ match secret_of k v with None => v = val | Some key => resolver key = Some val end.
Proof.
  cbn [CdEnv secret_command]. rewrite map_lookup_imap. unfold resolve_env.
  destruct (CdEnv def !! k) as [v|]; cbn [mbind option_bind]; [|naive_solver].
  split.
  - intros Hval. exists v. split; [done|]. destruct (secret_of k v) as [key|]; [by destruct (resolver key)|by injection Hval].
  - intros (? & [= <-] & Hval). destruct (secret_of k v) as [key|]; [by rewrite Hval|by subst].
Qed.

(** What the shim refuses the broker refuses with the same words. *)
Lemma early_reject_agrees compact v rules def args msg :
  decode_rules v = Some rules → rules !! CdName def = Some (RejectRules def) →
  EarlyReject (RText compact v) (CdName def) args = Some msg → gateHostCommand def args = Some msg.
Proof.
  unfold EarlyReject, gateHostCommand. intros -> ->. cbn. destruct (str_empty _); [done|]. by destruct (first_rule _ _).
Qed.

(** ** Examples *)
Example globs :
  globMatch "pr *" "pr view 1" = true ∧ globMatch "*--force*" "push --force" = true ∧ globMatch "p?" "pr view" = false.
Proof. done. Qed.
Definition gh : CommandDef :=
  {| CdName := "gh"; CdPath := ""; AllowedPatterns := []; DeniedPatterns := ["*delete*"]; AllowedSubcommands := ["pr"; "issue"];
     CdEnv := {["GH_TOKEN" := "secret:"]}; RejectRules := [{| RrMatch := "pr merge*"; RrReason := "ask a human" |}]; MissingSecrets := [] |}.
Example gh_gate :
  gateHostCommand gh ["pr"; "view"; "1"] = None ∧ gateHostCommand gh ["repo"; "list"] = Some "arguments not allowed" ∧
  gateHostCommand gh ["pr"; "merge"; "1"] = Some "host_commands.gh: rejected: ask a human" ∧
  gateHostCommand gh ["issue"; "delete"; "1"] = Some "arguments not allowed" ∧
  gateHostCommand (secret_command (λ _, None) gh) ["pr"; "view"] =
    Some "host_commands.gh: rejected — required secret(s) unavailable: GH_TOKEN (secret:GH_TOKEN)".
Proof. by vm_compute. Qed.
