(* ===== verification/Broker.v ===== *)
(** * The broker of the sandboxes

    Models internal/sandbox/broker.go and the request types of protocol.go: the
    registry of job tokens, and what becomes of a request a sandboxed process
    sends, up to the executor of [Executor], the fetch builtin or a host
    command.  Of internal/orchestrator/policy.go the policies jobs get.

    Sockets, streams and the blocking of a call are left out.  The project
    resolver and the file system of the host are the class [BrokerEnv].  The
    text of a refusal is kept up to line numbers, the details of a JSON or
    resolver error and the reason a directory cannot be read. *)
From S2P Require Import Prelude Json CardDispatch CardWorkflow Notify HostCommands.
Open Scope Z_scope.

(** ** Requests *)
Inductive BoidOp : Type :=
| BoidOpJobDone | BoidOpJobList | BoidOpJobShow | BoidOpJobLog | BoidOpActionSend | BoidOpAgentStop
| BoidOpTaskCreate | BoidOpTaskGet | BoidOpTaskUpdate | BoidOpTaskImport | BoidOpTaskReopen | BoidOpTaskList
| BoidOpTaskNotify | BoidOpTaskAnswer | BoidOpTaskAsk | BoidOpTaskDelete | BoidOpTaskWait
| BoidOpTaskCurrent | BoidOpTaskInstructions | BoidOpTaskEnv | BoidOpTaskPayload
| BoidOpTaskAttachmentsList | BoidOpTaskAttachmentsGet | BoidOpTaskUpdatePayloadPatch
| BoidOpProjectBehaviors | BoidOpProjectList | BoidOpCardGet | BoidOpCardList
| BoidOpTaskIdentityLink | BoidOpTaskIdentityUnlink | BoidOpTaskIdentityResolve | BoidOpTaskResolveOrCapture
| BoidOpActionList | BoidOpSignalList | BoidOpSignalAck | BoidOpSignalClaim | BoidOpSignalIngest | BoidOpSignalCursorGet
| BoidOpCardContext | BoidOpAgentStart
| BoidOpOther (name : string).

Definition op_name (op : BoidOp) : string :=
  match op with
  | BoidOpJobDone => "job_done" | BoidOpJobList => "job_list" | BoidOpJobShow => "job_show" | BoidOpJobLog => "job_log"
  | BoidOpActionSend => "action_send" | BoidOpAgentStop => "agent_stop" | BoidOpTaskCreate => "task_create"
  | BoidOpTaskGet => "task_get" | BoidOpTaskUpdate => "task_update" | BoidOpTaskImport => "task_import"
  | BoidOpTaskReopen => "task.reopen" | BoidOpTaskList => "task_list" | BoidOpTaskNotify => "task_notify"
  | BoidOpTaskAnswer => "task_answer" | BoidOpTaskAsk => "task_ask" | BoidOpTaskDelete => "task_delete"
  | BoidOpTaskWait => "task_wait" | BoidOpTaskCurrent => "task_current" | BoidOpTaskInstructions => "task_instructions"
  | BoidOpTaskEnv => "task_env" | BoidOpTaskPayload => "task_payload"
  | BoidOpTaskAttachmentsList => "task_attachments_list" | BoidOpTaskAttachmentsGet => "task_attachments_get"
  | BoidOpTaskUpdatePayloadPatch => "task_update_payload_patch" | BoidOpProjectBehaviors => "project_behaviors"
  | BoidOpProjectList => "project_list" | BoidOpCardGet => "card_get" | BoidOpCardList => "card_list"
  | BoidOpTaskIdentityLink => "task_identity_link" | BoidOpTaskIdentityUnlink => "task_identity_unlink"
  | BoidOpTaskIdentityResolve => "task_identity_resolve" | BoidOpTaskResolveOrCapture => "task_resolve_or_capture"
  | BoidOpActionList => "action_list" | BoidOpSignalList => "signal_list" | BoidOpSignalAck => "signal_ack"
  | BoidOpSignalClaim => "signal_claim" | BoidOpSignalIngest => "signal_ingest" | BoidOpSignalCursorGet => "signal_cursor_get"
  | BoidOpCardContext => "card_context" | BoidOpAgentStart => "agent_start" | BoidOpOther name => name
  end.

(** The fields the broker may fill in. *)
Record Target : Type := {
  BqJobID : string;
  BqTaskID : string;
  BqProjectID : string;
  BqWorkspaceID : string;
  BqService : string;
  BqConnector : string;
  ImportTasks : list raw;
  ImportProjectOverride : string;
}.
Record BoidRequest : Type := {
  BqOp : BoidOp;
  target : Target;
  TaskField : string;
  BqExitCode : Z;
  BqOutput : string;
  CreatePatch : raw;
  UpdatePatch : raw;
  BqStatus : string;
  BqLimit : Z;
  BqMessage : string;
  BqAsk : string;
  BqQuestionID : string;
  BqProgress : string;
  BqDone : string;
  BqFail : string;
  BqAnswer : string;
  BqQuestion : string;
  Force : bool;
  ActionType : string;
  BqPayload : raw;
  AttachmentName : string;
  BqPayloadPatch : raw;
  Identity : string;
  IdentityURL : string;
  IdentityURLSet : bool;
  IdentityDisplayName : string;
  IdentityDisplayNameSet : bool;
  BqTitle : string;
  BqDescription : string;
  BqSince : string;
  BqClaim : bool;
  SignalState : string;
  SignalIDs : list string;
  IngestPayload : string;
  HarnessType : string;
  BqInstruction : string;
  BqReadonly : bool;
  BqModel : string;
  BqDisplayName : string;
}.

Definition on_target (f : Target → Target) (r : BoidRequest) : BoidRequest :=
  {| BqOp := BqOp r; target := f (target r); TaskField := TaskField r; BqExitCode := BqExitCode r; BqOutput := BqOutput r;
     CreatePatch := CreatePatch r; UpdatePatch := UpdatePatch r; BqStatus := BqStatus r; BqLimit := BqLimit r; BqMessage := BqMessage r;
     BqAsk := BqAsk r; BqQuestionID := BqQuestionID r; BqProgress := BqProgress r; BqDone := BqDone r; BqFail := BqFail r;
     BqAnswer := BqAnswer r; BqQuestion := BqQuestion r; Force := Force r; ActionType := ActionType r; BqPayload := BqPayload r;
     AttachmentName := AttachmentName r; BqPayloadPatch := BqPayloadPatch r; Identity := Identity r; IdentityURL := IdentityURL r;
     IdentityURLSet := IdentityURLSet r; IdentityDisplayName := IdentityDisplayName r; IdentityDisplayNameSet := IdentityDisplayNameSet r; BqTitle := BqTitle r; BqDescription := BqDescription r; BqSince := BqSince r;
     BqClaim := BqClaim r; SignalState := SignalState r; SignalIDs := SignalIDs r; IngestPayload := IngestPayload r;
     HarnessType := HarnessType r; BqInstruction := BqInstruction r; BqReadonly := BqReadonly r; BqModel := BqModel r;
     BqDisplayName := BqDisplayName r |}.

Definition set_job (t : Target) (x : string) : Target :=
  {| BqJobID := x; BqTaskID := BqTaskID t; BqProjectID := BqProjectID t; BqWorkspaceID := BqWorkspaceID t; BqService := BqService t;
     BqConnector := BqConnector t; ImportTasks := ImportTasks t; ImportProjectOverride := ImportProjectOverride t |}.
Definition set_task (t : Target) (x : string) : Target :=
  {| BqJobID := BqJobID t; BqTaskID := x; BqProjectID := BqProjectID t; BqWorkspaceID := BqWorkspaceID t; BqService := BqService t;
     BqConnector := BqConnector t; ImportTasks := ImportTasks t; ImportProjectOverride := ImportProjectOverride t |}.
Definition set_project (t : Target) (x : string) : Target :=
  {| BqJobID := BqJobID t; BqTaskID := BqTaskID t; BqProjectID := x; BqWorkspaceID := BqWorkspaceID t; BqService := BqService t;
     BqConnector := BqConnector t; ImportTasks := ImportTasks t; ImportProjectOverride := ImportProjectOverride t |}.
Definition set_workspace (t : Target) (x : string) : Target :=
  {| BqJobID := BqJobID t; BqTaskID := BqTaskID t; BqProjectID := BqProjectID t; BqWorkspaceID := x; BqService := BqService t;
     BqConnector := BqConnector t; ImportTasks := ImportTasks t; ImportProjectOverride := ImportProjectOverride t |}.
Definition set_connector (t : Target) (service connector : string) : Target :=
  {| BqJobID := BqJobID t; BqTaskID := BqTaskID t; BqProjectID := BqProjectID t; BqWorkspaceID := BqWorkspaceID t; BqService := service;
     BqConnector := connector; ImportTasks := ImportTasks t; ImportProjectOverride := ImportProjectOverride t |}.
Definition set_import (t : Target) (tasks : list raw) (override : string) : Target :=
  {| BqJobID := BqJobID t; BqTaskID := BqTaskID t; BqProjectID := BqProjectID t; BqWorkspaceID := BqWorkspaceID t; BqService := BqService t;
     BqConnector := BqConnector t; ImportTasks := tasks; ImportProjectOverride := override |}.

Record ExecResponse : Type := { RespExitCode : Z; Stdout : string; Stderr : string }.
Definition NoCardContextExitCode : Z := 4.
Definition PayloadPatchMaxBytes : Z := 10 * 1024 * 1024.

(** ** Tokens *)
Record TokenContext : Type := {
  TcJobID : string;
  TcTaskID : string;
  TcProjectID : string;
  TcWorkspaceID : string;
  AllowedProjectIDs : list string;
  TcRole : string;
  ProjectDir : string;
  TcService : string;
  TcConnector : string;
  SandboxRoot : string;
  TcCardID : string;
  TcCardRequestID : string;
}.

Definition AllowsProject (c : TokenContext) (projectID : string) : bool :=
  let projectID := if str_empty projectID then TcProjectID c else projectID in
  if str_empty projectID then false
  else match AllowedProjectIDs c with
       | [] => bool_decide (projectID = TcProjectID c)
       | allowed => bool_decide (projectID ∈ allowed)
       end.
Definition AllowsTask (c : TokenContext) (projectID workspaceID : string) : bool :=
  if str_empty projectID then negb (str_empty (TcWorkspaceID c)) && bool_decide (workspaceID = TcWorkspaceID c)
  else AllowsProject c projectID.

Record BuiltinPolicy : Type := { AllowedOps : gset string; AllowedCwdRoots : list string }.
Definition Allows (p : BuiltinPolicy) (op : string) : bool := bool_decide (op ∈ AllowedOps p).
Definition isWithinRoot (path root : string) : bool :=
  bool_decide (path = root) || String.prefix (root +:+ "/") path.
Definition AllowsCwd (p : BuiltinPolicy) (cwd : string) : bool :=
  existsb (λ root, negb (str_empty root) && isWithinRoot cwd root) (AllowedCwdRoots p).

Record tokenEntry : Type := {
  EContext : TokenContext;
  Commands : gmap string CommandDef;
  BuiltinPolicies : gmap string BuiltinPolicy;
}.
Abbreviation tokens := (gmap string tokenEntry).

(** [token] is what generateToken draws. *)
Definition Broker_Register (token : string) (commands : gmap string CommandDef) (policies : gmap string BuiltinPolicy) (ctx : TokenContext)
    (registry : tokens) : tokens :=
  <[token := {| EContext := ctx; Commands := commands; BuiltinPolicies := policies |}]> registry.
Definition RegisterWithSecrets (token : string) (resolver : string → option string) (commands : gmap string CommandDef)
    (policies : gmap string BuiltinPolicy) (ctx : TokenContext) (registry : tokens) : tokens :=
  Broker_Register token (resolve_commands resolver commands) policies ctx registry.
Definition GetContext (registry : tokens) (token : string) : option TokenContext := EContext <$> registry !! token.
Definition Broker_Unregister (registry : tokens) (token : string) : tokens := delete token registry.

(** ** The policies of jobs *)
Definition boidCwdRoots (projectDir homeDir : string) : list string :=
  "/tmp" :: filter (λ d, d ≠ "") [projectDir; homeDir].
Definition general_ops : list BoidOp :=
  [BoidOpJobDone; BoidOpJobList; BoidOpJobShow; BoidOpJobLog; BoidOpActionSend; BoidOpAgentStop; BoidOpTaskCreate; BoidOpTaskGet;
   BoidOpTaskUpdate; BoidOpTaskImport; BoidOpTaskReopen; BoidOpTaskList; BoidOpTaskNotify; BoidOpTaskAnswer; BoidOpTaskAsk;
   BoidOpTaskDelete; BoidOpTaskWait; BoidOpTaskCurrent; BoidOpTaskInstructions; BoidOpTaskEnv; BoidOpTaskPayload;
   BoidOpTaskAttachmentsList; BoidOpTaskAttachmentsGet; BoidOpTaskUpdatePayloadPatch; BoidOpProjectBehaviors; BoidOpProjectList;
   BoidOpCardGet; BoidOpCardList; BoidOpTaskIdentityLink; BoidOpTaskIdentityUnlink; BoidOpTaskIdentityResolve;
   BoidOpTaskResolveOrCapture; BoidOpActionList; BoidOpSignalList; BoidOpSignalClaim; BoidOpSignalAck; BoidOpCardContext; BoidOpAgentStart].
Definition boidPolicy (projectDir homeDir : string) : BuiltinPolicy :=
  {| AllowedOps := list_to_set (op_name <$> general_ops); AllowedCwdRoots := boidCwdRoots projectDir homeDir |}.
Definition fetchPolicy : BuiltinPolicy := {| AllowedOps := {["get"]}; AllowedCwdRoots := [] |}.
Definition connectorPolicy (projectDir homeDir : string) : BuiltinPolicy :=
  {| AllowedOps := {["signal_ingest"; "signal_cursor_get"; "job_done"]}; AllowedCwdRoots := boidCwdRoots projectDir homeDir |}.
Definition policyFor (name projectDir homeDir : string) : BuiltinPolicy :=
  if bool_decide (name = "boid") then boidPolicy projectDir homeDir
  else if bool_decide (name = "fetch") then fetchPolicy
  else {| AllowedOps := ∅; AllowedCwdRoots := [] |}.
Definition DefaultBuiltinPolicies (names : list string) (projectDir homeDir : string) : gmap string BuiltinPolicy :=
  list_to_map ((λ name, (name, policyFor name projectDir homeDir)) <$> names).
Definition ConnectorBuiltinPolicies (projectDir homeDir : string) : gmap string BuiltinPolicy :=
  {["boid" := connectorPolicy projectDir homeDir]}.

(** ** Serving a request *)

(** The resolver of project names, if there is one; the directories of the
    host; the length of a JSON text. *)
Class BrokerEnv : Type := {
  ProjectResolver : option (string → string + string);
  is_dir : string → bool;
  raw_len : raw → Z;
}.

Abbreviation checked := (outcome ExecResponse).
Definition refusal (msg : string) : ExecResponse := {| RespExitCode := 1; Stdout := ""; Stderr := msg |}.
Definition refuse {A} (msg : string) : checked A := Err (refusal msg).
Definition refuse_if (c : bool) (msg : string) : checked unit := if c then refuse msg else Ok ().

Section serve.
Context `{BrokerEnv}.

Definition resolveProjectRef (ref : string) : string + string :=
  match ProjectResolver with
  | Some resolve => if str_empty ref then inr ref else resolve ref
  | None => inr ref
  end.
Definition resolve_for (verb ref : string) : checked string :=
  match resolveProjectRef ref with
  | inr id => Ok id
  | inl e => refuse (verb +:+ ": resolve project " +:+ quoted ref +:+ ": " +:+ e)
  end.

Definition hasBuiltinPolicy (e : tokenEntry) (name : string) : bool := bool_decide (is_Some (BuiltinPolicies e !! name)).
Definition allowsBuiltinOp (e : tokenEntry) (name op : string) : bool :=
  match BuiltinPolicies e !! name with Some p => Allows p op | None => false end.

Definition entryRoot (e : tokenEntry) : string :=
  if str_empty (SandboxRoot (EContext e)) then ProjectDir (EContext e) else SandboxRoot (EContext e).
Definition validateBoidBuiltinCwd (cwd : string) (e : tokenEntry) : checked unit :=
  _ ← refuse_if (str_empty cwd) "cwd required";
  _ ← refuse_if (negb (String.prefix "/" cwd)) "cwd must be absolute";
  _ ← refuse_if (str_empty (SandboxRoot (EContext e)) && negb (is_dir cwd)) "cwd must be a directory";
  if match BuiltinPolicies e !! "boid" with Some p => AllowsCwd p cwd | None => false end then Ok ()
  else if negb (str_empty (entryRoot e)) && isWithinRoot cwd (entryRoot e) then Ok ()
  else refuse "boid builtin is restricted to the current project or worktree".

Definition or_else (s fallback : string) : string := if str_empty s then fallback else s.

(** What each operation may be asked for. *)
Definition own_job (what : string) (ctx : TokenContext) (t : Target) : checked Target :=
  _ ← refuse_if (str_empty (BqJobID t)) (what +:+ " requires a job id");
  _ ← refuse_if (negb (bool_decide (BqJobID t = TcJobID ctx))) (what +:+ " is restricted to the current job");
  Ok t.
Definition default_job (what : string) (ctx : TokenContext) (t : Target) : checked Target :=
  own_job what ctx (set_job t (or_else (BqJobID t) (TcJobID ctx))).
Definition default_task (what : string) (ctx : TokenContext) (t : Target) : checked Target :=
  let t := set_task t (or_else (BqTaskID t) (TcTaskID ctx)) in
  _ ← refuse_if (str_empty (BqTaskID t)) (what +:+ " requires a task id");
  _ ← refuse_if (negb (bool_decide (BqTaskID t = TcTaskID ctx))) (what +:+ " is restricted to the current task");
  Ok t.
Definition needs_task (what : string) (t : Target) : checked Target :=
  _ ← refuse_if (str_empty (BqTaskID t)) (what +:+ " requires a task id");
  Ok t.
Definition in_project (verb denied : string) (ctx : TokenContext) (t : Target) : checked Target :=
  resolved ← resolve_for verb (BqProjectID t);
  _ ← refuse_if (negb (AllowsProject ctx resolved)) denied;
  Ok (set_project t resolved).

(** The filters of a listing. *)
Definition list_scope (verb : string) (ctx : TokenContext) (t : Target) : checked Target :=
  t ← (if str_empty (BqProjectID t) then Ok t else in_project verb (verb +:+ ": project is outside the current workspace") ctx t);
  _ ← refuse_if (negb (str_empty (BqWorkspaceID t)) && negb (bool_decide (BqWorkspaceID t = TcWorkspaceID ctx)))
        (verb +:+ ": workspace_id is outside the current workspace");
  Ok (if str_empty (BqProjectID t) && str_empty (BqWorkspaceID t) then set_workspace t (TcWorkspaceID ctx) else t).

(** The scope of an identity. *)
Definition identity_scope (verb : string) (ctx : TokenContext) (t : Target) : checked Target :=
  let t := if str_empty (BqProjectID t) && str_empty (BqWorkspaceID t) then set_project t (TcProjectID ctx) else t in
  if str_empty (BqProjectID t) then
    let t := set_workspace t (or_else (BqWorkspaceID t) (TcWorkspaceID ctx)) in
    _ ← refuse_if (str_empty (BqWorkspaceID t) || negb (bool_decide (BqWorkspaceID t = TcWorkspaceID ctx)))
          "identity operation is restricted to the current workspace";
    Ok t
  else in_project verb (verb +:+ " is restricted to the current workspace") ctx t.

(** The members of the create patch the broker looks at. *)
Record create_peek : Type := { PkNoProject : bool; PkProjectID : string; PkWorkspaceID : string }.
Definition peek_member (p : create_peek) (k : string) (v : json) : create_peek * bool :=
  if field_matches "no_project" k then
    let d := dec_bool (PkNoProject p) v in ({| PkNoProject := d.1; PkProjectID := PkProjectID p; PkWorkspaceID := PkWorkspaceID p |}, d.2)
  else if field_matches "project_id" k then
    let d := dec_string (PkProjectID p) v in ({| PkNoProject := PkNoProject p; PkProjectID := d.1; PkWorkspaceID := PkWorkspaceID p |}, d.2)
  else if field_matches "workspace_id" k then
    let d := dec_string (PkWorkspaceID p) v in ({| PkNoProject := PkNoProject p; PkProjectID := PkProjectID p; PkWorkspaceID := d.1 |}, d.2)
  else (p, true).
Definition zero_peek : create_peek := {| PkNoProject := false; PkProjectID := ""; PkWorkspaceID := "" |}.
Definition peek_create (patch : raw) : checked create_peek :=
  match patch with
  | REmpty => Ok zero_peek
  | RBad _ => refuse "invalid task create patch"
  | RText _ v => let d := dec_struct peek_member zero_peek v in if d.2 then Ok d.1 else refuse "invalid task create patch"
  end.
Definition check_create (ctx : TokenContext) (r : BoidRequest) (t : Target) : checked Target :=
  peek ← peek_create (CreatePatch r);
  _ ← refuse_if (PkNoProject peek && (negb (str_empty (BqProjectID t)) || negb (str_empty (PkProjectID peek))))
        "no_project conflicts with project_id";
  let t := set_workspace t (or_else (BqWorkspaceID t) (PkWorkspaceID peek)) in
  _ ← refuse_if (negb (str_empty (BqWorkspaceID t)) && negb (bool_decide (BqWorkspaceID t = TcWorkspaceID ctx)))
        "boid task create is restricted to the current workspace";
  let t := if str_empty (BqProjectID t) && negb (PkNoProject peek) then set_project t (TcProjectID ctx) else t in
  if str_empty (BqProjectID t) then
    _ ← refuse_if (str_empty (TcWorkspaceID ctx)) "boid task create requires a workspace";
    Ok (set_workspace t (TcWorkspaceID ctx))
  else in_project "boid task create" "boid task create is restricted to the current workspace" ctx t.

(** A batch of tasks: the project of each is resolved and rewritten. *)
Definition rewriteImportTaskProjectID (task : raw) (newID : string) : option raw :=
  m ← unmarshal_map task;
  Some (marshal_map (Some (<["project_id" := JStr newID]> (default ∅ m)))).
Definition peek_project (task : raw) : option string :=
  match task with RText _ v => match decode_struct ["project_id"] v with ([p], true) => Some p | _ => None end | _ => None end.
Definition import_bad : string := "boid task import: invalid task json".
Definition import_line (ctx : TokenContext) (override : string) (task : raw) : checked raw :=
  peeked ← match peek_project task with Some p => Ok p | None => refuse import_bad end;
  '(projectID, task) ← (if negb (str_empty override) then Ok (override, task)
                        else if str_empty peeked then Ok ("", task)
                        else resolved ← resolve_for "boid task import" peeked;
                             if bool_decide (resolved = peeked) then Ok (resolved, task)
                             else match rewriteImportTaskProjectID task resolved with
                                  | Some updated => Ok (resolved, updated)
                                  | None => refuse "boid task import: rewrite project_id"
                                  end);
  let projectID := or_else projectID (TcProjectID ctx) in
  _ ← refuse_if (negb (AllowsProject ctx projectID)) "boid task import: project is outside the current workspace";
  Ok task.
Fixpoint import_lines (ctx : TokenContext) (override : string) (tasks : list raw) : checked (list raw) :=
  match tasks with
  | [] => Ok []
  | task :: tasks => task ← import_line ctx override task; tasks ← import_lines ctx override tasks; Ok (task :: tasks)
  end.
Definition check_import (ctx : TokenContext) (t : Target) : checked Target :=
  _ ← refuse_if (bool_decide (ImportTasks t = [])) "boid task import requires at least one task";
  override ← (if str_empty (ImportProjectOverride t) then Ok "" else resolve_for "boid task import" (ImportProjectOverride t));
  tasks ← import_lines ctx override (ImportTasks t);
  Ok (set_import t tasks override).

Definition too_big (len : Z) : bool := PayloadPatchMaxBytes <? len.
Definition connector_scope (what : string) (ctx : TokenContext) (t : Target) : checked Target :=
  let t := set_connector t (TcService ctx) (TcConnector ctx) in
  _ ← refuse_if (str_empty (BqService t) || str_empty (BqConnector t)) (what +:+ " requires a service and connector");
  Ok t.
Definition own_workspace (ctx : TokenContext) (t : Target) : Target := set_workspace t (TcWorkspaceID ctx).

Definition check_ask (ctx : TokenContext) (r : BoidRequest) (t : Target) : checked Target :=
  t ← needs_task "boid task ask" (set_task t (or_else (BqTaskID t) (TcTaskID ctx)));
  _ ← refuse_if (str_empty (BqQuestion r)) "boid task ask requires a question";
  Ok t.
Definition check_notify (r : BoidRequest) (t : Target) : checked Target :=
  t ← needs_task "boid task notify" t;
  _ ← refuse_if (str_empty (BqMessage r) && str_empty (BqProgress r)) "boid task notify requires a message or --progress";
  Ok t.
Definition check_answer (r : BoidRequest) (t : Target) : checked Target :=
  t ← needs_task "boid task answer" t;
  _ ← refuse_if (str_empty (BqQuestionID r)) "boid task answer requires a question id";
  _ ← refuse_if (str_empty (BqAnswer r)) "boid task answer requires an answer";
  Ok t.
Definition check_behaviors (ctx : TokenContext) (t : Target) : checked Target :=
  in_project "boid project behaviors" "boid project behaviors: project is outside the current workspace" ctx
    (set_project t (or_else (BqProjectID t) (TcProjectID ctx))).
Definition check_project_list (ctx : TokenContext) (t : Target) : checked Target :=
  let t := set_job t (or_else (BqJobID t) (TcJobID ctx)) in
  _ ← refuse_if (negb (bool_decide (BqJobID t = TcJobID ctx))) "boid project list is restricted to the current job";
  Ok t.
Definition check_action_send (r : BoidRequest) (t : Target) : checked Target :=
  t ← needs_task "boid action send" t;
  _ ← refuse_if (str_empty (ActionType r)) "boid action send requires a type";
  Ok t.
Definition check_identity_link (ctx : TokenContext) (r : BoidRequest) (t : Target) : checked Target :=
  _ ← refuse_if (str_empty (Identity r)) "boid task identity link requires an identity";
  t ← needs_task "boid task identity link" t;
  identity_scope "boid task identity link" ctx t.
Definition check_identity_unlink (ctx : TokenContext) (r : BoidRequest) (t : Target) : checked Target :=
  _ ← refuse_if (str_empty (Identity r)) "boid task identity unlink requires an identity";
  identity_scope "boid task identity unlink" ctx t.
Definition check_identity_resolve (ctx : TokenContext) (r : BoidRequest) (t : Target) : checked Target :=
  _ ← refuse_if (str_empty (Identity r)) "boid task identity resolve requires an identity";
  identity_scope "boid task identity resolve" ctx t.
Definition check_resolve_or_capture (ctx : TokenContext) (r : BoidRequest) (t : Target) : checked Target :=
  _ ← refuse_if (str_empty (Identity r)) "boid task resolve-or-capture requires an identity";
  identity_scope "boid task resolve-or-capture" ctx t.
Definition check_signal_ingest (ctx : TokenContext) (r : BoidRequest) (t : Target) : checked Target :=
  t ← connector_scope "boid signal ingest" ctx t;
  _ ← refuse_if (too_big (Z.of_nat (String.length (IngestPayload r)))) "boid signal ingest payload exceeds 10485760 bytes";
  Ok (own_workspace ctx t).
Definition check_signal_cursor (ctx : TokenContext) (t : Target) : checked Target :=
  t ← connector_scope "boid signal cursor" ctx t; Ok (own_workspace ctx t).
Definition check_card_context (ctx : TokenContext) (t : Target) : checked Target :=
  if str_empty (TcCardRequestID ctx)
  then Err {| RespExitCode := NoCardContextExitCode; Stdout := ""; Stderr := "boid card context: no card context for this job" |}
  else Ok t.
Definition check_agent_start (ctx : TokenContext) (r : BoidRequest) (t : Target) : checked Target :=
  _ ← refuse_if (str_empty (TcCardRequestID ctx)) "boid agent start: no card context for this job";
  _ ← refuse_if (too_big (Z.of_nat (String.length (BqInstruction r)))) "boid agent start --instruction exceeds 10485760 bytes";
  in_project "boid agent start" "boid agent start is restricted to the current workspace" ctx
    (set_project t (or_else (BqProjectID t) (TcProjectID ctx))).
Definition check_attachments_get (ctx : TokenContext) (r : BoidRequest) (t : Target) : checked Target :=
  t ← default_task "boid task attachments get" ctx t;
  _ ← refuse_if (str_empty (AttachmentName r)) "boid task attachments get requires an attachment name";
  Ok t.
Definition check_payload_patch (ctx : TokenContext) (r : BoidRequest) (t : Target) : checked Target :=
  t ← default_job "boid task update --payload-patch" ctx t;
  _ ← refuse_if (len0 (BqPayloadPatch r)) "boid task update --payload-patch requires a payload patch";
  _ ← refuse_if (too_big (raw_len (BqPayloadPatch r))) "boid task update --payload-patch exceeds 10485760 bytes";
  Ok t.

(** The switch over the operations. *)
Definition check_op (ctx : TokenContext) (r : BoidRequest) (t : Target) : checked Target :=
  match BqOp r with
  | BoidOpJobDone => own_job "boid job done" ctx t
  | BoidOpAgentStop => own_job "boid agent stop" ctx t
  | BoidOpTaskCreate => check_create ctx r t
  | BoidOpTaskGet => Ok (set_task t (or_else (BqTaskID t) (TcTaskID ctx)))
  | BoidOpTaskAsk => check_ask ctx r t
  | BoidOpTaskUpdate => needs_task "boid task update" t
  | BoidOpTaskReopen => needs_task "boid task reopen" t
  | BoidOpTaskWait => needs_task "boid task wait" t
  | BoidOpTaskNotify => check_notify r t
  | BoidOpTaskAnswer => check_answer r t
  | BoidOpTaskList => list_scope "boid task list" ctx t
  | BoidOpProjectBehaviors => check_behaviors ctx t
  | BoidOpProjectList => check_project_list ctx t
  | BoidOpActionSend => check_action_send r t
  | BoidOpCardGet => needs_task "boid card get" t
  | BoidOpCardList => list_scope "boid card list" ctx t
  | BoidOpTaskIdentityLink => check_identity_link ctx r t
  | BoidOpTaskIdentityUnlink => check_identity_unlink ctx r t
  | BoidOpTaskIdentityResolve => check_identity_resolve ctx r t
  | BoidOpTaskResolveOrCapture => check_resolve_or_capture ctx r t
  | BoidOpActionList => list_scope "boid action list" ctx t
  | BoidOpSignalList => Ok (own_workspace ctx t)
  | BoidOpSignalClaim =>
      _ ← refuse_if (bool_decide (SignalIDs r = [])) "boid signal claim requires at least one id";
      Ok (own_workspace ctx t)
  | BoidOpSignalAck =>
      _ ← refuse_if (bool_decide (SignalIDs r = [])) "boid signal ack requires at least one id";
      Ok (own_workspace ctx t)
  | BoidOpSignalIngest => check_signal_ingest ctx r t
  | BoidOpSignalCursorGet => check_signal_cursor ctx t
  | BoidOpCardContext => check_card_context ctx t
  | BoidOpAgentStart => check_agent_start ctx r t
  | BoidOpJobList => needs_task "boid job list" t
  | BoidOpJobShow => _ ← refuse_if (str_empty (BqJobID t)) "boid job show requires a job id"; Ok t
  | BoidOpJobLog => _ ← refuse_if (str_empty (BqJobID t)) "boid job log requires a job id"; Ok t
  | BoidOpTaskImport => check_import ctx t
  | BoidOpTaskCurrent => default_task "boid task current" ctx t
  | BoidOpTaskInstructions => default_job "boid task instructions" ctx t
  | BoidOpTaskEnv => default_job "boid task env" ctx t
  | BoidOpTaskPayload => default_job "boid task payload" ctx t
  | BoidOpTaskAttachmentsList => default_task "boid task attachments list" ctx t
  | BoidOpTaskAttachmentsGet => check_attachments_get ctx r t
  | BoidOpTaskUpdatePayloadPatch => check_payload_patch ctx r t
  | BoidOpTaskDelete | BoidOpOther _ => Ok t
  end.

Definition handleBoidBuiltin (cwd : string) (r : BoidRequest) (e : tokenEntry) : checked (TokenContext * BoidRequest) :=
  _ ← refuse_if (negb (hasBuiltinPolicy e "boid")) "command not allowed: boid";
  _ ← validateBoidBuiltinCwd cwd e;
  _ ← refuse_if (negb (allowsBuiltinOp e "boid" (op_name (BqOp r)))) ("boid op " +:+ quoted (op_name (BqOp r)) +:+ " not allowed by policy");
  t ← check_op (EContext e) r (target r);
  Ok (EContext e, on_target (λ _, t) r).

(** A request as it arrives, and who serves it. *)
Record ExecRequest : Type := { XCommand : string; XArgs : list string; XCwd : string; XToken : string; XBoid : option BoidRequest; XFetch : bool }.
Inductive served : Type :=
| SBoid (ctx : TokenContext) (r : BoidRequest)
| SFetch (e : tokenEntry)
| SRun (def : CommandDef) (args : list string).
Definition broker_handle (registry : tokens) (req : ExecRequest) : checked served :=
  match registry !! XToken req with
  | None => refuse "invalid token"
  | Some e =>
      match XBoid req with
      | Some r => '(ctx, r) ← handleBoidBuiltin (XCwd req) r e; Ok (SBoid ctx r)
      | None =>
          if XFetch req then Ok (SFetch e)
          else match Commands e !! XCommand req with
               | None => refuse ("command not allowed: " +:+ XCommand req)
               | Some def =>
                   match gateHostCommand def (XArgs req) with
                   | Some msg => refuse msg
                   | None => Ok (SRun def (XArgs req))
                   end
               end
      end
  end.
End serve.
