(* ===== verification/Executor.v ===== *)
(** * What a sandboxed job makes the daemon do

    Models internal/server/boid_executor.go with boid_executor_agent_start.go,
    boid_executor_card_context.go and boid_executor_card_attachments.go, up to
    the call of a service: for every request the broker lets through, which
    service is called with what, or why it is refused.

    The services are all present, as in a running daemon.  What they answer
    and how the answer is printed is left out, and so are the texts of their
    errors; a request that reads only is answered from what is read. *)
From S2P Require Import Prelude Json Payload Task Machine Lifecycle Coordinator Store CardDetail CardRequests CardDispatch TaskStore TaskRows CardWorkflow Workflow Notify Recovery HostCommands Broker.
Open Scope Z_scope.

(** ** Bodies of requests *)
Record BehaviorSpec : Type := { SpName : string; SpTraits : gslice string; SpDefaultInstruction : option Instruction }.
Record CreateTaskRequest : Type := {
  CqWorkspaceID : string;
  CqNoProject : bool;
  CqID : string;
  CqProjectID : string;
  CqTitle : string;
  CqDescription : string;
  CqBehavior : string;
  CqBehaviorSpec : option BehaviorSpec;
  CqRemoteID : string;
  CqPayload : raw;
  CqInstructions : raw;
  CqAutoStart : bool;
  (** [None] is the nil slice *)
  CqTraits : option (list string);
  CqRef : string;
  CqParentID : string;
  CqReadonly : option bool;
  CqInitialStatus : string;
  CqIdempotencyKey : string;
  CqCardRequestID : string;
  CqCardRequestOwnerJobID : string;
}.
Record UpdateTaskRequest : Type := {
  UqTitle : string;
  UqDescription : string;
  UqProjectID : string;
  UqRemoteID : option string;
  UqPayload : raw;
  UqInstructions : raw;
  UqParentID : option string;
  UqAutoStart : option bool;
}.

Definition dec_raw : decoder raw := λ _ v, (nested v, true).
(** A field of the object [v]: decoded member by member, whatever the others. *)
Definition field {A} (name : string) (d : decoder A) (zero : A) (v : json) : A * bool := dec_at name d zero v.
Definition text (name : string) (v : json) : string * bool := field name dec_string "" v.

Definition behavior_member (b : BehaviorSpec) (k : string) (v : json) : BehaviorSpec * bool :=
  if field_matches "name" k then
    let d := dec_string (SpName b) v in ({| SpName := d.1; SpTraits := SpTraits b; SpDefaultInstruction := SpDefaultInstruction b |}, d.2)
  else if field_matches "traits" k then
    let d := dec_slice "" dec_string (SpTraits b) v in
    ({| SpName := SpName b; SpTraits := d.1; SpDefaultInstruction := SpDefaultInstruction b |}, d.2)
  else if field_matches "default_instruction" k then
    let d := dec_ptr zero_instruction (dec_struct instruction_member) (SpDefaultInstruction b) v in
    ({| SpName := SpName b; SpTraits := SpTraits b; SpDefaultInstruction := d.1 |}, d.2)
  else (b, true).
Definition zero_behavior : BehaviorSpec := {| SpName := ""; SpTraits := nil_slice; SpDefaultInstruction := None |}.

Definition decode_create (v : json) : option CreateTaskRequest :=
  let s := λ name, text name v in
  let np := field "no_project" dec_bool false v in
  let sp := field "behavior_spec" (dec_ptr zero_behavior (dec_struct behavior_member)) None v in
  let pl := field "payload" dec_raw REmpty v in
  let ins := field "instructions" dec_raw REmpty v in
  let au := field "auto_start" dec_bool false v in
  let tr := field "traits" (dec_ptr nil_slice (dec_slice "" dec_string)) None v in
  let ro := field "readonly" (dec_ptr false dec_bool) None v in
  let ok := forallb (λ name, (s name).2) ["workspace_id"; "id"; "project_id"; "title"; "description"; "behavior"; "remote_id"; "ref";
              "parent_id"; "initial_status"; "idempotency_key"] in
  if ok && np.2 && sp.2 && pl.2 && ins.2 && au.2 && tr.2 && ro.2 then
    Some {| CqWorkspaceID := (s "workspace_id").1; CqNoProject := np.1; CqID := (s "id").1; CqProjectID := (s "project_id").1;
            CqTitle := (s "title").1; CqDescription := (s "description").1; CqBehavior := (s "behavior").1; CqBehaviorSpec := sp.1;
            CqRemoteID := (s "remote_id").1; CqPayload := pl.1; CqInstructions := ins.1; CqAutoStart := au.1;
            CqTraits := slice_elems <$> tr.1; CqRef := (s "ref").1; CqParentID := (s "parent_id").1; CqReadonly := ro.1;
            CqInitialStatus := (s "initial_status").1; CqIdempotencyKey := (s "idempotency_key").1; CqCardRequestID := "";
            CqCardRequestOwnerJobID := "" |}
  else None.
Definition decode_update (v : json) : option UpdateTaskRequest :=
  let t := text "title" v in let d := text "description" v in let p := text "project_id" v in
  let rm := field "remote_id" (dec_ptr "" dec_string) None v in
  let pl := field "payload" dec_raw REmpty v in
  let ins := field "instructions" dec_raw REmpty v in
  let pa := field "parent_id" (dec_ptr "" dec_string) None v in
  let au := field "auto_start" (dec_ptr false dec_bool) None v in
  if t.2 && d.2 && p.2 && rm.2 && pl.2 && ins.2 && pa.2 && au.2 then
    Some {| UqTitle := t.1; UqDescription := d.1; UqProjectID := p.1; UqRemoteID := rm.1; UqPayload := pl.1; UqInstructions := ins.1;
            UqParentID := pa.1; UqAutoStart := au.1 |}
  else None.
Definition decode_body {A} (decode : json → option A) (r : raw) (zero : json) (msg : string) : checked A :=
  match (match r with REmpty => decode zero | RBad _ => None | RText _ v => decode v end) with
  | Some a => Ok a
  | None => refuse msg
  end.

Definition set_scope (c : CreateTaskRequest) (project workspace : string) : CreateTaskRequest :=
  {| CqWorkspaceID := workspace; CqNoProject := CqNoProject c; CqID := CqID c; CqProjectID := project; CqTitle := CqTitle c;
     CqDescription := CqDescription c; CqBehavior := CqBehavior c; CqBehaviorSpec := CqBehaviorSpec c; CqRemoteID := CqRemoteID c;
     CqPayload := CqPayload c; CqInstructions := CqInstructions c; CqAutoStart := CqAutoStart c; CqTraits := CqTraits c;
     CqRef := CqRef c; CqParentID := CqParentID c; CqReadonly := CqReadonly c; CqInitialStatus := CqInitialStatus c;
     CqIdempotencyKey := CqIdempotencyKey c; CqCardRequestID := CqCardRequestID c; CqCardRequestOwnerJobID := CqCardRequestOwnerJobID c |}.
Definition set_link (c : CreateTaskRequest) (parent ref request owner : string) : CreateTaskRequest :=
  {| CqWorkspaceID := CqWorkspaceID c; CqNoProject := CqNoProject c; CqID := CqID c; CqProjectID := CqProjectID c; CqTitle := CqTitle c;
     CqDescription := CqDescription c; CqBehavior := CqBehavior c; CqBehaviorSpec := CqBehaviorSpec c; CqRemoteID := CqRemoteID c;
     CqPayload := CqPayload c; CqInstructions := CqInstructions c; CqAutoStart := CqAutoStart c; CqTraits := CqTraits c;
     CqRef := ref; CqParentID := parent; CqReadonly := CqReadonly c; CqInitialStatus := CqInitialStatus c;
     CqIdempotencyKey := CqIdempotencyKey c; CqCardRequestID := request; CqCardRequestOwnerJobID := owner |}.

(** ** The calls *)
Record filter_ : Type := { FProject : string; FWorkspace : string }.
Inductive call : Type :=
| KCompleteJob (job : string) (exitCode : Z) (output : string)
| KStopAgent (runtime : string)
| KAnswer (stdout : string)
| KCreateTask (req : CreateTaskRequest)
| KGetTaskField (id path : string)
| KUpdateTask (id : string) (req : UpdateTaskRequest)
| KApplyAction (id type : string) (payload : raw)
| KNotifyTask (id message ask questionID progress done fail : string)
| KAnswerTask (id questionID answer : string)
| KAskTaskBlocking (id question : string)
| KWaitTask (job id : string)
| KListTasks (filters : list filter_) (status : string)
| KImportTasks (reqs : list CreateTaskRequest)
| KProjectBehaviors (project : string)
| KProjectList (projects : list string) (job : string)
| KGetCard (id : string)
| KListCards (filters : list filter_) (status : string)
| KLinkIdentity (scope : IdentityScope) (identity id : string) (url name : option string)
| KUnlinkIdentity (scope : IdentityScope) (identity : string)
| KResolvedIdentity (id : string) (status : TaskStatus)
| KResolveOrCapture (scope : IdentityScope) (identity title description : string) (url name : option string)
| KListActions (task since : string) (limit : Z) (projects : list string) (workspace : string)
| KListSignals (workspace connector state : string) (limit : Z)
| KClaimSignals (workspace : string) (limit : Z)
| KClaimSignalIDs (workspace : string) (ids : list string)
| KAckSignals (workspace : string) (ids : list string)
| KIngestSignals (workspace service connector payload : string)
| KGetSignalCursor (workspace service connector : string)
| KCardContext (row : CardRequest) (path : string)
| KStartSession (project harness instruction : string) (readonly : bool) (model display card request : string)
| KListJobs (task : string)
| KShowJob (job : string)
| KReadJobLog (runtime : string)
| KDeleteTask (id : string) (force : bool)
| KTaskCurrent (id path : string)
| KJobContext (what : BoidOp) (job path : string)
| KListAttachments (tasks : list string)
| KReadAttachment (tasks : list string) (name : string)
| KUpdatePayloadPatch (job : string) (patch : raw).

(** ** The executor *)
Definition ParentIDSentinelRoot : string := "-".

Definition the_task (id : string) (s : WDB) : checked Task :=
  match (GetTask id s).2 with inr t => Ok t | inl _ => refuse "task not found" end.
Definition the_job (id : string) (s : WDB) : checked JobRow :=
  match jobs (led s) !! id with Some j => Ok j | None => refuse "job not found" end.
Definition the_request (id : string) (s : WDB) : checked CardRequest :=
  match (GetCardRequest id (ledger_view s)).2 with inr r => Ok r | inl _ => refuse "card request not found" end.

(** The look-up in front of every operation on a task. *)
Definition own_task (verb : string) (ctx : TokenContext) (id : string) (s : WDB) : checked Task :=
  existing ← the_task id s;
  _ ← refuse_if (negb (AllowsTask ctx (ProjectID existing) (WorkspaceID existing))) (verb +:+ " is restricted to the current workspace");
  Ok existing.
Definition named_task (verb : string) (ctx : TokenContext) (id : string) (s : WDB) : checked Task :=
  _ ← refuse_if (str_empty id) (verb +:+ " requires a task id");
  own_task verb ctx id s.

Definition launcher_owns (ctx : TokenContext) (row : CardRequest) : bool :=
  bool_decide (CardID row = TcCardID ctx) && negb (str_empty (LauncherJobID row)) && bool_decide (LauncherJobID row = TcJobID ctx)
  && bool_decide (RStatus row = CardRequestStatusLaunching).
Definition launcher_resumes (ctx : TokenContext) (row : CardRequest) : bool :=
  launcher_owns ctx row
  || bool_decide (CardID row = TcCardID ctx) && bool_decide (TargetKind row = CardRequestTargetKindTask) && negb (str_empty (TargetID row))
     && bool_decide (LauncherJobID row = TcJobID ctx) && bool_decide (RStatus row = CardRequestStatusAttached).

Definition parked (c : CreateTaskRequest) : bool := bool_decide (CqInitialStatus c = "parked").

(** The scope of the new task. *)
Definition create_scope (ctx : TokenContext) (t : Target) (c : CreateTaskRequest) : checked CreateTaskRequest :=
  let project := if negb (str_empty (BqProjectID t)) then BqProjectID t
                 else if str_empty (CqProjectID c) && negb (CqNoProject c) then TcProjectID ctx else CqProjectID c in
  _ ← refuse_if (CqNoProject c && negb (str_empty project)) "no_project conflicts with project_id";
  _ ← refuse_if (negb (str_empty (CqWorkspaceID c)) && negb (bool_decide (CqWorkspaceID c = TcWorkspaceID ctx)))
        "boid task create is restricted to the current workspace";
  _ ← refuse_if (negb (str_empty (BqWorkspaceID t)) && negb (bool_decide (BqWorkspaceID t = TcWorkspaceID ctx)))
        "boid task create is restricted to the current workspace";
  let workspace := or_else (BqWorkspaceID t) (CqWorkspaceID c) in
  if str_empty project then
    _ ← refuse_if (str_empty (TcWorkspaceID ctx)) "boid task create requires a workspace";
    Ok (set_scope c project (TcWorkspaceID ctx))
  else Ok (set_scope c project workspace).

(** The launcher of a card's command: its task is a child of the card. *)
Definition create_link (ctx : TokenContext) (s : WDB) (c : CreateTaskRequest) : checked (CreateTaskRequest * bool) :=
  if str_empty (TcCardID ctx) || str_empty (TcCardRequestID ctx) then Ok (c, false)
  else
    row ← the_request (TcCardRequestID ctx) s;
    let resumes := launcher_resumes ctx row in
    let c := if resumes && negb (parked c) && str_empty (CqParentID c)
             then set_link c (TcCardID ctx) (or_else (CqRef c) (TcCardRequestID ctx)) (CqCardRequestID c) (CqCardRequestOwnerJobID c) else c in
    let c := if launcher_owns ctx row && negb (parked c) && bool_decide (CqParentID c = TcCardID ctx)
             then set_link c (CqParentID c) (CqRef c) (TcCardRequestID ctx) (TcJobID ctx) else c in
    Ok (c, resumes).

Definition create_parent (ctx : TokenContext) (c : CreateTaskRequest) : CreateTaskRequest :=
  let parent := if bool_decide (CqParentID c = ParentIDSentinelRoot) then "" else or_else (CqParentID c) (TcTaskID ctx) in
  set_link c parent (CqRef c) (CqCardRequestID c) (CqCardRequestOwnerJobID c).

(** The claim of the request by a root task or a direct child. *)
Definition create_claim (ctx : TokenContext) (s : WDB) (c : CreateTaskRequest) : checked CreateTaskRequest :=
  if negb (str_empty (TcCardRequestID ctx)) && (str_empty (CqParentID c) || bool_decide (CqParentID c = TcCardID ctx)) && negb (parked c) then
    row ← the_request (TcCardRequestID ctx) s;
    Ok (if negb (str_empty (TcCardID ctx)) && launcher_owns ctx row
        then set_link c (CqParentID c) (or_else (CqRef c) (TcCardRequestID ctx)) (TcCardRequestID ctx) (TcJobID ctx) else c)
  else Ok c.

Definition execute_create (ctx : TokenContext) (r : BoidRequest) (s : WDB) : checked call :=
  let t := target r in
  c ← decode_body decode_create (CreatePatch r) JNull "boid task create: invalid create_patch";
  c ← create_scope ctx t c;
  '(c, resumes) ← create_link ctx s c;
  let c := create_parent ctx c in
  _ ← refuse_if (negb (str_empty (CqParentID c)) && str_empty (CqRef c))
        "child create requires a stable ref; pass ref: <slug> in the task spec";
  _ ← refuse_if (negb (str_empty (CqProjectID c)) && negb (AllowsProject ctx (CqProjectID c))
                 || str_empty (CqProjectID c) && negb (bool_decide (CqWorkspaceID c = TcWorkspaceID ctx)))
        "boid task create is restricted to the current workspace";
  _ ← refuse_if (negb (str_empty (TcCardRequestID ctx)) && negb (str_empty (TcCardID ctx)) && bool_decide (CqParentID c = TcCardID ctx)
                 && (negb resumes || parked c))
        "boid task create: --parent targets this job's own card, but this job does not own the launching card_request";
  c ← create_claim ctx s c;
  Ok (KCreateTask c).

Definition scope_of (t : Target) : IdentityScope := {| ScProject := BqProjectID t; ScWorkspace := BqWorkspaceID t |}.
Definition optionalIdentityValue (value : string) (is_set : bool) : option string := if is_set then Some value else None.
Definition validateTaskListStatus (status : string) : bool :=
  bool_decide (status ∈ ["" ; "open"; "closed"; "queue_next"; "cards_live"; "triage"]) || bool_decide (is_Some (ParseTaskStatus status)).
Definition reopen_payload (message : string) : raw :=
  if str_empty message then REmpty else RText true (JObj [("instruction", JObj [("message", JStr message)])]).
Definition child_project (payload : raw) : option string :=
  match payload with RText _ v => match decode_struct ["project"] v with ([p], true) => Some p | _ => None end | _ => None end.

(** The projects an unfiltered listing is put together from. *)
Definition default_projects (ctx : TokenContext) : list string :=
  match AllowedProjectIDs ctx with [] => [TcProjectID ctx] | l => l end.
Definition unscoped (ctx : TokenContext) : bool := bool_decide (AllowedProjectIDs ctx = []) && str_empty (TcProjectID ctx).
Definition by_project (p : string) : filter_ := {| FProject := p; FWorkspace := "" |}.
Definition by_workspace (w : string) : filter_ := {| FProject := ""; FWorkspace := w |}.

Definition list_tasks (ctx : TokenContext) (r : BoidRequest) (t : Target) : checked call :=
  _ ← refuse_if (negb (validateTaskListStatus (BqStatus r))) "boid task list: unknown status";
  Ok (KListTasks (if negb (str_empty (BqProjectID t)) then [by_project (BqProjectID t)]
                  else if negb (str_empty (BqWorkspaceID t)) then [by_workspace (BqWorkspaceID t)]
                  else by_project <$> default_projects ctx) (BqStatus r)).
Definition list_cards (ctx : TokenContext) (r : BoidRequest) (t : Target) : checked call :=
  _ ← refuse_if (negb (validateTaskListStatus (BqStatus r))) "boid task list: unknown status";
  if negb (str_empty (BqProjectID t)) then
    _ ← refuse_if (negb (AllowsProject ctx (BqProjectID t))) "boid card list is restricted to the current workspace";
    Ok (KListCards [by_project (BqProjectID t)] (BqStatus r))
  else if negb (str_empty (BqWorkspaceID t)) then
    _ ← refuse_if (negb (str_empty (TcWorkspaceID ctx)) && negb (bool_decide (BqWorkspaceID t = TcWorkspaceID ctx)))
          "boid card list is restricted to the current workspace";
    Ok (KListCards [by_workspace (BqWorkspaceID t)] (BqStatus r))
  else
    _ ← refuse_if (unscoped ctx) "boid card list: no project scope available for an unfiltered listing";
    Ok (KListCards (by_project <$> default_projects ctx) (BqStatus r)).
Definition list_actions (ctx : TokenContext) (r : BoidRequest) (t : Target) : checked call :=
  if negb (str_empty (BqProjectID t)) then
    _ ← refuse_if (negb (AllowsProject ctx (BqProjectID t))) "boid action list is restricted to the current workspace";
    Ok (KListActions (BqTaskID t) (BqSince r) (BqLimit r) [BqProjectID t] "")
  else if negb (str_empty (BqWorkspaceID t)) then
    _ ← refuse_if (negb (str_empty (TcWorkspaceID ctx)) && negb (bool_decide (BqWorkspaceID t = TcWorkspaceID ctx)))
          "boid action list is restricted to the current workspace";
    Ok (KListActions (BqTaskID t) (BqSince r) (BqLimit r) [] (BqWorkspaceID t))
  else
    _ ← refuse_if (unscoped ctx) "boid action list: no project scope available for an unfiltered listing";
    Ok (KListActions (BqTaskID t) (BqSince r) (BqLimit r) (default_projects ctx) "").

Fixpoint import_reqs (ctx : TokenContext) (override : string) (tasks : list raw) : checked (list CreateTaskRequest) :=
  match tasks with
  | [] => Ok []
  | task :: tasks =>
      c ← match task with
          | RText _ v => match decode_create v with Some c => Ok c | None => refuse import_bad end
          | _ => refuse import_bad
          end;
      let project := or_else (or_else override (CqProjectID c)) (TcProjectID ctx) in
      rest ← import_reqs ctx override tasks;
      Ok (set_scope c project (CqWorkspaceID c) :: rest)
  end.

Definition send_action (ctx : TokenContext) (r : BoidRequest) (t : Target) (s : WDB) : checked call :=
  _ ← named_task "boid action send" ctx (BqTaskID t) s;
  _ ← (if bool_decide (ActionType r = "child_specced") then
         match child_project (BqPayload r) with
         | None => refuse "boid action send: invalid child_specced payload"
         | Some p => refuse_if (str_empty p || negb (AllowsProject ctx p))
                       "boid action send: child_specced project is restricted to the current workspace"
         end
       else Ok ());
  Ok (KApplyAction (BqTaskID t) (ActionType r) (BqPayload r)).

Definition card_context (ctx : TokenContext) (r : BoidRequest) (s : WDB) : checked call :=
  _ ← (if str_empty (TcCardRequestID ctx)
       then Err {| RespExitCode := NoCardContextExitCode; Stdout := ""; Stderr := "boid card context: no card context for this job" |}
       else Ok ());
  row ← the_request (TcCardRequestID ctx) s;
  _ ← refuse_if (str_empty (TcCardID ctx) || negb (bool_decide (CardID row = TcCardID ctx)))
        "boid card context: token card_id does not match the request's card_id";
  _ ← refuse_if (too_big (Z.of_nat (String.length (RInstruction row)))) "boid card context: stored instruction exceeds 10485760 bytes";
  Ok (KCardContext row (TaskField r)).

(** [valid_harness] is api.ValidateHarnessType. *)
Definition executeAgentStart (valid_harness : string → bool) (ctx : TokenContext) (r : BoidRequest) (t : Target) (s : WDB) : checked call :=
  _ ← refuse_if (str_empty (TcCardRequestID ctx)) "boid agent start: no card context for this job";
  row ← the_request (TcCardRequestID ctx) s;
  _ ← refuse_if (str_empty (TcCardID ctx) || negb (bool_decide (CardID row = TcCardID ctx)))
        "boid agent start: token card_id does not match the request's card_id";
  _ ← refuse_if (str_empty (LauncherJobID row) || negb (bool_decide (LauncherJobID row = TcJobID ctx)))
        "boid agent start: this job is no longer the request's current launcher";
  _ ← refuse_if (bool_decide (CardRequestOrigin (CauseID row) = CardRequestOriginEvent))
        "boid agent start: rejected — this request originated from an internal event, and only a human-issued command may start a session";
  match RStatus row with
  | CardRequestStatusAttached =>
      if bool_decide (TargetKind row = CardRequestTargetKindSession) then Ok (KAnswer (TargetID row))
      else refuse "boid agent start: this request is already attached to something else, not a session"
  | CardRequestStatusLaunching =>
      _ ← refuse_if (negb (valid_harness (HarnessType r))) "boid agent start: unknown harness";
      Ok (KStartSession (BqProjectID t) (HarnessType r) (BqInstruction r) (BqReadonly r) (BqModel r) (BqDisplayName r) (TcCardID ctx)
            (TcCardRequestID ctx))
  | _ => refuse "boid agent start: card request is not launchable"
  end.

(** The tasks whose files a job may read: its own, then its card's. *)
Definition attachment_tasks (ctx : TokenContext) (taskID : string) : list string :=
  if bool_decide (TcTaskID ctx = taskID) && negb (str_empty (TcCardID ctx)) && negb (str_empty (TcCardRequestID ctx))
  then [taskID; TcCardID ctx] else [taskID].

Definition execute_agent_stop (t : Target) (s : WDB) : checked call :=
  job ← the_job (BqJobID t) s;
  Ok (if str_empty (JRuntimeID job) then KAnswer "agent stop: job has no runtime" else KStopAgent (JRuntimeID job)).
Definition execute_task_get (ctx : TokenContext) (r : BoidRequest) (t : Target) (s : WDB) : checked call :=
  _ ← own_task "boid task show" ctx (BqTaskID t) s; Ok (KGetTaskField (BqTaskID t) (TaskField r)).
Definition execute_task_update (ctx : TokenContext) (r : BoidRequest) (t : Target) (s : WDB) : checked call :=
  _ ← named_task "boid task update" ctx (BqTaskID t) s;
  u ← decode_body decode_update (UpdatePatch r) JNull "boid task update: invalid update_patch";
  _ ← refuse_if (negb (str_empty (UqProjectID u)) && negb (AllowsProject ctx (UqProjectID u)))
        "boid task update project is restricted to the current workspace";
  Ok (KUpdateTask (BqTaskID t) u).
Definition execute_task_reopen (ctx : TokenContext) (r : BoidRequest) (t : Target) (s : WDB) : checked call :=
  _ ← named_task "boid task reopen" ctx (BqTaskID t) s; Ok (KApplyAction (BqTaskID t) "reopen" (reopen_payload (BqMessage r))).
Definition execute_task_notify (ctx : TokenContext) (r : BoidRequest) (t : Target) (s : WDB) : checked call :=
  _ ← named_task "boid task notify" ctx (BqTaskID t) s;
  Ok (KNotifyTask (BqTaskID t) (BqMessage r) (BqAsk r) (BqQuestionID r) (BqProgress r) (BqDone r) (BqFail r)).
Definition execute_task_answer (ctx : TokenContext) (r : BoidRequest) (t : Target) (s : WDB) : checked call :=
  _ ← named_task "boid task answer" ctx (BqTaskID t) s; Ok (KAnswerTask (BqTaskID t) (BqQuestionID r) (BqAnswer r)).
Definition execute_task_ask (ctx : TokenContext) (r : BoidRequest) (t : Target) (s : WDB) : checked call :=
  let id := or_else (BqTaskID t) (TcTaskID ctx) in
  _ ← refuse_if (str_empty id) "boid task ask requires a task id";
  _ ← own_task "boid task ask" ctx id s;
  Ok (KAskTaskBlocking id (BqQuestion r)).
Definition execute_task_wait (ctx : TokenContext) (t : Target) (s : WDB) : checked call :=
  existing ← named_task "boid task wait" ctx (BqTaskID t) s;
  _ ← refuse_if (bool_decide (ID existing = TcTaskID ctx)) "boid task wait cannot wait on the calling task";
  Ok (KWaitTask (TcJobID ctx) (ID existing)).
Definition execute_task_import (ctx : TokenContext) (t : Target) : checked call :=
  reqs ← import_reqs ctx (ImportProjectOverride t) (ImportTasks t); Ok (KImportTasks reqs).
Definition execute_project_list (ctx : TokenContext) (t : Target) : checked call :=
  Ok (KProjectList (filter (λ p, p ≠ "") (default_projects ctx)) (BqJobID t)).
Definition execute_card_get (ctx : TokenContext) (t : Target) (s : WDB) : checked call :=
  _ ← named_task "boid card get" ctx (BqTaskID t) s; Ok (KGetCard (BqTaskID t)).
Definition execute_identity_link (ctx : TokenContext) (r : BoidRequest) (t : Target) (s : WDB) : checked call :=
  _ ← refuse_if (str_empty (BqTaskID t)) "boid task identity link requires a task id";
  _ ← refuse_if (str_empty (Identity r)) "boid task identity link requires an identity";
  existing ← own_task "boid task identity link" ctx (BqTaskID t) s;
  _ ← refuse_if (negb (bool_decide (ProjectID existing = BqProjectID t))
                 || str_empty (BqProjectID t) && negb (bool_decide (WorkspaceID existing = BqWorkspaceID t)))
        "boid task identity link: task belongs to a different project";
  Ok (KLinkIdentity (scope_of t) (Identity r) (ID existing) (optionalIdentityValue (IdentityURL r) (IdentityURLSet r))
        (optionalIdentityValue (IdentityDisplayName r) (IdentityDisplayNameSet r))).
Definition execute_identity_unlink (r : BoidRequest) (t : Target) : checked call :=
  _ ← refuse_if (str_empty (Identity r)) "boid task identity unlink requires an identity";
  Ok (KUnlinkIdentity (scope_of t) (Identity r)).
Definition execute_identity_resolve (ctx : TokenContext) (r : BoidRequest) (t : Target) (s : WDB) : checked call :=
  _ ← refuse_if (str_empty (Identity r)) "boid task identity resolve requires an identity";
  match (ResolveIdentityInScope (scope_of t) (Identity r) s).2 with
  | inl _ => refuse "identity not found"
  | inr task =>
      _ ← refuse_if (negb (AllowsTask ctx (ProjectID task) (WorkspaceID task)))
            "boid task identity resolve is restricted to the current workspace";
      Ok (KResolvedIdentity (ID task) (Status task))
  end.
Definition execute_resolve_or_capture (r : BoidRequest) (t : Target) : checked call :=
  _ ← refuse_if (str_empty (Identity r)) "boid task resolve-or-capture requires an identity";
  Ok (KResolveOrCapture (scope_of t) (Identity r) (BqTitle r) (BqDescription r) (optionalIdentityValue (IdentityURL r) (IdentityURLSet r))
        (optionalIdentityValue (IdentityDisplayName r) (IdentityDisplayNameSet r))).
Definition execute_signal_list (r : BoidRequest) (t : Target) : checked call :=
  _ ← refuse_if (str_empty (BqWorkspaceID t)) "boid signal list requires a workspace";
  if BqClaim r then
    _ ← refuse_if (negb (str_empty (BqConnector t))) "boid signal list: --claim does not support --source (ClaimSignals has no connector filter)";
    _ ← refuse_if (negb (str_empty (SignalState r)) && negb (bool_decide (SignalState r = "pending")))
          "boid signal list: --claim always claims pending signals; --state is not supported with --claim";
    Ok (KClaimSignals (BqWorkspaceID t) (BqLimit r))
  else Ok (KListSignals (BqWorkspaceID t) (BqConnector t) (SignalState r) (BqLimit r)).
Definition execute_signal_claim (r : BoidRequest) (t : Target) : checked call :=
  _ ← refuse_if (str_empty (BqWorkspaceID t)) "boid signal claim requires a workspace";
  _ ← refuse_if (bool_decide (SignalIDs r = [])) "boid signal claim requires at least one id";
  Ok (KClaimSignalIDs (BqWorkspaceID t) (SignalIDs r)).
Definition execute_signal_ack (r : BoidRequest) (t : Target) : checked call :=
  _ ← refuse_if (str_empty (BqWorkspaceID t)) "boid signal ack requires a workspace";
  _ ← refuse_if (bool_decide (SignalIDs r = [])) "boid signal ack requires at least one id";
  Ok (KAckSignals (BqWorkspaceID t) (SignalIDs r)).
Definition execute_signal_ingest (r : BoidRequest) (t : Target) : checked call :=
  _ ← refuse_if (str_empty (BqWorkspaceID t)) "boid signal ingest requires a workspace";
  _ ← refuse_if (str_empty (BqService t) || str_empty (BqConnector t)) "boid signal ingest requires a service and connector";
  Ok (KIngestSignals (BqWorkspaceID t) (BqService t) (BqConnector t) (IngestPayload r)).
Definition execute_signal_cursor (t : Target) : checked call :=
  _ ← refuse_if (str_empty (BqWorkspaceID t)) "boid signal cursor requires a workspace";
  _ ← refuse_if (str_empty (BqService t) || str_empty (BqConnector t)) "boid signal cursor requires a service and connector";
  Ok (KGetSignalCursor (BqWorkspaceID t) (BqService t) (BqConnector t)).
Definition execute_job_list (ctx : TokenContext) (t : Target) (s : WDB) : checked call :=
  _ ← named_task "boid job list" ctx (BqTaskID t) s; Ok (KListJobs (BqTaskID t)).
Definition execute_job_show (ctx : TokenContext) (t : Target) (s : WDB) : checked call :=
  _ ← refuse_if (str_empty (BqJobID t)) "boid job show requires a job id";
  j ← the_job (BqJobID t) s;
  _ ← refuse_if (negb (AllowsProject ctx (JProjectID j))) "boid job show is restricted to the current workspace";
  Ok (KShowJob (BqJobID t)).
Definition execute_job_log (ctx : TokenContext) (t : Target) (s : WDB) : checked call :=
  _ ← refuse_if (str_empty (BqJobID t)) "boid job log requires a job id";
  j ← the_job (BqJobID t) s;
  _ ← refuse_if (negb (AllowsProject ctx (JProjectID j))) "boid job log is restricted to the current workspace";
  Ok (if str_empty (JRuntimeID j) then KAnswer "no runtime" else KReadJobLog (JRuntimeID j)).
Definition execute_task_delete (ctx : TokenContext) (r : BoidRequest) (t : Target) (s : WDB) : checked call :=
  _ ← named_task "boid task delete" ctx (BqTaskID t) s; Ok (KDeleteTask (BqTaskID t) (Force r)).

Definition ExecuteBoidBuiltin (valid_harness : string → bool) (ctx : TokenContext) (r : BoidRequest) (s : WDB) : checked call :=
  let t := target r in
  match BqOp r with
  | BoidOpJobDone => Ok (KCompleteJob (BqJobID t) (BqExitCode r) (BqOutput r))
  | BoidOpAgentStop => execute_agent_stop t s
  | BoidOpTaskCreate => execute_create ctx r s
  | BoidOpTaskGet => execute_task_get ctx r t s
  | BoidOpTaskUpdate => execute_task_update ctx r t s
  | BoidOpTaskReopen => execute_task_reopen ctx r t s
  | BoidOpTaskNotify => execute_task_notify ctx r t s
  | BoidOpTaskAnswer => execute_task_answer ctx r t s
  | BoidOpTaskAsk => execute_task_ask ctx r t s
  | BoidOpTaskWait => execute_task_wait ctx t s
  | BoidOpTaskList => list_tasks ctx r t
  | BoidOpTaskImport => execute_task_import ctx t
  | BoidOpProjectBehaviors => Ok (KProjectBehaviors (BqProjectID t))
  | BoidOpProjectList => execute_project_list ctx t
  | BoidOpActionSend => send_action ctx r t s
  | BoidOpCardGet => execute_card_get ctx t s
  | BoidOpCardList => list_cards ctx r t
  | BoidOpTaskIdentityLink => execute_identity_link ctx r t s
  | BoidOpTaskIdentityUnlink => execute_identity_unlink r t
  | BoidOpTaskIdentityResolve => execute_identity_resolve ctx r t s
  | BoidOpTaskResolveOrCapture => execute_resolve_or_capture r t
  | BoidOpActionList => list_actions ctx r t
  | BoidOpSignalList => execute_signal_list r t
  | BoidOpSignalClaim => execute_signal_claim r t
  | BoidOpSignalAck => execute_signal_ack r t
  | BoidOpSignalIngest => execute_signal_ingest r t
  | BoidOpSignalCursorGet => execute_signal_cursor t
  | BoidOpCardContext => card_context ctx r s
  | BoidOpAgentStart => executeAgentStart valid_harness ctx r t s
  | BoidOpJobList => execute_job_list ctx t s
  | BoidOpJobShow => execute_job_show ctx t s
  | BoidOpJobLog => execute_job_log ctx t s
  | BoidOpTaskDelete => execute_task_delete ctx r t s
  | BoidOpTaskCurrent => Ok (KTaskCurrent (BqTaskID t) (TaskField r))
  | BoidOpTaskInstructions | BoidOpTaskEnv | BoidOpTaskPayload => Ok (KJobContext (BqOp r) (BqJobID t) (TaskField r))
  | BoidOpTaskAttachmentsList => Ok (KListAttachments (attachment_tasks ctx (BqTaskID t)))
  | BoidOpTaskAttachmentsGet => Ok (KReadAttachment (attachment_tasks ctx (BqTaskID t)) (AttachmentName r))
  | BoidOpTaskUpdatePayloadPatch => Ok (KUpdatePayloadPatch (BqJobID t) (BqPayloadPatch r))
  | BoidOpOther name => refuse ("unsupported boid op " +:+ quoted name)
  end.

(** ** What a job can reach *)

(** What the token stands for, said without the checks the code makes: a named
    project is one the token lists or, when it lists none, the token's own; a
    scope is such a project or, with no project, the token's workspace. *)
Definition project_ok (ctx : TokenContext) (p : string) : Prop :=
  p ≠ "" ∧ (p ∈ AllowedProjectIDs ctx ∨ AllowedProjectIDs ctx = [] ∧ p = TcProjectID ctx).
Definition scope_ok (ctx : TokenContext) (project workspace : string) : Prop :=
  project_ok ctx project ∨ project = "" ∧ workspace = TcWorkspaceID ctx ∧ workspace ≠ "".
(** A task of the job's workspace. *)
Definition stored_in (ctx : TokenContext) (s : WDB) (t : Task) : Prop :=
  (∃ k, find_task k s = Some t) ∧ scope_ok ctx (ProjectID t) (WorkspaceID t).
Definition reachable (ctx : TokenContext) (s : WDB) (id : string) : Prop :=
  ∃ t, find_task id s = Some t ∧ scope_ok ctx (ProjectID t) (WorkspaceID t).
(** A job of a project of the workspace, or of no project: the workspace of a
    job without a project is not looked at. *)
Definition job_ok (ctx : TokenContext) (j : JobRow) : Prop := JProjectID j = "" ∨ project_ok ctx (JProjectID j).
Definition own_request (ctx : TokenContext) (s : WDB) (row : CardRequest) : Prop :=
  (GetCardRequest (TcCardRequestID ctx) (ledger_view s)).2 = inr row ∧ CardID row = TcCardID ctx ∧ TcCardID ctx ≠ "".

Definition within (ctx : TokenContext) (s : WDB) (c : call) : Prop :=
  match c with
  | KAnswer _ => True
  | KCompleteJob job _ _ | KJobContext _ job _ | KUpdatePayloadPatch job _ => job = TcJobID ctx
  | KStopAgent runtime => ∃ j, jobs (led s) !! TcJobID ctx = Some j ∧ JRuntimeID j = runtime
  | KCreateTask c =>
      scope_ok ctx (CqProjectID c) (CqWorkspaceID c) ∧ (CqWorkspaceID c = "" ∨ CqWorkspaceID c = TcWorkspaceID ctx) ∧
      (CqCardRequestID c = "" ∨
       CqCardRequestID c = TcCardRequestID ctx ∧ CqCardRequestOwnerJobID c = TcJobID ctx ∧
       ∃ row, own_request ctx s row ∧ RStatus row = CardRequestStatusLaunching ∧ LauncherJobID row = TcJobID ctx)
  | KImportTasks cs => Forall (λ c, project_ok ctx (CqProjectID c) ∧ CqCardRequestID c = "") cs
  | KUpdateTask id u => reachable ctx s id ∧ (UqProjectID u = "" ∨ project_ok ctx (UqProjectID u))
  | KGetTaskField id _ | KApplyAction id _ _ | KNotifyTask id _ _ _ _ _ _ | KAnswerTask id _ _ | KAskTaskBlocking id _
  | KGetCard id | KListJobs id | KDeleteTask id _ => reachable ctx s id
  | KWaitTask job id => job = TcJobID ctx ∧ id ≠ TcTaskID ctx ∧ ∃ t, ID t = id ∧ stored_in ctx s t
  | KListTasks fs _ | KListCards fs _ => Forall (λ f, scope_ok ctx (FProject f) (FWorkspace f)) fs
  | KListActions _ _ _ projects workspace =>
      projects ≠ [] ∧ Forall (project_ok ctx) projects ∨ projects = [] ∧ workspace = TcWorkspaceID ctx ∧ workspace ≠ ""
  | KProjectBehaviors p => project_ok ctx p
  | KProjectList ps job => Forall (project_ok ctx) ps ∧ job = TcJobID ctx
  | KLinkIdentity scope _ id _ _ =>
      scope_ok ctx (ScProject scope) (ScWorkspace scope) ∧
      ∃ t, ID t = id ∧ stored_in ctx s t ∧ ProjectID t = ScProject scope
  | KUnlinkIdentity scope _ | KResolveOrCapture scope _ _ _ _ _ => scope_ok ctx (ScProject scope) (ScWorkspace scope)
  | KResolvedIdentity id st => ∃ t, ID t = id ∧ Status t = st ∧ stored_in ctx s t
  | KListSignals w _ _ _ | KClaimSignals w _ | KClaimSignalIDs w _ | KAckSignals w _ => w = TcWorkspaceID ctx ∧ w ≠ ""
  | KIngestSignals w service connector _ | KGetSignalCursor w service connector =>
      w = TcWorkspaceID ctx ∧ w ≠ "" ∧ service = TcService ctx ∧ connector = TcConnector ctx
  | KCardContext row _ => own_request ctx s row
  | KStartSession project _ _ _ _ _ card request =>
      project_ok ctx project ∧ card = TcCardID ctx ∧ request = TcCardRequestID ctx ∧
      ∃ row, own_request ctx s row ∧ CauseID row = "" ∧ RStatus row = CardRequestStatusLaunching ∧ LauncherJobID row = TcJobID ctx
  | KShowJob job => ∃ j, jobs (led s) !! job = Some j ∧ job_ok ctx j
  | KReadJobLog runtime => ∃ k j, jobs (led s) !! k = Some j ∧ JRuntimeID j = runtime ∧ job_ok ctx j
  | KTaskCurrent id _ => id = TcTaskID ctx
  | KListAttachments ids | KReadAttachment ids _ => Forall (λ id, id = TcTaskID ctx ∨ id = TcCardID ctx) ids
  end.

Lemma refuse_ok {A} c msg (k : unit → checked A) x : (refuse_if c msg ≫= k) = Ok x → c = false ∧ k () = Ok x.
Proof. by destruct c. Qed.
Lemma checked_bind {A B} (m : checked A) (k : A → checked B) x : (m ≫= k) = Ok x → ∃ a, m = Ok a ∧ k a = Ok x.
Proof. destruct m as [a| |]; [|done|done]. by exists a. Qed.

(** Takes a run of checks apart. *)
Ltac unchecked :=
  repeat match goal with
  | H : (refuse_if _ _ ≫= _) = Ok _ |- _ => let C := fresh "Hc" in apply refuse_ok in H as [C H]
  | H : refuse _ = Ok _ |- _ => discriminate H
  | H : Err _ = Ok _ |- _ => discriminate H
  | H : Ok _ = Ok _ |- _ => injection H as H
  | H : (if ?b then Err _ else _) = Ok _ |- _ => destruct b eqn:?; [discriminate H|]
  end.
Ltac bools :=
  repeat match goal with
  | H : negb ?b = false |- _ => apply negb_false_iff in H
  | H : _ || _ = false |- _ => apply orb_false_iff in H as [? H]
  | H : str_empty _ = false |- _ => apply bool_decide_eq_false in H
  | H : str_empty _ = true |- _ => apply bool_decide_eq_true in H
  | H : bool_decide _ = true |- _ => apply bool_decide_eq_true in H
  | H : bool_decide _ = false |- _ => apply bool_decide_eq_false in H
  end.

Lemma the_task_ok id s t : the_task id s = Ok t → find_task id s = Some t.
Proof. unfold the_task, GetTask. rewrite bind_gets. by destruct (find_task id s); intros [= ->]. Qed.
(** The token's checks decide what the token stands for. *)
Lemma AllowsProject_spec ctx p : p ≠ "" → AllowsProject ctx p = true ↔ project_ok ctx p.
Proof.
  intros Hp. unfold project_ok, AllowsProject, str_empty. rewrite !(bool_decide_false (p = "")) by done.
  destruct (AllowedProjectIDs ctx) as [|a l]; rewrite bool_decide_eq_true; set_solver.
Qed.
Lemma AllowsTask_spec ctx p w : AllowsTask ctx p w = true ↔ scope_ok ctx p w.
Proof.
  unfold AllowsTask, scope_ok. destruct (str_empty p) eqn:He; bools.
  - subst. rewrite andb_true_iff, negb_true_iff. unfold str_empty, project_ok. rewrite bool_decide_eq_false, bool_decide_eq_true. naive_solver.
  - rewrite AllowsProject_spec by done. naive_solver.
Qed.
Lemma AllowsProject_job ctx j : AllowsProject ctx (JProjectID j) = true → job_ok ctx j.
Proof. unfold job_ok. destruct (decide (JProjectID j = "")); [by left|]. rewrite AllowsProject_spec by done. by right. Qed.
Lemma own_task_ok verb ctx id s t :
  own_task verb ctx id s = Ok t → find_task id s = Some t ∧ scope_ok ctx (ProjectID t) (WorkspaceID t).
Proof.
  unfold own_task. intros (t' & Ht & Hr)%checked_bind. unchecked. subst. bools. apply the_task_ok in Ht. by rewrite <- AllowsTask_spec.
Qed.
Lemma named_task_ok verb ctx id s t :
  named_task verb ctx id s = Ok t → find_task id s = Some t ∧ scope_ok ctx (ProjectID t) (WorkspaceID t).
Proof. unfold named_task. intros Hr. unchecked. by eapply own_task_ok. Qed.
Lemma the_request_ok id s row : the_request id s = Ok row → (GetCardRequest id (ledger_view s)).2 = inr row.
Proof. unfold the_request. by destruct (GetCardRequest id (ledger_view s)).2; intros [= ->]. Qed.
Lemma the_job_ok id s j : the_job id s = Ok j → jobs (led s) !! id = Some j.
Proof. unfold the_job. by destruct (jobs (led s) !! id); intros [= ->]. Qed.

Lemma or_else_cases a b : or_else a b = a ∧ a ≠ "" ∨ or_else a b = b ∧ a = "".
Proof. unfold or_else, str_empty. case_bool_decide; auto. Qed.

Ltac unfold_ops := unfold execute_agent_stop, execute_card_get, execute_identity_link, execute_identity_resolve, execute_identity_unlink, execute_job_list, execute_job_log, execute_job_show, execute_project_list, execute_resolve_or_capture, execute_signal_ack, execute_signal_claim, execute_signal_cursor, execute_signal_ingest, execute_signal_list, execute_task_answer, execute_task_ask, execute_task_delete, execute_task_get, execute_task_import, execute_task_notify, execute_task_reopen, execute_task_update, execute_task_wait.

(** ** What the broker's checks leave *)
Section confined.
Context `{BrokerEnv} (ctx : TokenContext).
(** The resolver of project names answers the id of a project. *)
Context (resolver_names : ∀ f ref id, ProjectResolver = Some f → f ref = inr id → id ≠ "").

Definition import_ok (override : string) (task : raw) : Prop :=
  ∀ b v c, task = RText b v → decode_create v = Some c → project_ok ctx (or_else (or_else override (CqProjectID c)) (TcProjectID ctx)).
Definition granted (op : BoidOp) (t : Target) : Prop :=
  match op with
  | BoidOpJobDone | BoidOpAgentStop | BoidOpProjectList | BoidOpTaskInstructions | BoidOpTaskEnv | BoidOpTaskPayload
  | BoidOpTaskUpdatePayloadPatch => BqJobID t = TcJobID ctx
  | BoidOpTaskCurrent | BoidOpTaskAttachmentsList | BoidOpTaskAttachmentsGet => BqTaskID t = TcTaskID ctx
  | BoidOpTaskList | BoidOpCardList | BoidOpActionList =>
      (BqProjectID t = "" ∨ project_ok ctx (BqProjectID t)) ∧ (BqWorkspaceID t = "" ∨ BqWorkspaceID t = TcWorkspaceID ctx) ∧
      (BqProjectID t = "" → BqWorkspaceID t = "" → TcWorkspaceID ctx = "")
  | BoidOpProjectBehaviors | BoidOpAgentStart => project_ok ctx (BqProjectID t)
  | BoidOpTaskIdentityLink | BoidOpTaskIdentityUnlink | BoidOpTaskIdentityResolve | BoidOpTaskResolveOrCapture =>
      scope_ok ctx (BqProjectID t) (BqWorkspaceID t)
  | BoidOpTaskImport => Forall (import_ok (ImportProjectOverride t)) (ImportTasks t)
  | BoidOpSignalList | BoidOpSignalClaim | BoidOpSignalAck => BqWorkspaceID t = TcWorkspaceID ctx
  | BoidOpSignalIngest | BoidOpSignalCursorGet =>
      BqWorkspaceID t = TcWorkspaceID ctx ∧ BqService t = TcService ctx ∧ BqConnector t = TcConnector ctx
  | _ => True
  end.

Lemma own_job_ok what t t' : own_job what ctx t = Ok t' → t' = t ∧ BqJobID t = TcJobID ctx.
Proof. unfold own_job. intros Hr. unchecked. bools. by subst. Qed.
Lemma default_task_ok what t t' : default_task what ctx t = Ok t' → BqTaskID t' = TcTaskID ctx.
Proof. unfold default_task. intros Hr. unchecked. bools. by subst. Qed.

Lemma AllowsProject_empty : AllowsProject ctx "" = AllowsProject ctx (TcProjectID ctx).
Proof. unfold AllowsProject, str_empty. by destruct (decide (TcProjectID ctx = "")) as [->|?]; repeat case_bool_decide. Qed.
Lemma AllowsProject_nonempty : AllowsProject ctx "" = true → TcProjectID ctx ≠ "".
Proof. unfold AllowsProject. intros Ha Hc. by rewrite Hc in Ha. Qed.

Lemma resolve_for_ok verb ref id : resolve_for verb ref = Ok id → id = "" → ref = "".
Proof.
  unfold resolve_for, resolveProjectRef. destruct ProjectResolver as [f|] eqn:Hp; [|by intros [= ->]].
  destruct (str_empty ref) eqn:He; [by bools|]. destruct (f ref) eqn:Hf; [done|]. intros [= ->] ->.
  by destruct (resolver_names f ref "" eq_refl Hf).
Qed.
Lemma in_project_ok verb denied t t' :
  in_project verb denied ctx t = Ok t' →
  AllowsProject ctx (BqProjectID t') = true ∧ (BqProjectID t' = "" → BqProjectID t = "") ∧ BqWorkspaceID t' = BqWorkspaceID t.
Proof.
  unfold in_project. intros (id & Hid & Hr)%checked_bind. unchecked. bools. subst. cbn. split_and!; [done| |done].
  by apply (resolve_for_ok verb).
Qed.
(** The project of the request or, without one, of the token. *)
Lemma defaulted_project_ok verb denied t t' :
  in_project verb denied ctx (set_project t (or_else (BqProjectID t) (TcProjectID ctx))) = Ok t' → project_ok ctx (BqProjectID t').
Proof.
  intros (Ha & Hn & _)%in_project_ok. apply AllowsProject_spec; [|done]. cbn in Hn. intros He. rewrite He in Ha.
  specialize (Hn He). apply AllowsProject_nonempty in Ha. by destruct (or_else_cases (BqProjectID t) (TcProjectID ctx)) as [[Ho ?]|[Ho ?]]; congruence.
Qed.

Lemma list_scope_ok verb t t' :
  list_scope verb ctx t = Ok t' →
  (BqProjectID t' = "" ∨ project_ok ctx (BqProjectID t')) ∧ (BqWorkspaceID t' = "" ∨ BqWorkspaceID t' = TcWorkspaceID ctx) ∧
  (BqProjectID t' = "" → BqWorkspaceID t' = "" → TcWorkspaceID ctx = "").
Proof.
  unfold list_scope. intros (t0 & Ht0 & Hr)%checked_bind. unchecked. subst.
  assert (BqProjectID t0 = "" ∨ project_ok ctx (BqProjectID t0)) as Hp.
  { destruct (str_empty (BqProjectID t)) eqn:He; bools; [injection Ht0 as <-; by left|].
    apply in_project_ok in Ht0 as (Ha & Hn & _). right. apply AllowsProject_spec; auto. }
  destruct (str_empty (BqProjectID t0)) eqn:H1, (str_empty (BqWorkspaceID t0)) eqn:H2; cbn in *; bools; split_and!; auto; congruence.
Qed.

Lemma identity_scope_ok verb t t' : identity_scope verb ctx t = Ok t' → scope_ok ctx (BqProjectID t') (BqWorkspaceID t').
Proof.
  unfold identity_scope. set (t0 := if _ && _ then _ else t). clearbody t0. destruct (str_empty (BqProjectID t0)) eqn:He.
  - intros Hr. unchecked. subst. apply orb_false_iff in Hc as [Hc1 Hc2]. bools. right. cbn in *. auto.
  - intros (Ha & Hn & _)%in_project_ok. bools. left. apply AllowsProject_spec; auto.
Qed.
End confined.

(** ** The project of an imported task *)
Lemma text_decode_field name fs : text name (JObj fs) = decode_field name fs.
Proof.
  unfold text, field, dec_at, decode_field. cbn [dec_struct]. generalize ("", true). induction fs as [|[k v] fs IH]; intros [cur ok]; [done|].
  cbn [foldl]. rewrite <- IH. f_equal. unfold dec_member. cbn [fst snd]. destruct (field_matches name k); [|by rewrite andb_true_r].
  destruct v; cbn; by rewrite ?andb_true_r, ?andb_false_r.
Qed.
Lemma peek_project_text b v p : peek_project (RText b v) = Some p → text "project_id" v = (p, true).
Proof.
  unfold peek_project, decode_struct. destruct v as [| | | | |fs]; try done; cbn [struct_fields fmap list_fmap fst snd forallb].
  - by intros [= <-].
  - rewrite text_decode_field. destruct (decode_field "project_id" fs) as [q []]; cbn; [|done]. by intros [= <-].
Qed.
Lemma decode_create_project v c : decode_create v = Some c → CqProjectID c = (text "project_id" v).1 ∧ CqCardRequestID c = "".
Proof. unfold decode_create. cbv zeta. destruct (_ && _); [|done]. by intros [= <-]. Qed.

Lemma decode_field_last name fs1 k s fs2 :
  field_matches name k = true → Forall (λ kv, field_matches name kv.1 = false) fs2 →
  (decode_field name (fs1 ++ (k, JStr s) :: fs2)).1 = s.
Proof.
  intros Hk Hfs. unfold decode_field. rewrite foldl_app. destruct (foldl _ _ fs1) as [cur ok]. cbn [foldl]. rewrite Hk.
  generalize ok. induction Hfs as [|[k' v'] fs2 Hk' _ IH]; intros ok'; [done|]. cbn [foldl fst] in *. by rewrite Hk'.
Qed.
(** The member put in wins over every other spelling of it. *)
Lemma rewritten_project m id : (text "project_id" (obj_of_map (<["project_id" := JStr id]> m))).1 = id.
Proof.
  unfold obj_of_map. rewrite text_decode_field. set (M := <["project_id" := JStr id]> m).
  assert (("project_id", JStr id) ∈ sorted_fields M) as (l1 & l2 & Hl)%list_elem_of_split.
  { apply sorted_elem. apply lookup_insert_eq. }
  rewrite Hl. apply decode_field_last; [done|]. apply Forall_forall. intros [k v] Hin. cbn.
  destruct (field_matches "project_id" k) eqn:Hm; [exfalso|done].
  assert (k = "project_id") as ->.
  { apply plain_name_last; [cbn; unfold plain_char; cbn; lia|done|].
    pose proof (StronglySorted_merge_sort field_le (map_to_list M)) as Hs. fold (sorted_fields M) in Hs. rewrite Hl in Hs.
    apply StronglySorted_app in Hs as (_ & _ & Hs). inversion Hs as [|?? _ Hall]; subst. rewrite Forall_forall in Hall. exact (Hall _ Hin). }
  assert (M !! "project_id" = Some v) as Hv by (apply sorted_elem; rewrite Hl; set_solver).
  unfold M in Hv. rewrite lookup_insert_eq in Hv. injection Hv as <-.
  pose proof (sorted_nodup M) as Hnd. rewrite Hl in Hnd. apply NoDup_app in Hnd as (_ & _ & Hnd). by apply NoDup_cons in Hnd as [? _].
Qed.

Section confined_ops.
Context `{BrokerEnv} (ctx : TokenContext).
Context (resolver_names : ∀ f ref id, ProjectResolver = Some f → f ref = inr id → id ≠ "").

Lemma AllowsProject_or_else p : AllowsProject ctx (or_else p (TcProjectID ctx)) = true → project_ok ctx (or_else p (TcProjectID ctx)).
Proof.
  intros Ha. apply AllowsProject_spec; [|done]. intros He. rewrite He in Ha. apply AllowsProject_nonempty in Ha.
  by destruct (or_else_cases p (TcProjectID ctx)) as [[Ho ?]|[Ho ?]]; congruence.
Qed.
Lemma import_line_ok override task task' : import_line ctx override task = Ok task' → import_ok ctx override task'.
Proof.
  unfold import_line. intros (peeked & Hp & Hr)%checked_bind. apply checked_bind in Hr as ([project task0] & Hl & Hr). unchecked. subst task0. bools.
  intros b v c -> [Hcp _]%decode_create_project. rewrite Hcp. unfold or_else at 2. destruct (str_empty override) eqn:Ho.
  - apply AllowsProject_or_else. cbn [negb] in Hl. destruct task as [| |b0 v0]; try done.
    destruct (peek_project (RText b0 v0)) as [p|] eqn:Hpk; [|done]. injection Hp as ->. apply peek_project_text in Hpk.
    destruct (str_empty peeked) eqn:He; bools.
    { injection Hl as <- _ <-. subst peeked. by rewrite Hpk. }
    apply checked_bind in Hl as (resolved & _ & Hl). case_bool_decide as Heq.
    { injection Hl as <- _ <-. subst. by rewrite Hpk. }
    destruct (rewriteImportTaskProjectID (RText b0 v0) resolved) as [task1|] eqn:Hrw; [|done]. injection Hl as <- Ht. subst task1.
    unfold rewriteImportTaskProjectID in Hrw. destruct (unmarshal_map (RText b0 v0)) as [m|]; [|done].
    cbn in Hrw. injection Hrw as _ <-. by rewrite rewritten_project.
  - cbn [negb] in Hl. injection Hl as <- _. by apply AllowsProject_or_else.
Qed.
Lemma import_lines_ok override tasks tasks' : import_lines ctx override tasks = Ok tasks' → Forall (import_ok ctx override) tasks'.
Proof.
  revert tasks'. induction tasks as [|task tasks IH]; intros tasks'; cbn [import_lines]; [by intros [= <-]|].
  intros (task' & Ht & Hr)%checked_bind. apply checked_bind in Hr as (rest & Hrest & Hr). unchecked. subst.
  constructor; [by apply (import_line_ok _ task)|by apply IH].
Qed.
Lemma check_import_ok t t' : check_import ctx t = Ok t' → Forall (import_ok ctx (ImportProjectOverride t')) (ImportTasks t').
Proof.
  unfold check_import. intros Hr. unchecked. apply checked_bind in Hr as (override & _ & Hr). apply checked_bind in Hr as (tasks & Ht & Hr).
  unchecked. subst. cbn. by apply (import_lines_ok _ (ImportTasks t)).
Qed.

Lemma connector_scope_ok what t t' :
  connector_scope what ctx t = Ok t' → BqService t' = TcService ctx ∧ BqConnector t' = TcConnector ctx.
Proof. unfold connector_scope. intros Hr. unchecked. by subst. Qed.
Lemma needs_task_ok what t t' : needs_task what t = Ok t' → t' = t.
Proof. unfold needs_task. intros Hr. unchecked. by subst. Qed.

Lemma check_op_ok r t t' : check_op ctx r t = Ok t' → granted ctx (BqOp r) t'.
Proof.
  unfold check_op, granted. unfold check_action_send, check_agent_start, check_answer, check_ask, check_attachments_get, check_behaviors, check_card_context, check_identity_link, check_identity_resolve, check_identity_unlink, check_notify, check_payload_patch, check_project_list, check_resolve_or_capture, check_signal_cursor, check_signal_ingest.
  destruct (BqOp r); intros Hr; try done; unchecked; bools; subst; try done;
    try (by apply (identity_scope_ok _ resolver_names) in Hr); try (by apply list_scope_ok in Hr); try (by apply check_import_ok in Hr);
    try (by apply (defaulted_project_ok _ resolver_names) in Hr);
    try (by apply own_job_ok in Hr as [-> ?]); try (by apply default_task_ok in Hr).
  - apply checked_bind in Hr as (t0 & Ht & Hr). unchecked. subst. by apply default_task_ok in Ht.
  - apply checked_bind in Hr as (t0 & Ht & Hr). unchecked. subst. by apply own_job_ok in Ht as [-> ?].
  - apply checked_bind in Hr as (t0 & Ht & Hr). by apply (identity_scope_ok _ resolver_names) in Hr.
  - apply checked_bind in Hr as (t0 & Ht & Hr). unchecked. subst. by apply connector_scope_ok in Ht.
  - apply checked_bind in Hr as (t0 & Ht & Hr). unchecked. subst. by apply connector_scope_ok in Ht.
Qed.

(** ** Nothing outside *)

(** A token that names a place at all. *)
Definition sane : Prop :=
  (TcWorkspaceID ctx ≠ "" ∨ AllowedProjectIDs ctx ≠ [] ∨ TcProjectID ctx ≠ "") ∧ "" ∉ AllowedProjectIDs ctx.
Context (Hsane : sane).

Lemma default_projects_ok : unscoped ctx = false → Forall (project_ok ctx) (default_projects ctx).
Proof.
  unfold unscoped, default_projects, project_ok. destruct Hsane as [_ Hne]. intros Hu.
  destruct (AllowedProjectIDs ctx) as [|a l] eqn:Ha.
  - rewrite bool_decide_true in Hu by done. cbn in Hu. bools. apply Forall_singleton. auto.
  - apply Forall_forall. intros p Hp. split; [intros ->; done|by left].
Qed.
Lemma unscoped_token : unscoped ctx = true → TcWorkspaceID ctx ≠ "".
Proof.
  unfold unscoped. intros [Ha Hp]%andb_true_iff. bools. destruct Hsane as [[?|[?|?]] _]; congruence.
Qed.
Lemma default_scopes : unscoped ctx = false → Forall (λ f, scope_ok ctx (FProject f) (FWorkspace f)) (by_project <$> default_projects ctx).
Proof. intros Hu%default_projects_ok. apply Forall_fmap. eapply Forall_impl; [exact Hu|]. by left. Qed.

Lemma create_scope_ok t c c' :
  create_scope ctx t c = Ok c' →
  (CqProjectID c' = "" → CqWorkspaceID c' = TcWorkspaceID ctx ∧ TcWorkspaceID ctx ≠ "") ∧
  (CqWorkspaceID c' = "" ∨ CqWorkspaceID c' = TcWorkspaceID ctx) ∧ CqCardRequestID c' = CqCardRequestID c.
Proof.
  unfold create_scope. intros Hr. unchecked. destruct (str_empty (if negb (str_empty (BqProjectID t)) then _ else _)) eqn:He; unchecked; subst; cbn; bools.
  - auto.
  - split_and!; [done| |done]. destruct (or_else_cases (BqWorkspaceID t) (CqWorkspaceID c)) as [[-> ?]|[-> ?]].
    + apply andb_false_iff in Hc1 as [?|?]; bools; auto.
    + apply andb_false_iff in Hc0 as [?|?]; bools; auto.
Qed.

(** The claim a create request carries. *)
Definition claim_ok (s : WDB) (c : CreateTaskRequest) : Prop :=
  CqCardRequestID c = "" ∨
  CqCardRequestID c = TcCardRequestID ctx ∧ CqCardRequestOwnerJobID c = TcJobID ctx ∧
  ∃ row, own_request ctx s row ∧ RStatus row = CardRequestStatusLaunching ∧ LauncherJobID row = TcJobID ctx.
Lemma launcher_claim s row c :
  TcCardID ctx ≠ "" → the_request (TcCardRequestID ctx) s = Ok row → launcher_owns ctx row = true → CqCardRequestID c = TcCardRequestID ctx →
  CqCardRequestOwnerJobID c = TcJobID ctx → claim_ok s c.
Proof.
  intros Hcard Hrow%the_request_ok Hl Hi Ho. unfold launcher_owns in Hl. rewrite !andb_true_iff in Hl. destruct Hl as [[[Hl1 Hl2] Hl3] Hl4]. bools.
  right. split_and!; [done|done|]. exists row. split_and!; [|done|done]. split_and!; [done|done|done].
Qed.

Lemma create_link_ok s c c' resumes :
  CqCardRequestID c = "" → create_link ctx s c = Ok (c', resumes) →
  claim_ok s c' ∧ CqProjectID c' = CqProjectID c ∧ CqWorkspaceID c' = CqWorkspaceID c.
Proof.
  intros Hn. unfold create_link. destruct (str_empty (TcCardID ctx) || str_empty (TcCardRequestID ctx)) eqn:He.
  - intros [= <- <-]. split_and!; [by left|done|done].
  - apply orb_false_iff in He as [He1 He2]. bools. intros (row & Hrow & Hr)%checked_bind. injection Hr as <- _.
    set (c1 := if _ && _ && _ then _ else c).
    assert (CqCardRequestID c1 = "" ∧ CqProjectID c1 = CqProjectID c ∧ CqWorkspaceID c1 = CqWorkspaceID c) as (H1 & H2 & H3)
      by (unfold c1; by destruct (_ && _)).
    destruct (launcher_owns ctx row && _ && _) eqn:Hl.
    + rewrite !andb_true_iff in Hl. destruct Hl as [[Hl _] _]. split_and!; [|done|done]. by apply (launcher_claim _ row).
    + split_and!; [by left|done|done].
Qed.
Lemma create_claim_ok s c c' :
  claim_ok s c → create_claim ctx s c = Ok c' → claim_ok s c' ∧ CqProjectID c' = CqProjectID c ∧ CqWorkspaceID c' = CqWorkspaceID c.
Proof.
  intros Hc. unfold create_claim. destruct (_ && _ && _); [|by intros [= <-]]. intros (row & Hrow & Hr)%checked_bind. unchecked. subst.
  destruct (negb (str_empty (TcCardID ctx)) && launcher_owns ctx row) eqn:Hl; [|done].
  apply andb_true_iff in Hl as [Hl1 Hl2]. bools. split_and!; [|done|done]. apply (launcher_claim _ row); auto.
  by apply negb_true_iff in Hl1; bools.
Qed.

Lemma decode_body_ok {A} (decode : json → option A) r zero msg a :
  decode_body decode r zero msg = Ok a → ∃ v, decode v = Some a.
Proof.
  unfold decode_body. destruct r as [| |b v]; [|done|]; [destruct (decode zero) eqn:E|destruct (decode v) eqn:E]; intros [= <-]; eauto.
Qed.
Lemma execute_create_ok r s c : execute_create ctx r s = Ok c → within ctx s c.
Proof.
  unfold execute_create. intros (c0 & (v & [_ H0]%decode_create_project)%decode_body_ok & Hr)%checked_bind.
  apply checked_bind in Hr as (c1 & (Hw & Hws & H1)%create_scope_ok & Hr).
  apply checked_bind in Hr as ([c2 resumes] & (Hcl & Hp2 & Hw2)%create_link_ok & Hr); [|congruence].
  unchecked. apply checked_bind in Hr as (c3 & (Hcl3 & Hp3 & Hw3)%create_claim_ok & Hr); [|done]. unchecked. subst c. cbn in *.
  rewrite Hp3, Hw3, Hp2, Hw2 in *. split_and!; [|done|done].
  apply orb_false_iff in Hc0 as [Hc0 _]. destruct (decide (CqProjectID c1 = "")) as [He|He].
  - right. destruct (Hw He) as [-> ?]. done.
  - left. apply AllowsProject_spec; [done|]. unfold str_empty in Hc0. rewrite bool_decide_false in Hc0 by done. cbn in Hc0. by bools.
Qed.
Lemma import_reqs_ok override tasks reqs :
  Forall (import_ok ctx override) tasks → import_reqs ctx override tasks = Ok reqs →
  Forall (λ c, project_ok ctx (CqProjectID c) ∧ CqCardRequestID c = "") reqs.
Proof.
  intros Ht. revert reqs. induction Ht as [|task tasks Hok _ IH]; intros reqs; cbn [import_reqs]; [by intros [= <-]|].
  intros (c & Hc & Hr)%checked_bind. apply checked_bind in Hr as (rest & Hrest & Hr). unchecked. subst.
  constructor; [|by apply IH]. destruct task as [| |b v]; try done. destruct (decode_create v) as [c0|] eqn:Hd; [|done]. injection Hc as ->.
  split; [exact (Hok _ _ _ eq_refl Hd)|]. by apply decode_create_project in Hd as [_ ?].
Qed.

Lemma filters_ok t :
  granted ctx BoidOpTaskList t → 
  Forall (λ f, scope_ok ctx (FProject f) (FWorkspace f))
    (if negb (str_empty (BqProjectID t)) then [by_project (BqProjectID t)]
     else if negb (str_empty (BqWorkspaceID t)) then [by_workspace (BqWorkspaceID t)] else by_project <$> default_projects ctx).
Proof.
  intros (Hp & Hw & Hn). destruct (str_empty (BqProjectID t)) eqn:H1; cbn [negb]; [destruct (str_empty (BqWorkspaceID t)) eqn:H2; cbn [negb]|]; bools.
  - apply default_scopes. destruct (unscoped ctx) eqn:Hu; [|done]. apply unscoped_token in Hu. by destruct Hu; apply Hn.
  - apply Forall_singleton. right. cbn. destruct Hw as [?|?]; [done|]. split_and!; congruence.
  - apply Forall_singleton. left. by destruct Hp.
Qed.
Lemma list_tasks_ok r t s c : granted ctx BoidOpTaskList t → list_tasks ctx r t = Ok c → within ctx s c.
Proof. unfold list_tasks. intros Hg%filters_ok Hr. unchecked. by subst. Qed.
Lemma list_cards_ok r t s c : granted ctx BoidOpTaskList t → list_cards ctx r t = Ok c → within ctx s c.
Proof.
  unfold list_cards. intros Hg%filters_ok Hr. unchecked. revert Hg Hr.
  destruct (str_empty (BqProjectID t)); cbn [negb]; [destruct (str_empty (BqWorkspaceID t)); cbn [negb]|]; intros Hg Hr; unchecked; by subst.
Qed.
Lemma list_actions_ok r t s c : granted ctx BoidOpTaskList t → list_actions ctx r t = Ok c → within ctx s c.
Proof.
  unfold list_actions. intros Hg%filters_ok Hr. revert Hg Hr.
  destruct (str_empty (BqProjectID t)) eqn:E1; cbn [negb]; [destruct (str_empty (BqWorkspaceID t)) eqn:E2; cbn [negb]|]; intros Hg Hr; unchecked; subst; cbn.
  - left. split; [unfold default_projects; by destruct (AllowedProjectIDs ctx)|by apply default_projects_ok].
  - right. apply Forall_singleton in Hg as [[? _]|(_ & ? & ?)]; [done|]. auto.
  - left. split; [done|]. apply Forall_singleton in Hg as [?|(? & _)]; bools; [by constructor|done].
Qed.

Lemma card_context_ok r s c : card_context ctx r s = Ok c → within ctx s c.
Proof.
  unfold card_context. intros (_ & _ & Hr)%checked_bind. apply checked_bind in Hr as (row & Hrow%the_request_ok & Hr). unchecked. subst.
  apply orb_false_iff in Hc as [??]. bools. by split_and!.
Qed.
Lemma executeAgentStart_ok vh r t s c : project_ok ctx (BqProjectID t) → executeAgentStart vh ctx r t s = Ok c → within ctx s c.
Proof.
  unfold executeAgentStart. intros Hp Hr. unchecked. apply checked_bind in Hr as (row & Hrow%the_request_ok & Hr). unchecked.
  apply orb_false_iff in Hc0 as [??], Hc1 as [??]. bools.
  destruct (RStatus row) eqn:Hst; try done.
  - unchecked. subst. split; [done|]. split_and!; [done|done|]. exists row. split_and!; try done.
    unfold CardRequestOrigin in Hc2. destruct (str_empty (CauseID row)) eqn:He; bools; [done|by destruct Hc2].
  - case_bool_decide; unchecked. by subst.
Qed.
Lemma attachment_tasks_ok id : id = TcTaskID ctx → Forall (λ id, id = TcTaskID ctx ∨ id = TcCardID ctx) (attachment_tasks ctx id).
Proof. intros ->. unfold attachment_tasks. destruct (_ && _); rewrite ?Forall_cons; split_and?; auto. Qed.

Lemma stored_in_intro k t s : find_task k s = Some t → scope_ok ctx (ProjectID t) (WorkspaceID t) → stored_in ctx s t.
Proof. split; eauto. Qed.
(** An operation that goes ahead once the task is known to be the workspace's. *)
Lemma named_task_then {A} verb id s (k : Task → checked A) x (P : Prop) :
  (∀ t, find_task id s = Some t → scope_ok ctx (ProjectID t) (WorkspaceID t) → k t = Ok x → P) →
  (named_task verb ctx id s ≫= k) = Ok x → P.
Proof. intros Hk (t & [Hf Ha]%named_task_ok & Hr)%checked_bind. eauto. Qed.
Lemma own_task_then {A} verb id s (k : Task → checked A) x (P : Prop) :
  (∀ t, find_task id s = Some t → scope_ok ctx (ProjectID t) (WorkspaceID t) → k t = Ok x → P) →
  (own_task verb ctx id s ≫= k) = Ok x → P.
Proof. intros Hk (t & [Hf Ha]%own_task_ok & Hr)%checked_bind. eauto. Qed.
Ltac on_task :=
  match goal with
  | |- (named_task _ _ _ _ ≫= _) = Ok _ → _ => eapply named_task_then
  | |- (own_task _ _ _ _ ≫= _) = Ok _ → _ => eapply own_task_then
  end; intros tk Hf Ha Hr; unchecked; subst; try (by exists tk).

Lemma send_action_ok r t s c : send_action ctx r t s = Ok c → within ctx s c.
Proof. unfold send_action. on_task. apply checked_bind in Hr as (_ & _ & Hr). unchecked. subst. by exists tk. Qed.
Lemma update_ok r t s c :
  (_ ← named_task "boid task update" ctx (BqTaskID t) s;
   u ← decode_body decode_update (UpdatePatch r) JNull "boid task update: invalid update_patch";
   _ ← refuse_if (negb (str_empty (UqProjectID u)) && negb (AllowsProject ctx (UqProjectID u)))
         "boid task update project is restricted to the current workspace";
   Ok (KUpdateTask (BqTaskID t) u)) = Ok c → within ctx s c.
Proof.
  on_task. apply checked_bind in Hr as (u & _ & Hr). unchecked. subst. split; [by exists tk|].
  apply andb_false_iff in Hc as [Hc|Hc]; bools; [by left|]. destruct (decide (UqProjectID u = "")); [by left|]. right. by apply AllowsProject_spec.
Qed.
Lemma link_ok r t s c :
  scope_ok ctx (BqProjectID t) (BqWorkspaceID t) →
  (existing ← own_task "boid task identity link" ctx (BqTaskID t) s;
   _ ← refuse_if (negb (bool_decide (ProjectID existing = BqProjectID t))
                  || str_empty (BqProjectID t) && negb (bool_decide (WorkspaceID existing = BqWorkspaceID t)))
         "boid task identity link: task belongs to a different project";
   Ok (KLinkIdentity (scope_of t) (Identity r) (ID existing) (optionalIdentityValue (IdentityURL r) (IdentityURLSet r))
         (optionalIdentityValue (IdentityDisplayName r) (IdentityDisplayNameSet r)))) = Ok c → within ctx s c.
Proof.
  intros Hs. on_task. apply orb_false_iff in Hc as [Hc _]. bools. split; [done|]. exists tk. split; [done|]. split; [by eapply stored_in_intro|done].
Qed.
Lemma resolve_identity_stored scope identity s t :
  (ResolveIdentityInScope scope identity s).2 = inr t → ∃ k, find_task k s = Some t.
Proof.
  unfold ResolveIdentityInScope. rewrite bind_fail_if. destruct (str_empty identity); [done|]. rewrite bind_fail_if.
  destruct (negb _); [done|]. rewrite bind_gets. destruct (str_empty _); [done|].
  unfold GetTask. rewrite bind_gets. destruct (find_task _ s) eqn:E; intros [= ->]; eauto.
Qed.
Lemma project_list_ok : Forall (project_ok ctx) (filter (λ p, p ≠ "") (default_projects ctx)).
Proof.
  destruct (unscoped ctx) eqn:Hu.
  - unfold unscoped, default_projects in *. apply andb_true_iff in Hu as [Ha Hp]. bools. rewrite Ha, Hp. constructor.
  - apply default_projects_ok in Hu. apply Forall_forall. intros p [_ Hp]%list_elem_of_filter. by rewrite Forall_forall in Hu; apply Hu.
Qed.

Lemma executor_within vh r s c : granted ctx (BqOp r) (target r) → ExecuteBoidBuiltin vh ctx r s = Ok c → within ctx s c.
Proof.
  unfold ExecuteBoidBuiltin, granted. unfold_ops. destruct (BqOp r); intros Hg; try (by on_task); try (intros Hr; unchecked; subst; done).
  - intros Hr. unchecked. apply checked_bind in Hr as (j & Hj%the_job_ok & Hr). unchecked. subst. bools. exists j. split; [done|by apply AllowsProject_job].
  - intros Hr. unchecked. apply checked_bind in Hr as (j & Hj%the_job_ok & Hr). unchecked. subst. bools.
    destruct (str_empty (JRuntimeID j)); [done|]. eexists _, j. split_and!; [done|done|by apply AllowsProject_job].
  - apply send_action_ok.
  - intros (j & Hj%the_job_ok & Hr)%checked_bind. unchecked. subst. destruct (str_empty (JRuntimeID j)); [done|]. exists j. by rewrite <- Hg.
  - apply execute_create_ok.
  - apply update_ok.
  - intros (reqs & Hi & Hr)%checked_bind. unchecked. subst. by eapply import_reqs_ok.
  - by apply list_tasks_ok.
  - intros Hr. unchecked. revert Hr. on_task.
  - on_task. bools. split_and!; [done|done|]. exists tk. split; [done|by eapply stored_in_intro].
  - intros Hr. unchecked. subst. by apply attachment_tasks_ok.
  - intros Hr. unchecked. subst. by apply attachment_tasks_ok.
  - intros Hr. unchecked. subst. split; [apply project_list_ok|done].
  - by apply list_cards_ok.
  - intros Hr. unchecked. revert Hr. by apply link_ok.
  - intros Hr. unchecked. destruct (ResolveIdentityInScope _ _ s).2 as [|tk] eqn:Ht; [done|]. apply resolve_identity_stored in Ht.
    unchecked. subst. bools. exists tk. split_and!; [done|done|]. split; [done|by apply AllowsTask_spec].
  - by apply list_actions_ok.
  - intros Hr. unchecked. bools. destruct (BqClaim r); unchecked; subst; cbn; by rewrite <- Hg.
  - intros Hr. unchecked. bools. subst. cbn. by rewrite <- Hg.
  - intros Hr. unchecked. bools. subst. cbn. by rewrite <- Hg.
  - intros Hr. unchecked. bools. subst. cbn. destruct Hg as (<- & ? & ?). done.
  - intros Hr. unchecked. bools. subst. cbn. destruct Hg as (<- & ? & ?). done.
  - apply card_context_ok.
  - by apply executeAgentStart_ok.
Qed.
End confined_ops.

Lemma broker_handle_boid `{BrokerEnv} registry req ctx r :
  broker_handle registry req = Ok (SBoid ctx r) →
  ∃ e r0, registry !! XToken req = Some e ∧ ctx = EContext e ∧ XBoid req = Some r0 ∧ BqOp r = BqOp r0 ∧
    allowsBuiltinOp e "boid" (op_name (BqOp r)) = true ∧ check_op ctx r0 (target r0) = Ok (target r).
Proof.
  unfold broker_handle. destruct (registry !! XToken req) as [e|]; [|done]. destruct (XBoid req) as [r0|]; [|].
  - intros ([ctx' r'] & Hh & Hr)%checked_bind. injection Hr as -> ->. unfold handleBoidBuiltin in Hh. unchecked.
    apply checked_bind in Hh as (_ & _ & Hh). unchecked. apply checked_bind in Hh as (t & Ht & Hh). injection Hh as <- <-. bools. by exists e, r0.
  - destruct (XFetch req); [done|]. destruct (Commands e !! _) as [d|]; [|done]. by destruct (gateHostCommand d (XArgs req)).
Qed.


(** ** Nothing inside is refused *)

(** Operations that need the task only. *)
Definition task_op (op : BoidOp) : bool :=
  match op with
  | BoidOpTaskGet | BoidOpTaskReopen | BoidOpTaskNotify | BoidOpTaskAnswer | BoidOpTaskAsk | BoidOpCardGet | BoidOpJobList | BoidOpTaskDelete => true
  | _ => false
  end.
Lemma own_task_served verb ctx id s t :
  find_task id s = Some t → own_task verb ctx id s =
    if AllowsTask ctx (ProjectID t) (WorkspaceID t) then Ok t else refuse (verb +:+ " is restricted to the current workspace").
Proof.
  intros Hf. unfold own_task, the_task, GetTask. rewrite bind_gets, Hf. cbn. by destruct (AllowsTask _ _ _).
Qed.

(** ** Jobs without a project *)

(** C40.  Job logs are not confined the way tasks are: the log of a job without a
    project is read by every token with a project, of whatever workspace the job
    is, while the job's task, when it has no project either, is hidden from the
    tokens of other workspaces. *)
Theorem projectless_job_logs_are_open vh ctx r r' s job j t :
  BqOp r = BoidOpJobLog → BqJobID (target r) = job → job ≠ "" → jobs (led s) !! job = Some j → JProjectID j = "" → JRuntimeID j ≠ "" →
  AllowsProject ctx (TcProjectID ctx) = true →
  BqOp r' = BoidOpTaskGet → BqTaskID (target r') = JTaskID j → find_task (JTaskID j) s = Some t → ProjectID t = "" →
  WorkspaceID t ≠ TcWorkspaceID ctx →
  ExecuteBoidBuiltin vh ctx r s = Ok (KReadJobLog (JRuntimeID j)) ∧
  ExecuteBoidBuiltin vh ctx r' s = refuse "boid task show is restricted to the current workspace".
Proof.
  intros Hop <- Hj Hjob Hp Hrt Ha Hop' Hid Hf Hpt Hw. unfold ExecuteBoidBuiltin. unfold_ops. rewrite Hop, Hop', Hid. split.
  - unfold the_job. rewrite Hjob. unfold str_empty. rewrite bool_decide_false by done. cbn [refuse_if mbind outcome_bind].
    cbn. rewrite Hp, AllowsProject_empty, Ha. cbn. by rewrite bool_decide_false.
  - rewrite (own_task_served _ _ _ _ _ Hf). unfold AllowsTask, str_empty. rewrite Hpt. cbn.
    rewrite (bool_decide_false (WorkspaceID t = _)) by done. by rewrite andb_false_r.
Qed.

(** ** Samples *)
Definition sample_resolver : BrokerEnv :=
  {| ProjectResolver := Some (λ name, if bool_decide (name = "app") then inr "p" else inl "not found"); is_dir := λ _, true; raw_len := λ _, 2 |}.
Definition job_token : TokenContext :=
  {| TcJobID := "job-1"; TcTaskID := "01234567-task"; TcProjectID := "p"; TcWorkspaceID := "w"; AllowedProjectIDs := ["p"]; TcRole := "hook";
     ProjectDir := "/workspace"; TcService := ""; TcConnector := ""; SandboxRoot := "/workspace"; TcCardID := ""; TcCardRequestID := "" |}.
(** A job of another workspace. *)
Definition other_token : TokenContext :=
  {| TcJobID := "job-9"; TcTaskID := "t-9"; TcProjectID := "q"; TcWorkspaceID := "v"; AllowedProjectIDs := ["q"]; TcRole := "hook";
     ProjectDir := "/workspace"; TcService := ""; TcConnector := ""; SandboxRoot := "/workspace"; TcCardID := ""; TcCardRequestID := "" |}.
Definition sample_registry : tokens :=
  Broker_Register "other" ∅ (DefaultBuiltinPolicies ["boid"] "/workspace" "/home/u") other_token
    (Broker_Register "secret" ∅ (DefaultBuiltinPolicies ["boid"; "fetch"] "/workspace" "/home/u") job_token ∅).
Definition no_target : Target :=
  {| BqJobID := ""; BqTaskID := ""; BqProjectID := ""; BqWorkspaceID := ""; BqService := ""; BqConnector := ""; ImportTasks := [];
     ImportProjectOverride := "" |}.
Definition sample_boid (op : BoidOp) (t : Target) : BoidRequest :=
  {| BqOp := op; target := t; TaskField := ""; BqExitCode := 0; BqOutput := ""; CreatePatch := REmpty; UpdatePatch := REmpty; BqStatus := "";
     BqLimit := 0; BqMessage := "m"; BqAsk := ""; BqQuestionID := ""; BqProgress := ""; BqDone := ""; BqFail := ""; BqAnswer := "";
     BqQuestion := ""; Force := false; ActionType := ""; BqPayload := REmpty; AttachmentName := ""; BqPayloadPatch := REmpty; Identity := "";
     IdentityURL := ""; IdentityURLSet := false; IdentityDisplayName := ""; IdentityDisplayNameSet := false; BqTitle := ""; BqDescription := "";
     BqSince := ""; BqClaim := false; SignalState := ""; SignalIDs := []; IngestPayload := ""; HarnessType := ""; BqInstruction := "";
     BqReadonly := false; BqModel := ""; BqDisplayName := "" |}.
Definition ask_for (token : string) (r : BoidRequest) : ExecRequest :=
  {| XCommand := ""; XArgs := []; XCwd := "/workspace/a"; XToken := token; XBoid := Some r; XFetch := false |}.

(** Two spellings of the project: the decoder takes the last, the broker
    resolves it and puts the id in. *)
Definition imported : list raw := [RText true (JObj [("project_id", JStr "x"); ("Project_ID", JStr "app"); ("title", JStr "t")])].
Definition import_target : Target :=
  {| BqJobID := ""; BqTaskID := ""; BqProjectID := ""; BqWorkspaceID := ""; BqService := ""; BqConnector := ""; ImportTasks := imported;
     ImportProjectOverride := "" |}.
Definition served_import : BoidRequest :=
  sample_boid BoidOpTaskImport
    {| BqJobID := ""; BqTaskID := ""; BqProjectID := ""; BqWorkspaceID := ""; BqService := ""; BqConnector := "";
       ImportTasks := [RText true (JObj [("Project_ID", JStr "app"); ("project_id", JStr "p"); ("title", JStr "t")])];
       ImportProjectOverride := "" |}.
Example import_is_resolved :
  broker_handle (H := sample_resolver) sample_registry (ask_for "secret" (sample_boid BoidOpTaskImport import_target))
  = Ok (SBoid job_token served_import).
Proof. vm_compute. reflexivity. Qed.
Example import_elsewhere_is_refused :
  broker_handle (H := sample_resolver) sample_registry (ask_for "other" (sample_boid BoidOpTaskImport import_target))
  = refuse "boid task import: project is outside the current workspace".
Proof. vm_compute. reflexivity. Qed.
Example unknown_token_is_refused :
  broker_handle (H := sample_resolver) sample_registry (ask_for "guess" (sample_boid BoidOpTaskList no_target)) = refuse "invalid token".
Proof. vm_compute. reflexivity. Qed.
Example connector_op_is_refused :
  broker_handle (H := sample_resolver) sample_registry (ask_for "secret" (sample_boid BoidOpSignalIngest no_target))
  = refuse ("boid op " +:+ quoted "signal_ingest" +:+ " not allowed by policy").
Proof. vm_compute. reflexivity. Qed.
(** The text of the path is compared, dots included. *)
Example dotted_cwd_passes : isWithinRoot "/workspace/../etc" "/workspace" = true.
Proof. reflexivity. Qed.

Lemma sample_resolver_names f ref id : @ProjectResolver sample_resolver = Some f → f ref = inr id → id ≠ "".
Proof. cbn. intros [= <-]. case_bool_decide; [by intros [= <-]|done]. Qed.
Lemma job_token_sane : sane job_token.
Proof. split; [left; discriminate|]. apply not_elem_of_cons. split; [discriminate|]. apply not_elem_of_nil. Qed.


Definition notified : Target := set_task no_target "01234567-task".

(** A task of workspace w without a project, and its job. *)
Definition projectless_task : Task :=
  {| ID := "t-1"; Type_ := TaskTypeExecution; ProjectID := ""; WorkspaceID := "w"; RemoteID := ""; Title := "t"; Description := "";
     Status := TaskStatusExecuting; Ref := ""; ParentID := ""; IdempotencyKey := ""; CreatedAt := 0; UpdatedAt := 0; Card := None;
     Exec := Exec executing_task |}.
Definition projectless_job : JobRow :=
  {| JStatus := JobStatusRunning; JRole := "hook"; JCardRequestID := ""; JTaskID := "t-1"; JProjectID := ""; JRuntimeID := "r-1";
     JExitCode := 0; JOutput := ""; JCreatedAt := 0; JUpdatedAt := 0 |}.
Definition projectless_db : WDB := set_led (sample_wdb [projectless_task]) (set_jobs (sample_db ∅) {["job-2" := projectless_job]}).
Lemma projectless_job_logs_are_open_witness :
  ExecuteBoidBuiltin (λ _, true) other_token (sample_boid BoidOpJobLog (set_job no_target "job-2")) projectless_db = Ok (KReadJobLog "r-1") ∧
  ExecuteBoidBuiltin (λ _, true) other_token (sample_boid BoidOpTaskGet (set_task no_target "t-1")) projectless_db
  = refuse "boid task show is restricted to the current workspace".
Proof.
  apply (projectless_job_logs_are_open (λ _, true) other_token (sample_boid BoidOpJobLog (set_job no_target "job-2"))
    (sample_boid BoidOpTaskGet (set_task no_target "t-1")) projectless_db "job-2" projectless_job projectless_task);
    first [reflexivity | discriminate | vm_compute; reflexivity].
Defined.
