(* ===== verification/TaskService.v ===== *)
(** * The task service: creating, editing, rerunning and replaying tasks

    Models internal/api/task_create.go and task_service.go with
    orchestrator/behavior_resolve.go and base_branch.go, and
    internal/api/workflow_replay.go: what every client of the daemon, the
    sandbox executor and the "go" of a card included, creates and edits tasks
    with.

    The service is wired as in a running daemon: every store, the transactor
    and the workflow are there.  The configuration of projects and workspaces
    ([None] is an error), the enumeration of a Go map and the random parts of a
    generated ref are the class [TaskServiceEnv]; other requests that run
    between two statements are the [others] of [WorkflowEnv], here at the points
    60 to 72.  Broadcasts and log lines are left out. *)
From stdpp Require Import pretty.
From S2P Require Import Prelude Json Payload Task Machine Lifecycle Coordinator Store CardDetail CardRequests CardDispatch TaskStore TaskRows CardWorkflow Workflow WorkSlot Notify Recovery HostCommands Broker Executor.
Local Open Scope nat_scope.

(** ** The base branch (base_branch.go)

    [os.Expand] on bytes. *)
Definition isShellSpecialVar (c : ascii) : bool := bool_decide (c ∈ String.list_ascii_of_string "*#$@!?-0123456789").
Definition isAlphaNum (c : ascii) : bool :=
  let n := N_of_ascii c in (bool_decide (c = "_"%char) || (48 <=? n) && (n <=? 57) || (97 <=? n) && (n <=? 122) || (65 <=? n) && (n <=? 90))%N.
(** The text before the first closing brace. *)
Fixpoint before_brace (s : string) : option string :=
  match s with
  | EmptyString => None
  | String c s => if bool_decide (c = "}"%char) then Some "" else String c <$> before_brace s
  end.
Fixpoint alnum_prefix (s : string) : string :=
  match s with String c s => if isAlphaNum c then String c (alnum_prefix s) else "" | EmptyString => "" end.
(** The name at the start of a text that is not empty, and its width. *)
Definition getShellName (s : string) : string * nat :=
  match s with
  | EmptyString => ("", 0)
  | String c rest =>
      if bool_decide (c = "{"%char) then
        match rest with
        | String v (String b _) =>
            if isShellSpecialVar v && bool_decide (b = "}"%char) then (String v "", 3)
            else match before_brace rest with
                 | None => ("", 1)
                 | Some "" => ("", 2)
                 | Some name => (name, S (S (String.length name)))
                 end
        | _ => match before_brace rest with
               | None => ("", 1)
               | Some "" => ("", 2)
               | Some name => (name, S (S (String.length name)))
               end
        end
      else if isShellSpecialVar c then (String c "", 1)
      else let name := alnum_prefix s in (name, String.length name)
  end.
(** [skip] bytes are still to be passed. *)
Fixpoint expand_from (mapping : string → option string) (skip : nat) (s : string) : option string :=
  match s with
  | EmptyString => Some ""
  | String c rest =>
      match skip with
      | S skip => expand_from mapping skip rest
      | O =>
          if bool_decide (c = "$"%char) && negb (str_empty rest) then
            let '(name, w) := getShellName rest in
            head ← (if str_empty name then Some (if bool_decide (w = 0) then "$" else "") else mapping name);
            tail ← expand_from mapping w rest;
            Some (head +:+ tail)
          else String c <$> expand_from mapping 0 rest
      end
  end.
Definition taskBaseBranchVarName : string := "TASK_REMOTE_ID".
Definition branch_var (remoteID name : string) : option string :=
  if bool_decide (name = taskBaseBranchVarName) then if str_empty remoteID then None else Some remoteID else None.
Definition ExpandTaskBaseBranch (template remoteID : string) : option string := expand_from (branch_var remoteID) 0 template.

(** ** Behaviors (behavior_resolve.go) *)
Record TaskBehavior : Type := { TbReadonly : option bool; TbTraits : list string; TbDefaultInstruction : option Instruction }.
(** What creation reads of the metadata of a project or workspace. *)
Record BehaviorMeta : Type := { DefaultTaskBehavior : string; MetaBaseBranch : string; TaskBehaviors : gmap string TaskBehavior }.
Record BehaviorResolution : Type := {
  BehaviorName : string;
  ResTraits : list string;
  ResReadonly : bool;
  ResBranchPrefix : string;
  ResBaseBranch : string;
  ResPayload : raw;
  ResInstructions : Instructions;
}.
Definition DefaultBehavior : string := "supervisor".
Definition LookupBehavior (meta : option BehaviorMeta) (name : string) : option TaskBehavior := meta ≫= λ m, TaskBehaviors m !! name.

Definition applyCanonicalBehaviorOverrides (name : string) (explicit : option bool) : bool :=
  match explicit with
  | Some b => b
  | None => negb (bool_decide (name = "executor"))
  end.

Definition DefaultBehaviorResolvable (meta : option BehaviorMeta) : bool :=
  match meta with
  | None => false
  | Some m => bool_decide (is_Some (LookupBehavior meta (if str_empty (DefaultTaskBehavior m) then "supervisor" else DefaultTaskBehavior m)))
  end.
(** The behavior of a request that names none. *)
Definition default_behavior (meta : option BehaviorMeta) : option string :=
  match meta with
  | None => Some DefaultBehavior
  | Some m =>
      if negb (str_empty (DefaultTaskBehavior m)) then Some (DefaultTaskBehavior m)
      else if bool_decide (is_Some (TaskBehaviors m !! "supervisor")) then Some "supervisor"
      else None
  end.
Definition resolution (name : string) (traits : list string) (explicit : option bool) (meta : option BehaviorMeta) (payload : raw)
    (insts : Instructions) : BehaviorResolution :=
  {| BehaviorName := name; ResTraits := traits; ResReadonly := applyCanonicalBehaviorOverrides name explicit; ResBranchPrefix := "";
     ResBaseBranch := match meta with Some m => MetaBaseBranch m | None => "" end; ResPayload := payload; ResInstructions := insts |}.

(** [None] is an error. *)
Definition ResolveBehavior (range : gmap string json → list (string * json)) (meta : option BehaviorMeta) (behavior : string)
    (spec : option BehaviorSpec) (payload instructions : raw) : option BehaviorResolution :=
  let merge := λ d, match MergeDefaultInstructions range d instructions with Ok l => Some l | _ => None end in
  if negb (str_empty behavior) && bool_decide (is_Some spec) then None
  else match spec with
       | Some sp =>
           if str_empty (SpName sp) then None
           else insts ← merge (SpDefaultInstruction sp);
                Some (resolution (SpName sp) (slice_elems (SpTraits sp)) None meta payload insts)
       | None =>
           name ← (if str_empty behavior then default_behavior meta else Some behavior);
           match meta with
           | Some _ =>
               b ← LookupBehavior meta name;
               insts ← merge (TbDefaultInstruction b);
               Some (resolution name (TbTraits b) (TbReadonly b) meta payload insts)
           | None =>
               insts ← (if len0 instructions then Some [] else merge None);
               Some (resolution name [] None None payload insts)
           end
       end.

(** ** Creation (task_create.go) *)
Class TaskServiceEnv : Type := {
  task_service :: ServiceEnv;
  map_range : gmap string json → list (string * json);
  ref_name : nat → nat → string;
  ref_suffix : nat → string;
  WorkspaceMetaOf : string → option BehaviorMeta;
  GetWithWorkspace : string → option BehaviorMeta;
  (** the handler_id column of a job *)
  job_handler : string → string;
}.

Definition allowedCreateInitialStatuses (s : string) : option TaskStatus :=
  if str_empty s || bool_decide (s = "pending") then Some TaskStatusPending
  else if bool_decide (s = "parked") then Some TaskStatusParked
  else None.
Definition resolveInitialStatus (req : CreateTaskRequest) : taskm TaskStatus :=
  match allowedCreateInitialStatuses (CqInitialStatus req) with
  | None => bad_request
  | Some st => _ ← fail_if (CqAutoStart req && negb (bool_decide (st = TaskStatusPending))) (WStatus 400); mret st
  end.
Definition idempotencyKeyTypeMismatchErr (wantType : TaskType) (existing : Task) : taskm unit :=
  fail_if (negb (bool_decide (Type_ existing = wantType))) (WStatus 400).
Definition updateActor (ctx : Ctx) : string := if str_empty (CtxActor ctx) then ActorHuman else CtxActor ctx.
Definition with_actor (ctx : Ctx) (actor : string) : Ctx :=
  {| CtxActor := actor; CtxWriter := CtxWriter ctx; CtxCanceled := CtxCanceled ctx |}.

Definition findCreateKey (req : CreateTaskRequest) (ref key : string) (s : WDB) : option Task :=
  if str_empty (CqProjectID req) then FindWorkspaceTask (CqWorkspaceID req) (CqParentID req) ref key s
  else if negb (str_empty ref) then FindTaskByRef ref (CqParentID req) (CqProjectID req) s
  else FindTaskByIdempotencyKey (CqProjectID req) (CqParentID req) key s.

Definition validatePrimaryProject (id : string) : taskm unit :=
  if str_empty id then mret ()
  else
    project ← gets (λ s, project_rows s !! id);
    match project with
    | None => bad_request
    | Some p => map_err (λ _, WStatus 400) (RequireTaskPrimaryProject p)
    end.

(** The parent, when there is one that can be read. *)
Definition parent_of (req : CreateTaskRequest) : taskm (option Task) :=
  if str_empty (CqParentID req) then mret None
  else r ← try_ (GetTask (CqParentID req)); mret (match r with inr p => Some p | inl _ => None end).
Definition is_card (t : Task) : bool := bool_decide (Type_ t = TaskTypeCard).
Definition inherited_remote (req : CreateTaskRequest) : taskm string :=
  if str_empty (CqRemoteID req) then
    parent ← parent_of req;
    mret (match parent with Some p => RemoteID p | None => "" end)
  else mret (CqRemoteID req).

(** ** The work slot of a card (task_create.go, task_service.go) *)

(** [openCount] is the parent's OpenChildCount, read with its row. *)
Definition cardChildSlotConflict (parent : Task) (openCount : nat) (ref projectID behavior : string) : bool :=
  if (0 <? openCount)%nat then true
  else match DetailChildren (match Card parent with Some c => Detail c | None => REmpty end) with
       | Ok children =>
           match filter (λ c, ChStatus c = TaskTriageChildStatusOpen ∨ ChStatus c = TaskTriageChildStatusSpecced) children with
           | [] => false
           | [c] => negb (bool_decide (ChID c = ref)
                          && match ChSpec c with
                             | Some sp => bool_decide (SProject sp = projectID) && bool_decide (SBehavior sp = behavior)
                             | None => false
                             end)
           | _ => true
           end
       | _ => false
       end.
Definition owned_request (parentID own owner : string) (r : CardRequest) : bool :=
  bool_decide (RID r = own) && bool_decide (CardID r = parentID) && bool_decide (RStatus r = CardRequestStatusLaunching)
  && negb (str_empty (LauncherJobID r)) && bool_decide (LauncherJobID r = owner).
Definition cardSlotConflictWithLister (requests : list CardRequest) (parent : Task) (openCount : nat) (ref projectID behavior own owner : string)
    : bool :=
  let owned := head (filter (λ r, owned_request (ID parent) own owner r = true) requests) in
  let ownedCardCommand := match owned with
                          | Some r => negb (str_empty (CommandKey r)) && negb (bool_decide (CommandKey r = CardRequestCommandKeyGo))
                          | None => false
                          end in
  (if ownedCardCommand then (0 <? openCount)%nat else cardChildSlotConflict parent openCount ref projectID behavior)
  || existsb (λ r, (bool_decide (RStatus r = CardRequestStatusLaunching) || bool_decide (RStatus r = CardRequestStatusAttached))
                   && negb (bool_decide (is_Some owned) && bool_decide (RID r = own))) requests.
Definition slot_conflict (parent : Task) (openCount : nat) (ref projectID behavior own owner : string) : taskm bool :=
  gets (λ s, cardSlotConflictWithLister (ListCardRequestsByCard (ID parent) (led s)) parent openCount ref projectID behavior own owner).

Section service.
Context `{TaskServiceEnv}.

Abbreviation store_CreateTask := (CreateTask uuid ref_name ref_suffix).

Definition createCardWithRecord (ctx : Ctx) (task : Task) : taskm Task :=
  map_err txStatus (InTxDB (
    t ← store_CreateTask task;
    _ ← CreateAction_ (CtxWriter ctx) (new_action (ID t) ActionTypeCardCreated REmpty "" "" (updateActor ctx));
    mret t)).

Definition new_card (req : CreateTaskRequest) (remote : string) (status : TaskStatus) : Task :=
  {| ID := CqID req; Type_ := TaskTypeCard; ProjectID := CqProjectID req; WorkspaceID := CqWorkspaceID req; RemoteID := remote;
     Title := CqTitle req; Description := CqDescription req; Status := status; Ref := CqRef req; ParentID := CqParentID req;
     IdempotencyKey := CqIdempotencyKey req; CreatedAt := 0; UpdatedAt := 0; Card := Some (fresh_attrs ""); Exec := None |}.

(** The task a key of the request stands for. *)
Definition by_ref (req : CreateTaskRequest) : taskm (option Task) :=
  gets (λ s, if str_empty (CqRef req) then None else findCreateKey req (CqRef req) "" s).
Definition by_key (req : CreateTaskRequest) : taskm (option Task) :=
  gets (λ s, if str_empty (CqIdempotencyKey req) then None else findCreateKey req "" (CqIdempotencyKey req) s).

(** The check of a card under a card, in no transaction. *)
Definition check_card_parent (req : CreateTaskRequest) : taskm unit :=
  parent ← parent_of req;
  match parent with
  | Some p =>
      if is_card p then
        count ← gets (OpenChildCount p);
        _ ← yield_ 61;
        taken ← slot_conflict p count "" "" "" "" "";
        fail_if taken (WStatus 409)
      else mret ()
  | None => mret ()
  end.

Definition createCardTask (ctx : Ctx) (req : CreateTaskRequest) (status : TaskStatus) : taskm Task :=
  remote ← inherited_remote req;
  _ ← yield_ 60;
  found ← by_ref req;
  match found with
  | Some existing => mret existing
  | None =>
      found ← by_key req;
      match found with
      | Some existing => _ ← idempotencyKeyTypeMismatchErr TaskTypeCard existing; mret existing
      | None =>
          _ ← validatePrimaryProject (CqProjectID req);
          _ ← check_card_parent req;
          _ ← yield_ 62;
          createCardWithRecord ctx (new_card req remote status)
      end
  end.

Definition attachCardRequestIfNeeded (existing : Task) (cardRequestID ownerJobID : string) : taskm Task :=
  if str_empty cardRequestID then mret existing
  else map_err (λ _, WStatus 500) (CreateTaskLinkedToCardRequest uuid ref_name ref_suffix existing cardRequestID ownerJobID).

(** A failed start is only logged. *)
Definition auto_start (ctx : Ctx) (task : Task) : taskm Task :=
  r ← try_ (ApplyAction (with_actor ctx (updateActor ctx)) (ID task) "start" REmpty);
  mret (match r with inr app => AppTask app | inl _ => task end).
Definition start_if_pending (ctx : Ctx) (autoStart : bool) (task : Task) : taskm Task :=
  if autoStart && bool_decide (Status task = TaskStatusPending) then auto_start ctx task else mret task.

Definition metaFor (req : CreateTaskRequest) : taskm (option BehaviorMeta) :=
  match (if str_empty (CqProjectID req) then WorkspaceMetaOf (CqWorkspaceID req) else GetWithWorkspace (CqProjectID req)) with
  | Some m => mret (Some m)
  | None => bad_request
  end.
Definition resolve_behavior (req : CreateTaskRequest) : taskm BehaviorResolution :=
  meta ← metaFor req;
  match ResolveBehavior map_range meta (CqBehavior req) (CqBehaviorSpec req) (CqPayload req) (CqInstructions req) with
  | Some res => mret res
  | None => bad_request
  end.
Definition base_branch (res : BehaviorResolution) (remote : string) : taskm string :=
  if str_empty (ResBaseBranch res) then mret ""
  else match ExpandTaskBaseBranch (ResBaseBranch res) remote with Some b => mret b | None => bad_request end.

Definition new_execution (req : CreateTaskRequest) (res : BehaviorResolution) (remote branch : string) (status : TaskStatus) : Task :=
  {| ID := CqID req; Type_ := TaskTypeExecution; ProjectID := CqProjectID req; WorkspaceID := CqWorkspaceID req; RemoteID := remote;
     Title := CqTitle req; Description := CqDescription req; Status := status; Ref := CqRef req; ParentID := CqParentID req;
     IdempotencyKey := CqIdempotencyKey req; CreatedAt := 0; UpdatedAt := 0; Card := None;
     Exec := Some {| Behavior := BehaviorName res; Traits := default (ResTraits res) (CqTraits req);
                     Readonly := default (ResReadonly res) (CqReadonly req); BranchPrefix := ResBranchPrefix res; BaseBranch := branch;
                     Payload := ResPayload res; TInstructions := ResInstructions res; AutoStart := CqAutoStart req |} |}.

(** The transaction that creates a task under a card: the slot of the card as
    it is now decides. *)
Definition create_under_card (cardID : string) (req : CreateTaskRequest) (task : Task) : taskm Task :=
  freshParent ← GetTask cardID;
  count ← gets (OpenChildCount freshParent);
  taken ← slot_conflict freshParent count (CqRef req) (CqProjectID req) (CqBehavior req) (CqCardRequestID req) (CqCardRequestOwnerJobID req);
  _ ← fail_if taken (WStatus 409);
  if str_empty (CqCardRequestID req) then store_CreateTask task
  else createTaskLinkedToCardRequest uuid ref_name ref_suffix task (CqCardRequestID req) (CqCardRequestOwnerJobID req).

Definition insert_execution (req : CreateTaskRequest) (task : Task) : taskm Task :=
  parent ← parent_of req;
  _ ← yield_ 65;
  match parent with
  | Some p =>
      if is_card p then map_err txStatus (InTxDB (create_under_card (ID p) req task))
      else map_err (λ _, WStatus 500)
             (if str_empty (CqCardRequestID req) then store_CreateTask task
              else CreateTaskLinkedToCardRequest uuid ref_name ref_suffix task (CqCardRequestID req) (CqCardRequestOwnerJobID req))
  | None => map_err (λ _, WStatus 500)
             (if str_empty (CqCardRequestID req) then store_CreateTask task
              else CreateTaskLinkedToCardRequest uuid ref_name ref_suffix task (CqCardRequestID req) (CqCardRequestOwnerJobID req))
  end.

(** A request no key of which is known yet. *)
Definition create_execution (req : CreateTaskRequest) (status : TaskStatus) : taskm Task :=
  _ ← validatePrimaryProject (CqProjectID req);
  res ← resolve_behavior req;
  remote ← inherited_remote req;
  branch ← base_branch res remote;
  _ ← yield_ 64;
  insert_execution req (new_execution req res remote branch status).

Definition createExecutionTask (ctx : Ctx) (req : CreateTaskRequest) (status : TaskStatus) : taskm Task :=
  found ← by_ref req;
  match found with
  | Some existing => attachCardRequestIfNeeded existing (CqCardRequestID req) (CqCardRequestOwnerJobID req)
  | None =>
      _ ← yield_ 63;
      found ← by_key req;
      match found with
      | Some existing =>
          _ ← idempotencyKeyTypeMismatchErr TaskTypeExecution existing;
          existing ← start_if_pending ctx (CqAutoStart req) existing;
          attachCardRequestIfNeeded existing (CqCardRequestID req) (CqCardRequestOwnerJobID req)
      | None =>
          task ← create_execution req status;
          _ ← yield_ 66;
          start_if_pending ctx (CqAutoStart req) task
      end
  end.

(** The workspace the request is for. *)
Definition default_workspace (req : CreateTaskRequest) : CreateTaskRequest :=
  if str_empty (CqProjectID req) && str_empty (CqWorkspaceID req) then set_scope req (CqProjectID req) DefaultWorkspaceSlug else req.
Definition check_scope (req : CreateTaskRequest) : taskm unit :=
  _ ← fail_if (negb (str_empty (CqWorkspaceID req)) && negb (ValidWorkspaceSlug (CqWorkspaceID req))) (WStatus 400);
  _ ← fail_if (str_empty (CqProjectID req) && bool_decide (CqInitialStatus req = "parked")
               && bool_decide (WorkspaceMetaOf (CqWorkspaceID req) = None)) (WStatus 400);
  if negb (str_empty (CqProjectID req)) && negb (str_empty (CqWorkspaceID req)) then
    project ← gets (λ s, project_rows s !! CqProjectID req);
    match project with
    | None => bad_request
    | Some p =>
        let ws := if str_empty (PWorkspace p) then DefaultWorkspaceSlug else PWorkspace p in
        fail_if (negb (bool_decide (ws = CqWorkspaceID req))) (WStatus 400)
    end
  else mret ().
Definition service_CreateTask (ctx : Ctx) (req : CreateTaskRequest) : taskm Task :=
  _ ← fail_if (CqNoProject req && negb (str_empty (CqProjectID req))) (WStatus 400);
  let req := default_workspace req in
  _ ← check_scope req;
  status ← resolveInitialStatus req;
  _ ← fail_if (too_long (CqDescription req)) (WStatus 400);
  if bool_decide (status = TaskStatusParked) then createCardTask ctx req status else createExecutionTask ctx req status.

Record ImportResult : Type := { ImCreated : nat; ImSkipped : nat; ImErrors : list (nat * string * werr) }.
Definition import_one (ctx : Ctx) (line : nat) (req : CreateTaskRequest) (res : ImportResult) : taskm ImportResult :=
  let failed e := {| ImCreated := ImCreated res; ImSkipped := ImSkipped res; ImErrors := ImErrors res ++ [(line, CqRemoteID req, e)] |} in
  if str_empty (CqRemoteID req) then mret (failed (WInternal "remote_id is required"))
  else
    existing ← gets (FindTaskByRemote (CqRemoteID req));
    match existing with
    | Some _ => mret {| ImCreated := ImCreated res; ImSkipped := S (ImSkipped res); ImErrors := ImErrors res |}
    | None =>
        _ ← yield_ 67;
        r ← try_ (service_CreateTask ctx req);
        mret (match r with
              | inl e => failed e
              | inr _ => {| ImCreated := S (ImCreated res); ImSkipped := ImSkipped res; ImErrors := ImErrors res |}
              end)
    end.
Fixpoint import_from (ctx : Ctx) (line : nat) (reqs : list CreateTaskRequest) (res : ImportResult) : taskm ImportResult :=
  match reqs with
  | [] => mret res
  | req :: reqs => res ← import_one ctx line req res; import_from ctx (S line) reqs res
  end.
Definition ImportTasks (ctx : Ctx) (reqs : list CreateTaskRequest) : taskm ImportResult :=
  import_from ctx 1 reqs {| ImCreated := 0; ImSkipped := 0; ImErrors := [] |}.

(** ** Editing (task_service.go) *)
Definition edited (t : Task) (project title description remote parent : string) : Task :=
  {| ID := ID t; Type_ := Type_ t; ProjectID := project; WorkspaceID := WorkspaceID t; RemoteID := remote; Title := title;
     Description := description; Status := Status t; Ref := Ref t; ParentID := parent; IdempotencyKey := IdempotencyKey t;
     CreatedAt := CreatedAt t; UpdatedAt := UpdatedAt t; Card := Card t; Exec := Exec t |}.
Definition set_AutoStart (t : Task) (b : bool) : Task :=
  {| ID := ID t; Type_ := Type_ t; ProjectID := ProjectID t; WorkspaceID := WorkspaceID t; RemoteID := RemoteID t; Title := Title t;
     Description := Description t; Status := Status t; Ref := Ref t; ParentID := ParentID t; IdempotencyKey := IdempotencyKey t;
     CreatedAt := CreatedAt t; UpdatedAt := UpdatedAt t; Card := Card t;
     Exec := (λ e, {| Behavior := Behavior e; Traits := Traits e; Readonly := Readonly e; BranchPrefix := BranchPrefix e;
                      BaseBranch := BaseBranch e; Payload := Payload e; TInstructions := TInstructions e; AutoStart := b |}) <$> Exec t |}.

Definition cardEditedAction (ctx : Ctx) (taskID : string) (fields : list string) : option Action :=
  if bool_decide (fields = []) then None
  else Some (new_action taskID ActionTypeCardEdited (RText true (JObj [("fields", JArr (JStr <$> fields))])) "" "" (updateActor ctx)).

(** The write, with the slot of the new parent and the record in the same
    transaction when there is either. *)
Definition updateTaskWithCardSlotRecheck (ctx : Ctx) (task : Task) (cardParentID : string) (record : option Action) : taskm unit :=
  if str_empty cardParentID && bool_decide (record = None) then map_err (λ _, WStatus 500) (UpdateTask task)
  else
    let behavior := match Exec task with Some e => Behavior e | None => "" end in
    map_err txStatus (InTxDB (
      _ ← (if str_empty cardParentID then mret ()
           else
             freshParent ← GetTask cardParentID;
             count ← gets (OpenChildCount freshParent);
             taken ← slot_conflict freshParent count (Ref task) (ProjectID task) behavior "" "";
             fail_if taken (WStatus 409));
      _ ← UpdateTask task;
      match record with Some a => CreateAction_ (CtxWriter ctx) a | None => mret () end)).

Definition marshal_instruction (i : Instruction) : json :=
  JObj (("agent", JStr (Agent i)) :: omitempty "name" (IName i) ++ omitempty "message" (Message i) ++ omitempty "model" (Model i)).
Definition unmarshal_instructions (r : raw) : option Instructions :=
  match r with RText _ v => Instructions_UnmarshalJSON map_range v | _ => None end.
(** The value of the decoded slice: only an array leaves an empty one. *)
Definition instructions_value (r : raw) (l : Instructions) : json :=
  match r, l with RText _ (JArr _), _ => JArr (marshal_instruction <$> l) | _, [] => JNull | _, _ => JArr (marshal_instruction <$> l) end.

(** [before] is empty exactly when the row has no instructions, for which
    nothing is recorded. *)
Definition auditInstructionsChange (ctx : Ctx) (taskID : string) (before : Instructions) (after : json) : taskm unit :=
  if bool_decide (before = []) then mret ()
  else best_effort (CreateAction_ (CtxWriter ctx)
         (new_action taskID "update_instructions" (RText true (JObj [("after", after); ("before", JArr (marshal_instruction <$> before))]))
            "" "" (updateActor ctx))).

(** The members of [override] replace those of [base]; null removes one. *)
Definition override_entry (m : gmap string json) (kv : string * json) : gmap string json :=
  if json_is_null kv.2 then delete kv.1 m else <[kv.1 := kv.2]> m.
Definition merge_payload (payload patch : raw) : taskm raw :=
  base ← (if len0 payload || is_lit_null payload then mret None
          else match unmarshal_map payload with Some m => mret m | None => bad_request end);
  match unmarshal_map patch with
  | None => bad_request
  | Some override => mret (marshal_map (Some (foldl override_entry (default ∅ base) (map_to_list (default ∅ override)))))
  end.
Definition update_payload (task : Task) (patch : raw) : taskm Task :=
  if len0 patch then mret task
  else match Exec task with
       | None => conflict
       | Some e =>
           _ ← lift_payload (WStatus 400) (RejectPayloadInstructions patch);
           _ ← lift_payload (WStatus 400) (RejectReservedPayloadKeys patch);
           merged ← merge_payload (Payload e) patch;
           mret (set_Payload task merged)
       end.

(** Title, project and description, and the fields of a card that changed. *)
Definition edit_texts (task : Task) (req : UpdateTaskRequest) : taskm (Task * list string) :=
  let editable := IsPreDispatchEditableStatus (Type_ task) (Status task) in
  let differs old new := is_card task && negb (bool_decide (new = old)) in
  _ ← fail_if (negb (str_empty (UqTitle req)) && negb editable) (WStatus 409);
  _ ← fail_if (negb (str_empty (UqProjectID req)) && negb editable) (WStatus 409);
  _ ← (if negb (str_empty (UqProjectID req)) && negb (bool_decide (UqProjectID req = ProjectID task))
       then validatePrimaryProject (UqProjectID req) else mret ());
  _ ← fail_if (negb (str_empty (UqDescription req)) && too_long (UqDescription req)) (WStatus 400);
  let fields := (if negb (str_empty (UqTitle req)) && differs (Title task) (UqTitle req) then ["title"] else [])
                ++ (if negb (str_empty (UqDescription req)) && differs (Description task) (UqDescription req) then ["description"] else []) in
  let or_old new old := if str_empty new then old else new in
  mret (edited task (or_old (UqProjectID req) (ProjectID task)) (or_old (UqTitle req) (Title task)) (or_old (UqDescription req) (Description task))
          (default (RemoteID task) (UqRemoteID req)) (ParentID task), fields).

(** The card of the id, if it is one that can be read. *)
Definition card_parent (parentID : string) : taskm string :=
  if str_empty parentID then mret ""
  else r ← try_ (GetTask parentID);
       mret (match r with inr parent => if is_card parent then ID parent else "" | inl _ => "" end).
(** The card the task is moved under, if any. *)
Definition new_card_parent (task : Task) (parentID : option string) : taskm string :=
  match parentID with
  | Some p => if bool_decide (p = ParentID task) then mret "" else card_parent p
  | None => mret ""
  end.
Definition set_Parent (task : Task) (parentID : option string) : Task :=
  edited task (ProjectID task) (Title task) (Description task) (RemoteID task) (default (ParentID task) parentID).
Definition edit_instructions (task : Task) (r : raw) : taskm (Task * Instructions * json) :=
  if len0 r then mret (task, [], JNull)
  else
    _ ← fail_if (negb (IsInstructionsEditable (Type_ task) (Status task))) (WStatus 409);
    match unmarshal_instructions r with
    | Some override => mret (set_Instructions task override, match Exec task with Some e => TInstructions e | None => [] end,
                             instructions_value r override)
    | None => bad_request
    end.

Definition service_UpdateTask (ctx : Ctx) (id : string) (req : UpdateTaskRequest) : taskm Task :=
  task ← map_err (λ _, WStatus 404) (GetTask id);
  _ ← yield_ 68;
  tf ← edit_texts task req;
  let record := cardEditedAction ctx (ID task) tf.2 in
  task ← update_payload tf.1 (UqPayload req);
  cardParent ← new_card_parent task (UqParentID req);
  let task := set_Parent task (UqParentID req) in
  ti ← edit_instructions task (UqInstructions req);
  _ ← fail_if (bool_decide (is_Some (UqAutoStart req)) && bool_decide (Exec ti.1.1 = None)) (WStatus 409);
  let task := match UqAutoStart req with Some b => set_AutoStart ti.1.1 b | None => ti.1.1 end in
  _ ← yield_ 69;
  _ ← updateTaskWithCardSlotRecheck ctx task cardParent record;
  _ ← auditInstructionsChange ctx (ID task) ti.1.2 ti.2;
  _ ← yield_ 70;
  start_if_pending ctx (default false (UqAutoStart req)) task.

(** The calls for one task are serialized by a lock; other writers are not. *)
Definition UpdateTaskPayloadPatch (jobID : string) (patch : raw) (allowedTraits : option (list string)) : taskm Task :=
  job ← gets (λ s, jobs (led s) !! jobID);
  match job with
  | None => throw (WStatus 404)
  | Some j =>
      task ← map_err (λ _, WStatus 404) (GetTask (JTaskID j));
      match Exec task with
      | None => throw (WStatus 500)
      | Some e =>
          merged ← lift_payload (WStatus 400) (MergePayloadPatch (Payload e) patch (job_handler jobID) allowedTraits);
          _ ← yield_ 71;
          _ ← map_err (λ _, WStatus 500) (UpdateTask (set_Payload task merged));
          mret (set_Payload task merged)
      end
  end.

Definition duplicate_request (source : Task) (autoStart : bool) : CreateTaskRequest :=
  let e := Exec source in
  {| CqWorkspaceID := WorkspaceID source; CqNoProject := false; CqID := ""; CqProjectID := ProjectID source; CqTitle := Title source;
     CqDescription := Description source; CqBehavior := match e with Some e => Behavior e | None => "" end; CqBehaviorSpec := None;
     CqRemoteID := RemoteID source; CqPayload := REmpty;
     CqInstructions := match e with
                       | Some e => if bool_decide (TInstructions e = []) then REmpty
                                   else RText true (JArr (marshal_instruction <$> TInstructions e))
                       | None => REmpty
                       end;
     CqAutoStart := autoStart;
     CqTraits := match e with Some e => if bool_decide (Traits e = []) then None else Some (Traits e) | None => None end;
     CqRef := ""; CqParentID := ""; CqReadonly := None; CqInitialStatus := ""; CqIdempotencyKey := ""; CqCardRequestID := "";
     CqCardRequestOwnerJobID := "" |}.
Definition DuplicateTask (ctx : Ctx) (sourceID : string) (autoStart : bool) : taskm Task :=
  source ← map_err (λ _, WStatus 404) (GetTask sourceID);
  _ ← yield_ 72;
  service_CreateTask ctx (duplicate_request source autoStart).

Record RerunTaskRequest : Type := { RrAutoStart : bool; InstructionsOverride : raw }.
Definition background_ctx : Ctx := {| CtxActor := ""; CtxWriter := None; CtxCanceled := false |}.
(** The task as it is started again, what its instructions were and are. *)
Definition rerun_instructions (task : Task) (r : raw) : taskm (Task * Instructions * json) :=
  if len0 r || is_lit_null r then mret (task, [], JNull)
  else match unmarshal_instructions r with
       | Some override => mret (set_Instructions task override, match Exec task with Some e => TInstructions e | None => [] end,
                                instructions_value r override)
       | None => bad_request
       end.
(** The task is reset to pending; with what its instructions were and are. *)
Definition rerun_row (id : string) (req : RerunTaskRequest) : taskm (Task * Instructions * json) :=
  task ← map_err (λ _, WStatus 404) (GetTask id);
  _ ← fail_if (negb (bool_decide (Type_ task = TaskTypeExecution))) (WStatus 409);
  _ ← fail_if (negb (bool_decide (Status task ∈ [TaskStatusDone; TaskStatusAborted]))) (WStatus 409);
  _ ← yield_ 73;
  cardParent ← card_parent (ParentID task);
  ti ← rerun_instructions task (InstructionsOverride req);
  let task := set_Payload (set_Status ti.1.1 TaskStatusPending) raw_obj0 in
  _ ← yield_ 74;
  _ ← updateTaskWithCardSlotRecheck background_ctx task cardParent None;
  mret (task, ti.1.2, ti.2).
Definition RerunTask (id : string) (req : RerunTaskRequest) : taskm Task :=
  ti ← rerun_row id req;
  let task := ti.1.1 in
  _ ← auditInstructionsChange background_ctx (ID task) ti.1.2 ti.2;
  _ ← yield_ 75;
  if RrAutoStart req then
    r ← try_ (ApplyAction (with_actor background_ctx ActorHuman) (ID task) "start" REmpty);
    mret (match r with inr app => AppTask app | inl _ => task end)
  else mret task.

(** ** Replaying a hook (workflow_replay.go) *)
Record ReplayHookRequest : Type := { RpHookID : string; RpStatus : string }.
Definition replay_tx (taskID : string) (replay : ReplayResult) : taskm unit :=
  latest ← GetTask taskID;
  latest ← match Exec latest with
           | Some e => if len0 (RPayloadDelta replay) then mret latest
                       else merged ← lift_payload (WInternal "merge payload") (MergePayload (Payload e) (RPayloadDelta replay));
                            mret (set_Payload latest merged)
           | None => mret latest
           end;
  UpdateTask (if str_empty (RNewStatus replay) then latest else set_Status latest (RNewStatus replay)).
Definition service_ReplayHook (ctx : Ctx) (taskID : string) (req : ReplayHookRequest) : taskm (Task * list FiredEvent) :=
  task ← map_err (λ _, WStatus 404) (GetTask taskID);
  match TaskMeta task with
  | None => throw (WStatus 500)
  | Some meta =>
      _ ← yield_ 76;
      running ← gets (λ s, bool_decide (Exists (λ j, JTaskID j = taskID ∧ JStatus j = "running") (map_to_list (jobs (led s))).*2));
      _ ← fail_if running (WStatus 409);
      let task := if str_empty (RpStatus req) then task else set_Status task (RpStatus req) in
      _ ← (if str_empty (RpStatus req) then mret () else map_err (λ _, WStatus 500) (UpdateTask task));
      _ ← yield_ 77;
      log ← gets (ListActionsByTask (ID task));
      match ReplayHook (Some (Some log)) task meta (machineFor task) (RpHookID req) with
      | Panic => throw (WInternal "panic")
      | Err _ => throw (WStatus 400)
      | Ok replay =>
          _ ← yield_ 78;
          _ ← map_err (λ _, WStatus 500) (InTxDB (replay_tx taskID replay));
          _ ← persistFiredEvents ctx taskID (Status task) (RFiredEvents replay);
          updated ← map_err (λ _, WStatus 500) (GetTask taskID);
          mret (updated, RFiredEvents replay)
      end
  end.
Definition service_ListHooksForStatus (taskID status : string) : taskm (list Hook) :=
  task ← map_err (λ _, WStatus 404) (GetTask taskID);
  match TaskMeta task with
  | None => throw (WStatus 500)
  | Some meta => mret (ListHooksForStatus meta task (if str_empty status then Status task else status))
  end.
End service.

(** ** One live child per card

    What creating and rerunning tasks does to the live tasks under a card [c]. *)
Definition live_child (c : string) (t : Task) : Prop := ParentID t = c ∧ IsTerminalStatus (Status t) = false.
Record single_child (c : string) (s : WDB) : Prop := {
  sc_typed : typed s;
  sc_card : ∃ t, rows s !! c = Some t ∧ Type_ t = TaskTypeCard;
  sc_one i j t u : rows s !! i = Some t → rows s !! j = Some u → live_child c t → live_child c u → i = j;
}.
Definition keeps_child (c : string) (s s' : WDB) : Prop := single_child c s → single_child c s'.
Definition no_live (c : string) (s : WDB) : Prop := ∀ i t, rows s !! i = Some t → ¬ live_child c t.

Lemma open_count_zero t s : OpenChildCount t s = 0 ↔ no_live (ID t) s.
Proof.
  unfold OpenChildCount, children_of, no_live, live_child. rewrite length_zero_iff_nil. split.
  - intros Hn i u Hu [Hp Hs]. enough (u ∈ ([] : list Task)) as ?%elem_of_nil by done. rewrite <- Hn. apply list_elem_of_filter. split; [done|].
    apply list_elem_of_filter. split; [done|]. apply list_elem_of_fmap. exists (i, u). split; [done|]. by apply elem_of_map_to_list.
  - intros Hn. apply elem_of_nil_inv. intros u [Hs [Hp Hu]%list_elem_of_filter]%list_elem_of_filter.
    apply list_elem_of_fmap in Hu as ([i u'] & -> & Hu%elem_of_map_to_list). by eapply Hn.
Qed.

#[export] Instance keeps_child_row c : RowRel (keeps_child c).
Proof.
  assert (∀ s s', keeps_typed s s' → (∀ i t', rows s' !! i = Some t' →
            ∃ t, rows s !! i = Some t ∧ Type_ t' = Type_ t ∧ ParentID t' = ParentID t ∧ Status t' = Status t) →
            (∀ i, is_Some (rows s !! i) → is_Some (rows s' !! i)) → keeps_child c s s') as Hsame.
  { intros s s' Hty Hrow Hdom [Ht (t & Hc & Htc) Hone]. split; [by apply Hty| |].
    - destruct (Hdom c) as [t' Ht']; [by eexists|]. exists t'. split; [done|].
      destruct (Hrow _ _ Ht') as (t0 & Ht0 & -> & _). by simplify_eq.
    - intros i j u v Hu Hv [Hpu Hsu] [Hpv Hsv]. destruct (Hrow _ _ Hu) as (u0 & Hu0 & _ & Hp1 & Hs1), (Hrow _ _ Hv) as (v0 & Hv0 & _ & Hp2 & Hs2).
      eapply Hone; [exact Hu0|exact Hv0|split; congruence|split; congruence]. }
  split.
  - by intros s Hs.
  - intros s1 s2 s3 H12 H23 Hs. auto.
  - intros s s' Hr. apply Hsame; [by apply rr_same|rewrite Hr; eauto|by rewrite Hr].
  - intros s id t a Ht Hc. apply Hsame; [by apply rr_card|intros i t' Hi|intros i Hi]; simpl in *.
    + apply lookup_insert_Some in Hi as [[<- <-]|[_ Hi]]; eauto.
    + destruct (decide (id = i)) as [<-|Hne]; [by rewrite lookup_insert_eq|by rewrite lookup_insert_ne].
  - intros s id time. apply Hsame; [by apply rr_touch|intros i t' Hi|intros i Hi]; simpl in *.
    + apply lookup_alter_Some in Hi as [(-> & t & Ht & ->)|[_ Hi]]; eauto.
    + by apply lookup_alter_is_Some.
Qed.

(** A row is written that is no live child of the card, or the first one. *)
Lemma write_child c s id row :
  single_child c s → ID row = id → row_check row = true → (∀ t, rows s !! id = Some t → Type_ row = Type_ t) →
  ParentID row ≠ c ∨ no_live c s → single_child c (set_rows s (<[id := row]> (rows s))).
Proof.
  intros [Hty (t & Ht & Htc) Hone] Hid Hrow Htype Hor. split; simpl.
  - intros i u Hu. cbn in Hu. apply lookup_insert_Some in Hu as [[<- <-]|[_ Hu]]; [done|by apply Hty].
  - destruct (decide (id = c)) as [->|Hne].
    + exists row. rewrite lookup_insert_eq. split; [done|]. by rewrite (Htype _ Ht).
    + exists t. by rewrite lookup_insert_ne.
  - intros i j u v. intros [[<- <-]|[_ Hu]]%lookup_insert_Some [[<- <-]|[_ Hv]]%lookup_insert_Some Hlu Hlv; [done|..].
    + destruct Hor as [Hp|Hn]; [by destruct Hlu|by destruct (Hn _ _ Hv)].
    + destruct Hor as [Hp|Hn]; [by destruct Hlv|by destruct (Hn _ _ Hu)].
    + by eapply Hone.
Qed.

Lemma UpdateTask_child c t s : ParentID t ≠ c ∨ no_live c s → keeps_child c s (UpdateTask t s).1.
Proof.
  intros Hor Hs. destruct (UpdateTask_cases t s) as [[e ->]|(old & w & row & Hold & _ & -> & Hc & _ & _ & ->)]; [done|].
  destruct (sc_typed _ _ Hs _ _ Hold) as [Hid _]. apply write_child; [done|done|done| |done].
  intros t0 Ht0. rewrite Hid, Hold in Ht0. by simplify_eq.
Qed.
Lemma insert_task_child c t s : ParentID t ≠ c ∨ no_live c s → keeps_child c s (insert_task t s).1.
Proof.
  intros Hor Hs. destruct (insert_task_cases t s) as [[e ->]|(-> & Hn & Hc & _)]; [done|].
  apply write_child; [done|done|done| |done]. intros t0. by rewrite Hn.
Qed.

Section creating.
Context `{TaskServiceEnv}.
Abbreviation store_CreateTask := (CreateTask uuid ref_name ref_suffix).
Abbreviation store_linked := (createTaskLinkedToCardRequest uuid ref_name ref_suffix).

(** A creation leaves the rows as they are, or adds one under the parent. *)
Lemma CreateTask_rows t s s' t' :
  store_CreateTask t s = (s', inr t') →
  rows s' = rows s ∨ ∃ row, rows s !! ID row = None ∧ rows s' = <[ID row := row]> (rows s) ∧ ParentID row = ParentID t.
Proof.
  unfold CreateTask. fold (scoped t). intros Hr. rewrite bind_gets in Hr. destruct (if str_empty (Ref (scoped t)) then _ else _).
  { apply ret_ok in Hr as [-> _]. by left. }
  rewrite bind_gets in Hr. destruct (if str_empty (IdempotencyKey (scoped t)) then _ else _).
  { case_match; [done|]. apply ret_ok in Hr as [-> _]. by left. }
  apply insert_new_ok in Hr as (row & (_ & Hp & _) & [[-> _]|(-> & Hn & ->)]); [by left|right]. exists row. split_and!; [done|done|].
  rewrite Hp. unfold scoped. by destruct (_ && _).
Qed.
Lemma linked_rows t r o s s' t' :
  store_linked t r o s = (s', inr t') → ∃ s1 t1, store_CreateTask t s = (s1, inr t1) ∧ rows s' = rows s1.
Proof.
  unfold createTaskLinkedToCardRequest. intros (t1 & s1 & Hc & Hr)%bind_ok. exists s1, t1. split; [done|].
  apply bind_ok in Hr as (x & s2 & Ha%try_ok & Hr).
  assert (rows s2 = rows s1) as Hr2.
  { pose proof (on_ledger_rows (AttachCardRequestOwned r o CardRequestTargetKindTask (ID t1)) s1) as Hx. by rewrite Ha in Hx. }
  destruct x as [e|]; [|by apply ret_ok in Hr as [-> _]]. destruct e as [| | | |e| | |]; try done. destruct e; try done.
  apply bind_ok in Hr as (q & s3 & Hg & Hr). pose proof (on_ledger_rows (GetCardRequest r) s2) as Hx. rewrite Hg in Hx. simpl in Hx.
  case_match; [|done]. apply ret_ok in Hr as [-> _]. congruence.
Qed.

Lemma CreateTask_steps (R : relation WDB) `{!RowRel R} t :
  (∀ id ref w time, steps R (insert_task (created t id ref w time))) → steps R (store_CreateTask t).
Proof.
  intros Hi. assert (∀ id ref w time, steps R (insert_task (created (scoped t) id ref w time))) as Hi'.
  { intros. replace (created (scoped t) id ref w time) with (created t id ref w time); [done|]. unfold scoped. by destruct (_ && _). }
  unfold CreateTask. fold (scoped t). unfold insert_new, create_race, generateUniqueRef, now, validateTaskPrimaryProject, RequireTaskPrimaryProject.
  steps_tac.
Qed.
Lemma linked_steps (R : relation WDB) `{!RowRel R} t r o : steps R (store_CreateTask t) → steps R (store_linked t r o).
Proof. intros Hc. unfold createTaskLinkedToCardRequest. steps_tac. Qed.

Lemma insert_task_typed t : steps keeps_typed (insert_task t).
Proof.
  intros s Hs. destruct (insert_task_cases t s) as [[e ->]|(-> & Hn & Hc & _)]; [done|]. intros i u Hu. cbn in Hu.
  apply lookup_insert_Some in Hu as [[<- <-]|[_ Hu]]; [done|by apply Hs].
Qed.
Lemma CreateTask_typed t : steps keeps_typed (store_CreateTask t).
Proof. apply CreateTask_steps; [apply _|]. intros. apply insert_task_typed. Qed.

(** Creating a task that is not under the card, or under a card without a live
    child. *)
Lemma CreateTask_child c t : ParentID t ≠ c → steps (keeps_child c) (store_CreateTask t).
Proof. intros Hp. apply CreateTask_steps; [apply _|]. intros id ref w time s. apply insert_task_child. by left. Qed.
Lemma create_first_child c t s s' t' :
  store_CreateTask t s = (s', inr t') → no_live c s → single_child c s → single_child c s'.
Proof.
  intros Hr Hn Hs. pose proof (CreateTask_typed t s (sc_typed _ _ Hs)) as Hty. rewrite Hr in Hty. simpl in Hty.
  destruct (CreateTask_rows _ _ _ _ Hr) as [Hrows|(row & Hnone & Hrows & Hp)].
  - by apply (rr_same (R := keeps_child c) s s').
  - apply (rr_same (R := keeps_child c) (set_rows s (<[ID row := row]> (rows s)))); [done|].
    apply write_child; [done|done| |by rewrite Hnone|by right].
    apply (Hty (ID row)). by rewrite Hrows, lookup_insert_eq.
Qed.
Lemma linked_first_child c t r o s s' t' :
  store_linked t r o s = (s', inr t') → no_live c s → single_child c s → single_child c s'.
Proof.
  intros (s1 & t1 & Hc & Hr)%linked_rows Hn Hs. apply (rr_same (R := keeps_child c) s1); [done|]. by eapply create_first_child.
Qed.

(** A free slot has no live child in it. *)
Lemma conflict_free requests parent count ref project behavior own owner :
  cardSlotConflictWithLister requests parent count ref project behavior own owner = false → count = 0.
Proof.
  unfold cardSlotConflictWithLister, cardChildSlotConflict. intros [Hc _]%orb_false_iff. destruct count as [|n]; [done|].
  by destruct (match head _ with Some _ => _ | None => _ end).
Qed.
Lemma card_slot_free (c : string) parent ref project behavior own owner s s1 s2 p taken count :
  typed s → rows s !! c = Some parent → GetTask c s = (s1, inr p) → gets (OpenChildCount p) s1 = (s1, inr count : werr + nat) →
  slot_conflict p count ref project behavior own owner s1 = (s2, inr taken) → taken = false → s2 = s ∧ no_live c s.
Proof.
  intros Hty Hc Hg [= <-] Ht ->. apply GetTask_run in Hg as [-> Hf]. unfold find_task in Hf. rewrite Hc in Hf. injection Hf as ->.
  injection Ht as <- Hx. split; [done|]. apply conflict_free in Hx. apply open_count_zero in Hx. by rewrite (proj1 (Hty _ _ Hc)) in Hx.
Qed.
End creating.

Section one_child.
Context `{TaskServiceEnv} (c : string) (Hc : c ≠ "").
Context (Hothers : ∀ n s, keeps_child c s (others n s)).

Lemma yield_child n : steps (keeps_child c) (yield_ n).
Proof. intros s. apply Hothers. Qed.

(** Under the card itself, in the transaction. *)
Lemma create_under_card_child req task s :
  keeps_child c s (InTxDB (create_under_card c req task) s).1.
Proof.
  intros Hs. unfold InTxDB. destruct (create_under_card c req task s) as [s' [e|t']] eqn:Hr; [done|]. simpl.
  destruct (sc_card _ _ Hs) as (parent & Hp & _). unfold create_under_card in Hr.
  apply bind_ok in Hr as (p & s1 & Hg & Hr). apply bind_ok in Hr as (count & s2 & Hcount & Hr).
  pose proof Hcount as [-> _]%gets_ok. apply bind_ok in Hr as (taken & s3 & Ht & Hr).
  rewrite bind_fail_if in Hr. destruct taken; [done|].
  destruct (card_slot_free c parent _ _ _ _ _ s s1 s3 p false count (sc_typed _ _ Hs) Hp Hg Hcount Ht eq_refl) as [-> Hn].
  destruct (str_empty (CqCardRequestID req)); [by eapply create_first_child|by eapply linked_first_child].
Qed.
Lemma recheck_child ctx task record s :
  keeps_child c s (updateTaskWithCardSlotRecheck ctx task c record s).1.
Proof.
  intros Hs. unfold updateTaskWithCardSlotRecheck. unfold str_empty at 1. rewrite (bool_decide_eq_false_2 (c = "")) by done. cbn [andb].
  match goal with |- single_child c (map_err _ (InTxDB ?m) s).1 => set (tx := m) end.
  assert (single_child c (InTxDB tx s).1) as Htx; [|by unfold map_err; destruct (InTxDB tx s) as [? []]].
  unfold InTxDB. destruct (tx s) as [s' [e|t']] eqn:Hr; [done|]. simpl. unfold tx in Hr.
  destruct (sc_card _ _ Hs) as (parent & Hp & _). apply bind_ok in Hr as ([] & s4 & Hchk & Hr).
  unfold str_empty in Hchk. rewrite (bool_decide_eq_false_2 (c = "")) in Hchk by done.
  apply bind_ok in Hchk as (p & s1 & Hg & Hchk). apply bind_ok in Hchk as (count & s2 & Hcount & Hchk).
  pose proof Hcount as [-> _]%gets_ok. apply bind_ok in Hchk as (taken & s3 & Ht & Hf).
  destruct taken; [done|]. injection Hf as <-.
  destruct (card_slot_free c parent _ _ _ _ _ s s1 s3 p false count (sc_typed _ _ Hs) Hp Hg Hcount Ht eq_refl) as [-> Hn].
  apply bind_ok in Hr as ([] & s5 & Hu & Hr). pose proof (UpdateTask_child c task s (or_intror Hn) Hs) as Hs5. rewrite Hu in Hs5.
  destruct record as [a|]; [|by apply ret_ok in Hr as [-> _]].
  pose proof (CreateAction__steps (keeps_child c) (CtxWriter ctx) a s5 Hs5) as Hx. by rewrite Hr in Hx.
Qed.
Lemma recheck_away ctx task parent record :
  ParentID task ≠ c → steps (keeps_child c) (updateTaskWithCardSlotRecheck ctx task parent record).
Proof.
  intros Hp. assert (steps (keeps_child c) (UpdateTask task)) by (intros s; apply UpdateTask_child; by left).
  unfold updateTaskWithCardSlotRecheck, slot_conflict. steps_tac.
Qed.

(** The card is found by its id. *)
Lemma card_found s : single_child c s → ∃ t, GetTask c s = (s, inr t) ∧ ID t = c ∧ is_card t = true.
Proof.
  intros Hs. destruct (sc_card _ _ Hs) as (t & Ht & Htc). exists t. split_and!.
  - unfold GetTask. rewrite bind_gets. unfold find_task. by rewrite Ht.
  - by apply (sc_typed _ _ Hs).
  - unfold is_card. by rewrite bool_decide_eq_true.
Qed.

Lemma insert_execution_child req task : ParentID task = CqParentID req → steps (keeps_child c) (insert_execution req task).
Proof.
  intros Hp. unfold insert_execution. destruct (decide (CqParentID req = c)) as [Heq|Hne].
  - intros s Hs. destruct (card_found s Hs) as (t & Hg & Hid & Hcard). rewrite <- Heq in Hg.
    erewrite bind_run by (unfold parent_of, str_empty; rewrite (bool_decide_eq_false_2 (CqParentID req = "")) by congruence;
      erewrite bind_run by (unfold try_; rewrite Hg; reflexivity); reflexivity).
    pose proof (yield_child 65 s Hs) as Hy. cbn in Hy.
    rewrite (bind_run (yield_ 65) _ s (others 65 s) ()) by done. rewrite Hcard, Hid.
    set (m := create_under_card c req task). pose proof (create_under_card_child req task _ Hy) as Hx. fold m in Hx.
    unfold map_err. by destruct (InTxDB m (others 65 s)) as [? []].
  - pose proof (CreateTask_child c task ltac:(congruence)) as Hct. pose proof (yield_child 65).
    pose proof (linked_steps (keeps_child c) task (CqCardRequestID req) (CqCardRequestOwnerJobID req) Hct).
    unfold parent_of, create_under_card, slot_conflict, CreateTaskLinkedToCardRequest. steps_tac.
Qed.
Lemma create_execution_child req status : steps (keeps_child c) (create_execution req status).
Proof.
  unfold create_execution. pose proof (λ res remote branch, insert_execution_child req (new_execution req res remote branch status) eq_refl).
  pose proof (yield_child 64).
  unfold validatePrimaryProject, RequireTaskPrimaryProject, resolve_behavior, metaFor, inherited_remote, parent_of, base_branch, bad_request. steps_tac.
Qed.

Lemma rerun_row_child id req : steps (keeps_child c) (rerun_row id req).
Proof.
  unfold rerun_row. apply steps_bind; [apply _|steps_tac|intros task].
  do 2 (apply steps_bind; [apply _|steps_tac|intros _]). apply steps_bind; [apply _|apply yield_child|intros _].
  destruct (decide (ParentID task = c)) as [Heq|Hne].
  - intros s Hs. destruct (card_found s Hs) as (t & Hg & Hid & Hcard).
    assert (card_parent (ParentID task) s = (s, inr c)) as Hcp.
    { unfold card_parent. rewrite Heq. unfold str_empty. rewrite bool_decide_eq_false_2 by done.
      rewrite (bind_run (try_ (GetTask c)) _ s s (inr t)) by (unfold try_; by rewrite Hg). by rewrite Hcard, Hid. }
    rewrite (bind_run _ _ _ _ _ Hcp). revert s Hs Hg Hcp. intros s Hs _ _. revert s Hs.
    match goal with |- ∀ s, single_child c s → single_child c (?m s).1 => change (steps (keeps_child c) m) end.
    pose proof (yield_child 74). pose proof recheck_child as Hrc.
    assert (∀ ctx task record, steps (keeps_child c) (updateTaskWithCardSlotRecheck ctx task c record)) by (intros; intros ?; apply Hrc).
    unfold rerun_instructions, bad_request. steps_tac.
  - apply steps_bind; [apply _|unfold card_parent; steps_tac|intros parent].
    assert (steps (keeps_child c) (rerun_instructions task (InstructionsOverride req))) by (unfold rerun_instructions, bad_request; steps_tac).
    apply steps_bind_ok; [apply _|done|]. intros s s' ti Hti.
    assert (ParentID ti.1.1 = ParentID task) as Hpt.
    { unfold rerun_instructions in Hti. destruct (_ || _); [by apply ret_ok in Hti as [_ ->]|].
      destruct (unmarshal_instructions _); [|done]. by apply ret_ok in Hti as [_ ->]. }
    pose proof (yield_child 74). apply steps_bind; [apply _|done|intros _].
    apply steps_bind; [apply _|apply recheck_away; simpl; congruence|steps_tac].
Qed.
End one_child.

(** C15.  Tasks take the slot of a card one at a time: as long as every other
    request leaves a card with at most one live task under it, so does the
    creation of an execution task, with or without a card request, and the
    reset of an ended task for a rerun, however they interleave and whatever
    they are asked for. *)
Theorem card_children_one_at_a_time `{TaskServiceEnv} c req status id rerun s :
  c ≠ "" → (∀ n s, single_child c s → single_child c (others n s)) → single_child c s →
  single_child c (create_execution req status s).1 ∧ single_child c (rerun_row id rerun s).1.
Proof. intros Hc Ho Hs. split; [by apply create_execution_child|by apply rerun_row_child]. Qed.

(** ** Behind the workflow

    The task service is the TaskCreator the "go" of a card calls. *)
Definition of_child (r : CardWorkflow.CreateTaskRequest) : CreateTaskRequest :=
  {| CqWorkspaceID := ""; CqNoProject := false; CqID := ""; CqProjectID := CtrProjectID r; CqTitle := CtrTitle r;
     CqDescription := CtrDescription r; CqBehavior := CtrBehavior r; CqBehaviorSpec := None; CqRemoteID := ""; CqPayload := REmpty;
     CqInstructions := if str_empty (CtrInstruction r) then REmpty
                       else RText true (JArr [marshal_instruction {| Agent := ""; IName := ""; Message := CtrInstruction r; Model := "" |}]);
     CqAutoStart := CtrAutoStart r; CqTraits := None; CqRef := CtrRef r; CqParentID := CtrParentID r; CqReadonly := None;
     CqInitialStatus := ""; CqIdempotencyKey := ""; CqCardRequestID := CtrCardRequestID r;
     CqCardRequestOwnerJobID := CtrCardRequestOwnerJobID r |}.

Section connected.
Context `{env : TaskServiceEnv}.

Definition with_task_service (ctx : Ctx) : ServiceEnv :=
  {| service_workflow := {| uuid := uuid; card_events := card_events; parse_rfc3339 := parse_rfc3339; err_text := err_text;
                            tryDispatchQueuedCardRequest := tryDispatchQueuedCardRequest;
                            TaskCreator_CreateTask := λ r, service_CreateTask ctx (of_child r); others := others |};
     service_hooks := service_hooks; TaskMeta := TaskMeta; payload_len := payload_len; is_canceled := is_canceled;
     failure_text := failure_text |}.

(** *** Types *)
Section typed_rows.
Context `{!EnvRel keeps_typed}.
Lemma service_CreateTask_typed ctx req : steps keeps_typed (service_CreateTask ctx req).
Proof.
  pose proof (CreateTask_typed) as Hc. pose proof (λ n s, env_others (R := keeps_typed) n s) as Ho.
  assert (∀ n, steps keeps_typed (yield_ n)) by (intros n s; apply Ho).
  pose proof (λ t r o, linked_steps keeps_typed t r o (Hc t)).
  pose proof (applyAction_steps keeps_typed UpdateTask_keeps_typed) as Ha.
  unfold service_CreateTask, check_scope, resolveInitialStatus, createCardTask, createExecutionTask, create_execution, insert_execution,
    create_under_card, slot_conflict, createCardWithRecord, attachCardRequestIfNeeded, start_if_pending, auto_start, resolve_behavior, metaFor,
    base_branch, check_card_parent, inherited_remote, parent_of, by_ref, by_key, idempotencyKeyTypeMismatchErr, validatePrimaryProject,
    RequireTaskPrimaryProject, CreateTaskLinkedToCardRequest, ApplyAction, bad_request, slot_conflict.
  steps_tac.
Qed.
Lemma with_task_service_typed ctx : EnvRel (H := @service_workflow (with_task_service ctx)) keeps_typed.
Proof. split; [apply (env_others (H := @service_workflow (@task_service env)))|apply (env_dispatch (H := @service_workflow (@task_service env)))|]. intros req. apply service_CreateTask_typed. Qed.
End typed_rows.

(** *** Slots *)
Definition card_of_ok (t : Task) : Prop := ∀ c, Card t = Some c → card_ok c.
Lemma insert_task_slots t : card_of_ok t → keeps (insert_task t).
Proof.
  intros Ht s Hs. split; [|done]. destruct (insert_task_cases t s) as [[e ->]|(-> & _)]; [done|]. intros i u c Hu Hc. cbn in Hu.
  apply lookup_insert_Some in Hu as [[<- <-]|[_ Hu]]; [by apply Ht|by eapply Hs].
Qed.
Lemma created_card_ok t id ref w time : card_of_ok t → card_of_ok (created t id ref w time).
Proof.
  intros Ht c Hc. cbn in Hc. apply fmap_Some in Hc as (c0 & Hc0 & ->). destruct (Ht _ Hc0) as (cs & Hh & Hok).
  exists cs. split; [by apply holds_or_empty|done].
Qed.
Lemma CreateTask_slots t : card_of_ok t → keeps (CreateTask uuid ref_name ref_suffix t).
Proof.
  intros Ht. assert (card_of_ok (scoped t)) as Hs by (unfold scoped; by destruct (_ && _)).
  pose proof (λ id ref w time, insert_task_slots _ (created_card_ok _ id ref w time Hs)).
  unfold CreateTask. fold (scoped t). unfold insert_new, create_race, generateUniqueRef, now, validateTaskPrimaryProject, RequireTaskPrimaryProject.
  keeps_tac.
Qed.
Lemma linked_slots t r o : card_of_ok t → keeps (createTaskLinkedToCardRequest uuid ref_name ref_suffix t r o).
Proof. intros Ht. pose proof (CreateTask_slots t Ht). unfold createTaskLinkedToCardRequest. keeps_tac. Qed.

Lemma listed_in_rows s t : t ∈ (map_to_list (rows s)).*2 → ∃ id, rows s !! id = Some t.
Proof. intros ([id u] & -> & Hu%elem_of_map_to_list)%list_elem_of_fmap. by exists id. Qed.
Lemma first_in_rows P s t : first_row P s = Some t → ∃ id, rows s !! id = Some t.
Proof. unfold first_row. intros (? & Hh)%head_Some. apply listed_in_rows. apply (list_elem_of_filter (λ t, P t = true)). rewrite Hh. by left. Qed.
Lemma task_in_rows id s t : find_task id s = Some t → ∃ id, rows s !! id = Some t.
Proof.
  unfold find_task. destruct (rows s !! id) as [u|] eqn:Hu; [intros [= ->]; eauto|]. destruct (8 <=? _)%nat; [|done].
  intros (? & Hh)%head_Some. apply listed_in_rows. eapply (list_elem_of_filter (λ t, like (id +:+ "%") (ID t) = true)). rewrite Hh. by left.
Qed.
Lemma found_in_rows req ref key s t : findCreateKey req ref key s = Some t → ∃ id, rows s !! id = Some t.
Proof.
  unfold findCreateKey, FindWorkspaceTask, FindTaskByRef, FindTaskByIdempotencyKey. intros Hf.
  repeat case_match; simplify_eq; eauto using first_in_rows, task_in_rows.
Qed.
Section slots.
Context `{!EnvRel keeps_slots}.
Lemma by_ref_delivers req : delivers slots_ok (λ o, ∀ t, o = Some t → card_of_ok t) (by_ref req).
Proof.
  intros s Hs. split; [done|]. intros o [= <-] t Ht. destruct (str_empty (CqRef req)); [done|].
  apply found_in_rows in Ht as [id Hid]. intros c Hc. by eapply Hs.
Qed.
Lemma create_execution_slots req status : keeps (create_execution req status).
Proof.
  pose proof yield__keeps. assert (∀ t, Card t = None → card_of_ok t) as Hnone by (intros t Ht c; by rewrite Ht).
  assert (∀ res remote branch, keeps (insert_execution req (new_execution req res remote branch status))).
  { intros res remote branch. set (task := new_execution req res remote branch status). assert (card_of_ok task) as Hok by by apply Hnone.
    pose proof (CreateTask_slots task Hok). pose proof (λ r o, linked_slots task r o Hok).
    unfold insert_execution, create_under_card, slot_conflict, parent_of, CreateTaskLinkedToCardRequest. keeps_tac. }
  unfold create_execution, validatePrimaryProject, RequireTaskPrimaryProject, resolve_behavior, metaFor, inherited_remote, parent_of, base_branch, bad_request.
  keeps_tac.
Qed.
Lemma createCardTask_slots ctx req status : keeps (createCardTask ctx req status).
Proof.
  pose proof yield__keeps. assert (∀ remote, keeps (CreateTask uuid ref_name ref_suffix (new_card req remote status))).
  { intros remote. apply CreateTask_slots. intros c [= <-]. apply fresh_card_ok. }
  unfold createCardTask, createCardWithRecord, check_card_parent, slot_conflict, inherited_remote, parent_of, by_ref, by_key,
    idempotencyKeyTypeMismatchErr, validatePrimaryProject, RequireTaskPrimaryProject, bad_request. keeps_tac.
Qed.
Lemma createExecutionTask_slots ctx req status : CqIdempotencyKey req = "" → keeps (createExecutionTask ctx req status).
Proof.
  intros Hk. unfold createExecutionTask. eapply delivers_bind; [apply by_ref_delivers|]. intros [existing|] Hex; cbv beta iota.
  - pose proof (linked_slots existing) as Hl. unfold attachCardRequestIfNeeded, CreateTaskLinkedToCardRequest. keeps_tac.
  - apply keeps_bind; [apply yield__keeps|intros _]. unfold by_key. rewrite Hk.
    eapply (delivers_bind _ (λ o : option Task, o = None)); [intros s Hs; split; [done|by intros ? [= <-]]|intros ? ->].
    apply keeps_bind; [apply create_execution_slots|intros task]. apply keeps_bind; [apply yield__keeps|intros _].
    unfold start_if_pending, auto_start, ApplyAction. pose proof applyAction_keeps. keeps_tac.
Qed.
Lemma service_CreateTask_slots ctx req : CqIdempotencyKey req = "" → keeps (service_CreateTask ctx req).
Proof.
  intros Hk. assert (CqIdempotencyKey (default_workspace req) = "") as Hk' by (unfold default_workspace; by destruct (_ && _)).
  pose proof (λ status, createExecutionTask_slots ctx (default_workspace req) status Hk').
  pose proof (λ status, createCardTask_slots ctx (default_workspace req) status).
  unfold service_CreateTask, check_scope, resolveInitialStatus, bad_request. keeps_tac.
Qed.
Lemma with_task_service_slots ctx : EnvRel (H := @service_workflow (with_task_service ctx)) keeps_slots.
Proof.
  split; [apply (env_others (H := @service_workflow (@task_service env)))|apply (env_dispatch (H := @service_workflow (@task_service env)))|]. intros req s Hs.
  by apply (service_CreateTask_slots ctx (of_child req) eq_refl).
Qed.
End slots.
End connected.

(** The task service is what the workflow takes it for: with it behind the
    creation of a card's child, whoever the child is created for, every action
    and every dispatch loop still keeps the rows typed, and the children of
    every card in known states with at most one to be dispatched. *)
Theorem workflow_over_the_task_service `{env : TaskServiceEnv} `{!EnvRel keeps_typed, !EnvRel keeps_slots} creator ctx id type payload only task meta sm s :
  let service := with_task_service creator in
  (typed s → typed (applyAction (H := service) ctx id type payload only s).1 ∧ typed (runDispatchLoop (H := service) ctx task meta sm s).1) ∧
  (slots_ok s → slots_ok (applyAction (H := service) ctx id type payload only s).1 ∧ slots_ok (runDispatchLoop (H := service) ctx task meta sm s).1).
Proof.
  intros service. pose proof (with_task_service_typed creator) as Ht. pose proof (with_task_service_slots creator) as Hs. split; intros H0; split.
  - by apply (applyAction_steps (H := service) keeps_typed UpdateTask_keeps_typed).
  - by apply (dispatch_loop_steps (H := service) keeps_typed UpdateTask_keeps_typed).
  - by apply (applyAction_keeps (H := service)).
  - by apply (dispatch_loop_keeps (H := service)).
Qed.

(** ** Templates of base branches *)
Inductive piece : Type := Lit (s : string) | Var (name : string).
Fixpoint lacks (x : ascii) (s : string) : Prop := match s with EmptyString => True | String c s => c ≠ x ∧ lacks x s end.
Definition piece_ok (p : piece) : Prop := match p with Lit s => lacks "$" s | Var n => n ≠ "" ∧ lacks "}" n end.
Fixpoint render (ps : list piece) : string :=
  match ps with [] => "" | Lit s :: ps => s +:+ render ps | Var n :: ps => "${" +:+ n +:+ "}" +:+ render ps end.
Fixpoint filled (remote : string) (ps : list piece) : string :=
  match ps with [] => "" | Lit s :: ps => s +:+ filled remote ps | Var _ :: ps => remote +:+ filled remote ps end.

(** Every reference is to a remote id that is there. *)
Definition expandable (remote : string) (p : piece) : Prop := match p with Var n => n = "TASK_REMOTE_ID" ∧ remote ≠ "" | Lit _ => True end.
#[export] Instance expandable_dec remote p : Decision (expandable remote p).
Proof. destruct p; cbn; apply _. Defined.

Lemma expand_skip m a s : expand_from m (String.length a) (a +:+ s) = expand_from m 0 s.
Proof. induction a as [|c a IH]; [done|]. exact IH. Qed.
Lemma expand_lit m a s : lacks "$" a → expand_from m 0 (a +:+ s) = (String.append a) <$> expand_from m 0 s.
Proof.
  induction a as [|c a IH]; intros Ha; [change ("" +:+ s) with s; by destruct (expand_from m 0 s)|]. destruct Ha as [Hc Ha].
  change (String c a +:+ s) with (String c (a +:+ s)). cbn [expand_from]. rewrite (bool_decide_eq_false_2 (c = "$"%char)) by done. cbn [andb].
  rewrite IH by done. by destruct (expand_from m 0 s).
Qed.
Lemma before_brace_name n s : lacks "}" n → before_brace (n +:+ "}" +:+ s) = Some n.
Proof.
  induction n as [|c n IH]; intros Hn; [done|]. destruct Hn as [Hc Hn]. change (String c n +:+ "}" +:+ s) with (String c (n +:+ "}" +:+ s)).
  cbn [before_brace]. rewrite bool_decide_eq_false_2 by done. by rewrite IH.
Qed.
Lemma shell_name_braces n s : n ≠ "" → lacks "}" n → getShellName ("{" +:+ n +:+ "}" +:+ s) = (n, S (S (String.length n))).
Proof.
  intros Hne Hn. pose proof (before_brace_name n s Hn) as Hb. destruct n as [|c n]; [done|].
  change ("{" +:+ String c n +:+ "}" +:+ s) with (String "{" (String c (n +:+ "}" +:+ s))).
  change (String c n +:+ "}" +:+ s) with (String c (n +:+ "}" +:+ s)) in Hb. unfold getShellName. rewrite bool_decide_eq_true_2 by done.
  destruct (n +:+ "}" +:+ s) as [|b rest] eqn:Hr; [by destruct n|]. rewrite Hb.
  destruct (isShellSpecialVar c && bool_decide (b = "}"%char)) eqn:Hs; [|done].
  apply andb_true_iff in Hs as [_ Hs%bool_decide_eq_true]. subst b. destruct n as [|d n]; [done|].
  destruct Hn as (_ & Hd & _). destruct Hd. by injection Hr as -> _.
Qed.
Lemma expand_var m n s : n ≠ "" → lacks "}" n →
  expand_from m 0 ("${" +:+ n +:+ "}" +:+ s) = (head ← m n; tail ← expand_from m 0 s; Some (head +:+ tail)).
Proof.
  intros Hne Hn. change ("${" +:+ n +:+ "}" +:+ s) with (String "$" ("{" +:+ n +:+ "}" +:+ s)).
  cbn [expand_from]. rewrite bool_decide_eq_true_2 by done. cbn [andb negb].
  change (str_empty ("{" +:+ n +:+ "}" +:+ s)) with false. cbn [negb]. rewrite (shell_name_braces n s Hne Hn).
  assert (str_empty n = false) as -> by by destruct n.
  assert (String.length ("{" +:+ n +:+ "}") = S (S (String.length n))) as Hl by (rewrite !string_length_app; cbn; lia).
  rewrite <- Hl. replace ("{" +:+ n +:+ "}" +:+ s) with (("{" +:+ n +:+ "}") +:+ s) by by rewrite <- !string_app_assoc.
  by rewrite expand_skip.
Qed.

(** A template of a base branch, texts with references ${...} in between, is
    expanded by putting the remote id of the task in place of every reference,
    provided each names TASK_REMOTE_ID and the task has a remote id; otherwise
    the creation of the task is refused. *)
Theorem base_branches_expand ps remote :
  Forall piece_ok ps →
  ExpandTaskBaseBranch (render ps) remote =
    if decide (Forall (expandable remote) ps) then Some (filled remote ps) else None.
Proof.
  unfold ExpandTaskBaseBranch. induction 1 as [|p ps Hp _ IH]; [done|]. destruct p as [a|n]; cbn [render filled].
  - rewrite expand_lit, IH by done. destruct (decide (Forall _ ps)) as [Hf|Hf].
    + rewrite decide_True; [done|]. by constructor.
    + rewrite decide_False; [done|]. by intros [_ ?]%Forall_cons.
  - destruct Hp as [Hne Hn]. rewrite expand_var, IH by done. unfold branch_var, taskBaseBranchVarName, str_empty.
    destruct (decide (Forall (expandable remote) (Var n :: ps))) as [Hf|Hf].
    + apply Forall_cons in Hf as [[-> Hr] Hf]. rewrite bool_decide_eq_true_2 by done. rewrite bool_decide_eq_false_2 by done. by rewrite decide_True.
    + rewrite Forall_cons in Hf. case_bool_decide as Hv; [|done]. case_bool_decide as Hr; [done|]. rewrite decide_False; [done|]. intros Hps. by apply Hf.
Qed.

(** ** Payload edits *)
Lemma override_list l base k : NoDup l.*1 →
  foldl override_entry base l !! k = match list_to_map (M := gmap string json) l !! k with Some JNull => None | Some v => Some v | None => base !! k end.
Proof.
  revert base. induction l as [|[i v] l IH]; intros base Hl; [done|]. apply NoDup_cons in Hl as [Hi Hl]. cbn [foldl list_to_map foldr].
  rewrite IH by done. assert (list_to_map (M := gmap string json) l !! i = None) as Hn by by apply not_elem_of_list_to_map_1.
  unfold override_entry. cbn. destruct (decide (i = k)) as [->|Hne].
  - rewrite Hn, lookup_insert_eq. destruct v; cbn; by rewrite ?lookup_delete_eq, ?lookup_insert_eq.
  - rewrite (lookup_insert_ne _ i k) by done. destruct (list_to_map l !! k); [done|].
    destruct v; cbn; by rewrite ?lookup_delete_ne, ?lookup_insert_ne.
Qed.
(** An edit of the payload replaces the members it names, removes those it
    names with null, and leaves the others. *)
Theorem payload_edits_are_per_member payload patch base ov s :
  unmarshal_map payload = Some base → unmarshal_map patch = Some ov →
  ∃ m, merge_payload payload patch s = (s, inr (marshal_map (Some m))) ∧
    ∀ k, m !! k = match go_lookup ov k with Some JNull => None | Some v => Some v | None => go_lookup base k end.
Proof.
  intros Hb Ho. exists (foldl override_entry (default ∅ base) (map_to_list (default ∅ ov))). split.
  - unfold merge_payload. rewrite Ho. destruct (len0 payload || is_lit_null payload) eqn:Hl.
    + assert (base = None) as -> by (destruct payload as [| |[] []]; try done; by injection Hb as <-). done.
    + by rewrite Hb.
  - intros k. rewrite override_list by apply NoDup_fst_map_to_list. rewrite list_to_map_to_list. by destruct ov, base.
Qed.

(** ** Behaviors *)

(** A task may write only if its behavior says so, or is called executor and
    says nothing; a behavior that is found by default is one that can be. *)
Theorem tasks_are_readonly_by_default range meta behavior spec payload insts res :
  ResolveBehavior range (Some meta) behavior spec payload insts = Some res →
  (ResReadonly res = false → BehaviorName res = "executor" ∨ spec = None ∧ ∃ b, TaskBehaviors meta !! BehaviorName res = Some b ∧ TbReadonly b = Some false) ∧
  (behavior = "" → spec = None → DefaultBehaviorResolvable (Some meta) = true).
Proof.
  unfold ResolveBehavior. destruct (negb (str_empty behavior) && _); [done|]. destruct spec as [sp|].
  - destruct (str_empty (SpName sp)); [done|]. intros (l & _ & [= <-])%bind_Some. split; [|done]. cbn. rewrite negb_false_iff, bool_decide_eq_true. auto.
  - intros (name & Hn & (b & Hb & (l & _ & [= <-])%bind_Some)%bind_Some)%bind_Some. cbn in Hb. split.
    + unfold resolution, applyCanonicalBehaviorOverrides. cbn. destruct (TbReadonly b) as [[]|] eqn:Hr; [done| |].
      * intros _. right. split; [done|]. by exists b.
      * rewrite negb_false_iff, bool_decide_eq_true. auto.
    + intros -> _. cbn in Hn. unfold DefaultBehaviorResolvable. cbn. destruct (str_empty (DefaultTaskBehavior meta)); cbn in Hn.
      * by case_bool_decide.
      * injection Hn as <-. apply bool_decide_eq_true_2. by eexists.
Qed.

(** ** A concrete service *)
Definition dev_meta (branch : string) : BehaviorMeta :=
  {| DefaultTaskBehavior := "dev"; MetaBaseBranch := branch;
     TaskBehaviors := {["dev" := {| TbReadonly := None; TbTraits := ["artifact"]; TbDefaultInstruction := None |}]} |}.
Definition tasks_on (branch : string) : TaskServiceEnv :=
  {| task_service := sample_service; map_range := map_to_list; ref_name := λ a b, "ref-" +:+ pretty (a + b); ref_suffix := λ a, pretty a;
     WorkspaceMetaOf := λ _, Some (dev_meta branch); GetWithWorkspace := λ _, Some (dev_meta branch); job_handler := λ _, "build" |}.
Definition sample_tasks : TaskServiceEnv := tasks_on "feature/${TASK_REMOTE_ID}".
Definition plain_tasks : TaskServiceEnv := tasks_on "main".
Definition new_request (parent ref : string) : CreateTaskRequest :=
  {| CqWorkspaceID := ""; CqNoProject := false; CqID := "task-" +:+ ref; CqProjectID := "p"; CqTitle := "t"; CqDescription := ""; CqBehavior := "";
     CqBehaviorSpec := None; CqRemoteID := "X-1"; CqPayload := REmpty; CqInstructions := REmpty; CqAutoStart := false; CqTraits := None;
     CqRef := ref; CqParentID := parent; CqReadonly := None; CqInitialStatus := ""; CqIdempotencyKey := ""; CqCardRequestID := "";
     CqCardRequestOwnerJobID := "" |}.
Definition one_card : WDB := sample_wdb [card_task TaskStatusParked REmpty].
Definition created_by (req : CreateTaskRequest) (s : WDB) : WDB := (service_CreateTask (H := sample_tasks) human_ctx req s).1.
Definition answer_to (req : CreateTaskRequest) (s : WDB) : werr + (string * string) :=
  match (service_CreateTask (H := sample_tasks) human_ctx req s).2 with
  | inl e => inl e
  | inr t => inr (ID t, match Exec t with Some e => BaseBranch e | None => "" end)
  end.

Lemma one_card_child : single_child "card-0123" one_card.
Proof.
  assert (∀ i t, rows one_card !! i = Some t → i = "card-0123") as Hone.
  { intros i t. cbn. intros [[<- _]|[_ ?]]%lookup_insert_Some; [done|]. by rewrite lookup_empty in H. }
  split; [by apply sample_typed| |].
  - exists (card_task TaskStatusParked REmpty). by vm_compute.
  - intros i j t u ->%Hone ->%Hone _ _. done.
Qed.

(** The first child takes the slot, its remote id fills the branch, and the
    second child is refused. *)
Example first_child : answer_to (new_request "card-0123" "a") one_card = inr ("task-a", "feature/X-1").
Proof. vm_compute. reflexivity. Qed.
Example second_child_refused :
  answer_to (new_request "card-0123" "b") (created_by (new_request "card-0123" "a") one_card) = inl (WStatus 409).
Proof. vm_compute. reflexivity. Qed.
(** A parent named by a prefix is checked as the card it finds and stored as it
    is spelled: its children are not counted. *)
Example prefix_parent_takes_no_slot :
  answer_to (new_request "card-012" "b") (created_by (new_request "card-012" "a") one_card) = inr ("task-b", "feature/X-1").
Proof. vm_compute. reflexivity. Qed.

Lemma card_children_one_at_a_time_witness :
  single_child "card-0123" (create_execution (H := sample_tasks) (new_request "card-0123" "a") TaskStatusPending one_card).1.
Proof.
  apply (card_children_one_at_a_time (H := sample_tasks) "card-0123" (new_request "card-0123" "a") TaskStatusPending "task-a"
           {| RrAutoStart := false; InstructionsOverride := REmpty |} one_card); [discriminate|intros n s Hs; exact Hs|exact one_card_child].
Defined.

Lemma workflow_over_the_task_service_witness :
  typed (applyAction (H := with_task_service (env := sample_tasks) human_ctx) human_ctx "card-0123" "go" REmpty false specced_db).1 ∧
  slots_ok (applyAction (H := with_task_service (env := sample_tasks) human_ctx) human_ctx "card-0123" "go" REmpty false specced_db).1.
Proof.
  destruct (workflow_over_the_task_service (env := sample_tasks) (EnvRel0 := sample_env_rel keeps_typed _) (EnvRel1 := sample_env_rel keeps_slots _)
              human_ctx human_ctx "card-0123" "go" REmpty false executing_task sample_meta NewExecutionMachine specced_db) as [Ht Hs].
  split; [apply Ht; by apply sample_typed|apply Hs, specced_slots_ok].
Defined.
(** The child of the card is created by the service, and runs. *)
Definition dev_child : TaskTriageChild :=
  {| ChID := "c1"; ChTitle := "parser"; ChStatus := TaskTriageChildStatusSpecced;
     ChSpec := Some {| SProject := "p"; SBehavior := "dev"; SInstruction := "do it"; SDescription := "" |}; TaskRef := "" |}.
Definition dev_card : WDB := sample_wdb [card_task TaskStatusParked (RText true (JObj [("children", JArr [marshal_child dev_child])]))].
Definition after_go : WDB :=
  (applyAction (H := with_task_service (env := plain_tasks) human_ctx) human_ctx "card-0123" "go" REmpty false dev_card).1.
Example go_creates_the_child :
  (λ t, (Ref t, Status t)) <$> children_of "card-0123" after_go = [("c1", TaskStatusExecuting)].
Proof. vm_compute. reflexivity. Qed.

Lemma base_branches_expand_witness :
  ExpandTaskBaseBranch "feature/${TASK_REMOTE_ID}/x" "X-1" = Some "feature/X-1/x".
Proof.
  apply (base_branches_expand [Lit "feature/"; Var "TASK_REMOTE_ID"; Lit "/x"] "X-1"). repeat constructor; discriminate.
Defined.
