(* ===== verification/TriggerRuns.v ===== *)
(** * Trigger runs

    Models internal/orchestrator/trigger_run.go, [GCTriggerRuns] of store.go
    and [ProjectWorkspaceID] of project_workspace.go, with the constraints of
    migrations 0043, 0059 and 0061: one row per execution of a trigger, a run
    being in flight until its [FinishedAt] is set.

    [loadable] holds the workspaces whose row [loadWorkspaceMeta] can load;
    decoding that row is not modelled. *)
From S2P Require Import Prelude Store.

Record TriggerRun : Type := {
  TrID : string;
  TrProjectID : string;
  TrWorkspaceID : string;
  TriggerName : string;
  TrJobID : string;
  StartedAt : Z;
  FinishedAt : option Z;
  TrExitCode : option Z;
}.

Record TDB : Type := {
  trigger_runs : gmap string TriggerRun;
  projects : gset string;
  project_workspaces : gmap string string;
  loadable : gset string;
  tclock : Z;
  tuuids : nat;
}.

Inductive trigger_err : Type :=
| ErrTriggerRunNotFound
| ErrTriggerRunInFlight
| ErrTriggerRunAlreadyFinished
| ErrNoRow
| ErrTriggerArgument (what : string)
| ErrWorkspaceMeta
| ErrTriggerConstraint.

Abbreviation trm := (dbm TDB trigger_err).

Definition set_runs (s : TDB) (t : gmap string TriggerRun) : TDB :=
  {| trigger_runs := t; projects := projects s; project_workspaces := project_workspaces s;
     loadable := loadable s; tclock := tclock s; tuuids := tuuids s |}.
Definition next_tuuid (s : TDB) : TDB :=
  {| trigger_runs := trigger_runs s; projects := projects s; project_workspaces := project_workspaces s;
     loadable := loadable s; tclock := tclock s; tuuids := S (tuuids s) |}.

Definition DefaultWorkspaceSlug : string := "default".

Definition ProjectWorkspaceID (projectID : string) (s : TDB) : string :=
  match project_workspaces s !! projectID with
  | Some w => if str_empty w then DefaultWorkspaceSlug else w
  | None => DefaultWorkspaceSlug
  end.

(** The single-flight index a row is in while it runs: the project's, or for a
    run without a project the workspace's. *)
Inductive flight : Type :=
| ProjectFlight (project trigger : string)
| WorkspaceFlight (workspace trigger : string).
#[export] Instance flight_eq_dec : EqDecision flight.
Proof. solve_decision. Defined.

Definition flight_of (r : TriggerRun) : flight :=
  if str_empty (TrProjectID r) then WorkspaceFlight (TrWorkspaceID r) (TriggerName r)
  else ProjectFlight (TrProjectID r) (TriggerName r).
Definition in_flight (r : TriggerRun) : bool := bool_decide (FinishedAt r = None).

Definition busy (f : flight) (t : gmap string TriggerRun) : bool :=
  existsb (λ kv, in_flight kv.2 && bool_decide (flight_of kv.2 = f)) (map_to_list t).

Section store.
Context (uuid : nat → string).

Definition new_run_id (run : TriggerRun) : trm string :=
  if str_empty (TrID run) then λ s, (next_tuuid s, inr (uuid (tuuids s))) else mret (TrID run).

Definition run_workspace (run : TriggerRun) : trm string :=
  if str_empty (TrProjectID run)
  then ok ← gets (λ s, bool_decide (TrWorkspaceID run ∈ loadable s));
       if (ok : bool) then mret (TrWorkspaceID run) else throw ErrWorkspaceMeta
  else gets (ProjectWorkspaceID (TrProjectID run)).

(** The run as stored is returned (the source fills it in place).  Any UNIQUE
    violation, of the index or of the primary key, is reported as in flight. *)
Definition CreateTriggerRun (run : TriggerRun) : trm TriggerRun :=
  _ ← fail_if (str_empty (TrProjectID run) && str_empty (TrWorkspaceID run))
        (ErrTriggerArgument "workspace id must not be empty");
  _ ← fail_if (str_empty (TriggerName run)) (ErrTriggerArgument "trigger name must not be empty");
  id ← new_run_id run;
  now ← gets tclock;
  let started := if bool_decide (StartedAt run = 0%Z) then now else StartedAt run in
  workspace ← run_workspace run;
  let row := {| TrID := id; TrProjectID := TrProjectID run; TrWorkspaceID := workspace;
                TriggerName := TriggerName run; TrJobID := TrJobID run; StartedAt := started;
                FinishedAt := None; TrExitCode := None |} in
  dup ← gets (λ s, bool_decide (is_Some (trigger_runs s !! id)) || busy (flight_of row) (trigger_runs s));
  _ ← fail_if dup ErrTriggerRunInFlight;
  known ← gets (λ s, str_empty (TrProjectID run) || bool_decide (TrProjectID run ∈ projects s));
  _ ← fail_if (negb known) ErrTriggerConstraint;
  _ ← modify (λ s, set_runs s (<[id := row]> (trigger_runs s)));
  mret row.

Definition set_job (r : TriggerRun) (job : string) : TriggerRun :=
  {| TrID := TrID r; TrProjectID := TrProjectID r; TrWorkspaceID := TrWorkspaceID r;
     TriggerName := TriggerName r; TrJobID := job; StartedAt := StartedAt r;
     FinishedAt := FinishedAt r; TrExitCode := TrExitCode r |}.
Definition set_finished (r : TriggerRun) (at_ exit : Z) : TriggerRun :=
  {| TrID := TrID r; TrProjectID := TrProjectID r; TrWorkspaceID := TrWorkspaceID r;
     TriggerName := TriggerName r; TrJobID := TrJobID r; StartedAt := StartedAt r;
     FinishedAt := Some at_; TrExitCode := Some exit |}.

Definition SetTriggerRunJobID (id jobID : string) : trm unit :=
  _ ← fail_if (str_empty id) (ErrTriggerArgument "id must not be empty");
  r ← gets (λ s, trigger_runs s !! id);
  match r with
  | None => throw ErrNoRow
  | Some r => modify (λ s, set_runs s (<[id := set_job r jobID]> (trigger_runs s)))
  end.

Definition DeleteTriggerRun (id : string) : trm unit :=
  _ ← fail_if (str_empty id) (ErrTriggerArgument "id must not be empty");
  modify (λ s, set_runs s (delete id (trigger_runs s))).

Definition CompleteTriggerRun (id : string) (finishedAt exitCode : Z) : trm unit :=
  _ ← fail_if (str_empty id) (ErrTriggerArgument "id must not be empty");
  r ← gets (λ s, trigger_runs s !! id);
  match r with
  | Some r =>
      if in_flight r then modify (λ s, set_runs s (<[id := set_finished r finishedAt exitCode]> (trigger_runs s)))
      else throw ErrTriggerRunAlreadyFinished
  | None => throw ErrTriggerRunAlreadyFinished
  end.

(** [ORDER BY started_at ASC, id ASC]. *)
Definition run_le (a b : TriggerRun) : Prop :=
  (StartedAt a < StartedAt b)%Z ∨ (StartedAt a = StartedAt b ∧ String.le (TrID a) (TrID b)).
#[export] Instance run_le_dec : RelDecision run_le.
Proof. intros a b. unfold run_le. apply _. Defined.

Definition runs_where (p : TriggerRun → bool) (s : TDB) : list TriggerRun :=
  merge_sort run_le (filter (λ r, p r = true) (map_to_list (trigger_runs s)).*2).

Definition ListInFlightTriggerRuns (s : TDB) : list TriggerRun := runs_where in_flight s.

Definition LatestTriggerRun (projectID triggerName : string) : trm TriggerRun :=
  _ ← fail_if (str_empty projectID) (ErrTriggerArgument "project id must not be empty");
  _ ← fail_if (str_empty triggerName) (ErrTriggerArgument "trigger name must not be empty");
  r ← gets (λ s, last (runs_where (λ r, bool_decide (TrProjectID r = projectID)
                                       && bool_decide (TriggerName r = triggerName)) s));
  match r with Some r => mret r | None => throw ErrTriggerRunNotFound end.

Definition LatestWorkspaceTriggerRun (workspaceID triggerName : string) : trm TriggerRun :=
  _ ← fail_if (str_empty workspaceID || str_empty triggerName)
        (ErrTriggerArgument "workspace and trigger are required");
  r ← gets (λ s, last (runs_where (λ r, str_empty (TrProjectID r)
                   && bool_decide (TrWorkspaceID r = workspaceID)
                   && bool_decide (TriggerName r = triggerName)) s));
  match r with Some r => mret r | None => throw ErrTriggerRunNotFound end.

(** [olderThan] is a duration in nanoseconds, 0 for no age limit. *)
Definition gc_due (olderThan now : Z) (r : TriggerRun) : bool :=
  match FinishedAt r with
  | None => false
  | Some f => if bool_decide (0 < olderThan)%Z then bool_decide (f < now - olderThan)%Z else true
  end.
Definition GCTriggerRuns (olderThan : Z) (dryRun : bool) : trm nat :=
  now ← gets tclock;
  n ← gets (λ s, size (filter (λ kv : string * TriggerRun, gc_due olderThan now kv.2 = true) (trigger_runs s)));
  _ ← (if dryRun then mret ()
       else modify (λ s, set_runs s (filter (λ kv, gc_due olderThan now kv.2 = false) (trigger_runs s))));
  mret n.

(** ** Runs of the store *)

(** The operations, each on its own, and changes of the other tables;
    deleting a project deletes its runs. *)
Inductive trigger_step : TDB → TDB → Prop :=
| create_run r s : trigger_step s (CreateTriggerRun r s).1
| set_job_id id j s : trigger_step s (SetTriggerRunJobID id j s).1
| delete_run id s : trigger_step s (DeleteTriggerRun id s).1
| complete_run id t c s : trigger_step s (CompleteTriggerRun id t c s).1
| gc_runs d dry s : trigger_step s (GCTriggerRuns d dry s).1
| other_tables s s' :
    trigger_runs s' = filter (λ kv, TrProjectID kv.2 = "" ∨ TrProjectID kv.2 ∈ projects s') (trigger_runs s) →
    trigger_step s s'.

Definition single_flight (s : TDB) : Prop :=
  ∀ i j r r', trigger_runs s !! i = Some r → trigger_runs s !! j = Some r' →
    in_flight r = true → in_flight r' = true → flight_of r = flight_of r' → i = j.

Lemma busy_spec f t :
  busy f t = true ↔ ∃ k r, t !! k = Some r ∧ in_flight r = true ∧ flight_of r = f.
Proof.
  unfold busy. rewrite existsb_exists. split.
  - intros ([k r] & Hin%list_elem_of_In%elem_of_map_to_list & Hp). simpl in Hp.
    apply andb_true_iff in Hp as [? ?%bool_decide_eq_true]. eauto.
  - intros (k & r & Hr & Hf & E). exists (k, r).
    rewrite <- list_elem_of_In, elem_of_map_to_list. split; [done|]. simpl. rewrite Hf. by apply bool_decide_eq_true.
Qed.

(** What a step leaves of a row, and where a row after a step comes from: it
    was there with the same flight and has only been finished if it was
    running, or it is new and its flight was free. *)
Definition evolves (s s' : TDB) : Prop :=
  ∀ k r', trigger_runs s' !! k = Some r' →
    (∃ r, trigger_runs s !! k = Some r ∧ flight_of r' = flight_of r ∧
          (in_flight r = false → FinishedAt r' = FinishedAt r ∧ TrExitCode r' = TrExitCode r)) ∨
    (trigger_runs s !! k = None ∧ FinishedAt r' = None ∧ busy (flight_of r') (trigger_runs s) = false ∧
     ∀ j r, trigger_runs s' !! j = Some r → j ≠ k → trigger_runs s !! j = Some r).

Lemma evolves_refl s : evolves s s.
Proof. intros k r Hr. left. eauto. Qed.

Lemma evolves_same s s' : trigger_runs s' = trigger_runs s → evolves s s'.
Proof. intros E k r Hr. left. rewrite E in Hr. eauto. Qed.

Lemma evolves_insert s s' id r x :
  trigger_runs s !! id = Some r → flight_of x = flight_of r →
  (in_flight r = false → FinishedAt x = FinishedAt r ∧ TrExitCode x = TrExitCode r) →
  trigger_runs s' = <[id := x]> (trigger_runs s) → evolves s s'.
Proof.
  intros Hr Hf Hfin E k r' Hk. rewrite E in Hk. apply lookup_insert_Some in Hk as [[<- <-]|[_ Hk]]; left; eauto.
Qed.

Lemma CreateTriggerRun_cases run s :
  trigger_runs (CreateTriggerRun run s).1 = trigger_runs s ∨
  ∃ row, (CreateTriggerRun run s).2 = inr row ∧ trigger_runs s !! TrID row = None ∧ FinishedAt row = None ∧
    busy (flight_of row) (trigger_runs s) = false ∧
    trigger_runs (CreateTriggerRun run s).1 = <[TrID row := row]> (trigger_runs s).
Proof.
  remember (CreateTriggerRun run s) as res eqn:Hres. unfold CreateTriggerRun in Hres. rewrite !bind_fail_if in Hres.
  destruct (_ && _); [subst; by left|]. destruct (str_empty (TriggerName run)); [subst; by left|].
  unfold mbind at 1, dbm_bind at 1 in Hres.
  destruct (new_run_id run s) as [s1 [e|id]] eqn:Hid; unfold new_run_id in Hid;
    [by destruct (str_empty (TrID run))|].
  assert (trigger_runs s1 = trigger_runs s) as Hs1 by (destruct (str_empty (TrID run)); by injection Hid as <- _).
  rewrite bind_gets in Hres. cbv zeta in Hres. unfold mbind at 1, dbm_bind at 1 in Hres.
  assert ((run_workspace run s1).1 = s1) as Hw.
  { unfold run_workspace. destruct (str_empty (TrProjectID run)); [|done]. rewrite bind_gets. by destruct (bool_decide (TrWorkspaceID run ∈ loadable s1)). }
  destruct (run_workspace run s1) as [s2 [e|w]]; simpl in Hw; subst s2; [subst; by left|].
  rewrite bind_gets, bind_fail_if, Hs1 in Hres.
  destruct (bool_decide (is_Some (trigger_runs s !! id)) || _) eqn:Hdup; [subst; by left|].
  apply orb_false_iff in Hdup as [Hnew%bool_decide_eq_false Hbusy].
  rewrite bind_gets, bind_fail_if in Hres. destruct (negb _); [subst; by left|].
  subst res. right. eexists. split; [reflexivity|].
  simpl. rewrite Hs1. split_and!; [by apply eq_None_not_Some|done|exact Hbusy|done].
Qed.

Lemma step_evolves s s' : trigger_step s s' → evolves s s'.
Proof.
  intros [run s0|id j s0|id s0|id t c s0|d dry s0|s0 s1 Hruns].
  - destruct (CreateTriggerRun_cases run s0) as [E|(row & _ & Hnew & Hfin & Hbusy & E)]; [by apply evolves_same|].
    intros k r' Hk. rewrite E in Hk. apply lookup_insert_Some in Hk as [[<- <-]|[_ Hk]]; [right|left; eauto].
    split_and!; [done..|]. intros j r Hj Hne. by rewrite E, lookup_insert_ne in Hj by done.
  - unfold SetTriggerRunJobID. rewrite bind_fail_if. destruct (str_empty id); [apply evolves_refl|]. rewrite bind_gets.
    destruct (trigger_runs s0 !! id) as [r|] eqn:Hr; [|apply evolves_refl].
    eapply (evolves_insert s0 _ id r (set_job r j)); done.
  - unfold DeleteTriggerRun. rewrite bind_fail_if. destruct (str_empty id); [apply evolves_refl|].
    intros k r Hk. simpl in Hk. apply lookup_delete_Some in Hk as [_ Hk]. left. eauto.
  - unfold CompleteTriggerRun. rewrite bind_fail_if. destruct (str_empty id); [apply evolves_refl|]. rewrite bind_gets.
    destruct (trigger_runs s0 !! id) as [r|] eqn:Hr; [|apply evolves_refl].
    destruct (in_flight r) eqn:Hf; [|apply evolves_refl]. eapply (evolves_insert s0 _ id r (set_finished r t c)); [done|done|congruence|done].
  - unfold GCTriggerRuns. rewrite !bind_gets. destruct dry; [apply evolves_refl|].
    intros k r Hk. simpl in Hk. apply map_lookup_filter_Some in Hk as [Hk _]. left. eauto.
  - intros k r Hk. rewrite Hruns in Hk. apply map_lookup_filter_Some in Hk as [Hk _]. left. eauto.
Qed.

Lemma evolves_in_flight s s' k r' r :
  evolves s s' → trigger_runs s' !! k = Some r' → trigger_runs s !! k = Some r →
  in_flight r' = true → in_flight r = true ∧ flight_of r' = flight_of r.
Proof.
  intros He Hk Hr Hf. destruct (He k r' Hk) as [(r0 & Hr0 & Hfl & Hfin)|(Hn & _)]; [|congruence].
  rewrite Hr in Hr0. injection Hr0 as <-. split; [|done]. destruct (in_flight r) eqn:Hr'; [done|].
  destruct (Hfin eq_refl) as [E _]. unfold in_flight in *. by rewrite E, Hr' in Hf.
Qed.

Lemma evolves_single_flight s s' : evolves s s' → single_flight s → single_flight s'.
Proof.
  intros He Hsf i j r r' Hi Hj Hr Hr' Efl. destruct (decide (i = j)) as [|Hne]; [done|exfalso].
  assert (∀ i j r r', i ≠ j → trigger_runs s' !! i = Some r → trigger_runs s' !! j = Some r' →
    in_flight r = true → in_flight r' = true → flight_of r = flight_of r' →
    trigger_runs s !! i = None → False) as Hnew.
  { clear i j r r' Hi Hj Hr Hr' Efl Hne. intros i j r r' Hne Hi Hj Hr Hr' Efl Hn.
    destruct (He i r Hi) as [(? & ? & _)|(_ & _ & Hbusy & Hrest)]; [congruence|].
    pose proof (Hrest j r' Hj (not_eq_sym Hne)) as Hjs. apply not_true_iff_false in Hbusy. apply Hbusy, busy_spec.
    by exists j, r'. }
  destruct (trigger_runs s !! i) as [ri|] eqn:Hi0; [|by eapply (Hnew i j r r')].
  destruct (trigger_runs s !! j) as [rj|] eqn:Hj0; [|by eapply (Hnew j i r' r)].
  destruct (evolves_in_flight _ _ _ _ _ He Hi Hi0 Hr) as [Hri Ei].
  destruct (evolves_in_flight _ _ _ _ _ He Hj Hj0 Hr') as [Hrj Ej].
  apply Hne. eapply Hsf; [exact Hi0|exact Hj0|done|done|congruence].
Qed.

(** Single flight: whatever is started, completed, deleted, garbage
    collected or cascaded away, at no time do two runs of the same trigger of
    the same project (or, for a run without a project, of the same workspace)
    run at once. *)
Theorem trigger_single_flight s s' :
  trigger_runs s = ∅ → rtc trigger_step s s' → single_flight s'.
Proof.
  intros Hempty Hrun. assert (single_flight s) as Hs by (intros i j r r'; rewrite Hempty; done).
  clear Hempty. induction Hrun as [|s s1 s' Hstep _ IH]; [done|].
  apply IH. eapply evolves_single_flight; [by apply step_evolves|done].
Qed.

(** A run's outcome is recorded once: after a completion has succeeded,
    whatever happens next, as long as the row is there it carries exactly that
    finish time and exit code, and every further completion of it fails and
    changes nothing. *)
Theorem CompleteTriggerRun_once id t c s s1 s' r :
  CompleteTriggerRun id t c s = (s1, inr ()) →
  rtc (λ a b, trigger_step a b ∧ is_Some (trigger_runs b !! id)) s1 s' →
  trigger_runs s' !! id = Some r →
  FinishedAt r = Some t ∧ TrExitCode r = Some c ∧
  ∀ t' c', CompleteTriggerRun id t' c' s' = (s', inl ErrTriggerRunAlreadyFinished).
Proof.
  intros Hc Hrun Hr. unfold CompleteTriggerRun in Hc. rewrite bind_fail_if in Hc.
  destruct (str_empty id) eqn:Hid; [done|]. rewrite bind_gets in Hc.
  destruct (trigger_runs s !! id) as [r0|]; [|done]. destruct (in_flight r0); [|done]. injection Hc as <-.
  assert (∀ s1 s', rtc (λ a b, trigger_step a b ∧ is_Some (trigger_runs b !! id)) s1 s' →
    (∃ x, trigger_runs s1 !! id = Some x ∧ FinishedAt x = Some t ∧ TrExitCode x = Some c) →
    ∃ x, trigger_runs s' !! id = Some x ∧ FinishedAt x = Some t ∧ TrExitCode x = Some c) as Hkeep.
  { clear. induction 1 as [|s s1 s' [Hstep [y Hy]] _ IH]; [done|]. intros (x & Hx & Hf & He). apply IH.
    exists y. split; [done|]. destruct (step_evolves _ _ Hstep id y Hy) as [(x' & Hx' & _ & Hfin)|(Hn & _)]; [|congruence].
    rewrite Hx in Hx'. injection Hx' as <-. destruct Hfin as [E1 E2]; [unfold in_flight; by rewrite Hf|].
    by rewrite E1, E2. }
  destruct (Hkeep _ _ Hrun) as (x & Hx & Hf & He).
  { exists (set_finished r0 t c). simpl. by rewrite lookup_insert_eq. }
  rewrite Hr in Hx. injection Hx as <-. split_and!; [done..|]. intros t' c'.
  unfold CompleteTriggerRun. rewrite bind_fail_if, Hid, bind_gets, Hr. unfold in_flight. by rewrite Hf.
Qed.
End store.

(** ** The theorems at a concrete store *)
Definition sample_tuuid (n : nat) : string := "run".
Definition sample_tdb : TDB :=
  {| trigger_runs := ∅; projects := {["p"]}; project_workspaces := ∅; loadable := ∅; tclock := 100; tuuids := 0 |}.
Definition sample_run (id : string) : TriggerRun :=
  {| TrID := id; TrProjectID := "p"; TrWorkspaceID := ""; TriggerName := "nightly"; TrJobID := ""; StartedAt := 0;
     FinishedAt := None; TrExitCode := None |}.
Definition started_db : TDB := (CreateTriggerRun sample_tuuid (sample_run "r1") sample_tdb).1.
Definition busy_db : TDB := (CreateTriggerRun sample_tuuid (sample_run "r2") started_db).1.
Definition completed_db : TDB := (CompleteTriggerRun "r1" 200 0 started_db).1.

Lemma trigger_single_flight_witness : single_flight busy_db.
Proof.
  apply (trigger_single_flight sample_tuuid sample_tdb busy_db); [reflexivity|].
  eapply rtc_l; [apply create_run|]. apply rtc_once. unfold busy_db, started_db. apply create_run.
Defined.

Lemma CompleteTriggerRun_once_witness :
  CompleteTriggerRun "r1" 300 1 completed_db = (completed_db, inl ErrTriggerRunAlreadyFinished).
Proof.
  destruct (trigger_runs completed_db !! "r1") as [r|] eqn:E; [|vm_compute in E; discriminate E].
  apply (CompleteTriggerRun_once sample_tuuid "r1" 200 0 started_db completed_db completed_db r);
    [vm_compute; reflexivity|apply rtc_refl|exact E].
Defined.
