(* ===== verification/SignalTime.v ===== *)
(** * Stored timestamps

    The signal inbox (internal/orchestrator/signal_store.go) stores every
    timestamp as text in a fixed-width layout and lets SQLite compare and sort
    the text.  An instant is a number of nanoseconds since the Unix epoch
    here; [formatSignalTime] writes it as Go's [Time.UTC().Format] does with
    [signalTimeLayout].

    Shown below: on the years 0 to 9999 the order of the texts is the order of
    the instants, and [strict_parse], the RFC 3339 reader [time.Parse] starts
    with, reads back exactly the instants of those years. *)
From S2P Require Import Prelude.
Open Scope Z_scope.

(** ** The Gregorian calendar

    Years are counted from March, so that a leap day ends its year. *)
Definition march_year (z : Z) : Z * Z :=
  let era := z / 146097 in
  let doe := z mod 146097 in
  let c := Z.min (doe / 36524) 3 in
  let r1 := doe - 36524 * c in
  let q := r1 / 1461 in
  let r2 := r1 - 1461 * q in
  let a := Z.min (r2 / 365) 3 in
  (400 * era + 100 * c + 4 * q + a, r2 - 365 * a).

Definition civil_of_days (days : Z) : Z * Z * Z :=
  let '(y, doy) := march_year (days + 719468) in
  let mp := (5 * doy + 2) / 153 in
  let d := doy - (153 * mp + 2) / 5 + 1 in
  if mp <? 10 then (y, mp + 3, d) else (y + 1, mp - 9, d).

Definition days_of_civil (y m d : Z) : Z :=
  let mp := if m <? 3 then m + 9 else m - 3 in
  let ym := if m <? 3 then y - 1 else y in
  let yoe := ym mod 400 in
  146097 * (ym / 400) + 365 * yoe + yoe / 4 - yoe / 100 + (153 * mp + 2) / 5 + d - 1 - 719468.

Definition leap (y : Z) : bool :=
  (y mod 4 =? 0) && (negb (y mod 100 =? 0) || (y mod 400 =? 0)).
Definition days_in (y m : Z) : Z :=
  if m =? 2 then (if leap y then 29 else 28)
  else if (m =? 4) || (m =? 6) || (m =? 9) || (m =? 11) then 30 else 31.

(** ** Decimal text *)
Definition digit (d : Z) : ascii := ascii_of_nat (48 + Z.to_nat d).

Fixpoint digits (w : nat) (n : Z) : string :=
  match w with
  | O => ""
  | S w => digits w (n / 10) +:+ String (digit (n mod 10)) ""
  end.

Fixpoint ndigits (fuel : nat) (n : Z) : nat :=
  match fuel with
  | O => 1
  | S fuel => if n <? 10 then 1 else S (ndigits fuel (n / 10))
  end.

(** A year has at least four digits and a sign when negative.  Twenty digits
    are more than the years of a Go [time.Time] need. *)
Definition year_text (y : Z) : string :=
  (if y <? 0 then "-" else "") +:+ digits (Nat.max 4 (ndigits 20 (Z.abs y))) (Z.abs y).

Definition second : Z := 1000000000.
Definition day : Z := 86400 * second.

(** [formatSignalTime] of signal_store.go. *)
Definition formatSignalTime (t : Z) : string :=
  let '(y, m, d) := civil_of_days (t / day) in
  let ns := t mod day in
  let s := ns / second in
  year_text y +:+ "-" +:+ digits 2 m +:+ "-" +:+ digits 2 d +:+ "T"
  +:+ digits 2 (s / 3600) +:+ ":" +:+ digits 2 (s / 60 mod 60) +:+ ":" +:+ digits 2 (s mod 60)
  +:+ "." +:+ digits 9 (ns mod second) +:+ "Z".

Definition year_of (t : Z) : Z := (civil_of_days (t / day)).1.1.

(** The instants whose text has a four-digit year. *)
Definition readable (t : Z) : bool := (0 <=? year_of t) && (year_of t <? 10000).

(** ** Reading RFC 3339 *)
Definition digit_value (c : ascii) : option Z :=
  let n := nat_of_ascii c in
  if ((48 <=? n) && (n <=? 57))%nat then Some (Z.of_nat n - 48) else None.

(** Exactly [w] digits. *)
Fixpoint take_num (w : nat) (acc : Z) (s : string) : option (Z * string) :=
  match w, s with
  | O, _ => Some (acc, s)
  | S w, String c s => d ← digit_value c; take_num w (10 * acc + d) s
  | S _, EmptyString => None
  end.

Definition expect (c : ascii) (s : string) : option string :=
  match s with
  | String c' s => if bool_decide (c' = c) then Some s else None
  | EmptyString => None
  end.

(** The digits of a fraction, the first [w] of which count. *)
Fixpoint take_frac (w : nat) (acc : Z) (s : string) : Z * string :=
  match s with
  | String c s' =>
      match digit_value c with
      | Some d => match w with
                  | O => take_frac O acc s'
                  | S w => take_frac w (10 * acc + d) s'
                  end
      | None => (acc * 10 ^ Z.of_nat w, s)
      end
  | EmptyString => (acc * 10 ^ Z.of_nat w, s)
  end.

Definition starts_digit (s : string) : bool :=
  match s with String c _ => bool_decide (is_Some (digit_value c)) | EmptyString => false end.

Definition parse_fraction (s : string) : Z * string :=
  match s with
  | String "." s' => if starts_digit s' then take_frac 9 0 s' else (0, s)
  | _ => (0, s)
  end.

(** "Z" or a signed hour and minute; the offset in seconds. *)
Definition parse_zone (s : string) : option Z :=
  match s with
  | String "Z" EmptyString => Some 0
  | String c s =>
      sign ← (if bool_decide (c = "+"%char) then Some 1
              else if bool_decide (c = "-"%char) then Some (-1) else None);
      '(h, s) ← take_num 2 0 s; s ← expect ":" s; '(m, s) ← take_num 2 0 s;
      if (h <=? 23) && (m <=? 59) && str_empty s then Some (sign * (3600 * h + 60 * m)) else None
  | EmptyString => None
  end.

Definition strict_parse (s : string) : option Z :=
  '(y, s) ← take_num 4 0 s; s ← expect "-" s;
  '(m, s) ← take_num 2 0 s; s ← expect "-" s;
  '(d, s) ← take_num 2 0 s; s ← expect "T" s;
  '(h, s) ← take_num 2 0 s; s ← expect ":" s;
  '(mi, s) ← take_num 2 0 s; s ← expect ":" s;
  '(se, s) ← take_num 2 0 s;
  let '(ns, s) := parse_fraction s in
  off ← parse_zone s;
  if (1 <=? m) && (m <=? 12) && (1 <=? d) && (d <=? days_in y m)
     && (h <=? 23) && (mi <=? 59) && (se <=? 59)
  then Some ((days_of_civil y m d * 86400 + 3600 * h + 60 * mi + se - off) * second + ns)
  else None.

Example format_epoch : formatSignalTime 0 = "1970-01-01T00:00:00.000000000Z".
Proof. reflexivity. Qed.
Example format_leap : formatSignalTime 951827696000000001 = "2000-02-29T12:34:56.000000001Z".
Proof. reflexivity. Qed.
Example parse_offset : strict_parse "1970-01-01T09:00:00.5+09:00" = Some 500000000.
Proof. vm_compute. reflexivity. Qed.
Example parse_beyond :
  (t ← strict_parse "9999-12-31T23:59:59-01:00"; Some (formatSignalTime t)) = Some "10000-01-01T00:59:59.000000000Z".
Proof. vm_compute. reflexivity. Qed.

(** ** The calendar is monotone *)
Ltac zdiv := Z.div_mod_to_equations; lia.

(** The digits of a day count in the mixed radix of centuries, leap cycles and
    years. *)
Lemma march_year_digits z :
  ∃ era c q a doy, march_year z = (400 * era + 100 * c + 4 * q + a, doy) ∧
    z = 146097 * era + 36524 * c + 1461 * q + 365 * a + doy ∧
    0 ≤ c ≤ 3 ∧ 0 ≤ q ≤ 24 ∧ 0 ≤ a ≤ 3 ∧ 0 ≤ doy ≤ 365 ∧
    (doy = 365 → a = 3 ∧ (q = 24 → c = 3)) ∧
    1461 * q + 365 * a + doy ≤ 36524.
Proof.
  unfold march_year. eexists _, _, _, _, _. split; [done|].
  set (era := z / 146097). set (doe := z mod 146097).
  assert (z = 146097 * era + doe ∧ 0 ≤ doe < 146097) as [Hz Hdoe] by (unfold era, doe; zdiv).
  set (c := Z.min (doe / 36524) 3).
  assert (0 ≤ c ≤ 3 ∧ 0 ≤ doe - 36524 * c ≤ 36524 ∧ (doe - 36524 * c = 36524 → c = 3)) as (Hc & Hr1 & Hlast)
    by (unfold c; zdiv).
  set (r1 := doe - 36524 * c) in *. set (q := r1 / 1461).
  assert (0 ≤ q ≤ 24 ∧ 0 ≤ r1 - 1461 * q < 1461) as [Hq Hr2] by (unfold q; zdiv).
  set (r2 := r1 - 1461 * q) in *. set (a := Z.min (r2 / 365) 3).
  assert (0 ≤ a ≤ 3 ∧ 0 ≤ r2 - 365 * a ≤ 365 ∧ (r2 - 365 * a = 365 → a = 3)) as (Ha & Hd & Hd') by (unfold a; zdiv).
  split_and!; lia.
Qed.

Definition lex2 (a b : Z * Z) : Prop := a.1 < b.1 ∨ (a.1 = b.1 ∧ a.2 < b.2).
Definition lex3 (a b : Z * Z * Z) : Prop := lex2 a.1 b.1 ∨ (a.1 = b.1 ∧ a.2 < b.2).

Lemma march_year_mono z1 z2 : z1 < z2 → lex2 (march_year z1) (march_year z2).
Proof.
  intros Hlt.
  destruct (march_year_digits z1) as (e1 & c1 & q1 & a1 & d1 & -> & Hz1 & ? & ? & ? & ? & Hl1 & ?).
  destruct (march_year_digits z2) as (e2 & c2 & q2 & a2 & d2 & -> & Hz2 & ? & ? & ? & ? & Hl2 & ?).
  unfold lex2. simpl.
  assert (e1 ≤ e2) by lia. destruct (Z.eq_dec e1 e2) as [->|]; [|left; lia].
  assert (c1 ≤ c2) by lia. destruct (Z.eq_dec c1 c2) as [->|]; [|left; lia].
  assert (q1 ≤ q2) by lia. destruct (Z.eq_dec q1 q2) as [->|]; [|left; lia].
  assert (a1 ≤ a2) by lia. destruct (Z.eq_dec a1 a2) as [->|]; [|left; lia].
  right. lia.
Qed.

Lemma civil_of_days_mono z1 z2 : z1 < z2 → lex3 (civil_of_days z1) (civil_of_days z2).
Proof.
  intros Hlt. unfold civil_of_days.
  pose proof (march_year_mono (z1 + 719468) (z2 + 719468) ltac:(lia)) as Hm.
  destruct (march_year_digits (z1 + 719468)) as (e1 & c1 & q1 & a1 & d1 & H1 & _ & _ & _ & _ & Hd1 & _).
  destruct (march_year_digits (z2 + 719468)) as (e2 & c2 & q2 & a2 & d2 & H2 & _ & _ & _ & _ & Hd2 & _).
  rewrite H1, H2 in *. set (y1 := 400 * e1 + _ + _ + a1) in *. set (y2 := 400 * e2 + _ + _ + a2) in *.
  clearbody y1 y2. unfold lex2 in Hm. simpl in Hm.
  assert (0 ≤ (5 * d1 + 2) / 153 ≤ 11 ∧ 0 ≤ (5 * d2 + 2) / 153 ≤ 11) as [? ?] by zdiv.
  assert (d1 < d2 → (5 * d1 + 2) / 153 < (5 * d2 + 2) / 153 ∨
    ((5 * d1 + 2) / 153 = (5 * d2 + 2) / 153)) as Hmp by zdiv.
  unfold lex3, lex2.
  destruct (Z.ltb_spec ((5 * d1 + 2) / 153) 10), (Z.ltb_spec ((5 * d2 + 2) / 153) 10); simpl;
    destruct Hm as [Hy|[<- Hd]]; try lia;
    destruct (Hmp Hd) as [|E]; try lia; right; split; try (f_equal; lia); rewrite E; lia.
Qed.

(** What [civil_of_days] returns is a date, and [days_of_civil] inverts it. *)
Lemma civil_of_days_valid z :
  let '(y, m, d) := civil_of_days z in
  1 ≤ m ≤ 12 ∧ 1 ≤ d ≤ days_in y m ∧ days_of_civil y m d = z.
Proof.
  unfold civil_of_days.
  destruct (march_year_digits (z + 719468)) as (e & c & q & a & doy & -> & Hz & Hc & Hq & Ha & Hd & Hleap & _).
  set (mp := (5 * doy + 2) / 153).
  assert (0 ≤ mp ≤ 11 ∧ (153 * mp + 2) / 5 ≤ doy < (153 * (mp + 1) + 2) / 5) as [Hmp Hdoy] by (unfold mp; zdiv).
  clearbody mp.
  assert (days_of_civil (if mp <? 10 then 400 * e + 100 * c + 4 * q + a else 400 * e + 100 * c + 4 * q + a + 1)
    (if mp <? 10 then mp + 3 else mp - 9) (doy - (153 * mp + 2) / 5 + 1) = z) as Hinv.
  { unfold days_of_civil.
    assert ((400 * e + 100 * c + 4 * q + a) / 400 = e ∧
            (400 * e + 100 * c + 4 * q + a) mod 400 = 100 * c + 4 * q + a ∧
            (100 * c + 4 * q + a) / 4 = 25 * c + q ∧ (100 * c + 4 * q + a) / 100 = c) as (E1 & E2 & E3 & E4) by zdiv.
    destruct (Z.ltb_spec mp 10).
    - replace (mp + 3 <? 3) with false by lia. rewrite E1, E2, E3, E4.
      replace (mp + 3 - 3) with mp by lia. lia.
    - replace (mp - 9 <? 3) with true by lia.
      replace (400 * e + 100 * c + 4 * q + a + 1 - 1) with (400 * e + 100 * c + 4 * q + a) by lia.
      rewrite E1, E2, E3, E4. replace (mp - 9 + 9) with mp by lia. lia. }
  destruct (Z.ltb_spec mp 10) as [Hlt|Hge]; (split_and!; [lia|lia|lia| |exact Hinv]); clear Hinv Hz.
  - unfold days_in.
    assert (mp = 0 ∨ mp = 1 ∨ mp = 2 ∨ mp = 3 ∨ mp = 4 ∨ mp = 5 ∨ mp = 6 ∨ mp = 7 ∨ mp = 8 ∨ mp = 9) as Hm by lia.
    repeat destruct Hm as [->|Hm]; [..|subst mp]; vm_compute (_ =? _); simpl; zdiv.
  - assert (mp = 10 ∨ mp = 11) as [-> | ->] by lia; [vm_compute (10 - 9); simpl; unfold days_in; simpl; zdiv|].
    unfold days_in. simpl. unfold leap.
    destruct (Z.eq_dec doy 365) as [->|]; [|destruct (_ && _); zdiv].
    destruct Hleap as [-> Hcent]; [done|].
    assert ((400 * e + 100 * c + 4 * q + 3 + 1) mod 4 = 0) as -> by zdiv. simpl.
    destruct (Z.eqb_spec ((400 * e + 100 * c + 4 * q + 3 + 1) mod 100) 0) as [H100|]; simpl; [|zdiv].
    assert (q = 24) as -> by zdiv. rewrite Hcent by done.
    assert ((400 * e + 100 * 3 + 4 * 24 + 3 + 1) mod 400 = 0) as -> by zdiv. simpl. zdiv.
Qed.

(** ** Fixed-width text compares like the number it writes *)
Lemma nat_of_digit d : 0 ≤ d < 10 → nat_of_ascii (digit d) = (48 + Z.to_nat d)%nat.
Proof. intros Hd. unfold digit. apply nat_ascii_embedding. lia. Qed.

Lemma digit_compare a b : 0 ≤ a < 10 → 0 ≤ b < 10 → Ascii.compare (digit a) (digit b) = (a ?= b).
Proof.
  intros Ha Hb. unfold Ascii.compare.
  assert (∀ d, 0 ≤ d < 10 → N_of_ascii (digit d) = Z.to_N (48 + d)) as E.
  { intros d Hd. pose proof (nat_of_digit d Hd) as H. unfold nat_of_ascii in H. lia. }
  rewrite !E by done. rewrite (Z2N.inj_compare (48 + a) (48 + b)) by lia.
  destruct (Z.compare_spec a b), (Z.compare_spec (48 + a) (48 + b)); (done || lia).
Qed.

Lemma digits_compare w a b x y :
  0 ≤ a < 10 ^ Z.of_nat w → 0 ≤ b < 10 ^ Z.of_nat w →
  String.compare (digits w a +:+ x) (digits w b +:+ y) =
    match a ?= b with Eq => String.compare x y | c => c end.
Proof.
  revert a b x y. induction w as [|w IH]; intros a b x y Ha Hb.
  { simpl in Ha, Hb. assert (a = 0) as -> by lia. assert (b = 0) as -> by lia. reflexivity. }
  rewrite Nat2Z.inj_succ, Z.pow_succ_r in Ha, Hb by lia. simpl. rewrite !string_app_assoc.
  rewrite IH by zdiv.
  change (String (digit (a mod 10)) "" +:+ x) with (String (digit (a mod 10)) x).
  change (String (digit (b mod 10)) "" +:+ y) with (String (digit (b mod 10)) y).
  cbn [String.compare].
  rewrite digit_compare by (apply Z.mod_pos_bound; lia).
  destruct (Z.compare_spec (a / 10) (b / 10)), (Z.compare_spec (a mod 10) (b mod 10)),
    (Z.compare_spec a b); try done; zdiv.
Qed.

(** A separator after a field passes the comparison on. *)
Lemma sep_compare c x y : String.compare (String c "" +:+ x) (String c "" +:+ y) = String.compare x y.
Proof.
  change (String c "" +:+ x) with (String c x). change (String c "" +:+ y) with (String c y).
  cbn [String.compare]. unfold Ascii.compare. by rewrite N.compare_refl.
Qed.

Lemma year_text_4 y : 0 ≤ y < 10000 → year_text y = digits 4 y.
Proof.
  intros Hy. unfold year_text. replace (y <? 0) with false by lia.
  change ("" +:+ ?s) with s. rewrite Z.abs_eq by lia. f_equal.
  cbn [ndigits]. repeat (case_match; [done|]). zdiv.
Qed.

(** The numeric fields of an instant, most significant first. *)
Definition fields (t : Z) : Z * Z * Z * Z * Z * Z * Z :=
  let ns := t mod day in
  let s := ns / second in
  (civil_of_days (t / day), s / 3600, s / 60 mod 60, s mod 60, ns mod second).

Lemma fields_bounds t :
  let '(y, m, d, h, mi, s, ns) := fields t in
  y = year_of t ∧ 1 ≤ m ≤ 12 ∧ 1 ≤ d ≤ 31 ∧ d ≤ days_in y m ∧ 0 ≤ h ≤ 23 ∧ 0 ≤ mi ≤ 59 ∧ 0 ≤ s ≤ 59 ∧ 0 ≤ ns < second ∧
  t = (days_of_civil y m d * 86400 + 3600 * h + 60 * mi + s) * second + ns.
Proof.
  unfold fields, year_of. pose proof (civil_of_days_valid (t / day)) as Hv.
  destruct (civil_of_days (t / day)) as [[y m] d]. simpl. destruct Hv as (Hm & Hd & ->).
  assert (days_in y m ≤ 31) by (unfold days_in; repeat case_match; lia).
  unfold day, second in *. split_and!; zdiv.
Qed.

Lemma format_fields t :
  formatSignalTime t =
    let '(y, m, d, h, mi, s, ns) := fields t in
    year_text y +:+ "-" +:+ digits 2 m +:+ "-" +:+ digits 2 d +:+ "T" +:+ digits 2 h +:+ ":" +:+ digits 2 mi
    +:+ ":" +:+ digits 2 s +:+ "." +:+ digits 9 ns +:+ "Z".
Proof. unfold formatSignalTime, fields. by destruct (civil_of_days (t / day)) as [[y m] d]. Qed.

(** ** The order of the texts *)
Definition then_by (c1 c2 : comparison) : comparison := match c1 with Eq => c2 | c => c end.

Lemma format_compare t1 t2 :
  readable t1 = true → readable t2 = true →
  String.compare (formatSignalTime t1) (formatSignalTime t2) =
    let '(y1, m1, d1, h1, mi1, s1, n1) := fields t1 in
    let '(y2, m2, d2, h2, mi2, s2, n2) := fields t2 in
    then_by (y1 ?= y2) (then_by (m1 ?= m2) (then_by (d1 ?= d2) (then_by (h1 ?= h2)
      (then_by (mi1 ?= mi2) (then_by (s1 ?= s2) (n1 ?= n2)))))).
Proof.
  intros Hr1 Hr2. rewrite !format_fields.
  pose proof (fields_bounds t1) as H1. pose proof (fields_bounds t2) as H2.
  destruct (fields t1) as [[[[[[y1 m1] d1] h1] i1] s1] n1], (fields t2) as [[[[[[y2 m2] d2] h2] i2] s2] n2].
  destruct H1 as (-> & H1), H2 as (-> & H2). unfold readable in Hr1, Hr2.
  apply andb_true_iff in Hr1, Hr2. rewrite !year_text_4 by lia. unfold second in *.
  rewrite !digits_compare by (simpl; lia).
  rewrite !sep_compare. rewrite !digits_compare by (simpl; lia).
  rewrite !sep_compare. rewrite !digits_compare by (simpl; lia).
  rewrite !sep_compare. rewrite !digits_compare by (simpl; lia).
  rewrite !sep_compare. rewrite !digits_compare by (simpl; lia).
  rewrite !sep_compare. rewrite !digits_compare by (simpl; lia).
  rewrite !sep_compare. rewrite !digits_compare by (simpl; lia).
  unfold then_by. repeat (case_match; try done).
Qed.

Lemma format_lt t1 t2 :
  readable t1 = true → readable t2 = true → t1 < t2 →
  String.compare (formatSignalTime t1) (formatSignalTime t2) = Lt.
Proof.
  intros Hr1 Hr2 Hlt. rewrite format_compare by done. unfold fields.
  assert (t1 / day ≤ t2 / day) as Hday by (apply Z.div_le_mono; [done|lia]).
  destruct (Z.eq_dec (t1 / day) (t2 / day)) as [E|Hne].
  - rewrite E. destruct (civil_of_days (t2 / day)) as [[y m] d]. rewrite !Z.compare_refl. cbn [then_by].
    assert (t1 mod day < t2 mod day) as Hns by (unfold day, second in *; zdiv).
    set (a := t1 mod day) in *. set (b := t2 mod day) in *.
    assert (0 ≤ a < day ∧ 0 ≤ b < day) as [Ha Hb] by (unfold a, b, day, second; zdiv). clearbody a b. clear E Hday.
    unfold then_by, day, second in *.
    destruct (Z.compare_spec (a / 1000000000 / 3600) (b / 1000000000 / 3600)) as [?| |?]; [|done|zdiv].
    destruct (Z.compare_spec (a / 1000000000 / 60 mod 60) (b / 1000000000 / 60 mod 60)) as [?| |?]; [|done|zdiv].
    destruct (Z.compare_spec ((a / 1000000000) mod 60) ((b / 1000000000) mod 60)) as [?| |?]; [|done|zdiv].
    destruct (Z.compare_spec (a mod 1000000000) (b mod 1000000000)) as [?| |?]; [zdiv|done|zdiv].
  - pose proof (civil_of_days_mono (t1 / day) (t2 / day) ltac:(lia)) as Hc.
    destruct (civil_of_days (t1 / day)) as [[y1 m1] d1], (civil_of_days (t2 / day)) as [[y2 m2] d2].
    unfold lex3, lex2 in Hc. simpl in Hc. unfold then_by.
    destruct Hc as [[Hy|[-> Hm]]|[[= -> ->] Hd]]; rewrite ?Z.compare_refl.
    + by rewrite (proj2 (Z.compare_lt_iff _ _) Hy).
    + by rewrite (proj2 (Z.compare_lt_iff _ _) Hm).
    + by rewrite (proj2 (Z.compare_lt_iff _ _) Hd).
Qed.

(** The texts of readable instants sort as the instants do. *)
Lemma format_order t1 t2 :
  readable t1 = true → readable t2 = true →
  String.compare (formatSignalTime t1) (formatSignalTime t2) = (t1 ?= t2).
Proof.
  intros H1 H2. destruct (Z.compare_spec t1 t2) as [->|Hlt|Hgt].
  - destruct (String.compare _ _) eqn:E; [done|..];
      rewrite String.compare_antisym in E; rewrite format_compare in E by done;
      destruct (fields t2) as [[[[[[? ?] ?] ?] ?] ?] ?]; rewrite !Z.compare_refl in E; done.
  - by apply format_lt.
  - rewrite String.compare_antisym, format_lt by done. done.
Qed.

(** ** Reading a stored text back *)
Lemma digit_value_digit d : 0 ≤ d < 10 → digit_value (digit d) = Some d.
Proof.
  intros Hd. unfold digit_value. rewrite nat_of_digit by done.
  replace ((48 <=? 48 + Z.to_nat d)%nat && (48 + Z.to_nat d <=? 57)%nat) with true; [f_equal; lia|].
  symmetry. apply andb_true_iff. split; apply Nat.leb_le; lia.
Qed.

Lemma digits_S_app w n s : digits (S w) n +:+ s = digits w (n / 10) +:+ String (digit (n mod 10)) s.
Proof. cbn [digits]. rewrite string_app_assoc. done. Qed.

Lemma pow_10_succ w : 10 ^ Z.of_nat (S w) = 10 * 10 ^ Z.of_nat w.
Proof. rewrite Nat2Z.inj_succ. by rewrite Z.pow_succ_r by lia. Qed.

(** The value of the text of [n], which has its last [w] digits. *)
Lemma digits_value_step acc w n :
  10 * (acc * 10 ^ Z.of_nat w + (n / 10) mod 10 ^ Z.of_nat w) + n mod 10 =
  acc * 10 ^ Z.of_nat (S w) + n mod 10 ^ Z.of_nat (S w).
Proof.
  rewrite pow_10_succ. set (p := 10 ^ Z.of_nat w). assert (0 < p) by (unfold p; lia).
  rewrite (Z.rem_mul_r n 10 p) by lia. lia.
Qed.

Lemma take_num_digits w k acc n s :
  take_num (w + k) acc (digits w n +:+ s) = take_num k (acc * 10 ^ Z.of_nat w + n mod 10 ^ Z.of_nat w) s.
Proof.
  revert k n s. induction w as [|w IH]; intros k n s.
  - change (10 ^ Z.of_nat 0) with 1. rewrite Z.mod_1_r. change ("" +:+ s) with s. f_equal. lia.
  - rewrite digits_S_app. replace (S w + k)%nat with (w + S k)%nat by lia. rewrite IH. cbn [take_num].
    rewrite digit_value_digit by (apply Z.mod_pos_bound; lia). cbn [mbind option_bind].
    by rewrite digits_value_step.
Qed.

Lemma take_frac_digits w k acc n s :
  take_frac (w + k) acc (digits w n +:+ s) = take_frac k (acc * 10 ^ Z.of_nat w + n mod 10 ^ Z.of_nat w) s.
Proof.
  revert k n s. induction w as [|w IH]; intros k n s.
  - change (10 ^ Z.of_nat 0) with 1. rewrite Z.mod_1_r. change ("" +:+ s) with s. f_equal. lia.
  - rewrite digits_S_app. replace (S w + k)%nat with (w + S k)%nat by lia. rewrite IH. cbn [take_frac].
    rewrite digit_value_digit by (apply Z.mod_pos_bound; lia).
    by rewrite digits_value_step.
Qed.

Lemma take_num_field w n s :
  0 ≤ n < 10 ^ Z.of_nat w → take_num w 0 (digits w n +:+ s) = Some (n, s).
Proof.
  intros Hn. pose proof (take_num_digits w 0 0 n s) as H. rewrite Nat.add_0_r in H. rewrite H. cbn [take_num].
  rewrite Z.mod_small by done. done.
Qed.

Lemma digits_start w n s : starts_digit (digits (S w) n +:+ s) = true.
Proof.
  revert n s. induction w as [|w IH]; intros n s; rewrite digits_S_app; [|apply IH].
  change (digits 0 (n / 10) +:+ ?x) with x. unfold starts_digit.
  rewrite digit_value_digit by (apply Z.mod_pos_bound; lia). by apply bool_decide_eq_true.
Qed.

Lemma digits_split a b n : digits (a + b) n = digits a (n / 10 ^ Z.of_nat b) +:+ digits b n.
Proof.
  revert n. induction b as [|b IH]; intros n.
  - rewrite Nat.add_0_r. change (10 ^ Z.of_nat 0) with 1. rewrite Z.div_1_r.
    generalize (digits a n). intros s. induction s as [|c s IHs]; [done|].
    change (String c s +:+ digits 0 n) with (String c (s +:+ digits 0 n)). by rewrite <- IHs.
  - replace (a + S b)%nat with (S (a + b)) by lia. cbn [digits]. rewrite IH, string_app_assoc.
    rewrite pow_10_succ, Z.div_div by lia. done.
Qed.

Lemma parse_fraction_field n s :
  0 ≤ n < second → starts_digit s = false → parse_fraction ("." +:+ (digits 9 n +:+ s)) = (n, s).
Proof.
  intros Hn Hs. change ("." +:+ ?x) with (String "." x). unfold parse_fraction. rewrite digits_start.
  pose proof (take_frac_digits 9 0 0 n s) as H. rewrite Nat.add_0_r in H. rewrite H.
  rewrite Z.mod_small by done. change (0 * _ + n) with n. destruct s as [|c s]; cbn [take_frac]; [f_equal; lia|].
  unfold starts_digit in Hs. destruct (digit_value c); [by apply bool_decide_eq_false in Hs; destruct Hs; eauto|].
  f_equal. lia.
Qed.

Lemma expect_sep c s : expect c (String c "" +:+ s) = Some s.
Proof. change (String c "" +:+ s) with (String c s). unfold expect. by rewrite bool_decide_eq_true_2. Qed.

Lemma strict_parse_readable t : readable t = true → strict_parse (formatSignalTime t) = Some t.
Proof.
  intros Hr. rewrite format_fields. pose proof (fields_bounds t) as H.
  destruct (fields t) as [[[[[[y m] d] h] i] s] n]. destruct H as (-> & Hm & Hd & Hdm & Hh & Hi & Hs & Hn & Ht).
  unfold readable in Hr. apply andb_true_iff in Hr as [Hy1 Hy2].
  set (y := year_of t) in *. clearbody y. rewrite year_text_4 by lia. unfold strict_parse.
  do 6 (rewrite take_num_field by (change (10 ^ Z.of_nat 4) with 10000; change (10 ^ Z.of_nat 2) with 100; lia); cbn [mbind option_bind]; try (rewrite expect_sep; cbn [mbind option_bind])).
  rewrite parse_fraction_field by done. cbn [parse_zone mbind option_bind].
  replace ((1 <=? m) && (m <=? 12) && (1 <=? d) && (d <=? days_in y m)
    && (h <=? 23) && (i <=? 59) && (s <=? 59)) with true by (symmetry; rewrite !andb_true_iff; lia).
  f_equal. lia.
Qed.

Lemma year_text_unreadable y s :
  ¬ (0 ≤ y < 10000) → ('(_, r) ← take_num 4 0 (year_text y +:+ s); expect "-" r) = None.
Proof.
  intros Hy. unfold year_text. destruct (Z.ltb_spec y 0) as [Hneg|Hpos]; [done|].
  change ("" +:+ ?x) with x. rewrite Z.abs_eq by lia.
  assert (∃ j, Nat.max 4 (ndigits 20 y) = (4 + S j)%nat) as [j ->].
  { exists (Nat.max 4 (ndigits 20 y) - 5)%nat.
    assert (5 ≤ ndigits 20 y)%nat; [|lia]. cbn [ndigits].
    do 4 (case_match; [exfalso; zdiv|apply le_n_S]). case_match; lia. }
  rewrite digits_split, string_app_assoc.
  pose proof (take_num_digits 4 0 0 (y / 10 ^ Z.of_nat (S j)) (digits (S j) y +:+ s)) as E. rewrite Nat.add_0_r in E.
  rewrite E. cbn [take_num mbind option_bind].
  pose proof (digits_start j y s) as Hd. destruct (digits (S j) y +:+ s) as [|c r]; [done|].
  unfold expect. case_bool_decide as Hc; [|done]. subst c. by apply bool_decide_eq_true in Hd as [? ?].
Qed.

(** What [strict_parse] makes of a stored text. *)
Lemma strict_parse_format t :
  strict_parse (formatSignalTime t) = if readable t then Some t else None.
Proof.
  destruct (readable t) eqn:Hr; [by apply strict_parse_readable|].
  rewrite format_fields. pose proof (fields_bounds t) as H.
  destruct (fields t) as [[[[[[y m] d] h] i] s] n]. destruct H as (-> & _).
  unfold strict_parse. pose proof (year_text_unreadable (year_of t)) as E.
  specialize (E ("-" +:+ digits 2 m +:+ "-" +:+ digits 2 d +:+ "T" +:+ digits 2 h +:+ ":" +:+ digits 2 i
    +:+ ":" +:+ digits 2 s +:+ "." +:+ digits 9 n +:+ "Z")).
  destruct (take_num 4 0 _) as [[v r]|]; cbn [mbind option_bind] in E |- *; [|done].
  rewrite E; [done|]. unfold readable in Hr. apply andb_false_iff in Hr. lia.
Qed.

(** ** What the inbox relies on

    [time.Parse] with the RFC 3339 layout, as far as stored texts go: it reads
    back what [formatSignalTime] wrote for a four-digit year and refuses any
    other year. *)
Class TimeParser : Type := {
  parseSignalTime : string → option Z;
  parse_format t : parseSignalTime (formatSignalTime t) = if readable t then Some t else None;
}.

#[local] Instance strict_parser : TimeParser :=
  {| parseSignalTime := strict_parse; parse_format := strict_parse_format |}.

Section order.
Context `{TimeParser}.

Lemma format_inj t1 t2 : readable t1 = true → formatSignalTime t1 = formatSignalTime t2 → t1 = t2.
Proof.
  intros Hr E. pose proof (parse_format t1) as H1. rewrite E, (parse_format t2), Hr in H1.
  destruct (readable t2); congruence.
Qed.
End order.

Lemma format_le t1 t2 :
  readable t1 = true → readable t2 = true →
  String.le (formatSignalTime t1) (formatSignalTime t2) ↔ t1 ≤ t2.
Proof.
  intros H1 H2. unfold String.le, String.leb. rewrite format_order by done.
  destruct (Z.compare_spec t1 t2); split; try done; lia.
Qed.

(** Stored timestamps sort as the instants they stand for: for two instants
    of the years 0 to 9999, comparing their texts byte by byte, as the
    database does, is comparing the instants, and each text reads back as the
    instant it was written for, to the nanosecond. *)
Theorem stored_times_sort `{TimeParser} t1 t2 :
  readable t1 = true → readable t2 = true →
  String.compare (formatSignalTime t1) (formatSignalTime t2) = (t1 ?= t2) ∧
  parseSignalTime (formatSignalTime t1) = Some t1.
Proof. intros H1 H2. split; [by apply format_order|]. by rewrite parse_format, H1. Qed.

Lemma stored_times_sort_witness :
  String.compare (formatSignalTime 951827696000000001) (formatSignalTime 951827696000000010) = Lt ∧
  strict_parse (formatSignalTime 951827696000000001) = Some 951827696000000001.
Proof. apply (stored_times_sort (H := strict_parser) 951827696000000001 951827696000000010); vm_compute; reflexivity. Defined.
