(* ===== verification/Signals.v ===== *)
(** * The signal inbox

    Models internal/orchestrator/signal_store.go with the schema of migration
    0046 and the transactional wrappers of repository.go: connectors ingest
    signals into the inbox, consumers claim and acknowledge them, and a garbage
    collector removes the ones that are settled.  A signal is identified by
    its workspace, service, connector and id; each source (workspace, service,
    connector) has a cursor, the latest time it has reported.

    Timestamps are stored as text and compared by SQLite as text
    ([SignalTime]).  The size of a row's JSON encoding is a parameter, used
    only for the size limit. *)
From S2P Require Import Prelude Store SignalTime.
Open Scope Z_scope.

Definition MaxSignalAttempts : Z := 5.
Definition DefaultSignalListLimit : Z := 200.
Definition MaxSignalListLimit : Z := 1000.

Definition ClampSignalListLimit (requested : Z) : Z :=
  if requested <=? 0 then DefaultSignalListLimit
  else if MaxSignalListLimit <? requested then MaxSignalListLimit
  else requested.

Definition resolveMaxAttempts (maxAttempts : Z) : Z :=
  if maxAttempts <=? 0 then MaxSignalAttempts else maxAttempts.

(** ** Tables *)
Record SourceKey : Type := { KWorkspace : string; KService : string; KConnector : string }.
#[export] Instance SourceKey_eq_dec : EqDecision SourceKey.
Proof. solve_decision. Defined.
#[export] Instance SourceKey_countable : Countable SourceKey.
Proof.
  apply (inj_countable' (λ k, (KWorkspace k, KService k, KConnector k))
    (λ t, {| KWorkspace := t.1.1; KService := t.1.2; KConnector := t.2 |})).
  by intros [].
Defined.

Record SigKey : Type := { KSource : SourceKey; KID : string }.
#[export] Instance SigKey_eq_dec : EqDecision SigKey.
Proof. solve_decision. Defined.
#[export] Instance SigKey_countable : Countable SigKey.
Proof.
  apply (inj_countable' (λ k, (KSource k, KID k)) (λ t, {| KSource := t.1; KID := t.2 |})).
  by intros [].
Defined.

(** A row of the signals table, its primary key apart. *)
Record SignalRow : Type := {
  SOccurred : string;
  SIdentity : string;
  SURL : string;
  SAuthor : string;
  STitle : string;
  SReceived : string;
  SAttempts : Z;
  SAcked : option string;
}.

Record CursorRow : Type := { CCursor : string; CUpdatedAt : string }.

Record SDB : Type := {
  signals : gmap SigKey SignalRow;
  cursors : gmap SourceKey CursorRow;
  sclock : Z;
}.

Inductive signal_err : Type :=
| ErrSignalArgument (what : string)
| ErrSignalTime (id : string)
| ErrSignalSize (id : string)
| ErrSignalStored (what : string)
| ErrUnknownState (state : string)
| ErrUnknownSignals (ids : list string).

Abbreviation sigm := (dbm SDB signal_err).

Definition set_signals (s : SDB) (t : gmap SigKey SignalRow) : SDB :=
  {| signals := t; cursors := cursors s; sclock := sclock s |}.
Definition set_cursors (s : SDB) (t : gmap SourceKey CursorRow) : SDB :=
  {| signals := signals s; cursors := t; sclock := sclock s |}.
Definition set_clock (s : SDB) (now : Z) : SDB :=
  {| signals := signals s; cursors := cursors s; sclock := now |}.

(** [UPDATE signals SET f WHERE p] and [DELETE FROM signals WHERE p], with
    their RowsAffected. *)
Definition update_signals (p : SigKey → SignalRow → bool) (f : SignalRow → SignalRow) : sigm unit :=
  modify (λ s, set_signals s (map_imap (λ k r, Some (if p k r then f r else r)) (signals s))).
Definition count_signals (p : SignalRow → bool) (s : SDB) : nat :=
  size (filter (λ kr, p kr.2 = true) (signals s)).
Definition delete_signals (p : SignalRow → bool) : sigm nat :=
  n ← gets (count_signals p);
  _ ← modify (λ s, set_signals s (filter (λ kr, p kr.2 = false) (signals s)));
  mret n.

Definition charge (r : SignalRow) : SignalRow :=
  {| SOccurred := SOccurred r; SIdentity := SIdentity r; SURL := SURL r; SAuthor := SAuthor r;
     STitle := STitle r; SReceived := SReceived r; SAttempts := SAttempts r + 1; SAcked := SAcked r |}.
Definition set_acked (at_ : string) (r : SignalRow) : SignalRow :=
  {| SOccurred := SOccurred r; SIdentity := SIdentity r; SURL := SURL r; SAuthor := SAuthor r;
     STitle := STitle r; SReceived := SReceived r; SAttempts := SAttempts r; SAcked := Some at_ |}.

Definition acked (r : SignalRow) : bool := bool_decide (is_Some (SAcked r)).
Definition pending (maxAttempts : Z) (r : SignalRow) : bool := negb (acked r) && (SAttempts r <? maxAttempts).
Definition dead (maxAttempts : Z) (r : SignalRow) : bool := negb (acked r) && (maxAttempts <=? SAttempts r).

(** [ORDER BY occurred_at ASC, id ASC], on the stored texts.  Rows that agree
    on both come in no particular order. *)
Definition sig_le (a b : SigKey * SignalRow) : Prop :=
  String.ltb (SOccurred a.2) (SOccurred b.2) = true ∨
  (SOccurred a.2 = SOccurred b.2 ∧ String.le (KID a.1) (KID b.1)).
#[export] Instance sig_le_dec : RelDecision sig_le.
Proof. intros a b. unfold sig_le. apply _. Defined.

Definition select_signals (p : SigKey → SignalRow → bool) (limit : Z) (s : SDB) : list (SigKey * SignalRow) :=
  take (Z.to_nat limit) (merge_sort sig_le (filter (λ kr, p kr.1 kr.2 = true) (map_to_list (signals s)))).

(** ** Rows as the API sees them *)
Record Signal : Type := {
  WorkspaceID : string;
  Service : string;
  Connector : string;
  SigID : string;
  OccurredAt : Z;
  Identity : string;
  URL : string;
  Author : string;
  SigTitle : string;
  ReceivedAt : Z;
  Attempts : Z;
  AckedAt : option Z;
}.

Record SignalIngestRow : Type := {
  IngID : string;
  IngOccurredAt : string;
  IngIdentity : string;
  IngURL : string;
  IngAuthor : string;
  IngTitle : string;
}.

Record SignalFilter : Type := {
  FWorkspaceID : string;
  FService : string;
  FConnector : string;
  FState : string;
  FLimit : Z;
  FMaxAttempts : Z;
}.

Section inbox.
Context `{TimeParser}.
(** [len(json.Marshal(row))]. *)
Context (encoded_len : SignalIngestRow → Z).

Definition scanSignalRow (kr : SigKey * SignalRow) : sigm Signal :=
  let '(k, r) := kr in
  match parseSignalTime (SOccurred r) with
  | None => throw (ErrSignalStored "occurred_at")
  | Some occurred =>
      match parseSignalTime (SReceived r) with
      | None => throw (ErrSignalStored "received_at")
      | Some received =>
          let signal at_ :=
            {| WorkspaceID := KWorkspace (KSource k); Service := KService (KSource k);
               Connector := KConnector (KSource k); SigID := KID k; OccurredAt := occurred;
               Identity := SIdentity r; URL := SURL r; Author := SAuthor r; SigTitle := STitle r;
               ReceivedAt := received; Attempts := SAttempts r; AckedAt := at_ |} in
          match SAcked r with
          | None => mret (signal None)
          | Some text =>
              match parseSignalTime text with
              | None => throw (ErrSignalStored "acked_at")
              | Some at_ => mret (signal (Some at_))
              end
          end
      end
  end.

Fixpoint scanSignals (rows : list (SigKey * SignalRow)) : sigm (list Signal) :=
  match rows with
  | [] => mret []
  | kr :: rows => sig ← scanSignalRow kr; rest ← scanSignals rows; mret (sig :: rest)
  end.

(** ** Ingest *)

(** [INSERT OR IGNORE]. *)
Definition insert_or_ignore (k : SigKey) (r : SignalRow) : sigm unit :=
  modify (λ s, if bool_decide (is_Some (signals s !! k)) then s
               else set_signals s (<[k := r]> (signals s))).

Definition ingested (row : SignalIngestRow) (occurred : Z) (receivedAt : string) : SignalRow :=
  {| SOccurred := formatSignalTime occurred; SIdentity := IngIdentity row; SURL := IngURL row;
     SAuthor := IngAuthor row; STitle := IngTitle row; SReceived := receivedAt; SAttempts := 0;
     SAcked := None |}.

(** The latest of the times seen so far. *)
Definition later (maxOccurred : option Z) (occurred : Z) : option Z :=
  match maxOccurred with
  | Some m => if m <? occurred then Some occurred else Some m
  | None => Some occurred
  end.

Fixpoint ingest_rows (src : SourceKey) (receivedAt : string) (maxOccurred : option Z)
    (rows : list SignalIngestRow) : sigm (option Z) :=
  match rows with
  | [] => mret maxOccurred
  | row :: rows =>
      _ ← fail_if (str_empty (IngID row)) (ErrSignalArgument "row id must not be empty");
      _ ← fail_if (str_empty (IngIdentity row)) (ErrSignalArgument "identity must not be empty");
      match parseSignalTime (IngOccurredAt row) with
      | None => throw (ErrSignalTime (IngID row))
      | Some occurred =>
          _ ← fail_if (negb (ValidateContentSize (encoded_len row))) (ErrSignalSize (IngID row));
          _ ← insert_or_ignore {| KSource := src; KID := IngID row |} (ingested row occurred receivedAt);
          ingest_rows src receivedAt (later maxOccurred occurred) rows
      end
  end.

Definition GetSignalCursor (src : SourceKey) (s : SDB) : string :=
  match cursors s !! src with Some c => CCursor c | None => "" end.

Definition setSignalCursor (src : SourceKey) (cursor : string) : sigm unit :=
  now ← gets sclock;
  modify (λ s, set_cursors s (<[src := {| CCursor := cursor; CUpdatedAt := formatSignalTime now |}]> (cursors s))).

Definition IngestSignals (workspaceID service connector : string) (rows : list SignalIngestRow) : sigm unit :=
  _ ← fail_if (str_empty workspaceID) (ErrSignalArgument "workspace id must not be empty");
  _ ← fail_if (str_empty connector) (ErrSignalArgument "connector must not be empty");
  match rows with
  | [] => mret ()
  | _ =>
      let src := {| KWorkspace := workspaceID; KService := service; KConnector := connector |} in
      now ← gets sclock;
      maxOccurred ← ingest_rows src (formatSignalTime now) None rows;
      match maxOccurred with
      | None => mret ()
      | Some m =>
          current ← gets (GetSignalCursor src);
          advance ← (if str_empty current then mret true
                     else match parseSignalTime current with
                          | None => throw (ErrSignalStored "cursor")
                          | Some c => mret (c <? m)
                          end);
          if (advance : bool) then setSignalCursor src (formatSignalTime m) else mret ()
      end
  end.

Definition repo_IngestSignals (workspaceID service connector : string) (rows : list SignalIngestRow) : sigm unit :=
  InTxDB (IngestSignals workspaceID service connector rows).

(** ** Reads *)
Definition signalStateCondition (state : string) (maxAttempts : Z) : option (SignalRow → bool) :=
  if str_empty state || bool_decide (state = "pending") then Some (pending maxAttempts)
  else if bool_decide (state = "dead") then Some (dead maxAttempts)
  else if bool_decide (state = "acked") then Some acked
  else if bool_decide (state = "all") then Some (λ _, true)
  else None.

Definition in_workspace (workspaceID : string) (k : SigKey) : bool :=
  bool_decide (KWorkspace (KSource k) = workspaceID).

Definition ListSignals (f : SignalFilter) : sigm (list Signal) :=
  _ ← fail_if (str_empty (FWorkspaceID f)) (ErrSignalArgument "workspace id must not be empty");
  match signalStateCondition (FState f) (resolveMaxAttempts (FMaxAttempts f)) with
  | None => throw (ErrUnknownState (FState f))
  | Some cond =>
      rows ← gets (select_signals (λ k r, in_workspace (FWorkspaceID f) k && cond r
        && (str_empty (FService f) || bool_decide (KService (KSource k) = FService f))
        && (str_empty (FConnector f) || bool_decide (KConnector (KSource k) = FConnector f)))
        (ClampSignalListLimit (FLimit f)));
      scanSignals rows
  end.

Definition HasPendingSignals (workspaceID : string) (maxAttempts : Z) : sigm bool :=
  _ ← fail_if (str_empty workspaceID) (ErrSignalArgument "workspace id must not be empty");
  gets (λ s, bool_decide (filter (λ kr, in_workspace workspaceID kr.1
    && pending (resolveMaxAttempts maxAttempts) kr.2 = true) (signals s) ≠ ∅)).

(** ** Claims *)
Definition charge_key (k : SigKey) : sigm unit := update_signals (λ k' _, bool_decide (k' = k)) charge.

Fixpoint claim_keys (keys : list SigKey) : sigm (list Signal) :=
  match keys with
  | [] => mret []
  | k :: keys =>
      _ ← charge_key k;
      row ← gets (λ s, signals s !! k);
      match row with
      | None => throw (ErrSignalStored "row")
      | Some r => sig ← scanSignalRow (k, r); rest ← claim_keys keys; mret (sig :: rest)
      end
  end.

Definition ClaimSignals (workspaceID : string) (limit maxAttempts : Z) : sigm (list Signal) :=
  _ ← fail_if (str_empty workspaceID) (ErrSignalArgument "workspace id must not be empty");
  rows ← gets (select_signals (λ k r, in_workspace workspaceID k && pending (resolveMaxAttempts maxAttempts) r)
                 (ClampSignalListLimit limit));
  claim_keys rows.*1.

Definition repo_ClaimSignals (workspaceID : string) (limit maxAttempts : Z) : sigm (list Signal) :=
  InTxDB (ClaimSignals workspaceID limit maxAttempts).

(** The ids that match no row of the workspace, sorted. *)
Definition unknown_ids (workspaceID : string) (ids : list string) (s : SDB) : list string :=
  merge_sort String.le (filter (λ id,
    filter (λ kr, in_workspace workspaceID kr.1 = true ∧ KID kr.1 = id) (signals s) = ∅) (remove_dups ids)).

Definition requireSignalIDsExist (workspaceID : string) (ids : list string) : sigm unit :=
  unknown ← gets (unknown_ids workspaceID ids);
  fail_if (negb (bool_decide (unknown = []))) (ErrUnknownSignals unknown).

Definition ClaimSignalIDs (workspaceID : string) (ids : list string) : sigm unit :=
  _ ← fail_if (str_empty workspaceID) (ErrSignalArgument "workspace id must not be empty");
  match ids with
  | [] => mret ()
  | _ =>
      _ ← requireSignalIDsExist workspaceID ids;
      update_signals (λ k r, in_workspace workspaceID k && negb (acked r) && bool_decide (KID k ∈ ids)) charge
  end.

Definition AckSignals (workspaceID : string) (ids : list string) : sigm unit :=
  _ ← fail_if (str_empty workspaceID) (ErrSignalArgument "workspace id must not be empty");
  match ids with
  | [] => mret ()
  | _ =>
      _ ← requireSignalIDsExist workspaceID ids;
      now ← gets sclock;
      update_signals (λ k r, in_workspace workspaceID k && negb (acked r) && bool_decide (KID k ∈ ids))
        (set_acked (formatSignalTime now))
  end.

(** ** Garbage collection *)
Definition gc_eligible (olderThan now : Z) (r : SignalRow) : bool :=
  (acked r || (MaxSignalAttempts <=? SAttempts r))
  && ((olderThan <=? 0)
      || let cutoff := formatSignalTime (now - olderThan) in
         match SAcked r with
         | Some at_ => String.ltb at_ cutoff
         | None => String.ltb (SReceived r) cutoff
         end).

Definition GCSignals (olderThan : Z) (dryRun : bool) : sigm nat :=
  now ← gets sclock;
  if dryRun then gets (count_signals (gc_eligible olderThan now))
  else delete_signals (gc_eligible olderThan now).
End inbox.

(** ** What can happen to the inbox *)
Section runs.
Context `{TimeParser}.
Context (encoded_len : SignalIngestRow → Z).

Inductive inbox_step : SDB → SDB → Prop :=
| step_ingest w sv c rows s : inbox_step s (repo_IngestSignals encoded_len w sv c rows s).1
| step_claim w limit n s : inbox_step s (repo_ClaimSignals w limit n s).1
| step_claim_ids w ids s : inbox_step s (ClaimSignalIDs w ids s).1
| step_ack w ids s : inbox_step s (AckSignals w ids s).1
| step_gc age dry s : inbox_step s (GCSignals age dry s).1
| step_clock now s : inbox_step s (set_clock s now).

(** A row later in its life: what was ingested never changes, attempts only
    grow and an acknowledgement stays. *)
Definition evolves (r r' : SignalRow) : Prop :=
  (SOccurred r', SIdentity r', SURL r', SAuthor r', STitle r', SReceived r') =
  (SOccurred r, SIdentity r, SURL r, SAuthor r, STitle r, SReceived r) ∧
  SAttempts r ≤ SAttempts r' ∧ (is_Some (SAcked r) → SAcked r' = SAcked r).

#[local] Instance evolves_preorder : PreOrder evolves.
Proof.
  split; [intros r; unfold evolves; split_and!; [done|lia|done]|].
  intros a b c (E1 & L1 & A1) (E2 & L2 & A2). unfold evolves. split_and!; [congruence|lia|].
  intros Ha. rewrite <- (A1 Ha). apply A2. by rewrite A1.
Qed.

(** A signal nobody waits for any more: acknowledged, or out of attempts. *)
Definition settled (r : SignalRow) : Prop := is_Some (SAcked r) ∨ MaxSignalAttempts ≤ SAttempts r.

(** Rows kept from [s] to [s'], each having evolved. *)
Definition keeps_rows (s s' : SDB) : Prop :=
  ∀ k r, signals s !! k = Some r → ∃ r', signals s' !! k = Some r' ∧ evolves r r'.
#[local] Instance keeps_rows_preorder : PreOrder keeps_rows.
Proof.
  split; [intros s k r Hr; exists r; split; [done|reflexivity]|].
  intros a b c Hab Hbc k r Hr. destruct (Hab k r Hr) as (r1 & H1 & E1). destruct (Hbc k r1 H1) as (r2 & H2 & E2).
  exists r2. split; [done|by transitivity r1].
Qed.

(** Everything but the garbage collector keeps the rows: relative to any
    earlier state [s0], each operation preserves [keeps_rows s0]. *)
Lemma keeps_modify s0 f : (∀ s, keeps_rows s (f s)) → preserves (E := signal_err) (keeps_rows s0) (modify f).
Proof. intros Hf s Hs. simpl. by transitivity s. Qed.

Lemma keeps_update s0 p f :
  (∀ k r, p k r = true → evolves r (f r)) → preserves (keeps_rows s0) (update_signals p f).
Proof.
  intros Hf. apply keeps_modify. intros s k r Hr. simpl. rewrite map_lookup_imap, Hr. simpl. eexists.
  split; [done|]. destruct (p k r) eqn:Hp; [by eapply Hf|reflexivity].
Qed.

Lemma charge_evolves r : evolves r (charge r).
Proof. unfold evolves. simpl. split_and!; [done|lia|done]. Qed.

Lemma ack_evolves at_ r : acked r = false → evolves r (set_acked at_ r).
Proof. intros Ha%bool_decide_eq_false. unfold evolves. simpl. split_and!; [done|lia|done]. Qed.

Lemma keeps_scan I kr : preserves I (scanSignalRow kr).
Proof. destruct kr as [k r]. unfold scanSignalRow. repeat case_match; eauto with boid. Qed.

Lemma keeps_ingest_rows s0 src received mx rows :
  preserves (keeps_rows s0) (ingest_rows encoded_len src received mx rows).
Proof.
  revert mx. induction rows as [|row rows IH]; intros mx; cbn [ingest_rows]; [eauto with boid|].
  repeat (apply preserves_bind; [eauto with boid|intros _]). case_match; [|eauto with boid].
  apply preserves_bind; [eauto with boid|intros _]. apply preserves_bind; [|by intros _].
  apply keeps_modify. intros s k r Hr. exists r. split; [|reflexivity].
  case_bool_decide as Hk; [done|]. simpl. rewrite lookup_insert_ne; [done|]. intros <-. by destruct Hk.
Qed.

Lemma keeps_IngestSignals s0 w sv c rows : preserves (keeps_rows s0) (IngestSignals encoded_len w sv c rows).
Proof.
  unfold IngestSignals. repeat (apply preserves_bind; [eauto with boid|intros _]).
  destruct rows as [|row rows]; [eauto with boid|]. apply preserves_bind; [eauto with boid|intros now].
  apply preserves_bind; [apply keeps_ingest_rows|intros [m|]; [|eauto with boid]].
  apply preserves_bind; [eauto with boid|intros cur].
  apply preserves_bind; [repeat case_match; eauto with boid|intros []; [|eauto with boid]].
  apply preserves_bind; [eauto with boid|intros now']. apply keeps_modify.
  intros s k r Hr. exists r. split; [done|reflexivity].
Qed.

(** Claims and acknowledgements touch nothing but the rows' attempts and
    acknowledgements. *)
Record frame (s0 s : SDB) : Prop := {
  fr_keeps : keeps_rows s0 s;
  fr_old : ∀ k r, signals s !! k = Some r → ∃ r0, signals s0 !! k = Some r0 ∧ evolves r0 r;
  fr_cursors : cursors s = cursors s0;
}.

Lemma frame_refl s : frame s s.
Proof. split; [reflexivity| |done]. intros k r Hr. exists r. split; [done|reflexivity]. Qed.

Lemma frame_trans s1 s2 s3 : frame s1 s2 → frame s2 s3 → frame s1 s3.
Proof.
  intros [K1 O1 C1] [K2 O2 C2]. split; [by transitivity s2| |congruence].
  intros k r Hr. destruct (O2 k r Hr) as (r2 & H2 & E2). destruct (O1 k r2 H2) as (r1 & H1 & E1).
  exists r1. split; [done|by transitivity r2].
Qed.

Lemma frame_update s0 p f :
  (∀ k r, p k r = true → evolves r (f r)) → preserves (frame s0) (update_signals p f).
Proof.
  intros Hf s Hs. apply (frame_trans _ s); [done|]. split; [| |done].
  - by apply (keeps_update s p f Hf).
  - intros k r. simpl. rewrite map_lookup_imap. intros Hr. destruct (signals s !! k) as [r0|] eqn:E; [|done].
    injection Hr as <-. exists r0. split; [done|]. destruct (p k r0) eqn:Hp; [by eapply Hf|reflexivity].
Qed.

Lemma frame_claim_keys s0 keys : preserves (frame s0) (claim_keys keys).
Proof.
  induction keys as [|k keys IH]; cbn [claim_keys]; [eauto with boid|].
  apply preserves_bind; [apply frame_update; eauto using charge_evolves|intros _].
  apply preserves_bind; [eauto with boid|intros [r|]; [|eauto with boid]].
  apply preserves_bind; [apply keeps_scan|intros sig].
  apply preserves_bind; [done|eauto with boid].
Qed.

Lemma frame_ClaimSignals s0 w limit n : preserves (frame s0) (repo_ClaimSignals w limit n).
Proof.
  apply preserves_InTxDB. intros s s' a Hs E.
  assert (preserves (frame s0) (ClaimSignals w limit n)) as Hp; [|specialize (Hp s Hs); by rewrite E in Hp].
  unfold ClaimSignals. apply preserves_bind; [eauto with boid|intros _].
  apply preserves_bind; [eauto with boid|intros rows]. apply frame_claim_keys.
Qed.

Lemma keeps_require I w ids : preserves I (requireSignalIDsExist w ids).
Proof. apply preserves_bind; eauto with boid. Qed.

Lemma frame_ClaimSignalIDs s0 w ids : preserves (frame s0) (ClaimSignalIDs w ids).
Proof.
  unfold ClaimSignalIDs. apply preserves_bind; [eauto with boid|intros _]. destruct ids; [eauto with boid|].
  apply preserves_bind; [apply keeps_require|intros _]. apply frame_update. eauto using charge_evolves.
Qed.

Lemma frame_AckSignals s0 w ids : preserves (frame s0) (AckSignals w ids).
Proof.
  unfold AckSignals. apply preserves_bind; [eauto with boid|intros _]. destruct ids; [eauto with boid|].
  apply preserves_bind; [apply keeps_require|intros _]. apply preserves_bind; [eauto with boid|intros now].
  apply frame_update. intros k r Hp. apply ack_evolves. by destruct (acked r); [rewrite andb_false_r in Hp|].
Qed.

(** Each step either frames the inbox, ingests a batch, or collects settled
    rows. *)
Lemma GCSignals_run age dry s :
  (GCSignals age dry s).1 =
    if dry then s else set_signals s (filter (λ kr, gc_eligible age (sclock s) kr.2 = false) (signals s)).
Proof. by destruct dry. Qed.

Lemma gc_settled age now r : gc_eligible age now r = true → settled r.
Proof.
  intros [[Ha|Ha]%orb_true_iff _]%andb_true_iff; [left; by apply bool_decide_eq_true in Ha|right; lia].
Qed.

Lemma keeps_IngestSignals_tx s w sv c rows : keeps_rows s (repo_IngestSignals encoded_len w sv c rows s).1.
Proof.
  pose proof (keeps_IngestSignals s w sv c rows s) as Hp. unfold repo_IngestSignals, InTxDB.
  destruct (IngestSignals _ _ _ _ _ s) as [s' [e|[]]]; simpl; [reflexivity|by apply Hp].
Qed.

(** One step: a row stays, or it was settled and is collected. *)
Lemma inbox_step_keeps s s' k r :
  inbox_step s s' → signals s !! k = Some r →
  (∃ r', signals s' !! k = Some r' ∧ evolves r r') ∨ settled r ∧ signals s' !! k = None.
Proof.
  intros Hstep Hr. destruct Hstep as [w sv c rows s|w limit n s|w ids s|w ids s|age dry s|now s].
  - left. by apply (keeps_IngestSignals_tx s w sv c rows).
  - left. by apply (fr_keeps _ _ (frame_ClaimSignals s w limit n s (frame_refl s))).
  - left. by apply (fr_keeps _ _ (frame_ClaimSignalIDs s w ids s (frame_refl s))).
  - left. by apply (fr_keeps _ _ (frame_AckSignals s w ids s (frame_refl s))).
  - rewrite GCSignals_run. destruct dry; [left; exists r; by split|]. simpl.
    destruct (gc_eligible age (sclock s) r) eqn:Hg.
    { right. split; [by eapply gc_settled|]. apply map_lookup_filter_None. right. intros r0 Hr0. rewrite Hr in Hr0. injection Hr0 as <-. cbn. by rewrite Hg. }
    left. exists r. split; [|reflexivity]. by apply map_lookup_filter_Some.
  - left. exists r. by split.
Qed.

(** The states of a run after the first. *)
Fixpoint chain (s : SDB) (l : list SDB) : Prop := match l with [] => True | s1 :: l => inbox_step s s1 ∧ chain s1 l end.
(** The row is there, later in its life. *)
Definition kept (k : SigKey) (r : SignalRow) (s : SDB) : Prop := ∃ r', signals s !! k = Some r' ∧ evolves r r'.

Lemma kept_later k r r1 s : evolves r r1 → kept k r1 s → kept k r s.
Proof. intros E1 (r' & H' & E'). exists r'. split; [done|by transitivity r1]. Qed.

(** ** Cursors *)
Definition cursor_at (s : SDB) (src : SourceKey) (c : Z) : Prop :=
  ∃ cr, cursors s !! src = Some cr ∧ CCursor cr = formatSignalTime c.

(** Every cursor is the text of an instant, and every stored signal happened
    no later than its source's cursor. *)
Definition covered (s : SDB) : Prop :=
  (∀ src, is_Some (cursors s !! src) → ∃ c, cursor_at s src c) ∧
  ∀ k r, signals s !! k = Some r →
    ∃ t c, SOccurred r = formatSignalTime t ∧ cursor_at s (KSource k) c ∧ t ≤ c.

Lemma ingest_rows_spec src received mx rows s s' mx' :
  ingest_rows encoded_len src received mx rows s = (s', inr mx') →
  cursors s' = cursors s ∧ (∀ m, mx = Some m → ∃ m', mx' = Some m' ∧ m ≤ m') ∧ (rows ≠ [] → is_Some mx') ∧
  ∀ k r, signals s' !! k = Some r → signals s !! k = Some r ∨
    (KSource k = src ∧ ∃ t m, SOccurred r = formatSignalTime t ∧ mx' = Some m ∧ t ≤ m).
Proof.
  revert mx s. induction rows as [|row rows IH]; intros mx s; cbn [ingest_rows].
  { intros [= <- <-]. split_and!; [done| |done|auto]. intros m ->. exists m. split; [done|lia]. }
  rewrite bind_fail_if. destruct (str_empty (IngID row)); [done|]. rewrite bind_fail_if.
  destruct (str_empty (IngIdentity row)); [done|].
  destruct (parseSignalTime (IngOccurredAt row)) as [t|]; [|done]. rewrite bind_fail_if.
  destruct (negb _); [done|]. erewrite bind_run by done. intros Hrun.
  apply IH in Hrun as (Hc & Hm & _ & Hnew).
  set (k0 := {| KSource := src; KID := IngID row |}) in *.
  assert (∃ m, later mx t = Some m ∧ t ≤ m ∧ ∀ m0, mx = Some m0 → m0 ≤ m) as (m & Hl & Htm & Hm0).
  { unfold later. destruct mx as [m0|]; [|by exists t; split_and!].
    destruct (Z.ltb_spec m0 t); eexists; (split_and!; [done|lia|intros ? [= <-]; lia]). }
  destruct (Hm m Hl) as (m' & Hmx & Hmm). split_and!.
  - rewrite Hc. by case_bool_decide.
  - intros m0 Hm0'. exists m'. split; [done|]. specialize (Hm0 m0 Hm0'). lia.
  - intros _. by rewrite Hmx.
  - intros k r Hr. destruct (Hnew k r Hr) as [Hold|?]; [|by right]. case_bool_decide as Hk; [by left|].
    simpl in Hold. apply lookup_insert_Some in Hold as [[<- <-]|[_ Hold]]; [|by left].
    right. split; [done|]. exists t, m'. split_and!; [done|done|lia].
Qed.

Definition source (w sv c : string) : SourceKey := {| KWorkspace := w; KService := sv; KConnector := c |}.

(** A batch that is accepted: nothing to do, or its rows are inserted and the
    cursor is moved to the latest of them, or left where it is if that is no
    progress. *)
Lemma IngestSignals_inv w sv c rows s s' :
  IngestSignals encoded_len w sv c rows s = (s', inr ()) →
  (rows = [] ∧ s' = s) ∨
  ∃ s1 m, ingest_rows encoded_len (source w sv c) (formatSignalTime (sclock s)) None rows s = (s1, inr (Some m)) ∧
    let cur := GetSignalCursor (source w sv c) s in
    ((cur = "" ∨ ∃ at_, parseSignalTime cur = Some at_ ∧ at_ < m) ∧
       ∃ now, s' = set_cursors s1 (<[source w sv c :=
         {| CCursor := formatSignalTime m; CUpdatedAt := now |}]> (cursors s1))) ∨
    (cur ≠ "" ∧ ∃ at_, parseSignalTime cur = Some at_ ∧ m ≤ at_ ∧ s' = s1).
Proof.
  unfold IngestSignals. rewrite bind_fail_if. destruct (str_empty w); [done|]. rewrite bind_fail_if.
  destruct (str_empty c); [done|]. destruct rows as [|row rows]; [intros [= <-]; by left|].
  rewrite bind_gets. intros (mx & s1 & Hrows & Hrun)%bind_ok. right.
  destruct (ingest_rows_spec _ _ _ _ _ _ _ Hrows) as (Hc & _ & Hsome & _).
  destruct Hsome as [m ->]; [done|]. exists s1, m. split; [done|]. cbv zeta. fold (source w sv c) in Hrun.
  replace (GetSignalCursor (source w sv c) s) with (GetSignalCursor (source w sv c) s1)
    by (unfold GetSignalCursor; by rewrite Hc).
  rewrite bind_gets in Hrun. set (cur := GetSignalCursor _ s1) in *. apply bind_ok in Hrun as (adv & s2 & Hadv & Hrun).
  unfold str_empty in Hadv. case_bool_decide as Hcur.
  - injection Hadv as <- <-. injection Hrun as <-. left. split; [by left|]. by eexists.
  - destruct (parseSignalTime cur) as [at_|]; [|done]. injection Hadv as <- <-.
    destruct (Z.ltb_spec at_ m); injection Hrun as <-.
    + left. split; [right; by exists at_|]. by eexists.
    + right. split; [done|]. by exists at_.
Qed.

Lemma format_nonempty t : formatSignalTime t ≠ "".
Proof.
  rewrite format_fields. destruct (fields t) as [[[[[[y m] d] h] i] s] n]. unfold year_text.
  destruct (y <? 0); [done|]. change ("" +:+ ?x) with x.
  destruct (digits _ (Z.abs y)); done.
Qed.

Lemma cursor_at_read s src c :
  cursor_at s src c → GetSignalCursor src s = formatSignalTime c.
Proof. intros (cr & Hcr & <-). unfold GetSignalCursor. by rewrite Hcr. Qed.

Lemma cursor_at_frame s s' src c : cursors s' = cursors s → cursor_at s src c → cursor_at s' src c.
Proof. unfold cursor_at. by intros ->. Qed.

Definition advances (s s' : SDB) : Prop := ∀ src c, cursor_at s src c → ∃ c', cursor_at s' src c' ∧ c ≤ c'.

Lemma advances_frame s s' : cursors s' = cursors s → advances s s'.
Proof. intros Hc src c Hat. exists c. split; [by eapply cursor_at_frame|lia]. Qed.

(** What a batch adds to the inbox: rows of its source, none later than [m]. *)
Definition adds_upto (src : SourceKey) (m : Z) (s s1 : SDB) : Prop :=
  cursors s1 = cursors s ∧
  ∀ k r, signals s1 !! k = Some r → signals s !! k = Some r ∨
    (KSource k = src ∧ ∃ t, SOccurred r = formatSignalTime t ∧ t ≤ m).

Lemma ingest_rows_adds src received rows s s1 m :
  ingest_rows encoded_len src received None rows s = (s1, inr (Some m)) → adds_upto src m s s1.
Proof. intros (Hc & _ & _ & Hnew)%ingest_rows_spec. split; [done|]. intros k r Hr. destruct (Hnew k r Hr); naive_solver. Qed.

Lemma covered_moved src m s s1 now :
  covered s → adds_upto src m s s1 → (∀ c, cursor_at s src c → c ≤ m) →
  let s' := set_cursors s1 (<[src := {| CCursor := formatSignalTime m; CUpdatedAt := now |}]> (cursors s1)) in
  covered s' ∧ advances s s'.
Proof.
  intros [Hcur Hsig] [Hc Hnew] Hm s'.
  assert (cursor_at s' src m) as Hsrc by (eexists; split; [apply lookup_insert_eq|done]).
  assert (advances s s') as Hfwd.
  { intros src0 c0 Hat. destruct (decide (src0 = src)) as [->|Hne]; [exists m; auto|].
    exists c0. split; [|lia]. destruct Hat as (cr & Hcr & E). exists cr. split; [|done].
    simpl. rewrite Hc. by rewrite lookup_insert_ne. }
  split; [split|done].
  - intros src0 [cr Hcr]. destruct (decide (src0 = src)) as [->|Hne]; [by exists m|].
    simpl in Hcr. rewrite Hc, lookup_insert_ne in Hcr by done. destruct (Hcur src0) as [c0 Hat]; [by eexists|].
    destruct (Hfwd src0 c0 Hat) as (c' & Hat' & _). by exists c'.
  - intros k r Hr. destruct (Hnew k r Hr) as [Hold|(Hk & t & Ht & Hle)].
    + destruct (Hsig k r Hold) as (t & c0 & Ht & Hat & Hle). destruct (Hfwd _ _ Hat) as (c' & Hat' & Hle').
      exists t, c'. split_and!; [done|done|lia].
    + exists t, m. rewrite Hk. by split_and!.
Qed.

Lemma covered_kept src m s s1 c :
  covered s → adds_upto src m s s1 → cursor_at s src c → m ≤ c → covered s1 ∧ advances s s1.
Proof.
  intros [Hcur Hsig] [Hc Hnew] Hat Hle. split; [split|by apply advances_frame].
  - intros src0. rewrite Hc. intros [c0 Hat0]%Hcur. exists c0. by eapply cursor_at_frame.
  - intros k r Hr. destruct (Hnew k r Hr) as [Hold|(Hk & t & Ht & Htm)].
    + destruct (Hsig k r Hold) as (t & c0 & Ht & Hat0 & Hle'). exists t, c0.
      split_and!; [done|by eapply cursor_at_frame|done].
    + exists t, c. rewrite Hk. split_and!; [done|by eapply cursor_at_frame|lia].
Qed.

(** The step that moves a cursor. *)
Lemma ingest_advances w sv c rows s s' :
  covered s → IngestSignals encoded_len w sv c rows s = (s', inr ()) → covered s' ∧ advances s s'.
Proof.
  intros Hcov [[-> ->]|(s1 & m & Hrows & Hcases)]%IngestSignals_inv; [by split; [|apply advances_frame]|].
  apply ingest_rows_adds in Hrows. cbv zeta in Hcases.
  destruct Hcases as [(Hadv & now & ->)|(Hne & at_ & Hparse & Hle & ->)].
  - apply covered_moved; [done..|]. intros c0 Hat%cursor_at_read. rewrite Hat in Hadv.
    destruct Hadv as [He|(at_ & Hp & Hlt)]; [by apply format_nonempty in He|].
    rewrite parse_format in Hp. destruct (readable c0); [|done]. injection Hp as <-. lia.
  - destruct (proj1 Hcov (source w sv c)) as [c0 Hat].
    { unfold GetSignalCursor in Hne. by destruct (cursors s !! source w sv c). }
    rewrite (cursor_at_read _ _ _ Hat), parse_format in Hparse. destruct (readable c0); [|done].
    injection Hparse as <-. by eapply covered_kept.
Qed.

Lemma frame_covered s s' : frame s s' → covered s → covered s'.
Proof.
  intros [_ Hold Hc] [Hcur Hsig]. split.
  - intros src. rewrite Hc. intros [c Hat]%Hcur. exists c. by eapply cursor_at_frame.
  - intros k r' Hr'. destruct (Hold k r' Hr') as (r & Hr & E & _). destruct (Hsig k r Hr) as (t & c & Ht & Hat & Hle).
    exists t, c. split_and!; [congruence|by eapply cursor_at_frame|done].
Qed.

Lemma inbox_step_covered s s' : covered s → inbox_step s s' → covered s' ∧ advances s s'.
Proof.
  intros Hcov Hstep. pose proof (frame_refl s) as Hf.
  destruct Hstep as [w sv c rows s|w limit n s|w ids s|w ids s|age dry s|now s].
  - unfold repo_IngestSignals, InTxDB. destruct (IngestSignals _ _ _ _ _ s) as [s' [e|[]]] eqn:E; simpl.
    + by split; [|apply advances_frame].
    + by eapply ingest_advances.
  - pose proof (frame_ClaimSignals s w limit n s Hf) as F. split; [by eapply frame_covered|apply advances_frame, F].
  - pose proof (frame_ClaimSignalIDs s w ids s Hf) as F. split; [by eapply frame_covered|apply advances_frame, F].
  - pose proof (frame_AckSignals s w ids s Hf) as F. split; [by eapply frame_covered|apply advances_frame, F].
  - rewrite GCSignals_run. destruct dry; [by split; [|apply advances_frame]|].
    split; [|by apply advances_frame]. destruct Hcov as [Hcur Hsig]. split; [done|].
    intros k r [Hr _]%map_lookup_filter_Some. by apply Hsig.
  - split; [done|by apply advances_frame].
Qed.

Lemma inbox_run_covered s s' : covered s → rtc inbox_step s s' → covered s' ∧ advances s s'.
Proof.
  intros Hcov Hrun. induction Hrun as [s|s s1 s' Hstep Hrun IH]; [by split; [|apply advances_frame]|].
  destruct (inbox_step_covered s s1 Hcov Hstep) as [H1 A1]. destruct (IH H1) as [H2 A2]. split; [done|].
  intros src c Hat. destruct (A1 src c Hat) as (c1 & Hat1 & L1). destruct (A2 src c1 Hat1) as (c2 & Hat2 & L2).
  exists c2. split; [done|lia].
Qed.

(** A source's cursor never runs backwards and never falls behind the
    inbox: in every state an empty inbox can reach, each stored signal
    happened no later than its source's cursor, and from then on the cursor
    only moves forward. *)
Theorem signal_cursor_monotone s0 s s' :
  signals s0 = ∅ → cursors s0 = ∅ → rtc inbox_step s0 s → rtc inbox_step s s' →
  (∀ k r, signals s !! k = Some r →
     ∃ t c, SOccurred r = formatSignalTime t ∧ cursor_at s (KSource k) c ∧ t ≤ c) ∧
  (∀ src c, cursor_at s src c → ∃ c', cursor_at s' src c' ∧ c ≤ c').
Proof.
  intros Hs Hc Hrun Hrun'. assert (covered s0) as H0.
  { split; [intros src; rewrite Hc; by intros [? ?]|]. intros k r. by rewrite Hs. }
  destruct (inbox_run_covered s0 s H0 Hrun) as [Hcov _]. destruct (inbox_run_covered s s' Hcov Hrun') as [_ Hadv].
  split; [apply Hcov|done].
Qed.

(** ** Redelivery *)
Lemma later_spec mx t : ∃ m, later mx t = Some m ∧ (mx = Some m ∨ m = t).
Proof. unfold later. destruct mx as [m|]; [|eauto]. destruct (m <? t); eauto. Qed.

Lemma ingest_rows_max src received mx rows s s1 m :
  ingest_rows encoded_len src received mx rows s = (s1, inr (Some m)) →
  mx = Some m ∨ ∃ row, row ∈ rows ∧ parseSignalTime (IngOccurredAt row) = Some m.
Proof.
  revert mx s. induction rows as [|row rows IH]; intros mx s; cbn [ingest_rows]; [intros [= _ ->]; by left|].
  rewrite bind_fail_if. destruct (str_empty _); [done|]. rewrite bind_fail_if. destruct (str_empty _); [done|].
  destruct (parseSignalTime _) as [t|] eqn:Ht; [|done]. rewrite bind_fail_if. destruct (negb _); [done|].
  erewrite bind_run by done. intros [Hl|(row' & Hin & Hp)]%IH.
  - destruct (later_spec mx t) as (m' & Hm' & Hor). rewrite Hm' in Hl. injection Hl as ->.
    destruct Hor as [?| ->]; [by left|]. right. exists row. split; [by left|done].
  - right. exists row'. split; [by right|done].
Qed.

(** A batch accepted once is accepted again, inserting nothing, wherever its
    rows are still stored. *)
Lemma ingest_rows_again src received received' mx rows s s1 mx' s2 :
  ingest_rows encoded_len src received mx rows s = (s1, inr mx') →
  (∀ k, is_Some (signals s1 !! k) → is_Some (signals s2 !! k)) →
  ingest_rows encoded_len src received' mx rows s2 = (s2, inr mx').
Proof.
  intros Hrun Hkept. revert mx s Hrun. induction rows as [|row rows IH]; intros mx s; cbn [ingest_rows].
  { by intros [= <- <-]. }
  rewrite !bind_fail_if. destruct (str_empty _); [done|]. destruct (str_empty _); [done|].
  destruct (parseSignalTime _) as [t|]; [|done]. rewrite !bind_fail_if. destruct (negb _); [done|].
  set (k0 := {| KSource := src; KID := IngID row |}).
  set (sA := (insert_or_ignore k0 (ingested row t received) s).1). rewrite (bind_run _ _ s sA ()) by done.
  intros Hrun. erewrite bind_run; [by eapply IH|]. unfold insert_or_ignore, modify. f_equal.
  assert (is_Some (signals sA !! k0)) as [r0 Hr0].
  { unfold sA. simpl. case_bool_decide as Hk; [done|]. simpl. by rewrite lookup_insert_eq. }
  assert (keeps_rows sA s1) as Hk.
  { pose proof (keeps_ingest_rows sA src received (later mx t) rows sA) as Hp. rewrite Hrun in Hp. by apply Hp. }
  destruct (Hk k0 r0 Hr0) as (r1 & Hr1 & _). by rewrite bool_decide_eq_true_2 by (apply Hkept; by rewrite Hr1).
Qed.

(** Redelivery changes nothing: once a batch of signals has been ingested,
    sending it again, at any time and after any claims and acknowledgements,
    is accepted and leaves signals and cursor exactly as they are, as long as
    the rows have not been collected and no later batch moved the cursor. *)
Theorem ingest_redelivery w sv c rows s s1 s2 :
  repo_IngestSignals encoded_len w sv c rows s = (s1, inr ()) →
  (∀ row t, row ∈ rows → parseSignalTime (IngOccurredAt row) = Some t → readable t = true) →
  (∀ k, is_Some (signals s1 !! k) → is_Some (signals s2 !! k)) → cursors s2 = cursors s1 →
  repo_IngestSignals encoded_len w sv c rows s2 = (s2, inr ()).
Proof.
  unfold repo_IngestSignals, InTxDB. destruct (IngestSignals _ _ _ _ _ s) as [s1' [e|[]]] eqn:Hrun; [done|].
  intros [= ->] Hread Hkept Hcur. enough (IngestSignals encoded_len w sv c rows s2 = (s2, inr ())) as -> by done.
  pose proof Hrun as Hinv. unfold IngestSignals in Hrun |- *. rewrite bind_fail_if in Hrun |- *.
  destruct (str_empty w); [done|]. rewrite bind_fail_if in Hrun |- *. destruct (str_empty c); [done|].
  destruct rows as [|row rows]; [done|]. clear Hrun. rewrite bind_gets.
  apply IngestSignals_inv in Hinv as [[? _]|(sA & m & Hrows & Hcases)]; [done|].
  assert (readable m = true) as Hm.
  { destruct (ingest_rows_max _ _ _ _ _ _ _ Hrows) as [?|(row' & Hin & Hp)]; [done|]. by eapply Hread. }
  assert (∃ at_, parseSignalTime (GetSignalCursor (source w sv c) s1) = Some at_ ∧ m ≤ at_) as (at_ & Hp & Hle).
  { cbv zeta in Hcases. destruct Hcases as [(_ & now & ->)|(_ & at_ & Hp & Hle & ->)].
    - exists m. unfold GetSignalCursor. simpl. rewrite lookup_insert_eq. simpl. by rewrite parse_format, Hm.
    - exists at_. unfold GetSignalCursor in *. apply ingest_rows_adds in Hrows as [-> _]. done. }
  assert (∀ k, is_Some (signals sA !! k) → is_Some (signals s2 !! k)) as Hkept'.
  { intros k Hk. apply Hkept. cbv zeta in Hcases. by destruct Hcases as [(_ & now & ->)|(_ & ? & _ & _ & ->)]. }
  rewrite (bind_run _ _ s2 s2 (Some m)) by (by eapply ingest_rows_again). cbv iota beta. rewrite bind_gets.
  replace (GetSignalCursor _ s2) with (GetSignalCursor (source w sv c) s1)
    by (unfold GetSignalCursor; by rewrite Hcur).
  assert (str_empty (GetSignalCursor (source w sv c) s1) = false) as ->.
  { apply bool_decide_eq_false. unfold GetSignalCursor. simpl. intros E.
    cbv zeta in Hcases. destruct Hcases as [(_ & now & ->)|(Hne & ? & _ & _ & ->)].
    - simpl in E. rewrite lookup_insert_eq in E. by apply format_nonempty in E.
    - apply Hne. unfold GetSignalCursor. apply ingest_rows_adds in Hrows as [<- _]. done. }
  rewrite Hp. erewrite bind_run by done. by replace (at_ <? m) with false by lia.
Qed.

(** ** A cursor that cannot be read back *)
Lemma blocked_ingest w sv c cur rows s :
  cursor_at s (source w sv c) cur → readable cur = false → rows ≠ [] →
  ∃ e, repo_IngestSignals encoded_len w sv c rows s = (s, inl e).
Proof.
  intros Hat Hcur Hrows. unfold repo_IngestSignals, InTxDB.
  destruct (IngestSignals _ _ _ _ _ s) as [s' [e|[]]] eqn:E; [by exists e|]. exfalso.
  apply IngestSignals_inv in E as [[? _]|(s1 & m & _ & Hcases)]; [done|].
  cbv zeta in Hcases. rewrite (cursor_at_read _ _ _ Hat), parse_format, Hcur in Hcases.
  destruct Hcases as [([He|(at_ & ? & _)] & _)|(_ & at_ & ? & _)]; [by apply format_nonempty in He|done..].
Qed.

Lemma blocked_step src cur s s' :
  cursor_at s src cur → readable cur = false → inbox_step s s' → cursor_at s' src cur.
Proof.
  intros Hat Hcur Hstep. pose proof (frame_refl s) as Hf.
  destruct Hstep as [w sv c rows s|w limit n s|w ids s|w ids s|age dry s|now s].
  - destruct (decide (src = source w sv c)) as [->|Hne].
    + destruct (decide (rows = [])) as [->|Hrows].
      * unfold repo_IngestSignals, InTxDB, IngestSignals. rewrite bind_fail_if. destruct (str_empty w); [done|].
        rewrite bind_fail_if. by destruct (str_empty c).
      * by destruct (blocked_ingest w sv c cur rows s Hat Hcur Hrows) as [e ->].
    + unfold repo_IngestSignals, InTxDB. destruct (IngestSignals _ _ _ _ _ s) as [s' [e|[]]] eqn:E; [done|].
      apply IngestSignals_inv in E as [[_ ->]|(s1 & m & [Hc _]%ingest_rows_adds & Hcases)]; [done|].
      cbv zeta in Hcases. destruct Hcases as [(_ & now & ->)|(_ & at_ & _ & _ & ->)].
      * destruct Hat as (cr & Hcr & E). exists cr. split; [|done]. simpl. by rewrite Hc, lookup_insert_ne.
      * by eapply cursor_at_frame.
  - eapply cursor_at_frame; [|done]. apply (frame_ClaimSignals s w limit n s Hf).
  - eapply cursor_at_frame; [|done]. apply (frame_ClaimSignalIDs s w ids s Hf).
  - eapply cursor_at_frame; [|done]. apply (frame_AckSignals s w ids s Hf).
  - rewrite GCSignals_run. by destruct dry.
  - done.
Qed.

(** A source whose cursor lies outside the years 0 to 9999 is blocked for
    good: whatever happens to the inbox afterwards, every non-empty batch of
    that source is refused and nothing of it is stored.  A single signal dated
    in the last hours of 9999 with a negative offset is enough to get there. *)
Theorem unreadable_cursor_blocks_source w sv c cur s s' rows :
  cursor_at s (source w sv c) cur → readable cur = false → rtc inbox_step s s' → rows ≠ [] →
  ∃ e, repo_IngestSignals encoded_len w sv c rows s' = (s', inl e).
Proof.
  intros Hat Hcur Hrun Hrows. enough (cursor_at s' (source w sv c) cur) by by eapply blocked_ingest.
  clear Hrows. induction Hrun as [s|s s1 s' Hstep _ IH]; [done|]. apply IH. by eapply blocked_step.
Qed.

(** ** Claiming *)
Definition legible_text (x : string) : Prop := ∃ t, readable t = true ∧ x = formatSignalTime t.

Lemma legible_parse x : legible_text x → is_Some (parseSignalTime x).
Proof. intros (t & Ht & ->). by rewrite parse_format, Ht. Qed.

Definition legible (r : SignalRow) : Prop :=
  legible_text (SOccurred r) ∧ legible_text (SReceived r) ∧ ∀ a, SAcked r = Some a → legible_text a.

(** The struct a legible row is scanned into. *)
Definition signal_of (kr : SigKey * SignalRow) : Signal :=
  let '(k, r) := kr in
  {| WorkspaceID := KWorkspace (KSource k); Service := KService (KSource k); Connector := KConnector (KSource k);
     SigID := KID k; OccurredAt := default 0 (parseSignalTime (SOccurred r)); Identity := SIdentity r;
     URL := SURL r; Author := SAuthor r; SigTitle := STitle r;
     ReceivedAt := default 0 (parseSignalTime (SReceived r)); Attempts := SAttempts r;
     AckedAt := a ← SAcked r; parseSignalTime a |}.

Lemma scan_legible k r s : legible r → scanSignalRow (k, r) s = (s, inr (signal_of (k, r))).
Proof.
  intros ([t Ht]%legible_parse & [u Hu]%legible_parse & Ha). unfold scanSignalRow, signal_of. rewrite Ht, Hu.
  destruct (SAcked r) as [a|]; [|done]. destruct (legible_parse a) as [v Hv]; [by apply Ha|]. simpl. by rewrite Hv.
Qed.

Definition charge_all (keys : list SigKey) (s : SDB) : SDB :=
  set_signals s (map_imap (λ k r, Some (if bool_decide (k ∈ keys) then charge r else r)) (signals s)).

Lemma SDB_ext (s1 s2 : SDB) :
  (∀ k, signals s1 !! k = signals s2 !! k) → cursors s1 = cursors s2 → sclock s1 = sclock s2 → s1 = s2.
Proof. destruct s1, s2. simpl. intros E -> ->. f_equal. by apply map_eq. Qed.

(** Claiming distinct stored keys charges each once and returns them in order. *)
Lemma claim_keys_run rows s :
  NoDup rows.*1 → (∀ k r, (k, r) ∈ rows → signals s !! k = Some r ∧ legible r) →
  claim_keys rows.*1 s = (charge_all rows.*1 s, inr ((λ kr, signal_of (kr.1, charge kr.2)) <$> rows)).
Proof.
  revert s. induction rows as [|[k r] rows IH]; intros s Hnd Hrows.
  { change (claim_keys [].*1 s) with (s, inr [] : signal_err + list Signal). f_equal.
    apply SDB_ext; [|done..]. intros k. simpl. rewrite map_lookup_imap. by destruct (signals s !! k). }
  rewrite fmap_cons in Hnd |- *. apply NoDup_cons in Hnd as [Hk Hnd]. cbn [fst] in Hk |- *. cbn [claim_keys].
  destruct (Hrows k r) as [Hr Hl]; [by left|].
  set (s1 := charge_all [k] s).
  assert (charge_key k s = (s1, inr ())) as E1.
  { unfold charge_key, update_signals, modify. f_equal. apply SDB_ext; [|done..]. intros k'. simpl.
    rewrite !map_lookup_imap. destruct (signals s !! k'); [|done]. simpl. do 2 f_equal.
    by rewrite (bool_decide_ext (k' ∈ [k]) (k' = k)) by apply list_elem_of_singleton. }
  rewrite (bind_run _ _ s s1 ()) by done. rewrite bind_gets.
  assert (signals s1 !! k = Some (charge r)) as ->.
  { simpl. rewrite map_lookup_imap, Hr. simpl. by rewrite bool_decide_eq_true_2 by (by left). }
  erewrite bind_run by (by apply scan_legible).
  rewrite (bind_run _ _ s1 (charge_all rows.*1 s1) ((λ kr, signal_of (kr.1, charge kr.2)) <$> rows)).
  - unfold mret, dbm_ret. f_equal. apply SDB_ext; [|done..]. intros k'. simpl. rewrite !map_lookup_imap.
    destruct (signals s !! k') as [r'|]; [|done]. simpl. f_equal.
    destruct (decide (k' = k)) as [->|Hne].
    + rewrite (bool_decide_eq_false_2 (k ∈ rows.*1)) by done. by rewrite !bool_decide_eq_true_2 by (by left).
    + rewrite (bool_decide_eq_false_2 (k' ∈ [k])) by (by intros ?%list_elem_of_singleton).
      rewrite (bool_decide_ext (k' ∈ k :: rows.*1) (k' ∈ rows.*1)); [done|]. rewrite elem_of_cons. naive_solver.
  - apply IH; [done|]. intros k' r' Hin. destruct (Hrows k' r') as [Hr' Hl']; [by right|]. split; [|done].
    simpl. rewrite map_lookup_imap, Hr'. simpl. rewrite bool_decide_eq_false_2; [done|].
    intros ->%list_elem_of_singleton. apply Hk. apply list_elem_of_fmap. by exists (k, r').
Qed.

(** The selection order. *)
Lemma ltb_le a b : String.ltb a b = true → String.le a b.
Proof. unfold String.ltb, String.le, String.leb. by destruct (String.compare a b). Qed.
Lemma ltb_irrefl a : String.ltb a a = false.
Proof.
  unfold String.ltb. destruct (String.compare a a) eqn:E; [done| |done].
  pose proof (String.compare_antisym a a) as Ha. by rewrite E in Ha.
Qed.
Lemma le_ltb a b : String.le a b → a = b ∨ String.ltb a b = true.
Proof.
  unfold String.ltb, String.le, String.leb. destruct (String.compare a b) eqn:E; [|by right|done].
  left. by apply String.compare_eq_iff.
Qed.
Lemma ltb_trans a b c : String.ltb a b = true → String.ltb b c = true → String.ltb a c = true.
Proof.
  intros Hab Hbc. destruct (le_ltb a c) as [->|]; [by transitivity b; apply ltb_le| |done].
  assert (b = c) as <- by (apply (anti_symm String.le); by apply ltb_le). by rewrite ltb_irrefl in Hab.
Qed.

#[local] Instance sig_le_total : Total sig_le.
Proof.
  intros a b. unfold sig_le. destruct (total String.le (SOccurred a.2) (SOccurred b.2)) as [H1|H1];
    destruct (le_ltb _ _ H1) as [E|E]; auto; rewrite E;
    destruct (total String.le (KID a.1) (KID b.1)); auto.
Qed.
#[local] Instance sig_le_trans : Transitive sig_le.
Proof.
  intros a b c. unfold sig_le. intros [H1|[E1 L1]] [H2|[E2 L2]].
  - left. by eapply ltb_trans.
  - left. by rewrite <- E2.
  - left. by rewrite E1.
  - right. split; [congruence|by transitivity (KID b.1)].
Qed.

(** The stored order of legible rows is the order of the instants. *)
Lemma sig_le_time a b :
  legible a.2 → legible b.2 → sig_le a b →
  OccurredAt (signal_of a) ≤ OccurredAt (signal_of b).
Proof.
  destruct a as [ka ra], b as [kb rb]. unfold sig_le. cbn [fst snd].
  intros ((t & Ht & Ea) & _) ((u & Hu & Eb) & _) Hle. unfold signal_of. cbn [OccurredAt].
  rewrite Ea, Eb, !parse_format, Ht, Hu. simpl. apply format_le; [done..|]. rewrite <- Ea, <- Eb.
  destruct Hle as [H1|[-> _]]; [by apply ltb_le|done].
Qed.

(** ** The oldest first *)
Definition key_of (sig : Signal) : SigKey := {| KSource := source (WorkspaceID sig) (Service sig) (Connector sig); KID := SigID sig |}.

Lemma key_of_signal k r : key_of (signal_of (k, r)) = k.
Proof. by destruct k as [[w sv c] id]. Qed.

Definition eligible (w : string) (n : Z) (k : SigKey) (r : SignalRow) : bool :=
  in_workspace w k && pending (resolveMaxAttempts n) r.

Lemma select_parts p limit s :
  ∃ rows rest, select_signals p limit s = rows ∧ length rows = Nat.min (Z.to_nat limit) (length (rows ++ rest)) ∧
    StronglySorted sig_le (rows ++ rest) ∧ NoDup (rows ++ rest).*1 ∧
    ∀ k r, (k, r) ∈ rows ++ rest ↔ signals s !! k = Some r ∧ p k r = true.
Proof.
  unfold select_signals. set (l := filter _ _). set (sorted := merge_sort sig_le l).
  exists (take (Z.to_nat limit) sorted), (drop (Z.to_nat limit) sorted). rewrite take_drop. split_and!.
  - done.
  - apply length_take.
  - apply (StronglySorted_merge_sort sig_le).
  - unfold sorted. rewrite (merge_sort_Permutation sig_le l). unfold l.
    apply (sublist_NoDup _ (map_to_list (signals s)).*1); [apply NoDup_fst_map_to_list|]. apply fmap_sublist, sublist_filter.
  - intros k r. unfold sorted. rewrite (merge_sort_Permutation sig_le l). unfold l.
    rewrite list_elem_of_filter, elem_of_map_to_list. simpl. naive_solver.
Qed.

Lemma sorted_app_le {A} (R : relation A) l1 l2 x y : StronglySorted R (l1 ++ l2) → x ∈ l1 → y ∈ l2 → R x y.
Proof.
  induction l1 as [|a l1 IH]; [by intros _ ?%elem_of_nil|]. simpl.
  intros [Hs Hall]%StronglySorted_inv [->|Hx]%elem_of_cons Hy; [|by apply IH].
  rewrite Forall_forall in Hall. apply Hall. apply elem_of_app. by right.
Qed.

Lemma sorted_app_l {A} (R : relation A) l1 l2 : StronglySorted R (l1 ++ l2) → StronglySorted R l1.
Proof.
  induction l1 as [|a l1 IH]; simpl; [constructor|]. intros [Hs Hall]%StronglySorted_inv. constructor; [by apply IH|].
  by apply Forall_app in Hall as [? _].
Qed.

Lemma sorted_times rows :
  StronglySorted sig_le rows → (∀ kr, kr ∈ rows → legible kr.2) →
  StronglySorted Z.le ((λ kr, OccurredAt (signal_of kr)) <$> rows).
Proof.
  intros Hs. induction Hs as [|a rows Hs IH Hall]; intros Hl; simpl; [constructor|]. constructor.
  - apply IH. intros kr Hin. apply Hl. by right.
  - rewrite Forall_fmap. rewrite Forall_forall in Hall |- *. intros b Hb. apply sig_le_time; [apply Hl; by left|apply Hl; by right|].
    by apply Hall.
Qed.

(** A claim takes the oldest pending signals of the workspace, by time and
    not by text, at most the clamped limit of them, charges each of them one
    attempt and nothing else, and leaves a pending signal out only when the
    limit is reached and nothing taken is younger. *)
Theorem ClaimSignals_spec w limit n s :
  w ≠ "" → (∀ k r, signals s !! k = Some r → legible r) →
  ∃ out, ClaimSignals w limit n s = (charge_all (key_of <$> out) s, inr out) ∧
    StronglySorted Z.le (OccurredAt <$> out) ∧ NoDup (key_of <$> out) ∧
    Z.of_nat (length out) ≤ ClampSignalListLimit limit ∧
    (∀ sig, sig ∈ out → ∃ r, signals s !! key_of sig = Some r ∧ eligible w n (key_of sig) r = true ∧
       Attempts sig = SAttempts r + 1) ∧
    (∀ k r, signals s !! k = Some r → eligible w n k r = true → k ∉ key_of <$> out →
       Z.of_nat (length out) = ClampSignalListLimit limit ∧
       ∀ sig, sig ∈ out → OccurredAt sig ≤ OccurredAt (signal_of (k, r))).
Proof.
  intros Hw Hleg. unfold ClaimSignals. rewrite bind_fail_if. unfold str_empty. rewrite bool_decide_eq_false_2 by done.
  rewrite bind_gets.
  destruct (select_parts (eligible w n) (ClampSignalListLimit limit) s) as (rows & rest & Hsel & Hlen & Hsort & Hnd & Hin).
  change (λ k r, in_workspace w k && pending (resolveMaxAttempts n) r) with (eligible w n). rewrite Hsel.
  assert (0 < ClampSignalListLimit limit) as Hlim.
  { unfold ClampSignalListLimit, DefaultSignalListLimit, MaxSignalListLimit. repeat case_match; lia. }
  assert (∀ kr, kr ∈ rows → signals s !! kr.1 = Some kr.2 ∧ eligible w n kr.1 kr.2 = true ∧ legible kr.2) as Hrows.
  { intros [k r] Hk. destruct (proj1 (Hin k r)) as [Hr He]; [apply elem_of_app; by left|]. simpl. eauto. }
  set (out := (λ kr, signal_of (kr.1, charge kr.2)) <$> rows).
  assert (key_of <$> out = rows.*1) as Hkeys.
  { unfold out. rewrite <- list_fmap_compose. apply list_fmap_ext. intros i [k r] _. apply key_of_signal. }
  rewrite fmap_app in Hnd. apply NoDup_app in Hnd as (Hnd & Hdisj & _).
  exists out. rewrite Hkeys. split_and!.
  - apply claim_keys_run; [done|]. intros k r Hk. destruct (Hrows _ Hk) as (? & _ & ?). by split.
  - unfold out. rewrite <- list_fmap_compose. rewrite (list_fmap_ext _ (λ kr, OccurredAt (signal_of kr))) by (by intros i [k r] _).
    apply sorted_times; [by eapply sorted_app_l|]. intros kr Hk. apply Hrows, Hk.
  - done.
  - unfold out. rewrite length_fmap. lia.
  - intros sig ([k r] & -> & Hk)%list_elem_of_fmap. destruct (Hrows _ Hk) as (Hr & He & _). exists r.
    rewrite key_of_signal. by split_and!.
  - intros k r Hr He Hk. assert ((k, r) ∈ rows ++ rest) as Hkr by (by apply Hin).
    apply elem_of_app in Hkr as [Hkr|Hkr]; [destruct Hk; apply list_elem_of_fmap; by exists (k, r)|]. split.
    + unfold out. rewrite length_fmap. rewrite length_app in Hlen. destruct rest; [by apply elem_of_nil in Hkr|].
      simpl in Hlen. lia.
    + intros sig ([k' r'] & -> & Hk')%list_elem_of_fmap. destruct (Hrows _ Hk') as (_ & _ & Hl').
      apply (sig_le_time (k', r') (k, r)); [done|by eapply Hleg|]. by eapply sorted_app_le.
Qed.
End runs.

(** ** Sample inboxes *)
Definition sample_len (row : SignalIngestRow) : Z := 100.
Definition sample_signal (id occurred : string) : SignalIngestRow :=
  {| IngID := id; IngOccurredAt := occurred; IngIdentity := "issue-1"; IngURL := ""; IngAuthor := ""; IngTitle := "t" |}.
Definition sample_batch : list SignalIngestRow :=
  [sample_signal "b" "2024-05-01T10:00:00+09:00"; sample_signal "a" "2024-05-01T02:00:00Z"].

#[local] Existing Instance strict_parser.
Definition empty_inbox : SDB := {| signals := ∅; cursors := ∅; sclock := 0 |}.
Definition sample_inbox : SDB := (repo_IngestSignals sample_len "w" "jira" "pack/conn" sample_batch empty_inbox).1.
Definition sample_key : SigKey := {| KSource := source "w" "jira" "pack/conn"; KID := "a" |}.
Definition sample_sigrow : SignalRow := ingested (sample_signal "a" "") 1714528800000000000 "1970-01-01T00:00:00.000000000Z".
Definition acked_inbox : SDB := (AckSignals "w" ["a"] sample_inbox).1.
Definition collected_inbox : SDB := (GCSignals 0 false acked_inbox).1.
Definition claimed_inbox : SDB := (ClaimSignalIDs "w" ["a"] sample_inbox).1.
Definition last_hour : Z := default 0 (strict_parse "9999-12-31T23:59:59-01:00").
Definition stuck_inbox : SDB :=
  (repo_IngestSignals sample_len "w" "jira" "pack/conn" [sample_signal "x" "9999-12-31T23:59:59-01:00"] empty_inbox).1.

Example claim_oldest_first :
  match (ClaimSignals "w" 10 0 sample_inbox).2 with inr out => SigID <$> out | inl _ => [] end = ["b"; "a"].
Proof. vm_compute. reflexivity. Qed.


Lemma signal_cursor_monotone_witness :
  ∃ c', cursor_at collected_inbox (source "w" "jira" "pack/conn") c' ∧ 1714528800000000000 ≤ c'.
Proof.
  apply (signal_cursor_monotone sample_len empty_inbox sample_inbox collected_inbox).
  - reflexivity.
  - reflexivity.
  - eapply rtc_l; [apply (step_ingest sample_len "w" "jira" "pack/conn" sample_batch)|]. apply rtc_refl.
  - eapply rtc_l; [apply (step_ack sample_len "w" ["a"])|]. eapply rtc_l; [apply (step_gc sample_len 0 false)|]. apply rtc_refl.
  - eexists. split; [vm_compute; reflexivity|vm_compute; reflexivity].
Defined.

Lemma sample_batch_readable row t :
  row ∈ sample_batch → parseSignalTime (IngOccurredAt row) = Some t → readable t = true.
Proof.
  intros Hin Hp.
  assert (∃ u, parseSignalTime (IngOccurredAt row) = Some u ∧ readable u = true) as (u & Hu & Hr).
  { apply elem_of_cons in Hin as [->|Hin]; [|apply elem_of_cons in Hin as [->|[]%elem_of_nil]];
      eexists; (split; [vm_compute; reflexivity|vm_compute; reflexivity]). }
  rewrite Hu in Hp. assert (u = t) as <- by congruence. exact Hr.
Qed.

Lemma ingest_redelivery_witness :
  repo_IngestSignals sample_len "w" "jira" "pack/conn" sample_batch claimed_inbox = (claimed_inbox, inr ()).
Proof.
  apply (ingest_redelivery sample_len "w" "jira" "pack/conn" sample_batch empty_inbox sample_inbox claimed_inbox).
  - rewrite (surjective_pairing (repo_IngestSignals _ _ _ _ _ empty_inbox)). unfold sample_inbox.
    apply (f_equal (pair _)). vm_compute. reflexivity.
  - apply sample_batch_readable.
  - intros k [r Hr].
    destruct (fr_keeps _ _ (frame_ClaimSignalIDs sample_inbox "w" ["a"] sample_inbox (frame_refl _)) k r Hr) as (r' & Hr' & _).
    by exists r'.
  - exact (fr_cursors _ _ (frame_ClaimSignalIDs sample_inbox "w" ["a"] sample_inbox (frame_refl _))).
Defined.

Lemma unreadable_cursor_blocks_source_witness :
  ∃ e, repo_IngestSignals sample_len "w" "jira" "pack/conn" sample_batch stuck_inbox = (stuck_inbox, inl e).
Proof.
  apply (unreadable_cursor_blocks_source sample_len "w" "jira" "pack/conn" last_hour stuck_inbox stuck_inbox sample_batch).
  - eexists. split; [vm_compute; reflexivity|vm_compute; reflexivity].
  - vm_compute. reflexivity.
  - apply rtc_refl.
  - done.
Defined.

Lemma sample_inbox_legible k r : signals sample_inbox !! k = Some r → legible r.
Proof.
  intros Hr%elem_of_map_to_list.
  assert (map_to_list (signals sample_inbox) =
    [(sample_key, sample_sigrow);
     ({| KSource := source "w" "jira" "pack/conn"; KID := "b" |},
      ingested (sample_signal "b" "") 1714525200000000000 "1970-01-01T00:00:00.000000000Z")] ∨
    map_to_list (signals sample_inbox) =
    [({| KSource := source "w" "jira" "pack/conn"; KID := "b" |},
      ingested (sample_signal "b" "") 1714525200000000000 "1970-01-01T00:00:00.000000000Z");
     (sample_key, sample_sigrow)]) as E by (vm_compute; tauto).
  assert (∀ row t, readable t = true →
    legible (ingested row t "1970-01-01T00:00:00.000000000Z")) as Hl.
  { intros row t Ht. split; [by exists t|]. split; [|done]. exists 0. split; vm_compute; reflexivity. }
  assert (∀ x l, (k, r) ∈ x :: l → r = x.2 ∨ (k, r) ∈ l) as Hcons.
  { intros x l [<-|?]%elem_of_cons; auto. }
  destruct E as [E|E]; rewrite E in Hr; apply Hcons in Hr as [->|[->|[]%elem_of_nil]%Hcons];
    apply Hl; vm_compute; reflexivity.
Qed.

Lemma ClaimSignals_spec_witness :
  ∃ out, ClaimSignals "w" 1 0 sample_inbox = (charge_all (key_of <$> out) sample_inbox, inr out) ∧
    Z.of_nat (length out) ≤ 1.
Proof.
  destruct (ClaimSignals_spec "w" 1 0 sample_inbox) as (out & Hrun & _ & _ & Hlen & _).
  - done.
  - apply sample_inbox_legible.
  - exists out. split; [exact Hrun|exact Hlen].
Defined.
