(* ===== verification/Triggers.v ===== *)
(** * Trigger declarations

    Models the trigger types of internal/orchestrator/spec_types.go,
    trigger_validate.go and signal_trigger_derive.go, and time.ParseDuration,
    which reads the durations of a declaration.  A duration is a number of
    nanoseconds in the range of an int64. *)
From S2P Require Import Prelude Json.
From Stdlib Require Import SpecFloat.
Open Scope Z_scope.

(** ** Durations *)

(** float64, as [time.ParseDuration] and the trigger loop use it: the nearest
    double of an integer, product and quotient with rounding to nearest even,
    and truncation to an integer. *)
Definition float64 (n : Z) : spec_float := binary_normalize 53 1024 n 0 false.
Definition fmul : spec_float → spec_float → spec_float := SFmul 53 1024.
Definition fdiv : spec_float → spec_float → spec_float := SFdiv 53 1024.
Definition ftrunc (f : spec_float) : Z :=
  match f with
  | S754_finite s m e =>
      let n := if 0 <=? e then Z.pos m * 2 ^ e else Z.pos m / 2 ^ (- e) in
      if s then - n else n
  | _ => 0
  end.

Definition digit_of (c : ascii) : Z := Z.of_N (N_of_ascii c) - 48.

(** The leading digits: their value and the rest, [None] beyond 2^63. *)
Fixpoint leadingInt (x : Z) (s : string) : option (Z * string) :=
  match s with
  | String c s' =>
      if is_digit c then
        if 2 ^ 63 / 10 <? x then None
        else let x := x * 10 + digit_of c in if 2 ^ 63 <? x then None else leadingInt x s'
      else Some (x, s)
  | EmptyString => Some (x, s)
  end.

(** The digits of a fraction, its scale, and the rest; digits that no longer
    fit are dropped. *)
Fixpoint leadingFraction (x : Z) (scale : spec_float) (overflow : bool) (s : string) : Z * spec_float * string :=
  match s with
  | String c s' =>
      if is_digit c then
        if overflow then leadingFraction x scale true s'
        else if (2 ^ 63 - 1) / 10 <? x then leadingFraction x scale true s'
        else let y := x * 10 + digit_of c in
             if 2 ^ 63 <? y then leadingFraction x scale true s'
             else leadingFraction y (fmul scale (float64 10)) false s'
      else (x, scale, s)
  | EmptyString => (x, scale, s)
  end.

(** The text up to the next digit or dot. *)
Fixpoint take_unit (s : string) : string * string :=
  match s with
  | String c s' =>
      if is_digit c || bool_decide (c = "."%char) then ("", s)
      else let (u, rest) := take_unit s' in (String c u, rest)
  | EmptyString => ("", "")
  end.

(** Both spellings of the micro sign are there. *)
Definition unitMap (u : string) : option Z :=
  if bool_decide (u = "ns") then Some 1
  else if bool_decide (u ∈ ["us"; "µs"; "μs"]) then Some 1000
  else if bool_decide (u = "ms") then Some (10 ^ 6)
  else if bool_decide (u = "s") then Some (10 ^ 9)
  else if bool_decide (u = "m") then Some (60 * 10 ^ 9)
  else if bool_decide (u = "h") then Some (3600 * 10 ^ 9)
  else None.

(** One number with its unit. *)
Definition duration_part (s : string) : option (Z * string) :=
  match s with
  | EmptyString => None
  | String c _ =>
      if is_digit c || bool_decide (c = "."%char) then
        '(v, s1) ← leadingInt 0 s;
        let pre := negb (bool_decide (String.length s1 = String.length s)) in
        let '(f, scale, s2, post) :=
          match s1 with
          | String "." s1' =>
              let '(f, scale, s2) := leadingFraction 0 (float64 1) false s1' in
              (f, scale, s2, negb (bool_decide (String.length s2 = String.length s1')))
          | _ => (0, float64 1, s1, false)
          end in
        if negb pre && negb post then None
        else
          let (u, rest) := take_unit s2 in
          unit ← unitMap u;
          if 2 ^ 63 / unit <? v then None
          else
            let v := v * unit + (if 0 <? f then ftrunc (fmul (float64 f) (fdiv (float64 unit) scale)) else 0) in
            if 2 ^ 63 <? v then None else Some (v, rest)
      else None
  end.

(** Every part is at least one byte. *)
Fixpoint duration_parts (fuel : nat) (d : Z) (s : string) : option Z :=
  match s, fuel with
  | EmptyString, _ => Some d
  | _, O => None
  | _, S fuel =>
      '(v, rest) ← duration_part s;
      let d := (d + v) mod 2 ^ 64 in
      if 2 ^ 63 <? d then None else duration_parts fuel d rest
  end.

Definition ParseDuration (s : string) : option Z :=
  let '(neg, s) := match s with
                   | String "-" s' => (true, s')
                   | String "+" s' => (false, s')
                   | _ => (false, s)
                   end in
  if bool_decide (s = "0") then Some 0
  else if str_empty s then None
  else
    d ← duration_parts (String.length s) 0 s;
    if (neg : bool) then Some (- d) else if 2 ^ 63 - 1 <? d then None else Some d.

Example durations :
  (ParseDuration "1h30m", ParseDuration "1.5h", ParseDuration "-2s", ParseDuration ".5m", ParseDuration "10", ParseDuration "100us",
   ParseDuration "0", ParseDuration "2562048h", ParseDuration "-9223372036854775808ns", ParseDuration "0.3333333333333333333h", ParseDuration "1..s") =
  (Some 5400000000000, Some 5400000000000, Some (-2000000000), Some 30000000000, None, Some 100000,
   Some 0, None, Some (-9223372036854775808), Some 1200000000000, None).
Proof. vm_compute. reflexivity. Qed.

(** ** Declarations *)
Record TriggerConnector : Type := {
  Pack : string;
  ConnectorName : string;
  Service : string;
  Config : gmap string json;
}.
Record Trigger : Type := {
  TgName : string;
  TgOn : string;
  TgEvery : string;
  TgRun : string;
  TgTimeout : string;
  TgConnector : option TriggerConnector;
}.
Definition TriggerOnSchedule : string := "schedule".
Definition TriggerOnSignals : string := "signals".
Definition TriggerSweepResolution : Z := 60 * 10 ^ 9.

(** The error texts are not modelled; every error of a declaration is one. *)
Definition valid_trigger (trig : Trigger) : bool :=
  negb (str_empty (TgName trig))
  && bool_decide (TgOn trig ∈ [""; TriggerOnSchedule; TriggerOnSignals])
  && negb (str_empty (TgRun trig))
  && negb (str_empty (TgEvery trig))
  && match ParseDuration (TgEvery trig) with
     | None => false
     | Some every =>
         (0 <? every)
         && (str_empty (TgTimeout trig)
             || match ParseDuration (TgTimeout trig) with Some timeout => 0 <? timeout | None => false end)
         && (TriggerSweepResolution <=? every)
     end.

Fixpoint validate_from (seen : gset string) (triggers : list Trigger) : bool :=
  match triggers with
  | [] => true
  | trig :: triggers =>
      negb (bool_decide (TgName trig ∈ seen)) && valid_trigger trig && validate_from ({[TgName trig]} ∪ seen) triggers
  end.
Definition ValidateTriggers (triggers : list Trigger) : bool := validate_from ∅ triggers.

Definition TriggerTimeout (t : Trigger) : Z :=
  if str_empty (TgTimeout t) then 0
  else match ParseDuration (TgTimeout t) with
       | None => 0
       | Some d => if d <=? 0 then 0 else d
       end.

(** ** Triggers derived from signal sources *)
Record SignalSource : Type := {
  SsConnector : string;
  SsService : string;
  SsEvery : string;
  SsConfig : option (gmap string json);
}.

Definition splitConnectorRef (ref : string) : option (string * string) :=
  match split_slash ref with
  | [pack; connector] => if str_empty pack || str_empty connector then None else Some (pack, connector)
  | _ => None
  end.

Definition signalTriggerRun : string := String.concat (String "034" "") ["exec "; "$BOID_CONNECTOR_EXEC"; ""].
Definition signalTriggerNamePrefix : string := "signal:".

Definition signal_trigger (src : SignalSource) : option Trigger :=
  '(pack, connectorName) ← splitConnectorRef (SsConnector src);
  if str_empty (SsService src) || str_empty (SsEvery src) then None
  else Some {| TgName := signalTriggerNamePrefix +:+ SsConnector src; TgOn := ""; TgEvery := SsEvery src;
               TgRun := signalTriggerRun; TgTimeout := "";
               TgConnector := Some {| Pack := pack; ConnectorName := connectorName; Service := SsService src;
                                      Config := default ∅ (SsConfig src) |} |}.

Fixpoint derive_from (seen : gset string) (sources : list SignalSource) : option (list Trigger) :=
  match sources with
  | [] => Some []
  | src :: sources =>
      trig ← signal_trigger src;
      if bool_decide (TgName trig ∈ seen) then None
      else rest ← derive_from ({[TgName trig]} ∪ seen) sources; Some (trig :: rest)
  end.
Definition deriveSignalTriggers (sources : list SignalSource) : option (list Trigger) := derive_from ∅ sources.

(** A workspace's triggers: the declared ones, then the derived ones. *)
Definition workspaceTriggers (declared : list Trigger) (sources : list SignalSource) : option (list Trigger) :=
  derived ← deriveSignalTriggers sources;
  let triggers := declared ++ derived in
  if ValidateTriggers triggers then Some triggers else None.

(** ** What validation guarantees *)
Lemma validate_from_spec seen triggers :
  validate_from seen triggers = true ↔
  NoDup (TgName <$> triggers) ∧ Forall (λ t, (TgName t ∉ seen) ∧ valid_trigger t = true) triggers.
Proof.
  revert seen. induction triggers as [|t triggers IH]; intros seen; simpl.
  - split; [by repeat constructor|done].
  - rewrite !andb_true_iff, negb_true_iff, bool_decide_eq_false, IH, NoDup_cons, Forall_cons. split.
    + intros [[Hs Hv] [Hnd Hall]]. rewrite Forall_forall in Hall. split_and!; try done.
      * intros (t' & Heq & Hin)%list_elem_of_fmap. destruct (Hall _ Hin) as [Hnot _]. set_solver.
      * apply Forall_forall. intros t' Hin. destruct (Hall _ Hin). split; [set_solver|done].
    + intros [[Hnin Hnd] [[Hs Hv] Hall]]. split_and!; try done. rewrite Forall_forall in *. intros t' Hin.
      destruct (Hall _ Hin). split; [|done]. apply not_elem_of_union. split; [|done].
      apply not_elem_of_singleton. intros Heq. apply Hnin. apply list_elem_of_fmap. by exists t'.
Qed.

Lemma ValidateTriggers_spec triggers :
  ValidateTriggers triggers = true ↔ NoDup (TgName <$> triggers) ∧ Forall (λ t, valid_trigger t = true) triggers.
Proof.
  unfold ValidateTriggers. rewrite validate_from_spec. apply and_iff_compat_l. rewrite !Forall_forall. split.
  - intros Hall t Hin. apply (Hall t Hin).
  - intros Hall t Hin. split; [set_solver|by apply Hall].
Qed.

Lemma valid_trigger_every t :
  valid_trigger t = true →
  ∃ every, ParseDuration (TgEvery t) = Some every ∧ TriggerSweepResolution ≤ every ∧ TgName t ≠ "" ∧ TgRun t ≠ "".
Proof.
  unfold valid_trigger. rewrite !andb_true_iff. intros [[[[Hn _] Hr] _] Hp].
  destruct (ParseDuration (TgEvery t)) as [every|]; [|done]. exists every.
  rewrite !andb_true_iff in Hp. destruct Hp as [_ Hp%Z.leb_le]. unfold str_empty in *.
  rewrite negb_true_iff, bool_decide_eq_false in Hn, Hr. done.
Qed.
