(* ===== verification/CardLaunch.v ===== *)
(** * Launching card commands

    Models internal/api/card_command_launcher.go and
    card_request_auto_dispatch.go over the ledger and the task rows, the bodies
    of the loops of card_request_dispatch_loop.go and of
    internal/orchestrator/card_request_lifecycle_loop.go, and
    card_commands_validate.go.

    The workspace configuration, the dispatcher that starts a container and
    the other requests that run in between are the class [LaunchEnv].  Texts
    of errors that reach a log only are left out. *)
From S2P Require Import Prelude Json Payload Task Machine Lifecycle Coordinator Store CardDetail CardRequests CardDispatch TaskStore TaskRows CardWorkflow Workflow Notify Triggers.
Open Scope Z_scope.

(** ** Configuration *)
Record CardCommand : Type := { CmLabel : string; CmRun : string; CmCardWrite : bool }.
Record AutomationMeta : Type := { CardCommands : gmap string CardCommand; CardCommandsOrder : list string }.

Definition valid_command (kv : string * CardCommand) : bool :=
  negb (str_empty (TrimSpace kv.1)) && negb (bool_decide (kv.1 = CardRequestCommandKeyGo)) && negb (str_empty (TrimSpace (CmLabel kv.2)))
  && negb (str_empty (TrimSpace (CmRun kv.2))).
Definition ValidateCardCommands (commands : gmap string CardCommand) (event : string) : bool :=
  forallb valid_command (map_to_list commands) && (str_empty event || bool_decide (is_Some (commands !! event))).

(** ** Starting a container *)
Record StartExecRequest : Type := {
  SeWorkspaceID : string;
  SeProjectID : string;
  Argv : list string;
  SeReadonly : bool;
  Interactive : bool;
  DisplayName : string;
  SeConnector : option TriggerConnector;
  SeJobID : string;
  SeCardID : string;
  SeCardRequestID : string;
}.

Definition triggerRunArgv (run : string) : list string := ["sh"; "-c"; "exec 0</dev/null; " +:+ run].

(** [StartExec] answers with the job's id, or with the text of an error. *)
Class LaunchEnv : Type := {
  launch_uuid : nat → string;
  hydrateAutomationMeta : string → string → option AutomationMeta;
  StartExec : StartExecRequest → WDB → WDB * (string + string);
  launch_others : nat → WDB → WDB;
}.

Definition def_of (key : string) (cmd : CardCommand) : CardRequestDefinition :=
  {| DCommandKey := key; Label := CmLabel cmd; Run := CmRun cmd; Version := ""; CardWrite := CmCardWrite cmd |}.
Definition exec_of (card : Task) (cardID key prefix job request : string) (cmd : CardCommand) : StartExecRequest :=
  {| SeWorkspaceID := WorkspaceID card; SeProjectID := ProjectID card; Argv := triggerRunArgv (CmRun cmd); SeReadonly := true;
     Interactive := false; DisplayName := prefix +:+ key; SeConnector := None; SeJobID := job; SeCardID := cardID; SeCardRequestID := request |}.

Section launch.
Context `{LaunchEnv}.

Definition pause (n : nat) : taskm unit := modify (launch_others n).
Definition draw_uuid : taskm string := on_ledger (new_uuid launch_uuid).

(** The container of a claimed request; the slot is given back if it does not
    start. *)
Definition start_or_release (req : StartExecRequest) (failed : werr) : taskm string :=
  _ ← pause 1;
  job ← (λ s, let '(s', r) := StartExec req s in (s', inr r));
  _ ← pause 2;
  match job with
  | inr jobID => mret jobID
  | inl err => _ ← try_ (on_ledger (repo_FailCardRequest launch_uuid (SeCardRequestID req) ("dispatch failed: " +:+ err))); throw failed
  end.

(** ** The automatic dispatcher *)
Definition dispatchQueuedCardRequest (cardID : string) : taskm bool :=
  if str_empty cardID then mret false
  else
    head ← try_ (on_ledger (PeekOldestQueuedCardRequest cardID));
    match head with
    | inl (WCard ErrNoQueuedCardRequests) => mret false
    | inl e => throw e
    | inr (headID, commandKey) =>
        _ ← pause 3;
        card ← GetTask cardID;
        match hydrateAutomationMeta (ProjectID card) (WorkspaceID card) with
        | None => mret false
        | Some meta =>
            _ ← pause 4;
            match CardCommands meta !! commandKey with
            | None =>
                _ ← on_ledger (repo_FailCardRequest launch_uuid headID
                      ("card command " +:+ quoted commandKey +:+ " is no longer declared in workspace configuration"));
                mret false
            | Some cmd =>
                launcherJobID ← draw_uuid;
                claim ← try_ (on_ledger (repo_ClaimQueuedCardRequestsForDispatch cardID launcherJobID commandKey (def_of commandKey cmd)));
                match claim with
                | inl (WCard e) => if IsCardRequestDispatchSkip e then mret false else throw (WCard e)
                | inl e => throw e
                | inr (primary, _) =>
                    _ ← start_or_release (exec_of card cardID commandKey "card:auto:" launcherJobID (RID primary) cmd) (WInternal "start exec");
                    mret true
                end
            end
        end
    end.

Definition tryDispatchQueuedCardRequest_ (cardID : string) (s : WDB) : WDB := (dispatchQueuedCardRequest cardID s).1.

Fixpoint sweep_cards (cardIDs : list string) : taskm (list string) :=
  match cardIDs with
  | [] => mret []
  | cardID :: cardIDs =>
      ok ← try_ (dispatchQueuedCardRequest cardID);
      rest ← sweep_cards cardIDs;
      mret (match ok with inr true => cardID :: rest | _ => rest end)
  end.
Definition SweepQueuedCardRequests : taskm (list string) :=
  cardIDs ← gets (λ s, ListCardIDsWithQueuedCardRequests (ledger_view s));
  sweep_cards cardIDs.

(** ** A command of a human *)
Definition cardCommandInstructionMaxBytes : Z := 10 * 1024 * 1024.

Record RunCardCommandResult : Type := {
  Occupied : bool;
  RcRequestID : string;
  RcLauncherJobID : string;
  RcTargetKind : string;
  RcTargetID : string;
  RcInstruction : string;
}.

Definition currentOccupantResult (cardID instruction : string) : taskm RunCardCommandResult :=
  rows ← gets (λ s, ListCardRequestsByCard cardID (led s));
  match List.find is_active rows with
  | Some r => mret {| Occupied := true; RcRequestID := RID r; RcLauncherJobID := ""; RcTargetKind := TargetKind r;
                      RcTargetID := TargetID r; RcInstruction := instruction |}
  | None => throw (WStatus 409)
  end.

Definition cardWorkChildOccupantTx (cardID : string) : taskm (option string) :=
  fresh ← GetTask cardID;
  _ ← fail_if (negb (bool_decide (Status fresh ∈ [TaskStatusParked; TaskStatusWorking]))) (WStatus 409);
  tri ← try_ (GetTaskTriage cardID);
  _ ← match tri with
      | inr tri => _ ← lift (DetailOpenSlotChildID (Detail tri)); mret ()
      | inl WNoRows => mret ()
      | inl e => throw e
      end;
  count ← gets (OpenChildCount fresh);
  if bool_decide (count = 0%nat) then mret None
  else
    children ← gets (ListChildren cardID);
    mret (Some (match List.find (λ c, negb (IsTerminalStatus (Status c))) children with Some c => ID c | None => "" end)).

Definition status_of (e : werr) : werr := match e with WStatus c => WStatus c | _ => WStatus 500 end.

(** The transaction that takes the slot: the new row, or the answer. *)
Definition reserve_slot (cardID instruction : string) (req : CardRequest) : taskm (CardRequest + RunCardCommandResult) :=
  _ ← on_ledger (ClearCardForceReleaseBarrier cardID);
  occupant ← map_err status_of (cardWorkChildOccupantTx cardID);
  match occupant with
  | Some occupantID =>
      mret (inr {| Occupied := true; RcRequestID := ""; RcLauncherJobID := "";
                   RcTargetKind := if str_empty occupantID then "" else CardRequestTargetKindTask;
                   RcTargetID := occupantID; RcInstruction := instruction |})
  | None =>
      created ← try_ (on_ledger (CreateCardRequest launch_uuid (Some CardRequestStatusLaunching) req));
      match created with
      | inr row => mret (inl row)
      | inl (WCard ErrCardRequestSlotOccupied) => res ← currentOccupantResult cardID instruction; mret (inr res)
      | inl _ => throw (WStatus 500)
      end
  end.

Definition human_request (cardID commandKey instruction job : string) (cmd : CardCommand) : CardRequest :=
  {| RID := ""; CardID := cardID; CommandKey := commandKey; CauseID := ""; RStatus := CardRequestStatusLaunching;
     RInstruction := instruction; Launched := def_of commandKey cmd; LauncherJobID := job; TargetKind := ""; TargetID := "";
     FoldedInto := ""; Result := ""; RError := ""; RCreatedAt := 0; RUpdatedAt := 0 |}.

Definition RunCardCommandAsHuman (cardID commandKey instruction : string) : taskm RunCardCommandResult :=
  _ ← fail_if (cardCommandInstructionMaxBytes <? Z.of_nat (String.length instruction)) (WStatus 400);
  card ← map_err statusErrorForGetTaskErr (GetTask cardID);
  _ ← fail_if (negb (bool_decide (Type_ card = TaskTypeCard))) (WStatus 400);
  match hydrateAutomationMeta (ProjectID card) (WorkspaceID card) with
  | None => throw (WStatus 400)
  | Some meta =>
      _ ← fail_if (bool_decide (CardCommands meta = ∅)) (WStatus 400);
      match CardCommands meta !! commandKey with
      | None => throw (WStatus 404)
      | Some cmd =>
          launcherJobID ← draw_uuid;
          _ ← pause 5;
          slot ← map_err status_of (InTxDB (reserve_slot cardID instruction (human_request cardID commandKey instruction launcherJobID cmd)));
          match slot with
          | inr occupied => mret occupied
          | inl row =>
              job ← start_or_release (exec_of card cardID commandKey "card:" launcherJobID (RID row) cmd) (WStatus 500);
              mret {| Occupied := false; RcRequestID := RID row; RcLauncherJobID := job; RcTargetKind := ""; RcTargetID := "";
                      RcInstruction := "" |}
          end
      end
  end.

(** ** The buttons *)
Record CardCommandOption : Type := { OptKey : string; OptLabel : string }.

Fixpoint ordered_options (commands : gmap string CardCommand) (seen : gset string) (order : list string) : list CardCommandOption :=
  match order with
  | [] => []
  | key :: order =>
      match commands !! key with
      | Some cmd =>
          if bool_decide (key ∈ seen) then ordered_options commands seen order
          else {| OptKey := key; OptLabel := CmLabel cmd |} :: ordered_options commands ({[key]} ∪ seen) order
      | None => ordered_options commands seen order
      end
  end.
Definition cardCommandOptions (meta : option AutomationMeta) : list CardCommandOption :=
  match meta with
  | None => []
  | Some meta =>
      let opts := ordered_options (CardCommands meta) ∅ (CardCommandsOrder meta) in
      let extra := merge_sort String.le (filter (λ key, key ∉ (OptKey <$> opts)) (map_to_list (CardCommands meta)).*1) in
      opts ++ omap (λ key, (λ cmd, {| OptKey := key; OptLabel := CmLabel cmd |}) <$> CardCommands meta !! key) extra
  end.

(** ** The loops *)
Definition dispatch_loop_runOnce : taskm unit := _ ← try_ SweepQueuedCardRequests; mret ().
Definition RunStartupRecovery : taskm unit := _ ← try_ (on_ledger (RecoverLaunchingCardRequests launch_uuid)); mret ().
Definition lifecycle_loop_runOnce : taskm unit :=
  _ ← try_ (on_ledger (ReconcileCardRequestSlots launch_uuid));
  _ ← pause 6;
  _ ← try_ (on_ledger (ReconcileLaunchingCardRequests launch_uuid));
  mret ().
End launch.

(** ** The launchers are runs of the ledger *)
Section runs.
Context `{LaunchEnv} (uuid_ne : ∀ n, launch_uuid n ≠ "").

(** What happens to the ledger, in automatic steps only, or in any. *)
Definition auto_run (s s' : WDB) : Prop :=
  db_wf (ledger_view s) → db_wf (ledger_view s') ∧ rtc (auto_step launch_uuid) (ledger_view s) (ledger_view s').
Definition any_run (s s' : WDB) : Prop :=
  db_wf (ledger_view s) → db_wf (ledger_view s') ∧ rtc (ledger_step launch_uuid) (ledger_view s) (ledger_view s').

#[local] Instance auto_run_refl : Reflexive auto_run.
Proof. intros s Hs. split; [done|apply rtc_refl]. Qed.
#[local] Instance auto_run_trans : Transitive auto_run.
Proof. intros a b c Hab Hbc Ha. destruct (Hab Ha) as [Hb Rab]. destruct (Hbc Hb) as [Hc Rbc]. split; [done|by etrans]. Qed.
#[local] Instance any_run_refl : Reflexive any_run.
Proof. intros s Hs. split; [done|apply rtc_refl]. Qed.
#[local] Instance any_run_trans : Transitive any_run.
Proof. intros a b c Hab Hbc Ha. destruct (Hab Ha) as [Hb Rab]. destruct (Hbc Hb) as [Hc Rbc]. split; [done|by etrans]. Qed.

Lemma auto_any s s' : auto_run s s' → any_run s s'.
Proof.
  intros Ha Hs. destruct (Ha Hs) as [Hs' Hr]. split; [done|]. clear Ha Hs Hs'.
  induction Hr as [|a b c Hab _ IH]; [apply rtc_refl|]. eapply rtc_l; [by left|done].
Qed.

(** The view of the ledger after an operation on it. *)
Lemma view_after {A} (m : cardm A) s :
  tasks (m (ledger_view s)).1 = tasks (ledger_view s) → ledger_view (on_ledger m s).1 = (m (ledger_view s)).1.
Proof.
  intros Ht. unfold on_ledger. destruct (m (ledger_view s)) as [l r]. cbn in Ht |- *. unfold ledger_view. cbn. rewrite <- Ht. by destruct l.
Qed.
Lemma on_ledger_auto {A} (m : cardm A) :
  (∀ l, db_wf l → auto_step launch_uuid l (m l).1 ∧ tasks (m l).1 = tasks l) → steps auto_run (on_ledger m).
Proof.
  intros Hm s Hs. destruct (Hm _ Hs) as [Hstep Ht]. rewrite view_after by done. split; [|by apply rtc_once].
  by eapply auto_step_spec.
Qed.

(** A change beside the ledger's tables. *)
Lemma env_same l l' :
  db_wf l → card_requests l' = card_requests l → tasks l' = tasks l → barriers l' = barriers l → auto_step launch_uuid l l'.
Proof.
  intros [_ Hfk] Hr Ht Hb. apply env_step; [|by rewrite Hb]. rewrite Hr. apply map_eq. intros k.
  destruct (card_requests l !! k) as [r|] eqn:Hk; symmetry.
  - apply map_lookup_filter_Some. split; [done|]. cbn. rewrite Ht. by eapply Hfk.
  - apply map_lookup_filter_None. by left.
Qed.

Lemma draw_uuid_auto : steps auto_run draw_uuid.
Proof. apply on_ledger_auto. intros l Hl. split; [|done]. by apply env_same. Qed.
Lemma fail_auto id err : steps auto_run (on_ledger (repo_FailCardRequest launch_uuid id err)).
Proof.
  apply on_ledger_auto. intros l Hl. split; [apply fail_step|]. apply q_tasks. unfold repo_FailCardRequest. apply quietly_tx; [|done]. eauto with boid.
Qed.
Lemma claim_auto c job key def : steps auto_run (on_ledger (repo_ClaimQueuedCardRequestsForDispatch c job key def)).
Proof.
  apply on_ledger_auto. intros l Hl. split; [apply dispatch_step|].
  destruct (dispatch_cases c job key def l _ Hl eq_refl) as [Hq|(Hb & Hc & Hj & r & Hclaim)]; [apply Hq|].
  by destruct (claim_wf _ _ _ _ _ _ Hl Hc Hj Hclaim) as (_ & _ & ? & _).
Qed.
Lemma peek_auto c : steps auto_run (on_ledger (PeekOldestQueuedCardRequest c)).
Proof.
  apply on_ledger_auto. intros l Hl. assert ((PeekOldestQueuedCardRequest c l).1 = l) as ->.
  { unfold PeekOldestQueuedCardRequest. rewrite bind_gets. by destruct (select_where _ _). }
  split; [by apply env_same|done].
Qed.

Section automatic.
Context (others_auto : ∀ n s, auto_run s (launch_others n s)) (start_auto : ∀ req s, auto_run s (StartExec req s).1).

Lemma start_auto_run req e : steps auto_run (start_or_release req e).
Proof.
  unfold start_or_release, pause. apply steps_bind; [apply _|by apply steps_modify|intros _].
  apply steps_bind; [apply _| |].
  { intros s. specialize (start_auto req s). by destruct (StartExec req s). }
  intros job. apply steps_bind; [apply _|by apply steps_modify|intros _]. destruct job; [|steps_tac].
  apply steps_bind; [apply _|apply steps_try; apply fail_auto|]. steps_tac.
Qed.
Lemma dispatch_auto c : steps auto_run (dispatchQueuedCardRequest c).
Proof.
  pose proof (peek_auto c). pose proof fail_auto. pose proof claim_auto. pose proof draw_uuid_auto. pose proof start_auto_run.
  assert (∀ n, steps auto_run (pause n)) by (intros n; by apply steps_modify).
  unfold dispatchQueuedCardRequest, GetTask. steps_tac.
Qed.

Lemma sweep_auto cs : steps auto_run (sweep_cards cs).
Proof. induction cs; cbn [sweep_cards]; [steps_tac|]. pose proof dispatch_auto. steps_tac. Qed.
Lemma sweep_all_auto : steps auto_run SweepQueuedCardRequests.
Proof. unfold SweepQueuedCardRequests. pose proof sweep_auto. steps_tac. Qed.
Lemma pass_auto {A} (m : cardm A) :
  (∀ l, auto_step launch_uuid l (m l).1) → (∀ l, db_wf l → quiet l (m l).1) → steps auto_run (on_ledger m).
Proof. intros Hm Hq. apply on_ledger_auto. intros l Hl. split; [done|]. by apply q_tasks, Hq. Qed.
Lemma lifecycle_auto : steps auto_run lifecycle_loop_runOnce.
Proof.
  assert (steps auto_run (pause 6)) by by apply steps_modify.
  assert (steps auto_run (on_ledger (ReconcileCardRequestSlots launch_uuid))).
  { apply pass_auto; [intros l; apply reconcile_step|intros l Hl; by apply ReconcileCardRequestSlots_quiet]. }
  assert (steps auto_run (on_ledger (ReconcileLaunchingCardRequests launch_uuid))).
  { apply pass_auto; [intros l; apply reconcile_launching_step|intros l Hl; by apply ReconcileLaunchingCardRequests_quiet]. }
  unfold lifecycle_loop_runOnce. steps_tac.
Qed.
Lemma recovery_auto : steps auto_run RunStartupRecovery.
Proof.
  assert (steps auto_run (on_ledger (RecoverLaunchingCardRequests launch_uuid))).
  { apply pass_auto; [intros l; apply recover_step|intros l Hl; by apply RecoverLaunchingCardRequests_quiet]. }
  unfold RunStartupRecovery. steps_tac.
Qed.

(** The human's side. *)
Lemma on_ledger_any {A} (m : cardm A) :
  (∀ l, db_wf l → ledger_step launch_uuid l (m l).1 ∧ tasks (m l).1 = tasks l) → steps any_run (on_ledger m).
Proof.
  intros Hm s Hs. destruct (Hm _ Hs) as [Hstep Ht]. rewrite view_after by done. split; [|by apply rtc_once]. by eapply ledger_step_wf.
Qed.
Lemma clear_any c : steps any_run (on_ledger (ClearCardForceReleaseBarrier c)).
Proof. apply on_ledger_any. intros l _. split; [right; apply clear_step|]. done. Qed.
(** A creation that fails leaves the tables alone. *)
Lemma create_error st req l l' e :
  CreateCardRequest launch_uuid st req l = (l', inl e) → card_requests l' = card_requests l ∧ tasks l' = tasks l ∧ barriers l' = barriers l.
Proof.
  intros Hc. unfold CreateCardRequest, time_Now in Hc. rewrite bind_fail_if in Hc. destruct (str_empty (CardID req)); [by injection Hc as <- _|].
  apply bind_err in Hc as [Hst|(st1 & l1 & Hst & Hc)].
  { destruct st as [[]|]; try (by injection Hst as <- _). by destruct (str_empty (LauncherJobID req)); injection Hst as <- _. }
  assert (l1 = l) as ->.
  { destruct st as [[]|]; try (by injection Hst as <- _). by destruct (str_empty (LauncherJobID req)); injection Hst as <- _. }
  apply bind_err in Hc as [Hid|(id & l1 & Hid & Hc)]; [by destruct (str_empty (RID req)); injection Hid as <- _|].
  assert (card_requests l1 = card_requests l ∧ tasks l1 = tasks l ∧ barriers l1 = barriers l) as H1
    by (by destruct (str_empty (RID req)); injection Hid as <- _).
  rewrite bind_gets in Hc. cbv zeta in Hc. apply bind_err in Hc as [Hins|(u & l2 & _ & Hc)]; [|done].
  rewrite map_err_run in Hins. destruct (insert_request _ l1) as [l3 [e'|u']] eqn:Hi; [|done]. injection Hins as <- _.
  by apply insert_err in Hi as ->.
Qed.
Lemma create_any st req : FoldedInto req = "" → steps any_run (on_ledger (CreateCardRequest launch_uuid st req)).
Proof.
  intros Hf. apply on_ledger_any. intros l Hl. destruct (CreateCardRequest launch_uuid st req l) as [l' [e|row]] eqn:Hc; cbn [fst].
  - destruct (create_error st req l l' e Hc) as (Hr & Ht & Hb).
    split; [left; by apply env_same|done].
  - split; [|by destruct (Create_run _ uuid_ne _ _ _ _ _ Hl Hf Hc) as (_ & ? & _)].
    right. pose proof (create_step launch_uuid st req l Hf) as Hstep. unfold InTxDB in Hstep. by rewrite Hc in Hstep.
Qed.
Lemma command_any cardID key instruction : steps any_run (RunCardCommandAsHuman cardID key instruction).
Proof.
  pose proof clear_any as Hcl. pose proof create_any as Hcr. assert (∀ n, steps any_run (pause n)) as Hp by (intros n; apply steps_modify; intros s; by apply auto_any).
  assert (steps any_run draw_uuid) as Hd by (intros s; apply auto_any, draw_uuid_auto).
  assert (∀ req e, steps any_run (start_or_release req e)) as Hst by (intros req e s; apply auto_any, start_auto_run).
  assert (∀ A (m : fallible A), steps any_run (lift m)) as Hlift by (intros A m s; by destruct m).
  assert (∀ req, FoldedInto req = "" → steps any_run (reserve_slot cardID instruction req)) as Hres.
  { intros req Hf. unfold reserve_slot, cardWorkChildOccupantTx, currentOccupantResult, GetTask, GetTaskTriage.
    specialize (Hcr (Some CardRequestStatusLaunching) req Hf). steps_tac. }
  assert (∀ job cmd, steps any_run (reserve_slot cardID instruction (human_request cardID key instruction job cmd))) by (intros job cmd; by apply Hres).
  unfold RunCardCommandAsHuman, GetTask. steps_tac.
Qed.

(** The launchers are runs of the ledger.  However other requests interleave
    with them, the automatic dispatcher, its sweep, the loop that releases
    slots and the recovery at start-up take the automatic steps of the ledger
    and no others, and a command of a human takes its steps: what is proved of
    every run of the ledger, one running request per card, a force release
    that holds until a human acts, is proved of them. *)
Theorem launches_are_ledger_runs s :
  db_wf (ledger_view s) →
  let autos s' := rtc (auto_step launch_uuid) (ledger_view s) (ledger_view s') in
  (∀ card, autos (dispatchQueuedCardRequest card s).1) ∧ autos (SweepQueuedCardRequests s).1 ∧ autos (lifecycle_loop_runOnce s).1 ∧
  autos (RunStartupRecovery s).1 ∧
  (∀ card key instruction, rtc (ledger_step launch_uuid) (ledger_view s) (ledger_view (RunCardCommandAsHuman card key instruction s).1)).
Proof.
  intros Hs autos. split_and!; [intros card; by apply dispatch_auto|by apply sweep_all_auto|by apply lifecycle_auto|by apply recovery_auto|].
  intros. by apply command_any.
Qed.
End automatic.
End runs.

(** ** A launch that fails *)
Section release.
Context `{LaunchEnv}.

Lemma active_live r : is_active r = true → RStatus r ∈ live_statuses.
Proof. unfold is_active, status_in, live_statuses. intros Ha%bool_decide_eq_true. set_solver. Qed.

(** After a request was failed, or could not be, it does not hold the slot. *)
Lemma fail_releases id err s r :
  db_wf (ledger_view s) → card_requests (led (on_ledger (repo_FailCardRequest launch_uuid id err) s).1) !! id = Some r → is_active r = false.
Proof.
  intros Hs. unfold on_ledger, repo_FailCardRequest, InTxDB.
  destruct (card_requests (led s) !! id) as [r0|] eqn:Hr0.
  - assert (id ≠ "") as Hid.
    { destruct Hs as [Hwf _]. destruct (wf_row _ Hwf _ _ Hr0) as (Hid & _). by rewrite (wf_id _ Hwf _ _ Hr0) in Hid. }
    destruct (decide (RStatus r0 ∈ live_statuses)) as [Hlive|Hdead].
    + destruct (FailCardRequest_run launch_uuid id err (ledger_view s) r0 Hs Hid Hr0 Hlive) as [Hf _]. rewrite Hf. cbn.
      rewrite (proj1 (log_outcome_tables _ _ _ _ _)). cbn [card_requests set_requests]. rewrite lookup_fmap, Hr0. intros [= <-].
      unfold fail_row. rewrite bool_decide_true; [done|]. by eapply wf_id; [apply Hs|].
    + destruct (FailCardRequest launch_uuid id err (ledger_view s)) as [l [e|u]] eqn:Hf.
      * cbn. intros Hr. assert (r = r0) as -> by congruence. destruct (is_active r0) eqn:Ha; [|done]. by apply active_live in Ha.
      * exfalso. pose proof (fail_run id err foldedSiblingsRequeue (ledger_view s) (proj1 Hs) Hid) as Hrun.
        change (card_requests (ledger_view s)) with (card_requests (led s)) in Hrun. rewrite Hr0 in Hrun.
        destruct Hrun as [Hno _]. unfold FailCardRequest in Hf. apply bind_ok in Hf as (x & l1 & Hx & _). by rewrite (Hno Hdead) in Hx.
  - destruct (FailCardRequest launch_uuid id err (ledger_view s)) as [l [e|u]] eqn:Hf; cbn.
    + intros Hr. congruence.
    + intros Hr. destruct (is_active r) eqn:Ha; [|done]. exfalso.
      pose proof (FailCardRequest_quiet launch_uuid id err _ _ _ Hs Hf) as Hq.
      destruct (q_row _ _ Hq id r (CardID r)) as (r1 & Hr1 & _); [done|unfold slot_key; by rewrite Ha|].
      change (card_requests (ledger_view s)) with (card_requests (led s)) in Hr1. congruence.
Qed.

(** A launch that fails gives the slot back.  When the container of a claimed
    request cannot be started, the request is not running when the error is
    reported, whatever other requests did meanwhile, and its card can be
    dispatched again. *)
Theorem failed_launch_frees_the_slot req e s s' err r :
  (∀ n s, any_run s (launch_others n s)) → (∀ req s, any_run s (StartExec req s).1) → db_wf (ledger_view s) →
  start_or_release req e s = (s', inl err) → card_requests (led s') !! SeCardRequestID req = Some r → is_active r = false.
Proof.
  intros Hothers Hstart Hs Hrun Hr. unfold start_or_release, pause in Hrun.
  erewrite bind_run in Hrun by done. destruct (Hothers 1%nat s Hs) as [Hs1 _]. set (s1 := launch_others 1 s) in *.
  destruct (StartExec req s1) as [s2 o] eqn:Ho. rewrite (bind_run _ _ s1 s2 o) in Hrun by (by rewrite Ho).
  destruct (Hstart req s1 Hs1) as [Hs2 _]. rewrite Ho in Hs2. cbn in Hs2.
  erewrite bind_run in Hrun by done. destruct (Hothers 2%nat s2 Hs2) as [Hs3 _]. set (s3 := launch_others 2 s2) in *.
  destruct o as [text|j]; [|done].
  apply bind_err in Hrun as [Hrun|(x & s4 & Hx & Hrun)]; [unfold try_ in Hrun; by destruct (on_ledger _ s3)|].
  injection Hrun as <- _. apply try_ok in Hx. eapply fail_releases; [exact Hs3|]. by rewrite Hx.
Qed.
End release.

(** ** What a command of a human comes to *)
Section command.
Context `{LaunchEnv} (uuid_ne : ∀ n, launch_uuid n ≠ "").
Context (alone : ∀ n s, launch_others n s = s).
(** Starting a container writes job rows only. *)
Context (starts : ∀ req s, let s' := (StartExec req s).1 in
  rows s' = rows s ∧ card_requests (led s') = card_requests (led s) ∧ barriers (led s') = barriers (led s)).

Lemma create_fields st req l l' row :
  CreateCardRequest launch_uuid st req l = (l', inr row) →
  RInstruction row = RInstruction req ∧ CommandKey row = CommandKey req ∧ LauncherJobID row = LauncherJobID req ∧ Launched row = Launched req.
Proof.
  unfold CreateCardRequest, time_Now. rewrite bind_fail_if. destruct (str_empty (CardID req)); [done|].
  intros (x & l1 & _ & Hc)%bind_ok. apply bind_ok in Hc as (id & l2 & _ & Hc). rewrite bind_gets in Hc. cbv zeta in Hc.
  apply bind_ok in Hc as (u & l3 & _ & Hc). apply ret_ok in Hc as [_ ->]. done.
Qed.

(** The tables the ledger's own checks read. *)
Definition same_ledger (s s' : WDB) : Prop := rows s' = rows s ∧ card_requests (led s') = card_requests (led s).
Lemma same_ledger_wf s s' : same_ledger s s' → db_wf (ledger_view s) → db_wf (ledger_view s').
Proof. intros [Hr Hq]. unfold db_wf, ledger_view. cbn. by rewrite Hr, Hq. Qed.

Lemma occupant_reads c s s' r : cardWorkChildOccupantTx c s = (s', r) → s' = s.
Proof.
  assert (steps eq (cardWorkChildOccupantTx c)) as Hm; [|intros Hr; pose proof (Hm s) as He; by rewrite Hr in He].
  assert (∀ A (m : fallible A), steps eq (lift m)) by (intros A m x; by destruct m).
  unfold cardWorkChildOccupantTx, GetTask, GetTaskTriage. steps_tac.
Qed.

Lemma occupant_spec c card s r :
  rows s !! c = Some card → ID card = c → c ≠ "" → cardWorkChildOccupantTx c s = (s, inr r) →
  Status card ∈ [TaskStatusParked; TaskStatusWorking] ∧
  match r with
  | None => OpenChildCount card s = 0%nat
  | Some id => ∃ t, t ∈ ListChildren c s ∧ ID t = id ∧ IsTerminalStatus (Status t) = false
  end.
Proof.
  intros Hc Hid Hne. unfold cardWorkChildOccupantTx. intros Hrun.
  apply bind_ok in Hrun as (fresh & s1 & Hg & Hrun). unfold GetTask, find_task in Hg. rewrite bind_gets, Hc in Hg. apply ret_ok in Hg as [-> ->].
  rewrite bind_fail_if in Hrun. destruct (bool_decide (Status card ∈ _)) eqn:Hst; [|done]. apply bool_decide_eq_true in Hst. split; [done|].
  cbn [negb] in Hrun. apply bind_ok in Hrun as (tri & s1 & Ht & Hrun). apply try_ok in Ht. unfold GetTaskTriage in Ht. rewrite bind_gets in Ht.
  assert (s1 = s) as -> by (destruct (rows s !! c ≫= Card); by injection Ht as <- _).
  apply bind_ok in Hrun as (u & s1 & Hu & Hrun).
  assert (s1 = s) as ->.
  { destruct tri as [[]|tri]; try done; [by apply ret_ok in Hu as [-> _]|]. apply bind_ok in Hu as (x & s2 & Hx & [-> _]%ret_ok).
    unfold lift in Hx. by destruct (DetailOpenSlotChildID (Detail tri)); injection Hx as <- _. }
  rewrite bind_gets in Hrun. case_bool_decide as Hz; [by apply ret_ok in Hrun as [_ ->]|].
  rewrite bind_gets in Hrun. apply ret_ok in Hrun as [_ ->].
  assert (∃ t, t ∈ ListChildren c s ∧ IsTerminalStatus (Status t) = false) as (t & Hin & Hterm).
  { unfold OpenChildCount in Hz. rewrite Hid in Hz. destruct (filter _ (children_of c s)) as [|t l] eqn:Hf; [done|]. exists t.
    assert (t ∈ filter (λ c, IsTerminalStatus (Status c) = false) (children_of c s)) as [Hterm Hin]%list_elem_of_filter by (rewrite Hf; by left).
    split; [|done]. unfold ListChildren. assert (str_empty c = false) as -> by by apply bool_decide_eq_false.
    by rewrite (merge_sort_Permutation created_le). }
  destruct (List.find _ _) as [x|] eqn:Hfind.
  - apply List.find_some in Hfind as [Hx Hl]. exists x. split; [by apply list_elem_of_In|]. split; [done|]. by apply negb_true_iff in Hl.
  - exfalso. eapply List.find_none in Hfind; [|by apply list_elem_of_In]. by rewrite Hterm in Hfind.
Qed.

(** The transaction. *)
Lemma reserve_spec cardID instruction req card s s' r :
  db_wf (ledger_view s) → rows s !! cardID = Some card → ID card = cardID → cardID ≠ "" → CardID req = cardID → FoldedInto req = "" →
  reserve_slot cardID instruction req s = (s', inr r) →
  rows s' = rows s ∧ barriers (led s') !! cardID = None ∧ db_wf (ledger_view s') ∧ Status card ∈ [TaskStatusParked; TaskStatusWorking] ∧
  match r with
  | inl row => card_requests (led s) !! RID row = None ∧ card_requests (led s') = <[RID row := row]> (card_requests (led s)) ∧
      CardID row = cardID ∧ RStatus row = CardRequestStatusLaunching ∧ RInstruction row = RInstruction req ∧ CommandKey row = CommandKey req ∧
      LauncherJobID row = LauncherJobID req ∧ OpenChildCount card s = 0%nat
  | inr res => Occupied res = true ∧ RcInstruction res = instruction ∧ card_requests (led s') = card_requests (led s) ∧
      ((∃ t, t ∈ ListChildren cardID s ∧ ID t = RcTargetID res ∧ IsTerminalStatus (Status t) = false) ∨
       (∃ k x, card_requests (led s) !! k = Some x ∧ slot_key x = Some cardID ∧ RcRequestID res = RID x))
  end.
Proof.
  intros Hs Hc Hid Hne Hcard Hf Hrun. unfold reserve_slot in Hrun.
  set (s1 := set_led s (set_barriers (ledger_view s) (delete cardID (barriers (led s))))).
  assert (on_ledger (ClearCardForceReleaseBarrier cardID) s = (s1, inr ())) as H1 by done. rewrite (bind_run _ _ _ _ _ H1) in Hrun.
  assert (db_wf (ledger_view s1)) as Hs1 by exact Hs.
  assert (barriers (led s1) !! cardID = None) as Hb by apply lookup_delete_eq.
  apply bind_ok in Hrun as (occ & s2 & Hocc & Hrun). apply map_err_ok in Hocc. pose proof (occupant_reads _ _ _ _ Hocc) as ->.
  destruct (occupant_spec cardID card s1 occ Hc Hid Hne Hocc) as [Hst Hwho]. destruct occ as [id|].
  { apply ret_ok in Hrun as [-> ->]. split_and!; try done. left. destruct Hwho as (t & Ht & Hti & Hlive). by exists t. }
  apply bind_ok in Hrun as (created & s2 & Hcr & Hrun). apply try_ok in Hcr. unfold on_ledger in Hcr.
  destruct (CreateCardRequest launch_uuid (Some CardRequestStatusLaunching) req (ledger_view s1)) as [l o] eqn:Hcreate.
  destruct o as [e|row].
  - injection Hcr as <- <-.
    destruct (create_error _ _ _ _ _ Hcreate) as (Hr & Ht & Hbl). cbn in Hr, Hbl. destruct e; try done. apply bind_ok in Hrun as (res & s3 & Hres & Hrun).
    apply ret_ok in Hrun as [-> ->]. unfold currentOccupantResult in Hres. rewrite bind_gets in Hres.
    destruct (List.find is_active _) as [x|] eqn:Hfind; [|done]. apply ret_ok in Hres as [-> ->].
    assert (db_wf (ledger_view (set_led s1 l))) as Hwf by (unfold db_wf, ledger_view; cbn; rewrite Hr; exact Hs).
    split_and!; try done; [cbn; by rewrite Hbl|]. right. apply List.find_some in Hfind as [Hx Ha].
    apply list_elem_of_In in Hx. unfold ListCardRequestsByCard in Hx. apply select_where_elem in Hx as [Hxc%bool_decide_eq_true [k Hk]].
    cbn in Hk. rewrite Hr in Hk. exists k, x. split_and!; [done| |done]. unfold slot_key. by rewrite Ha, Hxc.
  - injection Hcr as <- <-. apply ret_ok in Hrun as [-> ->].
    destruct (Create_run _ uuid_ne _ _ _ _ _ Hs1 Hf Hcreate) as (Hwf & Ht & _ & Hbar & _ & Hnew & Hins & Hrc & _ & Hrs).
    destruct (create_fields _ _ _ _ _ Hcreate) as (Hi & Hk & Hl & _). rewrite Hcard in Hrc.
    split_and!; try done; [cbn; rewrite Hbar; exact Hb|].
    assert (ledger_view (set_led s1 l) = l) as ->; [|done]. unfold ledger_view. cbn. change (task_row <$> rows s) with (tasks (ledger_view s1)).
    rewrite <- Ht. by destruct l.
Qed.

Lemma start_run req e s :
  let s' := (StartExec req s).1 in
  start_or_release req e s =
    match (StartExec req s).2 with
    | inr job => (s', inr job)
    | inl text => ((on_ledger (repo_FailCardRequest launch_uuid (SeCardRequestID req) ("dispatch failed: " +:+ text)) s').1, inl e)
    end.
Proof.
  cbv zeta. unfold start_or_release, pause. rewrite (bind_run _ _ s s ()) by (unfold modify; by rewrite alone).
  destruct (StartExec req s) as [s1 o] eqn:Ho. cbn [fst snd]. rewrite (bind_run _ _ s s1 o) by (by rewrite Ho).
  rewrite (bind_run _ _ s1 s1 ()) by (unfold modify; by rewrite alone). destruct o; [|done].
  unfold try_, mbind, dbm_bind. by destruct (on_ledger _ s1).
Qed.
Lemma launched_spec req e s s' job :
  start_or_release req e s = (s', inr job) → card_requests (led s') = card_requests (led s) ∧ barriers (led s') = barriers (led s).
Proof.
  rewrite start_run. destruct (starts req s) as (_ & Hq & Hb). destruct (StartExec req s) as [s1 [text|j]]; [done|]. by intros [= <- _].
Qed.
Lemma release_spec req e s s' err :
  db_wf (ledger_view s) → start_or_release req e s = (s', inl err) →
  (∀ r, card_requests (led s') !! SeCardRequestID req = Some r → is_active r = false) ∧
  (∀ k x c, card_requests (led s') !! k = Some x → slot_key x = Some c → ∃ y, card_requests (led s) !! k = Some y ∧ slot_key y = Some c).
Proof.
  intros Hs. rewrite start_run. destruct (starts req s) as (Hr & Hq & Hb). destruct (StartExec req s) as [s1 [text|j]]; [|done]. cbn in Hr, Hq, Hb |- *.
  intros [= <- _]. assert (db_wf (ledger_view s1)) as Hs1 by (by apply (same_ledger_wf s)).
  split; [intros r; by apply fail_releases|]. intros k x c.
  pose proof (quietly_tx (FailCardRequest launch_uuid (SeCardRequestID req) ("dispatch failed: " +:+ text)) (ledger_view s1)
    (FailCardRequest_quiet _ _ _) Hs1) as Hquiet. unfold on_ledger, repo_FailCardRequest. destruct (InTxDB _ _) as [l o]. cbn in Hquiet |- *.
  intros Hk Hx. rewrite <- Hq. exact (q_row _ _ Hquiet k x c Hk Hx).
Qed.

(** A command of a human takes the card's slot or says who has it.  If the
    answer is that it is occupied, the instruction comes back with a live
    child of the card or with the request that is running, and no request has
    changed; if it is not, there is one new request, running, with the
    instruction, and before it the card had none running and no live child;
    and after an error no card has a request running that had none.  Any answer
    but an error lifts a force release. *)
Theorem command_takes_the_slot_or_answers cardID key instruction card s s' r :
  db_wf (ledger_view s) → rows s !! cardID = Some card → ID card = cardID → cardID ≠ "" →
  RunCardCommandAsHuman cardID key instruction s = (s', r) →
  match r with
  | inl _ => ∀ c, slot_taken c (card_requests (led s')) → slot_taken c (card_requests (led s))
  | inr res =>
      barriers (led s') !! cardID = None ∧ Status card ∈ [TaskStatusParked; TaskStatusWorking] ∧
      if Occupied res then
        RcInstruction res = instruction ∧ card_requests (led s') = card_requests (led s) ∧
        ((∃ t, t ∈ ListChildren cardID s ∧ ID t = RcTargetID res ∧ IsTerminalStatus (Status t) = false) ∨
         (∃ k x, card_requests (led s) !! k = Some x ∧ slot_key x = Some cardID ∧ RcRequestID res = RID x))
      else
        ∃ row, card_requests (led s') = <[RcRequestID res := row]> (card_requests (led s)) ∧ card_requests (led s) !! RcRequestID res = None ∧
          slot_key row = Some cardID ∧ RInstruction row = instruction ∧ CommandKey row = key ∧
          OpenChildCount card s = 0%nat ∧ ¬ slot_taken cardID (card_requests (led s))
  end.
Proof.
  intros Hs Hc Hid Hne Hrun. unfold RunCardCommandAsHuman in Hrun. rewrite bind_fail_if in Hrun.
  destruct (_ <? _); [by injection Hrun as <- <-|].
  rewrite (bind_run _ _ s s card) in Hrun by (unfold map_err, GetTask, find_task; rewrite bind_gets, Hc; done).
  rewrite bind_fail_if in Hrun. destruct (negb _); [by injection Hrun as <- <-|].
  destruct (hydrateAutomationMeta _ _) as [meta|]; [|by injection Hrun as <- <-]. rewrite bind_fail_if in Hrun.
  case_bool_decide; [by injection Hrun as <- <-|]. destruct (CardCommands meta !! key) as [cmd|]; [|by injection Hrun as <- <-].
  set (job := launch_uuid (uuids (led s))) in *. set (s1 := set_led s (next_uuid (ledger_view s))).
  rewrite (bind_run draw_uuid _ s s1 job) in Hrun by done. unfold pause in Hrun. rewrite (bind_run _ _ s1 s1 ()) in Hrun by (unfold modify; by rewrite alone).
  unfold mbind at 1, dbm_bind at 1, map_err, InTxDB in Hrun.
  destruct (reserve_slot cardID instruction (human_request cardID key instruction job cmd) s1) as [s2 [e|slot]] eqn:Hres; [by injection Hrun as <- <-|].
  assert (db_wf (ledger_view s1)) as Hs1 by exact Hs.
  destruct (reserve_spec cardID instruction (human_request cardID key instruction job cmd) card s1 s2 slot Hs1 Hc Hid Hne eq_refl eq_refl Hres) as (Hrows & Hbar & Hwf2 & Hst & Hslot).
  destruct slot as [row|res].
  2: { injection Hrun as <- <-. destruct Hslot as (Ho & Hi & Hq & Hwho). rewrite Ho. by split_and!. }
  destruct Hslot as (Hnew & Hins & Hrc & Hrs & Hri & Hrk & _ & Hopen). change (card_requests (led s1)) with (card_requests (led s)) in Hnew, Hins.
  assert (slot_key row = Some cardID) as Hkey by (unfold slot_key, is_active, status_in; rewrite Hrs, Hrc; done).
  assert (¬ slot_taken cardID (card_requests (led s))) as Hfree.
  { intros (k & x & Hk & Hx). destruct Hwf2 as [Hwf2 _]. pose proof (wf_unique _ Hwf2) as [Hu _]%violation_None.
    assert (k ≠ RID row) as Hkr by (intros ->; congruence). apply Hkr. change (card_requests (ledger_view s2)) with (card_requests (led s2)) in Hu. rewrite Hins in Hu.
    eapply Hu; [by rewrite lookup_insert_ne|by rewrite lookup_insert_eq|exact Hx|exact Hkey]. }
  unfold mbind at 1, dbm_bind at 1 in Hrun.
  destruct (start_or_release (exec_of card cardID key "card:" job (RID row) cmd) (WStatus 500) s2) as [s3 [e|j]] eqn:Hgo.
  - injection Hrun as <- <-. destruct (release_spec _ _ _ _ _ Hwf2 Hgo) as (Hgone & Hrest). intros c (k & x & Hk & Hx).
    destruct (Hrest k x c Hk Hx) as (y & Hy & Hyk). rewrite Hins in Hy. apply lookup_insert_Some in Hy as [[<- <-]|[_ Hy]]; [|by exists k, y].
    exfalso. specialize (Hgone x Hk). unfold slot_key in Hx. by rewrite Hgone in Hx.
  - injection Hrun as <- <-. destruct (launched_spec _ _ _ _ _ Hgo) as [Hq3 Hb3].
    cbn [Occupied RcRequestID]. split_and!; [by rewrite Hb3|done|]. exists row. rewrite Hq3. by split_and!.
Qed.
End command.

(** ** What the automatic dispatcher comes to *)
Section dispatch.
Context `{LaunchEnv} (uuid_ne : ∀ n, launch_uuid n ≠ "").
Context (alone : ∀ n s, launch_others n s = s).
Context (starts : ∀ req s, let s' := (StartExec req s).1 in
  rows s' = rows s ∧ card_requests (led s') = card_requests (led s) ∧ barriers (led s') = barriers (led s)).

Definition queue_of (cardID : string) (s : WDB) : list CardRequest := select_where (queued_of cardID) (card_requests (led s)).

(** An eligible card with a queue is claimed. *)
Lemma claim_for_dispatch cardID job def card head rest s :
  db_wf (ledger_view s) → cardID ≠ "" → job ≠ "" → rows s !! cardID = Some card → queue_of cardID s = head :: rest →
  Status card ∈ [TaskStatusParked; TaskStatusWorking] → barriers (led s) !! cardID = None → ¬ slot_taken cardID (card_requests (led s)) →
  let l := set_requests (ledger_view s) (claim_row cardID (RID head) job def (clock (led s)) <$> card_requests (led s)) in
  ClaimQueuedCardRequests cardID job def (ledger_view s) = (l, inr (promote def job (clock (led s)) head, fold_into (RID head) (clock (led s)) <$> rest)) ∧
  on_ledger (repo_ClaimQueuedCardRequestsForDispatch cardID job (CommandKey head) def) s =
    (set_led s l, inr (promote def job (clock (led s)) head, fold_into (RID head) (clock (led s)) <$> rest)).
Proof.
  intros Hs Hc Hj Hrow Hq Hst Hb Hfree l. unfold queue_of in Hq.
  pose proof (Claim_run cardID job def (ledger_view s) (proj1 Hs) Hc Hj) as Hrun.
  change (card_requests (ledger_view s)) with (card_requests (led s)) in Hrun. rewrite Hq in Hrun. destruct Hrun as [_ Hrun].
  destruct (Hrun Hfree) as [Hclaim _]. split; [exact Hclaim|]. unfold on_ledger. rewrite repo_dispatch_run.
  unfold ClaimQueuedCardRequestsForDispatch, GetTaskStatus.
  rewrite (bind_run _ _ (ledger_view s) (ledger_view s) (inr (Status card))).
  2: { unfold try_. rewrite bind_gets. cbn [tasks ledger_view]. rewrite lookup_fmap, Hrow. done. }
  cbv iota. rewrite bool_decide_true by done. cbn [negb]. rewrite bind_gets. unfold HasCardForceReleaseBarrier.
  change (barriers (ledger_view s)) with (barriers (led s)). rewrite Hb, bool_decide_false by (by intros []).
  unfold PeekOldestQueuedCardRequest. rewrite (bind_run _ _ (ledger_view s) (ledger_view s) (RID head, CommandKey head)).
  2: { rewrite bind_gets. change (card_requests (ledger_view s)) with (card_requests (led s)). by rewrite Hq. }
  cbn [snd]. rewrite bool_decide_true by done. cbn [negb]. by rewrite Hclaim.
Qed.

(** The card is ready: its queue is claimed, and its first request is started. *)
Lemma dispatch_run cardID card head rest meta cmd s :
  db_wf (ledger_view s) → cardID ≠ "" → rows s !! cardID = Some card → queue_of cardID s = head :: rest →
  hydrateAutomationMeta (ProjectID card) (WorkspaceID card) = Some meta → CardCommands meta !! CommandKey head = Some cmd →
  Status card ∈ [TaskStatusParked; TaskStatusWorking] → barriers (led s) !! cardID = None → ¬ slot_taken cardID (card_requests (led s)) →
  let job := launch_uuid (uuids (led s)) in
  let def := def_of (CommandKey head) cmd in
  let req := exec_of card cardID (CommandKey head) "card:auto:" job (RID head) cmd in
  ∃ s1, rows s1 = rows s ∧ card_requests (led s1) = claim_row cardID (RID head) job def (clock (led s)) <$> card_requests (led s) ∧
    match StartExec req s1 with
    | (s', inr _) => dispatchQueuedCardRequest cardID s = (s', inr true) ∧ card_requests (led s') = card_requests (led s1)
    | (_, inl text) => ∃ s' e, dispatchQueuedCardRequest cardID s = (s', inl e) ∧
        (∃ r, card_requests (led s') !! RID head = Some r ∧ RStatus r = CardRequestStatusFailed ∧ RError r = "dispatch failed: " +:+ text) ∧
        ∀ k r, card_requests (led s) !! k = Some r → k ≠ RID head → ∃ r', card_requests (led s') !! k = Some r' ∧ set_updated r' (RUpdatedAt r) = r
    end.
Proof.
  intros Hs Hc Hrow Hq Hmeta Hcmd Hst Hb Hfree job def req. set (s0 := set_led s (next_uuid (ledger_view s))).
  destruct (claim_for_dispatch cardID job def card head rest s0 Hs Hc (uuid_ne _) Hrow Hq Hst Hb Hfree) as [Hclaim Hrun].
  set (l := set_requests (ledger_view s0) (claim_row cardID (RID head) job def (clock (led s0)) <$> card_requests (led s0))) in *. set (s1 := set_led s0 l) in *. exists s1. split; [done|]. split; [done|].
  assert (Hd : dispatchQueuedCardRequest cardID s =
    (_ ← start_or_release req (WInternal "start exec"); mret true) s1).
  { unfold dispatchQueuedCardRequest. assert (str_empty cardID = false) as -> by by apply bool_decide_eq_false.
    set (sv := set_led s (ledger_view s)).
    rewrite (bind_run _ _ s sv (inr (RID head, CommandKey head))).
    2: { unfold try_, on_ledger, PeekOldestQueuedCardRequest. rewrite bind_gets. change (card_requests (ledger_view s)) with (card_requests (led s)).
         unfold queue_of in Hq. by rewrite Hq. }
    cbv iota. unfold pause. rewrite (bind_run _ _ sv sv ()) by (unfold modify; by rewrite alone).
    rewrite (bind_run _ _ sv sv card) by (unfold GetTask, find_task; rewrite bind_gets; cbn [rows sv set_led]; by rewrite Hrow).
    rewrite Hmeta, (bind_run _ _ sv sv ()) by (unfold modify; by rewrite alone). rewrite Hcmd.
    rewrite (bind_run draw_uuid _ sv s0 job) by done. rewrite (bind_run _ _ s0 s1 (inr (promote def job (clock (led s0)) head, fold_into (RID head) (clock (led s0)) <$> rest))).
    2: { unfold try_. fold def. by rewrite Hrun. }
    done. }
  rewrite Hd. assert (ledger_view s1 = l) as Hview by done.
  assert (db_wf (ledger_view s0)) as Hs0 by exact Hs.
  destruct (claim_wf _ _ _ _ _ _ Hs0 Hc (uuid_ne _) Hclaim) as (Hwf1 & _).
  pose proof (start_run alone req (WInternal "start exec") s1) as Hsr. destruct (starts req s1) as (Hr2 & Hq2 & Hb2).
  destruct (StartExec req s1) as [s2 [text|j]]; cbn [fst snd] in *.
  2: { rewrite (bind_run _ _ _ _ _ Hsr). done. }
  assert (waiting cardID (card_requests (led s)) head) as ([k Hk] & Hcard & Hqd) by (apply waiting_select; unfold queue_of in Hq; rewrite Hq; by left).
  rewrite <- (wf_id _ (proj1 Hs) k head Hk) in Hk. change (card_requests (ledger_view s)) with (card_requests (led s)) in Hk.
  assert (db_wf (ledger_view s2)) as Hwf2 by (apply (same_ledger_wf s1); [done|by rewrite Hview]).
  assert (card_requests (ledger_view s2) !! RID head = Some (promote def job (clock (led s0)) head)) as Hhead.
  { cbn [card_requests ledger_view]. rewrite Hq2. change (card_requests (led s1)) with (claim_row cardID (RID head) job def (clock (led s0)) <$> card_requests (led s)).
    rewrite lookup_fmap, Hk. cbn. unfold claim_row. by rewrite bool_decide_true. }
  destruct (wf_row _ (proj1 Hs) _ _ Hk) as (Hidne & _).
  destruct (FailCardRequest_run launch_uuid (RID head) ("dispatch failed: " +:+ text) (ledger_view s2) _ Hwf2 Hidne Hhead) as [Hfail _].
  { cbn. unfold live_statuses. set_solver. }
  eexists _, _. split; [rewrite (bind_stop _ _ _ _ _ Hsr); reflexivity|].
  unfold on_ledger, repo_FailCardRequest, InTxDB. change (SeCardRequestID req) with (RID head). rewrite Hfail. cbn [fst led set_led].
  rewrite (proj1 (log_outcome_tables _ _ _ _ _)). cbn [card_requests set_requests]. split.
  - rewrite lookup_fmap, Hhead. cbn. eexists. split; [done|]. unfold fail_row. cbn. by rewrite bool_decide_true.
  - intros j r Hr Hne. cbn [card_requests ledger_view]. rewrite Hq2.
    change (card_requests (led s1)) with (claim_row cardID (RID head) job def (clock (led s0)) <$> card_requests (led s)).
    rewrite !lookup_fmap, Hr. cbn. eexists. split; [done|]. by apply (claim_fail_row (card_requests (led s)) cardID head job def _ _ _ j); try apply Hs.
Qed.

(** The oldest queued request of a card: no queued one of it was created before,
    or at the same time with a smaller id. *)
Definition oldest_queued (cardID : string) (head : CardRequest) (t : gmap string CardRequest) : Prop :=
  t !! RID head = Some head ∧ CardID head = cardID ∧ RStatus head = CardRequestStatusQueued ∧
  ∀ k r, t !! k = Some r → CardID r = cardID → RStatus r = CardRequestStatusQueued →
    (RCreatedAt head < RCreatedAt r)%Z ∨ RCreatedAt head = RCreatedAt r ∧ String.le (RID head) (RID r).

Lemma oldest_queue cardID head s :
  db_wf (ledger_view s) → oldest_queued cardID head (card_requests (led s)) → ∃ rest, queue_of cardID s = head :: rest.
Proof.
  intros [Hwf _] (Hk & Hc & Hq & Hold). assert (head ∈ queue_of cardID s) as Hin.
  { apply waiting_select. split_and!; [by eexists|done|done]. }
  destruct (queue_of cardID s) as [|h rest] eqn:E; [by apply elem_of_nil in Hin|]. exists rest. f_equal.
  apply elem_of_cons in Hin as [->|Hin]; [done|]. pose proof (select_where_head _ _ _ _ E head Hin) as Hle.
  assert (waiting cardID (card_requests (led s)) h) as ([k Hh] & Hhc & Hhq) by (apply waiting_select; fold (queue_of cardID s); rewrite E; by left).
  pose proof (wf_id _ Hwf k h Hh) as Hid.
  assert (RID h = RID head) as Heq.
  { destruct (Hold k h Hh Hhc Hhq) as [?|[? H1]], Hle as [?|[? H2]]; try lia. by apply (anti_symm String.le). }
  rewrite Hid in Heq. subst k. congruence.
Qed.

(** C16.  The automatic dispatcher starts the oldest request of a card that is ready.
    Suppose nothing else writes meanwhile, starting a container writes neither
    tasks nor requests nor barriers, fresh ids are not empty and the ledger is
    well formed.  If the card is parked or working, none of its requests is
    launching or attached, no force release is in force, and the oldest of its
    queued requests names a command its workspace declares, then that request is
    launching with a fresh launcher and the definition of the command, every
    other queued request of the card is folded into it, no other row differs,
    and a read-only, non-interactive container is asked for with the command, in
    the name of that launcher and request.  If it starts, that is all; if not,
    the error is reported, the request has failed with its text, and every other
    row is as it was, queued ones queued again, but for its update time. *)
Theorem dispatch_starts_the_oldest cardID card head meta cmd s :
  db_wf (ledger_view s) → cardID ≠ "" → rows s !! cardID = Some card → oldest_queued cardID head (card_requests (led s)) →
  hydrateAutomationMeta (ProjectID card) (WorkspaceID card) = Some meta → CardCommands meta !! CommandKey head = Some cmd →
  Status card ∈ ["parked"; "working"] → barriers (led s) !! cardID = None →
  (∀ k r, card_requests (led s) !! k = Some r → CardID r = cardID → RStatus r ∉ [CardRequestStatusLaunching; CardRequestStatusAttached]) →
  let job := launch_uuid (uuids (led s)) in
  let def := {| DCommandKey := CommandKey head; Label := CmLabel cmd; Run := CmRun cmd; Version := ""; CardWrite := CmCardWrite cmd |} in
  let req := {| SeWorkspaceID := WorkspaceID card; SeProjectID := ProjectID card;
                Argv := ["sh"; "-c"; "exec 0</dev/null; " +:+ CmRun cmd]; SeReadonly := true; Interactive := false;
                DisplayName := "card:auto:" +:+ CommandKey head; SeConnector := None; SeJobID := job; SeCardID := cardID;
                SeCardRequestID := RID head |} in
  ∃ s1, rows s1 = rows s ∧
    (∀ k, card_requests (led s1) !! k =
       (λ r, if bool_decide (k = RID head)
             then set_updated (set_launch (set_status r CardRequestStatusLaunching) def job) (clock (led s))
             else if bool_decide (CardID r = cardID ∧ RStatus r = CardRequestStatusQueued)
             then set_updated (set_folded (set_status r CardRequestStatusFolded) (RID head)) (clock (led s)) else r) <$> card_requests (led s) !! k) ∧
    match StartExec req s1 with
    | (s', inr _) => dispatchQueuedCardRequest cardID s = (s', inr true) ∧ card_requests (led s') = card_requests (led s1)
    | (_, inl text) => ∃ s' e, dispatchQueuedCardRequest cardID s = (s', inl e) ∧
        (∃ r, card_requests (led s') !! RID head = Some r ∧ RStatus r = CardRequestStatusFailed ∧ RError r = "dispatch failed: " +:+ text) ∧
        ∀ k r, card_requests (led s) !! k = Some r → k ≠ RID head → ∃ r', card_requests (led s') !! k = Some r' ∧ set_updated r' (RUpdatedAt r) = r
    end.
Proof.
  intros Hs Hc Hrow Hold Hmeta Hcmd Hst Hb Hfree job def req. destruct (oldest_queue cardID head s Hs Hold) as [rest Hq].
  destruct (dispatch_run cardID card head rest meta cmd s Hs Hc Hrow Hq Hmeta Hcmd Hst Hb) as (s1 & Hr1 & Hq1 & Hgo).
  { intros (k & r & Hk & Hx). unfold slot_key in Hx. destruct (is_active r) eqn:Ha; [|done]. injection Hx as Hx.
    apply (Hfree k r Hk Hx). by apply status_in_spec. }
  exists s1. split; [done|]. split; [|exact Hgo]. intros k. rewrite Hq1, lookup_fmap.
  destruct (card_requests (led s) !! k) as [r|] eqn:Hk; [|done]. cbn. f_equal.
  pose proof (wf_id _ (proj1 Hs) k r Hk) as Hid. unfold claim_row. rewrite Hid. case_bool_decide; [done|].
  destruct (queued_of cardID r) eqn:Hqd; [rewrite bool_decide_eq_true_2 by (by apply queued_of_spec)|rewrite bool_decide_eq_false_2]; [done|done|].
  intros Hx%queued_of_spec. congruence.
Qed.
End dispatch.

(** ** The dispatcher behind the workflow

    The handlers of the workflow call the dispatcher through their
    environment; this is that environment with the dispatcher of this file in
    it.  It keeps what the handlers' theorems ask of an environment, for any
    relation on the task rows, so those theorems are about the two together. *)
Section connected.
Context `{LaunchEnv} (env : WorkflowEnv).

Definition with_dispatcher : WorkflowEnv :=
  {| uuid := uuid; card_events := card_events; parse_rfc3339 := parse_rfc3339; err_text := err_text;
     tryDispatchQueuedCardRequest := tryDispatchQueuedCardRequest_; TaskCreator_CreateTask := TaskCreator_CreateTask;
     others := others |}.

Lemma dispatch_rows (R : relation WDB) `{!RowRel R} c :
  (∀ n s, R s (launch_others n s)) → (∀ req s, R s (StartExec req s).1) → steps R (dispatchQueuedCardRequest c).
Proof.
  intros Ho Hs. assert (∀ n, steps R (pause n)) by (intros n; by apply steps_modify).
  assert (∀ req, steps R ((λ s, let '(s', r) := StartExec req s in (s', inr r)) : taskm (string + string))).
  { intros req s. specialize (Hs req s). by destruct (StartExec req s). }
  pose proof (@on_ledger_steps R _). unfold dispatchQueuedCardRequest, start_or_release, draw_uuid, GetTask. steps_tac.
Qed.
Lemma with_dispatcher_rel (R : relation WDB) `{!RowRel R, !EnvRel R} :
  (∀ n s, R s (launch_others n s)) → (∀ req s, R s (StartExec req s).1) → EnvRel (H := with_dispatcher) R.
Proof. intros Ho Hs. split; [apply (env_others (H := env))|intros c s; by apply (dispatch_rows R c Ho Hs s)|apply (env_create (H := env))]. Qed.
End connected.

(** ** The buttons offer each command once *)
Lemma ordered_options_elem commands seen order o :
  o ∈ ordered_options commands seen order ↔
    (OptKey o ∈ order) ∧ (OptKey o ∉ seen) ∧ ∃ cmd, commands !! OptKey o = Some cmd ∧ OptLabel o = CmLabel cmd.
Proof.
  revert seen. induction order as [|key order IH]; intros seen; cbn [ordered_options]; [set_solver|].
  destruct (commands !! key) as [cmd|] eqn:Hk; [case_bool_decide as Hs|]; rewrite ?elem_of_cons, ?IH.
  - split; [set_solver|]. intros ([->|Ho] & Hn & Hc); [done|set_solver].
  - split.
    + intros [->|(Ho & Hn & Hc)]; [cbn; split_and!; [by left|done|by exists cmd]|set_solver].
    + intros ([Heq|Ho] & Hn & c & Hc & Hl).
      * left. destruct o as [k l]. cbn in *. subst. assert (c = cmd) as -> by congruence. done.
      * destruct (decide (OptKey o = key)) as [He|He]; [|right; split_and!; [done|set_solver|by exists c]].
        left. destruct o as [k l]. cbn in *. subst. assert (c = cmd) as -> by congruence. done.
  - split; [set_solver|]. intros ([Heq|Ho] & Hn & c & Hc & Hl); [congruence|]. split_and!; [done..|by exists c].
Qed.
Lemma ordered_options_nodup commands seen order : NoDup (OptKey <$> (ordered_options commands seen order)).
Proof.
  revert seen. induction order as [|key order IH]; intros seen; cbn [ordered_options]; [constructor|].
  destruct (commands !! key) as [cmd|]; [case_bool_decide|]; [done| |done]. cbn. constructor; [|done].
  intros (o & Ho & (_ & Hn & _)%ordered_options_elem)%list_elem_of_fmap. set_solver.
Qed.
Theorem options_list_each_command meta :
  let opts := cardCommandOptions (Some meta) in
  NoDup (OptKey <$> opts) ∧
  ∀ key label, {| OptKey := key; OptLabel := label |} ∈ opts ↔ ∃ cmd, CardCommands meta !! key = Some cmd ∧ CmLabel cmd = label.
Proof.
  cbv zeta. unfold cardCommandOptions. set (opts := ordered_options _ _ _).
  set (extra := merge_sort _ _).
  assert (Hex : ∀ key, key ∈ extra ↔ (key ∉ (OptKey <$> opts)) ∧ is_Some (CardCommands meta !! key)).
  { intros key. unfold extra. rewrite (merge_sort_Permutation String.le), list_elem_of_filter. f_equiv. rewrite list_elem_of_fmap. split.
    - intros ([k c] & -> & Hk%elem_of_map_to_list). by exists c.
    - intros [c Hc]. exists (key, c). by rewrite elem_of_map_to_list. }
  assert (Hnd : NoDup extra).
  { unfold extra. rewrite (merge_sort_Permutation String.le). apply NoDup_filter, NoDup_fst_map_to_list. }
  assert (Hkeys : OptKey <$> (omap (λ key, (λ cmd, {| OptKey := key; OptLabel := CmLabel cmd |}) <$> CardCommands meta !! key) extra) = extra).
  { assert (∀ key, key ∈ extra → is_Some (CardCommands meta !! key)) as Hs by (intros key Hk; by apply Hex).
    clear Hex Hnd. induction extra as [|key l IH]; [done|]. destruct (Hs key ltac:(by left)) as [c Hc]. cbn. rewrite Hc. cbn. f_equal.
    apply IH. intros k Hk. apply Hs. by right. }
  split.
  - rewrite fmap_app, Hkeys. apply NoDup_app. split_and!; [apply ordered_options_nodup| |done]. intros key Hk Hin. by apply Hex in Hin as [].
  - intros key label. rewrite elem_of_app. split.
    + intros [(_ & _ & c & Hc & Hl)%ordered_options_elem|Hin]; [by exists c|].
      apply list_elem_of_omap in Hin as (k & _ & Hk). destruct (CardCommands meta !! k) as [c|] eqn:Hc; [|done]. cbn in Hk. injection Hk as -> <-. by exists c.
    + intros (c & Hc & <-). destruct (decide (key ∈ (OptKey <$> opts))) as [Hin|Hout].
      * left. apply list_elem_of_fmap in Hin as (o & -> & Ho). pose proof Ho as (_ & _ & c' & Hc' & Hl)%ordered_options_elem.
        assert (c' = c) as -> by congruence. rewrite <- Hl. by destruct o.
      * right. apply list_elem_of_omap. exists key. split; [apply Hex; by rewrite Hc|]. by rewrite Hc.
Qed.

(** ** Examples *)
Definition launch_sample (works : bool) : LaunchEnv :=
  {| launch_uuid := sample_uuid;
     hydrateAutomationMeta := λ _ _, Some {| CardCommands := {["triage" := {| CmLabel := "Triage"; CmRun := "claude"; CmCardWrite := true |}]};
                                             CardCommandsOrder := ["triage"] |};
     StartExec := λ req s, (s, if works then inr (SeJobID req) else inl "no engine"); launch_others := λ _ s, s |}.
Definition waiting_card : Task :=
  {| ID := "card"; Type_ := TaskTypeCard; ProjectID := "p"; WorkspaceID := "w"; RemoteID := ""; Title := "t"; Description := "";
     Status := TaskStatusParked; Ref := ""; ParentID := ""; IdempotencyKey := ""; CreatedAt := 0; UpdatedAt := 0; Card := None; Exec := None |}.
Definition cards_db (t : gmap string CardRequest) : WDB :=
  {| rows := {["card" := waiting_card]}; led := sample_db t; identities := []; project_rows := ∅; workspaces := ∅ |}.
Lemma cards_wf t : ledger_wf t → (∀ k r, t !! k = Some r → CardID r = "card") → db_wf (ledger_view (cards_db t)).
Proof. intros Hwf Hc. split; [done|]. intros k r Hr. rewrite (Hc k r Hr). vm_compute. eauto. Qed.
Lemma queued_cards_wf : db_wf (ledger_view (cards_db queued_rows)).
Proof. apply cards_wf; [apply queued_rows_wf|]. intros k r H. unfold queued_rows in H. each_sample_row H; done. Qed.
Lemma launching_cards_wf : db_wf (ledger_view (cards_db launching_rows)).
Proof. apply cards_wf; [apply launching_rows_wf|]. intros k r H. unfold launching_rows in H. each_sample_row H; done. Qed.
Lemma no_rows_wf : ledger_wf ∅.
Proof. split; [..|done|]; intros k r Hr; by rewrite lookup_empty in Hr. Qed.
Lemma empty_cards_wf : db_wf (ledger_view (cards_db ∅)).
Proof. apply cards_wf; [apply no_rows_wf|]. intros k r H. by rewrite lookup_empty in H. Qed.

Lemma sample_auto works n s : auto_run (H := launch_sample works) s (launch_others (LaunchEnv := launch_sample works) n s).
Proof. intros Hs. split; [done|apply rtc_refl]. Qed.

Lemma launches_are_ledger_runs_witness :
  rtc (auto_step sample_uuid) (ledger_view (cards_db queued_rows))
    (ledger_view (dispatchQueuedCardRequest (H := launch_sample true) "card" (cards_db queued_rows)).1).
Proof.
  apply (launches_are_ledger_runs (H := launch_sample true) sample_uuid_ne (λ n s, sample_auto true n s) (λ req s, sample_auto true 0 s)
    (cards_db queued_rows) queued_cards_wf).
Defined.

Lemma failed_launch_frees_the_slot_witness :
  ∃ s' r, start_or_release (H := launch_sample false) (exec_of waiting_card "card" "triage" "card:" "job1" "l1" {| CmLabel := ""; CmRun := ""; CmCardWrite := false |})
      (WStatus 500) (cards_db launching_rows) = (s', inl (WStatus 500)) ∧
    card_requests (led s') !! "l1" = Some r ∧ is_active r = false.
Proof.
  eexists _, _. split; [reflexivity|]. split; [reflexivity|].
  eapply (failed_launch_frees_the_slot (H := launch_sample false) (exec_of waiting_card "card" "triage" "card:" "job1" "l1"
    {| CmLabel := ""; CmRun := ""; CmCardWrite := false |}) (WStatus 500) (cards_db launching_rows)).
  - intros n s Hs. split; [exact Hs|apply rtc_refl].
  - intros req s Hs. split; [exact Hs|apply rtc_refl].
  - exact launching_cards_wf.
  - reflexivity.
  - reflexivity.
Defined.

Lemma command_takes_the_slot_or_answers_witness :
  ∃ s' res row, RunCardCommandAsHuman (H := launch_sample true) "card" "triage" "look at this" (cards_db ∅) = (s', inr res) ∧
    card_requests (led s') !! RcRequestID res = Some row ∧ slot_key row = Some "card" ∧ RInstruction row = "look at this".
Proof.
  destruct (RunCardCommandAsHuman (H := launch_sample true) "card" "triage" "look at this" (cards_db ∅)) as [s' r] eqn:Hrun.
  pose proof (command_takes_the_slot_or_answers (H := launch_sample true) sample_uuid_ne (λ _ _, eq_refl)
    (λ req s, conj eq_refl (conj eq_refl eq_refl)) "card" "triage" "look at this" waiting_card (cards_db ∅) s' r empty_cards_wf
    eq_refl eq_refl ltac:(discriminate) Hrun) as Hspec.
  vm_compute in Hrun. injection Hrun as <- <-. destruct Hspec as (_ & _ & row & Hins & _ & Hkey & Hi & _).
  eexists _, _, row. split; [reflexivity|]. rewrite Hins. split_and!; [apply lookup_insert_eq|exact Hkey|exact Hi].
Defined.

Lemma dispatch_starts_the_oldest_witness :
  ∃ s', dispatchQueuedCardRequest (H := launch_sample true) "card" (cards_db queued_rows) = (s', inr true) ∧
    RStatus <$> card_requests (led s') !! "q1" = Some CardRequestStatusLaunching.
Proof.
  destruct (dispatch_starts_the_oldest (H := launch_sample true) sample_uuid_ne (λ _ _, eq_refl) (λ req s, conj eq_refl (conj eq_refl eq_refl))
    "card" waiting_card (sample_row "q1" CardRequestStatusQueued "" "" "" "" 1)
    {| CardCommands := {["triage" := {| CmLabel := "Triage"; CmRun := "claude"; CmCardWrite := true |}]}; CardCommandsOrder := ["triage"] |}
    {| CmLabel := "Triage"; CmRun := "claude"; CmCardWrite := true |} (cards_db queued_rows) queued_cards_wf)
    as (s1 & _ & Hq & Hgo & Hsame); [discriminate|reflexivity| |reflexivity|reflexivity|by left|reflexivity| |].
  { split; [reflexivity|]. split; [reflexivity|]. split; [reflexivity|]. intros k r Hk _ _. unfold cards_db, queued_rows in Hk. cbn in Hk.
    each_sample_row Hk; [right; split; reflexivity|left; reflexivity]. }
  { intros k r Hk _. unfold cards_db, queued_rows in Hk. cbn in Hk. each_sample_row Hk; by vm_compute; set_solver. }
  exists s1. split; [exact Hgo|]. rewrite Hq. vm_compute. reflexivity.
Defined.
