(* ===== verification/TriggerLoop.v ===== *)
(** * The trigger loop

    Models internal/api/trigger_loop.go and task_wait_registry.go over the
    trigger runs, the task database and the signal inbox: what a sweep closes,
    times out, skips and fires, a manual run, and the bookkeeping behind the
    notifications.

    Other requests run while a container is started: their effect is
    [trigger_others], at the points 1 and 2.  The goroutine that ends an
    overrunning round is an entry of [ending] until it runs
    ([finishTimeOutTriggerRun]).  Texts of notifications and of the abort
    payload, and the call that stops a container, are left out. *)
From S2P Require Import Prelude Json Payload Task Machine Lifecycle Coordinator Store CardDetail CardRequests CardDispatch TaskStore TaskRows CardWorkflow Workflow TriggerRuns SignalTime Signals Triggers CardLaunch.
From Stdlib Require Import SpecFloat.
From stdpp Require Import pretty.
Open Scope Z_scope.

(** ** Data *)
Record TriggerKey : Type := { KyWorkspaceID : string; KyProjectID : string; KyTriggerName : string }.
#[export] Instance TriggerKey_eq_dec : EqDecision TriggerKey.
Proof. solve_decision. Defined.
#[export] Instance TriggerKey_countable : Countable TriggerKey.
Proof.
  apply (inj_countable' (λ k, (KyWorkspaceID k, KyProjectID k, KyTriggerName k))
    (λ '(w, p, n), {| KyWorkspaceID := w; KyProjectID := p; KyTriggerName := n |})). by intros [].
Defined.

Record TriggerFireResult : Type := { FiKey : TriggerKey; FiJobID : string }.
Record TriggerCompletionResult : Type := { CoKey : TriggerKey; CoExitCode : Z }.
Record TriggerSkip : Type := { SkKey : TriggerKey; Since : Z; Every : Z; SkTimeout : Z }.
Record TriggerSweepResult : Type := {
  Fired : list TriggerFireResult;
  Skipped : list TriggerSkip;
  Completed : list TriggerCompletionResult;
}.

(** A goroutine on its way to end a round. *)
Record ending_round : Type := { EnKey : TriggerKey; EnRunID : string; EnJobID : string; EnTimeout : Z }.

Record LDB : Type := {
  tdb : TDB;
  wdb : WDB;
  sdb : SDB;
  (** the registry of task waits *)
  byJob : gmap string string;
  timingOut : gset string;
  ending : list ending_round;
  pendingTimeouts : list TriggerCompletionResult;
}.

Definition set_tdb (s : LDB) (d : TDB) : LDB :=
  {| tdb := d; wdb := wdb s; sdb := sdb s; byJob := byJob s; timingOut := timingOut s; ending := ending s;
     pendingTimeouts := pendingTimeouts s |}.
Definition set_wdb (s : LDB) (d : WDB) : LDB :=
  {| tdb := tdb s; wdb := d; sdb := sdb s; byJob := byJob s; timingOut := timingOut s; ending := ending s;
     pendingTimeouts := pendingTimeouts s |}.
Definition set_timeouts (s : LDB) (t : gset string) (e : list ending_round) (p : list TriggerCompletionResult) : LDB :=
  {| tdb := tdb s; wdb := wdb s; sdb := sdb s; byJob := byJob s; timingOut := t; ending := e; pendingTimeouts := p |}.

Inductive loop_err : Type :=
| LTrigger (e : trigger_err)
| LExec
| LWorkspaces
| LStatus (code : Z).

Abbreviation loopm := (dbm LDB loop_err).

(** A call on the trigger runs, its error a value. *)
Definition on_runs {A} (m : trm A) : loopm (trigger_err + A) := λ s,
  let '(d, r) := m (tdb s) in (set_tdb s d, inr r).

Lemma on_runs_eq {A} (m : trm A) s d r : m (tdb s) = (d, r) → on_runs m s = (set_tdb s d, inr r).
Proof. unfold on_runs. by intros ->. Qed.

Record ProjectMeta : Type := { SecretNamespace : string; Triggers : list Trigger }.

(** What the loop calls: the workspace configuration, the dispatcher (absent
    if there is none), and other requests. *)
Class TriggerEnv : Type := {
  #[global] trigger_service :: ServiceEnv;
  ListWorkspaces : option (list string);
  GetWorkspaceMeta : string → option ProjectMeta;
  StartExec : option (StartExecRequest → WDB → WDB * option string);
  timeout_text : TriggerKey → Z → string;
  trigger_others : nat → LDB → LDB;
}.

(** ** The registry of task waits *)
Definition Register (jobID taskID : string) (s : LDB) : LDB :=
  if str_empty jobID || str_empty taskID then s
  else {| tdb := tdb s; wdb := wdb s; sdb := sdb s; byJob := <[jobID := taskID]> (byJob s); timingOut := timingOut s;
          ending := ending s; pendingTimeouts := pendingTimeouts s |}.
(** The function Register returns. *)
Definition release (jobID taskID : string) (s : LDB) : LDB :=
  if bool_decide (byJob s !! jobID = Some taskID)
  then {| tdb := tdb s; wdb := wdb s; sdb := sdb s; byJob := delete jobID (byJob s); timingOut := timingOut s;
          ending := ending s; pendingTimeouts := pendingTimeouts s |}
  else s.
Definition TaskFor (jobID : string) (s : LDB) : option string :=
  if str_empty jobID then None else byJob s !! jobID.

(** ** Reconciling *)
Definition triggerRunKey (run : TriggerRun) : TriggerKey :=
  {| KyWorkspaceID := if str_empty (TrProjectID run) then TrWorkspaceID run else "";
     KyProjectID := TrProjectID run; KyTriggerName := TriggerName run |}.

Definition TriggerRunSelfHealGrace : Z := 3 * 60 * 10 ^ 9.
Definition TriggerRunSelfHealExitCode : Z := -1.
Definition TriggerDispatchFailureExitCode : Z := -2.
Definition TriggerTimeoutExitCode : Z := -3.

(** [None]: the job cannot be read; [Some None]: it runs. *)
Definition jobTerminalState (jobID : string) (s : LDB) : option (option Z) :=
  match jobs (led (wdb s)) !! jobID with
  | None => None
  | Some j => Some (if bool_decide (JStatus j = "running") then None else Some (JExitCode j))
  end.

(** Whether the row is closed, and what is reported. *)
Definition selfHealStaleTriggerRun (now : Z) (run : TriggerRun) : loopm (bool * list TriggerCompletionResult) :=
  if now - StartedAt run <? TriggerRunSelfHealGrace then mret (false, [])
  else
    r ← on_runs (CompleteTriggerRun (TrID run) now TriggerRunSelfHealExitCode);
    match r with
    | inr _ => mret (true, [{| CoKey := triggerRunKey run; CoExitCode := TriggerRunSelfHealExitCode |}])
    | inl ErrTriggerRunAlreadyFinished => mret (true, [])
    | inl _ => mret (false, [])
    end.

(** Whether the run is still in flight, and what is reported. *)
Definition reconcile_run (now : Z) (run : TriggerRun) : loopm (bool * list TriggerCompletionResult) :=
  let heal := r ← selfHealStaleTriggerRun now run; mret (negb r.1, r.2) in
  if str_empty (TrJobID run) then heal
  else
    state ← gets (jobTerminalState (TrJobID run));
    match state with
    | None => heal
    | Some None => mret (true, [])
    | Some (Some exitCode) =>
        r ← on_runs (CompleteTriggerRun (TrID run) now exitCode);
        match r with
        | inr _ => mret (false, [{| CoKey := triggerRunKey run; CoExitCode := exitCode |}])
        | inl ErrTriggerRunAlreadyFinished => mret (false, [])
        | inl _ => mret (true, [])
        end
    end.

Fixpoint reconcile_runs (now : Z) (runs : list TriggerRun) (stillInFlight : gmap TriggerKey TriggerRun)
    : loopm (gmap TriggerKey TriggerRun * list TriggerCompletionResult) :=
  match runs with
  | [] => mret (stillInFlight, [])
  | run :: runs =>
      r ← reconcile_run now run;
      rest ← reconcile_runs now runs (if r.1 : bool then <[triggerRunKey run := run]> stillInFlight else stillInFlight);
      mret (rest.1, r.2 ++ rest.2)
  end.

Definition reconcileInFlight (now : Z) : loopm (gmap TriggerKey TriggerRun * list TriggerCompletionResult) :=
  runs ← gets (λ s, ListInFlightTriggerRuns (tdb s));
  reconcile_runs now runs ∅.

Section loop.
Context `{TriggerEnv}.

(** ** Ending a round that overran *)
Definition claimTimeout (runID : string) : loopm bool := λ s,
  if bool_decide (runID ∈ timingOut s) then (s, inr false)
  else (set_timeouts s ({[runID]} ∪ timingOut s) (ending s) (pendingTimeouts s), inr true).
Definition releaseTimeout (runID : string) : loopm unit :=
  modify (λ s, set_timeouts s (timingOut s ∖ {[runID]}) (ending s) (pendingTimeouts s)).
Definition stashTimeoutCompletion (c : TriggerCompletionResult) : loopm unit :=
  modify (λ s, set_timeouts s (timingOut s) (ending s) (pendingTimeouts s ++ [c])).
Definition drainTimeoutCompletions : loopm (list TriggerCompletionResult) := λ s,
  (set_timeouts s (timingOut s) (ending s) [], inr (pendingTimeouts s)).

Definition beginTimeOutTriggerRun (key : TriggerKey) (run : TriggerRun) (timeout : Z) : loopm unit :=
  claimed ← claimTimeout (TrID run);
  if (claimed : bool)
  then modify (λ s, set_timeouts s (timingOut s)
         (ending s ++ [{| EnKey := key; EnRunID := TrID run; EnJobID := TrJobID run; EnTimeout := timeout |}]) (pendingTimeouts s))
  else mret ().

Definition isPermanentAbortRefusal (e : werr) : bool :=
  match e with WStatus c => (400 <=? c) && (c <? 500) | _ => false end.

Definition timeoutAbortPayload (message : string) : raw :=
  string_map [("code", "trigger_timeout"); ("message", message)].

(** Whether the task the round waits for is out of the way. *)
Definition abort_waited (en : ending_round) : loopm bool := λ s,
  match TaskFor (EnJobID en) s with
  | None => (s, inr true)
  | Some taskID =>
      let '(d, r) := applyAction daemon_ctx taskID "abort" (timeoutAbortPayload (timeout_text (EnKey en) (EnTimeout en))) true (wdb s) in
      (set_wdb s d, inr (match r with inr _ => true | inl e => isPermanentAbortRefusal e end))
  end.

Definition finishTimeOutTriggerRun (en : ending_round) : loopm unit :=
  now ← gets (λ s, tclock (tdb s));
  ended ← abort_waited en;
  if (ended : bool) then
    r ← on_runs (CompleteTriggerRun (EnRunID en) now TriggerTimeoutExitCode);
    match r with
    | inr _ => stashTimeoutCompletion {| CoKey := EnKey en; CoExitCode := TriggerTimeoutExitCode |}
    | inl _ => mret ()
    end
  else mret ().

(** The [i]th goroutine, to its end. *)
Definition run_ending (i : nat) : loopm unit :=
  en ← gets (λ s, ending s !! i);
  match en with
  | None => mret ()
  | Some en =>
      _ ← modify (λ s, set_timeouts s (timingOut s) (delete i (ending s)) (pendingTimeouts s));
      _ ← finishTimeOutTriggerRun en;
      releaseTimeout (EnRunID en)
  end.

(** ** Firing *)
Definition exec_request (key : TriggerKey) (workspaceID : string) (trig : Trigger) : StartExecRequest :=
  {| SeProjectID := KyProjectID key; SeWorkspaceID := workspaceID; Argv := triggerRunArgv (TgRun trig); SeReadonly := true;
     Interactive := false; DisplayName := "trigger:" +:+ TgName trig; SeConnector := TgConnector trig; SeJobID := ""; SeCardID := "";
     SeCardRequestID := "" |}.

Definition claim_run (now : Z) (key : TriggerKey) (trig : Trigger) : TriggerRun :=
  {| TrID := ""; TrProjectID := KyProjectID key; TrWorkspaceID := KyWorkspaceID key; TriggerName := TgName trig; TrJobID := "";
     StartedAt := now; FinishedAt := None; TrExitCode := None |}.

(** Once the row is claimed, or not. *)
Definition fire_created (start : StartExecRequest → WDB → WDB * option string) (key : TriggerKey) (trig : Trigger)
    (created : trigger_err + TriggerRun) : loopm string :=
  match created with
  | inl e => throw (LTrigger e)
  | inr run =>
      _ ← modify (trigger_others 1);
      job ← (λ s, let '(d, r) := start (exec_request key (TrWorkspaceID run) trig) (wdb s) in (set_wdb s d, inr r));
      _ ← modify (trigger_others 2);
      match job with
      | None => _ ← on_runs (DeleteTriggerRun (TrID run)); throw LExec
      | Some jobID => _ ← on_runs (SetTriggerRunJobID (TrID run) jobID); mret jobID
      end
  end.

Definition fireTrigger (now : Z) (key : TriggerKey) (trig : Trigger) : loopm string :=
  match StartExec with
  | None => throw LExec
  | Some start =>
      created ← on_runs (CreateTriggerRun uuid (claim_run now key trig));
      fire_created start key trig created
  end.

(** [None] for an error. *)
Definition triggerIsDue (now : Z) (key : TriggerKey) (every : Z) : loopm (option bool) :=
  latest ← on_runs (if str_empty (KyProjectID key) then LatestWorkspaceTriggerRun (KyWorkspaceID key) (KyTriggerName key)
                    else LatestTriggerRun (KyProjectID key) (KyTriggerName key));
  match latest with
  | inl ErrTriggerRunNotFound => mret (Some true)
  | inl _ => mret None
  | inr run => mret (Some (every <=? now - StartedAt run))
  end.

Definition signalsPendingForTrigger (meta : ProjectMeta) (s : LDB) : bool :=
  if str_empty (SecretNamespace meta) then false
  else match (HasPendingSignals (SecretNamespace meta) MaxSignalAttempts (sdb s)).2 with
       | inr pending => pending
       | inl _ => false
       end.

(** ** The sweep *)
Definition skip (res : TriggerSweepResult) (sk : TriggerSkip) : TriggerSweepResult :=
  {| Fired := Fired res; Skipped := Skipped res ++ [sk]; Completed := Completed res |}.
Definition complete (res : TriggerSweepResult) (cs : list TriggerCompletionResult) : TriggerSweepResult :=
  {| Fired := Fired res; Skipped := Skipped res; Completed := Completed res ++ cs |}.
Definition fired (res : TriggerSweepResult) (f : TriggerFireResult) : TriggerSweepResult :=
  {| Fired := Fired res ++ [f]; Skipped := Skipped res; Completed := Completed res |}.

(** The part of the loop body after the timeout has been looked at. *)
Definition sweep_due (now : Z) (meta : ProjectMeta) (key : TriggerKey) (trig : Trigger) (every : Z)
    (inFlight : gmap TriggerKey TriggerRun) (res : TriggerSweepResult) : loopm TriggerSweepResult :=
  let skipped since := {| SkKey := key; Since := since; Every := every; SkTimeout := TriggerTimeout trig |} in
  everyDue ← triggerIsDue now key every;
  match everyDue, inFlight !! key with
  | None, _ | Some false, _ => mret res
  | Some true, Some run => mret (skip res (skipped (StartedAt run)))
  | Some true, None =>
      due ← (if bool_decide (TgOn trig = TriggerOnSignals) then gets (signalsPendingForTrigger meta) else mret true);
      if negb due then mret res
      else
        job ← try_ (fireTrigger now key trig);
        match job with
        | inr jobID => mret (fired res {| FiKey := key; FiJobID := jobID |})
        | inl (LTrigger ErrTriggerRunInFlight) => mret (skip res (skipped now))
        | inl _ => mret (complete res [{| CoKey := key; CoExitCode := TriggerDispatchFailureExitCode |}])
        end
  end.

Definition sweep_trigger (now : Z) (workspaceID : string) (meta : ProjectMeta) (inFlight : gmap TriggerKey TriggerRun)
    (res : TriggerSweepResult) (trig : Trigger) : loopm TriggerSweepResult :=
  let key := {| KyWorkspaceID := workspaceID; KyProjectID := ""; KyTriggerName := TgName trig |} in
  match ParseDuration (TgEvery trig) with
  | None => mret res
  | Some every =>
      let timeout := TriggerTimeout trig in
      match inFlight !! key with
      | Some run =>
          if (0 <? timeout) && (timeout <=? now - StartedAt run) then
            _ ← beginTimeOutTriggerRun key run timeout;
            mret (skip res {| SkKey := key; Since := StartedAt run; Every := every; SkTimeout := timeout |})
          else sweep_due now meta key trig every inFlight res
      | None => sweep_due now meta key trig every inFlight res
      end
  end.

Fixpoint sweep_triggers (now : Z) (workspaceID : string) (meta : ProjectMeta) (inFlight : gmap TriggerKey TriggerRun)
    (triggers : list Trigger) (res : TriggerSweepResult) : loopm TriggerSweepResult :=
  match triggers with
  | [] => mret res
  | trig :: triggers =>
      res ← sweep_trigger now workspaceID meta inFlight res trig;
      sweep_triggers now workspaceID meta inFlight triggers res
  end.

Fixpoint sweep_workspaces (now : Z) (inFlight : gmap TriggerKey TriggerRun) (scopes : list string) (res : TriggerSweepResult)
    : loopm TriggerSweepResult :=
  match scopes with
  | [] => mret res
  | workspaceID :: scopes =>
      res ← match GetWorkspaceMeta workspaceID with
            | None => mret res
            | Some meta => sweep_triggers now workspaceID meta inFlight (Triggers meta) res
            end;
      sweep_workspaces now inFlight scopes res
  end.

Definition SweepTriggers (now : Z) : loopm TriggerSweepResult :=
  rc ← reconcileInFlight now;
  match ListWorkspaces with
  | None => throw LWorkspaces
  | Some scopes =>
      drained ← drainTimeoutCompletions;
      sweep_workspaces now rc.1 scopes {| Fired := []; Skipped := []; Completed := rc.2 ++ drained |}
  end.

(** ** A manual run *)
Definition lookupTrigger (key : TriggerKey) : option Trigger :=
  meta ← GetWorkspaceMeta (KyWorkspaceID key);
  List.find (λ t, bool_decide (TgName t = KyTriggerName key)) (Triggers meta).

(** [None]: another run is in flight. *)
Definition runTriggerNow (now : Z) (key : TriggerKey) : loopm (option string) :=
  match StartExec, lookupTrigger key with
  | None, _ => throw (LStatus 500)
  | _, None => throw (LStatus 404)
  | Some _, Some trig =>
      rc ← reconcileInFlight now;
      match rc.1 !! key with
      | Some _ => mret None
      | None =>
          job ← try_ (fireTrigger now key trig);
          match job with
          | inr jobID => mret (Some jobID)
          | inl (LTrigger ErrTriggerRunInFlight) => mret None
          | inl _ => throw (LStatus 500)
          end
      end
  end.
Definition RunWorkspaceTriggerNow (now : Z) (workspaceID triggerName : string) : loopm (option string) :=
  runTriggerNow now {| KyWorkspaceID := workspaceID; KyProjectID := ""; KyTriggerName := triggerName |}.
Definition RunTriggerNow (now : Z) (projectID triggerName : string) : loopm (option string) :=
  project ← gets (λ s, project_rows (wdb s) !! projectID);
  match project with
  | None => throw (LStatus 404)
  | Some p => RunWorkspaceTriggerNow now (PWorkspace p) triggerName
  end.
End loop.

(** ** Notifications *)
Inductive notice : Type :=
| NoteStuck (key : TriggerKey) (overrun multiple : Z)
| NoteTimeout (key : TriggerKey) (overrun multiple : Z)
| NoteFailures (key : TriggerKey) (streak exitCode : Z).

Record TriggerLoop : Type := { skipStreak : gmap TriggerKey Z; failStreak : gmap TriggerKey Z }.

Definition TriggerStuckFailStreakThreshold : Z := 3.
(** TriggerStuckOverrunMultiplier is 1.5. *)
Definition stuckThreshold (every : Z) : Z := ftrunc (fmul (float64 every) (S754_finite false 3 (-1))).

Definition skip_step (now : Z) (acc : gmap TriggerKey Z * list notice) (sk : TriggerSkip) : gmap TriggerKey Z * list notice :=
  if Every sk <=? 0 then acc
  else
    let threshold := if SkTimeout sk <=? 0 then stuckThreshold (Every sk) else SkTimeout sk in
    let overrun := now - Since sk in
    let multiple := Z.quot overrun threshold in
    if multiple <? 1 then acc
    else if multiple <=? default 0 (acc.1 !! SkKey sk) then acc
    else (<[SkKey sk := multiple]> acc.1,
          acc.2 ++ [if 0 <? SkTimeout sk then NoteTimeout (SkKey sk) overrun multiple else NoteStuck (SkKey sk) overrun multiple]).

Definition trackSkipStreak (now : Z) (l : TriggerLoop) (skipped : list TriggerSkip) : TriggerLoop * list notice :=
  let r := foldl (skip_step now) (skipStreak l, []) skipped in
  ({| skipStreak := filter (λ kv, kv.1 ∈ (SkKey <$> skipped)) r.1; failStreak := failStreak l |}, r.2).

Definition fail_step (acc : gmap TriggerKey Z * list notice) (c : TriggerCompletionResult) : gmap TriggerKey Z * list notice :=
  if CoExitCode c =? 0 then (delete (CoKey c) acc.1, acc.2)
  else
    let n := default 0 (acc.1 !! CoKey c) + 1 in
    (<[CoKey c := n]> acc.1,
     acc.2 ++ (if n mod TriggerStuckFailStreakThreshold =? 0 then [NoteFailures (CoKey c) n (CoExitCode c)] else [])).

Definition trackFailStreak (l : TriggerLoop) (completed : list TriggerCompletionResult) : TriggerLoop * list notice :=
  let r := foldl fail_step (failStreak l, []) completed in
  ({| skipStreak := skipStreak l; failStreak := r.1 |}, r.2).

(** One tick of the loop; a failed sweep reports nothing. *)
Definition runOnce `{TriggerEnv} (now : Z) (l : TriggerLoop) (s : LDB) : LDB * (TriggerLoop * list notice) :=
  match SweepTriggers now s with
  | (s', inl _) => (s', (l, []))
  | (s', inr res) =>
      let '(l1, n1) := trackSkipStreak now l (Skipped res) in
      let '(l2, n2) := trackFailStreak l1 (Completed res) in
      (s', (l2, n1 ++ n2))
  end.

(** ** Reconciling settles every run

    The reference: what becomes of one row, by itself. *)
Definition settled_by (now : Z) (js : gmap string JobRow) (r : TriggerRun) : option Z :=
  let stale := if TriggerRunSelfHealGrace <=? now - StartedAt r then Some TriggerRunSelfHealExitCode else None in
  if str_empty (TrJobID r) then stale
  else match js !! TrJobID r with
       | None => stale
       | Some j => if bool_decide (JStatus j = "running") then None else Some (JExitCode j)
       end.

Definition settle (now : Z) (js : gmap string JobRow) (r : TriggerRun) : TriggerRun :=
  if in_flight r then match settled_by now js r with Some code => set_finished r now code | None => r end else r.

(** The rows of the table carry their ids, which are not empty. *)
Definition keyed (t : gmap string TriggerRun) : Prop := ∀ k r, t !! k = Some r → TrID r = k ∧ k ≠ "".

Definition with_runs (s : LDB) (t : gmap string TriggerRun) : LDB := set_tdb s (set_runs (tdb s) t).

Lemma with_runs_id s : with_runs s (trigger_runs (tdb s)) = s.
Proof. by destruct s as [[]]. Qed.

Lemma on_runs_complete now code r s :
  trigger_runs (tdb s) !! TrID r = Some r → in_flight r = true → TrID r ≠ "" →
  on_runs (CompleteTriggerRun (TrID r) now code) s =
    (with_runs s (<[TrID r := set_finished r now code]> (trigger_runs (tdb s))), inr (inr ())).
Proof.
  intros Hr Hf Hid. unfold on_runs, CompleteTriggerRun. rewrite bind_fail_if. unfold str_empty.
  rewrite bool_decide_eq_false_2 by done. rewrite bind_gets, Hr, Hf. done.
Qed.

(** A row that is closed at [code], or not at all. *)
Definition closing (now : Z) (r : TriggerRun) (s : LDB) (verdict : option Z) : LDB * list TriggerCompletionResult :=
  match verdict with
  | Some code => (with_runs s (<[TrID r := set_finished r now code]> (trigger_runs (tdb s))),
                  [{| CoKey := triggerRunKey r; CoExitCode := code |}])
  | None => (s, [])
  end.

Lemma self_heal_spec now r s :
  trigger_runs (tdb s) !! TrID r = Some r → in_flight r = true → TrID r ≠ "" →
  let verdict := if TriggerRunSelfHealGrace <=? now - StartedAt r then Some TriggerRunSelfHealExitCode else None in
  let c := closing now r s verdict in
  selfHealStaleTriggerRun now r s = (c.1, inr (bool_decide (is_Some verdict), c.2)).
Proof.
  intros Hr Hf Hid. unfold selfHealStaleTriggerRun. rewrite Z.leb_antisym.
  destruct (now - StartedAt r <? TriggerRunSelfHealGrace); [done|]. cbn [negb].
  erewrite bind_run by by apply on_runs_complete. done.
Qed.

Lemma reconcile_run_spec now r s :
  trigger_runs (tdb s) !! TrID r = Some r → in_flight r = true → TrID r ≠ "" →
  let verdict := settled_by now (jobs (led (wdb s))) r in
  let c := closing now r s verdict in
  reconcile_run now r s = (c.1, inr (negb (bool_decide (is_Some verdict)), c.2)).
Proof.
  intros Hr Hf Hid. unfold reconcile_run, settled_by.
  destruct (str_empty (TrJobID r)); [by erewrite bind_run by by apply self_heal_spec|]. rewrite bind_gets. unfold jobTerminalState.
  destruct (jobs (led (wdb s)) !! TrJobID r) as [j|]; [|by erewrite bind_run by by apply self_heal_spec].
  destruct (bool_decide (JStatus j = "running")); [done|]. erewrite bind_run by by apply on_runs_complete. done.
Qed.

(** The rows of [rs] are settled, the others are as they were. *)
Definition settle_some (now : Z) (js : gmap string JobRow) (ids : list string) (t : gmap string TriggerRun) : gmap string TriggerRun :=
  map_imap (λ k r, Some (if bool_decide (k ∈ ids) then settle now js r else r)) t.

Lemma settle_some_nil now js t : settle_some now js [] t = t.
Proof. apply map_eq. intros k. unfold settle_some. rewrite map_lookup_imap. by destruct (t !! k). Qed.

Lemma settle_some_cons now js r ids t :
  t !! TrID r = Some r → in_flight r = true → TrID r ∉ ids →
  settle_some now js ids (match settled_by now js r with Some c => <[TrID r := set_finished r now c]> t | None => t end) =
    settle_some now js (TrID r :: ids) t.
Proof.
  intros Hr Hf Hnin. apply map_eq. intros k. unfold settle_some. rewrite !map_lookup_imap.
  destruct (decide (k = TrID r)) as [->|Hne].
  - rewrite Hr. simpl. rewrite (bool_decide_eq_true_2 (TrID r ∈ TrID r :: ids)) by set_solver. unfold settle. rewrite Hf.
    destruct (settled_by now js r) as [c|]; [rewrite lookup_insert_eq|rewrite Hr]; simpl; by rewrite bool_decide_eq_false_2 by done.
  - replace (match settled_by now js r with Some c => <[TrID r := set_finished r now c]> t | None => t end !! k) with (t !! k)
      by (destruct (settled_by now js r); [by rewrite lookup_insert_ne|done]).
    destruct (t !! k) as [x|]; [|done]. simpl. f_equal.
    by rewrite (bool_decide_ext (k ∈ TrID r :: ids) (k ∈ ids)) by set_solver.
Qed.

Definition still (now : Z) (js : gmap string JobRow) (acc : gmap TriggerKey TriggerRun) (r : TriggerRun) : gmap TriggerKey TriggerRun :=
  match settled_by now js r with Some _ => acc | None => <[triggerRunKey r := r]> acc end.
Definition reported (now : Z) (js : gmap string JobRow) (r : TriggerRun) : list TriggerCompletionResult :=
  match settled_by now js r with Some c => [{| CoKey := triggerRunKey r; CoExitCode := c |}] | None => [] end.

Lemma still_if now js acc r :
  still now js acc r = if negb (bool_decide (is_Some (settled_by now js r))) then <[triggerRunKey r := r]> acc else acc.
Proof. unfold still. by destruct (settled_by now js r). Qed.

Lemma reconcile_runs_spec now rs acc s :
  NoDup (TrID <$> rs) →
  (∀ r, r ∈ rs → trigger_runs (tdb s) !! TrID r = Some r ∧ in_flight r = true ∧ TrID r ≠ "") →
  let js := jobs (led (wdb s)) in
  reconcile_runs now rs acc s =
    (with_runs s (settle_some now js (TrID <$> rs) (trigger_runs (tdb s))), inr (foldl (still now js) acc rs, rs ≫= reported now js)).
Proof.
  revert acc s. induction rs as [|r rs IH]; intros acc s Hnd Hall.
  - simpl. by rewrite settle_some_nil, with_runs_id.
  - apply NoDup_cons in Hnd as [Hnin Hnd]. destruct (Hall r ltac:(by left)) as (Hr & Hf & Hid). cbn [reconcile_runs].
    erewrite bind_run by by apply reconcile_run_spec. set (js := jobs (led (wdb s))).
    set (c := closing now r s (settled_by now js r)).
    assert (Hjs : jobs (led (wdb c.1)) = js) by (unfold c, closing; by destruct (settled_by now js r)).
    assert (Hruns : trigger_runs (tdb c.1) = match settled_by now js r with Some x => <[TrID r := set_finished r now x]> (trigger_runs (tdb s)) | None => trigger_runs (tdb s) end)
      by (unfold c, closing; by destruct (settled_by now js r)).
    assert (Hwith : ∀ t, with_runs c.1 t = with_runs s t) by (intros t; unfold c, closing; by destruct (settled_by now js r)).
    erewrite bind_run; [|apply IH; [done|]].
    + assert (Hrep : c.2 = reported now js r) by (unfold c, closing, reported; by destruct (settled_by now js r)).
      rewrite Hwith, Hruns, Hjs, Hrep, settle_some_cons by done. cbn [foldl]. rewrite (still_if now js acc r). reflexivity.
    + intros x Hx. destruct (Hall x ltac:(by right)) as (Hx1 & Hx2 & Hx3). split_and!; [|done..]. rewrite Hruns.
      destruct (settled_by now js r); [|done]. rewrite lookup_insert_ne; [done|]. intros Heq. apply Hnin.
      rewrite Heq. by apply list_elem_of_fmap_2.
Qed.

Lemma in_flight_list d r :
  r ∈ ListInFlightTriggerRuns d ↔ ∃ id, trigger_runs d !! id = Some r ∧ in_flight r = true.
Proof.
  unfold ListInFlightTriggerRuns, runs_where. rewrite merge_sort_Permutation, list_elem_of_filter, list_elem_of_fmap. split.
  - intros [Hf ([id r'] & -> & Hin%elem_of_map_to_list)]. by exists id.
  - intros (id & Hr & Hf). split; [done|]. exists (id, r). split; [done|]. by apply elem_of_map_to_list.
Qed.

(** The in-flight runs, listed once each. *)
Lemma in_flight_nodup {B} (f : TriggerRun → B) d :
  (∀ i j r r', trigger_runs d !! i = Some r → trigger_runs d !! j = Some r' → in_flight r = true → in_flight r' = true →
     f r = f r' → i = j) →
  NoDup (f <$> ListInFlightTriggerRuns d).
Proof.
  intros Hinj. unfold ListInFlightTriggerRuns, runs_where. rewrite merge_sort_Permutation.
  assert (Hall : ∀ x, x ∈ map_to_list (trigger_runs d) → trigger_runs d !! x.1 = Some x.2)
    by (intros [k r] Hin; by apply elem_of_map_to_list).
  pose proof (NoDup_fst_map_to_list (trigger_runs d)) as Hnd. revert Hall Hnd.
  induction (map_to_list (trigger_runs d)) as [|[k r] l IH]; intros Hall Hnd; [constructor|]. cbn [fmap list_fmap fst snd] in *.
  apply NoDup_cons in Hnd as [Hnin Hnd]. assert (IH' := IH (λ x Hx, Hall x ltac:(by right)) Hnd). clear IH.
  cbn [filter list_filter]. destruct (decide (in_flight r = true)) as [Hf|Hf]; [|done]. cbn [fmap list_fmap]. apply NoDup_cons. split; [|done].
  intros (r' & Heq & [Hf' ([k' x] & -> & Hin)%list_elem_of_fmap]%list_elem_of_filter)%list_elem_of_fmap. cbn [snd] in *. apply Hnin.
  rewrite (Hinj k k' r x (Hall (k, r) ltac:(by left)) (Hall (k', x) ltac:(by right)) Hf Hf' Heq).
  apply list_elem_of_fmap. by exists (k', x).
Qed.

Lemma key_flight r r' : triggerRunKey r = triggerRunKey r' ↔ flight_of r = flight_of r'.
Proof.
  unfold triggerRunKey, flight_of, str_empty. split.
  - intros Heq. injection Heq as Hw Hp Hn. rewrite Hp, Hn in *. case_bool_decide; [by rewrite Hw|done].
  - case_bool_decide as H1; case_bool_decide as H2; intros Hf; [|discriminate Hf..|]; injection Hf as Ha Hb.
    + by rewrite Ha, Hb, H1, H2.
    + by rewrite Ha, Hb.
Qed.

Lemma still_lookup now js rs acc k r :
  NoDup (triggerRunKey <$> rs) →
  foldl (still now js) acc rs !! k = Some r ↔
  (r ∈ rs ∧ settled_by now js r = None ∧ triggerRunKey r = k) ∨
  (acc !! k = Some r ∧ ∀ r', r' ∈ rs → triggerRunKey r' = k → is_Some (settled_by now js r')).
Proof.
  revert acc. induction rs as [|x rs IH]; intros acc Hnd; cbn [foldl].
  - split; [right; split; [done|]; set_solver|]. intros [[Hin _]|[? _]]; [by apply elem_of_nil in Hin|done].
  - apply NoDup_cons in Hnd as [Hnin Hnd]. rewrite IH by done. clear IH. unfold still.
    assert (Hfresh : ∀ r', r' ∈ rs → triggerRunKey r' ≠ triggerRunKey x)
      by (intros r' Hin Hk; apply Hnin; rewrite <- Hk; by apply list_elem_of_fmap_2). clear Hnin.
    destruct (settled_by now js x) as [c|] eqn:Hx.
    + split; (intros [(H1 & H2 & H3)|[H1 H2]]; [left|right]); split_and!; try done.
      * by right.
      * intros r' [->|Hin]%elem_of_cons Hk; [by rewrite Hx|by apply H2].
      * apply elem_of_cons in H1 as [->|H1]; [congruence|done].
      * intros r' Hin Hk. apply H2; [by right|done].
    + split.
      * intros [(H1 & H2 & H3)|[[[H1 H2]|[H1 H2]]%lookup_insert_Some H3]]; [by left; split_and!; [right|..]|subst|right].
        -- left. split_and!; [by left|done..].
        -- split; [done|]. intros r' [->|Hin]%elem_of_cons Hk; [done|by apply H3].
      * intros [([->|H1]%elem_of_cons & H2 & H3)|[H1 H2]]; [right|by left|right].
        -- subst k. rewrite lookup_insert_eq. split; [done|]. intros r' Hin Hk. by destruct (Hfresh r' Hin).
        -- assert (triggerRunKey x ≠ k) by (intros Hk; destruct (H2 x ltac:(by left) Hk); congruence).
           rewrite lookup_insert_ne by done. split; [done|]. intros r' Hin Hk. apply H2; [by right|done].
Qed.

Lemma settle_some_all now js d :
  keyed (trigger_runs d) → settle_some now js (TrID <$> ListInFlightTriggerRuns d) (trigger_runs d) = settle now js <$> trigger_runs d.
Proof.
  intros Hkd. apply map_eq. intros k. unfold settle_some. rewrite map_lookup_imap, lookup_fmap.
  destruct (trigger_runs d !! k) as [r|] eqn:Hr; [|done]. simpl. f_equal. destruct (Hkd _ _ Hr) as [Hid _].
  case_bool_decide as Hin; [done|]. unfold settle. destruct (in_flight r) eqn:Hf; [|done]. exfalso. apply Hin, list_elem_of_fmap.
  exists r. split; [done|]. apply in_flight_list. by exists k.
Qed.

Lemma settle_in_flight now js r : in_flight (settle now js r) = true ↔ in_flight r = true ∧ settled_by now js r = None.
Proof.
  unfold settle. destruct (in_flight r) eqn:Hf; [|rewrite Hf; by split; [|intros []]].
  destruct (settled_by now js r) as [c|]; [by split; [|intros []]|]. by rewrite Hf.
Qed.
Lemma settle_keeps now js r : settled_by now js r = None → settle now js r = r.
Proof. intros Hn. unfold settle. rewrite Hn. by destruct (in_flight r). Qed.

(** What reconciling does to the rows, and what it returns. *)
Lemma reconcile_spec now s :
  keyed (trigger_runs (tdb s)) → single_flight (tdb s) →
  let js := jobs (led (wdb s)) in
  let after := settle now js <$> trigger_runs (tdb s) in
  ∃ inFlight completed,
    reconcileInFlight now s = (with_runs s after, inr (inFlight, completed)) ∧
    (∀ k r, inFlight !! k = Some r ↔ ∃ id, after !! id = Some r ∧ in_flight r = true ∧ triggerRunKey r = k) ∧
    (∀ c, c ∈ completed ↔ ∃ id r code, trigger_runs (tdb s) !! id = Some r ∧ in_flight r = true ∧
                            settled_by now js r = Some code ∧ c = {| CoKey := triggerRunKey r; CoExitCode := code |}).
Proof.
  intros Hkd Hsf js after. unfold reconcileInFlight. rewrite bind_gets.
  assert (Hrows : ∀ r, r ∈ ListInFlightTriggerRuns (tdb s) →
    trigger_runs (tdb s) !! TrID r = Some r ∧ in_flight r = true ∧ TrID r ≠ "").
  { intros r (id & Hr & Hf)%in_flight_list. destruct (Hkd _ _ Hr) as [<- Hne]. done. }
  rewrite reconcile_runs_spec; [|apply in_flight_nodup|done].
  2:{ intros i j r r' Hi Hj _ _ Heq. destruct (Hkd _ _ Hi) as [<- _], (Hkd _ _ Hj) as [<- _]. done. }
  rewrite settle_some_all by done. do 2 eexists. split; [done|]. split.
  - intros k r. rewrite still_lookup; [|apply in_flight_nodup].
    2:{ intros i j x x' Hi Hj Hx Hx' Heq%key_flight. by eapply Hsf. }
    split.
    + intros [((id & Hr & Hf)%in_flight_list & Hn & Hk)|[Hno _]]; [|by rewrite lookup_empty in Hno].
      exists id. unfold after. rewrite lookup_fmap, Hr. simpl. by rewrite settle_keeps.
    + intros (id & Hr & Hf & Hk). left. unfold after in Hr. rewrite lookup_fmap in Hr.
      destruct (trigger_runs (tdb s) !! id) as [x|] eqn:Hx; [|done]. injection Hr as <-.
      apply settle_in_flight in Hf as [Hf Hn]. rewrite settle_keeps in Hk |- * by done. split_and!; [|done..].
      apply in_flight_list. by exists id.
  - intros c. rewrite list_elem_of_bind. split.
    + intros (r & Hc & (id & Hr & Hf)%in_flight_list). unfold reported in Hc.
      destruct (settled_by now (jobs (led (wdb s))) r) as [code|] eqn:Hs; [|by apply elem_of_nil in Hc].
      apply list_elem_of_singleton in Hc. by exists id, r, code.
    + intros (id & r & code & Hr & Hf & Hs & ->). exists r. split; [|apply in_flight_list; by exists id].
      unfold reported. fold js. rewrite Hs. by left.
Qed.

(** C30.  A tick starts by settling every run in flight, each as if it were alone:
    one whose job has ended is closed with the job's exit code, one whose job
    is unknown and that has been in flight for three minutes is given up, and
    no other row changes.  The map it returns is exactly the runs that are
    still in flight, the completions are exactly what it closed; and whatever
    is left in flight has a job that runs or has just been started, so that
    no trigger is blocked by a run that is gone. *)
Theorem reconcile_settles_every_run now s :
  keyed (trigger_runs (tdb s)) → single_flight (tdb s) →
  let js := jobs (led (wdb s)) in
  let after := settle now js <$> trigger_runs (tdb s) in
  ∃ inFlight completed,
    reconcileInFlight now s = (with_runs s after, inr (inFlight, completed)) ∧
    (∀ k r, inFlight !! k = Some r ↔ ∃ id, after !! id = Some r ∧ in_flight r = true ∧ triggerRunKey r = k) ∧
    (∀ c, c ∈ completed ↔ ∃ id r code, trigger_runs (tdb s) !! id = Some r ∧ in_flight r = true ∧
                            settled_by now js r = Some code ∧ c = {| CoKey := triggerRunKey r; CoExitCode := code |}) ∧
    (∀ id r, after !! id = Some r → in_flight r = true →
       now - StartedAt r < TriggerRunSelfHealGrace ∨ ∃ j, js !! TrJobID r = Some j ∧ JStatus j = "running").
Proof.
  intros Hkd Hsf js after. destruct (reconcile_spec now s Hkd Hsf) as (m & cs & Hrun & Hm & Hcs).
  exists m, cs. split_and!; [done..|]. intros id r Hr Hf. unfold after in Hr. rewrite lookup_fmap in Hr.
  destruct (trigger_runs (tdb s) !! id) as [x|]; [|done]. injection Hr as <-. apply settle_in_flight in Hf as [Hf Hn].
  rewrite settle_keeps by done. unfold settled_by in Hn.
  assert (Hst : (if TriggerRunSelfHealGrace <=? now - StartedAt x then Some TriggerRunSelfHealExitCode else None) = None →
    now - StartedAt x < TriggerRunSelfHealGrace) by (destruct (Z.leb_spec TriggerRunSelfHealGrace (now - StartedAt x)); [done|lia]).
  destruct (str_empty (TrJobID x)); [left; by apply Hst|]. destruct (js !! TrJobID x) as [j|]; [|left; by apply Hst].
  case_bool_decide; [|done]. right. by exists j.
Qed.

(** ** When a trigger is due *)
#[export] Instance run_le_trans : Transitive run_le.
Proof.
  intros a b c [H1|[H1 H1']] [H2|[H2 H2']]; [left; lia|left; lia|left; lia|]. right. split; [lia|]. by etrans.
Qed.
#[export] Instance run_le_total : Total run_le.
Proof.
  intros a b. unfold run_le. destruct (Z.lt_trichotomy (StartedAt a) (StartedAt b)) as [?|[Heq|?]]; [left; by left| |right; by left].
  destruct (total String.le (TrID a) (TrID b)); [left|right]; right; by split.
Qed.

Lemma last_is_latest l r r' : StronglySorted run_le l → last l = Some r → r' ∈ l → StartedAt r' ≤ StartedAt r.
Proof.
  intros Hs Hl Hin. apply last_Some in Hl as [l' ->]. apply elem_of_app in Hin as [Hin|Hin]; [|apply list_elem_of_singleton in Hin; subst; lia].
  induction l' as [|x l' IH]; [by apply elem_of_nil in Hin|]. simpl in Hs. apply StronglySorted_inv in Hs as [Hs Hall].
  apply elem_of_cons in Hin as [->|Hin]; [|by apply IH]. rewrite Forall_forall in Hall.
  destruct (Hall r ltac:(set_solver)); lia.
Qed.

(** The declarative form: every run of the trigger started long enough ago. *)
Definition due (now every : Z) (f : flight) (t : gmap string TriggerRun) : bool :=
  bool_decide (map_Forall (λ _ r, flight_of r = f → every ≤ now - StartedAt r) t).

Lemma set_tdb_id s : set_tdb s (tdb s) = s.
Proof. by destruct s. Qed.

Lemma workspace_flight r w name :
  str_empty (TrProjectID r) && bool_decide (TrWorkspaceID r = w) && bool_decide (TriggerName r = name) = true ↔
  flight_of r = WorkspaceFlight w name.
Proof.
  unfold flight_of. rewrite !andb_true_iff, !bool_decide_eq_true. unfold str_empty.
  destruct (bool_decide (TrProjectID r = "")); [|naive_solver]. split; [by intros [[_ ->] ->]|by intros [= -> ->]].
Qed.

Definition workspace_key (w name : string) : TriggerKey := {| KyWorkspaceID := w; KyProjectID := ""; KyTriggerName := name |}.

Lemma triggerIsDue_spec now w name every s :
  w ≠ "" → name ≠ "" →
  triggerIsDue now (workspace_key w name) every s =
    (s, inr (Some (due now every (WorkspaceFlight w name) (trigger_runs (tdb s))))).
Proof.
  intros Hw Hn. unfold triggerIsDue, workspace_key. cbn [KyProjectID KyWorkspaceID KyTriggerName].
  change (str_empty "") with true. cbv iota. unfold on_runs at 1, LatestWorkspaceTriggerRun. unfold mbind at 1, dbm_bind at 1.
  rewrite bind_fail_if. unfold str_empty at 1 2. rewrite !bool_decide_eq_false_2 by done. cbn [orb].
  rewrite bind_gets. unfold runs_where. set (l := merge_sort _ _).
  assert (Hl : ∀ r, r ∈ l ↔ (∃ id, trigger_runs (tdb s) !! id = Some r) ∧ flight_of r = WorkspaceFlight w name).
  { intros r. unfold l. rewrite merge_sort_Permutation, list_elem_of_filter, list_elem_of_fmap, workspace_flight. split.
    - intros [Hf ([id x] & -> & Hin%elem_of_map_to_list)]. split; [by exists id|done].
    - intros [[id Hr] Hf]. split; [done|]. exists (id, r). split; [done|]. by apply elem_of_map_to_list. }
  assert (Hs : StronglySorted run_le l) by (apply StronglySorted_merge_sort; apply _).
  assert (Hdue : due now every (WorkspaceFlight w name) (trigger_runs (tdb s)) =
    match last l with Some r => every <=? now - StartedAt r | None => true end).
  { unfold due. destruct (last l) as [r|] eqn:Hlast.
    - assert (Hr : r ∈ l) by (apply last_Some in Hlast as [? ->]; set_solver). apply Hl in Hr as [[id Hr] Hf].
      destruct (Z.leb_spec every (now - StartedAt r)) as [Hle|Hlt].
      + apply bool_decide_eq_true. intros id' r' Hr' Hf'. assert (StartedAt r' ≤ StartedAt r); [|lia].
        eapply last_is_latest; [done..|]. apply Hl. split; [by exists id'|done].
      + apply bool_decide_eq_false. intros Hall. specialize (Hall id r Hr Hf). simpl in Hall. lia.
    - apply bool_decide_eq_true. intros id r Hr Hf. apply last_None in Hlast. exfalso.
      assert (r ∈ l) as Hin by (apply Hl; split; [by exists id|done]). rewrite Hlast in Hin. by apply elem_of_nil in Hin. }
  rewrite Hdue. destruct (last l); cbn; by rewrite set_tdb_id.
Qed.

(** ** What firing changes *)
Section sweep.
Context `{TriggerEnv}.
(** Other requests leave the trigger runs and the signals alone. *)
Context (quiet : ∀ n s, tdb (trigger_others n s) = tdb s ∧ sdb (trigger_others n s) = sdb s).
Context (uuid_inj : ∀ m n, uuid m = uuid n → m = n) (uuid_nonempty : ∀ n, uuid n ≠ "").

(** Identifiers that are still to come are not in use. *)
Definition fresh (d : TDB) : Prop := ∀ n, (tuuids d ≤ n)%nat → trigger_runs d !! uuid n = None.

(** The row a claim inserts. *)
Definition claimed (now : Z) (w name job : string) (d : TDB) : TriggerRun :=
  {| TrID := uuid (tuuids d); TrProjectID := ""; TrWorkspaceID := w; TriggerName := name; TrJobID := job;
     StartedAt := if bool_decide (now = 0) then tclock d else now; FinishedAt := None; TrExitCode := None |}.

Lemma claim_spec now w trig d :
  let name := TgName trig in
  CreateTriggerRun uuid (claim_run now (workspace_key w name) trig) d =
    if str_empty w then (d, inl (ErrTriggerArgument "workspace id must not be empty"))
    else if str_empty name then (d, inl (ErrTriggerArgument "trigger name must not be empty"))
    else if negb (bool_decide (w ∈ loadable d)) then (next_tuuid d, inl ErrWorkspaceMeta)
    else if bool_decide (is_Some (trigger_runs d !! uuid (tuuids d))) || busy (WorkspaceFlight w name) (trigger_runs d)
    then (next_tuuid d, inl ErrTriggerRunInFlight)
    else (set_runs (next_tuuid d) (<[uuid (tuuids d) := claimed now w name "" d]> (trigger_runs d)), inr (claimed now w name "" d)).
Proof.
  intros name. unfold CreateTriggerRun. rewrite !bind_fail_if.
  cbn [claim_run workspace_key TrProjectID TrWorkspaceID TriggerName KyProjectID KyWorkspaceID]. change (str_empty "") with true. cbn [andb].
  destruct (str_empty w); [done|]. fold name. destruct (str_empty name); [done|]. unfold new_run_id.
  cbn [claim_run TrID]. change (str_empty "") with true. cbv iota.
  erewrite bind_run by done. rewrite bind_gets. cbn [StartedAt claim_run]. unfold run_workspace. cbn [TrProjectID claim_run workspace_key KyProjectID].
  change (str_empty "") with true. cbv iota. cbn [TrWorkspaceID claim_run KyWorkspaceID]. unfold mbind at 1, dbm_bind at 1.
  rewrite bind_gets. cbn [workspace_key KyWorkspaceID]. change (loadable (next_tuuid d)) with (loadable d). destruct (bool_decide (w ∈ loadable d)); [|done]. cbn [negb].
  unfold mret at 1, dbm_ret at 1. cbv iota beta zeta. rewrite bind_gets, bind_fail_if.
  change (trigger_runs (next_tuuid d)) with (trigger_runs d).
  replace (flight_of _) with (WorkspaceFlight w name) by done.
  destruct (bool_decide (is_Some (trigger_runs d !! uuid (tuuids d))) || busy (WorkspaceFlight w name) (trigger_runs d)); [done|].
  rewrite bind_gets, bind_fail_if. done.
Qed.

(** The outcomes of firing: a new run with its job, or no change of the rows. *)
Lemma fire_spec now w trig s :
  fresh (tdb s) →
  let name := TgName trig in
  let f := WorkspaceFlight w name in
  ∃ s' r, fireTrigger now (workspace_key w name) trig s = (s', r) ∧ sdb s' = sdb s ∧ (tuuids (tdb s) ≤ tuuids (tdb s'))%nat ∧
    match r with
    | inr j => trigger_runs (tdb s') = <[uuid (tuuids (tdb s)) := claimed now w name j (tdb s)]> (trigger_runs (tdb s)) ∧
               (tuuids (tdb s) < tuuids (tdb s'))%nat
    | inl (LTrigger ErrTriggerRunInFlight) => trigger_runs (tdb s') = trigger_runs (tdb s) ∧ busy f (trigger_runs (tdb s)) = true
    | inl _ => trigger_runs (tdb s') = trigger_runs (tdb s)
    end.
Proof.
  intros Hfr name f. unfold fireTrigger. destruct StartExec as [start|]; [|by exists s, (inl LExec)].
  pose proof (claim_spec now w trig (tdb s)) as Hc. cbv zeta in Hc. fold name in Hc. fold f in Hc.
  rewrite (Hfr _ (le_n _)) in Hc. change (bool_decide (is_Some None)) with false in Hc. cbn [orb] in Hc.
  assert (Hfail : ∀ e d, CreateTriggerRun uuid (claim_run now (workspace_key w name) trig) (tdb s) = (d, inl e) →
    trigger_runs d = trigger_runs (tdb s) → (tuuids (tdb s) ≤ tuuids d)%nat → (e = ErrTriggerRunInFlight → busy f (trigger_runs (tdb s)) = true) →
    ∃ s' r, (created ← on_runs (CreateTriggerRun uuid (claim_run now (workspace_key w name) trig));
             fire_created start (workspace_key w name) trig created) s = (s', r) ∧ sdb s' = sdb s ∧ (tuuids (tdb s) ≤ tuuids (tdb s'))%nat ∧
      match r with
      | inr j => trigger_runs (tdb s') = <[uuid (tuuids (tdb s)) := claimed now w name j (tdb s)]> (trigger_runs (tdb s)) ∧
                 (tuuids (tdb s) < tuuids (tdb s'))%nat
      | inl (LTrigger ErrTriggerRunInFlight) => trigger_runs (tdb s') = trigger_runs (tdb s) ∧ busy f (trigger_runs (tdb s)) = true
      | inl _ => trigger_runs (tdb s') = trigger_runs (tdb s)
      end).
  { intros e d He Hr Hu Hb. eexists _, _. split; [by rewrite (bind_run _ _ _ _ _ (on_runs_eq _ _ _ _ He))|]. split_and!; [done|done|].
    destruct e; try done. by split; [|apply Hb]. }
  destruct (str_empty w); [apply (Hfail _ _ Hc); [done|lia|done]|].
  destruct (str_empty name); [apply (Hfail _ _ Hc); [done|lia|done]|].
  destruct (bool_decide (w ∈ loadable (tdb s))); cbn [negb] in Hc; [|apply (Hfail _ _ Hc); [done|cbn; lia|done]].
  destruct (busy f (trigger_runs (tdb s))) eqn:Hb; [apply (Hfail _ _ Hc); [done|cbn; lia|done]|]. clear Hfail.
  rewrite (bind_run _ _ _ _ _ (on_runs_eq _ _ _ _ Hc)). unfold fire_created. clear Hc.
  set (row := claimed now w name "" (tdb s)). set (s1 := set_tdb s _).
  erewrite bind_run by done. destruct (quiet 1 s1) as [Ht1 Hs1]. set (s2 := trigger_others 1 s1) in *.
  unfold mbind at 1, dbm_bind at 1. destruct (start (exec_request (workspace_key w name) (TrWorkspaceID row) trig) (wdb s2)) as [d [j|]].
  - erewrite bind_run by done. destruct (quiet 2 (set_wdb s2 d)) as [Ht2 Hs2]. set (s3 := trigger_others 2 (set_wdb s2 d)) in *.
    assert (Ht : tdb s3 = tdb s1) by (rewrite Ht2; exact Ht1). assert (Hsd : sdb s3 = sdb s) by (rewrite Hs2; exact Hs1).
    erewrite bind_run.
    2:{ unfold on_runs, SetTriggerRunJobID. rewrite bind_fail_if. unfold str_empty. rewrite bool_decide_eq_false_2 by apply uuid_nonempty.
        rewrite Ht, bind_gets. unfold s1 at 1. cbn [tdb set_tdb trigger_runs set_runs]. rewrite lookup_insert_eq. reflexivity. }
    eexists _, _. split; [reflexivity|]. split; [exact Hsd|]. split; [cbn; lia|]. split; [|cbn; lia]. cbn. by rewrite insert_insert_eq.
  - erewrite bind_run by done. destruct (quiet 2 (set_wdb s2 d)) as [Ht2 Hs2]. set (s3 := trigger_others 2 (set_wdb s2 d)) in *.
    assert (Ht : tdb s3 = tdb s1) by (rewrite Ht2; exact Ht1). assert (Hsd : sdb s3 = sdb s) by (rewrite Hs2; exact Hs1).
    erewrite bind_run.
    2:{ unfold on_runs, DeleteTriggerRun. rewrite bind_fail_if. unfold str_empty. rewrite bool_decide_eq_false_2 by apply uuid_nonempty.
        rewrite Ht. reflexivity. }
    eexists _, _. split; [reflexivity|]. split; [exact Hsd|]. split; [cbn; lia|]. cbn. rewrite delete_insert_eq. by apply delete_id, Hfr.
Qed.

(** ** One trigger among the others *)
Definition fired_for (k : TriggerKey) (res : TriggerSweepResult) : list TriggerFireResult := filter (λ f, FiKey f = k) (Fired res).
Definition skipped_for (k : TriggerKey) (res : TriggerSweepResult) : list TriggerSkip := filter (λ x, SkKey x = k) (Skipped res).

(** What happens to other triggers does not touch the trigger [w], [name]. *)
Record unrelated (w name : string) (p p' : LDB * TriggerSweepResult) : Prop := {
  un_rows id r : flight_of r = WorkspaceFlight w name →
    trigger_runs (tdb p'.1) !! id = Some r ↔ trigger_runs (tdb p.1) !! id = Some r;
  un_signals : sdb p'.1 = sdb p.1;
  un_fresh : fresh (tdb p'.1);
  un_fired : fired_for (workspace_key w name) p'.2 = fired_for (workspace_key w name) p.2;
  un_skipped : skipped_for (workspace_key w name) p'.2 = skipped_for (workspace_key w name) p.2;
  un_completed c : c ∈ Completed p.2 → c ∈ Completed p'.2;
}.

Lemma unrelated_refl w name p : fresh (tdb p.1) → unrelated w name p p.
Proof. by split. Qed.
Lemma unrelated_trans w name p p' p'' : unrelated w name p p' → unrelated w name p' p'' → unrelated w name p p''.
Proof.
  intros [r1 s1 f1 i1 k1 c1] [r2 s2 f2 i2 k2 c2]. split; [|congruence|done|congruence|congruence|auto].
  intros id r Hf. rewrite r2, r1 by done. done.
Qed.

(** A result that differs by an entry of another key. *)
Lemma unrelated_result w name k' s s' res :
  k' ≠ workspace_key w name → fresh (tdb s') → sdb s' = sdb s →
  (∀ id r, flight_of r = WorkspaceFlight w name → trigger_runs (tdb s') !! id = Some r ↔ trigger_runs (tdb s) !! id = Some r) →
  (∀ sk, SkKey sk = k' → unrelated w name (s, res) (s', skip res sk)) ∧
  (∀ f, FiKey f = k' → unrelated w name (s, res) (s', fired res f)) ∧
  (∀ c, unrelated w name (s, res) (s', complete res [c])).
Proof.
  intros Hk Hfr Hs Hr. split_and!; intros x; [intros Hx| intros Hx|]; split; try done; cbn.
  - unfold skipped_for. cbn. rewrite filter_app, filter_cons_False, filter_nil, app_nil_r by congruence. done.
  - unfold fired_for. cbn. rewrite filter_app, filter_cons_False, filter_nil, app_nil_r by congruence. done.
  - intros c Hc. set_solver.
Qed.

Lemma triggerIsDue_state now key every s : ∃ b, triggerIsDue now key every s = (s, inr b).
Proof.
  assert (Hlatest : ∀ m : trm TriggerRun, (m (tdb s)).1 = tdb s → ∃ r, on_runs m s = (s, inr r)).
  { intros m Hm. unfold on_runs. destruct (m (tdb s)) as [d r]. simpl in Hm. subst d. rewrite set_tdb_id. by exists r. }
  unfold triggerIsDue. edestruct Hlatest as [r Hr].
  2:{ rewrite (bind_run _ _ _ _ _ Hr). destruct r as [[]|]; by eexists. }
  destruct (str_empty (KyProjectID key)); [unfold LatestWorkspaceTriggerRun|unfold LatestTriggerRun]; rewrite !bind_fail_if, bind_gets;
    repeat case_match; done.
Qed.

Lemma begin_timeout_state key run timeout s :
  ∃ s', beginTimeOutTriggerRun key run timeout s = (s', inr ()) ∧ tdb s' = tdb s ∧ sdb s' = sdb s.
Proof.
  unfold beginTimeOutTriggerRun, claimTimeout, mbind, dbm_bind. destruct (bool_decide (TrID run ∈ timingOut s)); by eexists.
Qed.

Lemma fresh_insert d d' r :
  fresh d → trigger_runs d' = <[uuid (tuuids d) := r]> (trigger_runs d) → (tuuids d < tuuids d')%nat → fresh d'.
Proof. intros Hf Hr Ht n Hn. rewrite Hr, lookup_insert_ne; [apply Hf; lia|]. intros Heq%uuid_inj. lia. Qed.
Lemma fresh_same d d' : fresh d → trigger_runs d' = trigger_runs d → (tuuids d ≤ tuuids d')%nat → fresh d'.
Proof. intros Hf Hr Ht n Hn. rewrite Hr. apply Hf. lia. Qed.

(** Rows of one flight survive the insertion of a row of another. *)
Lemma insert_other_flight d x f id r :
  fresh d → flight_of x ≠ f → flight_of r = f →
  <[uuid (tuuids d) := x]> (trigger_runs d) !! id = Some r ↔ trigger_runs d !! id = Some r.
Proof.
  intros Hfr Hx Hr. destruct (decide (id = uuid (tuuids d))) as [->|Hne]; [|by rewrite lookup_insert_ne].
  rewrite lookup_insert_eq, (Hfr _ (le_n _)). split; [|done]. intros [= ->]. congruence.
Qed.

Lemma sweep_due_other now meta w' t every m res s w name :
  fresh (tdb s) → workspace_key w' (TgName t) ≠ workspace_key w name →
  ∃ s' res', sweep_due now meta (workspace_key w' (TgName t)) t every m res s = (s', inr res') ∧
    unrelated w name (s, res) (s', res').
Proof.
  intros Hfr Hk. unfold sweep_due. destruct (triggerIsDue_state now (workspace_key w' (TgName t)) every s) as [b Hb].
  rewrite (bind_run _ _ _ _ _ Hb). destruct (unrelated_result w name _ s s res Hk Hfr eq_refl ltac:(done)) as (Hsk & _ & _).
  destruct b as [[]|]; [|by do 2 eexists; split; [reflexivity|by apply unrelated_refl]..].
  destruct (m !! workspace_key w' (TgName t)) as [run|]; [by do 2 eexists; split; [reflexivity|by apply Hsk]|].
  rewrite (bind_run _ _ s s (if bool_decide (TgOn t = TriggerOnSignals) then signalsPendingForTrigger meta s else true))
    by by destruct (bool_decide (TgOn t = TriggerOnSignals)).
  destruct (if bool_decide _ then _ else _); [|by do 2 eexists; split; [reflexivity|by apply unrelated_refl]]. cbn [negb].
  destruct (fire_spec now w' t s Hfr) as (s' & r & Hr & Hs & Hu & Hrows).
  unfold mbind at 1, dbm_bind at 1, try_. rewrite Hr. destruct r as [e|j].
  - assert (Hsame : trigger_runs (tdb s') = trigger_runs (tdb s)) by (destruct e as [[]| | |]; tauto).
    destruct (unrelated_result w name _ s s' res Hk (fresh_same _ _ Hfr Hsame Hu) Hs) as (Hsk' & _ & Hco'); [by rewrite Hsame|].
    destruct e as [[]| | |]; do 2 eexists; (split; [reflexivity|]); first [apply Hco' | by apply Hsk'].
  - destruct Hrows as [Hrows Hlt].
    destruct (unrelated_result w name _ s s' res Hk (fresh_insert _ _ _ Hfr Hrows Hlt) Hs) as (_ & Hfi' & _).
    + intros id r Hf. rewrite Hrows. apply (insert_other_flight _ _ (WorkspaceFlight w name)); [done| |done].
      cbn. intros [= -> Heq]. apply Hk. by rewrite Heq.
    + do 2 eexists. split; [reflexivity|]. by apply Hfi'.
Qed.

Lemma sweep_trigger_other now w' meta m res t s w name :
  fresh (tdb s) → workspace_key w' (TgName t) ≠ workspace_key w name →
  ∃ s' res', sweep_trigger now w' meta m res t s = (s', inr res') ∧ unrelated w name (s, res) (s', res').
Proof.
  intros Hfr Hk. unfold sweep_trigger. destruct (ParseDuration (TgEvery t)) as [every|];
    [|by do 2 eexists; split; [reflexivity|by apply unrelated_refl]].
  fold (workspace_key w' (TgName t)). destruct (m !! workspace_key w' (TgName t)) as [run|]; [|by apply sweep_due_other].
  destruct (_ && _); [|by apply sweep_due_other].
  destruct (begin_timeout_state (workspace_key w' (TgName t)) run (TriggerTimeout t) s) as (s' & Hr & Ht & Hs).
  rewrite (bind_run _ _ _ _ _ Hr). do 2 eexists. split; [reflexivity|].
  apply (unrelated_result w name (workspace_key w' (TgName t)) s s' res); [done| |done| |done]; by rewrite Ht.
Qed.

Lemma sweep_triggers_other now w' meta m ts res s w name :
  fresh (tdb s) → (∀ t, t ∈ ts → workspace_key w' (TgName t) ≠ workspace_key w name) →
  ∃ s' res', sweep_triggers now w' meta m ts res s = (s', inr res') ∧ unrelated w name (s, res) (s', res').
Proof.
  revert res s. induction ts as [|t ts IH]; intros res s Hfr Hk; [by exists s, res; split; [|apply unrelated_refl]|].
  cbn [sweep_triggers]. destruct (sweep_trigger_other now w' meta m res t s w name Hfr (Hk t ltac:(by left))) as (s1 & r1 & H1 & U1).
  rewrite (bind_run _ _ _ _ _ H1). destruct (IH r1 s1 (un_fresh _ _ _ _ U1)) as (s2 & r2 & H2 & U2); [intros t' Ht'; apply Hk; by right|].
  exists s2, r2. split; [done|]. by eapply unrelated_trans.
Qed.

Lemma sweep_workspaces_other now m ws res s w name :
  fresh (tdb s) → w ∉ ws →
  ∃ s' res', sweep_workspaces now m ws res s = (s', inr res') ∧ unrelated w name (s, res) (s', res').
Proof.
  revert res s. induction ws as [|w' ws IH]; intros res s Hfr Hw; [by exists s, res; split; [|apply unrelated_refl]|].
  apply not_elem_of_cons in Hw as [Hne Hw]. cbn [sweep_workspaces].
  assert (∃ s1 r1, match GetWorkspaceMeta w' with None => mret res | Some meta => sweep_triggers now w' meta m (Triggers meta) res end s = (s1, inr r1) ∧
    unrelated w name (s, res) (s1, r1)) as (s1 & r1 & H1 & U1).
  { destruct (GetWorkspaceMeta w') as [meta|]; [|by exists s, res; split; [|apply unrelated_refl]].
    apply sweep_triggers_other; [done|]. intros t _ [=]. congruence. }
  rewrite (bind_run _ _ _ _ _ H1). destruct (IH r1 s1 (un_fresh _ _ _ _ U1) Hw) as (s2 & r2 & H2 & U2).
  exists s2, r2. split; [done|]. by eapply unrelated_trans.
Qed.

Lemma sweep_trigger_runs now w meta m res t s :
  fresh (tdb s) → ∃ s' res', sweep_trigger now w meta m res t s = (s', inr res') ∧ fresh (tdb s').
Proof.
  intros Hfr. set (w' := if decide (w = "") then "w" else "").
  destruct (sweep_trigger_other now w meta m res t s w' "") as (s' & res' & Hr & U); [done| |].
  - intros Hk. injection Hk as Hk _. unfold w' in Hk. destruct (decide (w = "")); [by subst|done].
  - exists s', res'. split; [done|apply U].
Qed.

Lemma sweep_triggers_app now w meta m ts1 ts2 res s :
  sweep_triggers now w meta m (ts1 ++ ts2) res s =
    (res' ← sweep_triggers now w meta m ts1 res; sweep_triggers now w meta m ts2 res') s.
Proof.
  revert res s. induction ts1 as [|t ts1 IH]; intros res s; [done|]. cbn [sweep_triggers app].
  unfold mbind, dbm_bind. destruct (sweep_trigger now w meta m res t s) as [s1 [e|r1]]; [done|]. apply IH.
Qed.
Lemma sweep_workspaces_app now m ws1 ws2 res s :
  sweep_workspaces now m (ws1 ++ ws2) res s = (res' ← sweep_workspaces now m ws1 res; sweep_workspaces now m ws2 res') s.
Proof.
  revert res s. induction ws1 as [|w ws1 IH]; intros res s; [done|]. cbn [sweep_workspaces app].
  set (here := match GetWorkspaceMeta w with Some meta => sweep_triggers now w meta m (Triggers meta) res | None => mret res end).
  unfold mbind, dbm_bind. destruct (here s) as [s1 [e|r1]]; [done|]. apply IH.
Qed.

(** The rows of a flight, as a set. *)
Definition same_rows (f : flight) (t t' : gmap string TriggerRun) : Prop :=
  ∀ id r, flight_of r = f → t' !! id = Some r ↔ t !! id = Some r.
Lemma same_rows_due now every f t t' : same_rows f t t' → due now every f t' = due now every f t.
Proof.
  intros Hs. apply bool_decide_ext. split; intros Hall id r Hr Hf; apply (Hall id r); try done; by apply Hs.
Qed.
Lemma same_rows_busy f t t' : same_rows f t t' → busy f t' = busy f t.
Proof.
  intros Hs. apply eq_true_iff_eq. rewrite !busy_spec.
  split; intros (k & r & Hr & Hf & E); exists k, r; (split; [by apply Hs|done]).
Qed.

Definition overruns (now : Z) (trig : Trigger) (r : TriggerRun) : bool :=
  (0 <? TriggerTimeout trig) && (TriggerTimeout trig <=? now - StartedAt r).
Definition blocked_by (k : TriggerKey) (every : Z) (trig : Trigger) (r : TriggerRun) : TriggerSkip :=
  {| SkKey := k; Since := StartedAt r; Every := every; SkTimeout := TriggerTimeout trig |}.
Definition ready (meta : ProjectMeta) (trig : Trigger) (s : LDB) : bool :=
  if bool_decide (TgOn trig = TriggerOnSignals) then signalsPendingForTrigger meta s else true.

(** What a sweep reports about one trigger, and its rows afterwards. *)
Definition blocked_outcome (w : string) (trig : Trigger) (every : Z) (stop : bool) (r : TriggerRun) (before : gmap string TriggerRun)
    (s' : LDB) (res : TriggerSweepResult) : Prop :=
  let k := workspace_key w (TgName trig) in
  fired_for k res = [] ∧ skipped_for k res = (if stop then [blocked_by k every trig r] else []) ∧
  same_rows (WorkspaceFlight w (TgName trig)) before (trigger_runs (tdb s')).
Definition idle_outcome (w : string) (trig : Trigger) (go : bool) (before : gmap string TriggerRun) (s' : LDB) (res : TriggerSweepResult) : Prop :=
  let k := workspace_key w (TgName trig) in
  let f := WorkspaceFlight w (TgName trig) in
  skipped_for k res = [] ∧
  if go then
    (∃ j id row, fired_for k res = [{| FiKey := k; FiJobID := j |}] ∧ trigger_runs (tdb s') !! id = Some row ∧
                 in_flight row = true ∧ flight_of row = f ∧ TrJobID row = j) ∨
    (fired_for k res = [] ∧ {| CoKey := k; CoExitCode := TriggerDispatchFailureExitCode |} ∈ Completed res ∧
     same_rows f before (trigger_runs (tdb s')))
  else fired_for k res = [] ∧ same_rows f before (trigger_runs (tdb s')).

Lemma filter_snoc {A} (P : A → Prop) `{∀ x, Decision (P x)} l x : P x → filter P (l ++ [x]) = filter P l ++ [x].
Proof. intros Hx. by rewrite filter_app, filter_cons_True. Qed.

Section own.
Context (now : Z) (w : string) (meta : ProjectMeta) (trig : Trigger) (every : Z) (m : gmap TriggerKey TriggerRun).
Local Abbreviation k := (workspace_key w (TgName trig)).
Local Abbreviation f := (WorkspaceFlight w (TgName trig)).
Context (Hw : w ≠ "") (Hn : TgName trig ≠ "") (Hev : ParseDuration (TgEvery trig) = Some every).

Lemma sweep_own_blocked s res r :
  m !! k = Some r → fired_for k res = [] → skipped_for k res = [] → fresh (tdb s) →
  ∃ s' res', sweep_trigger now w meta m res trig s = (s', inr res') ∧ fresh (tdb s') ∧
    blocked_outcome w trig every (overruns now trig r || due now every f (trigger_runs (tdb s))) r (trigger_runs (tdb s)) s' res'.
Proof.
  intros Hm Hfi Hsk Hfr. unfold sweep_trigger. rewrite Hev. fold (workspace_key w (TgName trig)). rewrite Hm.
  fold (overruns now trig r). destruct (overruns now trig r); cbn [orb].
  - destruct (begin_timeout_state k r (TriggerTimeout trig) s) as (s' & Hr & Ht & _).
    rewrite (bind_run _ _ _ _ _ Hr). do 2 eexists. split; [reflexivity|]. rewrite Ht. split; [done|]. split_and!; [done| |by rewrite Ht].
    unfold skipped_for in Hsk |- *. cbn [skip Skipped]. by rewrite filter_snoc, Hsk.
  - unfold sweep_due. rewrite (bind_run _ _ _ _ _ (triggerIsDue_spec now w (TgName trig) every s Hw Hn)). rewrite Hm.
    destruct (due now every f (trigger_runs (tdb s))); do 2 eexists; (split; [reflexivity|]); (split; [done|]); split_and!; try done.
    unfold skipped_for in Hsk |- *. cbn [skip Skipped]. by rewrite filter_snoc, Hsk.
Qed.

Lemma sweep_own_idle s res :
  m !! k = None → busy f (trigger_runs (tdb s)) = false → fired_for k res = [] → skipped_for k res = [] → fresh (tdb s) →
  ∃ s' res', sweep_trigger now w meta m res trig s = (s', inr res') ∧ fresh (tdb s') ∧
    idle_outcome w trig (due now every f (trigger_runs (tdb s)) && ready meta trig s) (trigger_runs (tdb s)) s' res'.
Proof.
  intros Hm Hb Hfi Hsk Hfr. unfold sweep_trigger. rewrite Hev. fold k. rewrite Hm.
  unfold sweep_due. rewrite (bind_run _ _ _ _ _ (triggerIsDue_spec now w (TgName trig) every s Hw Hn)). rewrite Hm.
  destruct (due now every f (trigger_runs (tdb s))); [|by do 2 eexists; split; [reflexivity|]; split]. cbn [andb].
  rewrite (bind_run _ _ s s (ready meta trig s)) by (unfold ready; by destruct (bool_decide (TgOn trig = TriggerOnSignals))).
  destruct (ready meta trig s); [|by do 2 eexists; split; [reflexivity|]; split]. cbn [negb].
  destruct (fire_spec now w trig s Hfr) as (s' & r & Hr & Hs & Hu & Hrows). cbv zeta in Hrows.
  unfold mbind at 1, dbm_bind at 1, try_. rewrite Hr. destruct r as [e|j].
  - assert (Hsame : trigger_runs (tdb s') = trigger_runs (tdb s)) by (destruct e as [[]| | |]; tauto).
    assert (Hne : e ≠ LTrigger ErrTriggerRunInFlight) by (intros ->; destruct Hrows; congruence).
    exists s', (complete res [{| CoKey := k; CoExitCode := TriggerDispatchFailureExitCode |}]).
    split; [destruct e as [[]| | |]; done|]. split; [by eapply fresh_same|]. split; [done|]. right. split_and!; [done| |by rewrite Hsame].
    cbn. set_solver.
  - destruct Hrows as [Hrows Hlt]. do 2 eexists. split; [reflexivity|]. split; [by eapply fresh_insert|]. split; [done|]. left.
    exists j, (uuid (tuuids (tdb s))), (claimed now w (TgName trig) j (tdb s)). split_and!; [|by rewrite Hrows, lookup_insert_eq|done..].
    unfold fired_for in Hfi |- *. cbn [fired Fired]. by rewrite filter_snoc, Hfi.
Qed.

(** Whatever the other triggers do afterwards. *)
Lemma blocked_outcome_later stop r before p p' :
  blocked_outcome w trig every stop r before p.1 p.2 → unrelated w (TgName trig) p p' → blocked_outcome w trig every stop r before p'.1 p'.2.
Proof.
  intros (H1 & H2 & H3) [Ur Us Uf Ui Uk Uc]. unfold blocked_outcome.  cbv zeta in *. rewrite Ui, Uk. split_and!; [done..|].
  intros id x Hx. rewrite Ur by done. by apply H3.
Qed.
Lemma idle_outcome_later go before p p' :
  idle_outcome w trig go before p.1 p.2 → unrelated w (TgName trig) p p' → idle_outcome w trig go before p'.1 p'.2.
Proof.
  intros [H1 H2] [Ur Us Uf Ui Uk Uc]. unfold idle_outcome.  cbv zeta in *. rewrite Ui, Uk. split; [done|].
  assert (Hsame : ∀ t, same_rows f t (trigger_runs (tdb p.1)) → same_rows f t (trigger_runs (tdb p'.1)))
    by (intros t Ht id x Hx; rewrite Ur by done; by apply Ht).
  destruct go; [|naive_solver]. destruct H2 as [(j & id & row & Hj & Hr & Hf & Hfl & Hjob)|(Hi & Hc & Hr)].
  - left. exists j, id, row. split_and!; [done|by apply Ur|done..].
  - right. split_and!; [done|by apply Uc|by apply Hsame].
Qed.
End own.

Lemma idle_outcome_rows w trig go t t' s' res :
  idle_outcome w trig go t s' res → same_rows (WorkspaceFlight w (TgName trig)) t' t → idle_outcome w trig go t' s' res.
Proof.
  intros [H1 H2] Hs. split; [done|].
  assert (Hsame : ∀ u, same_rows (WorkspaceFlight w (TgName trig)) t u → same_rows (WorkspaceFlight w (TgName trig)) t' u)
    by (intros u Hu id r Hr; rewrite (Hu id r Hr); by apply Hs).
  destruct go; [destruct H2 as [?|(? & ? & ?)]; [by left|right; auto]|]. destruct H2. auto.
Qed.

(** The decision of a sweep about one trigger, whatever the others are. *)
Lemma sweep_workspaces_decide now m ws res s w meta trig every :
  fresh (tdb s) → NoDup ws → w ∈ ws → w ≠ "" → GetWorkspaceMeta w = Some meta →
  NoDup (TgName <$> Triggers meta) → trig ∈ Triggers meta → TgName trig ≠ "" → ParseDuration (TgEvery trig) = Some every →
  let k := workspace_key w (TgName trig) in
  let f := WorkspaceFlight w (TgName trig) in
  let t := trigger_runs (tdb s) in
  fired_for k res = [] → skipped_for k res = [] →
  ∃ s' res', sweep_workspaces now m ws res s = (s', inr res') ∧
    (∀ r, m !! k = Some r → blocked_outcome w trig every (overruns now trig r || due now every f t) r t s' res') ∧
    (m !! k = None → busy f t = false → idle_outcome w trig (due now every f t && ready meta trig s) t s' res').
Proof.
  intros Hfr Hnd (ws1 & ws2 & ->)%list_elem_of_split Hw Hmeta Hnames (ts1 & ts2 & Hts)%list_elem_of_split Hn Hev k f t Hfi Hsk.
  apply NoDup_app in Hnd as (_ & Hdisj & [Hw2 _]%NoDup_cons).
  assert (Hw1 : w ∉ ws1) by (intros Hin; apply (Hdisj w Hin); by left).
  rewrite Hts, fmap_app, fmap_cons in Hnames. apply NoDup_app in Hnames as (_ & Hdn & [Hn2 _]%NoDup_cons).
  assert (Hk1 : ∀ x, x ∈ ts1 → workspace_key w (TgName x) ≠ k).
  { intros x Hx [= Heq]. apply (Hdn (TgName x)); [by apply list_elem_of_fmap_2|]. rewrite Heq. by left. }
  assert (Hk2 : ∀ x, x ∈ ts2 → workspace_key w (TgName x) ≠ k).
  { intros x Hx [= Heq]. apply Hn2. rewrite <- Heq. by apply list_elem_of_fmap_2. }
  destruct (sweep_workspaces_other now m ws1 res s w (TgName trig) Hfr Hw1) as (s1 & r1 & H1 & U1).
  destruct (sweep_triggers_other now w meta m ts1 r1 s1 w (TgName trig) (un_fresh _ _ _ _ U1) Hk1) as (s2 & r2 & H2 & U2).
  pose proof (unrelated_trans _ _ _ _ _ U1 U2) as U. destruct U as [Ur Us Uf Ui Uk Uc]. cbn [fst snd] in *.
  assert (Hrun : ∀ s3 r3, sweep_trigger now w meta m r2 trig s2 = (s3, inr r3) → fresh (tdb s3) →
    ∃ s' res', sweep_workspaces now m (ws1 ++ w :: ws2) res s = (s', inr res') ∧ unrelated w (TgName trig) (s3, r3) (s', res')).
  { intros s3 r3 H3 F3. destruct (sweep_triggers_other now w meta m ts2 r3 s3 w (TgName trig) F3 Hk2) as (s4 & r4 & H4 & U4).
    destruct (sweep_workspaces_other now m ws2 r4 s4 w (TgName trig) (un_fresh _ _ _ _ U4) Hw2) as (s5 & r5 & H5 & U5).
    exists s5, r5. split; [|by eapply unrelated_trans]. rewrite sweep_workspaces_app, (bind_run _ _ _ _ _ H1). cbn [sweep_workspaces].
    rewrite Hmeta, Hts. rewrite (bind_run _ _ s1 s4 r4); [done|].
    rewrite sweep_triggers_app, (bind_run _ _ _ _ _ H2). cbn [sweep_triggers]. by rewrite (bind_run _ _ _ _ _ H3). }
  assert (Hsame : same_rows f t (trigger_runs (tdb s2))) by (intros id x Hx; by apply Ur).
  fold k in Ui, Uk. rewrite Hfi in Ui. rewrite Hsk in Uk.
  destruct (m !! k) as [r|] eqn:Hm.
  - destruct (sweep_own_blocked now w meta trig every m Hw Hn Hev s2 r2 r Hm Ui Uk Uf) as (s3 & r3 & H3 & F3 & O3).
    destruct (Hrun s3 r3 H3 F3) as (s' & res' & Hr & U'). exists s', res'. split_and!; [done| |done]. intros x [= <-].
    apply (blocked_outcome_later w trig every _ _ _ (s3, r3) (s', res')); [|done].
    fold f in O3. rewrite (same_rows_due _ _ _ _ _ Hsame) in O3. destruct O3 as (O1 & O2 & O3). split_and!; [done|done|].
    intros id y Hy. rewrite (O3 id y Hy). by apply Hsame.
  - destruct (busy f t) eqn:Hb.
    + destruct (sweep_trigger_runs now w meta m r2 trig s2 Uf) as (s3 & r3 & H3 & F3).
      destruct (Hrun s3 r3 H3 F3) as (s' & res' & Hr & _). by exists s', res'.
    + destruct (sweep_own_idle now w meta trig every m Hw Hn Hev s2 r2 Hm) as (s3 & r3 & H3 & F3 & O3);
        [exact (eq_trans (same_rows_busy _ _ _ Hsame) Hb)|done..|].
      destruct (Hrun s3 r3 H3 F3) as (s' & res' & Hr & U'). exists s', res'. split_and!; [done..|]. intros _ _.
      apply (idle_outcome_later w trig _ _ (s3, r3) (s', res')); [|done].
      fold f in O3. rewrite (same_rows_due _ _ _ _ _ Hsame) in O3. replace (ready meta trig s2) with (ready meta trig s) in O3
        by (unfold ready, signalsPendingForTrigger; by rewrite Us).
      by apply (idle_outcome_rows w trig _ (trigger_runs (tdb s2))).
Qed.

(** C20.  A sweep decides about each trigger of each workspace by its own history,
    whatever the other triggers do.  After the runs in flight have been
    settled: while one of its runs is in flight the trigger does not fire, and
    is reported as blocked when it is due or the run has overrun its timeout;
    otherwise it fires exactly when all of its runs started at least [every]
    ago and, for a trigger on signals, a signal is pending.  Then there is a
    run in flight for it, with the job that was started, or the failure to
    start one is reported and the history is as it was, so that the next sweep
    tries again. *)
Theorem sweep_decides_each_trigger now s ws w meta declared sources trig :
  keyed (trigger_runs (tdb s)) → single_flight (tdb s) → fresh (tdb s) →
  ListWorkspaces = Some ws → NoDup ws → w ∈ ws → w ≠ "" →
  GetWorkspaceMeta w = Some meta → workspaceTriggers declared sources = Some (Triggers meta) → trig ∈ Triggers meta →
  let f := WorkspaceFlight w (TgName trig) in
  let after := settle now (jobs (led (wdb s))) <$> trigger_runs (tdb s) in
  ∃ every s' res, ParseDuration (TgEvery trig) = Some every ∧ SweepTriggers now s = (s', inr res) ∧
    (∀ id r, after !! id = Some r → in_flight r = true → flight_of r = f →
       blocked_outcome w trig every (overruns now trig r || due now every f after) r after s' res) ∧
    (busy f after = false → idle_outcome w trig (due now every f after && ready meta trig s) after s' res).
Proof.
  intros Hkd Hsf Hfr Hws Hnd Hin Hw Hmeta Htr Htrig f after. unfold workspaceTriggers in Htr.
  destruct (deriveSignalTriggers sources) as [derived|]; [|done]. cbn [mbind option_bind] in Htr. cbv zeta in Htr.
  destruct (ValidateTriggers (declared ++ derived)) eqn:Hv; [|done]. injection Htr as Heq. rewrite Heq in Hv.
  apply ValidateTriggers_spec in Hv as [Hnames Hvalid]. rewrite Forall_forall in Hvalid.
  destruct (valid_trigger_every trig (Hvalid trig Htrig)) as (every & Hev & _ & Hn & _).
  destruct (reconcile_spec now s Hkd Hsf) as (m & cs & Hrc & Hm & _). fold after in Hrc, Hm.
  set (s1 := set_timeouts (with_runs s after) (timingOut s) (ending s) []).
  destruct (sweep_workspaces_decide now m ws {| Fired := []; Skipped := []; Completed := cs ++ pendingTimeouts s |} s1 w meta trig every)
    as (s' & res & Hrun & Hblk & Hidle); try done.
  { intros n Hle. change (trigger_runs (tdb s1)) with after. unfold after. by rewrite lookup_fmap, (Hfr n Hle). }
  exists every, s', res. split; [done|]. split.
  { unfold SweepTriggers. rewrite (bind_run _ _ _ _ _ Hrc), Hws. rewrite (bind_run _ _ _ s1 (pendingTimeouts s)); done. }
  assert (Hkey : ∀ r, triggerRunKey r = workspace_key w (TgName trig) ↔ flight_of r = f).
  { intros r. change (workspace_key w (TgName trig)) with (triggerRunKey (claimed 0 w (TgName trig) "" (tdb s))). by rewrite key_flight. }
  split.
  - intros id r Hr Hf Hfl. apply Hblk, Hm. exists id. split_and!; [done..|by apply Hkey].
  - intros Hb. apply Hidle; [|done]. destruct (m !! workspace_key w (TgName trig)) as [r|] eqn:Hmk; [|done].
    apply Hm in Hmk as (id & Hr & Hf & Hk). exfalso. apply not_true_iff_false in Hb. apply Hb, busy_spec. exists id, r.
    split_and!; [done..|by apply Hkey].
Qed.
End sweep.

(** ** Ending a round *)

(** An abort that is accepted aborts. *)
Lemma abort_applied `{ServiceEnv} ctx id payload only s s' app :
  applyAction ctx id "abort" payload only s = (s', inr app) → Status (AppTask app) = TaskStatusAborted.
Proof.
  unfold applyAction. intros Hr. apply bind_ok in Hr as (? & s1 & _ & Hr). apply bind_ok in Hr as (task & s2 & _ & Hr). cbv zeta in Hr.
  destruct (Type_ task) eqn:Hty; unfold machineFor in Hr; rewrite Hty in Hr.
  { apply bind_ok in Hr as (? & s3 & Hm & _). by vm_compute in Hm. }
  change (bool_decide (MName NewExecutionMachine = CardMachineName)) with false in Hr. cbv iota in Hr.
  apply bind_ok in Hr as (? & s3 & _ & Hr). apply bind_ok in Hr as (? & s4 & _ & Hr). apply bind_ok in Hr as (? & s5 & _ & Hr).
  change (bool_decide ("abort" = "go")) with false in Hr. change (bool_decide ("abort" = "answered")) with false in Hr. cbv iota in Hr.
  apply bind_ok in Hr as (p & s6 & Hp & Hr). apply bind_ok in Hr as (? & s7 & _ & Hr). apply bind_ok in Hr as (ta & s8 & Hc & Hr).
  apply bind_ok in Hr as (? & s9 & _ & [_ ->]%ret_ok). cbn [AppTask].
  assert (Hst : Status (PrTask p) = TaskStatusAborted ∧ AType (PrAction p) = "abort").
  { unfold prepare_action in Hp. apply bind_ok in Hp as (meta & t1 & _ & Hp). apply bind_ok in Hp as (applied & t2 & Ha & Hp).
    apply bind_ok in Hp as (newTask & t3 & Hn & Hp). apply bind_ok in Hp as (parsed & t4 & _ & [-> ->]%ret_ok). cbn [PrTask PrAction].
    split; [|done]. assert (Status applied = TaskStatusAborted) as <-.
    { unfold resolveAttrsSetDoneTransition in Ha. apply bind_ok in Ha as (g & t5 & Hg & Ha).
      assert (g = false) as -> by (revert Hg; cbn [AType new_action]; change (doneCardWritableActions "abort") with false; cbn [andb]; by intros [_ ->]%ret_ok).
      destruct (Apply NewExecutionMachine task (new_action (ID task) "abort" payload "" "" (CtxActor ctx))) as [u| |] eqn:Hap; [|done..].
      apply ret_ok in Ha as [_ ->]. apply Apply_Ok, apply_rules_inv in Hap as (r & Hin & Hm & ->).
      apply (rules_forall (λ r, negb (bool_decide (RuleAction r = "abort")) || bool_decide (ToStatus r = TaskStatusAborted))) in Hin; [|by vm_compute].
      apply apply_matches_spec in Hm as (_ & Hact & _). rewrite Hact in Hin. cbn [AType new_action] in Hin.
      change (negb (bool_decide ("abort" = "abort"))) with false in Hin. cbn [orb] in Hin. apply bool_decide_eq_true in Hin. by rewrite Hin. }
    destruct (Exec applied) as [e|]; [|by apply ret_ok in Hn as [_ ->]].
    destruct (if _ && _ then _ else _) as [inst|]; [by apply ret_ok in Hn as [_ ->]|].
    destruct (_ || _); [by apply ret_ok in Hn as [_ ->]|]. by apply bind_ok in Hn as (m & t5 & _ & [_ ->]%ret_ok). }
  destruct Hst as [Hst Hact]. apply map_err_ok in Hc. unfold InTxDB in Hc.
  destruct (commit_action _ _ _ _ s7) as [u [e|y]] eqn:Hcm; [done|]. injection Hc as <- <-. unfold commit_action in Hcm.
  apply bind_ok in Hcm as (? & ? & _ & Hcm). rewrite Hact in Hcm. change (skipTaskUpdate "abort") with false in Hcm. cbv iota in Hcm.
  apply bind_ok in Hcm as (ta' & ? & Hta & Hcm). apply bind_ok in Hcm as (? & ? & _ & Hcm). apply bind_ok in Hcm as (? & ? & _ & Hcm).
  apply bind_ok in Hcm as (? & ? & _ & [_ ->]%ret_ok). by apply bind_ok in Hta as (? & ? & _ & [_ ->]%ret_ok).
Qed.

(** The work goes before the slot.  When a round has overrun its timeout, its
    run is closed, freeing the trigger for the next round, only after the task
    its job waits for has been aborted or has refused to be with a client
    error; if the abort fails for any other reason the run stays in flight and
    nothing is reported.  A closed run carries the exit code of a timeout and
    is reported once; a run that somebody else has closed meanwhile is left as
    it is. *)
Theorem timeout_ends_the_work_first `{TriggerEnv} en s :
  let abort := λ taskID, applyAction daemon_ctx taskID "abort" (timeoutAbortPayload (timeout_text (EnKey en) (EnTimeout en))) true (wdb s) in
  ∃ s', finishTimeOutTriggerRun en s = (s', inr ()) ∧
    ((trigger_runs (tdb s') = trigger_runs (tdb s) ∧ pendingTimeouts s' = pendingTimeouts s) ∨
     (∃ r, trigger_runs (tdb s) !! EnRunID en = Some r ∧ in_flight r = true ∧
        trigger_runs (tdb s') = <[EnRunID en := set_finished r (tclock (tdb s)) TriggerTimeoutExitCode]> (trigger_runs (tdb s)) ∧
        pendingTimeouts s' = pendingTimeouts s ++ [{| CoKey := EnKey en; CoExitCode := TriggerTimeoutExitCode |}] ∧
        ∀ taskID, TaskFor (EnJobID en) s = Some taskID →
          (∃ app, abort taskID = (wdb s', inr app) ∧ Status (AppTask app) = TaskStatusAborted) ∨
          (∃ code, 400 ≤ code < 500 ∧ abort taskID = (wdb s', inl (WStatus code))))).
Proof.
  intros abort. unfold finishTimeOutTriggerRun. rewrite bind_gets.
  assert (∃ s1 ended, abort_waited en s = (s1, inr ended) ∧ tdb s1 = tdb s ∧ pendingTimeouts s1 = pendingTimeouts s ∧
    (ended = true → ∀ taskID, TaskFor (EnJobID en) s = Some taskID →
      (∃ app, abort taskID = (wdb s1, inr app) ∧ Status (AppTask app) = TaskStatusAborted) ∨
      (∃ code, 400 ≤ code < 500 ∧ abort taskID = (wdb s1, inl (WStatus code))))) as (s1 & ended & Hab & Ht & Hpd & Hend).
  { unfold abort_waited. destruct (TaskFor (EnJobID en) s) as [taskID|]; [|by exists s, true].
    unfold abort. destruct (applyAction _ _ _ _ _ (wdb s)) as [d [e|app]] eqn:Hap; (eexists _, _; split; [reflexivity|]; split; [done|]; split; [done|]);
      intros Hperm other Hother; injection Hother as <-; [right|left].
    - destruct e; try done. cbn in Hperm. exists code. split; [lia|exact Hap].
    - exists app. split; [exact Hap|]. by eapply abort_applied. }
  rewrite (bind_run _ _ _ _ _ Hab). destruct ended; [|by exists s1; split; [|left; rewrite Ht]].
  unfold on_runs, CompleteTriggerRun. unfold mbind at 1, dbm_bind at 1. rewrite bind_fail_if.
  assert (Hsame : ∃ s', (mret () : loopm unit) (set_tdb s1 (tdb s1)) = (s', inr ()) ∧
    trigger_runs (tdb s') = trigger_runs (tdb s) ∧ pendingTimeouts s' = pendingTimeouts s).
  { eexists. split; [reflexivity|]. rewrite set_tdb_id, Ht. done. }
  destruct Hsame as (s0 & Hs0 & Hr0 & Hp0).
  destruct (str_empty (EnRunID en)); [exists s0; split; [exact Hs0|left; done]|]. rewrite bind_gets.
  destruct (trigger_runs (tdb s1) !! EnRunID en) as [r|] eqn:Hr; [|exists s0; split; [exact Hs0|left; done]].
  destruct (in_flight r) eqn:Hf; [|exists s0; split; [exact Hs0|left; done]].
  eexists. split; [reflexivity|]. right. exists r. rewrite <- Ht. split_and!; try done; [cbn; by rewrite Hpd|]. by apply Hend.
Qed.

(** ** The loop as a whole *)

(** A run is being ended by one goroutine at most, and the guard knows which. *)
Definition one_ending (s : LDB) : Prop :=
  NoDup (EnRunID <$> ending s) ∧ ∀ id, id ∈ timingOut s ↔ id ∈ (EnRunID <$> ending s).

(** What a request does to the runs and the rounds being ended. *)
Definition loop_evolve `{TriggerEnv} (s s' : LDB) : Prop :=
  rtc (trigger_step uuid) (tdb s) (tdb s') ∧ (one_ending s → one_ending s').
#[export] Instance loop_evolve_refl `{TriggerEnv} : Reflexive loop_evolve.
Proof. intros s. split; [apply rtc_refl|done]. Qed.
#[export] Instance loop_evolve_trans `{TriggerEnv} : Transitive loop_evolve.
Proof. intros a b c [Hab Eab] [Hbc Ebc]. split; [exact (rtc_trans _ _ _ Hab Hbc)|auto]. Qed.

(** Ticks, manual runs, goroutines, and other requests. *)
Inductive loop_step `{TriggerEnv} : relation LDB :=
| step_sweep now s : loop_step s (SweepTriggers now s).1
| step_run_now now p name s : loop_step s (RunTriggerNow now p name s).1
| step_run_workspace now w name s : loop_step s (RunWorkspaceTriggerNow now w name s).1
| step_ending i s : loop_step s (run_ending i s).1
| step_wait job task s : loop_step s (Register job task s)
| step_release job task s : loop_step s (release job task s)
| step_other s s' : loop_evolve s s' → loop_step s s'.

Section evolve.
Context `{TriggerEnv} (evolving : ∀ n s, loop_evolve s (trigger_others n s)).

Lemma on_runs_evolve {A} (m : trm A) : (∀ d, rtc (trigger_step uuid) d (m d).1) → steps loop_evolve (on_runs m).
Proof. intros Hm s. unfold on_runs, loop_evolve. specialize (Hm (tdb s)). by destruct (m (tdb s)). Qed.
Lemma complete_evolves id t c : steps loop_evolve (on_runs (CompleteTriggerRun id t c)).
Proof. apply on_runs_evolve. intros d. apply rtc_once, complete_run. Qed.
Lemma evolve_same s s' : tdb s' = tdb s → timingOut s' = timingOut s → ending s' = ending s → loop_evolve s s'.
Proof. intros Ht Hg He. unfold loop_evolve, one_ending. rewrite Ht, Hg, He. split; [apply rtc_refl|done]. Qed.

#[local] Hint Resolve complete_evolves : steps.

Lemma reconcile_run_evolves now r : steps loop_evolve (reconcile_run now r).
Proof. unfold reconcile_run, selfHealStaleTriggerRun. steps_tac. Qed.
Lemma reconcile_evolves now : steps loop_evolve (reconcileInFlight now).
Proof.
  unfold reconcileInFlight. apply steps_bind; [apply _|steps_tac|]. intros rs.
  generalize (∅ : gmap TriggerKey TriggerRun) as acc. induction rs as [|r rs IH]; intros acc; [steps_tac|]. cbn [reconcile_runs].
  apply steps_bind; [apply _|apply reconcile_run_evolves|]. intros x. apply steps_bind; [apply _|apply IH|]. steps_tac.
Qed.
Lemma fire_evolves now k t : steps loop_evolve (fireTrigger now k t).
Proof.
  unfold fireTrigger. destruct StartExec as [start|]; [|steps_tac].
  apply steps_bind; [apply _|apply on_runs_evolve; intros d; apply rtc_once, create_run|]. intros [e|run]; [steps_tac|].
  cbn [fire_created]. apply steps_bind; [apply _|apply steps_modify, evolving|intros _].
  apply steps_bind; [apply _|intros s; destruct (start _ (wdb s)); by apply evolve_same|]. intros job.
  apply steps_bind; [apply _|apply steps_modify, evolving|intros _]. destruct job as [j|].
  - apply steps_bind; [apply _|apply on_runs_evolve; intros d; apply rtc_once, set_job_id|steps_tac].
  - apply steps_bind; [apply _|apply on_runs_evolve; intros d; apply rtc_once, delete_run|steps_tac].
Qed.
Lemma due_evolves now k every : steps loop_evolve (triggerIsDue now k every).
Proof. intros s. destruct (triggerIsDue_state now k every s) as [b ->]. reflexivity. Qed.
Lemma begin_evolves k r t : steps loop_evolve (beginTimeOutTriggerRun k r t).
Proof.
  intros s. unfold beginTimeOutTriggerRun, claimTimeout, mbind, dbm_bind.
  destruct (bool_decide (TrID r ∈ timingOut s)) eqn:Hc; [reflexivity|]. apply bool_decide_eq_false in Hc.
  split; [apply rtc_refl|]. intros [Hnd Hg]. unfold one_ending. cbn. rewrite fmap_app. cbn. split.
  - apply NoDup_app. split_and!; [done| |apply NoDup_singleton]. intros x Hx Heq%list_elem_of_singleton. subst x. by apply Hc, Hg.
  - intros id. rewrite elem_of_union, elem_of_singleton, elem_of_app, list_elem_of_singleton, Hg. tauto.
Qed.

#[local] Hint Resolve reconcile_evolves fire_evolves due_evolves begin_evolves : steps.

Lemma sweep_triggers_evolve now w meta m ts res : steps loop_evolve (sweep_triggers now w meta m ts res).
Proof.
  revert res. induction ts as [|t ts IH]; intros res; [steps_tac|]. cbn [sweep_triggers]. apply steps_bind; [apply _| |apply IH].
  unfold sweep_trigger, sweep_due. steps_tac.
Qed.
Lemma sweep_evolves now : steps loop_evolve (SweepTriggers now).
Proof.
  unfold SweepTriggers. apply steps_bind; [apply _|apply reconcile_evolves|]. intros rc. destruct ListWorkspaces as [ws|]; [|steps_tac].
  apply steps_bind; [apply _|intros s; by apply evolve_same|]. intros drained.
  generalize {| Fired := []; Skipped := []; Completed := rc.2 ++ drained |} as res.
  induction ws as [|w ws IH]; intros res; [steps_tac|]. cbn [sweep_workspaces]. apply steps_bind; [apply _| |apply IH].
  destruct (GetWorkspaceMeta w) as [meta|]; [apply sweep_triggers_evolve|steps_tac].
Qed.
Lemma run_workspace_evolves now w name : steps loop_evolve (RunWorkspaceTriggerNow now w name).
Proof. unfold RunWorkspaceTriggerNow, runTriggerNow. steps_tac. Qed.

(** Ending a round leaves the other rounds being ended alone. *)
Lemma finish_evolves en s :
  let s' := (finishTimeOutTriggerRun en s).1 in
  (finishTimeOutTriggerRun en s).2 = inr () ∧ rtc (trigger_step uuid) (tdb s) (tdb s') ∧ timingOut s' = timingOut s ∧ ending s' = ending s.
Proof.
  unfold finishTimeOutTriggerRun. rewrite bind_gets.
  assert (∃ s1 ended, abort_waited en s = (s1, inr ended) ∧ tdb s1 = tdb s ∧ timingOut s1 = timingOut s ∧ ending s1 = ending s)
    as (s1 & ended & Hab & Ht & Hg & He).
  { unfold abort_waited. destruct (TaskFor (EnJobID en) s); [|by exists s, true].
    destruct (applyAction _ _ _ _ _ (wdb s)) as [d [e|a]]; by eexists _, _. }
  rewrite (bind_run _ _ _ _ _ Hab). destruct ended; [|cbn; rewrite Ht, Hg, He; split_and!; try done; apply rtc_refl].
  unfold on_runs, mbind, dbm_bind. pose proof (complete_run uuid (EnRunID en) (tclock (tdb s)) TriggerTimeoutExitCode (tdb s1)) as Hstep.
  destruct (CompleteTriggerRun _ _ _ (tdb s1)) as [d [e|u]]; cbn in *; rewrite Hg, He; rewrite Ht in Hstep; split_and!; try done; by apply rtc_once.
Qed.
Lemma ending_evolves i : steps loop_evolve (run_ending i).
Proof.
  intros s. unfold run_ending. rewrite bind_gets. destruct (ending s !! i) as [en|] eqn:Hi; [|reflexivity].
  erewrite bind_run by done. set (s1 := set_timeouts s _ _ _). destruct (finish_evolves en s1) as (Hok & Hrt & Hg & He).
  destruct (finishTimeOutTriggerRun en s1) as [s2 o] eqn:Hf. cbn in Hok, Hrt, Hg, He. subst o. rewrite (bind_run _ _ _ _ _ Hf).
  split; [exact Hrt|]. intros [Hnd Hguard]. unfold one_ending. cbn. rewrite Hg, He. clear - Hi Hnd Hguard.
  apply list_elem_of_split_length in Hi as (l1 & l2 & Heq & ->). rewrite Heq, delete_middle. rewrite Heq in Hnd, Hguard.
  rewrite fmap_app, fmap_cons in Hnd. rewrite fmap_app in Hguard |- *. rewrite fmap_cons in Hguard.
  rewrite <- Permutation_middle in Hnd. apply NoDup_cons in Hnd as [Hnot Hnd]. split; [done|]. intros id.
  rewrite elem_of_difference, elem_of_singleton, Hguard. rewrite <- Permutation_middle, elem_of_cons. set_solver.
Qed.

Lemma loop_step_evolves s s' : loop_step s s' → loop_evolve s s'.
Proof.
  intros [now x|now p name x|now w name x|i x|job task x|job task x|x y Hxy].
  - apply sweep_evolves.
  - unfold RunTriggerNow. rewrite bind_gets. destruct (project_rows (wdb x) !! p); [apply run_workspace_evolves|apply steps_throw, _].
  - apply run_workspace_evolves.
  - apply ending_evolves.
  - unfold Register. destruct (_ || _); by apply evolve_same.
  - unfold release. destruct (bool_decide _); by apply evolve_same.
  - done.
Qed.
End evolve.

(** The key of a stored run. *)
Lemma created_id uid run d row : (∀ n, uid n ≠ "") → (CreateTriggerRun uid run d).2 = inr row → TrID row ≠ "".
Proof.
  intros Hu Hrow. destruct (CreateTriggerRun uid run d) as [d' o] eqn:Hc. cbn in Hrow. subst o. unfold CreateTriggerRun in Hc.
  rewrite !bind_fail_if in Hc. destruct (_ && _); [done|]. destruct (str_empty (TriggerName run)); [done|].
  apply bind_ok in Hc as (id & d1 & Hid & Hc). rewrite bind_gets in Hc. cbv zeta in Hc.
  apply bind_ok in Hc as (w & d2 & _ & Hc). rewrite bind_gets, bind_fail_if in Hc. destruct (_ || _); [done|].
  rewrite bind_gets, bind_fail_if in Hc. destruct (negb _); [done|]. apply bind_ok in Hc as (u & d3 & _ & [_ ->]%ret_ok).
  unfold new_run_id in Hid. destruct (str_empty (TrID run)) eqn:He; [injection Hid as _ <-; apply Hu|].
  apply ret_ok in Hid as [_ ->]. intros Hz. cbn in Hz. by rewrite Hz in He.
Qed.

Lemma keyed_step uid d d' : (∀ n, uid n ≠ "") → trigger_step uid d d' → keyed (trigger_runs d) → keyed (trigger_runs d').
Proof.
  intros Hu Hstep Hk.
  assert (Hins : ∀ id r r', trigger_runs d !! id = Some r → TrID r' = TrID r → keyed (<[id := r']> (trigger_runs d))).
  { intros id r r' Hr Hid k x Hx. apply lookup_insert_Some in Hx as [[<- <-]|[_ Hx]]; [|by apply Hk]. rewrite Hid. by apply Hk. }
  destruct Hstep as [run d|id j d|id d|id t c d|age dry d|d d' Hruns]; try (cbn in *).
  - destruct (CreateTriggerRun_cases uid run d) as [->|(row & Hrow & Hnew & _ & _ & ->)]; [done|].
    intros k x Hx. apply lookup_insert_Some in Hx as [[<- <-]|[_ Hx]]; [|by apply Hk]. split; [done|].
    by eapply created_id.
  - unfold SetTriggerRunJobID. rewrite bind_fail_if. destruct (str_empty id); [done|]. rewrite bind_gets.
    destruct (trigger_runs d !! id) as [r|] eqn:Hr; [|done]. by eapply Hins.
  - unfold DeleteTriggerRun. rewrite bind_fail_if. destruct (str_empty id); [done|].
    intros k x Hx. cbn in Hx. apply lookup_delete_Some in Hx as [_ Hx]. by apply Hk.
  - unfold CompleteTriggerRun. rewrite bind_fail_if. destruct (str_empty id); [done|]. rewrite bind_gets.
    destruct (trigger_runs d !! id) as [r|] eqn:Hr; [|done]. destruct (in_flight r); [|done]. by eapply Hins.
  - unfold GCTriggerRuns. rewrite !bind_gets. destruct dry; [done|]. intros k x Hx. cbn in Hx.
    apply map_lookup_filter_Some in Hx as [Hx _]. by apply Hk.
  - rewrite Hruns. intros k x Hx. apply map_lookup_filter_Some in Hx as [Hx _]. by apply Hk.
Qed.

Lemma runs_consistent_step uid d d' :
  (∀ n, uid n ≠ "") → rtc (trigger_step uid) d d' →
  keyed (trigger_runs d) ∧ single_flight d → keyed (trigger_runs d') ∧ single_flight d'.
Proof.
  intros Hu. induction 1 as [|a b c Hab _ IH]; [done|]. intros [Hk Hs]. apply IH. split; [by eapply keyed_step|].
  by eapply evolves_single_flight; [eapply step_evolves|].
Qed.

(** C21.  However ticks, manual runs, goroutines that end overrunning rounds and
    other requests interleave (the others may do to the runs what the store
    offers, also while a container is being started), at no time are two runs
    of the same trigger in flight, the runs are stored under their ids, and
    at most one goroutine is ending any run: the guard holds exactly the runs
    that are being ended. *)
Theorem loop_stays_consistent `{TriggerEnv} s s' :
  (∀ n s, loop_evolve s (trigger_others n s)) → (∀ n, uuid n ≠ "") →
  trigger_runs (tdb s) = ∅ → timingOut s = ∅ → ending s = [] → rtc loop_step s s' →
  single_flight (tdb s') ∧ keyed (trigger_runs (tdb s')) ∧ one_ending s'.
Proof.
  intros Hev Hu Hr Hg He Hrun. assert (loop_evolve s s') as [Hrt Hone].
  { clear Hr Hg He. induction Hrun as [|a b c Hab _ IH]; [reflexivity|]. transitivity b; [by apply loop_step_evolves|done]. }
  destruct (runs_consistent_step uuid _ _ Hu Hrt) as [Hk Hs].
  { split; [intros k r|intros i j r r']; by rewrite Hr. }
  split_and!; [done..|]. apply Hone. unfold one_ending. rewrite Hg, He. split; [constructor|set_solver].
Qed.

(** ** The failure notices *)

(** The completions of a trigger that failed, in a row and last. *)
Fixpoint failures (k : TriggerKey) (newest_first : list TriggerCompletionResult) : Z :=
  match newest_first with
  | [] => 0
  | c :: cs => if bool_decide (CoKey c = k) then (if CoExitCode c =? 0 then 0 else failures k cs + 1) else failures k cs
  end.
Fixpoint failure_notices (past cs : list TriggerCompletionResult) : list notice :=
  match cs with
  | [] => []
  | c :: cs =>
      let n := failures (CoKey c) (c :: past) in
      (if negb (CoExitCode c =? 0) && (n mod 3 =? 0) then [NoteFailures (CoKey c) n (CoExitCode c)] else []) ++ failure_notices (c :: past) cs
  end.
(** The streaks the loop keeps, after the completions seen so far. *)
Definition streaks (past : list TriggerCompletionResult) (m : gmap TriggerKey Z) : Prop :=
  ∀ k, default 0 (m !! k) = failures k past.

Lemma fail_step_spec past acc c :
  streaks past acc.1 →
  streaks (c :: past) (fail_step acc c).1 ∧
  (fail_step acc c).2 = acc.2 ++ (if negb (CoExitCode c =? 0) && (failures (CoKey c) (c :: past) mod 3 =? 0)
                                  then [NoteFailures (CoKey c) (failures (CoKey c) (c :: past)) (CoExitCode c)] else []).
Proof.
  intros Hs. unfold fail_step, streaks. cbn [failures]. rewrite bool_decide_true by done. destruct (CoExitCode c =? 0) eqn:Hz; cbn [fst snd].
  - split; [|by rewrite app_nil_r]. intros k. case_bool_decide as Hk.
    + subst k. by rewrite lookup_delete_eq.
    + rewrite lookup_delete_ne by done. apply Hs.
  - rewrite (Hs (CoKey c)). split; [|done].
    intros k. case_bool_decide as Hk; [subst k; by rewrite lookup_insert_eq|]. rewrite lookup_insert_ne by done. apply Hs.
Qed.

Lemma fail_steps_spec cs past acc :
  streaks past acc.1 →
  streaks (rev cs ++ past) (foldl fail_step acc cs).1 ∧ (foldl fail_step acc cs).2 = acc.2 ++ failure_notices past cs.
Proof.
  revert past acc. induction cs as [|c cs IH]; intros past acc Hs; [by rewrite app_nil_r|].
  destruct (fail_step_spec past acc c Hs) as [Hs' Hn]. destruct (IH _ _ Hs') as [IH1 IH2]. cbn [foldl rev failure_notices].
  split; [by rewrite <- app_assoc|]. by rewrite IH2, Hn, <- app_assoc.
Qed.

(** The completions of several ticks, one after the other. *)
Fixpoint track_ticks (l : TriggerLoop) (ticks : list (list TriggerCompletionResult)) : TriggerLoop * list notice :=
  match ticks with
  | [] => (l, [])
  | cs :: ticks => let '(l1, n1) := trackFailStreak l cs in let '(l2, n2) := track_ticks l1 ticks in (l2, n1 ++ n2)
  end.

Lemma failure_notices_app past cs cs' : failure_notices past (cs ++ cs') = failure_notices past cs ++ failure_notices (rev cs ++ past) cs'.
Proof.
  revert past. induction cs as [|c cs IH]; intros past; [done|]. cbn [app failure_notices rev]. by rewrite IH, <- !app_assoc.
Qed.

Lemma track_ticks_spec ticks past l :
  streaks past (failStreak l) → (track_ticks l ticks).2 = failure_notices past (concat ticks).
Proof.
  revert past l. induction ticks as [|cs ticks IH]; intros past l Hs; [done|]. cbn [track_ticks concat]. unfold trackFailStreak at 1.
  destruct (fail_steps_spec cs past (failStreak l, []) Hs) as [Hs' Hn]. destruct (foldl fail_step (failStreak l, []) cs) as [m ns]. cbn in Hs', Hn.
  cbv zeta. cbn [fst snd]. specialize (IH (rev cs ++ past) {| skipStreak := skipStreak l; failStreak := m |} Hs').
  destruct (track_ticks _ ticks) as [l2 n2]. cbn in IH |- *. by rewrite Hn, IH, failure_notices_app.
Qed.

(** The notices about failing triggers do not depend on how the completions
    fall into ticks: over any number of ticks of a fresh loop, a notice is
    sent exactly for each third failure in a row of a trigger (the third, the
    sixth, ...), counting across ticks; a success ends the row, and other
    triggers in between do not. *)
Theorem failures_are_counted_across_ticks ticks :
  (track_ticks {| skipStreak := ∅; failStreak := ∅ |} ticks).2 = failure_notices [] (concat ticks).
Proof. by apply track_ticks_spec. Qed.

(** ** Examples *)
Definition numbered (n : nat) : string := "run-" +:+ pretty n.
Lemma numbered_inj m n : numbered m = numbered n → m = n.
Proof. unfold numbered. by intros ?%(inj (String.append "run-"))%(inj pretty). Qed.

Definition hourly : Trigger :=
  {| TgName := "hourly"; TgOn := TriggerOnSchedule; TgEvery := "1h"; TgRun := "true"; TgTimeout := "2h"; TgConnector := None |}.
Definition hourly_meta : TriggerLoop.ProjectMeta := {| SecretNamespace := "w"; Triggers := [hourly] |}.
Definition numbered_env : WorkflowEnv :=
  {| uuid := numbered; card_events := None; parse_rfc3339 := λ _, None; err_text := λ _, "error";
     tryDispatchQueuedCardRequest := λ _ s, s; TaskCreator_CreateTask := λ _, mret executing_task; others := λ _ s, s |}.
Definition numbered_service : ServiceEnv :=
  {| service_workflow := numbered_env; service_hooks := sample_runtime; TaskMeta := λ _, None;
     payload_len := λ _, 10; is_canceled := λ _, false; failure_text := λ _, "failed" |}.
Definition hourly_env : TriggerEnv :=
  {| trigger_service := numbered_service; ListWorkspaces := Some ["w"];
     GetWorkspaceMeta := λ w, if bool_decide (w = "w") then Some hourly_meta else None;
     StartExec := Some (λ _ s, (s, Some "job-1")); timeout_text := λ _ _, "timed out"; trigger_others := λ _ s, s |}.

Definition hour : Z := 60 * 60 * 10 ^ 9.
Definition loop_db (runs : gmap string TriggerRun) : LDB :=
  {| tdb := {| trigger_runs := runs; projects := {["p"]}; project_workspaces := {["p" := "w"]}; loadable := {["w"]};
               tclock := hour; tuuids := 5 |};
     wdb := sample_wdb [executing_task]; sdb := {| signals := ∅; cursors := ∅; sclock := 0 |}; byJob := ∅;
     timingOut := ∅; ending := []; pendingTimeouts := [] |}.
(** A run whose job was lost. *)
Definition lost_run : TriggerRun :=
  {| TrID := "old"; TrProjectID := ""; TrWorkspaceID := "w"; TriggerName := "hourly"; TrJobID := "gone"; StartedAt := hour;
     FinishedAt := None; TrExitCode := None |}.
Definition lost_db : LDB := loop_db {["old" := lost_run]}.

Lemma lost_keyed : keyed (trigger_runs (tdb lost_db)).
Proof. intros k r Hr. cbn in Hr. apply lookup_singleton_Some in Hr as [<- <-]. done. Qed.
Lemma lost_single_flight : single_flight (tdb lost_db).
Proof. intros i j r r' Hi Hj _ _ _. cbn in Hi, Hj. apply lookup_singleton_Some in Hi as [<- _]. by apply lookup_singleton_Some in Hj as [<- _]. Qed.
Lemma lost_fresh : fresh (H := hourly_env) (tdb lost_db).
Proof. intros n _. apply lookup_singleton_ne. done. Qed.

Lemma lost_settled :
  settle (2 * hour) (jobs (led (wdb lost_db))) <$> trigger_runs (tdb lost_db) = {["old" := set_finished lost_run (2 * hour) (-1)]}.
Proof. by vm_compute. Qed.

Lemma reconcile_settles_every_run_witness :
  ∃ inFlight completed,
    reconcileInFlight (2 * hour) lost_db = (with_runs lost_db {["old" := set_finished lost_run (2 * hour) (-1)]}, inr (inFlight, completed)) ∧
    {| CoKey := workspace_key "w" "hourly"; CoExitCode := -1 |} ∈ completed.
Proof.
  destruct (reconcile_settles_every_run (2 * hour) lost_db lost_keyed lost_single_flight) as (m & cs & Hrun & _ & Hcs & _).
  exists m, cs. rewrite lost_settled in Hrun. split; [exact Hrun|]. apply Hcs. exists "old", lost_run, (-1).
  split_and!; vm_compute; reflexivity.
Defined.

Lemma sweep_decides_each_trigger_witness :
  ∃ s' res, SweepTriggers (H := hourly_env) (2 * hour) lost_db = (s', inr res) ∧
    idle_outcome "w" hourly true {["old" := set_finished lost_run (2 * hour) (-1)]} s' res.
Proof.
  destruct (sweep_decides_each_trigger (H := hourly_env) (λ _ _, conj eq_refl eq_refl) numbered_inj (λ _, ltac:(discriminate))
    (2 * hour) lost_db ["w"] "w" hourly_meta [hourly] [] hourly lost_keyed lost_single_flight lost_fresh)
    as (every & s' & res & Hev & Hrun & _ & Hidle); [reflexivity|by apply NoDup_singleton|by left|discriminate|reflexivity|reflexivity|by left|].
  assert (every = hour) as -> by (vm_compute in Hev; by injection Hev).
  exists s', res. split; [exact Hrun|]. rewrite lost_settled in Hidle. apply Hidle. by vm_compute.
Defined.

Lemma loop_stays_consistent_witness :
  let s := loop_db ∅ in
  let s' := (run_ending (H := hourly_env) 0 (SweepTriggers (H := hourly_env) (2 * hour) s).1).1 in
  single_flight (tdb s') ∧ keyed (trigger_runs (tdb s')) ∧ one_ending s'.
Proof.
  apply (loop_stays_consistent (H := hourly_env) (loop_db ∅)); [reflexivity|discriminate|reflexivity..|].
  eapply rtc_l; [apply step_sweep|]. eapply rtc_l; [apply step_ending|]. apply rtc_refl.
Defined.

(** The hourly trigger fires, and again an hour after its job has been lost. *)
Example hourly_fires :
  (FiJobID <$> from_option Fired [] (match (SweepTriggers (H := hourly_env) (2 * hour) (loop_db ∅)).2 with inr r => Some r | inl _ => None end)) = ["job-1"].
Proof. by vm_compute. Qed.
