(* ===== verification/GitGateway.v ===== *)
(** * The git gateway

    Models internal/gitgateway: the routes a sandbox may request, the registry
    of job tokens, the credentials, the decision of the server on a request and
    the observation of pushes.

    A request is its method, its path, the value of its service parameter, its
    query and its body, as a list of bytes.  Secrets come from a resolver; TLS,
    the transport to the forge and the forge's answer are left out. *)
From S2P Require Import Prelude Json DockerPolicy.
Open Scope Z_scope.

(** ** Routes *)
Definition EndpointInfoRefs : string := "info/refs".
Definition EndpointUploadPack : string := "git-upload-pack".
Definition EndpointReceivePack : string := "git-receive-pack".
Inductive Operation : Type := OpFetch | OpPush.
#[export] Instance Operation_eq_dec : EqDecision Operation.
Proof. solve_decision. Defined.

Abbreviation RepoKey := string.
Definition NewRepoKey (host owner repo : string) : RepoKey := host +:+ "/" +:+ owner +:+ "/" +:+ TrimSuffix repo ".git".

Record route : Type := { RtToken : string; RtHost : string; RtOwner : string; RtRepo : string; RtEndpoint : string }.

(** The endpoint, of the last segments of the path. *)
Definition endpoint_of (segs : list string) : option string :=
  match segs with
  | ["info"; "refs"] => Some EndpointInfoRefs
  | ["git-upload-pack"] => Some EndpointUploadPack
  | ["git-receive-pack"] => Some EndpointReceivePack
  | _ => None
  end.
(** The shortest non-empty name with an optional .git after it. *)
Definition repo_of (seg : string) : string := let r := TrimSuffix seg ".git" in if str_empty r then seg else r.
Definition git_parsePath (path : string) : option route :=
  match split_slash path with
  | "" :: "j" :: token :: host :: owner :: seg :: rest =>
      endpoint ← endpoint_of rest;
      if str_empty token || str_empty host || str_empty owner || str_empty seg then None
      else Some {| RtToken := token; RtHost := host; RtOwner := owner; RtRepo := repo_of seg; RtEndpoint := endpoint |}
  | _ => None
  end.
Definition repoKey (r : route) : RepoKey := NewRepoKey (RtHost r) (RtOwner r) (RtRepo r).
Definition upstreamPath (r : route) : string := "/" +:+ RtOwner r +:+ "/" +:+ RtRepo r +:+ ".git/" +:+ RtEndpoint r.
Definition methodForEndpoint (endpoint : string) : string := if bool_decide (endpoint = EndpointInfoRefs) then "GET" else "POST".
Definition operationForEndpoint (endpoint service : string) : option Operation :=
  if bool_decide (endpoint = EndpointUploadPack) then Some OpFetch
  else if bool_decide (endpoint = EndpointReceivePack) then Some OpPush
  else if bool_decide (endpoint = EndpointInfoRefs) then
    if bool_decide (service = "git-upload-pack") then Some OpFetch
    else if bool_decide (service = "git-receive-pack") then Some OpPush
    else None
  else None.

(** ** The registry *)
Inductive Permission : Type := PermFetch | PermFetchPush.
Definition Permission_Allows (p : Permission) (op : Operation) : bool :=
  match op, p with OpFetch, _ => true | OpPush, PermFetchPush => true | OpPush, PermFetch => false end.
Record GitEntry : Type := { GNamespace : string; Repos : gmap RepoKey Permission; ObservesPush : bool }.
Abbreviation git_registry := (gmap string GitEntry).
Definition git_RegisterToken (token : string) (repos : gmap RepoKey Permission) (namespace : string) (r : git_registry) : git_registry :=
  <[token := {| GNamespace := namespace; Repos := repos; ObservesPush := false |}]> r.
Definition git_Unregister (token : string) (r : git_registry) : git_registry := delete token r.
Definition ObservePush (token : string) (r : git_registry) : git_registry :=
  alter (λ e, {| GNamespace := GNamespace e; Repos := Repos e; ObservesPush := true |}) token r.
(** Whether the operation is allowed and whether the token is known. *)
Definition git_Authorize (r : git_registry) (token : string) (repo : RepoKey) (op : Operation) : bool * bool :=
  match r !! token with
  | None => (false, false)
  | Some e => match Repos e !! repo with None => (false, true) | Some p => (Permission_Allows p op, true) end
  end.

(** ** Credentials *)
Inductive Forge : Type := ForgeGitHub | ForgeBitbucket | ForgeOther (name : string).
Definition usernameForForge (f : Forge) : option string :=
  match f with
  | ForgeGitHub => Some "x-access-token"
  | ForgeBitbucket => Some "x-bitbucket-api-token-auth"
  | ForgeOther _ => None
  end.
Record HostForgeConfig : Type := { HcHost : string; HcForge : Forge; HcSecretKey : string; HcScheme : string }.
Record GitCredentials : Type := { GcHosts : gmap string HostForgeConfig; GcResolver : option (string → string → option string) }.
Definition git_NewCredentialProvider (hosts : list HostForgeConfig) (resolver : option (string → string → option string)) : GitCredentials :=
  {| GcHosts := foldl (λ m h, <[HcHost h := h]> m) ∅ hosts; GcResolver := resolver |}.
Definition git_Configured (c : option GitCredentials) : bool :=
  match c with Some c => bool_decide (is_Some (GcResolver c)) | None => false end.
Definition KnowsHost (c : option GitCredentials) (host : string) : bool :=
  match c with Some c => bool_decide (is_Some (GcHosts c !! host)) | None => false end.
Definition SchemeFor (c : option GitCredentials) (host : string) : string :=
  match c ≫= λ c, GcHosts c !! host with
  | Some cfg => if str_empty (HcScheme cfg) then "https" else HcScheme cfg
  | None => "https"
  end.
Definition git_Resolve (c : option GitCredentials) (host namespace : string) : option (string * string) :=
  c ← c;
  cfg ← GcHosts c !! host;
  resolver ← GcResolver c;
  token ← resolver namespace (HcSecretKey cfg);
  user ← usernameForForge (HcForge cfg);
  Some (user, token).

(** ** Observing a push *)
Abbreviation bytes := (list ascii).

(** The white space of strings.Fields at the start of the text: how many bytes
    it takes, beyond ASCII in UTF-8. *)
Definition space_len (s : bytes) : nat :=
  match N_of_ascii <$> take 3 s with
  | n :: rest =>
      if ((9 <=? n) && (n <=? 13) || (n =? 32))%N then 1
      else match n, rest with
           | 194%N, (133%N | 160%N) :: _ => 2
           | 225%N, [154%N; 128%N] => 3
           | 226%N, [128%N; m] => if ((128 <=? m) && (m <=? 138) || (m =? 168) || (m =? 169) || (m =? 175))%N then 3 else 0
           | 226%N, [129%N; 159%N] => 3
           | 227%N, [128%N; 128%N] => 3
           | _, _ => 0
           end
  | [] => 0
  end.
(** [skip] bytes of a space are still to be passed; [word] is the field so far,
    last byte first. *)
Fixpoint fields_from (skip : nat) (word : bytes) (s : bytes) : list bytes :=
  let done := if bool_decide (word = []) then [] else [reverse word] in
  match s with
  | [] => done
  | c :: s' =>
      match skip with
      | S skip => fields_from skip [] s'
      | O => match space_len s with
             | O => fields_from 0 (c :: word) s'
             | S n => done ++ fields_from n [] s'
             end
      end
  end.
Definition Fields (s : bytes) : list bytes := fields_from 0 [] s.

Definition hex_value (c : ascii) : option Z :=
  let n := Z.of_N (N_of_ascii c) in
  if (48 <=? n) && (n <=? 57) then Some (n - 48)
  else if (97 <=? n) && (n <=? 102) then Some (n - 87)
  else if (65 <=? n) && (n <=? 70) then Some (n - 55)
  else None.
(** [strconv.ParseUint] of four bytes in base 16. *)
Definition parse_hex (s : bytes) : option Z :=
  foldl (λ acc c, a ← acc; d ← hex_value c; Some (16 * a + d)) (Some 0) s.

(** [strings.Cut] at the first NUL: the part before it. *)
Fixpoint before_nul (s : bytes) : bytes :=
  match s with [] => [] | c :: s => if bool_decide (c = Ascii.zero) then [] else c :: before_nul s end.
Definition refs_prefix : bytes := String.list_ascii_of_string "refs/".
(** The reference a command line names. *)
Definition command_ref (packet : bytes) : option bytes :=
  match Fields (before_nul packet) with
  | [_; _; ref] => if bool_decide (take 5 ref = refs_prefix) then Some ref else None
  | _ => None
  end.

Definition command_list_max : Z := 1024 * 1024.
Definition bad_length : string := "invalid receive-pack packet length".
(** [prefix] has been read; the answer has the references and the body that is
    replayed.  Each round reads at least the four bytes of a header. *)
Fixpoint receive_from (fuel : nat) (prefix body : bytes) (refs : list bytes) : outcome string (list bytes * bytes) :=
  match fuel with
  | O => Err "EOF"
  | S fuel =>
      if negb (Z.of_nat (length prefix) <? command_list_max) then Err "receive-pack command list exceeds 1 MiB"
      else if bool_decide (length body < 4)%nat then Err "EOF"
      else
        let header := take 4 body in let body := drop 4 body in let prefix := prefix ++ header in
        match parse_hex header with
        | None => Err bad_length
        | Some n =>
            if n =? 0 then Ok (refs, prefix ++ body)
            else if n <? 4 then Err bad_length
            else
              let k := Z.to_nat (n - 4) in
              if bool_decide (length body < k)%nat then Err "unexpected EOF"
              else receive_from fuel (prefix ++ take k body) (drop k body)
                     (refs ++ match command_ref (take k body) with Some ref => [ref] | None => [] end)
        end
  end.
Definition observeReceivePack (body : bytes) : outcome string (list bytes * bytes) := receive_from (S (length body)) [] body [].

(** ** The server *)
Record GitRequest : Type := { GMethod : string; GPath : string; GService : string; GRawQuery : string; GBody : bytes }.
Record git_forward : Type := {
  FwScheme : string;
  FwHost : string;
  FwPath : string;
  FwQuery : string;
  (** user and password, or nothing for a host no forge is configured for *)
  FwAuth : option (string * string);
  FwBody : bytes;
  FwObserved : list bytes;
  FwNotified : bool;
}.
Inductive git_answer : Type := GRefuse (status : Z) | GForward (f : git_forward).

Definition git_proxy (c : option GitCredentials) (req : GitRequest) (r : route) (namespace : string) (body : bytes) (observed : list bytes) : git_answer :=
  let auth := git_Resolve c (RtHost r) namespace in
  GForward {| FwScheme := SchemeFor c (RtHost r); FwHost := RtHost r; FwPath := upstreamPath r; FwQuery := GRawQuery req; FwAuth := auth;
              FwBody := body; FwObserved := observed; FwNotified := bool_decide (is_Some c) && bool_decide (auth = None) |}.
Definition git_ServeHTTP (registry : git_registry) (c : option GitCredentials) (req : GitRequest) : git_answer :=
  match git_parsePath (GPath req) with
  | None => GRefuse 404
  | Some r =>
      if negb (bool_decide (ToUpper (GMethod req) = methodForEndpoint (RtEndpoint r))) then GRefuse 405
      else match operationForEndpoint (RtEndpoint r) (GService req) with
           | None => GRefuse 400
           | Some op =>
               let '(allowed, tokenValid) := git_Authorize registry (RtToken r) (repoKey r) op in
               if negb tokenValid then GRefuse 401
               else if negb allowed then GRefuse 403
               else
                 let namespace := match registry !! RtToken r with Some e => GNamespace e | None => "" end in
                 let observes := match registry !! RtToken r with Some e => ObservesPush e | None => false end in
                 if bool_decide (is_Some c) && negb (git_Configured c) then GRefuse 503
                 else if KnowsHost c (RtHost r) && bool_decide (git_Resolve c (RtHost r) namespace = None) then GRefuse 502
                 else if bool_decide (op = OpPush) && bool_decide (GMethod req = "POST") && observes then
                   match observeReceivePack (GBody req) with
                   | Ok (refs, body) => git_proxy c req r namespace body refs
                   | _ => GRefuse 400
                   end
                 else git_proxy c req r namespace (GBody req) []
           end
  end.

(** ** The body is replayed as it was *)
Lemma receive_replays fuel prefix body refs refs' body' :
  receive_from fuel prefix body refs = Ok (refs', body') → body' = prefix ++ body.
Proof.
  revert prefix body refs. induction fuel as [|fuel IH]; intros prefix body refs; cbn [receive_from]; [done|].
  destruct (negb _); [done|]. case_bool_decide; [done|]. destruct (parse_hex (take 4 body)) as [n|]; [|done].
  assert (prefix ++ body = (prefix ++ take 4 body) ++ drop 4 body) as Hb by by rewrite <- app_assoc, take_drop.
  destruct (n =? 0); [by intros [= _ <-]|]. destruct (n <? 4); [done|]. case_bool_decide; [done|].
  intros ->%IH. by rewrite Hb, <- (app_assoc _ (take _ _)), take_drop.
Qed.
Lemma observe_replays body refs body' : observeReceivePack body = Ok (refs, body') → body' = body.
Proof. apply receive_replays. Qed.

(** ** What is forwarded *)

(** The path of a route; the name of the repository may have .git after it. *)
Definition path_segment (s : string) : Prop := s ≠ "" ∧ no_slash s.
Definition repo_segment (seg repo : string) : Prop :=
  seg = repo +:+ ".git" ∧ repo ≠ "" ∨ seg = repo ∧ ∀ x, x ≠ "" → seg ≠ x +:+ ".git".
Definition git_path (path : string) (r : route) : Prop :=
  ∃ seg, path = "/j/" +:+ RtToken r +:+ "/" +:+ RtHost r +:+ "/" +:+ RtOwner r +:+ "/" +:+ seg +:+ "/" +:+ RtEndpoint r ∧
    Forall path_segment [RtToken r; RtHost r; RtOwner r; seg] ∧ repo_segment seg (RtRepo r) ∧
    RtEndpoint r ∈ ["info/refs"; "git-upload-pack"; "git-receive-pack"].
(** What the endpoint is for, and how it is asked. *)
Definition git_service (op : Operation) : string := match op with OpFetch => "git-upload-pack" | OpPush => "git-receive-pack" end.
Definition git_asks (req : GitRequest) (endpoint : string) (op : Operation) : Prop :=
  endpoint = git_service op ∧ ToUpper (GMethod req) = "POST" ∨
  endpoint = "info/refs" ∧ ToUpper (GMethod req) = "GET" ∧ GService req = git_service op.
(** The key a repository is registered under has no .git at its end: the route
    has lost one already, the key loses one more if there is one. *)
Definition key_name (repo name : string) : Prop := repo = name +:+ ".git" ∨ repo = name ∧ ∀ x, repo ≠ x +:+ ".git".
(** The registry grants the request. *)
Definition git_granted (registry : git_registry) (req : GitRequest) (r : route) (op : Operation) (e : GitEntry) : Prop :=
  git_path (GPath req) r ∧ git_asks req (RtEndpoint r) op ∧ registry !! RtToken r = Some e ∧
  ∃ name p, key_name (RtRepo r) name ∧ Repos e !! (RtHost r +:+ "/" +:+ RtOwner r +:+ "/" +:+ name) = Some p ∧ (op = OpPush → p = PermFetchPush).
(** The credentials sent: none without a provider; a provider has a resolver, and
    sends none to a host without a forge and otherwise the secret the resolver
    has for the namespace under the key of the host, with the user of the forge. *)
Definition git_auth (c : option GitCredentials) (host namespace : string) (auth : option (string * string)) : Prop :=
  match c with
  | None => auth = None
  | Some c =>
      ∃ resolver, GcResolver c = Some resolver ∧
      match GcHosts c !! host with
      | None => auth = None
      | Some cfg =>
          ∃ user secret, auth = Some (user, secret) ∧ resolver namespace (HcSecretKey cfg) = Some secret ∧
            (HcForge cfg, user) ∈ [(ForgeGitHub, "x-access-token"); (ForgeBitbucket, "x-bitbucket-api-token-auth")]
      end
  end.
Definition forge_host (c : option GitCredentials) (host : string) (cfg : HostForgeConfig) : Prop :=
  ∃ c', c = Some c' ∧ GcHosts c' !! host = Some cfg.
Definition git_scheme (c : option GitCredentials) (host scheme : string) : Prop :=
  (∃ cfg, forge_host c host cfg ∧ HcScheme cfg ≠ "" ∧ scheme = HcScheme cfg) ∨
  scheme = "https" ∧ ∀ cfg, forge_host c host cfg → HcScheme cfg = "".
(** A push whose references are wanted has a list of commands that can be read. *)
Definition git_observed (req : GitRequest) (op : Operation) (e : GitEntry) (refs : list bytes) : Prop :=
  if bool_decide (op = OpPush) && bool_decide (GMethod req = "POST") && ObservesPush e
  then observeReceivePack (GBody req) = Ok (refs, GBody req) else refs = [].

Lemma repo_of_spec seg repo : seg ≠ "" → repo_of seg = repo ↔ repo_segment seg repo.
Proof.
  intros Hs. unfold repo_of, repo_segment, TrimSuffix. destruct (cut_suffix ".git" seg) as [x|] eqn:Hx; cbn.
  - apply cut_suffix_spec in Hx as ->. destruct x as [|c x]; cbn [str_empty].
    + split; [intros <-; right; split; [done|]; intros x Hx Heq; by apply (string_app_inj ".git" "" x) in Heq; subst|].
      intros [[H Hr]|[<- _]]; [by apply (string_app_inj ".git" "" repo) in H; subst|done].
    + split; [intros <-; by left|]. intros [[H%string_app_inj _]|[_ H]]; [done|]. by destruct (H (String c x)).
  - assert (∀ x, seg ≠ x +:+ ".git") as Hn by (intros x H%cut_suffix_spec; congruence). destruct (str_empty seg); split; naive_solver.
Qed.
Lemma endpoint_of_spec segs endpoint :
  endpoint_of segs = Some endpoint ↔ endpoint ∈ ["info/refs"; "git-upload-pack"; "git-receive-pack"] ∧ segs = split_slash endpoint.
Proof.
  split.
  - unfold endpoint_of. intros H. repeat case_match; try done; injection H as <-; (split; [set_solver|done]).
  - intros [H ->]. by repeat (apply elem_of_cons in H as [->|H]; [done|]); apply not_elem_of_nil in H.
Qed.
Lemma git_parsePath_segments path r :
  git_parsePath path = Some r ↔
  ∃ seg rest, split_slash path = "" :: "j" :: RtToken r :: RtHost r :: RtOwner r :: seg :: rest ∧ endpoint_of rest = Some (RtEndpoint r) ∧
    Forall (λ s, s ≠ "") [RtToken r; RtHost r; RtOwner r; seg] ∧ repo_of seg = RtRepo r.
Proof.
  unfold git_parsePath. split.
  - destruct (split_slash path) as [|[] [|j [|token [|host [|owner [|seg rest]]]]]]; try done; [repeat case_match; done..|].
    destruct (decide (j = "j")) as [->|Hj]; [|repeat case_match; done]. intros (endpoint & He & H)%bind_Some.
    destruct (str_empty token || str_empty host || str_empty owner || str_empty seg) eqn:Hn; [done|]. injection H as <-.
    exists seg, rest. apply orb_false_iff in Hn as [[[? ?]%orb_false_iff ?]%orb_false_iff ?].
    split_and!; try done. rewrite !Forall_cons. cbn. split_and!; try done; intros Heq; by rewrite Heq in *.
  - intros (seg & rest & -> & He & Hne & Hr). rewrite He. cbn.
    assert (∀ s, s ≠ "" → str_empty s = false) as Hemp by by intros [].
    rewrite !Forall_cons in Hne. rewrite !Hemp by tauto. cbn. rewrite Hr. by destruct r.
Qed.
Lemma git_parsePath_spec path r : git_parsePath path = Some r ↔ git_path path r.
Proof.
  rewrite git_parsePath_segments. unfold git_path, path_segment. setoid_rewrite endpoint_of_spec. split.
  - intros (seg & rest & Hs & [He ->] & Hne & Hr). apply split_slash_cons_iff in Hs as (_ & p1 & -> & Hs).
    apply split_slash_cons_iff in Hs as (_ & p2 & -> & Hs). apply split_slash_cons_iff in Hs as (? & p3 & -> & Hs).
    apply split_slash_cons_iff in Hs as (? & p4 & -> & Hs). apply split_slash_cons_iff in Hs as (? & p5 & -> & Hs).
    destruct (split_slash_inv _ _ _ Hs) as [? [[Hnil _]|(p6 & -> & Hp)]].
    + exfalso. by repeat (apply elem_of_cons in He as [He|He]; [by rewrite He in Hnil|]); apply not_elem_of_nil in He.
    + exists seg. apply split_slash_inj in Hp as ->. rewrite !Forall_cons in Hne. rewrite <- repo_of_spec by tauto. split_and!; [done| |done|done].
      rewrite !Forall_cons, Forall_nil. tauto.
  - intros (seg & -> & Hf & Hr & He). rewrite !Forall_cons in Hf. exists seg, (split_slash (RtEndpoint r)).
    split_and!; [|done|done|rewrite !Forall_cons, Forall_nil; tauto|by apply repo_of_spec; [tauto|]].
    change ("/j/" +:+ ?x) with ("" +:+ "/" +:+ "j" +:+ "/" +:+ x). rewrite !split_slash_app by (try done; tauto). done.
Qed.
Lemma NewRepoKey_spec host owner repo name : key_name repo name → NewRepoKey host owner repo = host +:+ "/" +:+ owner +:+ "/" +:+ name.
Proof.
  unfold NewRepoKey, TrimSuffix. intros [->|[-> Hn]].
  - by rewrite (proj2 (cut_suffix_spec _ _ _) eq_refl).
  - destruct (cut_suffix ".git" name) as [x|] eqn:Hx; [|done]. apply cut_suffix_spec in Hx. by destruct (Hn x).
Qed.
Lemma key_name_total repo : ∃ name, key_name repo name.
Proof.
  destruct (cut_suffix ".git" repo) as [x|] eqn:Hx; [apply cut_suffix_spec in Hx; exists x; by left|].
  exists repo. right. split; [done|]. intros x H%cut_suffix_spec. congruence.
Qed.
(** The checks on the credentials and what is then sent. *)
Lemma git_auth_spec c host namespace auth :
  bool_decide (is_Some c) && negb (git_Configured c) = false ∧
  KnowsHost c host && bool_decide (git_Resolve c host namespace = None) = false ∧ git_Resolve c host namespace = auth
  ↔ git_auth c host namespace auth.
Proof.
  destruct c as [[hosts [resolver|]]|]; cbn; [| |naive_solver].
  2: { split; [by intros [? _]|]. by intros (? & ? & _). }
  destruct (hosts !! host) as [[h f k sch]|] eqn:Hh; cbn.
  2: { split; [|naive_solver]. intros (_ & _ & <-). by exists resolver. }
  destruct (resolver namespace k) as [secret|] eqn:Hs; cbn.
  2: { split; [by intros (_ & ? & _)|]. intros (? & [= <-] & ? & ? & _ & ? & _). congruence. }
  destruct f; cbn; split.
  all: try (intros (_ & _ & <-); exists resolver; split; [done|]; eexists _, _; split_and!; [done..|set_solver]).
  all: try (by intros (_ & ? & _)).
  all: intros (? & [= <-] & user & secret' & -> & Hs' & Hu); rewrite Hs in Hs'; injection Hs' as <-; set_solver.
Qed.
Lemma SchemeFor_spec c host scheme : SchemeFor c host = scheme ↔ git_scheme c host scheme.
Proof.
  unfold SchemeFor, git_scheme, forge_host. destruct (c ≫= λ c, GcHosts c !! host) as [cfg|] eqn:Hc.
  - apply bind_Some in Hc as (c' & -> & Hc). destruct (str_empty (HcScheme cfg)) eqn:He; [apply bool_decide_eq_true in He|apply bool_decide_eq_false in He];
      naive_solver.
  - split; [intros <-; right; split; [done|]; intros cfg (c' & -> & H); cbn in Hc; congruence|].
    intros [(cfg & (c' & -> & H) & _)|[-> _]]; [cbn in Hc; congruence|done].
Qed.
Lemma git_authorize_ok registry token repo op :
  git_Authorize registry token repo op = (true, true) ↔
  ∃ e, registry !! token = Some e ∧ ∃ p, Repos e !! repo = Some p ∧ (op = OpPush → p = PermFetchPush).
Proof.
  unfold git_Authorize. destruct (registry !! token) as [e|]; [|naive_solver]. destruct (Repos e !! repo) as [p|] eqn:Hp; [|naive_solver].
  split; [intros [= H]; exists e; split; [done|]; exists p; by destruct op, p|].
  intros (? & [= <-] & p' & Hp' & Ha). rewrite Hp in Hp'. injection Hp' as <-. destruct op, p; try done. by discriminate Ha.
Qed.
Lemma git_asks_spec req endpoint op : endpoint ∈ ["info/refs"; "git-upload-pack"; "git-receive-pack"] →
  ToUpper (GMethod req) = methodForEndpoint endpoint ∧ operationForEndpoint endpoint (GService req) = Some op ↔ git_asks req endpoint op.
Proof.
  intros H. unfold git_asks.
  assert (∀ o, operationForEndpoint "git-upload-pack" o = Some OpFetch ∧ operationForEndpoint "git-receive-pack" o = Some OpPush) as Hop by done.
  assert (operationForEndpoint "info/refs" (GService req) = Some op ↔ GService req = git_service op) as Hi.
  { unfold operationForEndpoint, git_service. rewrite (bool_decide_false ("info/refs" = EndpointUploadPack)), (bool_decide_false ("info/refs" = EndpointReceivePack)),
      (bool_decide_true ("info/refs" = EndpointInfoRefs)) by done. repeat case_bool_decide; destruct op; split; congruence. }
  apply elem_of_cons in H as [->|H]; [|apply elem_of_cons in H as [->|H]; [|apply list_elem_of_singleton in H as ->]].
  - rewrite Hi. change (methodForEndpoint "info/refs") with "GET". destruct op; naive_solver.
  - rewrite (proj1 (Hop _)). destruct op; naive_solver.
  - rewrite (proj2 (Hop _)). destruct op; naive_solver.
Qed.

(** C7.  The git gateway forwards a request exactly when its path is a route
    /j/token/host/owner/repo[.git]/endpoint, its method (compared without case)
    and its service parameter fit the endpoint, the token is registered and grants
    the operation on the key host/owner/name of the route (a push needs the
    permission to push), a provider of credentials has a resolver and, for a host
    with a forge, a secret, and, for a push in capitals that is observed, the list
    of commands can be read.  [name] is the repository of the route with one more
    .git taken off if it ends in one: app.git.git is granted as app and forwarded
    as app.git.  What is forwarded goes to the host and the path of the route,
    with the body unchanged and the secret of the token's own namespace; a push is
    observed with the references of its commands. *)
Theorem git_forwards_what_is_granted registry c req f :
  git_ServeHTTP registry c req = GForward f ↔
  ∃ r op e refs scheme auth, git_granted registry req r op e ∧ git_auth c (RtHost r) (GNamespace e) auth ∧ git_scheme c (RtHost r) scheme ∧
    git_observed req op e refs ∧
    f = {| FwScheme := scheme; FwHost := RtHost r; FwPath := "/" +:+ RtOwner r +:+ "/" +:+ RtRepo r +:+ ".git/" +:+ RtEndpoint r;
           FwQuery := GRawQuery req; FwAuth := auth; FwBody := GBody req; FwObserved := refs;
           FwNotified := bool_decide (is_Some c) && bool_decide (auth = None) |}.
Proof.
  unfold git_ServeHTTP, git_granted, git_observed. split.
  - destruct (git_parsePath (GPath req)) as [r|] eqn:Hr; [|done]. apply git_parsePath_spec in Hr. case_bool_decide as Hm; cbn [negb]; [|done].
    destruct (operationForEndpoint _ _) as [op|] eqn:Hop; [|done]. destruct (git_Authorize _ _ _ _) as [allowed valid] eqn:Ha.
    destruct valid; [|done]. destruct allowed; cbn [negb]; [|done]. apply git_authorize_ok in Ha as (e & He & p & Hp & Hpush). rewrite He.
    destruct (key_name_total (RtRepo r)) as [name Hname]. unfold repoKey in Hp. rewrite (NewRepoKey_spec _ _ _ _ Hname) in Hp.
    assert (git_asks req (RtEndpoint r) op) as Hasks by (apply git_asks_spec; [by destruct Hr as (? & _ & _ & _ & ?)|done]).
    destruct (bool_decide (is_Some c) && negb (git_Configured c)) eqn:Hcfg; [done|].
    destruct (KnowsHost c (RtHost r) && bool_decide (git_Resolve c (RtHost r) (GNamespace e) = None)) eqn:Hkn; [done|].
    pose proof (proj1 (git_auth_spec c (RtHost r) (GNamespace e) _) (conj Hcfg (conj Hkn eq_refl))) as Hauth.
    pose proof (proj1 (SchemeFor_spec c (RtHost r) _) eq_refl) as Hsch.
    destruct (bool_decide (op = OpPush) && bool_decide (GMethod req = "POST") && ObservesPush e) eqn:Ho.
    + destruct (observeReceivePack (GBody req)) as [[refs body]| |] eqn:Hob; [|done|done]. pose proof (observe_replays _ _ _ Hob) as ->.
      intros [= <-]. exists r, op, e, refs. rewrite Ho. eexists _, _. split_and!; eauto 10.
    + intros [= <-]. exists r, op, e, []. rewrite Ho. eexists _, _. split_and!; eauto 10.
  - intros (r & op & e & refs & scheme & auth & (Hr & Hm & He & name & p & Hname & Hp & Hpush) & Hauth & <-%SchemeFor_spec & Hob & ->).
    rewrite (proj2 (git_parsePath_spec _ _) Hr).
    apply git_asks_spec in Hm as [Hm Hop]; [|by destruct Hr as (? & _ & _ & _ & ?)]. rewrite bool_decide_true by done. cbn [negb]. rewrite Hop.
    rewrite (proj2 (git_authorize_ok registry (RtToken r) (repoKey r) op))
      by (exists e; split; [done|]; exists p; split; [unfold repoKey; by rewrite (NewRepoKey_spec _ _ _ _ Hname)|done]).
    cbn [negb]. rewrite He. apply git_auth_spec in Hauth as (-> & -> & <-).
    by destruct (bool_decide (op = OpPush) && _ && _); rewrite Hob.
Qed.

(** ** What a git client sends *)
Definition hex_digit (k : Z) : ascii := ascii_of_N (Z.to_N (if k <? 10 then 48 + k else 87 + k)).
Definition pkt_line (p : bytes) : bytes :=
  let n := Z.of_nat (length p) + 4 in
  [hex_digit (n / 4096); hex_digit (n / 256 mod 16); hex_digit (n / 16 mod 16); hex_digit (n mod 16)] ++ p.
Definition flush_pkt : bytes := String.list_ascii_of_string "0000".
(** The white space of Unicode, in UTF-8: U+0009 to U+000D, U+0020, U+0085,
    U+00A0, U+1680, U+2000 to U+200A, U+2028, U+2029, U+202F, U+205F, U+3000. *)
Definition white_space (sp : list N) : Prop :=
  (∃ n, sp = [n] ∧ ((9 ≤ n ≤ 13)%N ∨ n = 32%N)) ∨ sp = [194; 133]%N ∨ sp = [194; 160]%N ∨ sp = [225; 154; 128]%N ∨
  (∃ m, sp = [226; 128; m]%N ∧ ((128 ≤ m ≤ 138)%N ∨ m ∈ [168; 169; 175]%N)) ∨ sp = [226; 129; 159]%N ∨ sp = [227; 128; 128]%N.
Definition space_free (w : bytes) : Prop := ∀ a sp b, (N_of_ascii <$> w) = a ++ sp ++ b → ¬ white_space sp.
(** A command of a push; capabilities follow a NUL. *)
Record push_command : Type := { CmdOld : bytes; CmdNew : bytes; CmdRef : bytes; CmdCaps : option bytes }.
Definition word (w : bytes) : Prop := w ≠ [] ∧ (Ascii.zero ∉ w) ∧ space_free w.
Definition valid_push (c : push_command) : Prop :=
  word (CmdOld c) ∧ word (CmdNew c) ∧ word (CmdRef c) ∧ take 5 (CmdRef c) = refs_prefix.
Definition command_line (c : push_command) : bytes :=
  CmdOld c ++ " "%char :: CmdNew c ++ " "%char :: CmdRef c ++ match CmdCaps c with Some caps => Ascii.zero :: caps | None => [] end.
Definition push_body (cs : list push_command) (pack : bytes) : bytes :=
  concat (pkt_line ∘ command_line <$> cs) ++ flush_pkt ++ pack.

Lemma hex_value_digit k : 0 ≤ k < 16 → hex_value (hex_digit k) = Some k.
Proof.
  intros Hk. unfold hex_value, hex_digit. rewrite N_ascii_embedding by (case_match; lia). rewrite Z2N.id by (case_match; lia).
  destruct (Z.ltb_spec k 10).
  - replace (_ && _) with true by (symmetry; apply andb_true_iff; split; lia). f_equal. lia.
  - replace ((48 <=? 87 + k) && (87 + k <=? 57)) with false by (symmetry; apply andb_false_iff; right; lia).
    replace ((97 <=? 87 + k) && (87 + k <=? 102)) with true by (symmetry; apply andb_true_iff; split; lia). f_equal. lia.
Qed.
Lemma parse_pkt_header p rest :
  (Z.of_nat (length p) ≤ 65531) → parse_hex (take 4 (pkt_line p ++ rest)) = Some (Z.of_nat (length p) + 4).
Proof.
  intros Hp. unfold pkt_line, parse_hex. set (n := Z.of_nat (length p) + 4). assert (0 ≤ n < 65536) as Hn by lia. clearbody n.
  cbn [app take foldl mbind option_bind]. rewrite !hex_value_digit by (split; [apply Z.mod_pos_bound || apply Z.div_pos; lia|];
    first [apply Z.mod_pos_bound; lia | apply Z.div_lt_upper_bound; lia]). cbn [mbind option_bind].
  rewrite ?take_0. cbn [foldl]. f_equal.
  replace (n / 256) with (n / 16 / 16) by by rewrite Z.div_div by lia. replace (n / 4096) with (n / 16 / 16 / 16) by by rewrite !Z.div_div by lia.
  pose proof (Z.div_mod n 16 ltac:(lia)). pose proof (Z.div_mod (n / 16) 16 ltac:(lia)). pose proof (Z.div_mod (n / 16 / 16) 16 ltac:(lia)). lia.
Qed.

Lemma space_len_white s : space_len s ≠ 0%nat → ∃ sp b, (N_of_ascii <$> s) = sp ++ b ∧ white_space sp.
Proof.
  unfold space_len, white_space. intros H.
  assert (∃ l, (N_of_ascii <$> s) = (N_of_ascii <$> take 3 s) ++ l) as [l ->]
    by (exists (N_of_ascii <$> drop 3 s); by rewrite <- fmap_app, take_drop).
  destruct (N_of_ascii <$> take 3 s) as [|n rest]; [done|].
  destruct ((9 <=? n) && (n <=? 13) || (n =? 32))%N eqn:Hn.
  { apply orb_true_iff in Hn as [[H1%N.leb_le H2%N.leb_le]%andb_true_iff|H1%N.eqb_eq]; exists [n], (rest ++ l); (split; [done|left; exists n; auto]). }
  revert H. repeat case_match; try done; intros _; subst;
    try (eexists [194; _]%N, _; split; [done|tauto]); try (eexists [_; _; _]%N, _; split; [reflexivity|]; tauto).
  eexists [226; 128; _]%N, _. split; [reflexivity|]. right; right; right; right; left. eexists. split; [done|].
  match goal with H : (_ || (_ =? 168) || _ || _)%N = true |- _ => rewrite !orb_true_iff, andb_true_iff, !N.leb_le, !N.eqb_eq in H; revert H end.
  intros [[[?|?]|?]|?]; [by left|right; set_solver..].
Qed.
(** What may follow a word: nothing, or a space. *)
Definition word_ends (s : bytes) : Prop := s = [] ∨ ∃ s', s = " "%char :: s'.
Lemma white_space_tail n sp : white_space (n :: sp) → 32%N ∉ sp.
Proof. unfold white_space. rewrite list_elem_of_In. intros H Hin. destruct_or?; destruct_and?; naive_solver (set_solver by lia). Qed.
Lemma space_free_len c w s : space_free (c :: w) → word_ends s → space_len (c :: w ++ s) = 0%nat.
Proof.
  intros Hf Hs. destruct (decide (space_len (c :: w ++ s) = 0%nat)) as [|(sp & b & Heq & Hw)%space_len_white]; [done|exfalso].
  change (c :: w ++ s) with ((c :: w) ++ s) in Heq. rewrite fmap_app in Heq. apply app_eq_app in Heq as (k & [[H1 H2]|[H1 H2]]).
  - exact (Hf [] sp k H1 Hw).
  - destruct k as [|x k]; [apply (Hf [] sp [] ); [by rewrite H1, !app_nil_r|done]|].
    destruct Hs as [->|[s' ->]]; [done|]. injection H2 as <- _. subst sp. apply white_space_tail in Hw. set_solver.
Qed.
Lemma space_free_tail c w : space_free (c :: w) → space_free w.
Proof. intros H a sp b Heq. apply (H (N_of_ascii c :: a) sp b). cbn. by rewrite Heq. Qed.
Lemma fields_word w acc s : space_free w → word_ends s → fields_from 0 acc (w ++ s) = fields_from 0 (reverse w ++ acc) s.
Proof.
  intros Hw Hs. revert acc. induction w as [|c w IH]; intros acc; [done|]. cbn [app fields_from]. rewrite space_free_len by done.
  rewrite IH by by eapply space_free_tail. by rewrite reverse_cons, <- app_assoc.
Qed.
(** Words without ASCII white space and without the first bytes of the others. *)
Definition plain_byte (c : ascii) : bool :=
  let n := N_of_ascii c in
  negb (((n <=? 32) || (n =? 194) || (n =? 225) || (n =? 226) || (n =? 227)))%N.
Lemma plain_word w : w ≠ [] → forallb plain_byte w = true → word w.
Proof.
  intros Hne Hw. assert (∀ c, c ∈ w → plain_byte c = true) as Hp by (intros c Hc; by eapply forallb_forall in Hw; [|apply list_elem_of_In]).
  split; [done|]. split; [by intros Hc%Hp|]. intros a sp b Heq Hsp.
  assert (∀ n, n ∈ sp → ∃ c, n = N_of_ascii c ∧ c ∈ w) as Hin.
  { intros n Hn. assert (n ∈ N_of_ascii <$> w) as (c & -> & Hc)%list_elem_of_fmap by (rewrite Heq; set_solver). eauto. }
  assert (∃ n, n ∈ sp ∧ (n ≤ 32 ∨ n ∈ [194; 225; 226; 227])%N) as (n & Hn & Hbad).
  { unfold white_space in Hsp. destruct_or!; try destruct Hsp as (? & -> & Hsp); subst; eexists; (split; [apply list_elem_of_here|]);
      first [left; lia | right; set_solver]. }
  apply Hin in Hn as (c & -> & Hc%Hp). unfold plain_byte in Hc. apply negb_true_iff in Hc. rewrite !orb_false_iff, N.leb_gt, !N.eqb_neq in Hc.
  destruct Hbad as [?|Hbad]; [lia|]. set_solver.
Qed.
Lemma fields_space acc s : acc ≠ [] → fields_from 0 acc (" "%char :: s) = reverse acc :: fields_from 0 [] s.
Proof. intros Ha. unfold fields_from at 1; fold fields_from. cbn [space_len]. rewrite bool_decide_false by done. done. Qed.
Lemma fields_end acc : acc ≠ [] → fields_from 0 acc [] = [reverse acc].
Proof. intros Ha. cbn. by rewrite bool_decide_false. Qed.

Lemma before_nul_app w s : Ascii.zero ∉ w → before_nul (w ++ s) = w ++ before_nul s.
Proof. induction w as [|c w IH]; intros Hw; [done|]. apply not_elem_of_cons in Hw as [? ?]. cbn. rewrite bool_decide_false by done. by rewrite IH. Qed.

Lemma command_line_ref c : valid_push c → command_ref (command_line c) = Some (CmdRef c).
Proof.
  intros ((Ho & Hoz & Hos) & (Hn & Hnz & Hns) & (Hr & Hrz & Hrs) & Hp). unfold command_ref, command_line.
  assert (before_nul (CmdOld c ++ " "%char :: CmdNew c ++ " "%char :: CmdRef c ++ match CmdCaps c with Some caps => Ascii.zero :: caps | None => [] end)
    = CmdOld c ++ " "%char :: CmdNew c ++ " "%char :: CmdRef c) as ->.
  { rewrite before_nul_app by done. f_equal. cbn. f_equal. rewrite before_nul_app by done. f_equal.
    cbn. f_equal. rewrite before_nul_app by done. destruct (CmdCaps c); cbn; by rewrite app_nil_r. }
  assert (∀ w : bytes, w ≠ [] → reverse w ++ [] ≠ []) as Hne.
  { intros w Hw Hc. rewrite app_nil_r in Hc. apply (f_equal reverse) in Hc. by rewrite reverse_involutive in Hc. }
  assert (∀ s, word_ends (" "%char :: s)) as Hsp by (right; eauto).
  unfold Fields. rewrite fields_word, fields_space, fields_word, fields_space by auto.
  rewrite <- (app_nil_r (CmdRef c)) at 1. rewrite fields_word, fields_end by (auto || by left). rewrite !app_nil_r, !reverse_involutive.
  by rewrite bool_decide_true.
Qed.

Lemma receive_commands cs pack : ∀ fuel prefix refs,
  Forall valid_push cs → Forall (λ c, Z.of_nat (length (command_line c)) ≤ 65531) cs →
  Z.of_nat (length prefix + length (concat (pkt_line ∘ command_line <$> cs))) < command_list_max → (length cs < fuel)%nat →
  receive_from fuel prefix (push_body cs pack) refs = Ok (refs ++ (CmdRef <$> cs), prefix ++ push_body cs pack).
Proof.
  induction cs as [|c cs IH]; intros fuel prefix refs Hv Hs Hmax Hf.
  - destruct fuel as [|fuel]; [cbn in Hf; lia|]. cbn [receive_from]. cbn in Hmax. rewrite Nat.add_0_r in Hmax.
    rewrite (proj2 (Z.ltb_lt _ _) Hmax). cbn. by rewrite app_nil_r, <- app_assoc.
  - apply Forall_cons in Hv as [Hc Hv], Hs as [Hl Hs]. destruct fuel as [|fuel]; [cbn in Hf; lia|]. cbn [receive_from].
    set (p := command_line c) in *. set (rest := push_body cs pack).
    assert (push_body (c :: cs) pack = pkt_line p ++ rest) as -> by (unfold push_body, rest; cbn [fmap list_fmap concat compose]; by rewrite <- app_assoc).
    cbn [fmap list_fmap concat] in Hmax. rewrite length_app in Hmax. change ((pkt_line ∘ command_line) c) with (pkt_line p) in Hmax.
    assert (length (pkt_line p) = 4 + length p)%nat as Hlen by done.
    rewrite (proj2 (Z.ltb_lt (Z.of_nat (length prefix)) _)) by lia. cbn [negb].
    rewrite bool_decide_false by (rewrite length_app; lia). rewrite parse_pkt_header by done. cbv zeta.
    rewrite (proj2 (Z.eqb_neq _ 0)) by lia. rewrite (proj2 (Z.ltb_ge _ 4)) by lia.
    replace (Z.to_nat (Z.of_nat (length p) + 4 - 4)) with (length p) by lia.
    change (drop 4 (pkt_line p ++ rest)) with (p ++ rest). rewrite bool_decide_false by (rewrite length_app; lia).
    rewrite take_app_length, drop_app_length. change (command_ref p) with (command_ref (command_line c)). rewrite command_line_ref by done.
    unfold rest. rewrite IH; [|done|done|rewrite !length_app, length_take, length_app; unfold p in *; lia|cbn in Hf; lia].
    f_equal. f_equal; [by rewrite <- app_assoc|]. rewrite <- !app_assoc. done.
Qed.
(** C28.  A push is observed as the client meant it: whatever commands a client
    sends, if the object names and references have no NUL and no white space (of
    Unicode, in UTF-8) and the references start with refs/, every packet has at
    most 65535 bytes and all of them together less than 1 MiB, the observer is
    told the references in order, and the body that goes to the forge is the body
    that came, the pack after the commands included.  A reference with a space
    of Unicode in it, which git allows, is not observed
    ([ideographic_space_hides_the_ref]). *)
Theorem pushed_refs_are_observed cs pack :
  Forall valid_push cs → Forall (λ c, Z.of_nat (length (command_line c)) ≤ 65531) cs →
  Z.of_nat (length (concat (pkt_line ∘ command_line <$> cs))) < command_list_max →
  observeReceivePack (push_body cs pack) = Ok (CmdRef <$> cs, push_body cs pack).
Proof.
  intros Hv Hs Hmax. unfold observeReceivePack. rewrite receive_commands; [done|done|done|by cbn|].
  unfold push_body. rewrite length_app. assert (length cs ≤ length (concat (pkt_line ∘ command_line <$> cs)))%nat; [|lia].
  clear. induction cs as [|c cs IH]; [done|]. cbn [fmap list_fmap concat]. rewrite length_app. unfold compose at 1, pkt_line at 1. cbn. lia.
Qed.

(** ** Samples *)
Definition sample_path (repo endpoint : string) : string := "/j/tok/github.com/acme/" +:+ repo +:+ "/" +:+ endpoint.
Definition sample_entry (p : Permission) : GitEntry := {| GNamespace := "w"; Repos := {["github.com/acme/app" := p]}; ObservesPush := true |}.
Definition sample_git : option GitCredentials :=
  Some (git_NewCredentialProvider [{| HcHost := "github.com"; HcForge := ForgeGitHub; HcSecretKey := "gh"; HcScheme := "" |}]
    (Some (λ ns key, if bool_decide (ns = "w" ∧ key = "gh") then Some "s3cret" else None))).
Definition git_get (repo service : string) : GitRequest :=
  {| GMethod := "GET"; GPath := sample_path repo "info/refs"; GService := service; GRawQuery := "service=" +:+ service; GBody := [] |}.
Definition bytes_of (s : string) : bytes := String.list_ascii_of_string s.
Definition main_push : push_command :=
  {| CmdOld := bytes_of "0a1b"; CmdNew := bytes_of "c3d4"; CmdRef := bytes_of "refs/heads/main"; CmdCaps := Some (bytes_of " report-status side-band-64k") |}.
Definition git_post (method : string) : GitRequest :=
  {| GMethod := method; GPath := sample_path "app.git" "git-receive-pack"; GService := ""; GRawQuery := ""; GBody := push_body [main_push] (bytes_of "PACK") |}.
Definition fetched (repo : string) : git_forward :=
  {| FwScheme := "https"; FwHost := "github.com"; FwPath := "/acme/" +:+ repo +:+ ".git/info/refs"; FwQuery := "service=git-upload-pack";
     FwAuth := Some ("x-access-token", "s3cret"); FwBody := []; FwObserved := []; FwNotified := false |}.
Definition pushed (refs : list bytes) : git_forward :=
  {| FwScheme := "https"; FwHost := "github.com"; FwPath := "/acme/app.git/git-receive-pack"; FwQuery := "";
     FwAuth := Some ("x-access-token", "s3cret"); FwBody := push_body [main_push] (bytes_of "PACK"); FwObserved := refs; FwNotified := false |}.

Example fetch_is_forwarded :
  git_ServeHTTP {["tok" := sample_entry PermFetch]} sample_git (git_get "app" "git-upload-pack") = GForward (fetched "app").
Proof. vm_compute. reflexivity. Qed.
Example push_needs_the_permission : git_ServeHTTP {["tok" := sample_entry PermFetch]} sample_git (git_post "POST") = GRefuse 403.
Proof. vm_compute. reflexivity. Qed.
Example push_is_observed :
  git_ServeHTTP {["tok" := sample_entry PermFetchPush]} sample_git (git_post "POST") = GForward (pushed [bytes_of "refs/heads/main"]).
Proof. vm_compute. reflexivity. Qed.
(** The method is compared without case, the observer wants it in capitals. *)
Example lower_case_push_is_not_observed :
  git_ServeHTTP {["tok" := sample_entry PermFetchPush]} sample_git (git_post "post") = GForward (pushed []).
Proof. vm_compute. reflexivity. Qed.
(** The key loses one more .git than the path. *)
Example doubled_suffix_is_another_repository :
  git_ServeHTTP {["tok" := sample_entry PermFetch]} sample_git (git_get "app.git.git" "git-upload-pack") = GForward (fetched "app.git").
Proof. vm_compute. reflexivity. Qed.

Definition ref_of (before : string) (middle : list N) (after : string) : bytes := bytes_of before ++ (ascii_of_N <$> middle) ++ bytes_of after.
(** é is two bytes, U+3000 three. *)
Definition accent_push : push_command :=
  {| CmdOld := bytes_of "0a1b"; CmdNew := bytes_of "c3d4"; CmdRef := ref_of "refs/heads/caf" [195; 169]%N ""; CmdCaps := None |}.
Definition ideographic_push : push_command :=
  {| CmdOld := bytes_of "0a1b"; CmdNew := bytes_of "c3d4"; CmdRef := ref_of "refs/heads/a" [227; 128; 128]%N "b"; CmdCaps := None |}.
Example ideographic_space_hides_the_ref :
  observeReceivePack (push_body [ideographic_push; main_push] (bytes_of "PACK"))
  = Ok ([bytes_of "refs/heads/main"], push_body [ideographic_push; main_push] (bytes_of "PACK")).
Proof. vm_compute. reflexivity. Qed.

Lemma pushed_refs_are_observed_witness :
  observeReceivePack (push_body [main_push; accent_push] (bytes_of "PACK"))
  = Ok ([bytes_of "refs/heads/main"; ref_of "refs/heads/caf" [195; 169]%N ""], push_body [main_push; accent_push] (bytes_of "PACK")).
Proof.
  apply (pushed_refs_are_observed [main_push; accent_push] (bytes_of "PACK")).
  - repeat constructor; try (apply plain_word; [discriminate|]); reflexivity.
  - repeat constructor; vm_compute; discriminate.
  - vm_compute. reflexivity.
Defined.
