(* ===== verification/ApiGateway.v ===== *)
(** * The API gateway and the egress proxy

    Models internal/apigateway (route.go, registry.go, discovery.go,
    credentials.go, baseurl.go, redirect.go and the decision of server.go) and
    the policy of internal/sandbox/proxy.go.

    url.Parse is the function [parse_url] of the class [UrlEnv]; the secret
    store and the source of OAuth2 tokens are functions a provider holds.  The
    escaped path a request is forwarded with is the text the server puts
    together, which url.Parse keeps.  Left out: the transport, the answer of the
    upstream but for redirects, and the OAuth2 flows themselves. *)
From S2P Require Import Prelude Json DockerPolicy GitGateway.
Open Scope Z_scope.

(** ** Escapes *)
Definition hex_pair (a b : ascii) : option ascii :=
  x ← hex_value a; y ← hex_value b; Some (ascii_of_N (Z.to_N (16 * x + y))).
(** [url.PathUnescape] *)
Fixpoint PathUnescape (s : string) : option string :=
  match s with
  | EmptyString => Some ""
  | String c s1 =>
      if bool_decide (c = "%"%char) then
        match s1 with
        | String a (String b s3) => d ← hex_pair a b; String d <$> PathUnescape s3
        | _ => None
        end
      else String c <$> PathUnescape s1
  end.
(** [strings.Split] at a character. *)
Fixpoint split_char (x : ascii) (s : string) : list string :=
  match s with
  | EmptyString => [""]
  | String c s =>
      if bool_decide (c = x) then "" :: split_char x s
      else match split_char x s with [] => [String c ""] | p :: ps => String c p :: ps end
  end.
(** The text before the first slash, and the text from that slash on. *)
Fixpoint cut_slash (s : string) : string * string :=
  match s with
  | EmptyString => ("", "")
  | String c s' => if bool_decide (c = "/"%char) then ("", s) else let r := cut_slash s' in (String c r.1, r.2)
  end.
Definition str_tail (s : string) : string := match s with String _ s => s | EmptyString => "" end.

(** ** Routes *)
Definition PathPrefix : string := "/api/".
Record api_route : Type := { ArToken : string; ArService : string; ArAccount : string; ArPath : string }.
(** Every error is a 404 but that of an account. *)
Inductive route_error : Type := ErrRoute | ErrInvalidAccount.

Definition account_char (c : ascii) : bool :=
  let n := N_of_ascii c in
  ((97 <=? n) && (n <=? 122) || (65 <=? n) && (n <=? 90) || (48 <=? n) && (n <=? 57) || (n =? 45) || (n =? 95))%N.
Definition validateAccountName (account : string) : bool :=
  negb (str_empty account) && (String.length account <=? 64)%nat && forallb account_char (String.list_ascii_of_string account).
Definition splitServiceAccount (service : string) : outcome route_error (string * string) :=
  match split_char "@" service with
  | [_] => Ok (service, "")
  | [name; account] => if str_empty name || negb (validateAccountName account) then Err ErrInvalidAccount else Ok (name, account)
  | _ => Err ErrInvalidAccount
  end.
Definition dot_segment (s : string) : bool := bool_decide (s = "..") || bool_decide (s = ".").
Definition checkForTraversal (tail : string) : bool :=
  forallb (λ seg, match PathUnescape seg with None => false | Some decoded => forallb (λ sub, negb (dot_segment sub)) (split_slash decoded) end)
    (split_slash tail).
Definition api_parsePath (reqPath : string) : outcome route_error api_route :=
  match strip_prefix PathPrefix reqPath with
  | None => Err ErrRoute
  | Some rest =>
      let '(token, afterToken) := cut_slash rest in
      match PathUnescape token with
      | None | Some EmptyString => Err ErrRoute
      | Some token =>
          let '(service, tail) := cut_slash (str_tail afterToken) in
          match PathUnescape service with
          | None | Some EmptyString => Err ErrRoute
          | Some service =>
              '(name, account) ← splitServiceAccount service;
              let tail := if String.prefix "/" tail then tail else "/" +:+ tail in
              if checkForTraversal tail then Ok {| ArToken := token; ArService := name; ArAccount := account; ArPath := tail |} else Err ErrRoute
          end
      end
  end.
Definition parseTokenOnlyPath (reqPath : string) : option string :=
  rest ← strip_prefix PathPrefix reqPath;
  let token := TrimSuffix rest "/" in
  if str_empty token || bool_decide (length (split_slash token) ≠ 1%nat) then None else Some token.

(** ** The registry *)
Record ApiEntry : Type := { AeNamespace : string; AeTaskID : string; AeReadOnly : bool; AeServices : gset string }.
Abbreviation api_registry := (gmap string ApiEntry).
Definition api_RegisterToken (token : string) (services : list string) (namespace taskID : string) (readOnly : bool) (r : api_registry) : api_registry :=
  <[token := {| AeNamespace := namespace; AeTaskID := taskID; AeReadOnly := readOnly; AeServices := list_to_set (filter (λ s, s ≠ "") services) |}]> r.
Definition api_Unregister (token : string) (r : api_registry) : api_registry := delete token r.

(** ** Redirects and hosts *)
Record URL : Type := {
  UScheme : string;
  UHost : string;
  (** Hostname() and Port() *)
  UHostname : string;
  UPort : string;
  UUser : bool;
  (** EscapedPath() *)
  UPath : string;
  URawQuery : string;
  UFragment : string;
}.
(** [url.Parse] *)
Class UrlEnv : Type := { parse_url : string → option URL }.

(** Four decimal numbers: the text net.ParseIP takes that has no colon. *)
Definition octet (s : string) : bool :=
  let l := String.list_ascii_of_string s in
  forallb is_digit l && (1 <=? length l)%nat && (length l <=? 3)%nat
  && (bool_decide (length l = 1%nat) || negb (bool_decide (head l = Some "0"%char)))
  && (foldl (λ a c, 10 * a + (Z.of_N (N_of_ascii c) - 48)) 0 l <=? 255).
Definition is_ipv4 (s : string) : bool := let parts := split_char "." s in bool_decide (length parts = 4%nat) && forallb octet parts.
Definition label_char (c : ascii) : bool :=
  let n := N_of_ascii c in ((97 <=? n) && (n <=? 122) || (65 <=? n) && (n <=? 90) || (48 <=? n) && (n <=? 57) || (n =? 45))%N.
Definition dns_label (s : string) : bool :=
  let l := String.list_ascii_of_string s in
  (1 <=? length l)%nat && (length l <=? 63)%nat && negb (bool_decide (head l = Some "-"%char)) && negb (bool_decide (last l = Some "-"%char))
  && forallb label_char l.
Definition valid_pattern (pattern : string) : bool :=
  let host := default pattern (strip_prefix "*." pattern) in
  (String.length host <=? 253)%nat && (2 <=? length (split_char "." host))%nat && negb (is_ipv4 host) && forallb dns_label (split_char "." host).
Definition RedirectPolicy_Validate (hosts : list string) : bool := forallb valid_pattern hosts.

Definition host_matches (host pattern : string) : bool :=
  let pattern := ToLower pattern in
  match strip_prefix "*." pattern with
  | Some _ => HasSuffix host (str_tail pattern)
  | None => bool_decide (host = pattern)
  end.
Definition RedirectPolicy_allows (hosts : list string) (u : URL) : bool :=
  bool_decide (UScheme u = "https") && negb (UUser u) && str_empty (UFragment u) && (str_empty (UPort u) || bool_decide (UPort u = "443"))
  && existsb (host_matches (ToLower (UHostname u))) hosts.

(** ** Credentials *)
Inductive AuthKind : Type := AuthBearer | AuthBasic | AuthHeader | AuthQuery | AuthOAuth2 | AuthOther (kind : string).
#[export] Instance AuthKind_eq_dec : EqDecision AuthKind.
Proof. solve_decision. Defined.
Record ServiceAuth : Type := {
  Kind : AuthKind;
  SecretKey : string;
  Username : string;
  AHeader : string;
  AQuery : string;
  Provider : string;
  UsernameSecretKey : string;
}.
Record ServiceConfig : Type := {
  ScRedirects : list string;
  ScName : string;
  BaseURL : string;
  ScAuth : ServiceAuth;
  BaseURLSecretKey : string;
  AllowInsecure : bool;
  AllowReadOnlyWrite : bool;
  RequireAccount : bool;
}.
Record resolvedService : Type := {
  redirects : list string;
  auth : ServiceAuth;
  (** a literal URL, or the key of a secret *)
  baseURL : URL + string;
  allowInsecure : bool;
  allowReadOnlyWrite : bool;
  requireAccount : bool;
}.
Record CredentialProvider : Type := {
  services : gmap string resolvedService;
  resolver : option (string → string → option string);
  (** namespace, provider and account *)
  oauth : option (string → string → string → option string);
}.

Section gateway.
Context `{UrlEnv}.

Definition resolve_service (s : ServiceConfig) : option resolvedService :=
  if negb (RedirectPolicy_Validate (ScRedirects s)) then None
  else if negb (str_empty (BaseURLSecretKey s)) then
    Some {| redirects := ScRedirects s; auth := ScAuth s; baseURL := inr (BaseURLSecretKey s); allowInsecure := AllowInsecure s;
            allowReadOnlyWrite := AllowReadOnlyWrite s; requireAccount := RequireAccount s |}
  else match parse_url (BaseURL s) with
       | Some u =>
           if str_empty (UScheme u) || str_empty (UHost u) then None
           else Some {| redirects := ScRedirects s; auth := ScAuth s; baseURL := inl u; allowInsecure := false;
                        allowReadOnlyWrite := AllowReadOnlyWrite s; requireAccount := RequireAccount s |}
       | None => None
       end.
Definition api_NewCredentialProvider (configs : list ServiceConfig) (r : option (string → string → option string)) : CredentialProvider :=
  {| services := foldl (λ m s, match resolve_service s with Some rs => <[ScName s := rs]> m | None => m end) ∅ configs;
     resolver := r; oauth := None |}.
Definition SetOAuth2TokenSource (c : CredentialProvider) (source : string → string → string → option string) : CredentialProvider :=
  {| services := services c; resolver := resolver c; oauth := Some source |}.

(** A secret of the store; there is none without a store. *)
Definition lookup_secret (c : CredentialProvider) (namespace key : string) : option string := secret ← resolver c; secret namespace key.
Definition api_Configured (c : CredentialProvider) : bool := bool_decide (is_Some (resolver c)).
Definition accountSecretKey (base account : string) : string := if str_empty account then base else base +:+ "@" +:+ account.
Definition ValidateBaseURL (raw : string) (insecure : bool) : bool :=
  match parse_url raw with
  | None => false
  | Some u =>
      negb (str_empty (UScheme u) || str_empty (UHost u)) && negb (negb (str_empty (URawQuery u)) || negb (str_empty (UFragment u)))
      && (bool_decide (UScheme u = "https") || insecure) && (bool_decide (UScheme u = "https") || bool_decide (UScheme u = "http"))
  end.
Definition BaseURLFor (c : CredentialProvider) (namespace name account : string) : option URL :=
  rs ← services c !! name;
  match baseURL rs with
  | inl u => Some u
  | inr key =>
      raw ← lookup_secret c namespace (accountSecretKey key account);
      if ValidateBaseURL raw (allowInsecure rs) then parse_url raw else None
  end.
Definition AllowsReadOnlyWrite (c : CredentialProvider) (name : string) : bool :=
  match services c !! name with Some rs => allowReadOnlyWrite rs | None => false end.
Definition RequiresAccount (c : CredentialProvider) (name : string) : bool :=
  match services c !! name with Some rs => requireAccount rs | None => false end.
Definition OAuth2ProviderFor (c : CredentialProvider) (service : string) : option string :=
  rs ← services c !! service;
  if bool_decide (Kind (auth rs) = AuthOAuth2) then Some (Provider (auth rs)) else None.

Definition has_colon (s : string) : bool := bool_decide (length (split_char ":" s) ≠ 1%nat).
Definition resolveUsername (c : CredentialProvider) (namespace account : string) (rs : resolvedService) : option string :=
  if str_empty (UsernameSecretKey (auth rs)) then Some (Username (auth rs))
  else
    username ← lookup_secret c namespace (accountSecretKey (UsernameSecretKey (auth rs)) account);
    if has_colon username then None else Some username.
(** What is put into the request. *)
Inductive injection : Type :=
| InBearer (token : string)
| InBasic (username password : string)
| InHeader (name value : string)
| InQuery (name value : string).
Definition oauth_token (c : CredentialProvider) (namespace account : string) (rs : resolvedService) : option string :=
  source ← oauth c; source namespace (Provider (auth rs)) account.
Definition api_Resolve (c : CredentialProvider) (namespace name account : string) : bool :=
  match services c !! name with
  | None => false
  | Some rs =>
      let static := bool_decide (is_Some (lookup_secret c namespace (accountSecretKey (SecretKey (auth rs)) account))) in
      match Kind (auth rs) with
      | AuthOAuth2 => bool_decide (is_Some (oauth_token c namespace account rs))
      | AuthBasic => api_Configured c && bool_decide (is_Some (resolveUsername c namespace account rs)) && static
      | AuthBearer | AuthHeader | AuthQuery => static
      | AuthOther _ => false
      end
  end.
Definition Inject (c : CredentialProvider) (namespace name account : string) : option injection :=
  rs ← services c !! name;
  let static := lookup_secret c namespace (accountSecretKey (SecretKey (auth rs)) account) in
  match Kind (auth rs) with
  | AuthOAuth2 => InBearer <$> oauth_token c namespace account rs
  | AuthBearer => InBearer <$> static
  | AuthBasic => secret ← static; username ← resolveUsername c namespace account rs; Some (InBasic username secret)
  | AuthHeader => InHeader (AHeader (auth rs)) <$> static
  | AuthQuery => InQuery (AQuery (auth rs)) <$> static
  | AuthOther _ => None
  end.

(** ** The server *)
Record ApiRequest : Type := { RqMethod : string; RqEscapedPath : string; RqRawQuery : string; RqHeader : gmap string (list string) }.
Record audit : Type := { AuTask : string; AuMethod : string; AuService : string; AuPath : string; AuStatus : Z }.
Record api_forward : Type := {
  AfScheme : string;
  AfHost : string;
  AfPath : string;
  AfQuery : string;
  AfHeader : gmap string (list string);
  AfAuth : injection;
}.
Inductive api_answer : Type :=
| ARefuse (status : Z) (audited : option audit) (notified : bool)
| ADiscovery (readonly : bool) (services : list (string * bool))
| AForward (f : api_forward).

Definition isSafeMethod (method : string) : bool := bool_decide (method = "GET") || bool_decide (method = "HEAD").
Definition recordedServiceName (service account : string) : string := if str_empty account then service else service +:+ "@" +:+ account.
Definition serveDiscovery (registry : api_registry) (c : option CredentialProvider) (req : ApiRequest) (token : string) : api_answer :=
  if negb (isSafeMethod (RqMethod req)) then ARefuse 405 None false
  else match registry !! token with
       | None => ARefuse 401 None false
       | Some e =>
           ADiscovery (AeReadOnly e)
             ((λ name, (name, match c with Some c => RequiresAccount c name | None => false end)) <$> merge_sort String.le (elements (AeServices e)))
       end.
(** The headers of the sandbox that would carry a credential. *)
Definition credential_headers : list string := ["Authorization"; "Cookie"; "Proxy-Authorization"].
Definition strip_credentials (h : gmap string (list string)) : gmap string (list string) := foldr delete h credential_headers.

(** [later] is the provider when the request is sent: the secrets may have
    changed since they were looked up first. *)
Definition forward_or_fail (later : CredentialProvider) (req : ApiRequest) (r : api_route) (e : ApiEntry) (base : URL) (refused : Z → option audit) : api_answer :=
  match Inject later (AeNamespace e) (ArService r) (ArAccount r) with
  | None => ARefuse 502 (refused 502) true
  | Some secret =>
      AForward {| AfScheme := UScheme base; AfHost := UHost base; AfPath := TrimSuffix (UPath base) "/" +:+ ArPath r; AfQuery := RqRawQuery req;
                  AfHeader := strip_credentials (RqHeader req); AfAuth := secret |}
  end.
Definition serve_route (registry : api_registry) (c : option CredentialProvider) (later : CredentialProvider) (req : ApiRequest) (r : api_route) : api_answer :=
  match registry !! ArToken r with
  | None => ARefuse 401 None false
  | Some e =>
      let refused := λ status, Some {| AuTask := AeTaskID e; AuMethod := RqMethod req; AuService := recordedServiceName (ArService r) (ArAccount r);
                                       AuPath := ArPath r; AuStatus := status |} in
      if negb (bool_decide (ArService r ∈ AeServices e)) then ARefuse 403 (refused 403) false
      else if str_empty (ArAccount r) && match c with Some c => RequiresAccount c (ArService r) | None => false end then ARefuse 400 (refused 400) false
      else if AeReadOnly e && negb (isSafeMethod (RqMethod req))
              && negb match c with Some c => AllowsReadOnlyWrite c (ArService r) | None => false end then ARefuse 403 (refused 403) false
      else match c with
           | None => ARefuse 503 (refused 503) false
           | Some c =>
               if negb (api_Configured c) then ARefuse 503 (refused 503) false
               else match BaseURLFor c (AeNamespace e) (ArService r) (ArAccount r) with
                    | None => ARefuse 502 (refused 502) true
                    | Some base =>
                        if negb (api_Resolve c (AeNamespace e) (ArService r) (ArAccount r)) then ARefuse 502 (refused 502) true
                        else forward_or_fail later req r e base refused
                    end
           end
  end.
Definition api_ServeHTTP (registry : api_registry) (c : option CredentialProvider) (later : CredentialProvider) (req : ApiRequest) : api_answer :=
  match parseTokenOnlyPath (RqEscapedPath req) with
  | Some token => serveDiscovery registry c req token
  | None =>
      match api_parsePath (RqEscapedPath req) with
      | Err ErrInvalidAccount => ARefuse 400 None false
      | Ok r => serve_route registry c later req r
      | _ => ARefuse 404 None false
      end
  end.
End gateway.

(** ** Following a redirect *)
Record response : Type := { RsStatus : Z; RsLocation : option URL; RsLength : Z }.
Definition redirectStatus (status : Z) : bool := bool_decide (status ∈ [301; 302; 303; 307; 308]).
Definition maxRedirectBytes : Z := Z.shiftl 512 20.
(** The requests made on the way, and the answer for the sandbox. *)
Inductive followed : Type :=
| FoKeep
| FoReject (contacted : list URL)
| FoReplace (contacted : list URL) (resp : response).
(** [hops] more requests may be made. *)
Fixpoint follow_from (hops : nat) (hosts : list string) (head : bool) (transport : URL → option response) (contacted : list URL)
    (current : response) : followed :=
  match RsLocation current, hops with
  | Some target, S hops =>
      if negb (RedirectPolicy_allows hosts target) then FoReject contacted
      else match transport target with
           | None => FoReject (contacted ++ [target])
           | Some next =>
               if redirectStatus (RsStatus next) then follow_from hops hosts head transport (contacted ++ [target]) next
               else if bool_decide (RsStatus next = 101) || negb head && (maxRedirectBytes <? RsLength next) then FoReject (contacted ++ [target])
               else FoReplace (contacted ++ [target]) next
           end
  | _, _ => FoReject contacted
  end.
Definition followRedirect (c : option CredentialProvider) (service method : string) (transport : URL → option response) (resp : response) : followed :=
  match c with
  | None => FoKeep
  | Some c =>
      let hosts := match services c !! service with Some rs => redirects rs | None => [] end in
      if bool_decide (hosts = []) || negb (isSafeMethod method) || negb (redirectStatus (RsStatus resp)) then FoKeep
      else follow_from 3 hosts (bool_decide (method = "HEAD")) transport [] resp
  end.

(** What a read of the body returns: bytes and the limit that is left; the
    source was asked for at most one byte more than the limit. *)
Inductive read_result : Type := RdOk | RdEOF | RdError.
Definition redirect_read (remaining n : Z) (err : read_result) : Z * Z * read_result :=
  if remaining <? n then (remaining, 0, RdError) else (n, remaining - n, err).

(** Addresses, as the bytes of a net.IP. *)
Abbreviation ip := (list Z).
Definition To4 (a : ip) : option ip :=
  if bool_decide (length a = 4%nat) then Some a
  else if bool_decide (length a = 16%nat) && bool_decide (take 12 a = [0; 0; 0; 0; 0; 0; 0; 0; 0; 0; 255; 255]) then Some (drop 12 a)
  else None.
Definition byte_at (i : nat) (a : ip) : Z := nth i a 0.
Definition IsUnspecified (a : ip) : bool :=
  bool_decide (To4 a = Some [0; 0; 0; 0]) || bool_decide (a = repeat 0 16).
Definition IsLoopback (a : ip) : bool :=
  match To4 a with Some v => byte_at 0 v =? 127 | None => bool_decide (a = repeat 0 15 ++ [1]) end.
Definition IsMulticast (a : ip) : bool :=
  match To4 a with Some v => Z.land (byte_at 0 v) 240 =? 224 | None => bool_decide (length a = 16%nat) && (byte_at 0 a =? 255) end.
Definition IsLinkLocalUnicast (a : ip) : bool :=
  match To4 a with
  | Some v => (byte_at 0 v =? 169) && (byte_at 1 v =? 254)
  | None => bool_decide (length a = 16%nat) && (byte_at 0 a =? 254) && (Z.land (byte_at 1 a) 192 =? 128)
  end.
Definition IsPrivate (a : ip) : bool :=
  match To4 a with
  | Some v =>
      (byte_at 0 v =? 10) || (byte_at 0 v =? 172) && (Z.land (byte_at 1 v) 240 =? 16) || (byte_at 0 v =? 192) && (byte_at 1 v =? 168)
  | None => bool_decide (length a = 16%nat) && (Z.land (byte_at 0 a) 254 =? 252)
  end.
Definition IsGlobalUnicast (a : ip) : bool :=
  (bool_decide (length a = 4%nat) || bool_decide (length a = 16%nat)) && negb (bool_decide (To4 a = Some [255; 255; 255; 255]))
  && negb (IsUnspecified a) && negb (IsLoopback a) && negb (IsMulticast a) && negb (IsLinkLocalUnicast a).
Definition shared_network (a : ip) : bool :=
  match To4 a with Some v => (byte_at 0 v =? 100) && (Z.land (byte_at 1 v) 192 =? 64) | None => false end.
Definition publicRedirectIP (a : ip) : bool :=
  IsGlobalUnicast a && negb (IsPrivate a) && negb (IsLoopback a) && negb (IsLinkLocalUnicast a) && negb (shared_network a).
(** The addresses a connection may be tried on; none when the look-up failed. *)
Definition dialRedirect (ips : option (list ip)) : option (list ip) :=
  ips ← ips; if bool_decide (ips = []) || negb (forallb publicRedirectIP ips) then None else Some ips.

(** ** The egress proxy *)
Definition has_char (c : ascii) (s : string) : bool := existsb (λ x, bool_decide (x = c)) (String.list_ascii_of_string s).
Definition isRefusedDotlessTarget (host : string) : bool :=
  if str_empty host then false
  else if has_char "." host || has_char ":" host then false
  else negb (bool_decide (ToLower host ∈ ["localhost"; "boid-broker"; "boid-gateway"; "boid-egress"])).
Definition domain_matches (domain d : string) : bool :=
  let d := ToLower d in
  match strip_prefix "." d with
  | Some rest => HasSuffix domain d || bool_decide (domain = rest)
  | None => bool_decide (d = domain)
  end.
Definition isDomainAllowed (allowed : list string) (domain : string) : bool := existsb (domain_matches (ToLower domain)) allowed.
Inductive egress : Type := EgRefuse (status : Z) | EgDial (target : string).
(** [split_host] is net.SplitHostPort, the host only. *)
Definition handleConnect (split_host : string → option string) (allowed : list string) (rhost : string) : egress :=
  let host := default rhost (split_host rhost) in
  if isRefusedDotlessTarget host then EgRefuse 502
  else if negb (isDomainAllowed allowed host) then EgRefuse 403
  else EgDial rhost.
Definition handleHTTP (allowed : list string) (u : URL) : egress :=
  if str_empty (UHost u) then EgRefuse 400
  else if isRefusedDotlessTarget (UHostname u) then EgRefuse 502
  else if negb (isDomainAllowed allowed (UHostname u)) then EgRefuse 403
  else EgDial (UHost u).

(** ** Nothing above the root of the service *)
Lemma split_slash_cons s : ∃ p ps, split_slash s = p :: ps.
Proof. destruct s as [|c s]; cbn; [eauto|]. case_bool_decide; [eauto|]. destruct (split_slash s); eauto. Qed.
Lemma split_slash_char c s p ps : c ≠ "/"%char → split_slash s = p :: ps → split_slash (String c s) = String c p :: ps.
Proof. intros Hc Hs. cbn. by rewrite bool_decide_false, Hs. Qed.
Lemma hex_not_slash a x : hex_value a = Some x → a ≠ "/"%char.
Proof. by intros Ha ->. Qed.

(** Decoding a path is decoding its segments. *)
Definition decodes_to (segs : list string) (d : string) : Prop :=
  ∃ ds, Forall2 (λ seg x, PathUnescape seg = Some x) segs ds ∧ split_slash d = concat (split_slash <$> ds).
Lemma decodes_extend c c' p ps d x :
  c' ≠ "/"%char → PathUnescape p = Some x → decodes_to (p :: ps) d → PathUnescape (c +:+ p) = Some (String c' x) →
  decodes_to ((c +:+ p) :: ps) (String c' d).
Proof.
  intros Hc Hx (ds & Hds & Hd) Hp. inversion Hds as [|? y ? ds' Hy Hrest]; subst. rewrite Hx in Hy. injection Hy as <-.
  exists (String c' x :: ds'). split; [by constructor|]. destruct (split_slash_cons x) as (q & qs & Hq).
  cbn [fmap list_fmap concat] in Hd |- *. rewrite Hq in Hd. cbn [app] in Hd.
  by rewrite (split_slash_char _ _ _ _ Hc Hd), (split_slash_char _ _ _ _ Hc Hq).
Qed.
Lemma decodes_slash p ps d x seg :
  PathUnescape p = Some x → decodes_to (p :: ps) d → PathUnescape seg = Some (String "/" x) → decodes_to (seg :: ps) (String "/" d).
Proof.
  intros Hx (ds & Hds & Hd) Hs. inversion Hds as [|? y ? ds' Hy Hrest]; subst. rewrite Hx in Hy. injection Hy as <-.
  exists (String "/" x :: ds'). split; [by constructor|]. cbn. cbn in Hd. by rewrite Hd.
Qed.
Lemma unescape_segments n : ∀ s, (String.length s ≤ n)%nat → Forall (λ seg, is_Some (PathUnescape seg)) (split_slash s) →
  ∃ d, PathUnescape s = Some d ∧ decodes_to (split_slash s) d.
Proof.
  induction n as [|n IH]; intros s Hn Hall.
  - destruct s; [|cbn in Hn; lia]. exists "". split; [done|]. exists [""]. split; [by repeat constructor|done].
  - destruct s as [|c s]; [exists ""; split; [done|]; exists [""]; split; [by repeat constructor|done]|].
    destruct (decide (c = "/"%char)) as [->|Hc].
    { cbn in Hall. apply Forall_cons in Hall as [_ Hall]. destruct (IH s) as (d & Hd & ds & Hds & Hsp); [cbn in Hn; lia|done|].
      exists (String "/" d). split; [cbn; by rewrite Hd|]. exists ("" :: ds). split; [by constructor|]. cbn. by rewrite Hsp. }
    destruct (decide (c = "%"%char)) as [->|Hp].
    + destruct (split_slash_cons s) as (p0 & ps0 & Hs0). rewrite (split_slash_char _ _ _ _ Hc Hs0) in Hall |- *.
      apply Forall_cons in Hall as [[x0 Hx0] Hall]. cbn in Hx0. destruct p0 as [|a [|b p]]; try done.
      destruct (hex_pair a b) as [e|] eqn:He; [|done]. cbn in Hx0. destruct (PathUnescape p) as [x|] eqn:Hx; [|done].
      pose proof He as He'. unfold hex_pair in He'. destruct (hex_value a) as [u|] eqn:Ha; [|done]. destruct (hex_value b) as [v|] eqn:Hb; [|done].
      apply hex_not_slash in Ha, Hb.
      destruct s as [|a' s]; [done|]. destruct (decide (a' = "/"%char)) as [->|Ha']; [by cbn in Hs0|].
      destruct (split_slash_cons s) as (p1 & ps1 & Hs1). rewrite (split_slash_char _ _ _ _ Ha' Hs1) in Hs0. injection Hs0 as -> -> ->.
      destruct s as [|b' s]; [done|]. destruct (decide (b' = "/"%char)) as [->|Hb']; [by cbn in Hs1|].
      destruct (split_slash_cons s) as (p2 & ps2 & Hs2). rewrite (split_slash_char _ _ _ _ Hb' Hs2) in Hs1. injection Hs1 as -> -> ->.
      destruct (IH s) as (d & Hd & Hdec); [cbn in Hn; lia|rewrite Hs2; by constructor|]. rewrite Hs2 in Hdec.
      assert (PathUnescape (String "%" (String a (String b p))) = Some (String e x)) as Hseg by (cbn; by rewrite He, Hx).
      exists (String e d). split; [cbn; by rewrite He, Hd|]. destruct (decide (e = "/"%char)) as [->|Hne].
      * by eapply (decodes_slash p).
      * by apply (decodes_extend (String "%" (String a (String b ""))) e p ps0 d x).
    + destruct (split_slash_cons s) as (p & ps & Hs). rewrite (split_slash_char _ _ _ _ Hc Hs) in Hall |- *.
      apply Forall_cons in Hall as [[x0 Hx0] Hall]. cbn in Hx0. rewrite bool_decide_false in Hx0 by done.
      destruct (PathUnescape p) as [x|] eqn:Hx; [|done]. destruct (IH s) as (d & Hd & Hdec); [cbn in Hn; lia|rewrite Hs; by constructor|].
      rewrite Hs in Hdec. exists (String c d). split; [cbn; by rewrite bool_decide_false, Hd|].
      apply (decodes_extend (String c "") c p ps d x); try done. change (String c "" +:+ p) with (String c p).
      cbn [PathUnescape]. by rewrite bool_decide_false, Hx.
Qed.

Lemma cut_slash_app s : s = (cut_slash s).1 +:+ (cut_slash s).2.
Proof.
  induction s as [|c s IH]; [done|]. cbn. case_bool_decide; [done|]. cbn. exact (f_equal (String c) IH).
Qed.
Lemma cut_slash_tail s : (cut_slash s).2 = "" ∨ ∃ t, (cut_slash s).2 = String "/" t.
Proof. induction s as [|c s IH]; [by left|]. cbn. case_bool_decide as Hc; cbn; [subst; eauto|done]. Qed.
Lemma strip_prefix_app pre s t : strip_prefix pre s = Some t → s = pre +:+ t.
Proof.
  revert s. induction pre as [|a pre IH]; intros s; cbn; [by intros [= ->]|]. destruct s as [|b s]; [done|]. case_bool_decide; [|done].
  subst. intros Hs%IH. exact (f_equal (String b) Hs).
Qed.

Lemma parsePath_tail p r : api_parsePath p = Ok r → checkForTraversal (ArPath r) = true ∧ (ArPath r = "/" ∨ ∃ pre, p = pre +:+ ArPath r).
Proof.
  unfold api_parsePath. destruct (strip_prefix PathPrefix p) as [rest|] eqn:Hp; [|done]. apply strip_prefix_app in Hp.
  pose proof (cut_slash_app rest) as Hrest. pose proof (cut_slash_tail rest) as Htail1. destruct (cut_slash rest) as [tok after]. cbn [fst snd] in *.
  destruct (PathUnescape tok) as [[|tc tok']|]; [done| |done].
  pose proof (cut_slash_app (str_tail after)) as Hafter. pose proof (cut_slash_tail (str_tail after)) as Htail.
  destruct (cut_slash (str_tail after)) as [svc tail]. cbn [fst snd] in *. destruct (PathUnescape svc) as [[|sc svc']|]; [done| |done].
  destruct (splitServiceAccount _) as [[name account]| |]; [|done|done]. cbn [mbind outcome_bind].
  destruct (checkForTraversal (if String.prefix "/" tail then tail else "/" +:+ tail)) eqn:Hc.
  - intros [= <-]. cbn [ArPath]. split; [done|]. destruct Htail as [->|[t Ht]]; [by left|]. right. subst tail.
    replace (if String.prefix "/" (String "/" t) then String "/" t else "/" +:+ String "/" t) with (String "/" t) by by destruct t.
    destruct Htail1 as [->|[u ->]].
    + cbn [str_tail] in Hafter. by destruct svc.
    + exists (PathPrefix +:+ tok +:+ "/" +:+ svc). cbn [str_tail] in Hafter. rewrite Hp, Hrest, Hafter, !string_app_assoc. done.
  - intros [=].
Qed.

(** C29.  A path below a service cannot leave it: the path the gateway forwards is
    the end of the path that came, byte for byte, and when its escapes are
    decoded, those of slashes included, no segment is . or .. *)
Theorem forwarded_paths_stay_below p r :
  api_parsePath p = Ok r →
  (ArPath r = "/" ∨ ∃ pre, p = pre +:+ ArPath r) ∧
  ∃ d, PathUnescape (ArPath r) = Some d ∧ Forall (λ seg, seg ≠ "." ∧ seg ≠ "..") (split_slash d).
Proof.
  intros [Hc Ht]%parsePath_tail. split; [done|]. unfold checkForTraversal in Hc. rewrite forallb_forall in Hc.
  destruct (unescape_segments (String.length (ArPath r)) (ArPath r)) as (d & Hd & ds & Hds & Hsp); [done| |].
  { apply Forall_forall. intros seg Hs%list_elem_of_In%Hc. by destruct (PathUnescape seg). }
  exists d. split; [done|]. rewrite Hsp. apply Forall_concat, Forall_fmap. apply Forall_forall. intros x (i & Hx)%list_elem_of_lookup.
  apply Forall2_lookup_r with (i := i) (y := x) in Hds as (seg & Hseg & Hun); [|done].
  apply list_elem_of_lookup_2, list_elem_of_In, Hc in Hseg. rewrite Hun in Hseg. rewrite forallb_forall in Hseg.
  apply Forall_forall. intros y Hy%list_elem_of_In%Hseg%negb_true_iff. unfold dot_segment in Hy.
  apply orb_false_iff in Hy as [H1 H2]. apply bool_decide_eq_false in H1, H2. done.
Qed.

(** ** The paths of services, said without the parser *)
Definition at_sign : ascii := "@"%char.
Definition account_alphabet : string := "abcdefghijklmnopqrstuvwxyzABCDEFGHIJKLMNOPQRSTUVWXYZ0123456789-_".
Definition account_name (account : string) : Prop :=
  (1 ≤ String.length account ≤ 64)%nat ∧
  Forall (λ c, c ∈ String.list_ascii_of_string account_alphabet) (String.list_ascii_of_string account).
Definition names_service (segment service account : string) : Prop :=
  segment = service ∧ account = "" ∧ (at_sign ∉ String.list_ascii_of_string segment) ∨
  segment = service +:+ "@" +:+ account ∧ service ≠ "" ∧ (at_sign ∉ String.list_ascii_of_string service) ∧ account_name account.
(** /api/token/service[@account][/path], token and service escaped; the path
    has to decode, segment by segment, to names other than . and .. *)
Definition api_path (path : string) (r : api_route) : Prop :=
  ∃ token service segment tail,
    path = "/api/" +:+ token +:+ "/" +:+ service +:+ tail ∧ no_slash token ∧ no_slash service ∧ (tail = "" ∨ ∃ t, tail = "/" +:+ t) ∧
    PathUnescape token = Some (ArToken r) ∧ ArToken r ≠ "" ∧
    PathUnescape service = Some segment ∧ segment ≠ "" ∧ names_service segment (ArService r) (ArAccount r) ∧
    ArPath r = (if bool_decide (tail = "") then "/" else tail) ∧
    Forall (λ seg, ∃ d, PathUnescape seg = Some d ∧ Forall (λ name, name ≠ "." ∧ name ≠ "..") (split_slash d)) (split_slash (ArPath r)).

Lemma account_char_iff c : account_char c = true ↔ c ∈ String.list_ascii_of_string account_alphabet.
Proof.
  rewrite <- (bool_decide_eq_true (c ∈ _)). assert (account_char c = bool_decide (c ∈ String.list_ascii_of_string account_alphabet)) as ->; [|done].
  by destruct c as [[] [] [] [] [] [] [] []]; vm_compute.
Qed.
Lemma validateAccountName_iff account : validateAccountName account = true ↔ account_name account.
Proof.
  unfold validateAccountName, account_name. rewrite !andb_true_iff, Nat.leb_le, forallb_forall, Forall_forall.
  setoid_rewrite <- account_char_iff. setoid_rewrite list_elem_of_In.
  destruct account as [|c account]; cbn; [|intuition lia]. split; [by intros [[? _] _]|intros [? _]; lia].
Qed.
Lemma split_char_cons x s : ∃ p ps, split_char x s = p :: ps.
Proof. destruct s as [|c s]; cbn; [eauto|]. case_bool_decide; [eauto|]. destruct (split_char x s); eauto. Qed.
Lemma split_char_one x s p : split_char x s = [p] ↔ s = p ∧ x ∉ String.list_ascii_of_string s.
Proof.
  revert p. induction s as [|c s IH]; intros p; cbn; [set_solver|]. destruct (split_char_cons x s) as (q & qs & Hq).
  rewrite not_elem_of_cons, Hq. case_bool_decide as Hc; [subst; naive_solver|]. rewrite Hq in IH. split.
  - intros [= <- ->]. destruct (proj1 (IH q) eq_refl) as [-> ?]. done.
  - intros [<- [_ Hn]]. by injection (proj2 (IH s) (conj eq_refl Hn)) as -> ->.
Qed.
Lemma split_char_cons_iff x s p q qs :
  split_char x s = p :: q :: qs ↔ ∃ t, s = p +:+ String x t ∧ (x ∉ String.list_ascii_of_string p) ∧ split_char x t = q :: qs.
Proof.
  revert p. induction s as [|c s IH]; intros p; cbn.
  - split; [done|]. intros (t & Heq & _). by destruct p.
  - destruct (split_char_cons x s) as (q0 & qs0 & Hq0). case_bool_decide as Hc.
    + subst c. split; [intros [= <- Hs]; exists s; split_and!; [done|apply not_elem_of_nil|done]|].
      intros (t & Heq & Hp & Ht). destruct p as [|c p]; [cbn in Heq; injection Heq as ->; by rewrite Ht|].
      cbn in Heq, Hp. injection Heq as <- _. set_solver.
    + rewrite Hq0. rewrite Hq0 in IH. split.
      * intros [= <- ->]. destruct (proj1 (IH q0) eq_refl) as (t & -> & Hp & Ht). exists t. cbn. split_and!; [done|set_solver|done].
      * intros (t & Heq & Hp & Ht). destruct p as [|c' p]; [cbn in Heq; by injection Heq as ->|]. cbn in Heq, Hp. injection Heq as <- ->.
        assert (q0 :: qs0 = p :: q :: qs) as [= -> ->]; [|done]. apply IH. exists t. split_and!; [done|set_solver|done].
Qed.
Lemma splitServiceAccount_iff segment service account :
  splitServiceAccount segment = Ok (service, account) ↔ names_service segment service account.
Proof.
  unfold splitServiceAccount, names_service, at_sign. destruct (split_char_cons "@" segment) as (p & [|q [|q' qs]] & Hs); rewrite Hs.
  - apply split_char_one in Hs as [-> Hn]. split; [intros [= <- <-]; by left|].
    intros [(-> & -> & _)|(-> & _)]; [done|]. destruct Hn. clear. induction service; cbn; set_solver.
  - apply split_char_cons_iff in Hs as (t & -> & Hp & [-> Hq]%split_char_one).
    assert (∀ s a : string, p +:+ String "@" q = s +:+ String "@" a → "@"%char ∉ String.list_ascii_of_string s → s = p ∧ a = q) as Hinj.
    { clear -Hp. induction p as [|c p IH]; intros [|c' s] a Heq Hn; cbn in *; [by injection Heq|injection Heq as <- _; set_solver|
        injection Heq as -> _; set_solver|]. injection Heq as -> Heq. destruct (IH ltac:(set_solver) s a Heq) as [-> ->]; set_solver. }
    destruct (str_empty p) eqn:He; [apply bool_decide_eq_true in He|apply bool_decide_eq_false in He]; cbn [orb].
    + subst. split; [done|]. intros [(<- & -> & Hn)|(Heq & Hne & Hn & _)]; [cbn in Hn; set_solver|]. by destruct (Hinj _ _ Heq Hn).
    + destruct (validateAccountName q) eqn:Hv; cbn [negb].
      * apply validateAccountName_iff in Hv. split; [intros [= <- <-]; by right|].
        intros [(<- & -> & Hn)|(Heq & Hne & Hn & _)]; [destruct Hn; clear; induction p; cbn; set_solver|]. by destruct (Hinj _ _ Heq Hn) as [-> ->].
      * split; [done|]. intros [(<- & -> & Hn)|(Heq & Hne & Hn & Ha)]; [destruct Hn; clear; induction p; cbn; set_solver|].
        destruct (Hinj _ _ Heq Hn) as [-> ->]. apply validateAccountName_iff in Ha. congruence.
  - apply split_char_cons_iff in Hs as (t & -> & Hp & (t' & -> & Hq & _)%split_char_cons_iff). split; [done|].
    intros [(<- & -> & Hn)|(Heq & Hne & Hn & _ & Ha)]; [destruct Hn; clear; induction p; cbn; set_solver|]. exfalso.
    assert ("@"%char ∈ String.list_ascii_of_string account) as Hin.
    { clear -Heq Hp Hn. revert service Heq Hn. induction p as [|c p IH]; intros [|c' s] Heq Hn; cbn in *;
        [injection Heq as Heq; change ("" +:+ account) with account in Heq; subst account; clear; induction q; cbn; set_solver|injection Heq as <- _; set_solver|injection Heq as -> _; set_solver|].
      injection Heq as -> Heq. eapply (IH ltac:(set_solver) s Heq); set_solver. }
    rewrite Forall_forall in Ha. apply Ha, account_char_iff in Hin. done.
Qed.
Lemma checkForTraversal_iff tail :
  checkForTraversal tail = true ↔
  Forall (λ seg, ∃ d, PathUnescape seg = Some d ∧ Forall (λ name, name ≠ "." ∧ name ≠ "..") (split_slash d)) (split_slash tail).
Proof.
  unfold checkForTraversal. rewrite forallb_forall, Forall_forall. setoid_rewrite <- list_elem_of_In. apply forall_proper. intros seg.
  apply imp_iff_compat_l. cbn beta. destruct (PathUnescape seg) as [d|]; [|split; [done|by intros (? & ? & _)]].
  assert (forallb (λ sub, negb (dot_segment sub)) (split_slash d) = true ↔ Forall (λ name, name ≠ "." ∧ name ≠ "..") (split_slash d)) as ->.
  { rewrite forallb_forall, Forall_forall. setoid_rewrite <- list_elem_of_In. apply forall_proper. intros name. apply imp_iff_compat_l.
    unfold dot_segment. rewrite negb_true_iff, orb_false_iff, !bool_decide_eq_false. tauto. }
  split; [eauto|]. by intros (? & [= <-] & ?).
Qed.
Lemma cut_slash_iff s a b : cut_slash s = (a, b) ↔ s = a +:+ b ∧ no_slash a ∧ (b = "" ∨ ∃ t, b = "/" +:+ t).
Proof.
  revert a. induction s as [|c s IH]; intros a; cbn.
  - split; [intros [= <- <-]; split_and!; [done|done|by left]|]. intros (Heq & _ & _). destruct a; [change ("" = b) in Heq; by subst|done].
  - case_bool_decide as Hc.
    + subst. split; [intros [= <- <-]; split_and!; [done|done|right; by exists s]|]. intros (Heq & Ha & _).
      destruct a as [|c a]; [change (String "/" s = b) in Heq; by subst|]. injection Heq as <- _. by destruct Ha.
    + destruct (cut_slash s) as [a0 b0] eqn:E. cbn. split.
      * intros [= <- <-]. destruct (proj1 (IH a0) eq_refl) as (-> & ? & ?). done.
      * intros (Heq & Ha & Hb). destruct a as [|c' a].
        -- change (String c s = b) in Heq. destruct Hb as [->|[t ->]]; [done|]. by injection Heq as ->.
        -- injection Heq as <- Heq. destruct Ha as [_ Ha]. by injection (proj2 (IH a) (conj Heq (conj Ha Hb))) as -> ->.
Qed.

Lemma strip_prefix_of pre s : strip_prefix pre (pre +:+ s) = Some s.
Proof. induction pre as [|c pre IH]; [done|]. change (String c pre +:+ s) with (String c (pre +:+ s)). cbn. by rewrite bool_decide_true. Qed.
Lemma no_slash_split s : no_slash s ↔ length (split_slash s) = 1%nat.
Proof.
  split; [by intros ->%split_slash_one|]. destruct (split_slash_cons s) as (p & [|q ps] & Hs); rewrite Hs; [|done]. intros _.
  by apply split_slash_nil_iff in Hs as [? ->].
Qed.
(** A path below a token and a service is not the one of the token alone. *)
Lemma service_path_not_token_only token service tail :
  no_slash token → service ≠ "" → no_slash service → parseTokenOnlyPath ("/api/" +:+ token +:+ "/" +:+ service +:+ tail) = None.
Proof.
  intros Ht Hne Hns. unfold parseTokenOnlyPath, PathPrefix. rewrite strip_prefix_of. cbn [mbind option_bind].
  set (rest := token +:+ "/" +:+ service +:+ tail). assert (¬ no_slash (TrimSuffix rest "/")) as Hn.
  { unfold TrimSuffix. destruct (cut_suffix "/" rest) as [x|] eqn:Hx; cbn [default].
    - apply cut_suffix_spec in Hx. subst rest. intros Hs. assert (split_slash (x +:+ "/") = [x; ""]) as Hsp by exact (split_slash_app x "" Hs).
      rewrite <- Hx, split_slash_app in Hsp by done. injection Hsp as _ Hsp. destruct (split_slash_nil_iff (service +:+ tail) "") as [Hi _].
      destruct (Hi Hsp) as [_ He]. by destruct service.
    - intros Hs%split_slash_one. subst rest. rewrite split_slash_app in Hs by done. injection Hs as _ Hs. destruct (split_slash_cons (service +:+ tail)) as (? & ? & Hc). congruence. }
  rewrite no_slash_split in Hn. rewrite (bool_decide_true (_ ≠ 1%nat)) by done. by rewrite orb_true_r.
Qed.
Lemma api_path_spec path r : parseTokenOnlyPath path = None ∧ api_parsePath path = Ok r ↔ api_path path r.
Proof.
  unfold api_parsePath, api_path. split.
  - intros [_ Hp]. destruct (strip_prefix PathPrefix path) as [rest|] eqn:Hs; [|done]. apply strip_prefix_app in Hs.
    destruct (cut_slash rest) as [token after] eqn:H1. apply cut_slash_iff in H1 as (-> & Ht & Hafter).
    destruct (PathUnescape token) as [[|tc tok]|] eqn:Hut; [done| |done].
    destruct (cut_slash (str_tail after)) as [service tail] eqn:H2. apply cut_slash_iff in H2 as (Ha & Hns & Htail).
    destruct (PathUnescape service) as [[|sc seg]|] eqn:Hus; [done| |done].
    destruct (splitServiceAccount _) as [[name account]| |] eqn:Hsa; [|done|done]. apply splitServiceAccount_iff in Hsa. cbn [mbind outcome_bind] in Hp.
    destruct (checkForTraversal _) eqn:Hc; [|done]. injection Hp as <-. cbn. exists token, service, (String sc seg), tail.
    destruct Hafter as [->|[t ->]]; [by destruct service|]. change (str_tail ("/" +:+ t)) with t in Ha. subst t. apply checkForTraversal_iff in Hc.
    assert ((if String.prefix "/" tail then tail else "/" +:+ tail) = (if bool_decide (tail = "") then "/" else tail)) as He
      by (destruct Htail as [->|[t ->]]; [done|by destruct t]).
    rewrite He in *. split_and!; done.
  - intros (token & service & segment & tail & -> & Ht & Hns & Htail & Hut & Hnt & Hus & Hnseg & Hsa & Hpath & Htr).
    assert (service ≠ "") as Hne by (intros ->; cbn in Hus; congruence). split; [by apply service_path_not_token_only|].
    unfold PathPrefix. rewrite strip_prefix_of.
    assert (cut_slash (token +:+ "/" +:+ service +:+ tail) = (token, "/" +:+ service +:+ tail)) as -> by (apply cut_slash_iff; eauto).
    rewrite Hut. destruct r as [rt rs ra rp]; cbn in *. destruct rt as [|tc tok]; [done|]. change (str_tail ("/" +:+ service +:+ tail)) with (service +:+ tail).
    assert (cut_slash (service +:+ tail) = (service, tail)) as -> by by apply cut_slash_iff.
    rewrite Hus. destruct segment as [|sc seg]; [done|]. rewrite (proj2 (splitServiceAccount_iff _ _ _) Hsa). cbn [mbind outcome_bind].
    assert ((if String.prefix "/" tail then tail else "/" +:+ tail) = (if bool_decide (tail = "") then "/" else tail)) as ->
      by (destruct Htail as [->|[t ->]]; [done|by destruct t]).
    rewrite <- Hpath. by rewrite (proj2 (checkForTraversal_iff _) Htr).
Qed.
Section gateway_claims.
Context `{UrlEnv}.

(** The name of a secret, for an account. *)
Definition secret_name (key account name : string) : Prop :=
  account = "" ∧ name = key ∨ account ≠ "" ∧ name = key +:+ "@" +:+ account.
(** What the secret store has under a key for an account. *)
Definition stored_secret (c : CredentialProvider) (ns key account secret : string) : Prop :=
  ∃ store name, resolver c = Some store ∧ secret_name key account name ∧ store ns name = Some secret.
(** The URL of a service: the one of its configuration, or one kept as a secret,
    which has a host, neither query nor fragment, and is https, or http where
    the configuration allows that. *)
Definition service_url (c : CredentialProvider) (ns : string) (rs : resolvedService) (account : string) (base : URL) : Prop :=
  match baseURL rs with
  | inl u => base = u
  | inr key =>
      ∃ raw, stored_secret c ns key account raw ∧ parse_url raw = Some base ∧ UHost base ≠ "" ∧ URawQuery base = "" ∧ UFragment base = "" ∧
        (UScheme base = "https" ∨ UScheme base = "http" ∧ allowInsecure rs = true)
  end.
(** The credential of a service, by its kind. *)
Definition service_credential (c : CredentialProvider) (ns : string) (rs : resolvedService) (account : string) (i : injection) : Prop :=
  match Kind (auth rs) with
  | AuthBearer => ∃ s, stored_secret c ns (SecretKey (auth rs)) account s ∧ i = InBearer s
  | AuthHeader => ∃ s, stored_secret c ns (SecretKey (auth rs)) account s ∧ i = InHeader (AHeader (auth rs)) s
  | AuthQuery => ∃ s, stored_secret c ns (SecretKey (auth rs)) account s ∧ i = InQuery (AQuery (auth rs)) s
  | AuthBasic =>
      ∃ user s, stored_secret c ns (SecretKey (auth rs)) account s ∧ i = InBasic user s ∧
        (UsernameSecretKey (auth rs) = "" ∧ user = Username (auth rs) ∨
         UsernameSecretKey (auth rs) ≠ "" ∧ stored_secret c ns (UsernameSecretKey (auth rs)) account user ∧
         (":"%char ∉ String.list_ascii_of_string user))
  | AuthOAuth2 => ∃ source s, oauth c = Some source ∧ source ns (Provider (auth rs)) account = Some s ∧ i = InBearer s
  | AuthOther _ => False
  end.

Lemma stored_secret_spec c ns key account s : lookup_secret c ns (accountSecretKey key account) = Some s ↔ stored_secret c ns key account s.
Proof.
  unfold lookup_secret, stored_secret, accountSecretKey, secret_name. destruct (resolver c) as [store|]; [|naive_solver]. cbn.
  destruct (str_empty account) eqn:He; [apply bool_decide_eq_true in He|apply bool_decide_eq_false in He]; naive_solver.
Qed.
Lemma has_colon_iff s : has_colon s = false ↔ ":"%char ∉ String.list_ascii_of_string s.
Proof.
  unfold has_colon. rewrite bool_decide_eq_false. destruct (split_char_cons ":" s) as (p & [|q qs] & Hs); rewrite Hs.
  - apply split_char_one in Hs as [_ ?]. cbn. naive_solver.
  - apply split_char_cons_iff in Hs as (t & -> & _). cbn. split; [intros Hn; by destruct Hn|]. intros Hn. destruct Hn. clear. induction p; cbn; set_solver.
Qed.
Lemma BaseURLFor_spec c ns name account base :
  BaseURLFor c ns name account = Some base ↔ ∃ rs, services c !! name = Some rs ∧ service_url c ns rs account base.
Proof.
  unfold BaseURLFor, service_url. destruct (services c !! name) as [rs|]; [|naive_solver]. cbn.
  destruct (baseURL rs) as [u|key] eqn:Hb; [split; [intros [= <-]; exists rs; by rewrite Hb|intros (? & [= <-] & Hx); rewrite Hb in Hx; by subst]|].
  assert (∀ P, (∃ rs0, Some rs = Some rs0 ∧ P rs0) ↔ P rs) as -> by naive_solver. rewrite Hb. setoid_rewrite <- stored_secret_spec.
  destruct (lookup_secret _ _ _) as [raw|]; cbn; [|naive_solver]. unfold ValidateBaseURL.
  destruct (parse_url raw) as [u|] eqn:Hu; [|naive_solver]. unfold str_empty.
  match goal with |- context [if ?b then _ else _] => destruct b eqn:Hv end.
  - rewrite !andb_true_iff, !negb_true_iff, !orb_false_iff, !orb_true_iff, !negb_false_iff, !bool_decide_eq_false, !bool_decide_eq_true in Hv. naive_solver.
  - split; [done|]. intros (? & [= <-] & Heq & Hh & Hq & Hf & Hs). rewrite Hu in Heq. injection Heq as <-. exfalso. revert Hv.
    rewrite Hq, Hf. rewrite !(bool_decide_true ("" = "")), (bool_decide_false (UHost u = "")) by done. cbn.
    destruct Hs as [-> |[-> ->]]; done.
Qed.
Lemma resolveUsername_spec c ns account rs user :
  resolveUsername c ns account rs = Some user ↔
  UsernameSecretKey (auth rs) = "" ∧ user = Username (auth rs) ∨
  UsernameSecretKey (auth rs) ≠ "" ∧ stored_secret c ns (UsernameSecretKey (auth rs)) account user ∧ (":"%char ∉ String.list_ascii_of_string user).
Proof.
  unfold resolveUsername. destruct (str_empty _) eqn:He; [apply bool_decide_eq_true in He|apply bool_decide_eq_false in He]; [naive_solver|].
  rewrite <- stored_secret_spec, <- has_colon_iff. destruct (lookup_secret _ _ _) as [u|]; cbn.
  - destruct (has_colon u) eqn:Hu; split; [done| |intros [= <-]; auto|].
    + intros [[? _]|(_ & [= <-] & ?)]; congruence.
    + intros [[? _]|(_ & [= <-] & _)]; congruence.
  - split; [done|]. intros [[? _]|(_ & ? & _)]; congruence.
Qed.
Lemma Inject_spec c ns name account i :
  Inject c ns name account = Some i ↔ ∃ rs, services c !! name = Some rs ∧ service_credential c ns rs account i.
Proof.
  unfold Inject, service_credential. destruct (services c !! name) as [rs|]; [|naive_solver].
  assert (∀ P, (∃ rs0, Some rs = Some rs0 ∧ P rs0) ↔ P rs) as -> by naive_solver. cbn.
  destruct (Kind (auth rs)); [|setoid_rewrite <- resolveUsername_spec|..];
    try (setoid_rewrite <- stored_secret_spec; destruct (lookup_secret _ _ _); naive_solver).
  - setoid_rewrite <- stored_secret_spec. destruct (lookup_secret _ _ _) as [s|]; cbn; [|naive_solver].
    destruct (resolveUsername _ _ _ _); naive_solver.
  - unfold oauth_token. destruct (oauth c) as [source|]; cbn; [|naive_solver].
    destruct (source _ _ _) as [t|] eqn:Ht; cbn; split; try done; [intros [= <-]; eauto|..]; intros (? & s & [= <-] & Hs & ->); congruence.
  - split; done.
Qed.
Lemma api_Resolve_spec c ns name account : api_Resolve c ns name account = true ↔ is_Some (Inject c ns name account).
Proof.
  unfold api_Resolve, Inject. destruct (services c !! name) as [rs|]; [|naive_solver]. cbn.
  destruct (Kind (auth rs)); rewrite ?fmap_is_Some, ?andb_true_iff, ?bool_decide_eq_true; [done| |done|done|done|naive_solver].
  unfold api_Configured, lookup_secret. destruct (resolver c) as [store|]; cbn; [|naive_solver].
  destruct (store _ _); cbn; [|naive_solver]. destruct (resolveUsername _ _ _ _); cbn; naive_solver.
Qed.


(** Two providers that hold the same secrets of a namespace. *)
Definition agree (ns : string) (c c' : CredentialProvider) : Prop :=
  services c = services c' ∧
  match resolver c, resolver c' with None, None => True | Some f, Some g => ∀ key, f ns key = g ns key | _, _ => False end ∧
  match oauth c, oauth c' with None, None => True | Some f, Some g => ∀ provider account, f ns provider account = g ns provider account | _, _ => False end.
Lemma agree_secret ns c c' key : agree ns c c' → lookup_secret c ns key = lookup_secret c' ns key.
Proof. intros (_ & Hs & _). unfold lookup_secret. by destruct (resolver c), (resolver c'); cbn. Qed.
Lemma agree_configured ns c c' : agree ns c c' → api_Configured c = api_Configured c'.
Proof. intros (_ & Hs & _). unfold api_Configured. by destruct (resolver c), (resolver c'). Qed.
Lemma agree_oauth ns c c' rs account : agree ns c c' → oauth_token c ns account rs = oauth_token c' ns account rs.
Proof. intros (_ & _ & Ho). unfold oauth_token. by destruct (oauth c), (oauth c'); cbn. Qed.
Lemma agree_username ns c c' account rs : agree ns c c' → resolveUsername c ns account rs = resolveUsername c' ns account rs.
Proof. intros Ha. unfold resolveUsername. by rewrite (agree_secret _ _ _ _ Ha). Qed.
Lemma agree_base ns c c' name account : agree ns c c' → BaseURLFor c ns name account = BaseURLFor c' ns name account.
Proof.
  intros Ha. unfold BaseURLFor. rewrite (proj1 Ha). destruct (services c' !! name) as [rs|]; [|done]. cbn.
  destruct (baseURL rs); [done|]. by rewrite (agree_secret _ _ _ _ Ha).
Qed.
Lemma agree_resolve ns c c' name account : agree ns c c' → api_Resolve c ns name account = api_Resolve c' ns name account.
Proof.
  intros Ha. unfold api_Resolve. rewrite (proj1 Ha). destruct (services c' !! name) as [rs|]; [|done].
  by rewrite (agree_secret _ _ _ _ Ha), (agree_oauth _ _ _ _ _ Ha), (agree_configured _ _ _ Ha), (agree_username _ _ _ _ _ Ha).
Qed.
Lemma agree_inject ns c c' name account : agree ns c c' → Inject c ns name account = Inject c' ns name account.
Proof.
  intros Ha. unfold Inject. rewrite (proj1 Ha). destruct (services c' !! name) as [rs|]; [|done]. cbn.
  by rewrite (agree_secret _ _ _ _ Ha), (agree_oauth _ _ _ _ _ Ha), (agree_username _ _ _ _ _ Ha).
Qed.

End gateway_claims.

(** ** Redirects stay where the policy says *)
Definition contacted (fo : followed) : list URL := match fo with FoKeep => [] | FoReject l => l | FoReplace l _ => l end.
(** A pattern is a host, or *. and what follows some dot of the host; both are
    compared in lower case. *)
Definition names_host (pattern host : string) : Prop :=
  (∃ rest sub, pattern = "*." +:+ rest ∧ host = sub +:+ "." +:+ rest) ∨ host = pattern ∧ ∀ rest, pattern ≠ "*." +:+ rest.
(** What the policy of a service lets through. *)
Definition redirect_target (hosts : list string) (u : URL) : Prop :=
  UScheme u = "https" ∧ UUser u = false ∧ UFragment u = "" ∧ (UPort u = "" ∨ UPort u = "443") ∧
  ∃ pattern, pattern ∈ hosts ∧ names_host (ToLower pattern) (ToLower (UHostname u)).
Definition redirect_codes : list Z := [301; 302; 303; 307; 308].
Lemma host_matches_iff host pattern : host_matches host pattern = true ↔ names_host (ToLower pattern) host.
Proof.
  unfold host_matches, names_host. destruct (strip_prefix "*." (ToLower pattern)) as [rest|] eqn:Hp.
  - apply strip_prefix_app in Hp. rewrite Hp. change (str_tail ("*." +:+ rest)) with ("." +:+ rest). rewrite HasSuffix_true. split.
    + intros [sub ->]. left. eauto.
    + intros [(rest' & sub & Heq & ->)|[_ Hn]]; [injection Heq as Heq; change (rest = rest') in Heq; subst rest'; eauto|by destruct (Hn rest)].
  - assert (∀ rest, ToLower pattern ≠ "*." +:+ rest) as Hn by (intros rest Heq; rewrite Heq, strip_prefix_of in Hp; done).
    rewrite bool_decide_eq_true. split; [by right|]. intros [(rest & sub & Heq & _)|[? _]]; [by destruct (Hn rest)|done].
Qed.
Lemma RedirectPolicy_allows_iff hosts u : RedirectPolicy_allows hosts u = true ↔ redirect_target hosts u.
Proof.
  unfold RedirectPolicy_allows, redirect_target, str_empty. rewrite !andb_true_iff, negb_true_iff, orb_true_iff, !bool_decide_eq_true, existsb_exists.
  setoid_rewrite host_matches_iff. setoid_rewrite list_elem_of_In. intuition.
Qed.
Definition replaced_ok (head : bool) (fo : followed) : Prop :=
  ∀ l resp, fo = FoReplace l resp → (RsStatus resp ∉ 101 :: redirect_codes) ∧ (head = false → RsLength resp ≤ 512 * 1024 * 1024).
(** Each request goes where the answer before it points. *)
Fixpoint chained (transport : URL → option response) (current : response) (l : list URL) : Prop :=
  match l with
  | [] => True
  | u :: l =>
      RsStatus current ∈ redirect_codes ∧ RsLocation current = Some u ∧
      match transport u with Some next => chained transport next l | None => l = [] end
  end.
Lemma follow_from_ok hops hosts head transport : ∀ l current, RsStatus current ∈ redirect_codes →
  let fo := follow_from hops hosts head transport l current in
  ∃ l', contacted fo = l ++ l' ∧ chained transport current l' ∧ Forall (redirect_target hosts) l' ∧ (length l' ≤ hops)%nat ∧ replaced_ok head fo.
Proof.
  induction hops as [|hops IH]; intros l current Hst; cbn [follow_from]; destruct (RsLocation current) as [target|] eqn:Hloc;
    try (exists []; cbn; rewrite app_nil_r; split_and!; [done|done|constructor|lia|by intros ?]).
  destruct (RedirectPolicy_allows hosts target) eqn:Ha; cbn [negb];
    [|exists []; cbn; rewrite app_nil_r; split_and!; [done|done|constructor|lia|by intros ?]].
  apply RedirectPolicy_allows_iff in Ha. destruct (transport target) as [next|] eqn:Ht.
  2: { exists [target]. cbn. rewrite Ht. split_and!; [done|done|done|done|by constructor|lia|by intros ?]. }
  unfold redirectStatus. case_bool_decide as Hr.
  - destruct (IH (l ++ [target]) next Hr) as (l' & H1 & H2 & H3 & H4 & H5). exists (target :: l'). rewrite H1, <- app_assoc. cbn. rewrite Ht.
    split_and!; [done|done|done|done|by constructor|lia|done].
  - destruct (bool_decide (RsStatus next = 101) || _) eqn:Hb; exists [target]; cbn; rewrite Ht; split_and!; try done; try (by constructor); try lia.
    intros ? ? [= <- <-]. apply orb_false_iff in Hb as [H101%bool_decide_eq_false Hb]. split; [by apply not_elem_of_cons|].
    intros ->. cbn in Hb. unfold maxRedirectBytes in Hb. apply Z.ltb_ge in Hb. exact Hb.
Qed.
(** C26.  A redirect is followed only where the service's policy allows: requests
    are made only for a GET or HEAD that was answered with 301, 302, 303, 307 or
    308, at most three, each to the Location of the answer before it, which is
    https, on the standard port, without user information and fragment, and of a
    host that is listed by the service or ends in . and a name the service lists
    after *. (case does not count).  The answer that takes the place of the
    redirect is neither one of these redirects nor a 101 and, for methods other
    than HEAD, announces at most 512 MiB.  A service without a policy follows
    nothing. *)
Theorem redirects_stay_allowed c service method transport resp :
  let fo := followRedirect c service method transport resp in
  (length (contacted fo) ≤ 3)%nat ∧ chained transport resp (contacted fo) ∧
  Forall (λ u, ∃ c0 rs, c = Some c0 ∧ services c0 !! service = Some rs ∧ redirect_target (redirects rs) u) (contacted fo) ∧
  (contacted fo ≠ [] → method = "GET" ∨ method = "HEAD") ∧ replaced_ok (bool_decide (method = "HEAD")) fo.
Proof.
  assert (∀ P Q : Prop, (length (@nil URL) ≤ 3)%nat ∧ chained transport resp [] ∧ Forall (λ _ : URL, P) [] ∧ ([] ≠ @nil URL → Q) ∧
    replaced_ok (bool_decide (method = "HEAD")) FoKeep) as Hkeep by (intros P Q; cbn; split_and!; [lia|done|constructor|done|by intros ?]).
  unfold followRedirect. destruct c as [c|]; [|destruct (Hkeep True False) as (? & ? & _ & _ & ?); cbn; split_and!; try done; constructor].
  destruct (services c !! service) as [rs|] eqn:Hs; cbv zeta;
    [|rewrite bool_decide_true by done; destruct (Hkeep True False) as (? & ? & _ & _ & ?); cbn; split_and!; try done; constructor].
  destruct (bool_decide (redirects rs = []) || _ || _) eqn:Hk;
    [destruct (Hkeep True False) as (? & ? & _ & _ & ?); cbn; split_and!; try done; constructor|].
  apply orb_false_iff in Hk as [[_ Hm%negb_false_iff]%orb_false_iff Hr%negb_false_iff]. unfold redirectStatus in Hr. apply bool_decide_eq_true in Hr.
  destruct (follow_from_ok 3 (redirects rs) (bool_decide (method = "HEAD")) transport [] resp Hr) as (l & Hl & Hc & Hf & Hn & Hrep).
  rewrite Hl. cbn [app]. split_and!; [done|done| | |done].
  - eapply Forall_impl; [exact Hf|]. intros u Hu. exists c, rs. done.
  - intros _. unfold isSafeMethod in Hm. by rewrite orb_true_iff, !bool_decide_eq_true in Hm.
Qed.

(** The bytes a body delivers: nothing after an error. *)
Fixpoint delivered (remaining : Z) (reads : list (Z * read_result)) : Z :=
  match reads with
  | [] => 0
  | (n, err) :: reads =>
      let '(k, remaining, err) := redirect_read remaining n err in
      k + match err with RdOk => delivered remaining reads | _ => 0 end
  end.
Lemma delivered_bound remaining reads : 0 ≤ remaining → Forall (λ r, 0 ≤ r.1) reads → 0 ≤ delivered remaining reads ≤ remaining.
Proof.
  intros Hr Hn. revert remaining Hr. induction Hn as [|[n err] reads Hn _ IH]; intros remaining Hr; cbn; [lia|]. cbn in Hn.
  unfold redirect_read. destruct (Z.ltb_spec remaining n); [cbn; lia|]. cbn. specialize (IH (remaining - n) ltac:(lia)). destruct err; lia.
Qed.

(** ** Addresses *)
Definition addr4 (a b c d : Z) : Z := ((a * 256 + b) * 256 + c) * 256 + d.
Definition is_byte (a : Z) : Prop := 0 ≤ a < 256.
Lemma byte_land m x a : is_byte a →
  forallb (λ n, Bool.eqb (Z.land n m =? x) ((x <=? n) && (n <=? x + (255 - m)))) (seqZ 0 256) = true →
  Z.land a m = x ↔ x ≤ a ≤ x + (255 - m).
Proof.
  intros Ha Hall. rewrite forallb_forall in Hall. specialize (Hall a). apply eqb_prop in Hall; [|apply list_elem_of_In, elem_of_seqZ; unfold is_byte in Ha; lia].
  rewrite <- Z.eqb_eq, Hall, andb_true_iff, !Z.leb_le. done.
Qed.
Section ranges.
Context (a b c d : Z) (Ha : is_byte a) (Hb : is_byte b) (Hc : is_byte c) (Hd : is_byte d).
Ltac bytes := unfold addr4, is_byte in *; lia.
Lemma addr4_zero : addr4 a b c d = 0 ↔ a = 0 ∧ b = 0 ∧ c = 0 ∧ d = 0.
Proof using Ha Hb Hc Hd. bytes. Qed.
Lemma addr4_ones : addr4 a b c d = addr4 255 255 255 255 ↔ a = 255 ∧ b = 255 ∧ c = 255 ∧ d = 255.
Proof using Ha Hb Hc Hd. bytes. Qed.
Lemma addr4_net8 x y : is_byte x → is_byte y → addr4 x 0 0 0 ≤ addr4 a b c d ≤ addr4 y 255 255 255 ↔ x ≤ a ≤ y.
Proof using Ha Hb Hc Hd. bytes. Qed.
Lemma addr4_net16 x y z :
  is_byte x → is_byte y → is_byte z → addr4 x y 0 0 ≤ addr4 a b c d ≤ addr4 x z 255 255 ↔ a = x ∧ y ≤ b ≤ z.
Proof using Ha Hb Hc Hd. bytes. Qed.
End ranges.
Lemma one_value (x y : Z) : y ≤ x ≤ y ↔ x = y.
Proof. lia. Qed.
Definition mapped4 (a : ip) : ip := [0; 0; 0; 0; 0; 0; 0; 0; 0; 0; 255; 255] ++ a.
Lemma mapped_same a b c d : publicRedirectIP (mapped4 [a; b; c; d]) = publicRedirectIP [a; b; c; d].
Proof.
  assert (To4 (mapped4 [a; b; c; d]) = Some [a; b; c; d]) as Hm by done. assert (To4 [a; b; c; d] = Some [a; b; c; d]) as H4 by done.
  unfold publicRedirectIP, IsGlobalUnicast, IsUnspecified, IsLoopback, IsMulticast, IsLinkLocalUnicast, IsPrivate, shared_network.
  rewrite Hm, H4. rewrite (bool_decide_false (mapped4 [a; b; c; d] = repeat 0 16)), (bool_decide_false ([a; b; c; d] = repeat 0 16)) by done. done.
Qed.

(** ** What leaves through the proxy *)

(** A name without dots and colons that is none of boid's own. *)
Definition bare_name (host : string) : Prop :=
  host ≠ "" ∧ has_char "." host = false ∧ has_char ":" host = false ∧ ToLower host ∉ ["localhost"; "boid-broker"; "boid-gateway"; "boid-egress"].
Lemma isRefusedDotlessTarget_iff host : isRefusedDotlessTarget host = true ↔ bare_name host.
Proof.
  unfold isRefusedDotlessTarget, bare_name, str_empty. case_bool_decide as He; [by split; [done|intros (? & _)]|].
  destruct (has_char "." host), (has_char ":" host); cbn [orb]; try (split; [done|by intros (_ & ? & ? & _)]).
  rewrite negb_true_iff, bool_decide_eq_false. naive_solver.
Qed.
(** The entry is the domain, or a suffix of it that starts with a dot, or such a
    suffix without its dot. *)
Definition allows_domain (d domain : string) : Prop :=
  ToLower d = ToLower domain ∧ strip_prefix "." (ToLower d) = None ∨
  ∃ rest, strip_prefix "." (ToLower d) = Some rest ∧ (ToLower domain = rest ∨ ∃ sub, ToLower domain = sub +:+ ToLower d).
Lemma isDomainAllowed_iff allowed domain : isDomainAllowed allowed domain = true ↔ ∃ d, d ∈ allowed ∧ allows_domain d domain.
Proof.
  unfold isDomainAllowed. rewrite existsb_exists. setoid_rewrite <- list_elem_of_In. apply exist_proper. intros d. apply and_iff_compat_l.
  unfold domain_matches, allows_domain. destruct (strip_prefix "." (ToLower d)) as [rest|].
  - rewrite orb_true_iff, HasSuffix_true, bool_decide_eq_true. naive_solver.
  - rewrite bool_decide_eq_true. naive_solver.
Qed.

(** A tunnel is opened exactly to the hosts of the allow list, and never to a
    bare name, the names of other workspaces' containers, whatever the allow
    list says; a plain request is decided in the same way. *)
Theorem egress_is_filtered split_host allowed rhost u :
  let host := default rhost (split_host rhost) in
  (handleConnect split_host allowed rhost = EgDial rhost ↔ ¬ bare_name host ∧ ∃ d, d ∈ allowed ∧ allows_domain d host) ∧
  (handleHTTP allowed u = EgDial (UHost u) ↔ UHost u ≠ "" ∧ ¬ bare_name (UHostname u) ∧ ∃ d, d ∈ allowed ∧ allows_domain d (UHostname u)) ∧
  (bare_name host → handleConnect split_host allowed rhost = EgRefuse 502).
Proof.
  cbv zeta. unfold handleConnect, handleHTTP. rewrite <- !isDomainAllowed_iff, <- !isRefusedDotlessTarget_iff.
  set (host := default rhost (split_host rhost)). unfold str_empty.
  split_and!.
  - destruct (isRefusedDotlessTarget host), (isDomainAllowed allowed host); naive_solver.
  - case_bool_decide; [naive_solver|]. destruct (isRefusedDotlessTarget (UHostname u)), (isDomainAllowed allowed (UHostname u)); naive_solver.
  - by intros ->.
Qed.

(** ** Samples *)
Definition sample_url (host path : string) : URL :=
  {| UScheme := "https"; UHost := host; UHostname := host; UPort := ""; UUser := false; UPath := path; URawQuery := ""; UFragment := "" |}.
Definition sample_urls : UrlEnv :=
  {| parse_url := λ s, if bool_decide (s = "https://api.example.com/v1/") then Some (sample_url "api.example.com" "/v1/") else None |}.
Definition bearer (key : string) : ServiceAuth :=
  {| Kind := AuthBearer; SecretKey := key; Username := ""; AHeader := ""; AQuery := ""; Provider := ""; UsernameSecretKey := "" |}.
Definition sample_service (name : string) : ServiceConfig :=
  {| ScRedirects := ["*.cdn.example.com"]; ScName := name; BaseURL := "https://api.example.com/v1/"; ScAuth := bearer "key"; BaseURLSecretKey := "";
     AllowInsecure := false; AllowReadOnlyWrite := false; RequireAccount := false |}.
Definition sample_secrets (others : string) : string → string → option string := λ ns key,
  if bool_decide (ns = "w") then (if bool_decide (key = "key@main") then Some "s3cret" else None) else Some others.
Definition sample_provider (others : string) : CredentialProvider :=
  api_NewCredentialProvider (H := sample_urls) [sample_service "tickets"] (Some (sample_secrets others)).
Definition sample_tokens : api_registry := api_RegisterToken "tok" ["tickets"; ""] "w" "task-1" true ∅.
Definition sample_get (method path : string) : ApiRequest :=
  {| RqMethod := method; RqEscapedPath := path; RqRawQuery := "q=1"; RqHeader := {["Authorization" := ["mine"]; "Accept" := ["text/html"]]} |}.
Definition sample_forward : api_forward :=
  {| AfScheme := "https"; AfHost := "api.example.com"; AfPath := "/v1/issues/a%2Fb"; AfQuery := "q=1"; AfHeader := {["Accept" := ["text/html"]]};
     AfAuth := InBearer "s3cret" |}.

Example issue_is_fetched :
  api_ServeHTTP (H := sample_urls) sample_tokens (Some (sample_provider "x")) (sample_provider "x") (sample_get "GET" "/api/tok/tickets@main/issues/a%2Fb")
  = AForward sample_forward.
Proof. vm_compute. reflexivity. Qed.
Example encoded_traversal_is_refused :
  api_ServeHTTP (H := sample_urls) sample_tokens (Some (sample_provider "x")) (sample_provider "x") (sample_get "GET" "/api/tok/tickets@main/a%2f%2e%2e%2fb")
  = ARefuse 404 None false.
Proof. vm_compute. reflexivity. Qed.
Example read_only_token_does_not_post :
  api_ServeHTTP (H := sample_urls) sample_tokens (Some (sample_provider "x")) (sample_provider "x") (sample_get "POST" "/api/tok/tickets@main/issues")
  = ARefuse 403 (Some {| AuTask := "task-1"; AuMethod := "POST"; AuService := "tickets@main"; AuPath := "/issues"; AuStatus := 403 |}) false.
Proof. vm_compute. reflexivity. Qed.
Example account_is_not_defaulted :
  api_ServeHTTP (H := sample_urls) sample_tokens (Some (sample_provider "x")) (sample_provider "x") (sample_get "GET" "/api/tok/tickets/issues")
  = ARefuse 502 (Some {| AuTask := "task-1"; AuMethod := "GET"; AuService := "tickets"; AuPath := "/issues"; AuStatus := 502 |}) true.
Proof. vm_compute. reflexivity. Qed.
Example discovery_lists_the_services :
  api_ServeHTTP (H := sample_urls) sample_tokens (Some (sample_provider "x")) (sample_provider "x") (sample_get "GET" "/api/tok/")
  = ADiscovery true [("tickets", false)].
Proof. vm_compute. reflexivity. Qed.
(** The discovery route takes the token as it is written, the others decode it. *)
Example escaped_token_is_not_discovered :
  api_ServeHTTP (H := sample_urls) sample_tokens (Some (sample_provider "x")) (sample_provider "x") (sample_get "GET" "/api/%74ok") = ARefuse 401 None false ∧
  api_ServeHTTP (H := sample_urls) sample_tokens (Some (sample_provider "x")) (sample_provider "x") (sample_get "GET" "/api/%74ok/tickets@main/issues/a%2Fb")
  = AForward sample_forward.
Proof. split; vm_compute; reflexivity. Qed.
(** A dot at the end makes the name of a container a dotted one. *)
Example trailing_dot_is_dialled : handleConnect (λ _, Some "sib-b.") ["sib-b."] "sib-b.:80" = EgDial "sib-b.:80".
Proof. vm_compute. reflexivity. Qed.
Example one_redirect_is_followed :
  followRedirect (Some (sample_provider "x")) "tickets" "GET"
    (λ u, Some {| RsStatus := if bool_decide (UHostname u = "a.cdn.example.com") then 302 else 200; RsLocation := Some (sample_url "b.cdn.example.com" "/f"); RsLength := 3 |})
    {| RsStatus := 302; RsLocation := Some (sample_url "a.cdn.example.com" "/f"); RsLength := 0 |}
  = FoReplace [sample_url "a.cdn.example.com" "/f"; sample_url "b.cdn.example.com" "/f"]
      {| RsStatus := 200; RsLocation := Some (sample_url "b.cdn.example.com" "/f"); RsLength := 3 |}.
Proof. vm_compute. reflexivity. Qed.

Definition sample_route : api_route := {| ArToken := "tok"; ArService := "tickets"; ArAccount := "main"; ArPath := "/issues/a%2Fb" |}.
Lemma forwarded_paths_stay_below_witness :
  api_parsePath "/api/tok/tickets@main/issues/a%2Fb" = Ok sample_route ∧
  ∃ d, PathUnescape "/issues/a%2Fb" = Some d ∧ Forall (λ seg, seg ≠ "." ∧ seg ≠ "..") (split_slash d).
Proof.
  split; [vm_compute; reflexivity|].
  apply (forwarded_paths_stay_below "/api/tok/tickets@main/issues/a%2Fb" sample_route). vm_compute. reflexivity.
Defined.

Lemma sample_agree a b : agree "w" (sample_provider a) (sample_provider b).
Proof. split_and!; done. Qed.

