(* ===== verification/Auth.v ===== *)
(** * Authentication

    Models internal/api/auth (store.go, pairing.go, session_store.go,
    bearer_verifier.go, middleware.go, api_middleware.go,
    cli_token_middleware.go, csrf.go, loopback.go, ratelimit.go, registry.go)
    and the handlers that create and revoke devices
    (internal/api/device_auth.go, LoginHandler and WebManagementHandler of
    web.go, authenticateDevice of ws_attach.go).

    A device is paired with a one-time code, which a local command issues, and
    proves who it is afterwards with a signed cookie or a token of which only
    the hash is stored.  The state is the two tables, the limiter of guesses
    and the registry of open connections. *)
From S2P Require Import Prelude Json Payload Task Machine Lifecycle Coordinator Store CardDetail CardRequests CardDispatch TaskStore TaskRows CardWorkflow Workflow WorkSlot Sweeps Notify GitGateway ApiGateway.
Local Open Scope Z_scope.

(** crypto/sha256, crypto/hmac, crypto/rand, uuid.New and the parts of net
    that take addresses apart.  The n-th random value of each kind. *)
Class AuthEnv : Type := {
  sha256 : string → string;
  hmac_sha256 : string → string → string;
  random_token : nat → option string;
  random_index : nat → list nat;
  fresh_device : nat → string;
  SplitHostPort : string → option string;
  ParseIP : string → option ip;
  IP_String : ip → string;
}.

Inductive auth_err : Type :=
| ErrCodeNotFound
| ErrCodeExpired
| ErrCodeConsumed
| ErrDeviceNotFound
| ErrInvalidSession
| AInternal (what : string).

(** ** The tables *)
Record PairingCode : Type := { PLabel : string; PCreatedAt : Z; PExpiresAt : Z; PConsumedAt : option Z }.
Record Device : Type := {
  DLabel : string;
  CookieHash : option string;
  TokenHash : option string;
  DCreatedAt : Z;
  DLastSeenAt : Z;
  DRevokedAt : option Z;
}.
(** What the limiter keeps of an address; a zero time is [None]. *)
Record ipState : Type := { ip_attempts : list Z; lockedUntil : option Z }.
Record registry : Type := { entries : gmap string (gset nat); closed : gset nat; made : nat; panicked : bool }.

Record AuthDB : Type := {
  codes : gmap string PairingCode;
  devices : gmap string Device;
  limiter : gmap string ipState;
  conns : registry;
  (** [time.Now] and how much randomness was drawn *)
  wall : Z;
  drawn : nat;
}.
Definition set_codes (s : AuthDB) (m : gmap string PairingCode) : AuthDB :=
  {| codes := m; devices := devices s; limiter := limiter s; conns := conns s; wall := wall s; drawn := drawn s |}.
Definition set_devices (s : AuthDB) (m : gmap string Device) : AuthDB :=
  {| codes := codes s; devices := m; limiter := limiter s; conns := conns s; wall := wall s; drawn := drawn s |}.
Definition set_limiter (s : AuthDB) (m : gmap string ipState) : AuthDB :=
  {| codes := codes s; devices := devices s; limiter := m; conns := conns s; wall := wall s; drawn := drawn s |}.
Definition set_conns (s : AuthDB) (r : registry) : AuthDB :=
  {| codes := codes s; devices := devices s; limiter := limiter s; conns := r; wall := wall s; drawn := drawn s |}.
Definition set_wall (s : AuthDB) (t : Z) (n : nat) : AuthDB :=
  {| codes := codes s; devices := devices s; limiter := limiter s; conns := conns s; wall := t; drawn := n |}.
Abbreviation authm := (dbm AuthDB auth_err).
Definition draw : authm nat := λ s, (set_wall s (wall s) (S (drawn s)), inr (drawn s)).

Section store.
Context {E : AuthEnv}.

Definition InsertPairingCode (codeHash label : string) (expiresAt : Z) : authm unit :=
  taken ← gets (λ s, bool_decide (is_Some (codes s !! codeHash)));
  _ ← fail_if taken (AInternal "insert pairing code");
  modify (λ s, set_codes s (<[codeHash := {| PLabel := label; PCreatedAt := wall s; PExpiresAt := expiresAt; PConsumedAt := None |}]> (codes s))).
Definition consumed_at (t : Z) (c : PairingCode) : PairingCode :=
  {| PLabel := PLabel c; PCreatedAt := PCreatedAt c; PExpiresAt := PExpiresAt c; PConsumedAt := Some t |}.
Definition ConsumePairingCode (codeHash : string) : authm string := InTxDB (
  row ← gets (λ s, codes s !! codeHash);
  time ← gets wall;
  match row with
  | None => throw ErrCodeNotFound
  | Some c =>
      _ ← fail_if (bool_decide (is_Some (PConsumedAt c))) ErrCodeConsumed;
      _ ← fail_if (PExpiresAt c <? time) ErrCodeExpired;
      _ ← modify (λ s, set_codes s (<[codeHash := consumed_at time c]> (codes s)));
      mret (PLabel c)
  end).

Definition live (d : Device) : bool := bool_decide (DRevokedAt d = None).
Definition InsertDevice (id label cookieHash : string) : authm unit :=
  taken ← gets (λ s, bool_decide (is_Some (devices s !! id)));
  _ ← fail_if taken (AInternal "insert device");
  modify (λ s, set_devices s (<[id := {| DLabel := label; CookieHash := Some cookieHash; TokenHash := None; DCreatedAt := wall s;
                                         DLastSeenAt := wall s; DRevokedAt := None |}]> (devices s))).
(** The rows with a token; idx_web_devices_token_hash makes it at most one. *)
Definition by_token (h : string) (m : gmap string Device) : list (string * Device) :=
  filter (λ kv, TokenHash kv.2 = Some h) (map_to_list m).
Definition InsertDeviceToken (id label tokenHash : string) : authm unit :=
  taken ← gets (λ s, bool_decide (is_Some (devices s !! id)) || negb (bool_decide (by_token tokenHash (devices s) = [])));
  _ ← fail_if taken (AInternal "insert device token");
  modify (λ s, set_devices s (<[id := {| DLabel := label; CookieHash := None; TokenHash := Some tokenHash; DCreatedAt := wall s;
                                         DLastSeenAt := wall s; DRevokedAt := None |}]> (devices s))).
Definition GetDeviceByTokenHash (tokenHash : string) : authm (option (string * Device)) :=
  gets (λ s, head (filter (λ kv, live kv.2 = true) (by_token tokenHash (devices s)))).
Definition GetDevice (id : string) : authm (option Device) :=
  gets (λ s, d ← devices s !! id; if live d then Some d else None).
Definition seen_at (t : Z) (d : Device) : Device :=
  {| DLabel := DLabel d; CookieHash := CookieHash d; TokenHash := TokenHash d; DCreatedAt := DCreatedAt d; DLastSeenAt := t; DRevokedAt := DRevokedAt d |}.
Definition UpdateDeviceLastSeen (id : string) (t : Z) : authm unit :=
  modify (λ s, set_devices s (alter (seen_at t) id (devices s))).
Definition revoke (t : Z) (d : Device) : Device :=
  if live d
  then {| DLabel := DLabel d; CookieHash := CookieHash d; TokenHash := TokenHash d; DCreatedAt := DCreatedAt d; DLastSeenAt := DLastSeenAt d;
          DRevokedAt := Some t |}
  else d.
Definition store_RevokeDevice (id : string) : authm unit :=
  row ← gets (λ s, devices s !! id);
  match row with
  | Some _ => modify (λ s, set_devices s (alter (revoke (wall s)) id (devices s)))
  | None => throw ErrDeviceNotFound
  end.
Definition RevokeAllDevices : authm unit := modify (λ s, set_devices s (revoke (wall s) <$> devices s)).
Definition DeleteRevokedDevices (dryRun : bool) : authm nat :=
  n ← gets (λ s, size (filter (λ kv : string * Device, live kv.2 = false) (devices s)));
  if dryRun then mret n else _ ← modify (λ s, set_devices s (filter (λ kv, live kv.2 = true) (devices s))); mret n.
Definition HasAnyDevice : authm bool :=
  gets (λ s, negb (bool_decide (filter (λ kv : string * Device, live kv.2 = true) (devices s) = ∅))).
(** ORDER BY created_at; rows of the same time by id. *)
Definition older_le (a b : Z * string) : Prop := a.1 < b.1 ∨ (a.1 = b.1 ∧ String.le a.2 b.2).
#[export] Instance older_le_dec : RelDecision older_le.
Proof. intros a b. unfold older_le. apply _. Defined.
Definition ListDevices : authm (list (string * Device)) :=
  gets (λ s, omap (λ k, pair k.2 <$> devices s !! k.2)
                  (merge_sort older_le ((λ kv, (DCreatedAt kv.2, kv.1)) <$> map_to_list (devices s)))).

(** ** Pairing codes *)
Definition pairingCodeChars : string := "ABCDEFGHJKLMNPQRSTUVWXYZ23456789".
Definition code_char (i : nat) : ascii := default "A"%char (String.get i pairingCodeChars).
(** Eight draws as XXXX-XXXX. *)
Definition code_text (draws : list nat) : string :=
  let b := code_char <$> draws in String.string_of_list_ascii (take 4 b ++ "-"%char :: drop 4 b).
Definition GeneratePairingCode : authm string := n ← draw; mret (code_text (random_index n)).

(** The rune at the front of the text and how many bytes it has, as [range]
    over a string decodes them; U+FFFD for what is not UTF-8. *)
Definition in_range (lo hi b : N) : bool := ((lo <=? b) && (b <=? hi))%N.
Definition continues (b : N) : bool := in_range 128 191 b.
Definition decode_rune (l : list N) : N * nat :=
  match l with
  | b0 :: b1 :: b2 :: b3 :: _ =>
      if (b0 <? 128)%N then (b0, 1%nat)
      else if in_range 194 223 b0 && continues b1 then (64 * (b0 - 192) + (b1 - 128), 2%nat)%N
      else if (bool_decide (b0 = 224%N) && in_range 160 191 b1 || bool_decide (b0 = 237%N) && in_range 128 159 b1
               || (in_range 225 236 b0 || in_range 238 239 b0) && continues b1) && continues b2
      then (4096 * (b0 - 224) + 64 * (b1 - 128) + (b2 - 128), 3%nat)%N
      else if (bool_decide (b0 = 240%N) && in_range 144 191 b1 || bool_decide (b0 = 244%N) && in_range 128 143 b1
               || in_range 241 243 b0 && continues b1) && continues b2 && continues b3
      then (262144 * (b0 - 240) + 4096 * (b1 - 128) + 64 * (b2 - 128) + (b3 - 128), 4%nat)%N
      else (65533%N, 1%nat)
  | _ => (65533%N, 1%nat)
  end.
(** The last runes of a text are decoded with zeros after them, which continue
    nothing. *)
Fixpoint runes_from (skip : nat) (l : list N) : list N :=
  match l with
  | [] => []
  | b :: l' =>
      match skip with
      | O => let '(r, n) := decode_rune (b :: l' ++ [0; 0; 0]%N) in r :: runes_from (pred n) l'
      | S k => runes_from k l'
      end
  end.
Definition runes (s : string) : list N := runes_from 0 (N_of_ascii <$> String.list_ascii_of_string s).
Definition code_rune (r : N) : option ascii :=
  let r := if in_range 65281 65374 r then (r - 65248)%N else r in
  if in_range 97 122 r then Some (ascii_of_N (r - 32))
  else if in_range 65 90 r || in_range 48 57 r then Some (ascii_of_N r)
  else None.
Definition NormalizeCode (code : string) : string := String.string_of_list_ascii (omap code_rune (runes code)).
Definition HashCode (code : string) : string := sha256 (NormalizeCode code).

Definition minute : Z := 60 * 1000000000.
Definition pairing_Issue (label : string) : authm string :=
  code ← GeneratePairingCode;
  time ← gets wall;
  _ ← InsertPairingCode (HashCode code) label (time + 5 * minute);
  mret code.
Definition Redeem (code : string) : authm string := ConsumePairingCode (HashCode code).

(** ** Requests *)
Record Request : Type := {
  HrMethod : string;
  HrPath : string;
  HrHeader : gmap string (list string);
  HrCookies : list (string * string);
  (** the form of the body, [None] if it cannot be parsed *)
  HrForm : option (gmap string string);
  HrRemoteAddr : string;
}.
Definition header_values (r : Request) (k : string) : list string := default [] (HrHeader r !! k).
Definition header_get (r : Request) (k : string) : string := default "" (head (header_values r k)).
Definition cookie (r : Request) (name : string) : option string := snd <$> head (filter (λ c : string * string, c.1 = name) (HrCookies r)).
Definition FormValue (r : Request) (k : string) : string := default "" (HrForm r ≫= lookup k).

(** Keys as [CanonicalMIMEHeaderKey] has them. *)
Definition from_loopback (r : Request) : bool :=
  if negb (str_empty (header_get r "X-Forwarded-For")) || negb (str_empty (header_get r "Cf-Connecting-Ip"))
     || negb (str_empty (header_get r "Forwarded")) then false
  else
    let addr := HrRemoteAddr r in
    if str_empty addr || bool_decide (addr = "@") then true
    else match ParseIP (default addr (SplitHostPort addr)) with Some i => IsLoopback i | None => false end.
Definition peerIPForPublicEndpoint (r : Request) : string := default (HrRemoteAddr r) (SplitHostPort (HrRemoteAddr r)).
Fixpoint before_comma (s : string) : string :=
  match s with EmptyString => "" | String c s => if bool_decide (c = ","%char) then "" else String c (before_comma s) end.
Definition remoteIP (r : Request) : string :=
  match (if str_empty (TrimSpace (header_get r "Cf-Connecting-Ip")) then None else ParseIP (TrimSpace (header_get r "Cf-Connecting-Ip"))) with
  | Some i => IP_String i
  | None =>
      match (if str_empty (header_get r "X-Forwarded-For") then None else ParseIP (TrimSpace (before_comma (header_get r "X-Forwarded-For")))) with
      | Some i => IP_String i
      | None => peerIPForPublicEndpoint r
      end
  end.

(** ** Credentials *)
Definition is_blank (c : ascii) : bool := bool_decide (c = " "%char) || bool_decide (c = "009"%char).
(** Before and after the first blank. *)
Fixpoint cut_blank (s : string) : option (string * string) :=
  match s with
  | EmptyString => None
  | String c s => if is_blank c then Some ("", s) else '(a, b) ← cut_blank s; Some (String c a, b)
  end.
Fixpoint trim_blanks (s : string) : string := match s with String c s' => if is_blank c then trim_blanks s' else s | EmptyString => "" end.
Definition bearerScheme : string := "Bearer".
Definition EqualFold_bearer (s : string) : bool := bool_decide (fold_name s = fold_name bearerScheme).
(** The token, whether the header is there, whether it is usable. *)
Definition ExtractBearerToken (r : Request) : string * bool * bool :=
  match header_values r "Authorization" with
  | _ :: _ :: _ => ("", true, false)
  | [] => ("", false, false)
  | [h] =>
      if str_empty h then ("", false, false)
      else match cut_blank h with
           | None => if EqualFold_bearer h then ("", true, false) else ("", false, false)
           | Some (scheme, rest) =>
               if negb (EqualFold_bearer scheme) then ("", false, false)
               else let token := trim_blanks rest in if str_empty token then ("", true, false) else (token, true, true)
           end
  end.
Definition DeviceTokenPrefix : string := "boid_pat_".
Definition GenerateDeviceToken : authm string :=
  n ← draw; match random_token n with Some t => mret (DeviceTokenPrefix +:+ t) | None => throw (AInternal "generate device token") end.
Definition HashToken (token : string) : string := sha256 token.
Definition bearer_Verify (r : Request) : authm string :=
  let '(token, _, ok) := ExtractBearerToken r in
  _ ← fail_if (negb ok) ErrInvalidSession;
  device ← GetDeviceByTokenHash (HashToken token);
  match device with
  | None => throw ErrInvalidSession
  | Some (id, _) => time ← gets wall; _ ← UpdateDeviceLastSeen id time; mret id
  end.

Definition hex_nibble (n : N) : ascii := ascii_of_N (if n <? 10 then 48 + n else 87 + n)%N.
Definition hex (s : string) : string :=
  String.string_of_list_ascii (String.list_ascii_of_string s ≫= λ c, [hex_nibble (N_of_ascii c / 16); hex_nibble (N_of_ascii c mod 16)]%N).
Definition cookieName : string := "boid_session".
Definition mac (secret deviceID : string) : string := hex (hmac_sha256 secret deviceID).
Definition session_Issue (secret deviceID : string) : string := deviceID +:+ "." +:+ mac secret deviceID.
(** Around the last dot. *)
Fixpoint cut_last_dot (s : string) : option (string * string) :=
  match s with
  | EmptyString => None
  | String c s' =>
      match cut_last_dot s' with
      | Some (a, b) => Some (String c a, b)
      | None => if bool_decide (c = "."%char) then Some ("", s') else None
      end
  end.
Definition session_Verify (secret : string) (r : Request) : authm string :=
  match cookie r cookieName ≫= cut_last_dot with
  | None => throw ErrInvalidSession
  | Some (deviceID, sig) =>
      _ ← fail_if (negb (bool_decide (mac secret deviceID = sig))) ErrInvalidSession;
      device ← GetDevice deviceID;
      match device with
      | None => throw ErrInvalidSession
      | Some _ => time ← gets wall; _ ← UpdateDeviceLastSeen deviceID time; mret deviceID
      end
  end.

(** ** The limiter of guesses *)
Definition rateLimitWindow : Z := 5 * minute.
Definition rateLimitMax : nat := 5.
Definition rateLimitLockTime : Z := 15 * minute.
Definition ip_state (ip : string) (m : gmap string ipState) : ipState := default {| ip_attempts := []; lockedUntil := None |} (m !! ip).
Definition recent (now : Z) (l : list Z) : list Z := filter (λ t, now - rateLimitWindow < t) l.
Definition locked (now : Z) (st : ipState) : bool := match lockedUntil st with Some t => now <? t | None => false end.
Definition failed (now : Z) (st : ipState) : ipState :=
  let l := recent now (ip_attempts st) ++ [now] in
  {| ip_attempts := l; lockedUntil := if (rateLimitMax <=? length l)%nat then Some (now + rateLimitLockTime) else lockedUntil st |}.
Definition Allow (ip : string) : authm bool :=
  time ← gets wall;
  st ← gets (λ s, ip_state ip (limiter s));
  if locked time st then _ ← modify (λ s, set_limiter s (<[ip := st]> (limiter s))); mret false
  else
    let l := recent time (ip_attempts st) in
    if (rateLimitMax <=? length l)%nat
    then _ ← modify (λ s, set_limiter s (<[ip := {| ip_attempts := l; lockedUntil := Some (time + rateLimitLockTime) |}]> (limiter s))); mret false
    else _ ← modify (λ s, set_limiter s (<[ip := {| ip_attempts := l ++ [time]; lockedUntil := lockedUntil st |}]> (limiter s))); mret true.
Definition Allowed (ip : string) : authm bool :=
  gets (λ s, match limiter s !! ip with None => true | Some st => negb (locked (wall s) st) end).
Definition RecordFailure (ip : string) : authm unit :=
  modify (λ s, set_limiter s (<[ip := failed (wall s) (ip_state ip (limiter s))]> (limiter s))).

(** ** Open connections

    A channel is the number it was made with; closing a closed one panics. *)
Definition register_conn (deviceID : string) : authm nat := λ s,
  let r := conns s in
  (set_conns s {| entries := <[deviceID := {[made r]} ∪ default ∅ (entries r !! deviceID)]> (entries r); closed := closed r; made := S (made r);
                  panicked := panicked r |}, inr (made r)).
Definition release_conn (deviceID : string) (ch : nat) : authm unit :=
  modify (λ s, let r := conns s in
    match entries r !! deviceID with
    | Some chs =>
        let chs := chs ∖ {[ch]} in
        set_conns s {| entries := if bool_decide (chs = ∅) then delete deviceID (entries r) else <[deviceID := chs]> (entries r);
                       closed := closed r; made := made r; panicked := panicked r |}
    | None => s
    end).
Definition close_all (chs : gset nat) (r : registry) : registry :=
  {| entries := entries r; closed := chs ∪ closed r; made := made r; panicked := panicked r || negb (bool_decide (chs ## closed r)) |}.
Definition drop_entries (m : gmap string (gset nat)) (r : registry) : registry :=
  {| entries := m; closed := closed r; made := made r; panicked := panicked r |}.
Definition registry_RevokeDevice (deviceID : string) : authm unit :=
  modify (λ s, let r := conns s in set_conns s (close_all (default ∅ (entries r !! deviceID)) (drop_entries (delete deviceID (entries r)) r))).
Definition RevokeAll : authm unit :=
  modify (λ s, let r := conns s in
    set_conns s (foldr (λ kv r, close_all kv.2 r) (drop_entries ∅ r) (map_to_list (entries r)))).

(** ** Middleware

    What becomes of a request: it is handed on with what its context says, or
    answered. *)
Inductive AuthMethod : Type := AuthMethodBearer | AuthMethodCookie.
#[export] Instance AuthMethod_eq : EqDecision AuthMethod.
Proof. solve_decision. Defined.
Record context : Type := { CtxDevice : option (string * AuthMethod); CtxCLI : bool }.
Definition anonymous : context := {| CtxDevice := None; CtxCLI := false |}.
Definition as_device (id : string) (m : AuthMethod) (c : context) : context := {| CtxDevice := Some (id, m); CtxCLI := CtxCLI c |}.
Inductive verdict : Type := Pass (c : context) | Refuse (status : Z) | ToLogin (clear : bool).

Definition starts_with (p s : string) : bool := bool_decide (is_Some (strip_prefix p s)).
Definition apiAuthRequired (path : string) : bool :=
  starts_with "/api/" path && negb (bool_decide (path = "/api/health")) && negb (bool_decide (path = "/api/auth/device")).
Definition webAuthExempt (path : string) : bool := bool_decide (path = "/login") || starts_with "/auth" path || starts_with "/static/" path.
Definition present_bearer (r : Request) : bool := (ExtractBearerToken r).1.2.

(** A cookie, if there is a signer. *)
Definition verify_cookie (signer : option string) (r : Request) (c : context) (no : verdict) : authm verdict :=
  match signer with
  | None => mret no
  | Some secret =>
      v ← try_ (session_Verify secret r);
      match v with inl _ => mret no | inr id => mret (Pass (as_device id AuthMethodCookie c)) end
  end.
Definition bootstrap (r : Request) (c : context) (no : verdict) : authm verdict :=
  if from_loopback r then has ← HasAnyDevice; mret (if has : bool then no else Pass c) else mret no.

Definition TCPAPIAuth (signer : option string) (r : Request) : authm verdict :=
  if negb (apiAuthRequired (HrPath r)) then mret (Pass anonymous)
  else if present_bearer r then
    v ← try_ (bearer_Verify r);
    match v with inl _ => mret (Refuse 401) | inr id => mret (Pass (as_device id AuthMethodBearer anonymous)) end
  else match cookie r cookieName with
       | None => bootstrap r anonymous (Refuse 401)
       | Some _ => verify_cookie signer r anonymous (Refuse 401)
       end.
Definition WebAuth (signer : option string) (r : Request) (c : context) : authm verdict :=
  if webAuthExempt (HrPath r) then mret (Pass c)
  else match cookie r cookieName with
       | None => bootstrap r c (ToLogin false)
       | Some _ => verify_cookie signer r c (ToLogin (bool_decide (is_Some signer)))
       end.
(** Two hashes of the same length, compared in constant time. *)
Definition cliTokenEqual (a b : string) : bool := negb (str_empty a) && negb (str_empty b) && bool_decide (sha256 a = sha256 b).
Definition CLITokenAuth (token : string) (r : Request) : verdict :=
  if negb (apiAuthRequired (HrPath r)) then Pass anonymous
  else
    let '(got, present, ok) := ExtractBearerToken r in
    if negb present || negb ok || str_empty token || negb (cliTokenEqual got token) then Refuse 401
    else Pass {| CtxDevice := None; CtxCLI := true |}.

Definition csrfCookieName : string := "csrf_token".
Definition csrfExempt (r : Request) : bool := bool_decide (HrPath r = "/auth") || starts_with "/auth/" (HrPath r) || starts_with "/api/" (HrPath r).
Definition safe_method (m : string) : bool := bool_decide (m ∈ ["GET"; "HEAD"; "OPTIONS"; "TRACE"]).
Definition csrf_submitted (r : Request) : string :=
  let h := header_get r "X-Csrf-Token" in if str_empty h then FormValue r "_csrf" else h.
Definition CSRF (r : Request) (c : context) : verdict :=
  if csrfExempt r || safe_method (HrMethod r) then Pass c
  else match cookie r csrfCookieName with
       | None => Refuse 403
       | Some v => if str_empty v || str_empty (csrf_submitted r) || negb (bool_decide (csrf_submitted r = v)) then Refuse 403 else Pass c
       end.

(** What a request to a page of the web UI passes over TCP, in this order
    (wire.go). *)
Definition tcp_web (signer : option string) (r : Request) : authm verdict :=
  v ← TCPAPIAuth signer r;
  match v with
  | Pass c => match CSRF r c with Pass c => WebAuth signer r c | v => mret v end
  | v => mret v
  end.
(** The handshake of a terminal: the device, if there is one. *)
Definition authenticateDevice (r : Request) (c : context) : authm (option string) :=
  if CtxCLI c then mret (None : option string)
  else if present_bearer r then id ← bearer_Verify r; mret (Some id)
  else mret (match CtxDevice c with Some (id, _) => if str_empty id then None else Some id | None => None end).

(** ** Pairing, logging in and revoking *)
Inductive http_reply : Type :=
| Status (code : Z)
| RedirectTo (location : string)
| LoginPage (error : string)
(** a cookie is set, then a redirect to the root *)
| LoggedIn (deviceID cookie : string)
| Paired (deviceID token url : string)
| IssuedCode (code : string).

Definition redeemErrorKey (e : auth_err) : string :=
  match e with ErrCodeExpired => "expired" | ErrCodeConsumed => "used" | ErrCodeNotFound => "invalid" | _ => "error" end.
Definition isRedeemClientFault (e : auth_err) : bool :=
  match e with ErrCodeExpired | ErrCodeConsumed | ErrCodeNotFound => true | _ => false end.
Definition issueSession (signer : option string) (label : string) : authm http_reply :=
  match signer with
  | None => throw (AInternal "session signer not configured")
  | Some secret =>
      n ← draw;
      let deviceID := fresh_device n in
      _ ← InsertDevice deviceID label (sha256 deviceID);
      mret (LoggedIn deviceID (session_Issue secret deviceID))
  end.
(** A code is spent; [no] answers a refused one and [broken] an error after. *)
Definition redeem_session (signer : option string) (ip code : string) (no : auth_err → http_reply) (broken : http_reply) : authm http_reply :=
  ok ← Allowed ip;
  if negb ok then mret (Status 429)
  else
    v ← try_ (Redeem code);
    match v with
    | inl e => _ ← (if isRedeemClientFault e then RecordFailure ip else mret ()); mret (no e)
    | inr label => v ← try_ (issueSession signer label); match v with inl _ => mret broken | inr r => mret r end
    end.
Definition PostLogin (signer : option string) (r : Request) : authm http_reply :=
  redeem_session signer (remoteIP r) (FormValue r "code") (λ e, LoginPage (redeemErrorKey e)) (Status 500).
Definition PostAuth (signer : option string) (r : Request) : authm http_reply :=
  redeem_session signer (remoteIP r) (FormValue r "token") (λ e, RedirectTo ("/login?error=" +:+ redeemErrorKey e)) (RedirectTo "/login?error=error").

Record deviceAuthRequest : Type := { DaCode : string; DaDeviceName : string }.
Definition deviceAuthMaxCodeLen : nat := 64.
Definition deviceAuthMaxDeviceNameLen : nat := 256.
(** [canonical] is the origin the daemon answers as; [body] is the decoded
    body, [None] if there is none, it is not exactly one value of the
    expected shape or it is too long. *)
Definition PostDevice (canonical : string) (r : Request) (body : option deviceAuthRequest) : authm http_reply :=
  let ip := peerIPForPublicEndpoint r in
  ok ← Allowed ip;
  if negb ok then mret (Status 429)
  else if str_empty canonical then mret (Status 500)
  else match body with
  | None => mret (Status 400)
  | Some req =>
      let code := TrimSpace (DaCode req) in
      if str_empty code || (deviceAuthMaxCodeLen <? String.length code)%nat || (deviceAuthMaxDeviceNameLen <? String.length (DaDeviceName req))%nat
      then mret (Status 400)
      else
        t ← try_ GenerateDeviceToken;
        match t with
        | inl _ => mret (Status 500)
        | inr token =>
            v ← try_ (Redeem code);
            match v with
            | inl e => if isRedeemClientFault e then _ ← RecordFailure ip; mret (Status 401) else mret (Status 500)
            | inr label =>
                let name := TrimSpace (DaDeviceName req) in
                n ← draw;
                let deviceID := fresh_device n in
                v ← try_ (InsertDeviceToken deviceID (if str_empty name then label else name) (HashToken token));
                match v with inl _ => mret (Status 500) | inr _ => mret (Paired deviceID token canonical) end
            end
        end
  end.

Definition revoke_and_close (id : string) : authm http_reply :=
  v ← try_ (store_RevokeDevice id);
  match v with
  | inl ErrDeviceNotFound => mret (Status 404)
  | inl _ => mret (Status 500)
  | inr _ => _ ← registry_RevokeDevice id; mret (Status 204)
  end.
(** Over TCP: a device revokes itself. *)
Definition DeleteDevice (id : string) (c : context) : authm http_reply :=
  if bool_decide (CtxDevice c = Some (id, AuthMethodBearer)) && negb (str_empty id) then revoke_and_close id else mret (Status 403).
(** Over the socket: whoever is there revokes any. *)
Definition mgmt_DeleteDevice (id : string) : authm http_reply := revoke_and_close id.
Definition DeleteAllDevices : authm http_reply := _ ← RevokeAllDevices; _ ← RevokeAll; mret (Status 204).
Definition PostPair (label : string) : authm http_reply :=
  v ← try_ (pairing_Issue label); match v with inl _ => mret (Status 500) | inr code => mret (IssuedCode code) end.
Definition GetDevices : authm (list (string * Device)) := l ← ListDevices; mret (filter (λ kv, live kv.2 = true) l).
End store.
