(* ===== verification/AuthRuns.v ===== *)
(** * Runs of the authentication

    Theorems on Auth: the operations that change its state, as requests and
    local commands come in one after the other, how often a code can be
    guessed, who is let in, what a revocation takes away, and that a code pairs
    one device. *)
From S2P Require Import Prelude Json Payload Task Machine Lifecycle Coordinator Store CardDetail CardRequests CardDispatch TaskStore TaskRows CardWorkflow Workflow WorkSlot Sweeps Notify GitGateway ApiGateway Auth.
Local Open Scope Z_scope.

(** ** How often a code can be guessed *)

(** The refused guesses of one address so far, oldest first, against what the
    limiter keeps of it. *)
Record limits (h : list Z) (st : ipState) (now : Z) : Prop := {
  lim_past : ∀ t, t ∈ h → t ≤ default now (last h);
  lim_now : default now (last h) ≤ now;
  lim_recent : ip_attempts st = filter (λ t, default now (last h) - rateLimitWindow < t) h;
  lim_lock : (rateLimitMax ≤ length (ip_attempts st))%nat → lockedUntil st = Some (default now (last h) + rateLimitLockTime);
}.
Definition in_window (w t : Z) : Prop := w ≤ t < w + rateLimitWindow.
#[local] Instance within_dec w t : Decision (in_window w t).
Proof. unfold in_window. apply _. Defined.
Definition few (h : list Z) : Prop := ∀ w, (length (filter (in_window w) h) ≤ rateLimitMax)%nat.

Lemma limits_start now : limits [] {| ip_attempts := []; lockedUntil := None |} now.
Proof. split; cbn; [set_solver|lia|done|unfold rateLimitMax; lia]. Qed.
Lemma limits_later h st now now' : now ≤ now' → limits h st now → limits h st now'.
Proof.
  intros Hn [Hp Hl Hr Hk]. destruct (last h) as [l|] eqn:Hh; cbn in *; [split; rewrite Hh; cbn; auto; lia|].
  apply last_None in Hh as ->. destruct st as [a k]. cbn in *. subst a.
  split; cbn; [set_solver|lia|done|unfold rateLimitMax; lia].
Qed.

Lemma filter_weaker_length (P Q : Z → Prop) `{!∀ t, Decision (P t), !∀ t, Decision (Q t)} (l : list Z) :
  (∀ t, t ∈ l → P t → Q t) → (length (filter P l) ≤ length (filter Q l))%nat.
Proof.
  induction l as [|t l IH]; intros Hpq; [done|]. rewrite !filter_cons. specialize (IH ltac:(set_solver)).
  destruct (decide (P t)); [rewrite decide_True by set_solver; cbn; lia|]. destruct (decide (Q t)); cbn; lia.
Qed.

(** A guess that is let through. *)
Lemma limits_failed h st now : limits h st now → few h → locked now st = false → limits (h ++ [now]) (failed now st) now ∧ few (h ++ [now]).
Proof.
  intros [Hp Hl Hr Hk] Hf Hu. split.
  - assert (recent now (ip_attempts st) ++ [now] = filter (λ t, now - rateLimitWindow < t) (h ++ [now])) as Ha.
    { rewrite filter_app, (filter_cons_True _ now []) by (unfold rateLimitWindow, minute; lia). f_equal. unfold recent. rewrite Hr.
      rewrite list_filter_filter. apply list_filter_iff. intros t. lia. }
    split; rewrite ?last_snoc; cbn [from_option id].
    + intros t [Ht|Ht%list_elem_of_singleton]%elem_of_app; [|lia]. specialize (Hp _ Ht). lia.
    + lia.
    + exact Ha.
    + intros Hlen. unfold failed in *. cbn [lockedUntil ip_attempts] in *. by rewrite (proj2 (Nat.leb_le _ _) Hlen).
  - intros w. rewrite filter_app, length_app. destruct (decide (in_window w now)) as [Hw|Hw].
    + rewrite (filter_cons_True _ now []) by done. cbn.
      destruct (decide (rateLimitMax ≤ length (filter (in_window w) h))%nat) as [Hmany|]; [|lia]. exfalso.
      destruct (last h) as [l|] eqn:Hh; [|apply last_None in Hh as ->; cbn in Hmany; unfold rateLimitMax in Hmany; lia]. cbn in *.
      assert (lockedUntil st = Some (l + rateLimitLockTime)) as Hlock.
      { apply Hk. rewrite Hr. etransitivity; [exact Hmany|]. apply filter_weaker_length. unfold in_window in *. lia. }
      assert (∃ t, t ∈ filter (in_window w) h) as [t [Ht Hin]%list_elem_of_filter].
      { destruct (filter (in_window w) h) as [|t k]; [unfold rateLimitMax in Hmany; cbn in Hmany; lia|exists t; left]. }
      specialize (Hp _ Hin). unfold locked in Hu. rewrite Hlock in Hu. apply Z.ltb_ge in Hu.
      unfold in_window, rateLimitWindow, rateLimitLockTime, minute in *. lia.
    + rewrite (filter_cons_False _ now []) by done. cbn. specialize (Hf w). lia.
Qed.

(** ** Whatever happens to the daemon

    The operations that change the state, as requests and local commands come
    in.  A request over TCP passes the middleware first.  A terminal is two
    operations: the handshake, at which its device is verified, and, once the
    replay was sent, its registration, which may come at any later time (here even
    for a device that made no handshake). *)
Inductive operation : Type :=
| OpLogin (r : Request)
| OpAuth (r : Request)
| OpDevice (canonical : string) (r : Request) (body : option deviceAuthRequest)
| OpDelete (r : Request) (id : string)
| OpMgmtDelete (id : string)
| OpDeleteAll
| OpPair (label : string)
| OpPurge (dryRun : bool)
| OpWeb (r : Request)
| OpHandshake (r : Request)
| OpRegister (id : string)
| OpRelease (id : string) (ch : nat)
| OpTime (passed : nat).

Section runs.
Context {E : AuthEnv} (signer : option string).

Definition tcp_DeleteDevice (r : Request) (id : string) : authm http_reply :=
  v ← TCPAPIAuth signer r; match v with Pass c => DeleteDevice id c | _ => mret (Status 401) end.
(** The handshake of a terminal: the device it is let in for, if any. *)
Definition handshake (r : Request) : authm (option string) :=
  v ← TCPAPIAuth signer r; match v with Pass c => authenticateDevice r c | _ => mret None end.
Definition refused_code (rep : http_reply) : bool :=
  match rep with
  | LoginPage k => negb (bool_decide (k = "error"))
  | RedirectTo l => bool_decide (l ∈ ["/login?error=expired"; "/login?error=used"; "/login?error=invalid"])
  | Status c => c =? 401
  | _ => false
  end.
(** The state after it and, if a code was refused, whose guess it was and when. *)
Definition answered (ip : string) (m : authm http_reply) (s : AuthDB) : AuthDB * list (string * Z) :=
  let '(s', v) := m s in (s', match v with inr rep => if refused_code rep then [(ip, wall s)] else [] | inl _ => [] end).
Definition perform (op : operation) (s : AuthDB) : AuthDB * list (string * Z) :=
  match op with
  | OpLogin r => answered (remoteIP r) (PostLogin signer r) s
  | OpAuth r => answered (remoteIP r) (PostAuth signer r) s
  | OpDevice canonical r body => answered (peerIPForPublicEndpoint r) (PostDevice canonical r body) s
  | OpDelete r id => ((tcp_DeleteDevice r id s).1, [])
  | OpMgmtDelete id => ((mgmt_DeleteDevice id s).1, [])
  | OpDeleteAll => ((DeleteAllDevices s).1, [])
  | OpPair label => ((PostPair label s).1, [])
  | OpPurge dryRun => ((DeleteRevokedDevices dryRun s).1, [])
  | OpWeb r => ((tcp_web signer r s).1, [])
  | OpHandshake r => ((handshake r s).1, [])
  | OpRegister id => ((register_conn id s).1, [])
  | OpRelease id ch => ((release_conn id ch s).1, [])
  | OpTime passed => (set_wall s (wall s + Z.of_nat passed) (drawn s), [])
  end.
Fixpoint run (ops : list operation) (s : AuthDB) : AuthDB * list (string * Z) :=
  match ops with
  | [] => (s, [])
  | op :: ops => let '(s1, g) := perform op s in let '(s2, gs) := run ops s1 in (s2, g ++ gs)
  end.

Lemma run_steps (R : relation AuthDB) `{!Reflexive R, !Transitive R} : (∀ op s, R s (perform op s).1) → ∀ ops s, R s (run ops s).1.
Proof.
  intros HR ops. induction ops as [|op ops IH]; intros s; cbn [run]; [done|]. pose proof (HR op s) as H1. destruct (perform op s) as [s1 g].
  specialize (IH s1). destruct (run ops s1) as [s2 gs]. by etransitivity.
Qed.

(** *** Operations that do not touch the limiter *)
Definition calm (s s' : AuthDB) : Prop := limiter s' = limiter s ∧ wall s' = wall s.
#[local] Instance quiet_refl : Reflexive calm.
Proof. done. Qed.
#[local] Instance quiet_trans : Transitive calm.
Proof. intros a b c [H1 H2] [H3 H4]. split; congruence. Qed.
#[local] Hint Extern 1 (steps calm (modify _)) => (apply steps_modify; intros; split; reflexivity) : steps.
Lemma quiet_draw : steps calm draw.
Proof. done. Qed.
Lemma quiet_Register id : steps calm (register_conn id).
Proof. done. Qed.
Lemma quiet_release id ch : steps calm (release_conn id ch).
Proof. intros s. unfold release_conn, modify. cbn. by destruct (entries (conns s) !! id). Qed.
#[local] Hint Resolve quiet_draw quiet_Register quiet_release : steps.
Lemma quiet_redeem code : steps calm (Redeem code).
Proof. unfold Redeem, ConsumePairingCode. steps_tac. Qed.
Lemma quiet_session label : steps calm (issueSession signer label).
Proof. unfold issueSession, InsertDevice. steps_tac. Qed.
Lemma quiet_revoke id : steps calm (revoke_and_close id).
Proof. unfold revoke_and_close, store_RevokeDevice, registry_RevokeDevice. steps_tac. Qed.
Lemma quiet_cookie r c no : steps calm (verify_cookie signer r c no).
Proof. unfold verify_cookie, session_Verify, GetDevice, UpdateDeviceLastSeen. steps_tac. Qed.
Lemma quiet_bearer r : steps calm (bearer_Verify r).
Proof. unfold bearer_Verify, GetDeviceByTokenHash, UpdateDeviceLastSeen. steps_tac. Qed.
Lemma quiet_bootstrap r c no : steps calm (bootstrap r c no).
Proof. unfold bootstrap, HasAnyDevice. steps_tac. Qed.
#[local] Hint Resolve quiet_redeem quiet_session quiet_revoke quiet_cookie quiet_bearer quiet_bootstrap : steps.
Lemma quiet_tcp r : steps calm (TCPAPIAuth signer r).
Proof. unfold TCPAPIAuth. steps_tac. Qed.
#[local] Hint Resolve quiet_tcp : steps.

Lemma quiet_perform op s :
  match op with OpLogin _ | OpAuth _ | OpDevice _ _ _ | OpTime _ => True | _ => calm s (perform op s).1 ∧ (perform op s).2 = [] end.
Proof.
  destruct op; try exact I; cbn [perform fst snd]; (split; [|done]).
  - assert (steps calm (tcp_DeleteDevice r id)) as H; [unfold tcp_DeleteDevice, DeleteDevice; steps_tac|apply H].
  - apply (quiet_revoke id).
  - assert (steps calm DeleteAllDevices) as H; [unfold DeleteAllDevices, RevokeAllDevices, RevokeAll; steps_tac|apply H].
  - assert (steps calm (PostPair label)) as H; [unfold PostPair, pairing_Issue, GeneratePairingCode, InsertPairingCode; steps_tac|apply H].
  - assert (steps calm (DeleteRevokedDevices dryRun)) as H; [unfold DeleteRevokedDevices; steps_tac|apply H].
  - assert (steps calm (tcp_web signer r)) as H; [unfold tcp_web, WebAuth; steps_tac|apply H].
  - assert (steps calm (handshake r)) as H; [unfold handshake, authenticateDevice; steps_tac|apply H].
  - apply quiet_Register.
  - apply quiet_release.
Qed.

(** *** Guesses *)

(** A handler of codes either refuses a code and records it, for an address
    that is not locked out, or leaves the limiter alone. *)
Definition guessed (ip : string) (s : AuthDB) (res : AuthDB * list (string * Z)) : Prop :=
  wall res.1 = wall s ∧
  (res.2 = [] ∧ limiter res.1 = limiter s ∨
   res.2 = [(ip, wall s)] ∧ locked (wall s) (ip_state ip (limiter s)) = false ∧
     limiter res.1 = <[ip := failed (wall s) (ip_state ip (limiter s))]> (limiter s)).

Lemma guessed_reply ip s s' rep :
  calm s s' → refused_code rep = false → guessed ip s (s', if refused_code rep then [(ip, wall s)] else []).
Proof. intros [Hl Hw] Hr. split; [done|]. left. by rewrite Hr. Qed.
Lemma Allowed_unlocked ip s : (Allowed ip s).2 = inr true → locked (wall s) (ip_state ip (limiter s)) = false.
Proof. unfold Allowed, gets, ip_state. cbn. destruct (limiter s !! ip) as [st|]; cbn; [|done]. intros [= H]. by destruct (locked (wall s) st). Qed.
Lemma guessed_refused ip s s1 :
  calm s s1 → locked (wall s) (ip_state ip (limiter s)) = false → guessed ip s ((RecordFailure ip s1).1, [(ip, wall s)]).
Proof. intros [Hl Hw] Hu. split; [done|]. right. cbn. by rewrite Hl, Hw. Qed.

Lemma guessed_session ip code no broken s :
  (∀ e, refused_code (no e) = isRedeemClientFault e) → refused_code broken = false →
  guessed ip s (answered ip (redeem_session signer ip code no broken) s).
Proof.
  intros Hno Hbr. unfold answered, redeem_session, mbind, dbm_bind, Allowed, gets. pose proof (Allowed_unlocked ip s) as Hu.
  unfold Allowed, gets in Hu. cbn in Hu. destruct (match limiter s !! ip with Some _ => _ | None => _ end) eqn:Hok;
    [|by apply (guessed_reply ip s s (Status 429))].
  cbn [negb]. unfold try_. pose proof (quiet_redeem code s) as Hq. destruct (Redeem code s) as [s1 [e|label]]; cbn in Hq.
  - specialize (Hno e). destruct (isRedeemClientFault e); cbn; rewrite Hno; [by apply guessed_refused; auto|].
    split; [apply Hq|left; split; [done|apply Hq]].
  - pose proof (quiet_session label s1) as Hq1. destruct (issueSession signer label s1) as [s2 [e|rep]] eqn:Hs; cbn in Hq1.
    + apply (guessed_reply ip s s2 broken); [by etransitivity|done].
    + apply (guessed_reply ip s s2 rep); [by etransitivity|]. unfold issueSession in Hs. destruct signer; [|done].
      apply bind_ok in Hs as (n & s3 & _ & Hs). apply bind_ok in Hs as ([] & s4 & _ & Hs). by apply ret_ok in Hs as [_ ->].
Qed.
Lemma guessed_device canonical r body s : guessed (peerIPForPublicEndpoint r) s (answered (peerIPForPublicEndpoint r) (PostDevice canonical r body) s).
Proof.
  set (ip := peerIPForPublicEndpoint r). unfold answered, PostDevice, mbind, dbm_bind, Allowed, gets. fold ip. pose proof (Allowed_unlocked ip s) as Hu.
  unfold Allowed, gets in Hu. cbn in Hu. destruct (match limiter s !! ip with Some _ => _ | None => _ end) eqn:Hok;
    [|by apply (guessed_reply ip s s (Status 429))].
  cbn [negb]. destruct (str_empty canonical); [by apply (guessed_reply ip s s (Status 500))|].
  destruct body as [req|]; [|by apply (guessed_reply ip s s (Status 400))].
  match goal with |- context [if ?c then mret (Status 400) else _] => destruct c end; [by apply (guessed_reply ip s s (Status 400))|].
  unfold try_ at 1. assert (steps calm GenerateDeviceToken) as Hg by (unfold GenerateDeviceToken; steps_tac). specialize (Hg s).
  destruct (GenerateDeviceToken s) as [s1 [e|token]]; cbn in Hg; [by apply (guessed_reply ip s s1 (Status 500))|].
  unfold try_ at 1. pose proof (quiet_redeem (TrimSpace (DaCode req)) s1) as Hq. destruct (Redeem _ s1) as [s2 [e|label]]; cbn in Hq.
  - destruct (isRedeemClientFault e); cbn; [apply guessed_refused; [by etransitivity|auto]|].
    by apply (guessed_reply ip s s2 (Status 500)); [etransitivity|].
  - cbn. unfold try_. set (s3 := set_wall s2 (wall s2) (S (drawn s2))).
    set (m := InsertDeviceToken _ _ _). assert (steps calm m) as Hm by (unfold m, InsertDeviceToken; steps_tac). specialize (Hm s3).
    assert (calm s (m s3).1) as Hqq by (etransitivity; [exact Hg|]; etransitivity; [exact Hq|]; etransitivity; [|exact Hm]; done).
    destruct (m s3) as [s4 [e|[]]]; [by apply (guessed_reply ip s s4 (Status 500))|by apply (guessed_reply ip s s4 (Paired (fresh_device (drawn s2)) token canonical))].
Qed.

Lemma guessed_perform op s :
  match op with
  | OpLogin r | OpAuth r => guessed (remoteIP r) s (perform op s)
  | OpDevice _ r _ => guessed (peerIPForPublicEndpoint r) s (perform op s)
  | _ => True
  end.
Proof.
  destruct op; try exact I; cbn [perform].
  - apply guessed_session; [by intros []|done].
  - apply guessed_session; [by intros []|done].
  - apply guessed_device.
Qed.

(** The guesses of one address. *)
Definition of_ip (ip : string) (gs : list (string * Z)) : list Z := (filter (λ g : string * Z, g.1 = ip) gs).*2.
Lemma of_ip_app ip a b : of_ip ip (a ++ b) = of_ip ip a ++ of_ip ip b.
Proof. unfold of_ip. by rewrite filter_app, fmap_app. Qed.

(** What is known of every address when the guesses so far are [gs]. *)
Definition limited (gs : list (string * Z)) (s : AuthDB) : Prop :=
  ∀ ip, limits (of_ip ip gs) (ip_state ip (limiter s)) (wall s) ∧ few (of_ip ip gs).

Lemma limited_quiet gs s s' : limited gs s → limiter s' = limiter s → wall s ≤ wall s' → limited gs s'.
Proof. intros Hl Hs Hw ip. destruct (Hl ip) as [H1 H2]. rewrite Hs. split; [by apply (limits_later _ _ (wall s))|done]. Qed.
Lemma limited_guessed gs ip s res : limited gs s → guessed ip s res → limited (gs ++ res.2) res.1.
Proof.
  intros Hl [Hw [[-> Heq]|(-> & Hu & Heq)]]; [rewrite app_nil_r; apply (limited_quiet _ s); auto; lia|].
  intros ip'. rewrite of_ip_app, Heq, Hw. unfold of_ip at 2 4. destruct (decide (ip = ip')) as [<-|Hne].
  - rewrite filter_cons_True by done. unfold ip_state at 1. rewrite lookup_insert_eq. destruct (Hl ip) as [H1 H2]. by apply limits_failed.
  - rewrite filter_cons_False by done. cbn. rewrite app_nil_r. unfold ip_state. rewrite lookup_insert_ne by done. apply Hl.
Qed.
Lemma limited_perform gs op s : limited gs s → limited (gs ++ (perform op s).2) (perform op s).1.
Proof.
  intros Hl. pose proof (guessed_perform op s) as Hg. pose proof (quiet_perform op s) as Hq.
  destruct op; [by eapply limited_guessed..| | | | | | | | | |];
    [destruct Hq as [[Hlim Hw] ->]; rewrite app_nil_r; apply (limited_quiet _ s); auto; lia..|].
  cbn [perform fst snd]. rewrite app_nil_r. apply (limited_quiet _ s); [done|done|]. cbn. lia.
Qed.
Lemma limited_run ops : ∀ gs s, limited gs s → limited (gs ++ (run ops s).2) (run ops s).1.
Proof.
  induction ops as [|op ops IH]; intros gs s Hl; cbn [run]; [by rewrite app_nil_r|]. apply (limited_perform _ op) in Hl.
  destruct (perform op s) as [s1 g]. cbn [fst snd] in *. specialize (IH _ _ Hl). destruct (run ops s1) as [s2 h]. cbn [fst snd] in *. rewrite <- app_assoc in IH. exact IH.
Qed.

(** C36.  Codes cannot be guessed: as long as one request is answered after the
    other, in no five minutes are more than five wrong codes of one address
    let through, counted over the three places that take a code, whatever else
    happens in between. *)
Theorem guesses_are_limited ops s :
  limiter s = ∅ →
  ∀ ip w, (length (filter (λ g : string * Z, g.1 = ip ∧ (w ≤ g.2 < w + rateLimitWindow)%Z) (run ops s).2) ≤ rateLimitMax)%nat.
Proof.
  intros Hs ip w. assert (limited [] s) as Hl.
  { intros i. unfold ip_state. rewrite Hs, lookup_empty. split; [apply limits_start|]. intros v. unfold of_ip, rateLimitMax. cbn. lia. }
  destruct (limited_run ops [] s Hl ip) as [_ Hf]. specialize (Hf w). cbn [app] in Hf. etransitivity; [|exact Hf].
  unfold of_ip. generalize (run ops s).2. intros gs. clear. induction gs as [|[i t] gs IH]; [done|].
  set (P := λ g : string * Z, g.1 = ip ∧ (w ≤ g.2 < w + rateLimitWindow)%Z) in *. destruct (decide (i = ip)) as [->|Hne].
  - rewrite (filter_cons_True (λ g : string * Z, g.1 = ip)) by done. cbn [fmap list_fmap snd]. destruct (decide (in_window w t)) as [Hw|Hw].
    + rewrite (filter_cons_True P), (filter_cons_True (in_window w)) by done. cbn [length]. lia.
    + rewrite (filter_cons_False P), (filter_cons_False (in_window w)) by (try done; by intros [_ ?]). exact IH.
  - rewrite (filter_cons_False (λ g : string * Z, g.1 = ip)), (filter_cons_False P) by (try done; by intros [? _]). exact IH.
Qed.

(** *** What the tables never do

    Codes stay, with their expiry and the time they were spent; a device that
    is in is one that was in before, with its token, or has a new name. *)
Record develops (s s' : AuthDB) : Prop := {
  ev_drawn : (drawn s ≤ drawn s')%nat;
  ev_codes : ∀ h c, codes s !! h = Some c →
    ∃ c', codes s' !! h = Some c' ∧ ∀ t, PConsumedAt c = Some t → PConsumedAt c' = Some t;
  ev_expiry : ∀ h c', codes s' !! h = Some c' →
    PExpiresAt c' = PCreatedAt c' + 5 * minute ∨ ∃ c, codes s !! h = Some c ∧ PExpiresAt c = PExpiresAt c' ∧ PCreatedAt c = PCreatedAt c';
  ev_devices : ∀ id d', devices s' !! id = Some d' → live d' = true →
    (∃ d, devices s !! id = Some d ∧ live d = true ∧ TokenHash d = TokenHash d') ∨
    ∃ n, (drawn s ≤ n < drawn s')%nat ∧ id = fresh_device n;
}.
#[local] Instance develops_refl : Reflexive develops.
Proof. intros s. split; [done|eauto..]. Qed.
#[local] Instance develops_trans : Transitive develops.
Proof.
  intros a b c [D1 C1 X1 V1] [D2 C2 X2 V2]. split; [lia|..].
  - intros h x Hx. destruct (C1 _ _ Hx) as (y & Hy & H1). destruct (C2 _ _ Hy) as (z & Hz & H2). eauto.
  - intros h z Hz. destruct (X2 _ _ Hz) as [|(y & Hy & He & Hc)]; [by left|]. destruct (X1 _ _ Hy) as [|(x & Hx & He' & Hc')]; [left; congruence|].
    right. exists x. split_and!; congruence.
  - intros id z Hz Hl. destruct (V2 _ _ Hz Hl) as [(y & Hy & Hly & Ht)|(n & Hn & ->)]; [|right; exists n; split; [lia|done]].
    destruct (V1 _ _ Hy Hly) as [(x & Hx & Hlx & Ht')|(n & Hn & ->)]; [left; exists x; split_and!; congruence|right; exists n; split; [lia|done]].
Qed.

(** The tables untouched. *)
Lemma develops_same s s' : (drawn s ≤ drawn s')%nat → codes s' = codes s → devices s' = devices s → develops s s'.
Proof. intros Hd Hc Hv. split; [done|rewrite Hc; eauto|rewrite Hc; eauto|rewrite Hv; eauto]. Qed.
(** Every row is changed by [f], which lets nobody in. *)
Lemma develops_devices s m :
  (∀ id d', m !! id = Some d' → live d' = true → ∃ d, devices s !! id = Some d ∧ live d = true ∧ TokenHash d = TokenHash d') →
  develops s (set_devices s m).
Proof. intros Hm. split; [done|eauto..]. Qed.
Lemma revoke_live t d : live (revoke t d) = false.
Proof. unfold revoke. destruct (live d) eqn:Hl; [done|done]. Qed.

Lemma develops_draw : steps develops draw.
Proof. intros s. apply develops_same; cbn; auto. Qed.
Lemma develops_seen id t : steps develops (UpdateDeviceLastSeen id t).
Proof.
  intros s. apply develops_devices. intros i d' Hd Hl. destruct (decide (i = id)) as [->|Hne].
  - rewrite lookup_alter_eq in Hd. destruct (devices s !! id) as [d|]; [|done]. cbn in Hd. injection Hd as <-. by exists d.
  - rewrite lookup_alter_ne in Hd by done. eauto.
Qed.
Lemma develops_revoke id : steps develops (store_RevokeDevice id).
Proof.
  intros s. unfold store_RevokeDevice. rewrite bind_gets. destruct (devices s !! id) as [d0|] eqn:H0; [|done]. apply develops_devices.
  intros i d' Hd Hl. destruct (decide (i = id)) as [->|Hne].
  - rewrite lookup_alter_eq, H0 in Hd. cbn in Hd. injection Hd as <-. by rewrite revoke_live in Hl.
  - rewrite lookup_alter_ne in Hd by done. eauto.
Qed.
Lemma develops_revoke_all : steps develops RevokeAllDevices.
Proof.
  intros s. apply develops_devices. intros i d' Hd Hl. rewrite lookup_fmap in Hd. destruct (devices s !! i); [|done]. cbn in Hd.
  injection Hd as <-. by rewrite revoke_live in Hl.
Qed.
Lemma develops_purge dry : steps develops (DeleteRevokedDevices dry).
Proof.
  intros s. unfold DeleteRevokedDevices. rewrite bind_gets. destruct dry; [done|]. apply develops_devices.
  intros i d' Hd Hl. apply map_lookup_filter_Some in Hd as [Hd _]. eauto.
Qed.
Lemma develops_consume h : steps develops (ConsumePairingCode h).
Proof.
  unfold ConsumePairingCode. apply steps_InTxDB; [apply _|]. intros s. rewrite !bind_gets. destruct (codes s !! h) as [c|] eqn:Hc; [|done].
  rewrite !bind_fail_if. case_bool_decide as Hn; [done|]. destruct (_ <? _); [done|].
  change (develops s (set_codes s (<[h := consumed_at (wall s) c]> (codes s)))). split; cbn [codes devices drawn set_codes]; [done|..|eauto].
  - intros k x Hx. destruct (decide (k = h)) as [->|Hne].
    + exists (consumed_at (wall s) c). rewrite lookup_insert_eq. split; [done|]. intros t Ht. destruct Hn. rewrite Hc in Hx. injection Hx as ->. eauto.
    + exists x. by rewrite lookup_insert_ne.
  - intros k x Hx. right. destruct (decide (k = h)) as [->|Hne].
    + rewrite lookup_insert_eq in Hx. injection Hx as <-. by exists c.
    + rewrite lookup_insert_ne in Hx by done. by exists x.
Qed.
#[local] Hint Extern 1 (steps develops (modify _)) => (apply steps_modify; intros; apply develops_same; cbn; auto) : steps.
#[local] Hint Resolve develops_draw develops_seen develops_revoke develops_revoke_all develops_purge develops_consume : steps.

(** A new row under a name that has just been drawn. *)
Lemma develops_insert n d s :
  (n < drawn s)%nat → develops (set_wall s (wall s) n) (set_devices s (<[fresh_device n := d]> (devices s))).
Proof.
  intros Hn. split; cbn [codes devices drawn set_devices set_wall]; [lia|eauto..|]. intros id d' Hd Hl. destruct (decide (id = fresh_device n)) as [->|Hne]; [right; eauto with lia|].
  rewrite lookup_insert_ne in Hd by done. eauto.
Qed.

Lemma develops_new_device (f : string → authm unit) s :
  (∀ id s, (f id s).1 = s ∨ ∃ d, (f id s).1 = set_devices s (<[id := d]> (devices s))) →
  develops s (f (fresh_device (drawn s)) (set_wall s (wall s) (S (drawn s)))).1.
Proof.
  intros Hf. destruct (Hf (fresh_device (drawn s)) (set_wall s (wall s) (S (drawn s)))) as [->|[d ->]]; [apply develops_same; cbn; auto|].
  destruct s as [cs ds l r w n]. apply (develops_insert n d (set_wall (Build_AuthDB cs ds l r w n) w (S n))). cbn. lia.
Qed.
Lemma InsertDevice_shape label h id s :
  (InsertDevice id label h s).1 = s ∨ ∃ d, (InsertDevice id label h s).1 = set_devices s (<[id := d]> (devices s)).
Proof. unfold InsertDevice. rewrite bind_gets, bind_fail_if. case_bool_decide; [by left|right; by eexists]. Qed.
Lemma InsertDeviceToken_shape label h id s :
  (InsertDeviceToken id label h s).1 = s ∨ ∃ d, (InsertDeviceToken id label h s).1 = set_devices s (<[id := d]> (devices s)).
Proof. unfold InsertDeviceToken. rewrite bind_gets, bind_fail_if. destruct (_ || _); [by left|right; by eexists]. Qed.

(** What follows the insertion leaves the state alone. *)
Lemma steps_bind_done {A B} (R : relation AuthDB) (m : authm A) (f : A → authm B) s :
  R s (m s).1 → (∀ a s', (f a s').1 = s') → R s ((m ≫= f) s).1.
Proof. intros Hm Hf. unfold mbind, dbm_bind. destruct (m s) as [s' [e|a]]; [done|]. by rewrite Hf. Qed.
Lemma develops_session label : steps develops (issueSession signer label).
Proof.
  unfold issueSession. destruct signer as [secret|]; [|steps_tac]. intros s. rewrite (bind_run _ _ s _ _ eq_refl).
  apply (steps_bind_done (λ _, develops s)); [|done]. apply (develops_new_device (λ id, InsertDevice id label (sha256 id))). intros. apply InsertDevice_shape.
Qed.
Lemma develops_token label hash (f : nat → auth_err + unit → authm http_reply) :
  (∀ n v s, (f n v s).1 = s) → steps develops (n ← draw; v ← try_ (InsertDeviceToken (fresh_device n) label hash); f n v).
Proof.
  intros Hf s. rewrite (bind_run _ _ s _ _ eq_refl). apply (steps_bind_done (λ _, develops s)); [|done].
  unfold try_. pose proof (develops_new_device (λ id, InsertDeviceToken id label hash) s ltac:(intros; apply InsertDeviceToken_shape)) as H.
  cbn beta in H. destruct (InsertDeviceToken _ _ _ _) as [s' v]. exact H.
Qed.
Lemma develops_issue label : steps develops (pairing_Issue label).
Proof.
  unfold pairing_Issue. apply steps_bind; [apply _|unfold GeneratePairingCode; steps_tac|]. intros code s. rewrite bind_gets.
  apply (steps_bind_done (λ _, develops s)); [|done]. unfold InsertPairingCode. rewrite bind_gets, bind_fail_if. case_bool_decide as Ht; [done|].
  set (c := {| PLabel := label; PCreatedAt := wall s; PExpiresAt := wall s + 5 * minute; PConsumedAt := None |}).
  change (develops s (set_codes s (<[HashCode code := c]> (codes s)))). split; cbn [codes devices drawn set_codes]; [done|..|eauto].
  - intros h x Hx. exists x. rewrite lookup_insert_ne; [done|]. intros <-. destruct Ht. eauto.
  - intros h x [[<- <-]|[_ Hx]]%lookup_insert_Some; [by left|eauto].
Qed.
#[local] Hint Resolve develops_session develops_issue : steps.
Lemma develops_cookie r c no : steps develops (verify_cookie signer r c no).
Proof. unfold verify_cookie, session_Verify, GetDevice. steps_tac. Qed.
Lemma develops_bearer r : steps develops (bearer_Verify r).
Proof. unfold bearer_Verify, GetDeviceByTokenHash. steps_tac. Qed.
Lemma develops_bootstrap r c no : steps develops (bootstrap r c no).
Proof. unfold bootstrap, HasAnyDevice. steps_tac. Qed.
#[local] Hint Resolve develops_cookie develops_bearer develops_bootstrap : steps.
Lemma develops_tcp r : steps develops (TCPAPIAuth signer r).
Proof. unfold TCPAPIAuth. steps_tac. Qed.
Lemma develops_revoke_close id : steps develops (revoke_and_close id).
Proof. unfold revoke_and_close, registry_RevokeDevice. steps_tac. Qed.
Lemma develops_release id ch : steps develops (release_conn id ch).
Proof. intros s. unfold release_conn, modify. cbn. destruct (entries (conns s) !! id); apply develops_same; cbn; auto. Qed.
Lemma develops_Register id : steps develops (register_conn id).
Proof. intros s. apply develops_same; cbn; auto. Qed.
#[local] Hint Resolve develops_tcp develops_revoke_close develops_release develops_Register : steps.
Lemma develops_redeem ip code no broken : steps develops (redeem_session signer ip code no broken).
Proof. unfold redeem_session, Allowed, Redeem, RecordFailure. steps_tac. Qed.
#[local] Hint Extern 0 (steps develops (draw ≫= _)) => (apply develops_token; by intros ? [?|?] ?) : steps.
Lemma develops_device canonical r body : steps develops (PostDevice canonical r body).
Proof.
  unfold PostDevice, Allowed, GenerateDeviceToken, Redeem, RecordFailure.
  steps_tac.
Qed.
Lemma answer_state ip m s : (answered ip m s).1 = (m s).1.
Proof. unfold answered. by destruct (m s). Qed.
Lemma develops_perform op s : develops s (perform op s).1.
Proof.
  destruct op; cbn [perform fst]; rewrite ?answer_state; [apply develops_redeem..| | | | | | | | | | |].
  - apply develops_device.
  - assert (steps develops (tcp_DeleteDevice r id)) as H; [unfold tcp_DeleteDevice, DeleteDevice; steps_tac|apply H].
  - apply develops_revoke_close.
  - assert (steps develops DeleteAllDevices) as H; [unfold DeleteAllDevices, RevokeAll; steps_tac|apply H].
  - assert (steps develops (PostPair label)) as H; [unfold PostPair; steps_tac|apply H].
  - apply develops_purge.
  - assert (steps develops (tcp_web signer r)) as H; [unfold tcp_web, WebAuth; steps_tac|apply H].
  - assert (steps develops (handshake r)) as H; [unfold handshake, authenticateDevice; steps_tac|apply H].
  - apply develops_Register.
  - apply develops_release.
  - apply develops_same; cbn; auto.
Qed.
Lemma develops_run ops s : develops s (run ops s).1.
Proof. apply run_steps; [apply _..|]. apply develops_perform. Qed.

(** *** Texts around a separator *)
Fixpoint all_chars (P : ascii → bool) (s : string) : bool := match s with EmptyString => true | String c s => P c && all_chars P s end.

Lemma cut_blank_spec h a b : cut_blank h = Some (a, b) ↔ ∃ c, h = a +:+ String c b ∧ is_blank c = true ∧ all_chars (λ x, negb (is_blank x)) a = true.
Proof.
  revert a b. induction h as [|c h IH]; intros a b; cbn; [split; [done|]; intros (c & Hh & _); by destruct a|].
  destruct (is_blank c) eqn:Hb.
  - split; [intros [= <- <-]; by exists c|]. intros (x & Hh & Hx & Ha). destruct a as [|y a]; [by injection Hh as -> ->|].
    injection Hh as <- _. cbn in Ha. by rewrite Hb in Ha.
  - destruct (cut_blank h) as [[u v]|] eqn:Hc; cbn.
    + split.
      * intros [= <- <-]. destruct (proj1 (IH u v) eq_refl) as (x & -> & Hx & Hu). exists x. split_and!; [done..|]. cbn. by rewrite Hb, Hu.
      * intros (x & Hh & Hx & Ha). destruct a as [|y a]; [by injection Hh as <- _; rewrite Hb in Hx|]. injection Hh as <- Hh. cbn in Ha.
        apply andb_true_iff in Ha as [_ Ha]. assert (Some (u, v) = Some (a, b)) as [= -> ->]; [|done]. apply IH. eauto.
    + split; [done|]. intros (x & Hh & Hx & Ha). destruct a as [|y a]; [by injection Hh as <- _; rewrite Hb in Hx|]. injection Hh as <- Hh.
      cbn in Ha. apply andb_true_iff in Ha as [_ Ha]. enough (None = Some (a, b)) by done. apply IH. eauto.
Qed.
Definition starts_blank (s : string) : bool := match s with String c _ => is_blank c | EmptyString => false end.
Lemma trim_blanks_spec s t : trim_blanks s = t ↔ ∃ p, s = p +:+ t ∧ all_chars is_blank p = true ∧ starts_blank t = false.
Proof.
  revert t. induction s as [|c s IH]; intros t; cbn.
  - split; [intros <-; by exists ""|]. intros (p & Hp & _). destruct p; [done|done].
  - destruct (is_blank c) eqn:Hb.
    + rewrite IH. split.
      * intros (p & -> & Hp & Ht). exists (String c p). split_and!; [done|cbn; by rewrite Hb|done].
      * intros (p & Hp & Ha & Ht). destruct p as [|x p]; [change ("" +:+ t) with t in Hp; rewrite <- Hp in Ht; cbn in Ht; congruence|]. injection Hp as <- ->.
        cbn in Ha. apply andb_true_iff in Ha as [_ Ha]. eauto.
    + split; [intros <-; by exists ""; cbn|]. intros (p & Hp & Ha & Ht). destruct p as [|x p]; [done|]. injection Hp as <- _. cbn in Ha. by rewrite Hb in Ha.
Qed.
Definition not_dot (c : ascii) : bool := negb (bool_decide (c = "."%char)).
Lemma cut_last_dot_none s : all_chars not_dot s = true → cut_last_dot s = None.
Proof.
  induction s as [|c s IH]; [done|]. cbn. intros [Hc Hs]%andb_true_iff. rewrite (IH Hs). unfold not_dot in Hc. by destruct (bool_decide _).
Qed.
Lemma cut_last_dot_spec s a b : cut_last_dot s = Some (a, b) → s = a +:+ "." +:+ b.
Proof.
  revert a b. induction s as [|c s IH]; intros a b; cbn; [done|]. destruct (cut_last_dot s) as [[u v]|].
  - intros [= <- <-]. exact (f_equal (String c) (IH u v eq_refl)).
  - case_bool_decide as Hc; [|done]. intros [= <- <-]. by subst c.
Qed.
Lemma cut_last_dot_app a b : all_chars not_dot b = true → cut_last_dot (a +:+ "." +:+ b) = Some (a, b).
Proof.
  intros Hb. induction a as [|c a IH]; [change (cut_last_dot (String "." b) = Some ("", b)); cbn; by rewrite cut_last_dot_none|].
  change (cut_last_dot (String c (a +:+ "." +:+ b)) = Some (String c a, b)). cbn [cut_last_dot]. by rewrite IH.
Qed.
Lemma hex_no_dot s : all_chars not_dot (hex s) = true.
Proof.
  unfold hex. induction (String.list_ascii_of_string s) as [|c l IH]; [done|]. cbn.
  enough (∀ n, (n < 16)%N → not_dot (hex_nibble n) = true) as Hd.
  { rewrite !Hd; [exact IH|apply N.mod_lt; lia|]. apply N.Div0.div_lt_upper_bound. pose proof (N_ascii_bounded c). lia. }
  intros n Hn. assert (n ∈ [0; 1; 2; 3; 4; 5; 6; 7; 8; 9; 10; 11; 12; 13; 14; 15]%N) as Hin; [|by set_unfold in Hin; naive_solver].
  set_unfold. lia.
Qed.

(** *** Who is let in *)

(** A request names a token: one Authorization header, of the scheme Bearer in
    any case. *)
Definition presents (r : Request) (token : string) : Prop :=
  ∃ scheme blanks, header_values r "Authorization" = [scheme +:+ blanks +:+ token] ∧
    fold_name scheme = fold_name "Bearer" ∧ all_chars (λ x, negb (is_blank x)) scheme = true ∧
    blanks ≠ "" ∧ all_chars is_blank blanks = true ∧ token ≠ "" ∧ starts_blank token = false.
Lemma ExtractBearerToken_ok r token : ExtractBearerToken r = (token, true, true) ↔ presents r token.
Proof.
  unfold ExtractBearerToken, presents. destruct (header_values r "Authorization") as [|h [|h' l]].
  - split; [discriminate|]. intros (? & ? & [=] & _).
  - split.
    + destruct (str_empty h); [discriminate|]. destruct (cut_blank h) as [[scheme rest]|] eqn:Hc; [|destruct (EqualFold_bearer h); discriminate].
      destruct (EqualFold_bearer scheme) eqn:Hs; [|discriminate]. cbn [negb]. destruct (str_empty (trim_blanks rest)) eqn:Ht; [discriminate|].
      intros [= <-]. apply bool_decide_eq_true in Hs. apply bool_decide_eq_false in Ht.
      apply cut_blank_spec in Hc as (c & -> & Hb & Hn). destruct (proj1 (trim_blanks_spec rest _) eq_refl) as (p & Hp & Hall & Hst).
      exists scheme, (String c p). split_and!; [|exact Hs|exact Hn|discriminate|cbn; by rewrite Hb|exact Ht|exact Hst].
      f_equal. f_equal. exact (f_equal (String c) Hp).
    + intros (scheme & blanks & [= ->] & Hs & Hn & Hne & Hall & Ht & Hst). destruct blanks as [|c p]; [done|]. cbn in Hall.
      apply andb_true_iff in Hall as [Hb Hall].
      assert (cut_blank (scheme +:+ String c p +:+ token) = Some (scheme, p +:+ token)) as -> by (apply cut_blank_spec; by exists c).
      assert (str_empty (scheme +:+ String c p +:+ token) = false) as -> by (apply bool_decide_eq_false_2; destruct scheme; discriminate).
      assert (EqualFold_bearer scheme = true) as -> by (by apply bool_decide_eq_true_2). cbn [negb].
      assert (trim_blanks (p +:+ token) = token) as -> by (apply trim_blanks_spec; by exists p).
      assert (str_empty token = false) as -> by (by apply bool_decide_eq_false_2). reflexivity.
  - split; [discriminate|]. intros (? & ? & [=] & _).
Qed.

(** idx_web_devices_token_hash *)
Definition token_unique (s : AuthDB) : Prop :=
  ∀ i j d e h, devices s !! i = Some d → devices s !! j = Some e → TokenHash d = Some h → TokenHash e = Some h → i = j.
Lemma find_token_ok h s id d :
  head (filter (λ kv, live kv.2 = true) (by_token h (devices s))) = Some (id, d) → devices s !! id = Some d ∧ live d = true ∧ TokenHash d = Some h.
Proof.
  intros (l & Hl)%head_Some. assert ((id, d) ∈ filter (λ kv, live kv.2 = true) (by_token h (devices s))) as Hin by (rewrite Hl; left).
  unfold by_token in Hin. rewrite !list_elem_of_filter, elem_of_map_to_list in Hin. naive_solver.
Qed.
Lemma find_token h s id d :
  token_unique s → devices s !! id = Some d → live d = true → TokenHash d = Some h →
  head (filter (λ kv, live kv.2 = true) (by_token h (devices s))) = Some (id, d).
Proof.
  intros Hu Hd Hl Ht. destruct (head _) as [[j e]|] eqn:Hh.
  - apply find_token_ok in Hh as (He & _ & Hte). assert (j = id) as -> by eauto. congruence.
  - apply head_None in Hh. assert ((id, d) ∈ filter (λ kv, live kv.2 = true) (by_token h (devices s))) as Hin; [|rewrite Hh in Hin; by apply not_elem_of_nil in Hin].
    unfold by_token. rewrite !list_elem_of_filter, elem_of_map_to_list. done.
Qed.

Lemma bearer_Verify_ok r s id :
  (bearer_Verify r s).2 = inr id ↔
  ∃ token d, presents r token ∧ head (filter (λ kv, live kv.2 = true) (by_token (HashToken token) (devices s))) = Some (id, d).
Proof.
  unfold bearer_Verify. destruct (ExtractBearerToken r) as [[token present] ok] eqn:He. destruct ok; cbn [negb].
  - assert (present = true) as -> by (unfold ExtractBearerToken in He; repeat case_match; simplify_eq; done).
    rewrite bind_fail_if. unfold GetDeviceByTokenHash. rewrite bind_gets. destruct (head _) as [[j e]|] eqn:Hh.
    + rewrite bind_gets. cbn. split.
      * intros [= <-]. exists token, e. split; [by apply ExtractBearerToken_ok|done].
      * intros (t & d & Ht & Hd). apply ExtractBearerToken_ok in Ht. rewrite He in Ht. injection Ht as <-. rewrite Hh in Hd. by injection Hd as <- _.
    + split; [done|]. intros (t & d & Ht & Hd). apply ExtractBearerToken_ok in Ht. rewrite He in Ht. injection Ht as <-. by rewrite Hh in Hd.
  - split; [done|]. intros (t & d & Ht & _). apply ExtractBearerToken_ok in Ht. congruence.
Qed.
Lemma session_Verify_ok secret r s id :
  (session_Verify secret r s).2 = inr id ↔
  cookie r cookieName = Some (session_Issue secret id) ∧ ∃ d, devices s !! id = Some d ∧ live d = true.
Proof.
  unfold session_Verify, session_Issue. destruct (cookie r cookieName) as [v|]; cbn [mbind option_bind]; [|split; [done|by intros [? _]]].
  destruct (cut_last_dot v) as [[a b]|] eqn:Hv.
  - apply cut_last_dot_spec in Hv as Hv'. rewrite bind_fail_if. case_bool_decide as Hm; cbn [negb].
    + unfold GetDevice. rewrite bind_gets. subst b. split.
      * destruct (devices s !! a) as [d|] eqn:Hd; [|done]. cbn. destruct (live d) eqn:Hl; [|done]. intros [= <-]. rewrite Hv'. eauto.
      * intros [[= Hid] (d & Hd & Hl)]. rewrite Hid, cut_last_dot_app in Hv by apply hex_no_dot. injection Hv as <- _. rewrite Hd. cbn. by rewrite Hl.
    + split; [done|]. intros [[= Hid] _]. rewrite Hid, cut_last_dot_app in Hv by apply hex_no_dot. injection Hv as <- <-. done.
  - split; [done|]. intros [[= ->] _]. by rewrite cut_last_dot_app in Hv by apply hex_no_dot.
Qed.

(** The ways to be let through over TCP, as the middleware tells them apart. *)
Inductive let_through (s : AuthDB) (r : Request) : context → Prop :=
| lt_public : apiAuthRequired (HrPath r) = false → let_through s r anonymous
| lt_bearer token id d :
    apiAuthRequired (HrPath r) = true → presents r token →
    devices s !! id = Some d → live d = true → TokenHash d = Some (HashToken token) →
    let_through s r (as_device id AuthMethodBearer anonymous)
| lt_cookie secret id d :
    apiAuthRequired (HrPath r) = true → present_bearer r = false →
    signer = Some secret → cookie r cookieName = Some (session_Issue secret id) →
    devices s !! id = Some d → live d = true →
    let_through s r (as_device id AuthMethodCookie anonymous)
| lt_bootstrap :
    apiAuthRequired (HrPath r) = true → present_bearer r = false → cookie r cookieName = None →
    from_loopback r = true → (∀ id d, devices s !! id = Some d → live d = false) →
    let_through s r anonymous.

Lemma HasAnyDevice_false s : (HasAnyDevice s).2 = inr false ↔ ∀ id d, devices s !! id = Some d → live d = false.
Proof.
  unfold HasAnyDevice, gets. cbn. split.
  - intros [= H]. case_bool_decide as Hf; [|done]. intros id d Hd. destruct (live d) eqn:Hl; [|done].
    assert (filter (λ kv : string * Device, live kv.2 = true) (devices s) !! id = Some d) as Hx by (by apply map_lookup_filter_Some).
    by rewrite Hf, lookup_empty in Hx.
  - intros H. rewrite bool_decide_eq_true_2; [done|]. apply map_eq. intros id. rewrite lookup_empty, map_lookup_filter_None. right.
    intros d Hd. cbn. by rewrite (H _ _ Hd).
Qed.

Lemma try_verdict {A} (m : authm A) (f : A → verdict) no s :
  ((v ← try_ m; match v with inl _ => mret no | inr a => mret (f a) end : authm verdict) s).2 =
    inr (match (m s).2 with inl _ => no | inr a => f a end).
Proof. unfold mbind, dbm_bind, try_. by destruct (m s) as [s' [e|a]]. Qed.
Lemma bootstrap_verdict r c no s :
  (bootstrap r c no s).2 = inr (if from_loopback r then match (HasAnyDevice s).2 with inr false => Pass c | _ => no end else no).
Proof. unfold bootstrap. destruct (from_loopback r); [|done]. unfold mbind, dbm_bind, HasAnyDevice, gets. cbn. by destruct (negb _). Qed.

(** The answer of the middleware, without its writes. *)
Lemma TCPAPIAuth_verdict r s :
  (TCPAPIAuth signer r s).2 = inr (
    if negb (apiAuthRequired (HrPath r)) then Pass anonymous
    else if present_bearer r then match (bearer_Verify r s).2 with inr id => Pass (as_device id AuthMethodBearer anonymous) | inl _ => Refuse 401 end
    else match cookie r cookieName, signer with
         | None, _ => if from_loopback r then match (HasAnyDevice s).2 with inr false => Pass anonymous | _ => Refuse 401 end else Refuse 401
         | Some _, None => Refuse 401
         | Some _, Some secret =>
             match (session_Verify secret r s).2 with inr id => Pass (as_device id AuthMethodCookie anonymous) | inl _ => Refuse 401 end
         end).
Proof.
  unfold TCPAPIAuth. destruct (negb _); [done|]. destruct (present_bearer r).
  - rewrite try_verdict. by destruct (bearer_Verify r s).2.
  - destruct (cookie r cookieName); [|apply bootstrap_verdict]. unfold verify_cookie. destruct signer as [secret|]; [|done].
    rewrite try_verdict. by destruct (session_Verify secret r s).2.
Qed.
Lemma presents_present r token : presents r token → present_bearer r = true.
Proof. intros H%ExtractBearerToken_ok. unfold present_bearer. by rewrite H. Qed.

Lemma let_through_sound r s c : (TCPAPIAuth signer r s).2 = inr (Pass c) → let_through s r c.
Proof.
  rewrite TCPAPIAuth_verdict. destruct (apiAuthRequired (HrPath r)) eqn:Hp; cbn [negb]; [|intros [= <-]; by apply lt_public].
  destruct (present_bearer r) eqn:Hb.
  - destruct (bearer_Verify r s).2 as [e|id] eqn:Hv; [done|]. intros [= <-]. apply bearer_Verify_ok in Hv as (token & d & Ht & Hd).
    apply find_token_ok in Hd as (Hd & Hl & Hh). by eapply lt_bearer.
  - destruct (cookie r cookieName) as [v|] eqn:Hc.
    + destruct signer as [secret|] eqn:Hs; [|done]. destruct (session_Verify secret r s).2 as [e|id] eqn:Hv; [done|]. intros [= <-].
      apply session_Verify_ok in Hv as (Hi & d & Hd & Hl). by eapply lt_cookie.
    + destruct (from_loopback r) eqn:Hl; [|done]. destruct (HasAnyDevice s).2 as [e|[]] eqn:Hd; [done..|]. intros [= <-].
      apply lt_bootstrap; auto. by apply HasAnyDevice_false.
Qed.
Lemma let_through_complete r s c : token_unique s → let_through s r c → (TCPAPIAuth signer r s).2 = inr (Pass c).
Proof.
  intros Hu Ha. rewrite TCPAPIAuth_verdict. destruct Ha as [Hp|token id d Hp Ht Hd Hl Hh|secret id d Hp Hb Hs Hc Hd Hl|Hp Hb Hc Hl Hn]; rewrite Hp; cbn [negb].
  - done.
  - rewrite (presents_present _ _ Ht). assert ((bearer_Verify r s).2 = inr id) as ->; [|done].
    apply bearer_Verify_ok. exists token, d. split; [done|]. by apply find_token.
  - rewrite Hb, Hc, Hs. assert ((session_Verify secret r s).2 = inr id) as ->; [|done]. apply session_Verify_ok. eauto.
  - rewrite Hb, Hc, Hl. by rewrite (proj2 (HasAnyDevice_false s) Hn).
Qed.

(** *** Tokens stay unique *)

(** No row has a token it did not have before. *)
Definition no_tokens (s s' : AuthDB) : Prop :=
  ∀ id d', devices s' !! id = Some d' → TokenHash d' = None ∨ ∃ d, devices s !! id = Some d ∧ TokenHash d = TokenHash d'.
#[local] Instance no_tokens_refl : Reflexive no_tokens.
Proof. intros s id d Hd. right. eauto. Qed.
#[local] Instance no_tokens_trans : Transitive no_tokens.
Proof.
  intros a b c H1 H2 id d Hd. destruct (H2 _ _ Hd) as [|(e & He & Ht)]; [by left|]. destruct (H1 _ _ He) as [|(f & Hf & Ht')]; [left; congruence|].
  right. exists f. split; congruence.
Qed.
Lemma unique_no_tokens s s' : no_tokens s s' → token_unique s → token_unique s'.
Proof.
  intros Hm Hu i j d e h Hd He H1 H2. destruct (Hm _ _ Hd) as [|(d0 & Hd0 & Ht)]; [congruence|].
  destruct (Hm _ _ He) as [|(e0 & He0 & Ht')]; [congruence|]. apply (Hu i j d0 e0 h); congruence.
Qed.
Lemma no_tokens_rows s m :
  (∀ id d', m !! id = Some d' → ∃ d, devices s !! id = Some d ∧ TokenHash d = TokenHash d') → no_tokens s (set_devices s m).
Proof. intros Hm id d Hd. right. by apply Hm. Qed.
Lemma no_tokens_alter s f id : (∀ d, TokenHash (f d) = TokenHash d) → no_tokens s (set_devices s (alter f id (devices s))).
Proof.
  intros Hf. apply no_tokens_rows. intros i d' Hd. destruct (decide (i = id)) as [->|Hne].
  - rewrite lookup_alter_eq in Hd. destruct (devices s !! id) as [d|]; [|done]. injection Hd as <-. eauto.
  - rewrite lookup_alter_ne in Hd by done. eauto.
Qed.
Lemma revoke_token t d : TokenHash (revoke t d) = TokenHash d.
Proof. unfold revoke. by destruct (live d). Qed.
Lemma no_tokens_same s s' : devices s' = devices s → no_tokens s s'.
Proof. intros Heq id d Hd. rewrite Heq in Hd. eauto. Qed.
#[local] Hint Extern 1 (steps no_tokens (modify _)) => (apply steps_modify; intros; by apply no_tokens_same) : steps.
Lemma no_tokens_draw : steps no_tokens draw.
Proof. intros s. by apply no_tokens_same. Qed.
Lemma no_tokens_seen id t : steps no_tokens (UpdateDeviceLastSeen id t).
Proof. intros s. by apply no_tokens_alter. Qed.
Lemma no_tokens_revoke id : steps no_tokens (store_RevokeDevice id).
Proof.
  intros s. unfold store_RevokeDevice. rewrite bind_gets. destruct (devices s !! id); [|done]. apply no_tokens_alter. intros. apply revoke_token.
Qed.
Lemma no_tokens_revoke_all : steps no_tokens RevokeAllDevices.
Proof.
  intros s. apply no_tokens_rows. intros i d' Hd. rewrite lookup_fmap in Hd. destruct (devices s !! i) as [d|]; [|done]. injection Hd as <-.
  rewrite revoke_token. eauto.
Qed.
Lemma no_tokens_purge dry : steps no_tokens (DeleteRevokedDevices dry).
Proof.
  intros s. unfold DeleteRevokedDevices. rewrite bind_gets. destruct dry; [done|]. apply no_tokens_rows.
  intros i d' Hd. apply map_lookup_filter_Some in Hd as [Hd _]. eauto.
Qed.
Lemma no_tokens_insert id label h : steps no_tokens (InsertDevice id label h).
Proof.
  intros s. unfold InsertDevice. rewrite bind_gets, bind_fail_if. case_bool_decide; [done|].
  intros i d'. unfold modify, set_devices. cbn [fst devices]. intros [[<- <-]|[_ Hd]]%lookup_insert_Some; [by left|eauto].
Qed.
Lemma no_tokens_Register id : steps no_tokens (register_conn id).
Proof. intros s. by apply no_tokens_same. Qed.
Lemma no_tokens_release id ch : steps no_tokens (release_conn id ch).
Proof. intros s. unfold release_conn, modify. cbn. destruct (entries (conns s) !! id); by apply no_tokens_same. Qed.
#[local] Hint Resolve no_tokens_draw no_tokens_seen no_tokens_revoke no_tokens_revoke_all no_tokens_purge no_tokens_insert no_tokens_Register no_tokens_release : steps.
Lemma no_tokens_session label : steps no_tokens (issueSession signer label).
Proof. unfold issueSession. steps_tac. Qed.
Lemma no_tokens_redeem code : steps no_tokens (Redeem code).
Proof. unfold Redeem, ConsumePairingCode. steps_tac. Qed.
Lemma no_tokens_tcp r : steps no_tokens (TCPAPIAuth signer r).
Proof.
  unfold TCPAPIAuth, bootstrap, verify_cookie, HasAnyDevice, bearer_Verify, session_Verify, GetDevice, GetDeviceByTokenHash. steps_tac.
Qed.
#[local] Hint Resolve no_tokens_session no_tokens_redeem no_tokens_tcp : steps.

Lemma unique_insert_token id label h s : token_unique s → token_unique (InsertDeviceToken id label h s).1.
Proof.
  intros Hu. unfold InsertDeviceToken. rewrite bind_gets, bind_fail_if. destruct (bool_decide (is_Some _)); [done|]. cbn [orb].
  destruct (bool_decide (by_token h (devices s) = [])) eqn:Hb; [|done]. apply bool_decide_eq_true in Hb. cbn [negb].
  assert (∀ i d, devices s !! i = Some d → TokenHash d ≠ Some h) as Hnew.
  { intros i d Hd Ht. apply (not_elem_of_nil (i, d)). rewrite <- Hb. unfold by_token. by rewrite list_elem_of_filter, elem_of_map_to_list. }
  intros i j d e k. unfold modify, set_devices. cbn [fst devices]. intros [[<- <-]|[_ Hd]]%lookup_insert_Some [[<- <-]|[_ He]]%lookup_insert_Some H1 H2; cbn in *; [done|..|by eapply Hu];
    simplify_eq; exfalso; by eapply Hnew.
Qed.
Lemma unique_device canonical r body s : token_unique s → token_unique (PostDevice canonical r body s).1.
Proof.
  assert (∀ f label h s, (∀ n v s, (f n v s).1 = s) → token_unique s →
    token_unique ((n ← draw; v ← try_ (InsertDeviceToken (fresh_device n) label h); f n v : authm http_reply) s).1) as Hins.
  { intros f label h s1 Hf Hu. rewrite (bind_run _ _ s1 _ _ eq_refl). apply (steps_bind_done (λ _, token_unique)); [|done].
    unfold try_. pose proof (unique_insert_token (fresh_device (drawn s1)) label h (set_wall s1 (wall s1) (S (drawn s1))) Hu) as H.
    destruct (InsertDeviceToken _ _ _ _). exact H. }
  intros Hu. unfold PostDevice, Allowed. rewrite bind_gets. destruct (negb _); [done|]. destruct (str_empty canonical); [done|].
  destruct body as [req|]; [|done]. destruct (str_empty _ || _ || _); [done|].
  unfold mbind at 1, dbm_bind at 1, try_ at 1. assert (steps no_tokens GenerateDeviceToken) as Hg by (unfold GenerateDeviceToken; steps_tac).
  specialize (Hg s). destruct (GenerateDeviceToken s) as [s1 [e|token]]; cbn in Hg; [by eapply unique_no_tokens|].
  unfold mbind at 1, dbm_bind at 1, try_ at 1. pose proof (no_tokens_redeem (TrimSpace (DaCode req)) s1) as Hr.
  assert (no_tokens s (Redeem (TrimSpace (DaCode req)) s1).1) as Hs by (by etransitivity).
  destruct (Redeem _ s1) as [s2 [e|label]]; cbn in Hs.
  - destruct (isRedeemClientFault e); apply (unique_no_tokens s); auto.
  - apply Hins; [by intros n [?|?] ?|by eapply unique_no_tokens].
Qed.
Lemma unique_perform op s : token_unique s → token_unique (perform op s).1.
Proof.
  intros Hu. destruct op; cbn [perform fst]; rewrite ?answer_state; [| |by apply unique_device|..]; apply (unique_no_tokens s); auto.
  - assert (steps no_tokens (PostLogin signer r)) as H; [unfold PostLogin, redeem_session, Allowed, RecordFailure; steps_tac|apply H].
  - assert (steps no_tokens (PostAuth signer r)) as H; [unfold PostAuth, redeem_session, Allowed, RecordFailure; steps_tac|apply H].
  - assert (steps no_tokens (tcp_DeleteDevice r id)) as H;
      [unfold tcp_DeleteDevice, DeleteDevice, revoke_and_close, registry_RevokeDevice; steps_tac|apply H].
  - assert (steps no_tokens (mgmt_DeleteDevice id)) as H; [unfold mgmt_DeleteDevice, revoke_and_close, registry_RevokeDevice; steps_tac|apply H].
  - assert (steps no_tokens DeleteAllDevices) as H; [unfold DeleteAllDevices, RevokeAll; steps_tac|apply H].
  - assert (steps no_tokens (PostPair label)) as H; [unfold PostPair, pairing_Issue, GeneratePairingCode, InsertPairingCode; steps_tac|apply H].
  - apply no_tokens_purge.
  - assert (steps no_tokens (tcp_web signer r)) as H;
      [unfold tcp_web, WebAuth, bootstrap, verify_cookie, HasAnyDevice, session_Verify, GetDevice; steps_tac|apply H].
  - assert (steps no_tokens (handshake r)) as H; [unfold handshake, authenticateDevice, bearer_Verify, GetDeviceByTokenHash; steps_tac|apply H].
  - apply no_tokens_Register.
  - apply no_tokens_release.
  - by apply no_tokens_same.
Qed.
Lemma unique_run ops : ∀ s, token_unique s → token_unique (run ops s).1.
Proof.
  induction ops as [|op ops IH]; intros s Hu; cbn [run]; [done|]. pose proof (unique_perform op s Hu) as H1. destruct (perform op s) as [s1 g].
  specialize (IH s1 H1). by destruct (run ops s1) as [s2 gs].
Qed.

(** *** Being let in *)

(** The device of a context is in. *)
Definition device_in (s : AuthDB) (c : context) : Prop := ∀ id m, CtxDevice c = Some (id, m) → ∃ d, devices s !! id = Some d ∧ live d = true.
Lemma let_through_in s r c : let_through s r c → device_in s c.
Proof. intros Ha i m Hi. destruct Ha; cbn in Hi; simplify_eq; eauto. Qed.
(** The writes of verification let nobody in: no name is drawn. *)
Lemma develops_in s s' id d' :
  develops s s' → drawn s' = drawn s → devices s' !! id = Some d' → live d' = true → ∃ d, devices s !! id = Some d ∧ live d = true.
Proof. intros He Hn Hd Hl. destruct (ev_devices _ _ He _ _ Hd Hl) as [(d & Hd0 & Hl0 & _)|(n & Hb & _)]; [eauto|lia]. Qed.
Definition undrawn (s s' : AuthDB) : Prop := drawn s' = drawn s.
#[local] Instance undrawn_refl : Reflexive undrawn.
Proof. done. Qed.
#[local] Instance undrawn_trans : Transitive undrawn.
Proof. intros a b c. unfold undrawn. congruence. Qed.
#[local] Hint Extern 1 (steps undrawn (modify _)) => (apply steps_modify; intros; reflexivity) : steps.
Lemma undrawn_tcp r : steps undrawn (TCPAPIAuth signer r).
Proof.
  unfold TCPAPIAuth, bootstrap, verify_cookie, HasAnyDevice, bearer_Verify, session_Verify, GetDevice, GetDeviceByTokenHash, UpdateDeviceLastSeen.
  steps_tac.
Qed.
Lemma device_in_back s s' c : develops s s' → undrawn s s' → device_in s' c → device_in s c.
Proof. intros He Hn Hin id m Hc. destruct (Hin id m Hc) as (d & Hd & Hl). by eapply develops_in. Qed.
Lemma WebAuth_in r c c' s : (WebAuth signer r c s).2 = inr (Pass c') → c' = c ∨ device_in s c'.
Proof.
  unfold WebAuth. intros Hv. destruct (webAuthExempt _); [left; by injection Hv as <-|]. destruct (cookie r cookieName).
  - unfold verify_cookie in Hv. destruct signer as [secret|]; [|done]. rewrite try_verdict in Hv.
    destruct (session_Verify secret r s).2 as [e|id] eqn:Hs; [done|]. injection Hv as <-. apply session_Verify_ok in Hs as (_ & d & Hd & Hl).
    right. intros i m. cbn. intros [= <- _]. eauto.
  - rewrite bootstrap_verdict in Hv. injection Hv as Hv. revert Hv. destruct (from_loopback r); [|intros; discriminate].
    destruct (negb _); intros Hv; [discriminate Hv|]. left. congruence.
Qed.
Lemma tcp_web_in r c s : (tcp_web signer r s).2 = inr (Pass c) → device_in s c.
Proof.
  unfold tcp_web. pose proof (develops_tcp r s) as He. pose proof (undrawn_tcp r s) as Hd. pose proof (let_through_sound r s) as Ha.
  unfold mbind, dbm_bind. destruct (TCPAPIAuth signer r s) as [s1 [e|v]]; [done|]. cbn in *. destruct v as [c0| |]; [|done..].
  destruct (CSRF r c0) as [c1| |] eqn:Hcs; [|done..]. assert (c1 = c0) as -> by (unfold CSRF in Hcs; repeat case_match; naive_solver).
  intros [->|Hin]%WebAuth_in; [by eapply let_through_in, Ha|by eapply device_in_back].
Qed.
Lemma handshake_in r s id : (handshake r s).2 = inr (Some id) → ∃ d, devices s !! id = Some d ∧ live d = true.
Proof.
  unfold handshake. pose proof (develops_tcp r s) as He. pose proof (undrawn_tcp r s) as Hd. pose proof (let_through_sound r s) as Ha.
  unfold mbind, dbm_bind. destruct (TCPAPIAuth signer r s) as [s1 [e|v]]; [done|]. cbn in *. destruct v as [c| |]; [|done..].
  unfold authenticateDevice. destruct (CtxCLI c); [done|]. destruct (present_bearer r).
  - intros Hb. assert ((bearer_Verify r s1).2 = inr id) as Hv.
    { unfold mbind, dbm_bind in Hb. destruct (bearer_Verify r s1) as [s2 [e|x]]; [done|]. by injection Hb as ->. }
    apply bearer_Verify_ok in Hv as (t & d & _ & Hf). apply find_token_ok in Hf as (Hdv & Hl & _). by eapply develops_in.
  - destruct (CtxDevice c) as [[i m]|] eqn:Hc; [|done]. destruct (str_empty i); [done|]. intros [= <-]. by eapply let_through_in; [apply Ha|].
Qed.

(** *** Connections *)

(** What was told to close stays so, and what is registered was so before or is
    new. *)
Definition channels (s : AuthDB) (id : string) : gset nat := default ∅ (entries (conns s) !! id).
Definition closes (s s' : AuthDB) : Prop :=
  closed (conns s) ⊆ closed (conns s') ∧ (made (conns s) ≤ made (conns s'))%nat ∧
  ∀ id ch, ch ∈ channels s' id → ch ∈ channels s id ∨ (made (conns s) ≤ ch)%nat.
#[local] Instance closes_refl : Reflexive closes.
Proof. intros s. split_and!; [done|done|by left]. Qed.
#[local] Instance closes_trans : Transitive closes.
Proof.
  intros a b c (H1 & H2 & H3) (H4 & H5 & H6). split_and!; [set_solver|lia|]. intros id ch [Hb|Hn]%H6; [|right; lia]. by apply H3.
Qed.
Lemma closes_same s s' : conns s' = conns s → closes s s'.
Proof. intros H. unfold closes, channels. rewrite H. split_and!; [done|done|by left]. Qed.
Lemma close_all_closed l r : closed r ⊆ closed (foldr (λ kv r, close_all kv.2 r) r l) ∧ ∀ kv : string * gset nat, kv ∈ l → kv.2 ⊆ closed (foldr (λ kv r, close_all kv.2 r) r l).
Proof. induction l as [|x l [IH1 IH2]]; cbn; [set_solver|]. split; [set_solver|]. intros kv [->|Hin]%elem_of_cons; [set_solver|]. specialize (IH2 _ Hin). set_solver. Qed.
Lemma close_all_entries (l : list (string * gset nat)) r :
  entries (foldr (λ kv r, close_all kv.2 r) r l) = entries r ∧ made (foldr (λ kv r, close_all kv.2 r) r l) = made r.
Proof. by induction l as [|x l [IH1 IH2]]. Qed.
Lemma closes_revoke_all : steps closes RevokeAll.
Proof.
  intros s. unfold closes, channels, RevokeAll, modify. cbn [fst conns set_conns].
  destruct (close_all_closed (map_to_list (entries (conns s))) (drop_entries ∅ (conns s))) as [H _].
  destruct (close_all_entries (map_to_list (entries (conns s))) (drop_entries ∅ (conns s))) as [-> ->]. split_and!; [exact H|done|].
  intros id ch. cbn. rewrite lookup_empty. cbn. set_solver.
Qed.
Lemma closes_revoke id : steps closes (registry_RevokeDevice id).
Proof.
  intros s. unfold closes, channels, registry_RevokeDevice, modify. cbn. split_and!; [set_solver|done|]. intros i ch.
  destruct (decide (i = id)) as [->|Hi]; [rewrite lookup_delete_eq; cbn; set_solver|rewrite lookup_delete_ne by done; by left].
Qed.
Lemma closes_release id ch : steps closes (release_conn id ch).
Proof.
  intros s. unfold closes, channels, release_conn, modify. cbn. destruct (entries (conns s) !! id) as [chs|] eqn:He; [|split_and!; [done|done|by left]].
  cbn. split_and!; [done|done|]. intros i x. left. destruct (decide (i = id)) as [->|Hi].
  - rewrite He. revert H. case_bool_decide; [rewrite lookup_delete_eq|rewrite lookup_insert_eq]; cbn; set_solver.
  - revert H. case_bool_decide; [rewrite lookup_delete_ne by done|rewrite lookup_insert_ne by done]; done.
Qed.
Lemma closes_Register id : steps closes (register_conn id).
Proof.
  intros s. unfold closes, channels, register_conn. cbn. split_and!; [done|lia|]. intros i ch.
  destruct (decide (i = id)) as [->|Hi]; [rewrite lookup_insert_eq; cbn|rewrite lookup_insert_ne by done; by left].
  intros [->%elem_of_singleton|?]%elem_of_union; [right; lia|by left].
Qed.
#[local] Hint Extern 1 (steps closes (modify _)) => (apply steps_modify; intros; apply closes_same; reflexivity) : steps.
#[local] Hint Extern 1 (steps closes draw) => (intros ?; apply closes_same; reflexivity) : steps.
#[local] Hint Resolve closes_revoke_all closes_revoke closes_release closes_Register : steps.
Lemma closes_tcp r : steps closes (TCPAPIAuth signer r).
Proof.
  unfold TCPAPIAuth, bootstrap, verify_cookie, HasAnyDevice, bearer_Verify, session_Verify, GetDevice, GetDeviceByTokenHash, UpdateDeviceLastSeen.
  steps_tac.
Qed.
Lemma closes_session ip code no broken : steps closes (redeem_session signer ip code no broken).
Proof. unfold redeem_session, Allowed, Redeem, ConsumePairingCode, issueSession, InsertDevice, RecordFailure. steps_tac. Qed.
Lemma closes_revoke_close id : steps closes (revoke_and_close id).
Proof. unfold revoke_and_close, store_RevokeDevice. steps_tac. Qed.
#[local] Hint Resolve closes_tcp closes_session closes_revoke_close : steps.
Lemma closes_perform op s : closes s (perform op s).1.
Proof.
  destruct op; cbn [perform fst]; rewrite ?answer_state; [apply closes_session..| | | | | | | | | | |].
  - assert (steps closes (PostDevice canonical r body)) as H;
      [unfold PostDevice, Allowed, GenerateDeviceToken, Redeem, ConsumePairingCode, RecordFailure, InsertDeviceToken; steps_tac|apply H].
  - assert (steps closes (tcp_DeleteDevice r id)) as H; [unfold tcp_DeleteDevice, DeleteDevice; steps_tac|apply H].
  - apply closes_revoke_close.
  - assert (steps closes DeleteAllDevices) as H; [unfold DeleteAllDevices, RevokeAllDevices; steps_tac|apply H].
  - assert (steps closes (PostPair label)) as H; [unfold PostPair, pairing_Issue, GeneratePairingCode, InsertPairingCode; steps_tac|apply H].
  - assert (steps closes (DeleteRevokedDevices dryRun)) as H; [unfold DeleteRevokedDevices; steps_tac|apply H].
  - assert (steps closes (tcp_web signer r)) as H;
      [unfold tcp_web, WebAuth, bootstrap, verify_cookie, HasAnyDevice, session_Verify, GetDevice, UpdateDeviceLastSeen; steps_tac|apply H].
  - assert (steps closes (handshake r)) as H; [unfold handshake, authenticateDevice, bearer_Verify, GetDeviceByTokenHash, UpdateDeviceLastSeen; steps_tac|apply H].
  - apply closes_Register.
  - apply closes_release.
  - by apply closes_same.
Qed.

(** *** The same without the middleware's own checks *)
Definition guarded (path : string) : Prop := (∃ x, path = "/api/" +:+ x) ∧ path ≠ "/api/health" ∧ path ≠ "/api/auth/device".
(** An Authorization header of the scheme Bearer, in whatever shape, or more
    than one such header. *)
Definition bearer_header (r : Request) : Prop :=
  (∃ a b l, header_values r "Authorization" = a :: b :: l) ∨
  ∃ scheme rest, header_values r "Authorization" = [scheme +:+ rest] ∧ fold_name scheme = fold_name "Bearer" ∧
    all_chars (λ x, negb (is_blank x)) scheme = true ∧ (rest = "" ∨ starts_blank rest = true).
(** From the machine itself and not through a proxy. *)
Definition local_request (r : Request) : Prop :=
  header_get r "X-Forwarded-For" = "" ∧ header_get r "Cf-Connecting-Ip" = "" ∧ header_get r "Forwarded" = "" ∧
  (HrRemoteAddr r = "" ∨ HrRemoteAddr r = "@" ∨
   ∃ i, ParseIP (default (HrRemoteAddr r) (SplitHostPort (HrRemoteAddr r))) = Some i ∧ IsLoopback i = true).
Inductive admitted (s : AuthDB) (r : Request) : context → Prop :=
| adm_public : ¬ guarded (HrPath r) → admitted s r anonymous
| adm_bearer token id d :
    guarded (HrPath r) → presents r token →
    devices s !! id = Some d → DRevokedAt d = None → TokenHash d = Some (sha256 token) →
    admitted s r {| CtxDevice := Some (id, AuthMethodBearer); CtxCLI := false |}
| adm_cookie secret id d :
    guarded (HrPath r) → ¬ bearer_header r → signer = Some secret → cookie r "boid_session" = Some (session_Issue secret id) →
    devices s !! id = Some d → DRevokedAt d = None →
    admitted s r {| CtxDevice := Some (id, AuthMethodCookie); CtxCLI := false |}
| adm_bootstrap :
    guarded (HrPath r) → ¬ bearer_header r → cookie r "boid_session" = None → local_request r →
    (∀ id d, devices s !! id = Some d → DRevokedAt d ≠ None) → admitted s r anonymous.

Lemma starts_with_iff p x : starts_with p x = true ↔ ∃ y, x = p +:+ y.
Proof.
  unfold starts_with. rewrite bool_decide_eq_true. split; [intros [y H%strip_prefix_app]; eauto|]. intros [y ->]. rewrite strip_prefix_of. eauto.
Qed.
Lemma apiAuthRequired_iff path : apiAuthRequired path = true ↔ guarded path.
Proof. unfold apiAuthRequired, guarded. rewrite !andb_true_iff, starts_with_iff, !negb_true_iff, !bool_decide_eq_false. tauto. Qed.
Lemma cut_blank_none h : cut_blank h = None ↔ all_chars (λ x, negb (is_blank x)) h = true.
Proof.
  induction h as [|c h IH]; [done|]. cbn [cut_blank all_chars]. destruct (is_blank c); [done|]. cbn [negb andb]. rewrite <- IH.
  destruct (cut_blank h) as [[a b]|]; done.
Qed.
Lemma present_bearer_iff r : present_bearer r = true ↔ bearer_header r.
Proof.
  unfold present_bearer, ExtractBearerToken, bearer_header, EqualFold_bearer, bearerScheme.
  destruct (header_values r "Authorization") as [|h [|h' l]]; [split; [done|]; intros [(? & ? & ? & ?)|(? & ? & ? & _)]; done| |split; [intros _; left; eauto|done]].
  assert (∀ P : Prop, (∃ a b l, [h] = a :: b :: l) ∨ P ↔ P) as -> by (intros P; split; [intros [(? & ? & ? & ?)|?]; done|by right]).
  destruct (cut_blank h) as [[scheme rest]|] eqn:Hc.
  - apply cut_blank_spec in Hc as (c & -> & Hb & Hn).
    assert (str_empty (scheme +:+ String c rest) = false) as -> by (apply bool_decide_eq_false_2; by destruct scheme).
    assert (∀ sc re, [scheme +:+ String c rest] = [sc +:+ re] → all_chars (λ x, negb (is_blank x)) sc = true → re = "" ∨ starts_blank re = true → sc = scheme) as Huniq.
    { intros sc re [= Heq] Hsc Hre. assert (cut_blank (sc +:+ re) = Some (scheme, rest)) as Hcut by (rewrite <- Heq; apply cut_blank_spec; eauto).
      destruct Hre as [->|Hre]; [rewrite string_app_nil in Hcut; apply cut_blank_none in Hsc; congruence|]. destruct re as [|c' re]; [done|].
      assert (cut_blank (sc +:+ String c' re) = Some (sc, re)) as Hcut2 by (apply cut_blank_spec; eauto). congruence. }
    case_bool_decide as Hf; cbn [negb].
    + split; [intros _; exists scheme, (String c rest); split_and!; [done|done|done|by right]|]. intros _. by destruct (str_empty (trim_blanks rest)).
    + split; [done|]. intros (sc & re & Heq & Hsc & Hbl & Hre). destruct Hf. by rewrite <- (Huniq sc re Heq Hbl Hre).
  - apply cut_blank_none in Hc. assert (∀ sc re, [h] = [sc +:+ re] → re = "" ∨ starts_blank re = true → sc = h) as Huniq.
    { intros sc re [= Heq] [->|Hre]; [by rewrite Heq, string_app_nil|]. destruct re as [|c re]; [done|]. exfalso.
      assert (all_chars (λ x, negb (is_blank x)) (sc +:+ String c re) = true) as Hall by congruence. clear -Hall Hre. change (is_blank c = true) in Hre.
      induction sc as [|x sc IH]; [change (negb (is_blank c) && all_chars (λ x, negb (is_blank x)) re = true) in Hall; by rewrite Hre in Hall|].
      change (negb (is_blank x) && all_chars (λ x, negb (is_blank x)) (sc +:+ String c re) = true) in Hall. apply andb_true_iff in Hall as [_ Hall]. by apply IH. }
    destruct (str_empty h) eqn:He.
    + apply bool_decide_eq_true in He. subst h. split; [done|]. intros (sc & re & Heq & Hsc & _ & Hre). rewrite (Huniq sc re Heq Hre) in Hsc. done.
    + case_bool_decide as Hf.
      * split; [intros _; exists h, ""; rewrite string_app_nil; split_and!; [done|done|done|by left]|done].
      * split; [done|]. intros (sc & re & Heq & Hsc & _ & Hre). destruct Hf. by rewrite <- (Huniq sc re Heq Hre).
Qed.
Lemma from_loopback_iff r : from_loopback r = true ↔ local_request r.
Proof.
  unfold from_loopback, local_request, str_empty. destruct (decide (header_get r "X-Forwarded-For" = "")) as [->|H1];
    [|rewrite (bool_decide_false (header_get r "X-Forwarded-For" = "")) by done; cbn; naive_solver].
  destruct (decide (header_get r "Cf-Connecting-Ip" = "")) as [->|H2];
    [|rewrite (bool_decide_false (header_get r "Cf-Connecting-Ip" = "")) by done; cbn; naive_solver].
  destruct (decide (header_get r "Forwarded" = "")) as [->|H3];
    [|rewrite (bool_decide_false (header_get r "Forwarded" = "")) by done; cbn; naive_solver].
  rewrite !(bool_decide_true ("" = "")) by done. cbn [negb orb]. case_bool_decide as Ha; [cbn; tauto|]. cbn [orb]. case_bool_decide as Hb; [tauto|].
  destruct (ParseIP _) as [i|]; naive_solver.
Qed.
Lemma live_iff d : live d = true ↔ DRevokedAt d = None.
Proof. apply bool_decide_eq_true. Qed.
Lemma let_through_iff s r c : let_through s r c ↔ admitted s r c.
Proof.
  assert (∀ b : bool, b = false ↔ ¬ b = true) as Hb by (by intros []). split.
  - intros [Hp|token id d Hp Ht Hd Hl Hh|secret id d Hp Hbe Hs Hc Hd Hl|Hp Hbe Hc Hl Hn]; rewrite ?Hb, ?apiAuthRequired_iff, ?present_bearer_iff, ?from_loopback_iff, ?live_iff in *.
    + by apply adm_public.
    + by apply (adm_bearer _ _ token id d).
    + by apply (adm_cookie _ _ secret id d).
    + apply adm_bootstrap; auto. intros id d Hd Hr. apply live_iff in Hr. by rewrite (Hn _ _ Hd) in Hr.
  - intros [Hp|token id d Hp Ht Hd Hl Hh|secret id d Hp Hbe Hs Hc Hd Hl|Hp Hbe Hc Hl Hn].
    + apply lt_public. by rewrite Hb, apiAuthRequired_iff.
    + apply (lt_bearer _ _ token id d); [by apply apiAuthRequired_iff|done|done|by apply live_iff|done].
    + apply (lt_cookie _ _ secret id d); [by apply apiAuthRequired_iff|by rewrite Hb, present_bearer_iff|done|done|done|by apply live_iff].
    + apply lt_bootstrap; [by apply apiAuthRequired_iff|by rewrite Hb, present_bearer_iff|done|by apply from_loopback_iff|].
      intros id d Hd. rewrite Hb, live_iff. by apply (Hn id).
Qed.


(** *** Being put out *)

(** The three ways to revoke a device: over the socket, all at once, and by
    itself, with its token. *)
Definition revokes (s : AuthDB) (id : string) (op : operation) : Prop :=
  match op with
  | OpMgmtDelete i => i = id
  | OpDeleteAll => True
  | OpDelete r i => i = id ∧ id ≠ "" ∧ ∃ c, (TCPAPIAuth signer r s).2 = inr (Pass c) ∧ CtxDevice c = Some (id, AuthMethodBearer)
  | _ => False
  end.
(** The state after: the device is out and its connections are told to close. *)
Record put_out (id : string) (s s1 : AuthDB) : Prop := {
  po_out : ∀ d', devices s1 !! id = Some d' → live d' = false;
  po_drawn : drawn s1 = drawn s;
  po_made : made (conns s1) = made (conns s);
  po_closed : channels s id ⊆ closed (conns s1);
  po_gone : channels s1 id = ∅;
}.
Lemma revoke_and_close_puts_out s id d : devices s !! id = Some d → put_out id s (revoke_and_close id s).1.
Proof.
  intros Hd. unfold revoke_and_close, store_RevokeDevice, mbind, dbm_bind, try_, gets. rewrite Hd. split; unfold channels; cbn.
  - rewrite lookup_alter_eq, Hd. intros d' [= <-]. apply revoke_live.
  - done.
  - done.
  - set_solver.
  - by rewrite lookup_delete_eq.
Qed.
Lemma delete_all_puts_out s id : put_out id s (DeleteAllDevices s).1.
Proof.
  destruct (close_all_closed (map_to_list (entries (conns s))) (drop_entries ∅ (conns s))) as [_ H].
  destruct (close_all_entries (map_to_list (entries (conns s))) (drop_entries ∅ (conns s))) as [He Hm].
  assert (conns (DeleteAllDevices s).1 = foldr (λ kv r, close_all kv.2 r) (drop_entries ∅ (conns s)) (map_to_list (entries (conns s)))) as Hc by done.
  split; unfold channels; rewrite ?Hc, ?He, ?Hm; [|done|done| |done].
  - intros d'. change (devices (DeleteAllDevices s).1) with (revoke (wall s) <$> devices s). rewrite lookup_fmap.
    intros (d & _ & ->)%fmap_Some. apply revoke_live.
  - destruct (entries (conns s) !! id) as [chs|] eqn:Hent; cbn; [|set_solver]. apply (H (id, chs)). by apply elem_of_map_to_list.
Qed.
Definition same_conns (s s' : AuthDB) : Prop := conns s' = conns s.
#[local] Instance same_conns_refl : Reflexive same_conns.
Proof. done. Qed.
#[local] Instance same_conns_trans : Transitive same_conns.
Proof. intros a b c. unfold same_conns. congruence. Qed.
#[local] Hint Extern 1 (steps same_conns (modify _)) => (apply steps_modify; intros; reflexivity) : steps.
Lemma same_conns_tcp r : steps same_conns (TCPAPIAuth signer r).
Proof.
  unfold TCPAPIAuth, bootstrap, verify_cookie, HasAnyDevice, bearer_Verify, session_Verify, GetDevice, GetDeviceByTokenHash, UpdateDeviceLastSeen.
  steps_tac.
Qed.
(** Verifying a request deletes nobody. *)
Definition keeps_device (id : string) (s s' : AuthDB) : Prop := is_Some (devices s !! id) → is_Some (devices s' !! id).
#[local] Instance keeps_device_refl id : Reflexive (keeps_device id).
Proof. intros s H. exact H. Qed.
#[local] Instance keeps_device_trans id : Transitive (keeps_device id).
Proof. unfold keeps_device. intros a b c. auto. Qed.
#[local] Hint Extern 1 (steps (keeps_device _) (modify _)) => (apply steps_modify; intros ? Hkd; cbn; rewrite ?lookup_alter_is_Some; exact Hkd) : steps.
Lemma keeps_device_tcp id r : steps (keeps_device id) (TCPAPIAuth signer r).
Proof.
  unfold TCPAPIAuth, bootstrap, verify_cookie, HasAnyDevice, bearer_Verify, session_Verify, GetDevice, GetDeviceByTokenHash, UpdateDeviceLastSeen.
  steps_tac.
Qed.
Lemma revokes_puts_out s id d op : devices s !! id = Some d → revokes s id op → put_out id s (perform op s).1.
Proof.
  intros Hd. destruct op; try done; cbn [revokes perform fst].
  - intros (-> & Hne & c & Hp & Hc). unfold tcp_DeleteDevice. pose proof (same_conns_tcp r s) as Hs. pose proof (undrawn_tcp r s) as Hu.
    pose proof (keeps_device_tcp id r s (mk_is_Some _ _ Hd)) as [d' Hd']. unfold mbind, dbm_bind.
    destruct (TCPAPIAuth signer r s) as [s1 [e|v]]; [done|]. cbn in Hp. injection Hp as ->. unfold DeleteDevice.
    rewrite Hc, bool_decide_eq_true_2 by done. replace (str_empty id) with false by (symmetry; by apply bool_decide_eq_false). cbn [negb andb].
    destruct (revoke_and_close_puts_out s1 id d' Hd') as [H1 H2 H3 H4 H5]. unfold same_conns, undrawn in *. cbn in Hs, Hu.
    split; [done|congruence|congruence|unfold channels in *; by rewrite <- Hs|done].
  - intros ->. by eapply revoke_and_close_puts_out.
  - intros _. apply delete_all_puts_out.
Qed.

(** C11.  A revoked device is out, whichever of the three ways revoked it (over
    the socket, all devices at once, or by itself with its token): whatever
    happens afterwards, no request over TCP passes as it, neither to the API nor to
    the pages, no handshake of a terminal succeeds for it, the connections that
    were registered for it at that moment are told to close, and what is
    registered for it later is new.  Such a late registration follows a handshake
    made before the revocation, and nothing tells it to close
    ([late_connection_stays_open]).  The ids drawn later are other ones. *)
Theorem revoked_devices_stay_out ops s id d op r :
  devices s !! id = Some d → (∀ n, (drawn s ≤ n)%nat → fresh_device n ≠ id) → revokes s id op →
  let s' := (run (op :: ops) s).1 in
  (∀ c m, (TCPAPIAuth signer r s').2 = inr (Pass c) ∨ (tcp_web signer r s').2 = inr (Pass c) → CtxDevice c ≠ Some (id, m)) ∧
  (handshake r s').2 ≠ inr (Some id) ∧
  default ∅ (entries (conns s) !! id) ⊆ closed (conns s') ∧
  (∀ ch, ch ∈ default ∅ (entries (conns s') !! id) → (made (conns s) ≤ ch)%nat).
Proof.
  intros Hd Hfresh Hop s'. set (s1 := (perform op s).1). destruct (revokes_puts_out s id d op Hd Hop) as [Hout Hdr Hmade Hcl Hgone]. fold s1 in Hout, Hdr, Hmade, Hcl, Hgone.
  assert (s' = (run ops s1).1) as Hs' by (unfold s', s1; cbn [run]; destruct (perform op s); cbn; by destruct (run ops _)).
  assert (∀ d', devices s' !! id = Some d' → live d' = false) as Hno.
  { intros d' Hd'. destruct (live d') eqn:Hl; [|done]. rewrite Hs' in Hd'. pose proof (develops_run ops s1) as Hev.
    destruct (ev_devices _ _ Hev _ _ Hd' Hl) as [(e & He & Hle & _)|(n & Hn & Hid)]; [by rewrite (Hout _ He) in Hle|].
    exfalso. apply (Hfresh n); [lia|done]. }
  destruct (run_steps closes closes_perform ops s1) as (Hc1 & Hc2 & Hc3). split_and!.
  - intros c m Hp Hc. assert (device_in s' c) as Hin by (destruct Hp as [Hp|Hp]; [by eapply let_through_in, let_through_sound|by eapply tcp_web_in]).
    destruct (Hin _ _ Hc) as (e & He & Hl). by rewrite (Hno _ He) in Hl.
  - intros (e & He & Hl)%handshake_in. by rewrite (Hno _ He) in Hl.
  - rewrite Hs'. unfold channels in Hcl. set_solver.
  - intros ch Hch. rewrite Hs' in Hch. destruct (Hc3 id ch Hch) as [Hx|Hx]; [rewrite Hgone in Hx; set_solver|lia].
Qed.

(** *** Codes pay for devices *)
Definition spent (s : AuthDB) : gmap string PairingCode := filter (λ kv, is_Some (PConsumedAt kv.2)) (codes s).
(** At most [k] more devices than codes that were spent for them. *)
Definition owes (k : Z) (s s' : AuthDB) : Prop :=
  Z.of_nat (size (devices s')) + Z.of_nat (size (spent s)) ≤ Z.of_nat (size (devices s)) + Z.of_nat (size (spent s')) + k.
#[local] Instance owes_refl : Reflexive (owes 0).
Proof. intros s. unfold owes. lia. Qed.
#[local] Instance owes_trans : Transitive (owes 0).
Proof. intros a b c. unfold owes. lia. Qed.
Lemma owes_add j k a b c : owes j a b → owes k b c → owes (j + k) a c.
Proof. unfold owes. lia. Qed.
Lemma owes_same s s' : codes s' = codes s → (size (devices s') ≤ size (devices s))%nat → owes 0 s s'.
Proof. intros Hc Hd. unfold owes, spent. rewrite Hc. lia. Qed.
#[local] Hint Extern 1 (steps (owes 0) (modify _)) => (apply steps_modify; intros; apply owes_same; reflexivity) : steps.
#[local] Hint Extern 1 (steps (owes 0) draw) => (intros ?; apply owes_same; reflexivity) : steps.
#[local] Hint Extern 1 (steps (owes 0) (register_conn _)) => (intros ?; apply owes_same; reflexivity) : steps.
Lemma size_alter (f : Device → Device) id (m : gmap string Device) : size (alter f id m) = size m.
Proof. rewrite <- !size_dom. by rewrite dom_alter_L. Qed.
Lemma owes_seen id t : steps (owes 0) (UpdateDeviceLastSeen id t).
Proof. intros s. apply owes_same; [done|]. cbn. by rewrite size_alter. Qed.
Lemma owes_revoke id : steps (owes 0) (store_RevokeDevice id).
Proof. intros s. unfold store_RevokeDevice. rewrite bind_gets. destruct (devices s !! id); [|done]. apply owes_same; [done|]. cbn. by rewrite size_alter. Qed.
Lemma owes_revoke_all : steps (owes 0) RevokeAllDevices.
Proof. intros s. apply owes_same; [done|]. cbn. by rewrite map_size_fmap. Qed.
Lemma owes_purge dry : steps (owes 0) (DeleteRevokedDevices dry).
Proof. intros s. unfold DeleteRevokedDevices. rewrite bind_gets. destruct dry; [done|]. apply owes_same; [done|]. cbn. apply map_size_filter. Qed.
Lemma owes_release id ch : steps (owes 0) (release_conn id ch).
Proof. intros s. unfold release_conn, modify. cbn. destruct (entries (conns s) !! id); by apply owes_same. Qed.
Lemma spent_insert_new h c s : codes s !! h = None → PConsumedAt c = None → spent (set_codes s (<[h := c]> (codes s))) = spent s.
Proof.
  intros Hn Hc. unfold spent. cbn. apply map_eq. intros k. apply option_eq. intros x. rewrite !map_lookup_filter_Some.
  destruct (decide (k = h)) as [->|Hne]; [rewrite lookup_insert_eq, Hn|by rewrite lookup_insert_ne]. cbn.
  split; [intros [[= <-] [t Ht]]; by rewrite Hc in Ht|by intros [? _]].
Qed.
Lemma owes_issue label : steps (owes 0) (pairing_Issue label).
Proof.
  unfold pairing_Issue, GeneratePairingCode. apply steps_bind; [apply _|steps_tac|]. intros code s. rewrite bind_gets.
  apply (steps_bind_done (λ _, owes 0 s)); [|done]. unfold InsertPairingCode. rewrite bind_gets, bind_fail_if. case_bool_decide as Ht; [done|].
  unfold owes, modify. cbn [fst]. rewrite spent_insert_new; [cbn; lia| |done]. by apply eq_None_not_Some.
Qed.
Lemma Redeem_spends code s s' label : Redeem code s = (s', inr label) → owes (-1) s s'.
Proof.
  unfold Redeem, ConsumePairingCode, InTxDB. rewrite !bind_gets. destruct (codes s !! HashCode code) as [c|] eqn:Hc; [|done].
  rewrite !bind_fail_if. case_bool_decide as Hn; [done|]. destruct (_ <? _); [done|]. cbn. intros [= <- _].
  unfold owes, spent. cbn [devices codes set_codes]. rewrite map_filter_insert_True by (cbn; eauto). rewrite map_size_insert_None; [lia|].
  apply map_lookup_filter_None. right. intros x Hx. cbn. congruence.
Qed.
Lemma owes_redeem code : steps (owes 0) (Redeem code).
Proof.
  intros s. destruct (Redeem code s) as [s' [e|label]] eqn:Hr; [|apply Redeem_spends in Hr; unfold owes in *; cbn; lia].
  assert (s' = s) as -> by (unfold Redeem, ConsumePairingCode, InTxDB in Hr; case_match; case_match; naive_solver). done.
Qed.
#[local] Hint Resolve owes_seen owes_revoke owes_revoke_all owes_purge owes_release owes_issue owes_redeem : steps.

Lemma owes_insert id label h s : owes 1 s (InsertDevice id label h s).1.
Proof.
  destruct (InsertDevice_shape label h id s) as [->|[d ->]]; unfold owes; [lia|].
  change (spent (set_devices s (<[id := d]> (devices s)))) with (spent s). cbn [devices set_devices]. rewrite map_size_insert. destruct (devices s !! id); unfold Datatypes.id; lia.
Qed.
Lemma owes_insert_token id label h s : owes 1 s (InsertDeviceToken id label h s).1.
Proof.
  destruct (InsertDeviceToken_shape label h id s) as [->|[d ->]]; unfold owes; [lia|].
  change (spent (set_devices s (<[id := d]> (devices s)))) with (spent s). cbn [devices set_devices]. rewrite map_size_insert. destruct (devices s !! id); unfold Datatypes.id; lia.
Qed.
Lemma owes_session label s : owes 1 s (issueSession signer label s).1.
Proof.
  unfold issueSession. destruct signer as [secret|]; [|unfold owes; cbn; lia]. rewrite (bind_run _ _ s _ _ eq_refl).
  apply (steps_bind_done (λ _, owes 1 s)); [|done]. apply (owes_insert _ _ _ (set_wall s (wall s) (S (drawn s)))).
Qed.
(** What a code is redeemed for. *)
Lemma owes_redeemed {A} code (no : auth_err → authm A) (yes : string → authm A) s :
  (∀ e, steps (owes 0) (no e)) → (∀ label s, owes 1 s (yes label s).1) →
  owes 0 s ((v ← try_ (Redeem code); match v with inl e => no e | inr label => yes label end) s).1.
Proof.
  intros Hno Hyes. unfold mbind, dbm_bind, try_. pose proof (owes_redeem code s) as Hr. destruct (Redeem code s) as [s1 [e|label]] eqn:Hs.
  - etransitivity; [exact Hr|apply Hno].
  - apply (owes_add (-1) 1 s s1); [by eapply Redeem_spends|apply Hyes].
Qed.
Lemma owes_login ip code no broken : steps (owes 0) (redeem_session signer ip code no broken).
Proof.
  unfold redeem_session, Allowed. apply steps_bind; [apply _|steps_tac|]. intros ok. destruct (negb ok); [steps_tac|]. intros s.
  apply owes_redeemed; [unfold RecordFailure; steps_tac|]. intros label s1. apply (steps_bind_done (λ _, owes 1 s1)); [|by intros [?|?] ?].
  unfold try_. pose proof (owes_session label s1) as H. by destruct (issueSession signer label s1).
Qed.
Lemma owes_device canonical r body : steps (owes 0) (PostDevice canonical r body).
Proof.
  unfold PostDevice, Allowed. apply steps_bind; [apply _|steps_tac|]. intros ok. destruct (negb ok); [steps_tac|].
  destruct (str_empty canonical); [steps_tac|]. destruct body as [req|]; [|steps_tac]. destruct (_ || _ || _); [steps_tac|].
  apply steps_bind; [apply _|unfold GenerateDeviceToken; steps_tac|]. intros [e|token]; [steps_tac|]. intros s.
  apply owes_redeemed; [unfold RecordFailure; steps_tac|]. intros label s1. rewrite (bind_run _ _ s1 _ _ eq_refl).
  apply (steps_bind_done (λ _, owes 1 s1)); [|by intros [?|?] ?]. unfold try_.
  pose proof (owes_insert_token (fresh_device (drawn s1)) (if str_empty (TrimSpace (DaDeviceName req)) then label else TrimSpace (DaDeviceName req))
    (HashToken token) (set_wall s1 (wall s1) (S (drawn s1)))) as H. by destruct (InsertDeviceToken _ _ _ _).
Qed.
Lemma owes_tcp r : steps (owes 0) (TCPAPIAuth signer r).
Proof.
  unfold TCPAPIAuth, bootstrap, verify_cookie, HasAnyDevice, bearer_Verify, session_Verify, GetDevice, GetDeviceByTokenHash. steps_tac.
Qed.
Lemma owes_revoke_close id : steps (owes 0) (revoke_and_close id).
Proof. unfold revoke_and_close, registry_RevokeDevice. steps_tac. Qed.
#[local] Hint Resolve owes_tcp owes_revoke_close : steps.
Lemma owes_Register id : steps (owes 0) (register_conn id).
Proof. intros s. by apply owes_same. Qed.
Lemma owes_perform op s : owes 0 s (perform op s).1.
Proof.
  destruct op; cbn [perform fst]; rewrite ?answer_state; [apply owes_login..| | | | | | | | | | |].
  - apply owes_device.
  - assert (steps (owes 0) (tcp_DeleteDevice r id)) as H; [unfold tcp_DeleteDevice, DeleteDevice; steps_tac|apply H].
  - apply owes_revoke_close.
  - assert (steps (owes 0) DeleteAllDevices) as H; [unfold DeleteAllDevices, RevokeAll; steps_tac|apply H].
  - assert (steps (owes 0) (PostPair label)) as H; [unfold PostPair; steps_tac|apply H].
  - apply owes_purge.
  - assert (steps (owes 0) (tcp_web signer r)) as H;
      [unfold tcp_web, WebAuth, bootstrap, verify_cookie, HasAnyDevice, session_Verify, GetDevice; steps_tac|apply H].
  - assert (steps (owes 0) (handshake r)) as H; [unfold handshake, authenticateDevice, bearer_Verify, GetDeviceByTokenHash; steps_tac|apply H].
  - apply owes_Register.
  - apply owes_release.
  - by apply owes_same.
Qed.

Lemma Redeem_ok code s s1 label :
  Redeem code s = (s1, inr label) →
  ∃ c, codes s !! HashCode code = Some c ∧ PConsumedAt c = None ∧ wall s ≤ PExpiresAt c ∧
    codes s1 !! HashCode code = Some (consumed_at (wall s) c).
Proof.
  unfold Redeem, ConsumePairingCode, InTxDB. rewrite !bind_gets. destruct (codes s !! HashCode code) as [c|] eqn:Hc; [|done].
  rewrite !bind_fail_if. case_bool_decide as Hn; [done|]. destruct (Z.ltb_spec (PExpiresAt c) (wall s)); [done|]. cbn. intros [= <- _].
  exists c. split_and!; [done|by apply eq_None_not_Some|done|]. cbn [codes set_codes]. by rewrite lookup_insert_eq.
Qed.
Lemma Redeem_consumed code s c t : codes s !! HashCode code = Some c → PConsumedAt c = Some t → Redeem code s = (s, inl ErrCodeConsumed).
Proof. intros Hc Ht. unfold Redeem, ConsumePairingCode, InTxDB. rewrite !bind_gets, Hc, bind_fail_if. rewrite bool_decide_eq_true_2; [done|]. rewrite Ht. eauto. Qed.

(** C10.  A code pairs one device, once, and in time: starting without codes and
    devices, there are never more devices than codes that were spent; a code is
    accepted only within five minutes of its issue; and once it was accepted,
    whatever happens afterwards, it is refused as used and nothing changes. *)
Theorem codes_pair_once ops s :
  codes s = ∅ → devices s = ∅ →
  let s' := (run ops s).1 in
  (size (devices s') ≤ size (spent s'))%nat ∧
  ∀ code label s1, Redeem code s' = (s1, inr label) →
    (∃ c, codes s' !! HashCode code = Some c ∧ PConsumedAt c = None ∧ wall s' ≤ PCreatedAt c + 5 * minute) ∧
    ∀ later s2, (run later s1).1 = s2 → Redeem code s2 = (s2, inl ErrCodeConsumed).
Proof.
  intros Hc Hd s'. split.
  - pose proof (run_steps (owes 0) owes_perform ops s) as H. fold s' in H. unfold owes, spent at 1 in H. rewrite Hc, Hd in H.
    rewrite map_filter_empty, !map_size_empty in H. lia.
  - intros code label s1 Hr. apply Redeem_ok in Hr as (c & Hcode & Hn & Ht & Hs1). split.
    + exists c. split_and!; [done..|]. destruct (ev_expiry _ _ (develops_run ops s) _ _ Hcode) as [He|(x & Hx & _)]; [lia|].
      by rewrite Hc, lookup_empty in Hx.
    + intros later s2 <-. destruct (ev_codes _ _ (develops_run later s1) _ _ Hs1) as (c2 & Hc2 & Hk).
      eapply Redeem_consumed; [exact Hc2|]. by apply Hk.
Qed.

(** *** A token keeps working *)
Lemma PostDevice_paired canonical r body s s1 id token url :
  PostDevice canonical r body s = (s1, inr (Paired id token url)) → ∃ d, devices s1 !! id = Some d ∧ live d = true ∧ TokenHash d = Some (HashToken token).
Proof.
  unfold PostDevice. intros (ok & sa & _ & Hk)%bind_ok. destruct (negb ok); [done|]. destruct (str_empty canonical); [done|].
  destruct body as [req|]; [|done]. destruct (_ || _ || _); [done|]. apply bind_ok in Hk as (t & sb & _ & Hk). destruct t as [e|tok]; [done|].
  apply bind_ok in Hk as (v & sc & _ & Hk). destruct v as [e|label].
  - destruct (isRedeemClientFault e); [|done]. by apply bind_ok in Hk as (u & sd & _ & Hk).
  - apply bind_ok in Hk as (n & sd & _ & Hk). apply bind_ok in Hk as (v & se & Hins & Hk). destruct v as [e|[]]; [done|].
    injection Hk as <- <- <- _. apply try_ok in Hins. unfold InsertDeviceToken in Hins. rewrite bind_gets, bind_fail_if in Hins.
    destruct (_ || _); [done|]. injection Hins as <-. eexists. cbn [devices set_devices]. by rewrite lookup_insert_eq.
Qed.
(** The token a device was given lets it in as itself, for as long as it is not
    revoked, whoever else is paired and revoked meanwhile. *)
Theorem paired_tokens_work canonical r0 body s s1 id token url ops r :
  devices s = ∅ → PostDevice canonical r0 body s = (s1, inr (Paired id token url)) →
  (∀ n, (drawn s1 ≤ n)%nat → fresh_device n ≠ id) →
  let s' := (run ops s1).1 in
  (∃ d, devices s' !! id = Some d ∧ live d = true) → presents r token → apiAuthRequired (HrPath r) = true →
  (TCPAPIAuth signer r s').2 = inr (Pass (as_device id AuthMethodBearer anonymous)).
Proof.
  intros Hs Hp Hfresh s' (d & Hd & Hl) Hr Hpath. apply let_through_complete.
  - apply unique_run. assert (s1 = (PostDevice canonical r0 body s).1) as -> by (by rewrite Hp). apply unique_device.
    intros i j x y h Hx. by rewrite Hs, lookup_empty in Hx.
  - destruct (PostDevice_paired _ _ _ _ _ _ _ _ Hp) as (e & He & _ & Ht).
    destruct (ev_devices _ _ (develops_run ops s1) _ _ Hd Hl) as [(e' & He' & _ & Ht')|(n & Hn & Hid)]; [|exfalso; apply (Hfresh n); [lia|done]].
    eapply (lt_bearer s' r token id d); auto. congruence.
Qed.

(** *** No channel is closed twice *)
Record conns_ok (r : registry) : Prop := {
  co_quiet : panicked r = false;
  co_open : ∀ id chs ch, entries r !! id = Some chs → ch ∈ chs → (ch ∉ closed r) ∧ (ch < made r)%nat;
  co_closed : ∀ ch, ch ∈ closed r → (ch < made r)%nat;
  co_own : ∀ i j a b ch, entries r !! i = Some a → entries r !! j = Some b → ch ∈ a → ch ∈ b → i = j;
}.
Definition keeps_conns (s s' : AuthDB) : Prop := conns_ok (conns s) → conns_ok (conns s').
#[local] Instance keeps_conns_refl : Reflexive keeps_conns.
Proof. intros s H. exact H. Qed.
#[local] Instance keeps_conns_trans : Transitive keeps_conns.
Proof. unfold keeps_conns. intros a b c. auto. Qed.
#[local] Hint Extern 1 (steps keeps_conns (modify _)) => (apply steps_modify; intros ? ?; assumption) : steps.
#[local] Hint Extern 1 (steps keeps_conns draw) => (intros ? ?; assumption) : steps.
Lemma keeps_Register id : steps keeps_conns (register_conn id).
Proof.
  intros s [Hq Ho Hc Hi]. split; cbn; [done|..].
  - intros i chs ch [[<- <-]|[_ He]]%lookup_insert_Some Hch; [|destruct (Ho _ _ _ He Hch); split; [done|lia]].
    apply elem_of_union in Hch as [->%elem_of_singleton|Hch]; [split; [|lia]; intros Hx; apply Hc in Hx; lia|].
    destruct (entries (conns s) !! id) as [old|] eqn:He; [destruct (Ho _ _ _ He Hch); split; [done|lia]|set_solver].
  - intros ch Hch. apply Hc in Hch. lia.
  - assert (∀ j b ch, entries (conns s) !! j = Some b → ch ∈ b → ch ∈ {[made (conns s)]} ∪ default ∅ (entries (conns s) !! id) → j = id) as Hnew.
    { intros j b ch Hb Hch [->%elem_of_singleton|Hold]%elem_of_union; [destruct (Ho _ _ _ Hb Hch); lia|].
      destruct (entries (conns s) !! id) as [old|] eqn:He; [by eapply Hi|set_solver]. }
    intros i j a b ch [[<- <-]|[_ Ha]]%lookup_insert_Some [[<- <-]|[_ Hb]]%lookup_insert_Some H1 H2; [done|symmetry; by eapply Hnew|by eapply Hnew|by eapply Hi].
Qed.
Lemma keeps_sub (r r' : registry) :
  (∀ id chs, entries r' !! id = Some chs → ∃ old, entries r !! id = Some old ∧ chs ⊆ old) →
  closed r' = closed r → made r' = made r → panicked r' = panicked r → conns_ok r → conns_ok r'.
Proof.
  intros He Hcl Hm Hp [Hq Ho Hc Hi]. split; rewrite ?Hcl, ?Hm, ?Hp; [done|..|done|].
  - intros id chs ch Hd Hch. destruct (He _ _ Hd) as (old & Hold & Hsub). eapply Ho; [done|set_solver].
  - intros i j a b ch Ha Hb H1 H2. destruct (He _ _ Ha) as (x & Hx & Hsx). destruct (He _ _ Hb) as (y & Hy & Hsy). apply (Hi i j x y ch); set_solver.
Qed.
Lemma keeps_release id ch : steps keeps_conns (release_conn id ch).
Proof.
  intros s. unfold keeps_conns, release_conn, modify. cbn. destruct (entries (conns s) !! id) as [chs|] eqn:He; [|done]. apply keeps_sub; [|done..]. cbn.
  intros i x. case_bool_decide.
  - intros [_ Hx]%lookup_delete_Some. eauto.
  - intros [[<- <-]|[_ Hx]]%lookup_insert_Some; [exists chs; split; [done|set_solver]|eauto].
Qed.
(** Closing what one entry holds, which is no longer in the table. *)
Lemma keeps_close chs r :
  (∀ ch, ch ∈ chs → (ch ∉ closed r) ∧ (ch < made r)%nat) → (∀ id a ch, entries r !! id = Some a → ch ∈ a → ch ∉ chs) → conns_ok r → conns_ok (close_all chs r).
Proof.
  intros Hn Hd [Hq Ho Hc Hi]. split; cbn; [rewrite Hq; cbn; rewrite bool_decide_eq_true_2; [done|set_solver]|..|done].
  - intros id a ch Ha Hch. destruct (Ho _ _ _ Ha Hch). specialize (Hd _ _ _ Ha Hch). set_solver.
  - intros ch [Hch|Hch]%elem_of_union; [by apply Hn|by apply Hc].
Qed.
Lemma keeps_revoke id : steps keeps_conns (registry_RevokeDevice id).
Proof.
  intros s Hok. unfold registry_RevokeDevice, modify. cbn. pose proof Hok as [Hq Ho Hc Hi]. apply keeps_close; cbn.
  - intros ch Hch. destruct (entries (conns s) !! id) as [chs|] eqn:He; [by eapply Ho|set_solver].
  - intros i a ch [Hne Ha]%lookup_delete_Some Hch Hx. destruct (entries (conns s) !! id) as [chs|] eqn:He; [|set_solver]. apply Hne. by eapply Hi.
  - revert Hok. apply keeps_sub; [|done..]. cbn. intros i x [_ Hx]%lookup_delete_Some. eauto.
Qed.
Lemma keeps_revoke_all : steps keeps_conns RevokeAll.
Proof.
  intros s Hok. unfold RevokeAll, modify. cbn [fst]. unfold set_conns. cbn [conns]. destruct Hok as [Hq Ho Hc Hi].
  set (r := conns s) in *. assert (∀ l, l ⊆ map_to_list (entries r) → NoDup l.*1 →
    let r' := foldr (λ kv r, close_all kv.2 r) (drop_entries ∅ r) l in
    conns_ok r' ∧ entries r' = ∅ ∧ made r' = made r ∧ ∀ ch, ch ∈ closed r' → ch ∈ closed r ∨ ∃ kv, kv ∈ l ∧ ch ∈ kv.2) as Hall.
  { induction l as [|[id chs] l IH]; intros Hsub Hnd; cbn [foldr].
    - split_and!; [|done|done|by left]. split; cbn; [done|set_solver|done|set_solver].
    - cbn in Hnd. apply NoDup_cons in Hnd as [Hnin Hnd]. destruct IH as (Hok & He & Hm & Hcl); [set_solver|done|].
      assert (entries r !! id = Some chs) as Hid by (apply elem_of_map_to_list, Hsub; left). split_and!.
      + apply keeps_close; [|rewrite He; intros ? ? ? Hx; by rewrite lookup_empty in Hx|done]. cbn [snd]. intros ch Hch.
        destruct (Ho _ _ _ Hid Hch) as [Hno Hlt]. split; [|by rewrite Hm]. intros [Hx|([j b] & Hj & Hb)]%Hcl; [done|]. cbn in Hb.
        apply Hnin. assert (entries r !! j = Some b) as Hj' by (apply elem_of_map_to_list, Hsub; by right).
        rewrite (Hi id j chs b ch) by done. apply list_elem_of_fmap. by exists (j, b).
      + done.
      + done.
      + cbn. intros ch [Hch|[Hx|(kv & Hkv & Hx)]%Hcl]%elem_of_union; [right; exists (id, chs); split; [left|done]|by left|right; exists kv; split; [by right|done]]. }
  apply (Hall (map_to_list (entries r))); [done|apply NoDup_fst_map_to_list].
Qed.
#[local] Hint Resolve keeps_Register keeps_release keeps_revoke keeps_revoke_all : steps.
Lemma keeps_tcp r : steps keeps_conns (TCPAPIAuth signer r).
Proof.
  unfold TCPAPIAuth, bootstrap, verify_cookie, HasAnyDevice, bearer_Verify, session_Verify, GetDevice, GetDeviceByTokenHash, UpdateDeviceLastSeen.
  steps_tac.
Qed.
Lemma keeps_session ip code no broken : steps keeps_conns (redeem_session signer ip code no broken).
Proof. unfold redeem_session, Allowed, Redeem, ConsumePairingCode, issueSession, InsertDevice, RecordFailure. steps_tac. Qed.
Lemma keeps_revoke_close id : steps keeps_conns (revoke_and_close id).
Proof. unfold revoke_and_close, store_RevokeDevice. steps_tac. Qed.
#[local] Hint Resolve keeps_tcp keeps_session keeps_revoke_close : steps.
Lemma keeps_perform op s : keeps_conns s (perform op s).1.
Proof.
  destruct op; cbn [perform fst]; rewrite ?answer_state; [apply keeps_session..| | | | | | | | | | |].
  - assert (steps keeps_conns (PostDevice canonical r body)) as H;
      [unfold PostDevice, Allowed, GenerateDeviceToken, Redeem, ConsumePairingCode, RecordFailure, InsertDeviceToken; steps_tac|apply H].
  - assert (steps keeps_conns (tcp_DeleteDevice r id)) as H; [unfold tcp_DeleteDevice, DeleteDevice; steps_tac|apply H].
  - apply keeps_revoke_close.
  - assert (steps keeps_conns DeleteAllDevices) as H; [unfold DeleteAllDevices, RevokeAllDevices; steps_tac|apply H].
  - assert (steps keeps_conns (PostPair label)) as H; [unfold PostPair, pairing_Issue, GeneratePairingCode, InsertPairingCode; steps_tac|apply H].
  - assert (steps keeps_conns (DeleteRevokedDevices dryRun)) as H; [unfold DeleteRevokedDevices; steps_tac|apply H].
  - assert (steps keeps_conns (tcp_web signer r)) as H;
      [unfold tcp_web, WebAuth, bootstrap, verify_cookie, HasAnyDevice, session_Verify, GetDevice, UpdateDeviceLastSeen; steps_tac|apply H].
  - assert (steps keeps_conns (handshake r)) as H; [unfold handshake, authenticateDevice, bearer_Verify, GetDeviceByTokenHash, UpdateDeviceLastSeen; steps_tac|apply H].
  - apply keeps_Register.
  - apply keeps_release.
  - intros H. exact H.
Qed.
(** However connections come and go and devices are revoked, no channel is
    closed twice, which would bring the daemon down. *)
Theorem connections_close_once ops s : conns_ok (conns s) → panicked (conns (run ops s).1) = false.
Proof. intros Hok. apply co_quiet. revert Hok. apply (run_steps keeps_conns), keeps_perform. Qed.

Lemma strip_prefix_longer a b s x : strip_prefix (a +:+ b) s = Some x → is_Some (strip_prefix a s).
Proof.
  revert s. induction a as [|c a IH]; intros s Hx; [by eexists|]. destruct s as [|d s]; [discriminate Hx|].
  change (strip_prefix (String c a +:+ b) (String d s)) with (if bool_decide (c = d) then strip_prefix (a +:+ b) s else None) in Hx.
  cbn. destruct (bool_decide (c = d)); [by apply IH|done].
Qed.

(** A page of the web UI is served over TCP to a browser with the cookie of a
    device that is in, or from the machine itself while none is; and a request
    that may change something repeats the token of its second cookie. *)
Theorem pages_need_a_session s r c :
  (tcp_web signer r s).2 = inr (Pass c) → webAuthExempt (HrPath r) = false → starts_with "/api/" (HrPath r) = false →
  ((∃ secret id d, signer = Some secret ∧ cookie r cookieName = Some (session_Issue secret id) ∧
      devices s !! id = Some d ∧ live d = true ∧ CtxDevice c = Some (id, AuthMethodCookie)) ∨
   (cookie r cookieName = None ∧ from_loopback r = true ∧ (∀ id d, devices s !! id = Some d → live d = false) ∧ CtxDevice c = None)) ∧
  (safe_method (HrMethod r) = false → ∃ v, v ≠ "" ∧ cookie r csrfCookieName = Some v ∧ csrf_submitted r = v).
Proof.
  intros Hw Hex Hapi. unfold tcp_web, TCPAPIAuth in Hw. unfold apiAuthRequired in Hw. rewrite Hapi in Hw. cbn [andb negb] in Hw.
  unfold mbind, dbm_bind, mret, dbm_ret in Hw. cbn [fst snd] in Hw. destruct (CSRF r anonymous) as [c1| |] eqn:Hcs; [|done..].
  assert (c1 = anonymous) as -> by (unfold CSRF in Hcs; repeat case_match; naive_solver). split.
  - unfold WebAuth in Hw. rewrite Hex in Hw. destruct (cookie r cookieName) as [v|] eqn:Hc.
    + left. unfold verify_cookie in Hw. destruct signer as [secret|]; [|done]. rewrite try_verdict in Hw.
      destruct (session_Verify secret r s).2 as [e|id] eqn:Hs; [done|]. injection Hw as <-. apply session_Verify_ok in Hs as (Hi & d & Hd & Hl).
      exists secret, id, d. split_and!; [done|congruence|done..].
    + right. rewrite bootstrap_verdict in Hw. destruct (from_loopback r); [|done]. pose proof (HasAnyDevice_false s) as Hh.
      destruct (HasAnyDevice s).2 as [e|[]]; [done..|]. injection Hw as <-. split_and!; [done..| |done]. by apply Hh.
  - intros Hm. unfold CSRF in Hcs. rewrite Hm, orb_false_r in Hcs. assert (csrfExempt r = false) as Hce.
    { unfold csrfExempt. rewrite Hapi, orb_false_r. unfold webAuthExempt in Hex. apply orb_false_iff in Hex as [[_ Hau]%orb_false_iff _].
      unfold starts_with in *. apply bool_decide_eq_false in Hau. apply orb_false_iff. split; apply bool_decide_eq_false_2.
      - intros Hp. rewrite Hp in Hau. apply Hau. by eexists.
      - intros [x Hx]. apply Hau. exact (strip_prefix_longer "/auth" "/" _ _ Hx). }
    rewrite Hce in Hcs. destruct (cookie r csrfCookieName) as [v|]; [|done]. exists v.
    destruct (str_empty v) eqn:Hv; [done|]. destruct (str_empty (csrf_submitted r)); [done|]. cbn in Hcs.
    destruct (bool_decide (csrf_submitted r = v)) eqn:Hsub; [|done]. apply bool_decide_eq_true in Hsub. apply bool_decide_eq_false in Hv. done.
Qed.
End runs.

(** ** Codes as people type them *)
Lemma decode_ascii b l : (b < 128)%N → decode_rune (b :: l ++ [0; 0; 0]%N) = (b, 1%nat).
Proof. intros Hb. destruct l as [|x [|y [|z l]]]; cbn; by rewrite (proj2 (N.ltb_lt _ _) Hb). Qed.
Lemma runes_ascii l : Forall (λ b, b < 128)%N l → runes_from 0 l = l.
Proof. induction 1 as [|b l Hb _ IH]; [done|]. cbn [runes_from]. rewrite decode_ascii by done. cbn. by rewrite IH. Qed.
Lemma code_char_rune i : (i < 32)%nat → (N_of_ascii (code_char i) < 128)%N ∧ code_rune (N_of_ascii (code_char i)) = Some (code_char i).
Proof.
  intros Hi. assert (forallb (λ i, (N_of_ascii (code_char i) <? 128)%N && bool_decide (code_rune (N_of_ascii (code_char i)) = Some (code_char i))) (seq 0 32) = true)
    as Hall by (vm_compute; reflexivity).
  rewrite forallb_forall in Hall. specialize (Hall i). rewrite in_seq in Hall. specialize (Hall ltac:(lia)). apply andb_true_iff in Hall as [H1 H2].
  by apply N.ltb_lt in H1; apply bool_decide_eq_true in H2.
Qed.
Lemma code_char_inj i j : (i < 32)%nat → (j < 32)%nat → code_char i = code_char j → i = j.
Proof.
  intros Hi Hj Heq. assert (NoDup (code_char <$> seq 0 32)) as Hnd by (apply (bool_decide_eq_true_1 (NoDup _)); vm_compute; reflexivity).
  apply (NoDup_lookup (code_char <$> seq 0 32) i j (code_char i)); [done|..]; rewrite list_lookup_fmap, lookup_seq_lt by lia; rewrite Nat.add_0_l; unfold fmap, option_fmap, option_map; congruence.
Qed.
(** A code as it was printed is read as its eight characters. *)
Lemma NormalizeCode_text draws : Forall (λ i, i < 32)%nat draws → NormalizeCode (code_text draws) = String.string_of_list_ascii (code_char <$> draws).
Proof.
  intros Hd. unfold NormalizeCode, runes, code_text. rewrite String.list_ascii_of_string_of_list_ascii. f_equal.
  assert (∀ l, Forall (λ i, i < 32)%nat l → Forall (λ b, b < 128)%N (N_of_ascii <$> (code_char <$> l)) ∧ omap code_rune (N_of_ascii <$> (code_char <$> l)) = code_char <$> l) as Hl.
  { induction 1 as [|i l Hi _ [IH1 IH2]]; [done|]. destruct (code_char_rune i Hi) as [H1 H2]. split; [by constructor|].
    rewrite !fmap_cons. cbn [omap list_omap]. rewrite H2. f_equal. exact IH2. }
  rewrite <- fmap_take, <- fmap_drop, fmap_app, fmap_cons.
  destruct (Hl (take 4 draws) (Forall_take _ _ _ Hd)) as [Ha1 Ha2]. destruct (Hl (drop 4 draws) (Forall_drop _ _ _ Hd)) as [Hb1 Hb2].
  rewrite runes_ascii by (apply Forall_app; split; [done|]; constructor; [done|done]).
  rewrite omap_app. cbn [omap list_omap]. change (code_rune (N_of_ascii "-")) with (None : option ascii). cbn. rewrite Ha2, Hb2. by rewrite <- fmap_app, take_drop.
Qed.
(** Two codes that differ in a draw are never taken for each other. *)
Theorem codes_do_not_collide a b :
  Forall (λ i, i < 32)%nat a → Forall (λ i, i < 32)%nat b → NormalizeCode (code_text a) = NormalizeCode (code_text b) → a = b.
Proof.
  intros Ha Hb Heq. rewrite !NormalizeCode_text in Heq by done. apply (f_equal String.list_ascii_of_string) in Heq.
  rewrite !String.list_ascii_of_string_of_list_ascii in Heq. revert b Hb Heq. induction Ha as [|i a Hi _ IH]; intros [|j b] Hb Heq; cbn in Heq; [done..|].
  injection Heq as Hij Heq. apply Forall_cons in Hb as [Hj Hb]. f_equal; [by apply code_char_inj|by apply IH].
Qed.
Example typed_codes :
  NormalizeCode "abcd-2345" = "ABCD2345" ∧ NormalizeCode " ABCD 2345 " = "ABCD2345" ∧ NormalizeCode "ａｂｃｄ－２３４５" = "ABCD2345".
Proof. vm_compute. done. Qed.

(** ** A daemon, a browser and a command line *)
Definition crosses (n : nat) : string := String.string_of_list_ascii (repeat "x"%char n).
Definition sample_auth : AuthEnv := {|
  sha256 := λ s, "h:" +:+ s;
  hmac_sha256 := λ k m, k +:+ m;
  random_token := λ n, Some (crosses n);
  random_index := λ n, repeat (Nat.modulo n 32) 8;
  fresh_device := λ n, "dev" +:+ crosses n;
  SplitHostPort := λ a, if bool_decide (a = "127.0.0.1:5000") then Some "127.0.0.1" else if bool_decide (a = "10.0.0.7:5000") then Some "10.0.0.7" else None;
  ParseIP := λ a, if bool_decide (a = "127.0.0.1") then Some [127; 0; 0; 1] else if bool_decide (a = "10.0.0.7") then Some [10; 0; 0; 7] else None;
  IP_String := λ a, "ip";
|}.
Definition empty_db : AuthDB :=
  {| codes := ∅; devices := ∅; limiter := ∅; conns := {| entries := ∅; closed := ∅; made := 0; panicked := false |}; wall := 1000; drawn := 0 |}.
Definition http (method path : string) (headers : gmap string (list string)) (cookies : list (string * string)) (addr : string) : Request :=
  {| HrMethod := method; HrPath := path; HrHeader := headers; HrCookies := cookies; HrForm := Some ∅; HrRemoteAddr := addr |}.
Definition from_outside : Request := http "POST" "/api/auth/device" ∅ [] "10.0.0.7:5000".
Definition with_token (token : string) : Request :=
  http "GET" "/api/tasks" {["Authorization" := ["bearer  " +:+ token]]} [] "10.0.0.7:5000".
(** A code is issued and a command line pairs itself with it. *)
Definition pairing : list operation :=
  [OpPair "laptop"; OpDevice "https://boid" from_outside (Some {| DaCode := " aaaa aaaa "; DaDeviceName := "" |})].
Definition guess_wrong : operation := OpDevice "https://boid" from_outside (Some {| DaCode := "ZZZZ-ZZZZ"; DaDeviceName := "" |}).

Lemma guesses_are_limited_witness :
  (length (filter (λ g : string * Z, g.1 = "10.0.0.7" ∧ (1000 ≤ g.2 < 1000 + rateLimitWindow)%Z)
             (run (E := sample_auth) (Some "k") (repeat guess_wrong 8) empty_db).2) ≤ rateLimitMax)%nat ∧
  length (run (E := sample_auth) (Some "k") (repeat guess_wrong 8) empty_db).2 = 5%nat.
Proof. split; [apply (guesses_are_limited (E := sample_auth) (Some "k") (repeat guess_wrong 8) empty_db); reflexivity|vm_compute; reflexivity]. Defined.


(** The device attaches to a terminal before it is revoked. *)
Definition attached_auth : AuthDB := (run (E := sample_auth) (Some "k") (pairing ++ [OpHandshake (with_token "boid_pat_x"); OpRegister "devxx"]) empty_db).1.
Definition paired_device : Device :=
  {| DLabel := "laptop"; CookieHash := None; TokenHash := Some "h:boid_pat_x"; DCreatedAt := 1000; DLastSeenAt := 1000; DRevokedAt := None |}.
Lemma marks_length n : String.length ("dev" +:+ crosses n) = (3 + n)%nat.
Proof. rewrite string_length_app. cbn. do 3 f_equal. induction n as [|n IH]; [reflexivity|]. cbn. by f_equal. Qed.
Lemma revoked_devices_stay_out_witness :
  default ∅ (entries (conns attached_auth) !! "devxx") = {[0%nat]} ∧
  {[0%nat]} ⊆ closed (conns (run (E := sample_auth) (Some "k") [OpMgmtDelete "devxx"] attached_auth).1).
Proof.
  destruct (revoked_devices_stay_out (E := sample_auth) (Some "k") [] attached_auth "devxx" paired_device (OpMgmtDelete "devxx") (with_token "boid_pat_x"))
    as (_ & _ & H & _).
  - vm_compute. reflexivity.
  - intros n Hn Heq. apply (f_equal String.length) in Heq. change (fresh_device n) with ("dev" +:+ crosses n) in Heq. rewrite marks_length in Heq.
    assert (drawn attached_auth = 3%nat) as Hd by (vm_compute; reflexivity). rewrite Hd in Hn. cbn in Heq. lia.
  - reflexivity.
  - split; [vm_compute; reflexivity|]. exact H.
Defined.

Lemma codes_pair_once_witness :
  size (devices (run (E := sample_auth) (Some "k") pairing empty_db).1) = 1%nat ∧
  Redeem (E := sample_auth) "AAAA-AAAA" (run (E := sample_auth) (Some "k") pairing (Redeem (E := sample_auth) "AAAA-AAAA" (run (E := sample_auth) (Some "k") [OpPair "laptop"] empty_db).1).1).1 =
    ((run (E := sample_auth) (Some "k") pairing (Redeem (E := sample_auth) "AAAA-AAAA" (run (E := sample_auth) (Some "k") [OpPair "laptop"] empty_db).1).1).1, inl ErrCodeConsumed).
Proof.
  split; [vm_compute; reflexivity|].
  destruct (codes_pair_once (E := sample_auth) (Some "k") [OpPair "laptop"] empty_db) as [_ H]; [reflexivity..|].
  destruct (H "AAAA-AAAA" "laptop" (Redeem (E := sample_auth) "AAAA-AAAA" (run (E := sample_auth) (Some "k") [OpPair "laptop"] empty_db).1).1) as [_ Hlater];
    [vm_compute; reflexivity|]. apply (Hlater pairing). reflexivity.
Defined.

(** Revoking the last device opens the daemon to the machine it runs on. *)
Example revoking_all_reopens_bootstrap :
  let local := http "GET" "/api/tasks" ∅ [] "127.0.0.1:5000" in
  let paired := (run (E := sample_auth) (Some "k") pairing empty_db).1 in
  (TCPAPIAuth (E := sample_auth) (Some "k") local paired).2 = inr (Refuse 401) ∧
  (TCPAPIAuth (E := sample_auth) (Some "k") local (run (E := sample_auth) (Some "k") [OpDeleteAll] paired).1).2 = inr (Pass anonymous).
Proof. vm_compute. done. Qed.
(** A terminal that is registered after its device was revoked, having been
    let in before, is not told to close. *)
Example late_connection_stays_open :
  let paired := (run (E := sample_auth) (Some "k") pairing empty_db).1 in
  (handshake (E := sample_auth) (Some "k") (with_token "boid_pat_x") paired).2 = inr (Some "devxx") ∧
  let late := (run (E := sample_auth) (Some "k") [OpHandshake (with_token "boid_pat_x"); OpMgmtDelete "devxx"; OpRegister "devxx"] paired).1 in
  (0%nat ∉ closed (conns late)) ∧ (0%nat ∈ default ∅ (entries (conns late) !! "devxx")).
Proof. vm_compute. split; [done|]. split; [|done]. intros H. discriminate H. Qed.
